(* ===== verification/_CoqProject ===== *)
-Q . S2P
Prelude.v
KeyedVector.v
Monitor.v
AVQueue.v
Memory.v
Stream.v
StreamLedger.v
Adaptor.v
Floats.v
SmoothZoom.v
World.v
PrepareHandler.v
RequestHandler.v
DeviceState.v
DeviceStreams.v
DeviceRequests.v
DeviceResults.v
Client.v
ClientInvariants.v
ResultOrder.v
Delivery.v
Submission.v
RequestBatch.v
PendingTable.v
Configuration.v
StreamLifetime.v
CameraModes.v
ExtraParam.v
ThreadHelper.v
BufferProducer.v
FrameRate.v
Rescaler.v
Track.v
TrackFlow.v
RecorderTypes.v
EncoderCore.v
EncoderFacts.v
SimpleSources.v
Thumbnail.v
ThumbnailFacts.v
CameraUtils.v
CameraInterface.v
ContextTypes.v
ContextRequests.v
CameraContext.v
ContextDemo.v
ZslFacts.v
ContextFacts.v
ContextStreams.v
ContextWires.v
Parcel.v
Binder.v
BinderFacts.v
CameraSource.v
SimpleDevice.v
CameraSourceLaws.v
Wiring.v
Recorder.v
RecorderCameras.v
RecorderSessions.v
RecorderRegistry.v
RecorderService.v
RecorderServiceFacts.v
Callbacks.v
RecorderClient.v
Transfer.v
Service.v
