(* ===== verification/Prelude.v ===== *)
(** * A verified model of the qmmf-sdk media server

    The qmmf-sdk serves cameras to its clients: a service process owns the
    camera devices, clients ask it for sessions of audio and video tracks and
    for snapshots, and frames travel from the camera HAL through a chain of
    producers and consumers to an encoder or to the client.  This library
    models the C++ code as Rocq functions and proves what makes it correct.
    Names follow the source; each file names the source files it models.

    ** The parts and their files

    Support: [Prelude] (notations, machine integers, the state monad [ST],
    tactics), [KeyedVector] (std::map and KeyedVector as ordered association
    lists), [Floats] (IEEE 754 arithmetic by the Standard Library's
    specification).

    The camera adaptor, src/common/cameraadaptor, talks to the camera HAL:
    - [Monitor]: Camera3Monitor, the idle tracking;
    - [Memory]: the allocator interface and the GBM allocator,
      src/common/memory;
    - [Stream]: Camera3Stream, the buffers of one stream; [StreamLedger]: what
      HAL and client have of them;
    - [Adaptor], [SmoothZoom]: the data types, the zoom by request;
    - [PrepareHandler], [RequestHandler]: the threads that allocate buffers
      ahead and that send requests;
    - [World], [DeviceState], [DeviceStreams], [DeviceRequests],
      [DeviceResults], [Client]: Camera3DeviceClient by its groups of
      operations, over a state [World] with the heap of streams, the HAL and
      the calls out; [Client.client_step] is one operation of a client thread,
      of a worker thread or of a HAL callback;
    - [ClientInvariants], [ResultOrder], [Delivery], [Submission],
      [RequestBatch], [PendingTable], [Configuration], [StreamLifetime],
      [CameraModes]: its theorems.

    The recorder service, src/recorder/src/service, serves the clients:
    - [CameraUtils]: the capabilities of a camera as its static metadata give
      them, src/common/utils/qmmf_common_utils.h;
    - [CameraInterface]: what a camera context promises, a class;
      [ContextTypes], [ContextRequests], [CameraContext]: CameraContext with
      its ports and the queue for zero shutter lag, over an interface of the
      device; [ContextDemo], [SimpleDevice]: devices to compute with;
      [ZslFacts], [ContextFacts], [ContextStreams], [ContextWires]: its
      theorems, the last one that it keeps its consumers as
      [CameraInterface.CameraWires] promises to those that wire tracks;
    - [BufferProducer]: the reference counted hand-over of buffers;
    - [FrameRate]: FrameRateController, which skips and repeats frames;
    - [Rescaler]: CameraRescaler, its buffer pool and its thread;
    - [Track], [TrackFlow]: TrackSource of qmmf_camera_source.cc, which takes
      frames from the camera and hands them to encoder, client and copies;
    - [CameraSource], [Thumbnail]: CameraSource, which wires cameras, rate
      controllers, rescalers and tracks, and takes the thumbnails out of
      JPEGs; [CameraSourceLaws], [Wiring], [ThumbnailFacts]: its theorems;
    - [EncoderCore], [EncoderFacts]: EncoderCore, the buffers between a track
      and its encoder;
    - [RecorderTypes], [SimpleSources]: the data of the recorder, the
      interfaces of the camera source and of the encoder as classes, and an
      instance to compute with;
    - [Recorder]: RecorderImpl, the clients, cameras, sessions and tracks;
      [RecorderCameras], [RecorderSessions], [RecorderRegistry]: its theorems;
    - [RecorderService], [RecorderServiceFacts]: RecorderService, the
      connections of the clients to the recorder;
    - [Service]: the recorder over the modelled camera source.

    The binder interface, src/recorder/src/client:
    - [Parcel]: what structures write to a parcel and read from it;
    - [Binder], [BinderFacts]: the calls of the service by a client, the
      proxy and [onTransact];
    - [Callbacks]: the calls of a client by the service, the same way;
    - [RecorderClient]: RecorderClient, in the process of the application;
    - [Transfer]: the frames on the way from the proxy in the service to the
      application.

    Libraries: [AVQueue] (src/common/avqueue), [ThreadHelper]
    (src/common/utils), [ExtraParam] (the container of tagged structures that
    clients pass, src/recorder/src/client).

    Calls go [RecorderClient] - [Binder] - [RecorderService] - [Recorder] -
    [CameraSource] - [CameraContext] - camera adaptor; frames come back from
    the adaptor through the ports of the context, rate controllers, rescalers
    and tracks to [EncoderCore] or, by [Callbacks], to the client.  Each
    layer is written against a class that states what it asks of the next
    one, and has an instance of the class that the layer above asks for.

    ** How state and effects are modelled

    A class is a record with the fields of its header; a method is a function
    of the computation type [ST S A] of [Prelude], or a function on the
    record where it cannot go wrong.  [None] is undefined behaviour: a null or
    dangling pointer, an index out of range, a failed assertion; theorems that
    end in [Some] say that it does not occur.  Integers are [Z]; [u32] and
    [i32] wrap around where the code can reach the bounds.  std::map is a
    [kv] where its order is used and a [gmap] where it is not.

    Threads: what holds a lock throughout is one step.  A method that waits
    takes, for each wake-up of the wait, a function that stands for all that
    other threads did meanwhile; [None] is a wait that is not over.  A method
    that lets go of its lock takes such a function for each gap
    ([RequestHandler.Gaps] around the calls of the HAL, [Rescaler.PassGaps]
    around drawing), or is a sequence of sections between which others go on
    ([Rescaler.thread_section], [ThreadHelper]).  Over the camera client, [Client.effect] is the closure of these steps: a theorem
    about [effect w w'] holds for every interleaving.  The order of calls out
    of a component is kept in a list of the state.

    Parameters: the camera HAL, the metadata of the camera, the allocators,
    libgbm, the drawing engine, the codec, android::Parcel, the kernel's
    choice of descriptors and addresses and the platform's constants are
    classes with the behaviour the code relies on as their laws; each has a
    concrete instance, on which the witnesses run.

    ** What the theorems show

    - Memory and buffers: each buffer is in one place, counted rightly and not
      freed while somebody has it: in a stream, in every interleaving of the
      client, in the producers, the skipping controller, the rescaler, the
      tracks, the encoders and the queue for zero shutter lag, while those
      outside return only what they have
      ([StreamLedger.stream_buffers_conserved], [ClientInvariants.client_memory_safe],
      [BufferProducer.producer_conserves_buffers],
      [FrameRate.skip_mode_returns_buffers], [Rescaler.outputs_never_shared],
      [Rescaler.rescaler_returns_frames],
      [TrackFlow.track_returns_each_buffer],
      [EncoderFacts.encoder_buffers_conserved],
      [ZslFacts.zsl_buffers_conserved]).  What the code loses or gives twice
      otherwise is stated next to them ([Stream.reconfigure_pending_leaks],
      [Stream.double_return_frees_lent_buffer],
      [TrackFlow.repeated_frame_is_lost],
      [EncoderFacts.Demo.forced_stop_shares_buffer]).
    - Streams and ports: the repeated request serves the ports that run, and
      what a session starts its end undoes, down to the consumers of the
      camera's streams ([ContextStreams], [Wiring], [ContextWires]).
    - Requests and results: batches are queued whole, requests are numbered
      in order and registered before the HAL sees them, results come in order
      and once ([RequestBatch], [RequestHandler], [Submission], [ResultOrder],
      [Delivery], [PendingTable]).
    - State machines: streams, configuration, error state, idle tracking,
      threads ([Stream.stream_lifecycle], [Configuration], [ClientInvariants],
      [Monitor], [ThreadHelper],
      [RecorderSessions]).
    - Who owns what: cameras have one owner and sessions one client, also
      over the modelled camera source ([RecorderCameras],
      [RecorderRegistry], [Service]).
    - Processes: a call through the binder is the local call, the service
      runs the recorder, and frames on the way arrive with the right memory
      unless two sessions number a track alike or a deletion is refused
      ([BinderFacts.remote_call_is_local],
      [RecorderServiceFacts.service_runs_recorder],
      [Transfer.data_on_the_way_arrive]).
    - Data structures against abstract ones: the queue against a bounded
      sequence, the container of parameters against a map, a rebuilt container
      against its original ([AVQueue], [ExtraParam]).
    - Rates and termination: zooms arrive, threads stop, the output rate is
      kept, and the repeat loop ends except where it provably does not
      ([SmoothZoom], [ThreadHelper], [FrameRate]).
    - Errors: some theorems state what the code does and should not; the
      comment before each says so.

    ** Bounds and fuel

    [FrameLimit] bounds the frame numbers that are handed out, below 2^31, in
    the theorems about the client.  [FrameRate.OnFrameAvailable] takes fuel
    for its loop: [FrameRate.repeat_ends_unless_early] gives the number that
    is enough, and the frames for which none is.  [ExtraParam.acquire_loop]
    and [ExtraParam.reorganize_loop] take the size of the buffer, which each
    round shortens.  Time stamps stay within 64 bits.

    ** Not modelled

    Pixels and samples (drawing, overlays, the resizers, JPEG and codec
    engines and the OMX client), the bytes of Exif headers, logging,
    properties and dumps, thread names and priorities; the HAL1 variant of
    the camera context, which is built instead of the modelled one; the
    second and third allocator back end (Gralloc1 and Gralloc2), which only
    rename calls of a platform library; the import of buffers by gbm in the
    client (built with TARGET_USES_GBM only); the pulse audio client and the
    sources and encoders of audio tracks, which the recorder asks through an
    interface that [Recorder] takes as an argument; the main program, the
    facade of the client, which calls one method for each of its own, and
    RemoteCallBack, which hands calls on; tests. *)

From stdpp Require Export base tactics list gmap fin_maps.
From Stdlib Require Export ZArith Lia Bool.

(** ** Functional update of record fields

    [r <| f := v |>] is [r] with its field [f] replaced.  A record type joins
    by declaring its eta expansion as an instance of [Settable]; the update
    of each field is then derived by type class resolution. *)

Class Settable (R : Type) := { eta_expand : R -> R }.

Class FieldUpdate {R T : Type} (p : R -> T) := { update_field : (T -> T) -> R -> R }.

Ltac derive_field_update :=
  match goal with
  | |- @FieldUpdate ?R ?T ?p =>
      let inst := constr:(ltac:(typeclasses eauto) : Settable R) in
      let e := eval hnf in (@eta_expand R inst) in
      let q := eval pattern p in e in
      match q with
      | ?ctx _ => exact (Build_FieldUpdate R T p (fun upd => ctx (fun r => upd (p r))))
      end
  end.

#[export] Hint Extern 1 (FieldUpdate _) => derive_field_update : typeclass_instances.

Declare Scope qmmf_scope.
Delimit Scope qmmf_scope with qmmf.
Notation "r <| f := v |>" := (update_field (p := f) (fun _ => v) r)
  (at level 1, left associativity, f at level 0, v at level 200,
   format "r  <| f  :=  v |>") : qmmf_scope.
Open Scope qmmf_scope.
Open Scope Z_scope.

(** ** Result codes of the C library

    The functions of the program return 0 or a negated [errno]. *)

Definition OK : Z := 0.
Definition EPERM : Z := 1.
Definition ENOENT : Z := 2.
Definition EINTR : Z := 4.
Definition ENOMEM : Z := 12.
Definition EFAULT : Z := 14.
Definition EBUSY : Z := 16.
Definition EEXIST : Z := 17.
Definition ENODEV : Z := 19.
Definition EINVAL : Z := 22.
Definition ENOSYS : Z := 38.
Definition ENODATA : Z := 61.
Definition ENOTCONN : Z := 107.
Definition ETIMEDOUT : Z := 110.
Definition EALREADY : Z := 114.

(** ** Machine integers *)

Definition UINT32_MOD : Z := 4294967296.
Definition INT32_HALF : Z := 2147483648.

(** Wrap-around of [uint32_t] arithmetic. *)
Definition u32 (z : Z) : Z := z mod UINT32_MOD.

(** Conversion to [int32_t]: the two's complement value of the low 32 bits. *)
Definition i32 (z : Z) : Z := (z + INT32_HALF) mod UINT32_MOD - INT32_HALF.

Definition is_u32 (z : Z) : Prop := 0 <= z < UINT32_MOD.
Definition is_i32 (z : Z) : Prop := - INT32_HALF <= z < INT32_HALF.

Lemma u32_range z : is_u32 (u32 z).
Proof. unfold is_u32, u32, UINT32_MOD. apply Z.mod_pos_bound. lia. Qed.

Lemma u32_small z : is_u32 z -> u32 z = z.
Proof. unfold is_u32, u32. intros H. by apply Z.mod_small. Qed.

Lemma i32_range z : is_i32 (i32 z).
Proof.
  unfold is_i32, i32, UINT32_MOD, INT32_HALF.
  pose proof (Z.mod_pos_bound (z + 2147483648) 4294967296). lia.
Qed.

Lemma i32_small z : is_i32 z -> i32 z = z.
Proof.
  unfold is_i32, i32, UINT32_MOD, INT32_HALF. intros H.
  rewrite Z.mod_small; lia.
Qed.

Lemma i32_u32 z : i32 (u32 z) = i32 z.
Proof. unfold i32, u32. by rewrite Zplus_mod_idemp_l. Qed.

Lemma u32_add_l a b : u32 (u32 a + b) = u32 (a + b).
Proof. unfold u32. by rewrite Zplus_mod_idemp_l. Qed.

Lemma u32_add_r a b : u32 (a + u32 b) = u32 (a + b).
Proof. unfold u32. by rewrite Zplus_mod_idemp_r. Qed.

Lemma u32_idem a : u32 (u32 a) = u32 a.
Proof. unfold u32. by rewrite Zmod_mod. Qed.

(** Counters kept in [uint32_t] variables that move together stay together:
    the sum is read modulo the width. *)
Lemma u32_balance a b c d e :
  u32 (a + b) = u32 c -> d + e = a + b -> u32 (u32 d + u32 e) = u32 c.
Proof. intros H E. by rewrite u32_add_l, u32_add_r, E. Qed.

Create HintDb qmmf discriminated.
Create Rewrite HintDb qmmf.
#[export] Hint Resolve u32_range i32_range : qmmf.
#[export] Hint Rewrite u32_add_l u32_add_r u32_idem : qmmf.

(** ** Tactics *)

(** Splits existentials and conjunctions of the context. *)
Ltac split_hyps :=
  repeat match goal with
    | H : exists x, _ |- _ => let x' := fresh x in destruct H as [x' H]
    | H : _ /\ _ |- _ => destruct H
    end.

(** Case analysis on the condition of the first [if] or [match] of the goal. *)
Ltac case_goal :=
  match goal with
  | |- context [ if ?b then _ else _ ] => let E := fresh "E" in destruct b eqn:E
  | |- context [ match ?x with _ => _ end ] => let E := fresh "E" in destruct x eqn:E
  end.

(** The same for a hypothesis. *)
Ltac case_hyp H :=
  match type of H with
  | context [ if ?b then _ else _ ] => let E := fresh "E" in destruct b eqn:E
  | context [ match ?x with _ => _ end ] => let E := fresh "E" in destruct x eqn:E
  end.

(** Turns boolean comparisons of the context into propositions. *)
Ltac bool_hyps :=
  repeat match goal with
    | H : _ && _ = true |- _ => apply andb_true_iff in H; destruct H
    | H : _ || _ = false |- _ => apply orb_false_iff in H; destruct H
    | H : negb _ = true |- _ => apply negb_true_iff in H
    | H : negb _ = false |- _ => apply negb_false_iff in H
    | H : (_ =? _)%Z = true |- _ => apply Z.eqb_eq in H
    | H : (_ =? _)%Z = false |- _ => apply Z.eqb_neq in H
    | H : (_ <? _)%Z = true |- _ => apply Z.ltb_lt in H
    | H : (_ <? _)%Z = false |- _ => apply Z.ltb_ge in H
    | H : (_ <=? _)%Z = true |- _ => apply Z.leb_le in H
    | H : (_ <=? _)%Z = false |- _ => apply Z.leb_gt in H
    | H : bool_decide _ = true |- _ => apply bool_decide_eq_true in H
    | H : bool_decide _ = false |- _ => apply bool_decide_eq_false in H
    end.

(** ** Reflexive-transitive closure of a step relation by a list of labels *)

Section Reach.
Context {S L : Type} (step : S -> L -> S).

(** The state after a sequence of steps. *)
Definition run (s : S) (ls : list L) : S := fold_left step ls s.

Lemma run_app s l1 l2 : run s (l1 ++ l2) = run (run s l1) l2.
Proof. apply fold_left_app. Qed.

Lemma run_invariant (I : S -> Prop) :
  (forall s l, I s -> I (step s l)) -> forall ls s, I s -> I (run s ls).
Proof. intros Hstep ls. induction ls; simpl; auto. Qed.

(** The same with an assumption on every label, which may depend on the
    state in which the step is taken. *)
Fixpoint admissible (ok : S -> L -> Prop) (s : S) (ls : list L) : Prop :=
  match ls with
  | [] => True
  | l :: ls' => ok s l /\ admissible ok (step s l) ls'
  end.

Lemma run_invariant_adm (ok : S -> L -> Prop) (I : S -> Prop) :
  (forall s l, I s -> ok s l -> I (step s l)) ->
  forall ls s, I s -> admissible ok s ls -> I (run s ls).
Proof.
  intros Hstep ls. induction ls as [|l ls IH]; simpl; [done|].
  intros s Hs [Hl Hls]. apply IH; auto.
Qed.
End Reach.

(** ** Stateful code

    [ST S A] is a computation on the state [S]: [None] is undefined behaviour
    (a pointer that does not point to an object, an index out of range).
    [wp m Q s] says that [m] started in [s] is defined and ends in [Q]. *)

Definition ST (S A : Type) : Type := S -> option (A * S).

Section ST.
Context {S : Type}.

Definition ret {A} (a : A) : ST S A := fun s => Some (a, s).

Definition bind {A B} (m : ST S A) (k : A -> ST S B) : ST S B := fun s =>
  match m s with Some (a, s') => k a s' | None => None end.

Definition gets {A} (f : S -> A) : ST S A := fun s => Some (f s, s).

Definition modify (f : S -> S) : ST S unit := fun s => Some (tt, f s).

Definition undefined {A} : ST S A := fun _ => None.

(** A step that cannot go wrong. *)
Definition pure_step {A} (f : S -> A * S) : ST S A := fun s => Some (f s).

Definition wp {A} (m : ST S A) (Q : A -> S -> Prop) (s : S) : Prop :=
  match m s with Some (a, s') => Q a s' | None => False end.

Fixpoint for_each {A} (l : list A) (body : A -> ST S unit) : ST S unit :=
  match l with
  | [] => ret tt
  | x :: l' => bind (body x) (fun _ => for_each l' body)
  end.

(** A computation step by step. *)
Lemma bind_some {A B} (m : ST S A) (k : A -> ST S B) s b s' : bind m k s = Some (b, s') ->
  exists a s1, m s = Some (a, s1) /\ k a s1 = Some (b, s').
Proof. unfold bind. destruct (m s) as [[a s1]|]; [|done]. intros Hk. by exists a, s1. Qed.

Lemma bind_eq {A B} (m : ST S A) (k : A -> ST S B) s a s1 : m s = Some (a, s1) -> bind m k s = k a s1.
Proof. unfold bind. by intros ->. Qed.

Lemma bind_gets {A B} (f : S -> A) (k : A -> ST S B) s : bind (gets f) k s = k (f s) s.
Proof. done. Qed.

Lemma wp_ret {A} (a : A) Q s : wp (ret a) Q s <-> Q a s.
Proof. done. Qed.

Lemma wp_gets {A} (f : S -> A) Q s : wp (gets f) Q s <-> Q (f s) s.
Proof. done. Qed.

Lemma wp_modify f Q s : wp (modify f) Q s <-> Q tt (f s).
Proof. done. Qed.

Lemma wp_pure_step {A} (f : S -> A * S) (Q : A -> S -> Prop) s :
  wp (pure_step f) Q s <-> Q (fst (f s)) (snd (f s)).
Proof. unfold wp, pure_step. by destruct (f s). Qed.

Lemma wp_bind {A B} (m : ST S A) (k : A -> ST S B) Q s :
  wp (bind m k) Q s <-> wp m (fun a => wp (k a) Q) s.
Proof. unfold wp, bind. by destruct (m s) as [[a s']|]. Qed.

Lemma wp_some {A} (m : ST S A) Q s : wp m Q s -> exists a s', m s = Some (a, s') /\ Q a s'.
Proof. unfold wp. destruct (m s) as [[a s']|]; [|done]. intros HQ. by exists a, s'. Qed.

Lemma wp_mono {A} (m : ST S A) (P Q : A -> S -> Prop) s :
  wp m P s -> (forall a s', P a s' -> Q a s') -> wp m Q s.
Proof. unfold wp. destruct (m s) as [[a s']|]; auto. Qed.

Lemma wp_and {A} (m : ST S A) (P Q : A -> S -> Prop) s :
  wp m P s -> wp m Q s -> wp m (fun a s' => P a s' /\ Q a s') s.
Proof. unfold wp. by destruct (m s) as [[a s']|]. Qed.

(** A loop keeps an invariant that its body keeps. *)
Lemma wp_for_each {A} (l : list A) body (I : S -> Prop) s :
  (forall x s, x ∈ l -> I s -> wp (body x) (fun _ => I) s) -> I s ->
  wp (for_each l body) (fun _ => I) s.
Proof.
  revert s. induction l as [|x l IH]; intros s Hb HI; [done|].
  simpl. apply wp_bind. apply (wp_mono _ (fun _ => I)); [apply Hb; [by left|done]|].
  intros _ s' HI'. apply IH; [|done]. intros y s'' Hy. apply Hb. by right.
Qed.

(** ** Invariants of computations

    [preserves I m]: where [m] is defined, it takes a state of [I] to one. *)
Definition preserves {A} (I : S -> Prop) (m : ST S A) : Prop :=
  forall s, I s -> match m s with Some (_, s') => I s' | None => True end.

Lemma preserves_ret {A} I (a : A) : preserves I (ret a).
Proof. by intros s Hs. Qed.

Lemma preserves_gets {A} I (f : S -> A) : preserves I (gets f).
Proof. by intros s Hs. Qed.

Lemma preserves_undefined {A} I : preserves I (@undefined A).
Proof. done. Qed.

Lemma preserves_modify I f : (forall s, I s -> I (f s)) -> preserves I (modify f).
Proof. intros Hf s Hs. by apply Hf. Qed.

Lemma preserves_pure_step {A} I (f : S -> A * S) : (forall s, I s -> I (snd (f s))) ->
  preserves I (pure_step f).
Proof. intros Hf s Hs. unfold pure_step. specialize (Hf s Hs). by destruct (f s). Qed.

Lemma preserves_bind {A B} I (m : ST S A) (k : A -> ST S B) :
  preserves I m -> (forall a, preserves I (k a)) -> preserves I (bind m k).
Proof.
  intros Hm Hk s Hs. unfold bind. specialize (Hm s Hs). destruct (m s) as [[a s']|]; [|done].
  by apply Hk.
Qed.

Lemma preserves_for_each {A} I (l : list A) body :
  (forall x, x ∈ l -> preserves I (body x)) -> preserves I (for_each l body).
Proof.
  induction l as [|x l IH]; intros Hb; simpl; [apply preserves_ret|].
  apply preserves_bind; [apply Hb; by left|]. intros _. apply IH. intros y Hy. apply Hb. by right.
Qed.

(** The same with a condition on the way. *)
Definition hoare {A} (P : S -> Prop) (m : ST S A) (Q : A -> S -> Prop) : Prop :=
  forall s, P s -> match m s with Some (a, s') => Q a s' | None => True end.

Lemma hoare_preserves {A} (P : S -> Prop) (m : ST S A) : preserves P m -> hoare P m (fun _ => P).
Proof. done. Qed.

Lemma hoare_bind {A B} P (m : ST S A) (k : A -> ST S B) Q R :
  hoare P m R -> (forall a, hoare (R a) (k a) Q) -> hoare P (bind m k) Q.
Proof.
  intros Hm Hk s Hs. unfold bind. specialize (Hm s Hs). destruct (m s) as [[a s']|]; [|done].
  by apply Hk.
Qed.

Lemma hoare_gets {A} P (f : S -> A) : hoare P (gets f) (fun a s => P s /\ a = f s).
Proof. by intros s Hs. Qed.

Lemma hoare_weaken {A} P P' (m : ST S A) (Q Q' : A -> S -> Prop) :
  (forall s, P s -> P' s) -> hoare P' m Q' -> (forall a s, Q' a s -> Q a s) -> hoare P m Q.
Proof.
  intros Hp Hm Hq s Hs. specialize (Hm s (Hp s Hs)). destruct (m s) as [[a s']|]; [|done]. by apply Hq.
Qed.

Lemma preserves_wp {A} I (m : ST S A) s : preserves I m -> I s ->
  wp m (fun _ _ => True) s -> wp m (fun _ => I) s.
Proof. unfold preserves, wp. intros Hm Hs Hd. specialize (Hm s Hs). by destruct (m s) as [[a s']|]. Qed.
End ST.

(** The first step of a computation a [preserves] goal is about. *)
Ltac preserve_step :=
  lazymatch goal with
  | |- preserves _ (bind _ _) => apply preserves_bind; [|intros ?]
  | |- preserves _ (ret _) => apply preserves_ret
  | |- preserves _ (gets _) => apply preserves_gets
  | |- preserves _ undefined => apply preserves_undefined
  | |- preserves _ (for_each _ _) => apply preserves_for_each; intros ? _
  | |- preserves _ (match ?x with _ => _ end) => destruct x
  end.

Create HintDb preserves discriminated.

Notation "'let*' x := m 'in' k" := (bind m (fun x => k))
  (at level 10, x name, m at level 100, k at level 200) : qmmf_scope.
Notation "'do*' m 'in' k" := (bind m (fun _ => k))
  (at level 10, m at level 100, k at level 200) : qmmf_scope.

#[export] Hint Rewrite @wp_ret @wp_gets @wp_modify @wp_bind @wp_pure_step : qmmf.
