(* ===== verification/KeyedVector.v ===== *)
(** * The ordered key/value container the camera adaptor uses

    The adaptor keeps its streams, monitors, buffers and pending requests in
    Android's [KeyedVector]: an array of pairs ordered by key, where [add]
    replaces the value of a key that is present, a look-up returns the index
    of the key or the negative code [-ENOENT], and a loop [valueAt(i)] visits
    the pairs in the order of their keys.  Its source is not part of the
    repository; what the code relies on is this documented content, kept here
    as an association list ordered by key.  [kv_ordered] is the representation
    invariant, and [kv_lookup] gives the meaning of every operation. *)

From S2P Require Import Prelude.

Section KeyedVector.
Context {V : Type}.

Abbreviation kv := (list (Z * V)).

Fixpoint kv_lookup (k : Z) (m : kv) : option V :=
  match m with
  | [] => None
  | (k', v) :: m' => if k =? k' then Some v else kv_lookup k m'
  end.

(** [add]: inserts in key order, replaces the value of a present key. *)
Fixpoint kv_add (k : Z) (v : V) (m : kv) : kv :=
  match m with
  | [] => [(k, v)]
  | (k', v') :: m' =>
      if k <? k' then (k, v) :: m
      else if k =? k' then (k, v) :: m'
      else (k', v') :: kv_add k v m'
  end.

(** [removeItem]. *)
Fixpoint kv_remove (k : Z) (m : kv) : kv :=
  match m with
  | [] => []
  | (k', v') :: m' => if k =? k' then m' else (k', v') :: kv_remove k m'
  end.

(** [replaceValueFor] and writes through [editValueAt]: a present key only. *)
Fixpoint kv_replace (k : Z) (v : V) (m : kv) : kv :=
  match m with
  | [] => []
  | (k', v') :: m' => if k =? k' then (k', v) :: m' else (k', v') :: kv_replace k v m'
  end.

Definition kv_keys (m : kv) : list Z := map fst m.
Definition kv_values (m : kv) : list V := map snd m.

Definition kv_mem (k : Z) (m : kv) : bool :=
  match kv_lookup k m with Some _ => true | None => false end.

Fixpoint kv_index_from (i : Z) (k : Z) (m : kv) : Z :=
  match m with
  | [] => - ENOENT
  | (k', _) :: m' => if k =? k' then i else kv_index_from (i + 1) k m'
  end.

(** [indexOfKey]. *)
Definition kv_indexOf (k : Z) (m : kv) : Z := kv_index_from 0 k m.

(** Keys are strictly increasing. *)
Fixpoint kv_ordered (m : kv) : Prop :=
  match m with
  | [] => True
  | (k, _) :: m' => Forall (fun p => k < fst p) m' /\ kv_ordered m'
  end.

Lemma kv_lookup_below k (m : kv) :
  Forall (fun p => k < fst p) m -> kv_lookup k m = None.
Proof.
  induction 1 as [|[k' v'] m Hlt _ IH]; simpl in *; [done|].
  destruct (Z.eqb_spec k k'); [lia|done].
Qed.

Lemma kv_lookup_add k k' v (m : kv) :
  kv_lookup k (kv_add k' v m) = if k =? k' then Some v else kv_lookup k m.
Proof.
  induction m as [|[k0 v0] m IH]; simpl; [done|].
  destruct (Z.ltb_spec k' k0); simpl; [done|].
  destruct (Z.eqb_spec k' k0) as [->|]; simpl.
  - by destruct (Z.eqb_spec k k0).
  - rewrite IH. destruct (Z.eqb_spec k k0); destruct (Z.eqb_spec k k'); congruence.
Qed.

Lemma kv_lookup_remove k k' (m : kv) :
  kv_ordered m ->
  kv_lookup k (kv_remove k' m) = if k =? k' then None else kv_lookup k m.
Proof.
  induction m as [|[k0 v0] m IH]; simpl; [by destruct (k =? k')|].
  intros [Hlt Ho].
  destruct (Z.eqb_spec k' k0) as [->|]; simpl.
  - destruct (Z.eqb_spec k k0) as [->|]; [by apply kv_lookup_below|done].
  - rewrite IH by done.
    destruct (Z.eqb_spec k k0); destruct (Z.eqb_spec k k'); congruence.
Qed.

Lemma kv_lookup_replace k k' v (m : kv) :
  kv_lookup k (kv_replace k' v m) =
    if (k =? k') && kv_mem k m then Some v else kv_lookup k m.
Proof.
  unfold kv_mem. induction m as [|[k0 v0] m IH]; simpl; [by destruct (k =? k')|].
  destruct (Z.eqb_spec k' k0) as [->|]; simpl.
  - by destruct (Z.eqb_spec k k0).
  - rewrite IH. destruct (Z.eqb_spec k k0); [|done].
    destruct (Z.eqb_spec k k'); [congruence|done].
Qed.

Lemma kv_add_above k k' v (m : kv) :
  k < k' -> Forall (fun p => k < fst p) m -> Forall (fun p => k < fst p) (kv_add k' v m).
Proof.
  intros Hk. induction 1 as [|[k0 v0] m Hlt Hm IH]; simpl in *; [by repeat constructor|].
  destruct (k' <? k0); [by repeat constructor|].
  destruct (k' =? k0); by repeat constructor.
Qed.

Lemma kv_remove_above k k' (m : kv) :
  Forall (fun p => k < fst p) m -> Forall (fun p => k < fst p) (kv_remove k' m).
Proof.
  induction 1 as [|[k0 v0] m Hlt Hm IH]; simpl in *; [done|].
  destruct (k' =? k0); [done|by constructor].
Qed.

Lemma kv_add_ordered k v (m : kv) : kv_ordered m -> kv_ordered (kv_add k v m).
Proof.
  induction m as [|[k0 v0] m IH]; simpl; [by repeat constructor|].
  intros [Hlt Ho].
  destruct (Z.ltb_spec k k0); simpl.
  - split; [|done]. constructor; [done|].
    eapply Forall_impl; [exact Hlt|]. simpl. lia.
  - destruct (Z.eqb_spec k k0) as [->|]; simpl; [done|].
    split; [apply kv_add_above; [lia|done]|auto].
Qed.

Lemma kv_remove_ordered k (m : kv) : kv_ordered m -> kv_ordered (kv_remove k m).
Proof.
  induction m as [|[k0 v0] m IH]; simpl; [done|].
  intros [Hlt Ho]. destruct (k =? k0); [done|]. simpl.
  split; [by apply kv_remove_above|auto].
Qed.

Lemma kv_keys_replace k v (m : kv) : kv_keys (kv_replace k v m) = kv_keys m.
Proof.
  induction m as [|[k0 v0] m IH]; simpl; [done|].
  destruct (k =? k0); simpl; [done|]. by rewrite <- IH.
Qed.

Lemma kv_replace_length k v (m : kv) : length (kv_replace k v m) = length m.
Proof.
  rewrite <- (length_map fst (kv_replace k v m)), <- (length_map fst m).
  exact (f_equal length (kv_keys_replace k v m)).
Qed.

Lemma kv_replace_replace k v v' (m : kv) : kv_replace k v (kv_replace k v' m) = kv_replace k v m.
Proof.
  induction m as [|[k0 v0] m IH]; simpl; [done|].
  destruct (k =? k0) eqn:E; simpl; rewrite E; [done|by rewrite IH].
Qed.

Lemma kv_remove_replace k v (m : kv) : kv_remove k (kv_replace k v m) = kv_remove k m.
Proof.
  induction m as [|[k0 v0] m IH]; simpl; [done|].
  destruct (k =? k0) eqn:E; simpl; rewrite E; [done|by rewrite IH].
Qed.

Lemma kv_lookup_replaced k v v0 (m : kv) : kv_lookup k m = Some v0 -> kv_lookup k (kv_replace k v m) = Some v.
Proof.
  induction m as [|[k0 v1] m IH]; simpl; [done|].
  destruct (k =? k0) eqn:E; simpl; rewrite E; [done|]. exact IH.
Qed.

Lemma kv_replace_same k v (m : kv) : kv_lookup k m = Some v -> kv_replace k v m = m.
Proof.
  induction m as [|[k0 v0] m IH]; simpl; [done|].
  destruct (Z.eqb_spec k k0) as [->|]; [by intros [= ->]|]. intros E. by rewrite IH.
Qed.

Lemma kv_ordered_keys (m m' : kv) :
  kv_keys m = kv_keys m' -> kv_ordered m -> kv_ordered m'.
Proof.
  revert m'. induction m as [|[k v] m IH]; intros [|[k' v'] m']; simpl; try done.
  intros [= <- Hk] [Hlt Ho]. split; [|by apply IH].
  apply (List.Forall_map fst (fun k1 => k < k1)).
  apply (List.Forall_map fst (fun k1 => k < k1)) in Hlt.
  change (Forall (fun k1 => k < k1) (kv_keys m')). by rewrite <- Hk.
Qed.

Lemma kv_replace_ordered k v (m : kv) : kv_ordered m -> kv_ordered (kv_replace k v m).
Proof. apply kv_ordered_keys. by rewrite kv_keys_replace. Qed.

Lemma kv_lookup_keys k (m : kv) : is_Some (kv_lookup k m) <-> k ∈ kv_keys m.
Proof.
  induction m as [|[k0 v0] m IH]; simpl.
  - split; [by intros [? ?]|]. intros H. by apply not_elem_of_nil in H.
  - rewrite elem_of_cons, <- IH. destruct (Z.eqb_spec k k0).
    + split; [by left|]. intros _. by eexists.
    + split; [by right|]. by intros [?|?].
Qed.

Lemma kv_mem_keys k (m : kv) : kv_mem k m = true <-> k ∈ kv_keys m.
Proof.
  rewrite <- kv_lookup_keys. unfold kv_mem.
  destruct (kv_lookup k m); split; try done; try (by eexists); by intros [? ?].
Qed.

Lemma kv_index_from_spec k (m : kv) : forall i, 0 <= i ->
  (kv_index_from i k m < 0 <-> kv_lookup k m = None) /\
  (kv_index_from i k m = - ENOENT <-> kv_lookup k m = None).
Proof.
  induction m as [|[k0 v0] m IH]; simpl; intros i Hi; [by unfold ENOENT|].
  destruct (k =? k0); [|apply IH; lia].
  unfold ENOENT. split; split; (lia || done).
Qed.

(** The two tests the code uses on the result of [indexOfKey]: [idx >= 0]
    and [idx == -ENOENT], decide presence. *)
Lemma kv_indexOf_neg k (m : kv) : (kv_indexOf k m <? 0) = negb (kv_mem k m).
Proof.
  destruct (kv_index_from_spec k m 0 ltac:(lia)) as [H _].
  unfold kv_indexOf, kv_mem. destruct (kv_lookup k m).
  - apply Z.ltb_ge. destruct (Z.lt_ge_cases (kv_index_from 0 k m) 0) as [Hl|]; [|done].
    apply H in Hl. done.
  - apply Z.ltb_lt. by apply H.
Qed.

Lemma kv_lookup_in k v (m : kv) : kv_lookup k m = Some v -> (k, v) ∈ m.
Proof.
  induction m as [|[k0 v0] m IH]; simpl; [done|].
  destruct (Z.eqb_spec k k0) as [->|]; [intros [= ->]; by left|right; auto].
Qed.

Lemma kv_in_lookup k v (m : kv) : kv_ordered m -> (k, v) ∈ m -> kv_lookup k m = Some v.
Proof.
  induction m as [|[k0 v0] m IH]; simpl; intros Ho Hin.
  - by apply not_elem_of_nil in Hin.
  - destruct Ho as [Hlt Ho]. apply elem_of_cons in Hin as [[= -> ->]|Hin].
    + by rewrite Z.eqb_refl.
    + destruct (Z.eqb_spec k k0) as [->|]; [|by apply IH].
      rewrite Forall_forall in Hlt. specialize (Hlt _ Hin). simpl in Hlt. lia.
Qed.

Lemma kv_ordered_NoDup (m : kv) : kv_ordered m -> NoDup (kv_keys m).
Proof.
  induction m as [|[k0 v0] m IH]; simpl; [constructor|].
  intros [Hlt Ho]. constructor; [|by apply IH].
  intros Hin. apply kv_lookup_keys in Hin as [v Hv].
  by rewrite (kv_lookup_below k0 m Hlt) in Hv.
Qed.

Lemma kv_add_length k v (m : kv) :
  kv_lookup k m = None -> length (kv_add k v m) = S (length m).
Proof.
  induction m as [|[k0 v0] m IH]; simpl; [done|].
  destruct (Z.eqb_spec k k0); [done|]. intros H.
  destruct (k <? k0); simpl; [done|]. by rewrite IH.
Qed.

Lemma kv_keys_add k v (m : kv) : kv_lookup k m = None ->
  kv_keys (kv_add k v m) ≡ₚ k :: kv_keys m.
Proof.
  induction m as [|[k0 v0] m IH]; simpl; [done|].
  destruct (Z.eqb_spec k k0); [done|]. intros H.
  destruct (k <? k0); simpl; [done|]. rewrite IH by done. constructor.
Qed.

(** Number of pairs whose value satisfies a test. *)
Definition kv_count (f : V -> bool) (m : kv) : Z :=
  Z.of_nat (length (filter (fun p : Z * V => f (snd p) = true) m)).

Lemma kv_count_cons f k v (m : kv) :
  kv_count f ((k, v) :: m) = (if f v then 1 else 0) + kv_count f m.
Proof.
  unfold kv_count. rewrite filter_cons. simpl.
  destruct (f v) eqn:E; case_decide; try congruence; simpl; lia.
Qed.

Lemma kv_count_add f k v (m : kv) : kv_lookup k m = None ->
  kv_count f (kv_add k v m) = (if f v then 1 else 0) + kv_count f m.
Proof.
  induction m as [|[k0 v0] m IH]; simpl; [intros; by rewrite kv_count_cons|].
  destruct (Z.eqb_spec k k0); [done|]. intros H.
  destruct (k <? k0); [by rewrite kv_count_cons|].
  rewrite !kv_count_cons, IH by done. lia.
Qed.

Lemma kv_count_replace f k v v0 (m : kv) : kv_lookup k m = Some v0 ->
  kv_count f (kv_replace k v m) =
    kv_count f m + (if f v then 1 else 0) - (if f v0 then 1 else 0).
Proof.
  induction m as [|[k1 v1] m IH]; simpl; [done|].
  destruct (k =? k1); rewrite !kv_count_cons.
  - intros [= ->]. lia.
  - intros H. rewrite (IH H). lia.
Qed.

Lemma kv_count_bound f (m : kv) : 0 <= kv_count f m <= Z.of_nat (length m).
Proof.
  unfold kv_count. split; [lia|]. apply inj_le.
  induction m as [|p m IH]; simpl; [lia|]. rewrite filter_cons.
  case_decide; simpl; lia.
Qed.
End KeyedVector.

Abbreviation kv V := (list (Z * V)) (only parsing).

#[export] Hint Resolve kv_add_ordered kv_remove_ordered kv_replace_ordered : qmmf.
