(* ===== verification/Monitor.v ===== *)
(** * Camera3Monitor: the idle tracker of the camera adaptor

    Models common/cameraadaptor/qmmf_camera3_monitor.{h,cc}.  Streams and the
    request handler own a monitor each and post [IDLE]/[ACTIVE] transitions to
    a queue; the monitor thread folds the queue into one composite state and
    reports each change of it to the device client ([idle_notify_]).

    Every operation runs under the two mutexes of the object, so it is one
    transition of [Camera3Monitor].  The condition variable wait of
    [ThreadLoop] gives the mutex up: a [Wake] carries what the wait returned
    and the state the other threads left. *)

From S2P Require Import Prelude KeyedVector.

Inductive MonitorState := IDLE | ACTIVE.

#[export] Instance MonitorState_eq_dec : EqDecision MonitorState.
Proof. solve_decision. Defined.

Record StateTransition := { st_id : Z; st_state : MonitorState }.

Record Camera3Monitor := mkMonitor {
  input_queue_ : list StateTransition;
  monitor_updated_ : bool;
  next_monitor_ : Z;
  monitor_states_ : kv MonitorState;
  composite_state_ : MonitorState;
  updated_states_ : list MonitorState
}.

#[export] Instance Camera3Monitor_settable : Settable Camera3Monitor :=
  {| eta_expand := fun m => mkMonitor (input_queue_ m) (monitor_updated_ m) (next_monitor_ m)
       (monitor_states_ m) (composite_state_ m) (updated_states_ m) |}.

Definition INVALID_ID : Z := -1.

Definition Camera3Monitor_init : Camera3Monitor := mkMonitor [] false 0 [] IDLE [].

Definition AcquireMonitor (m : Camera3Monitor) : Z * Camera3Monitor :=
  let id := next_monitor_ m in
  (id, m <| next_monitor_ := i32 (id + 1) |>
         <| monitor_states_ := kv_add id IDLE (monitor_states_ m) |>
         <| monitor_updated_ := true |>).

Definition ReleaseMonitor (id : Z) (m : Camera3Monitor) : Camera3Monitor :=
  if kv_mem id (monitor_states_ m) then
    m <| monitor_states_ := kv_remove id (monitor_states_ m) |>
      <| monitor_updated_ := true |>
  else m.

Definition ChangeState (id : Z) (state : MonitorState) (m : Camera3Monitor) : Camera3Monitor :=
  m <| input_queue_ := input_queue_ m ++ [{| st_id := id; st_state := state |}] |>.

Definition ChangeStateToIdle (id : Z) : Camera3Monitor -> Camera3Monitor := ChangeState id IDLE.

Definition ChangeStateToActive (id : Z) : Camera3Monitor -> Camera3Monitor :=
  ChangeState id ACTIVE.

Fixpoint BuildComposite (states : kv MonitorState) : MonitorState :=
  match states with
  | [] => IDLE
  | (_, s) :: states' => if decide (s = ACTIVE) then ACTIVE else BuildComposite states'
  end.

Definition BuildCompositeState (m : Camera3Monitor) : MonitorState :=
  BuildComposite (monitor_states_ m).

(** The loop of [ThreadLoop] over the input queue: [old] is [oldState], [upd]
    the vector [updated_states_]. *)
Fixpoint process_queue (q : list StateTransition) (states : kv MonitorState)
    (old : MonitorState) (upd : list MonitorState)
    : kv MonitorState * MonitorState * list MonitorState :=
  match q with
  | [] => (states, old, upd)
  | t :: q' =>
      if kv_mem (st_id t) states then
        let states' := kv_replace (st_id t) (st_state t) states in
        let new := BuildComposite states' in
        process_queue q' states' new (if decide (new = old) then upd else upd ++ [new])
      else process_queue q' states old upd
  end.

(** The part of [ThreadLoop] after the wait: the composite state is brought
    up to date, the notifications are the values passed to [idle_notify_]
    ([true] for idle). *)
Definition process_pass (m : Camera3Monitor) : list bool * Camera3Monitor :=
  let old := BuildCompositeState m in
  let upd := if decide (old = composite_state_ m) then updated_states_ m
             else updated_states_ m ++ [old] in
  let '(states, new, upd') := process_queue (input_queue_ m) (monitor_states_ m) old upd in
  (map (fun s => bool_decide (s = IDLE)) upd',
   m <| monitor_states_ := states |> <| input_queue_ := [] |>
     <| monitor_updated_ := false |> <| composite_state_ := new |>
     <| updated_states_ := [] |>).

Record Wake := mkWake { wk_res : Z; wk_exit : bool; wk_monitor : Camera3Monitor }.

Inductive LoopResult :=
  | Blocked
  | Exit
  | Processed (notified : list bool) (m : Camera3Monitor).

(** [ThreadLoop]; [ws] are the wake-ups of its wait, in order. *)
Fixpoint ThreadLoop (m : Camera3Monitor) (ws : list Wake) : LoopResult :=
  let pass m := let '(n, m') := process_pass m in Processed n m' in
  match input_queue_ m, monitor_updated_ m with
  | [], false =>
      match ws with
      | [] => Blocked
      | w :: ws' =>
          if wk_exit w then Exit
          else if wk_res w =? 0 then ThreadLoop (wk_monitor w) ws'
          else pass (wk_monitor w)
      end
  | _, _ => pass m
  end.

(** ** Specification of the notifications

    [changes p l] lists the elements of [l] that differ from their
    predecessor, [p] before the first. *)

Fixpoint changes (p : MonitorState) (l : list MonitorState) : list MonitorState :=
  match l with
  | [] => []
  | x :: l' => if decide (x = p) then changes p l' else x :: changes x l'
  end.

(** Composite states seen while the transitions are applied one by one. *)
Fixpoint composites (q : list StateTransition) (states : kv MonitorState) : list MonitorState :=
  match q with
  | [] => []
  | t :: q' =>
      let states' := kv_replace (st_id t) (st_state t) states in
      BuildComposite states' :: composites q' states'
  end.

Definition apply_queue (q : list StateTransition) (states : kv MonitorState) : kv MonitorState :=
  fold_left (fun s t => kv_replace (st_id t) (st_state t) s) q states.

Lemma kv_replace_absent {V} k (v : V) m : kv_lookup k m = None -> kv_replace k v m = m.
Proof.
  induction m as [|[k' v'] m IH]; simpl; [done|].
  destruct (k =? k'); [done|]. intros H. by rewrite IH.
Qed.

Lemma process_queue_spec q : forall states upd,
  process_queue q states (BuildComposite states) upd =
    (apply_queue q states, BuildComposite (apply_queue q states),
     upd ++ changes (BuildComposite states) (composites q states)).
Proof.
  induction q as [|t q IH]; intros states upd; simpl; [by rewrite app_nil_r|].
  destruct (kv_mem (st_id t) states) eqn:E.
  - rewrite IH. f_equal. case_decide as D; [by rewrite D|].
    by rewrite <- app_assoc.
  - assert (kv_replace (st_id t) (st_state t) states = states) as ->.
    { apply kv_replace_absent. unfold kv_mem in E. by destruct (kv_lookup _ _). }
    rewrite IH. by rewrite decide_True.
Qed.

Lemma process_pass_spec m :
  process_pass m =
    (map (fun s => bool_decide (s = IDLE))
       (updated_states_ m ++
        changes (composite_state_ m)
          (BuildCompositeState m :: composites (input_queue_ m) (monitor_states_ m))),
     mkMonitor [] false (next_monitor_ m) (apply_queue (input_queue_ m) (monitor_states_ m))
       (BuildComposite (apply_queue (input_queue_ m) (monitor_states_ m))) []).
Proof.
  unfold process_pass, BuildCompositeState. rewrite process_queue_spec. simpl.
  case_decide as D.
  - by rewrite <- D.
  - by rewrite <- app_assoc.
Qed.

Lemma BuildComposite_active states :
  BuildComposite states = ACTIVE <-> ACTIVE ∈ kv_values states.
Proof.
  induction states as [|[k s] states IH]; simpl.
  - split; [done|]. intros H. by apply not_elem_of_nil in H.
  - case_decide as D; rewrite elem_of_cons; [naive_solver|]. rewrite IH. naive_solver.
Qed.

(** The last element of [l], [p] when there is none. *)
Definition last_of (p : MonitorState) (l : list MonitorState) : MonitorState :=
  fold_left (fun _ x => x) l p.

Lemma last_changes l : forall p, last_of p (changes p l) = last_of p l.
Proof.
  induction l as [|x l IH]; intros p; simpl; [done|].
  case_decide as D; subst; apply IH.
Qed.

(** No two neighbours are equal. *)
Fixpoint alternating (p : MonitorState) (l : list MonitorState) : Prop :=
  match l with
  | [] => True
  | x :: l' => x <> p /\ alternating x l'
  end.

Lemma changes_alternating l : forall p, alternating p (changes p l).
Proof.
  induction l as [|x l IH]; intros p; simpl; [done|].
  case_decide; simpl; auto.
Qed.

Lemma alternating_app l1 l2 : forall p,
  alternating p (l1 ++ l2) <-> alternating p l1 /\ alternating (last_of p l1) l2.
Proof.
  induction l1 as [|x l1 IH]; intros p; simpl; [naive_solver|].
  rewrite IH. unfold last_of. simpl. naive_solver.
Qed.

Lemma last_composites q : forall states,
  last_of (BuildComposite states) (composites q states) = BuildComposite (apply_queue q states).
Proof. induction q as [|t q IH]; intros states; [done|]. apply IH. Qed.

Lemma apply_queue_keys q : forall states, kv_keys (apply_queue q states) = kv_keys states.
Proof.
  induction q as [|t q IH]; intros states; simpl; [done|].
  by rewrite IH, kv_keys_replace.
Qed.

Lemma kv_values_ordered_ex {V} (m : kv V) v :
  kv_ordered m -> v ∈ kv_values m <-> exists k, kv_lookup k m = Some v.
Proof.
  intros Ho. unfold kv_values. split.
  - intros H. apply list_elem_of_In, in_map_iff in H as ([k v'] & <- & Hin).
    exists k. apply kv_in_lookup; [done|]. by apply list_elem_of_In.
  - intros [k Hk]. apply kv_lookup_in in Hk.
    apply list_elem_of_In, in_map_iff. exists (k, v). split; [done|]. by apply list_elem_of_In.
Qed.

(** ** Operations of the other threads and whole runs *)

Inductive MonitorOp :=
  | OpAcquire
  | OpRelease (id : Z)
  | OpChange (id : Z) (s : MonitorState)
  | OpPass.

(** One operation; a pass of the monitor thread yields its notifications. *)
Definition monitor_step (m : Camera3Monitor) (op : MonitorOp) : list bool * Camera3Monitor :=
  match op with
  | OpAcquire => ([], snd (AcquireMonitor m))
  | OpRelease id => ([], ReleaseMonitor id m)
  | OpChange id s => ([], ChangeState id s m)
  | OpPass => process_pass m
  end.

Fixpoint monitor_run (m : Camera3Monitor) (ops : list MonitorOp) : list bool * Camera3Monitor :=
  match ops with
  | [] => ([], m)
  | op :: ops' =>
      let '(n, m') := monitor_step m op in
      let '(n', m'') := monitor_run m' ops' in (n ++ n', m'')
  end.

(** Identifiers in use are below the next one, the table is ordered, and
    nothing is left to notify between passes. *)
Record monitor_wf (m : Camera3Monitor) : Prop := {
  wf_ordered : kv_ordered (monitor_states_ m);
  wf_below : forall id, id ∈ kv_keys (monitor_states_ m) -> 0 <= id < next_monitor_ m;
  wf_next : 0 <= next_monitor_ m;
  wf_drained : updated_states_ m = []
}.

Lemma Camera3Monitor_init_wf : monitor_wf Camera3Monitor_init.
Proof. split; simpl; [done|intros id H; by apply not_elem_of_nil in H|lia|done]. Qed.

Lemma kv_keys_remove {V} k k' (m : kv V) : k ∈ kv_keys (kv_remove k' m) -> k ∈ kv_keys m.
Proof.
  induction m as [|[k0 v0] m IH]; simpl; [done|].
  destruct (k' =? k0); simpl; rewrite ?elem_of_cons; naive_solver.
Qed.

Lemma kv_keys_add_in {V} k k' (v : V) m : k ∈ kv_keys (kv_add k' v m) -> k = k' \/ k ∈ kv_keys m.
Proof.
  rewrite <- !kv_lookup_keys, kv_lookup_add.
  destruct (Z.eqb_spec k k'); [by left|by right].
Qed.

Lemma AcquireMonitor_wf m :
  monitor_wf m -> next_monitor_ m < INT32_HALF - 1 -> monitor_wf (snd (AcquireMonitor m)).
Proof.
  intros [Ho Hb Hn Hu] Hlim. unfold INT32_HALF in *.
  assert (i32 (next_monitor_ m + 1) = next_monitor_ m + 1) as Hi.
  { apply i32_small. unfold is_i32, INT32_HALF. lia. }
  split; simpl; rewrite ?Hi; auto with qmmf; [|lia].
  intros id [->|H]%kv_keys_add_in; [lia|]. specialize (Hb id H). lia.
Qed.

Lemma ReleaseMonitor_wf id m : monitor_wf m -> monitor_wf (ReleaseMonitor id m).
Proof.
  intros [Ho Hb Hn Hu]. unfold ReleaseMonitor.
  destruct (kv_mem id (monitor_states_ m)); [|by split].
  split; simpl; auto with qmmf. intros id' H%kv_keys_remove. auto.
Qed.

Lemma ChangeState_wf id s m : monitor_wf m -> monitor_wf (ChangeState id s m).
Proof. intros [Ho Hb Hn Hu]. by split. Qed.

Lemma process_pass_wf m : monitor_wf m -> monitor_wf (snd (process_pass m)).
Proof.
  intros [Ho Hb Hn Hu]. rewrite process_pass_spec. split; simpl; auto.
  - eapply kv_ordered_keys; [|exact Ho]. by rewrite apply_queue_keys.
  - intros id. rewrite apply_queue_keys. auto.
Qed.

#[export] Hint Resolve AcquireMonitor_wf ReleaseMonitor_wf ChangeState_wf process_pass_wf : qmmf.

Definition is_acquire (op : MonitorOp) : Z := match op with OpAcquire => 1 | _ => 0 end.

Fixpoint acquires (ops : list MonitorOp) : Z :=
  match ops with [] => 0 | op :: ops' => is_acquire op + acquires ops' end.

Lemma monitor_step_wf m op :
  monitor_wf m -> next_monitor_ m + is_acquire op < INT32_HALF ->
  monitor_wf (snd (monitor_step m op)) /\
  next_monitor_ (snd (monitor_step m op)) = next_monitor_ m + is_acquire op.
Proof.
  intros Hwf Hlim. pose proof (wf_next _ Hwf) as Hn.
  destruct op; simpl in *.
  - split; [apply AcquireMonitor_wf; [done|lia]|]. apply i32_small.
    unfold is_i32, INT32_HALF in *. lia.
  - split; [by apply ReleaseMonitor_wf|]. unfold ReleaseMonitor. case_goal; simpl; lia.
  - split; [by apply ChangeState_wf|simpl; lia].
  - split; [by apply process_pass_wf|]. rewrite process_pass_spec. simpl. lia.
Qed.

Definition idle_flag (s : MonitorState) : bool := bool_decide (s = IDLE).

(** The flags alternate, starting with one that differs from [p]. *)
Fixpoint alternating_flags (p : bool) (l : list bool) : Prop :=
  match l with
  | [] => True
  | x :: l' => x = negb p /\ alternating_flags x l'
  end.

Lemma alternating_flags_map l : forall p,
  alternating p l -> alternating_flags (idle_flag p) (map idle_flag l).
Proof.
  induction l as [|x l IH]; intros p; simpl; [done|].
  intros [Hx Hl]. split; [by destruct p, x|]. by apply IH.
Qed.

Lemma alternating_flags_app l1 l2 : forall p,
  alternating_flags p l1 -> alternating_flags (fold_left (fun _ x => x) l1 p) l2 ->
  alternating_flags p (l1 ++ l2).
Proof.
  induction l1 as [|x l1 IH]; intros p; simpl; [done|]. intros [-> H1] H2. auto.
Qed.

Lemma fold_last_map l : forall p,
  fold_left (fun _ x => x) (map idle_flag l) (idle_flag p) = idle_flag (last_of p l).
Proof. induction l as [|x l IH]; intros p; [done|]. apply IH. Qed.

(** What one operation notifies alternates from the composite state it starts
    in and leads to the composite state it ends in. *)
Lemma monitor_step_notifies m op :
  updated_states_ m = [] ->
  let '(n, m') := monitor_step m op in
  alternating_flags (idle_flag (composite_state_ m)) n /\
  fold_left (fun _ x => x) n (idle_flag (composite_state_ m)) = idle_flag (composite_state_ m').
Proof.
  intros Hu. destruct op; simpl; try done.
  - unfold ReleaseMonitor. by destruct (kv_mem _ _).
  - rewrite process_pass_spec, Hu, app_nil_l. cbn [composite_state_].
    split; [apply alternating_flags_map, changes_alternating|].
    rewrite (fold_last_map _ (composite_state_ m)), last_changes.
    unfold idle_flag, BuildCompositeState. f_equal.
    by rewrite <- last_composites.
Qed.

(** Fold over the queue, read for one monitor: the last transition wins. *)
Fixpoint final_state (id : Z) (q : list StateTransition) (s : MonitorState) : MonitorState :=
  match q with
  | [] => s
  | t :: q' => final_state id q' (if id =? st_id t then st_state t else s)
  end.

Lemma apply_queue_lookup id q : forall states s,
  kv_lookup id states = Some s ->
  kv_lookup id (apply_queue q states) = Some (final_state id q s).
Proof.
  induction q as [|t q IH]; intros states s H; simpl; [done|].
  apply IH. rewrite kv_lookup_replace. unfold kv_mem. rewrite H.
  by destruct (id =? st_id t).
Qed.

Lemma acquires_nonneg ops : 0 <= acquires ops.
Proof. induction ops as [|[] ops IH]; simpl; lia. Qed.

Lemma monitor_run_wf ops : forall m,
  monitor_wf m -> next_monitor_ m + acquires ops < INT32_HALF ->
  monitor_wf (snd (monitor_run m ops)).
Proof.
  induction ops as [|op ops IH]; intros m Hwf Hlim; simpl in *; [done|].
  pose proof (acquires_nonneg ops).
  destruct (monitor_step_wf m op Hwf ltac:(lia)) as [Hwf' Hnext].
  destruct (monitor_step m op) as [n m']. simpl in *.
  specialize (IH m' Hwf' ltac:(lia)). by destruct (monitor_run m' ops).
Qed.

Lemma monitor_step_drained m op :
  updated_states_ m = [] -> updated_states_ (snd (monitor_step m op)) = [].
Proof.
  intros H. destruct op; simpl; auto.
  - unfold ReleaseMonitor. by case_goal.
  - by rewrite process_pass_spec.
Qed.

Lemma monitor_run_notifies ops : forall m,
  updated_states_ m = [] ->
  alternating_flags (idle_flag (composite_state_ m)) (fst (monitor_run m ops)) /\
  fold_left (fun _ x => x) (fst (monitor_run m ops)) (idle_flag (composite_state_ m)) =
    idle_flag (composite_state_ (snd (monitor_run m ops))).
Proof.
  induction ops as [|op ops IH]; intros m Hu; [done|]. simpl.
  pose proof (monitor_step_notifies m op Hu) as Hs.
  pose proof (monitor_step_drained m op Hu) as Hd.
  destruct (monitor_step m op) as [n m']. simpl in Hd. destruct Hs as [Ha Hl].
  destruct (IH m' Hd) as [IHa IHl]. destruct (monitor_run m' ops) as [n' m'']. simpl in *.
  rewrite fold_left_app, Hl. split; [|done].
  apply alternating_flags_app; [done|]. by rewrite Hl.
Qed.

(** C31. Over any sequence of acquisitions, releases, posted transitions and
    passes of the monitor thread, the values handed to the idle callback
    strictly alternate, the first being "active", and the last one agrees
    with the composite state: the device client never sees two "idle"
    notifications without an "active" one between them, nor the reverse. *)
Theorem monitor_notifications_alternate (ops : list MonitorOp) :
  alternating_flags true (fst (monitor_run Camera3Monitor_init ops)) /\
  fold_left (fun _ x => x) (fst (monitor_run Camera3Monitor_init ops)) true =
    idle_flag (composite_state_ (snd (monitor_run Camera3Monitor_init ops))).
Proof. exact (monitor_run_notifies ops Camera3Monitor_init eq_refl). Qed.

(** A pass of the monitor thread consumes the whole queue, and the state
    it settles on is [ACTIVE] exactly when some registered monitor is active
    after its last queued transition; transitions of released monitors are
    ignored, those of a registered one take effect in order. *)
Theorem monitor_pass_composite (m : Camera3Monitor) :
  monitor_wf m ->
  let m' := snd (process_pass m) in
  input_queue_ m' = [] /\
  kv_keys (monitor_states_ m') = kv_keys (monitor_states_ m) /\
  (forall id s, kv_lookup id (monitor_states_ m) = Some s ->
     kv_lookup id (monitor_states_ m') = Some (final_state id (input_queue_ m) s)) /\
  (composite_state_ m' = ACTIVE <->
     exists id s, kv_lookup id (monitor_states_ m) = Some s /\
       final_state id (input_queue_ m) s = ACTIVE).
Proof.
  intros Hwf. pose proof (process_pass_wf m Hwf) as Hwf'.
  rewrite process_pass_spec in *. simpl in *.
  split_and!; [done|by rewrite apply_queue_keys|by intros; apply apply_queue_lookup|].
  rewrite BuildComposite_active, kv_values_ordered_ex by apply (wf_ordered _ Hwf').
  split.
  - intros [k Hk].
    assert (is_Some (kv_lookup k (monitor_states_ m))) as [s Hs].
    { apply kv_lookup_keys. rewrite <- (apply_queue_keys (input_queue_ m)).
      apply kv_lookup_keys. by eexists. }
    exists k, s. split; [done|]. erewrite apply_queue_lookup in Hk by done. congruence.
  - intros (id & s & Hs & Hf). exists id. erewrite apply_queue_lookup by done. by rewrite Hf.
Qed.

Definition monitor_demo : Camera3Monitor :=
  snd (monitor_run Camera3Monitor_init
         [OpAcquire; OpAcquire; OpPass; OpChange 1 ACTIVE; OpChange 0 ACTIVE; OpChange 7 IDLE]).

Lemma monitor_demo_wf : monitor_wf monitor_demo.
Proof. apply monitor_run_wf; [apply Camera3Monitor_init_wf|reflexivity]. Qed.

Lemma monitor_pass_composite_witness :
  composite_state_ (snd (process_pass monitor_demo)) = ACTIVE.
Proof.
  apply (monitor_pass_composite monitor_demo monitor_demo_wf).
  exists 1, IDLE. split; reflexivity.
Defined.

(** As long as fewer than 2^31 monitors are acquired, every acquisition
    returns an identifier that no live monitor has, registers it as [IDLE],
    and leaves the other monitors alone. *)
Theorem AcquireMonitor_fresh (ops : list MonitorOp) :
  acquires ops < INT32_HALF - 1 ->
  let m := snd (monitor_run Camera3Monitor_init ops) in
  let '(id, m') := AcquireMonitor m in
  0 <= id /\ kv_lookup id (monitor_states_ m) = None /\
  kv_lookup id (monitor_states_ m') = Some IDLE /\
  forall id', id' <> id ->
    kv_lookup id' (monitor_states_ m') = kv_lookup id' (monitor_states_ m).
Proof.
  intros Hlim m. assert (monitor_wf m) as Hwf.
  { apply monitor_run_wf; [apply Camera3Monitor_init_wf|]. simpl. lia. }
  cbn. split_and!.
  - apply (wf_next _ Hwf).
  - destruct (kv_lookup _ _) eqn:E; [|done].
    assert (next_monitor_ m ∈ kv_keys (monitor_states_ m)) as H%(wf_below _ Hwf); [|lia].
    apply kv_lookup_keys. by eexists.
  - by rewrite kv_lookup_add, Z.eqb_refl.
  - intros id' Hne. rewrite kv_lookup_add. by destruct (Z.eqb_spec id' (next_monitor_ m)).
Qed.

Lemma AcquireMonitor_fresh_witness :
  kv_lookup 2 (monitor_states_ (snd (AcquireMonitor monitor_demo))) = Some IDLE.
Proof.
  pose proof (AcquireMonitor_fresh
    [OpAcquire; OpAcquire; OpPass; OpChange 1 ACTIVE; OpChange 0 ACTIVE; OpChange 7 IDLE]
    ltac:(vm_compute; reflexivity)) as H.
  exact (proj1 (proj2 (proj2 H))).
Defined.
