(* ===== verification/AVQueue.v ===== *)
(** * AVQueue: the packet queue

    Models common/avqueue/qmmf_queue.cc and include/qmmf-sdk/qmmf_queue.h: a
    circular doubly linked list of nodes around a head node, guarded by a
    mutex, with a bounded "realtime" mode that drops the oldest packets.

    Nodes live in an explicit heap and are read and written through their
    addresses in the order of the code; an access to an address that is not
    allocated makes the operation return [None] (undefined behaviour).  The
    specification is a list, newest first. *)

From S2P Require Import Prelude.

Inductive QueueType := REALTIME | COMPLETE | UNKNOWN_TYPE.

#[export] Instance QueueType_eq_dec : EqDecision QueueType.
Proof. solve_decision. Defined.

Record AVNode := mkNode { prev : Z; next : Z; data : Z }.

Record AVQueue := mkQueue {
  head_node : Z;
  qtype : QueueType;
  max_size : Z;
  queue_size : Z;
  overflow : bool;
  delay : Z;
  pps : Z;
  pps_size : Z;
  is_pps : bool
}.

#[export] Instance AVNode_settable : Settable AVNode :=
  {| eta_expand := fun n => mkNode (prev n) (next n) (data n) |}.
#[export] Instance AVQueue_settable : Settable AVQueue :=
  {| eta_expand := fun q => mkQueue (head_node q) (qtype q) (max_size q) (queue_size q)
       (overflow q) (delay q) (pps q) (pps_size q) (is_pps q) |}.

(** The variable the callers hold ([AVQueue*], [None] for NULL), the node
    heap, the next address [malloc] returns, and the packets released with
    [AVFreePacket] or given to the abort callback, in order. *)
Record QState := mkQState {
  queue : option AVQueue;
  nodes : gmap Z AVNode;
  brk : Z;
  released : list Z
}.

#[export] Instance QState_settable : Settable QState :=
  {| eta_expand := fun s => mkQState (queue s) (nodes s) (brk s) (released s) |}.

Definition NULL : Z := 0.

(** ** Node accesses *)

Definition set_prev (a v : Z) (h : gmap Z AVNode) : option (gmap Z AVNode) :=
  n ← h !! a; Some (<[a := n <| prev := v |>]> h).

Definition set_next (a v : Z) (h : gmap Z AVNode) : option (gmap Z AVNode) :=
  n ← h !! a; Some (<[a := n <| next := v |>]> h).

(** Unlinks and frees [head->prev]: the statement sequence [PushHead] and
    [PopTail] share. *)
Definition unlink_tail (head : Z) (h : gmap Z AVNode) : option (Z * gmap Z AVNode) :=
  hn ← h !! head;
  let node := prev hn in
  n ← h !! node;
  h1 ← set_prev head (prev n) h;
  h2 ← set_next (prev n) head h1;
  n' ← h2 !! node;
  Some (data n', delete node h2).

(** The statement sequence that links a filled node behind the head. *)
Definition link_head (head node : Z) (h : gmap Z AVNode) : option (gmap Z AVNode) :=
  hn ← h !! head;
  h1 ← set_next node (next hn) h;
  hn' ← h1 !! head;
  h2 ← set_prev (next hn') node h1;
  h3 ← set_prev node head h2;
  set_next head node h3.

(** Gives a packet up: to the heap ([AVFreePacket]) or to the callback of
    [AVQueueAbort]; nothing happens for NULL. *)
Definition release (d : Z) (s : QState) : QState :=
  if d =? NULL then s else s <| released := released s ++ [d] |>.

Definition AVFreePacket : Z -> QState -> QState := release.

(** ** Operations *)

(** [AVQueueInit]; [oom1], [oom2]: the two [malloc] calls fail. *)
Definition AVQueueInit (oom1 oom2 : bool) (queue_type : QueueType) (size delay_count : Z)
    (s : QState) : Z * QState :=
  if bool_decide (queue s <> None) then (-1, s)
  else if bool_decide (queue_type = UNKNOWN_TYPE) then (-1, s)
  else if bool_decide (queue_type = REALTIME) && (size <? delay_count) then (-1, s)
  else if oom1 then (-1, s)
  else if oom2 then (-1, s)
  else
    let head := brk s in
    let rt := bool_decide (queue_type = REALTIME) in
    (1, s <| nodes := <[head := mkNode head head 0]> (nodes s) |>
          <| brk := head + 1 |>
          <| queue := Some (mkQueue head queue_type (if rt then size else 0) 0 false
                              (if rt then delay_count else 0) NULL 0 false) |>).

Definition AVQueueWake (s : QState) : QState :=
  match queue s with
  | None => s
  | Some p =>
      if queue_size p =? 0 then s <| queue := Some (p <| queue_size := -1 |>) |> else s
  end.

Definition AVQueueSize (s : QState) : Z :=
  match queue s with None => -1 | Some p => queue_size p end.

(** The drop of the oldest packet of a full realtime queue. *)
Definition drop_if_full (p : AVQueue) (s : QState) : option (AVQueue * QState) :=
  if bool_decide (qtype p = REALTIME) && (max_size p <=? queue_size p) then
    '(d, h) ← unlink_tail (head_node p) (nodes s);
    Some (p <| overflow := true |> <| queue_size := queue_size p - 1 |>,
          AVFreePacket d (s <| nodes := h |>))
  else Some (p, s).

Definition AVQueuePushHead (oom : bool) (databuf : Z) (s : QState) : option (Z * QState) :=
  match queue s with
  | None => Some (-1, s)
  | Some p =>
      if oom then Some (-1, s)
      else
        let node := brk s in
        let s0 := s <| nodes := <[node := mkNode 0 0 databuf]> (nodes s) |>
                    <| brk := node + 1 |> in
        '(p1, s1) ← drop_if_full p s0;
        let p2 := p1 <| queue_size := queue_size p1 + 1 |> in
        h ← link_head (head_node p2) node (nodes s1);
        Some (0, s1 <| nodes := h |> <| queue := Some p2 |>)
  end.

(** The inner loop of [AVQueuePopTail]: [while (queue_size > delay)]. *)
Fixpoint drop_to_delay (fuel : nat) (p : AVQueue) (s : QState) : option (AVQueue * QState) :=
  if delay p <? queue_size p then
    match fuel with
    | O => None
    | S fuel' =>
        '(d, h) ← unlink_tail (head_node p) (nodes s);
        drop_to_delay fuel' (p <| queue_size := queue_size p - 1 |>)
          (AVFreePacket d (s <| nodes := h |>))
    end
  else Some (p, s).

(** The body after the wait; the result is NULL when the queue was woken
    empty. *)
Definition pop_ready (p : AVQueue) (s : QState) : option (Z * QState) :=
  if 0 <? queue_size p then
    '(p1, s1) ←
      (if overflow p then
         '(p', s') ← drop_to_delay (Z.to_nat (queue_size p - delay p)) p s;
         Some (p' <| overflow := false |>, s')
       else Some (p, s));
    let p2 := p1 <| queue_size := queue_size p1 - 1 |> in
    '(d, h) ← unlink_tail (head_node p2) (nodes s1);
    Some (d, s1 <| nodes := h |> <| queue := Some p2 |>)
  else Some (NULL, s).

(** What one [pthread_cond_timedwait] of [AVQueuePopTail] ends with. *)
Inductive PopWake :=
  | TimedOut (s : QState)
  | Woken (s : QState).

Inductive PopResult :=
  | PopWaiting
  | PopReturned (d : Z) (s : QState).

(** [AVQueuePopTail]; [ws] are the wake-ups of the wait loop, in order. *)
Fixpoint AVQueuePopTail (ws : list PopWake) (s : QState) : option PopResult :=
  match queue s with
  | None => Some (PopReturned NULL s)
  | Some p =>
      if queue_size p =? 0 then
        match ws with
        | [] => Some PopWaiting
        | TimedOut s' :: _ => Some (PopReturned NULL s')
        | Woken s' :: ws' => AVQueuePopTail ws' s'
        end
      else '(d, s') ← pop_ready p s; Some (PopReturned d s')
  end.

(** The loop of [AVQueueAbort]; [call] tells whether the callback is given. *)
Fixpoint abort_loop (fuel : nat) (call : bool) (p : AVQueue) (s : QState)
    : option (AVQueue * QState) :=
  if 0 <? queue_size p then
    match fuel with
    | O => None
    | S fuel' =>
        hn ← nodes s !! head_node p;
        let node := next hn in
        n ← nodes s !! node;
        h1 ← set_next (head_node p) (next n) (nodes s);
        let s1 := s <| nodes := delete node h1 |> in
        abort_loop fuel' call (p <| queue_size := queue_size p - 1 |>)
          (if call then release (data n) s1 else s1)
    end
  else Some (p, s).

Definition AVQueueAbort (call : bool) (s : QState) : option QState :=
  match queue s with
  | None => Some s
  | Some p =>
      '(p1, s1) ← abort_loop (Z.to_nat (queue_size p)) call p s;
      h1 ← set_next (head_node p1) (head_node p1) (nodes s1);
      h2 ← set_prev (head_node p1) (head_node p1) h1;
      Some (s1 <| nodes := h2 |> <| queue := Some p1 |>)
  end.

Definition AVQueueFree (call : bool) (s : QState) : option QState :=
  match queue s with
  | None => Some s
  | Some _ =>
      s1 ← AVQueueAbort call s;
      p ← queue s1;
      let h := if head_node p =? NULL then nodes s1 else delete (head_node p) (nodes s1) in
      Some (s1 <| nodes := h |> <| queue := None |>)
  end.

(** ** Representation of a list by linked nodes

    [ns] pairs the address and the data of each node, from [head->next] to
    [head->prev]. *)

Abbreviation cells := (list (Z * Z)).

Definition first_addr (ns : cells) (d : Z) : Z :=
  match ns with [] => d | (a, _) :: _ => a end.

Fixpoint last_addr (d : Z) (ns : cells) : Z :=
  match ns with [] => d | (a, _) :: ns' => last_addr a ns' end.

Fixpoint seg (h : gmap Z AVNode) (p : Z) (ns : cells) (n : Z) : Prop :=
  match ns with
  | [] => True
  | (a, d) :: ns' => h !! a = Some (mkNode p (first_addr ns' n) d) /\ seg h a ns' n
  end.

Record ring (h : gmap Z AVNode) (hd : Z) (ns : cells) : Prop := {
  ring_head : h !! hd = Some (mkNode (last_addr hd ns) (first_addr ns hd) 0);
  ring_seg : seg h hd ns hd;
  ring_nodup : NoDup (hd :: map fst ns);
  ring_dom : forall a, a ∉ hd :: map fst ns -> h !! a = None
}.

Lemma last_addr_app d l1 l2 : last_addr d (l1 ++ l2) = last_addr (last_addr d l1) l2.
Proof. revert d. induction l1 as [|[a x] l1 IH]; intros d; simpl; auto. Qed.

Lemma first_addr_app l1 l2 d : first_addr (l1 ++ l2) d = first_addr l1 (first_addr l2 d).
Proof. by destruct l1 as [|[a x] l1]. Qed.

Lemma seg_app h p l1 l2 n :
  seg h p (l1 ++ l2) n <-> seg h p l1 (first_addr l2 n) /\ seg h (last_addr p l1) l2 n.
Proof.
  revert p. induction l1 as [|[a x] l1 IH]; intros p; simpl; [naive_solver|].
  rewrite IH, first_addr_app. naive_solver.
Qed.

(** A segment only depends on its own nodes. *)
Lemma seg_frame h h' p ns n :
  (forall a, a ∈ map fst ns -> h' !! a = h !! a) -> seg h p ns n -> seg h' p ns n.
Proof.
  revert p. induction ns as [|[a x] ns IH]; intros p Hf; simpl; [done|].
  intros [Ha Hs]. split.
  - rewrite Hf; [done|]. simpl. by left.
  - apply IH; [|done]. intros b Hb. apply Hf. simpl. by right.
Qed.

Lemma last_addr_in d ns : last_addr d ns = d \/ last_addr d ns ∈ map fst ns.
Proof.
  revert d. induction ns as [|[a x] ns IH]; intros d; simpl; [by left|].
  right. apply elem_of_cons. apply IH.
Qed.

(** Changing the successor recorded in the last node. *)
Lemma seg_snoc h p ns a d n :
  seg h p (ns ++ [(a, d)]) n <->
  seg h p ns a /\ h !! a = Some (mkNode (last_addr p ns) n d).
Proof. rewrite seg_app. simpl. naive_solver. Qed.

Lemma seg_insert_fresh h p ns n a v :
  a ∉ map fst ns -> seg h p ns n -> seg (<[a := v]> h) p ns n.
Proof.
  intros Ha. apply seg_frame. intros b Hb. apply lookup_insert_ne. by intros ->.
Qed.

Lemma seg_delete_fresh h p ns n a :
  a ∉ map fst ns -> seg h p ns n -> seg (delete a h) p ns n.
Proof.
  intros Ha. apply seg_frame. intros b Hb. apply lookup_delete_ne. by intros ->.
Qed.

Lemma map_fst_snoc (ns : cells) a d : map fst (ns ++ [(a, d)]) = map fst ns ++ [a].
Proof. by rewrite map_app. Qed.

Lemma NoDup_snoc (l : list Z) x : NoDup l -> x ∉ l -> NoDup (l ++ [x]).
Proof.
  intros Hl Hx. apply NoDup_app. split_and!; [done| |apply NoDup_singleton].
  intros y Hy. rewrite list_elem_of_singleton. by intros ->.
Qed.

Lemma ring_dom_delete (h : gmap Z AVNode) hd l a :
  (forall b, b ∉ hd :: l ++ [a] -> h !! b = None) ->
  forall h' : gmap Z AVNode, (forall b, b <> a -> is_Some (h' !! b) -> is_Some (h !! b)) ->
  forall b, b ∉ hd :: l -> delete a h' !! b = None.
Proof.
  intros Hdom h' Hf b Hb. destruct (decide (b = a)) as [->|]; [apply lookup_delete_eq|].
  rewrite lookup_delete_ne by done. apply eq_None_not_Some. intros Hi.
  apply Hf in Hi; [|done]. rewrite Hdom in Hi; [by destruct Hi|].
  rewrite elem_of_cons, elem_of_app, list_elem_of_singleton in *. naive_solver.
Qed.

Lemma unlink_tail_ring h hd ns a d :
  ring h hd (ns ++ [(a, d)]) ->
  exists h', unlink_tail hd h = Some (d, h') /\ ring h' hd ns.
Proof.
  intros [Hh Hs Hnd Hdom]. rewrite map_fst_snoc in *.
  apply seg_snoc in Hs as [Hs Ha]. rewrite last_addr_app in Hh. simpl in Hh.
  apply NoDup_cons in Hnd as [Hhd Hnd]. rewrite elem_of_app, list_elem_of_singleton in Hhd.
  apply NoDup_app in Hnd as (Hnd & Hna & _).
  assert (a <> hd) as Hahd by naive_solver.
  assert (a ∉ map fst ns) as Han by (intros ?; eapply Hna; [done|by left]).
  pose proof (ring_dom_delete h hd (map fst ns) a Hdom) as Hdom'.
  unfold unlink_tail, set_prev, set_next. rewrite Hh. simpl. rewrite Ha. simpl.
  destruct (decide (ns = [])) as [->|Hne]; simpl in *.
  - rewrite lookup_insert_eq. simpl. rewrite !lookup_insert_ne, Ha by done. simpl.
    eexists. split; [done|]. split; simpl; [|done|apply NoDup_singleton|].
    + rewrite lookup_delete_ne by done. by rewrite lookup_insert_eq.
    + apply Hdom'. intros b _ Hb. destruct (decide (b = hd)) as [->|]; [by rewrite Hh|].
      by rewrite !lookup_insert_ne in Hb.
  - destruct (exists_last Hne) as (ns' & [q dq] & ->). clear Hne.
    rewrite last_addr_app. simpl. rewrite map_fst_snoc in *.
    apply seg_snoc in Hs as [Hs Hq].
    apply NoDup_app in Hnd as (Hnd' & Hnq & _).
    rewrite !elem_of_app, !list_elem_of_singleton in *.
    assert (q <> hd) as Hqhd by (intros ->; apply Hhd; left; by right).
    assert (a <> q) as Haq by (intros ->; apply Han; by right).
    assert (a ∉ map fst ns') as Han' by (intros ?; apply Han; by left).
    assert (hd ∉ map fst ns') as Hhdn by (intros ?; apply Hhd; left; by left).
    assert (q ∉ map fst ns') as Hqn by (intros ?; eapply Hnq; [done|by left]).
    rewrite lookup_insert_ne, Hq by done. simpl.
    rewrite !lookup_insert_ne, Ha by done. simpl.
    eexists. split; [done|].
    split; rewrite ?last_addr_app, ?map_fst_snoc; simpl.
    + rewrite lookup_delete_ne, lookup_insert_ne, lookup_insert_eq by done.
      by rewrite <- app_assoc, !first_addr_app.
    + apply seg_snoc. split.
      * by apply seg_delete_fresh, seg_insert_fresh, seg_insert_fresh.
      * rewrite lookup_delete_ne, lookup_insert_eq by done. done.
    + constructor; [|by apply NoDup_snoc].
      rewrite elem_of_app, list_elem_of_singleton. intros [?| ->]; done.
    + apply Hdom'. intros b _ Hb.
      destruct (decide (b = hd)) as [->|]; [by rewrite Hh|].
      destruct (decide (b = q)) as [->|]; [by rewrite Hq|].
      by rewrite !lookup_insert_ne in Hb.
Qed.

Lemma link_head_ring h hd ns a d :
  ring h hd ns -> a ∉ hd :: map fst ns ->
  exists h', link_head hd a (<[a := mkNode 0 0 d]> h) = Some h' /\ ring h' hd ((a, d) :: ns).
Proof.
  intros [Hh Hs Hnd Hdom] [Hahd Han]%not_elem_of_cons. apply NoDup_cons in Hnd as [Hhd Hnd].
  assert (NoDup (hd :: a :: map fst ns)) as Hnd'.
  { constructor; [|by constructor]. apply not_elem_of_cons. split; [congruence|done]. }
  unfold link_head, set_prev, set_next.
  rewrite (lookup_insert_ne _ a hd), Hh by done. simpl. rewrite lookup_insert_eq. simpl.
  rewrite !(lookup_insert_ne _ a hd), Hh by done. simpl.
  destruct ns as [|[b x] ns]; simpl in *.
  - rewrite !lookup_insert_ne, Hh by done. simpl.
    rewrite lookup_insert_ne, lookup_insert_eq by done. simpl.
    rewrite lookup_insert_ne, lookup_insert_eq by done. simpl.
    eexists. split; [done|]. split; simpl.
    + by rewrite lookup_insert_eq.
    + split; [|done]. by rewrite lookup_insert_ne, lookup_insert_eq by done.
    + done.
    + intros c Hc. rewrite !not_elem_of_cons in *. destruct Hc as (? & ? & _).
      rewrite !lookup_insert_ne by congruence. apply Hdom.
      rewrite not_elem_of_cons. split; [done|apply not_elem_of_nil].
  - destruct Hs as [Hb Hs]. apply not_elem_of_cons in Han as [Hab Han].
    apply not_elem_of_cons in Hhd as [Hhb Hhd]. apply NoDup_cons in Hnd as [Hbn Hnd].
    rewrite !lookup_insert_ne, Hb by congruence. simpl.
    rewrite lookup_insert_ne, lookup_insert_eq by congruence. simpl.
    rewrite !lookup_insert_ne, Hh by congruence. simpl.
    eexists. split; [done|]. split; simpl.
    + by rewrite lookup_insert_eq.
    + split_and!.
      * rewrite lookup_insert_ne, lookup_insert_eq by done. done.
      * rewrite lookup_insert_ne, lookup_insert_ne, lookup_insert_eq by congruence. done.
      * by repeat apply seg_insert_fresh.
    + done.
    + intros c Hc. rewrite !not_elem_of_cons in *. destruct Hc as (? & ? & ? & ?).
      rewrite !lookup_insert_ne by congruence. apply Hdom. rewrite !not_elem_of_cons. done.
Qed.

(** ** Specification: a bounded sequence, newest packet first *)

Record AQ := mkAQ {
  items : list Z;
  a_rt : bool;
  a_cap : Z;
  a_delay : Z;
  a_overflow : bool;
  a_released : list Z
}.

Definition live_packets (l : list Z) : list Z := filter (fun d => d <> NULL) l.

(** A full realtime queue gives its oldest packet up first. *)
Definition spec_push (d : Z) (q : AQ) : AQ :=
  if a_rt q && (a_cap q <=? Z.of_nat (length (items q))) then
    mkAQ (d :: removelast (items q)) (a_rt q) (a_cap q) (a_delay q) true
      (a_released q ++ live_packets (match last (items q) with Some x => [x] | None => [] end))
  else mkAQ (d :: items q) (a_rt q) (a_cap q) (a_delay q) (a_overflow q) (a_released q).

(** After an overflow only the newest [delay] packets are kept, then the
    oldest of those is returned. *)
Definition spec_trim (q : AQ) : AQ :=
  if a_overflow q then
    let keep := Z.to_nat (a_delay q) in
    mkAQ (take keep (items q)) (a_rt q) (a_cap q) (a_delay q) false
      (a_released q ++ live_packets (rev (drop keep (items q))))
  else q.

Definition spec_pop (q : AQ) : Z * AQ :=
  match items q with
  | [] => (NULL, q)
  | _ =>
      let q' := spec_trim q in
      (default NULL (last (items q')),
       mkAQ (removelast (items q')) (a_rt q') (a_cap q') (a_delay q') (a_overflow q')
         (a_released q'))
  end.

(** The heap of [s] and the fields of [p] stand for [q]. *)
Record holds (s : QState) (p : AVQueue) (q : AQ) : Prop := {
  rf_head : head_node p <> NULL;
  rf_ring : exists ns, map snd ns = items q /\ ring (nodes s) (head_node p) ns;
  rf_brk : forall a, is_Some (nodes s !! a) -> a < brk s;
  rf_size : queue_size p = Z.of_nat (length (items q));
  rf_type : bool_decide (qtype p = REALTIME) = a_rt q;
  rf_cap : max_size p = a_cap q;
  rf_delay : delay p = a_delay q;
  rf_over : overflow p = a_overflow q;
  rf_released : released s = a_released q
}.

Definition refines (s : QState) (q : AQ) : Prop :=
  exists p, queue s = Some p /\ holds s p q.

Lemma holds_queue s p q v : holds s p q -> holds (s <| queue := v |>) p q.
Proof. intros [?????????]. by split. Qed.

Lemma live_packets_one d rel :
  released (release d (mkQState None ∅ 0 rel)) = rel ++ live_packets [d].
Proof.
  unfold release, live_packets. rewrite filter_cons, filter_nil.
  destruct (Z.eqb_spec d NULL); case_decide; simpl; rewrite ?app_nil_r; congruence.
Qed.

Lemma release_released d s : released (release d s) = released s ++ live_packets [d].
Proof.
  pose proof (live_packets_one d (released s)) as H.
  unfold release in *. by destruct (d =? NULL).
Qed.

Lemma release_frame d s :
  queue (release d s) = queue s /\ nodes (release d s) = nodes s /\ brk (release d s) = brk s.
Proof. unfold release. by destruct (d =? NULL). Qed.

Lemma seg_lookup h p ns n a : seg h p ns n -> a ∈ map fst ns -> is_Some (h !! a).
Proof.
  revert p. induction ns as [|[b x] ns IH]; intros p; simpl.
  - intros _ H. by apply not_elem_of_nil in H.
  - intros [Hb Hs]. rewrite elem_of_cons. intros [->|Hin]; [by eexists|by eapply IH].
Qed.

Lemma ring_addr h hd ns a : ring h hd ns -> is_Some (h !! a) <-> a ∈ hd :: map fst ns.
Proof.
  intros Hr. split.
  - intros [n Hn]. destruct (decide (a ∈ hd :: map fst ns)) as [|Hni]; [done|].
    apply (ring_dom _ _ _ Hr) in Hni. congruence.
  - rewrite elem_of_cons. intros [->|Hin]; [rewrite (ring_head _ _ _ Hr); by eexists|].
    eapply seg_lookup; [apply (ring_seg _ _ _ Hr)|done].
Qed.

(** Taking the oldest packet out of a refined queue. *)
Lemma unlink_refines h hd ns l d :
  map snd ns = l ++ [d] -> ring h hd ns ->
  exists h' ns', unlink_tail hd h = Some (d, h') /\ ring h' hd ns' /\ map snd ns' = l /\
    forall a, is_Some (h' !! a) -> is_Some (h !! a).
Proof.
  intros Hm Hr. destruct ns as [|c ns] using rev_ind; [by destruct l|]. clear IHns.
  destruct c as [a d']. rewrite map_app in Hm. simpl in Hm.
  apply app_inj_tail in Hm as [Hm ->].
  destruct (unlink_tail_ring h hd ns a d Hr) as (h' & Hu & Hr').
  exists h', ns. split_and!; try done. intros b.
  rewrite (ring_addr _ _ _ _ Hr), (ring_addr _ _ _ _ Hr'), map_fst_snoc, !elem_of_cons, elem_of_app.
  naive_solver.
Qed.

Lemma last_snoc_Z (l : list Z) x : last (l ++ [x]) = Some x.
Proof. apply last_snoc. Qed.

Lemma live_packets_app l1 l2 : live_packets (l1 ++ l2) = live_packets l1 ++ live_packets l2.
Proof. apply filter_app. Qed.

(** One packet leaves through the tail and is released: [PushHead] on a full
    queue and each round of the trimming loop of [PopTail]. *)
Lemma unlink_release_holds s p q l d ov :
  holds s p q -> items q = l ++ [d] ->
  exists h, unlink_tail (head_node p) (nodes s) = Some (d, h) /\
    forall c, holds (release c (s <| nodes := h |>))
      (p <| queue_size := queue_size p - 1 |> <| overflow := ov |>)
      (mkAQ l (a_rt q) (a_cap q) (a_delay q) ov (a_released q ++ live_packets [c])).
Proof.
  intros [Hnn (ns & Hns & Hr) Hb Hsz Ht Hc Hd Ho Hrel] Hit. rewrite Hit in *.
  destruct (unlink_refines _ _ _ _ _ Hns Hr) as (h & ns' & Hu & Hr' & Hns' & Hsub).
  exists h. split; [done|]. intros c.
  destruct (release_frame c (s <| nodes := h |>)) as (Eq & En & Eb).
  simpl in Eq, En, Eb. split; simpl; rewrite ?Eq, ?En, ?Eb, ?release_released; try done.
  - by exists ns'.
  - intros a Ha. apply Hb. by apply Hsub.
  - rewrite Hsz, length_app. simpl. lia.
  - simpl. by rewrite <- Hrel.
Qed.

Lemma spec_full_nonempty q : 0 < a_cap q -> a_cap q <= Z.of_nat (length (items q)) ->
  exists l x, items q = l ++ [x].
Proof.
  intros Hc Hl. destruct (items q) as [|x l _] using rev_ind; simpl in *; [lia|]. by exists l, x.
Qed.

Lemma set_prev_frame b v h h' a x :
  set_prev b v h = Some h' -> h !! a = None ->
  set_prev b v (<[a := x]> h) = Some (<[a := x]> h') /\ h' !! a = None.
Proof.
  unfold set_prev. destruct (h !! b) as [n|] eqn:E; simpl; [|done]. intros [= <-] Ha.
  assert (a <> b) by congruence.
  rewrite !lookup_insert_ne, E by done. simpl. split; [|done]. f_equal. by apply insert_insert_ne.
Qed.

Lemma set_next_frame b v h h' a x :
  set_next b v h = Some h' -> h !! a = None ->
  set_next b v (<[a := x]> h) = Some (<[a := x]> h') /\ h' !! a = None.
Proof.
  unfold set_next. destruct (h !! b) as [n|] eqn:E; simpl; [|done]. intros [= <-] Ha.
  assert (a <> b) by congruence.
  rewrite !lookup_insert_ne, E by done. simpl. split; [|done]. f_equal. by apply insert_insert_ne.
Qed.

(** A node that is not part of the list does not disturb the unlinking. *)
Lemma unlink_tail_frame hd h d h' a x :
  unlink_tail hd h = Some (d, h') -> h !! a = None ->
  unlink_tail hd (<[a := x]> h) = Some (d, <[a := x]> h').
Proof.
  unfold unlink_tail. destruct (h !! hd) as [hn|] eqn:E1; simpl; [|done].
  destruct (h !! prev hn) as [n|] eqn:E2; simpl; [|done].
  destruct (set_prev hd (prev n) h) as [h1|] eqn:E3; simpl; [|done].
  destruct (set_next (prev n) hd h1) as [h2|] eqn:E4; simpl; [|done].
  destruct (h2 !! prev hn) as [n'|] eqn:E5; simpl; [|done]. intros [= <- <-] Ha.
  destruct (set_prev_frame _ _ _ _ a x E3 Ha) as [F1 Ha1].
  destruct (set_next_frame _ _ _ _ a x E4 Ha1) as [F2 Ha2].
  assert (a <> hd /\ a <> prev hn) as [? ?] by (split; congruence).
  rewrite lookup_insert_ne, E1 by done. simpl. rewrite lookup_insert_ne, E2 by done. simpl.
  rewrite F1. simpl. rewrite F2. simpl. rewrite lookup_insert_ne, E5 by done. simpl.
  by rewrite delete_insert_ne by done.
Qed.

(** The new node goes in front. *)
Lemma link_holds s p q d :
  holds s p q -> exists h,
    link_head (head_node p) (brk s) (<[brk s := mkNode 0 0 d]> (nodes s)) = Some h /\
    holds (s <| nodes := h |> <| brk := brk s + 1 |>) (p <| queue_size := queue_size p + 1 |>)
      (mkAQ (d :: items q) (a_rt q) (a_cap q) (a_delay q) (a_overflow q) (a_released q)).
Proof.
  intros [Hnn (ns & Hns & Hr) Hb Hsz Ht Hc Hd Ho Hrel].
  assert (brk s ∉ head_node p :: map fst ns) as Hfresh.
  { intros Hin. apply (ring_addr _ _ _ _ Hr), Hb in Hin. lia. }
  destruct (link_head_ring _ _ _ _ d Hr Hfresh) as (h & Hl & Hr').
  exists h. split; [done|]. split; simpl; try done.
  - exists ((brk s, d) :: ns). split; [simpl; by rewrite Hns|done].
  - intros a Ha. apply (ring_addr _ _ _ _ Hr') in Ha. simpl in Ha.
    assert (a = brk s \/ a ∈ head_node p :: map fst ns) as [->|Hin]; [|lia|].
    { rewrite !elem_of_cons in *. naive_solver. }
    apply (ring_addr _ _ _ _ Hr), Hb in Hin. lia.
  - lia.
Qed.

Lemma push_refines s q d :
  refines s q -> (a_rt q = true -> 0 < a_cap q) ->
  exists s', AVQueuePushHead false d s = Some (0, s') /\ refines s' (spec_push d q).
Proof.
  intros (p & Hq & Hh) Hcap. pose proof Hh as [_ _ Hb Hsz Ht Hc Hd Ho Hrel].
  unfold AVQueuePushHead, spec_push, drop_if_full, AVFreePacket. rewrite Hq. cbn [nodes queue].
  rewrite Ht, Hc, <- Hsz. destruct (a_rt q && _) eqn:E.
  - bool_hyps. destruct (spec_full_nonempty q) as (l & x & Hit); [auto|lia|].
    destruct (unlink_release_holds s p q l x true Hh Hit) as (h & Hu & Hrf).
    assert (nodes s !! brk s = None) as Hfree.
    { apply eq_None_not_Some. intros Hi. apply Hb in Hi. lia. }
    simpl. rewrite (unlink_tail_frame _ _ _ _ _ (mkNode 0 0 d) Hu Hfree). simpl.
    destruct (link_holds _ _ _ d (Hrf x)) as (h' & Hl & Hrf').
    rewrite Hit, removelast_last, last_snoc_Z.
    unfold release in *. destruct (x =? NULL); simpl in *; rewrite Hl; simpl;
      (eexists; split; [done|]); (eexists; split; [done|]); exact (holds_queue _ _ _ _ Hrf').
  - simpl. destruct (link_holds _ _ _ d Hh) as (h' & Hl & Hrf').
    rewrite Hl. simpl. eexists. split; [done|]. eexists. split; [done|].
    exact (holds_queue _ _ _ _ Hrf').
Qed.

(** The trimming loop keeps the newest [delay] packets. *)
Lemma drop_to_delay_holds n : forall s p q,
  holds s p q -> 0 <= a_delay q -> Z.to_nat (queue_size p - delay p) = n ->
  exists s' p', drop_to_delay n p s = Some (p', s') /\
    holds s' p'
      (mkAQ (take (Z.to_nat (a_delay q)) (items q)) (a_rt q) (a_cap q) (a_delay q)
         (a_overflow q)
         (a_released q ++ live_packets (rev (drop (Z.to_nat (a_delay q)) (items q))))).
Proof.
  induction n as [|n IH]; intros s p q Hh Hd0 Hn;
    pose proof Hh as [Hnn Hr Hb Hsz Ht Hc Hd Ho Hrel]; unfold drop_to_delay; fold drop_to_delay.
  - destruct (Z.ltb_spec (delay p) (queue_size p)); [lia|].
    exists s, p. split; [done|].
    rewrite take_ge, drop_ge by lia. simpl. rewrite app_nil_r. by split.
  - destruct (Z.ltb_spec (delay p) (queue_size p)); [|lia].
    destruct (spec_full_nonempty (mkAQ (items q) true 1 0 true [])) as (l & x & Hit);
      simpl in *; [lia|lia|].
    destruct (unlink_release_holds s p q l x (overflow p) Hh Hit) as (h & Hu & Hrf).
    rewrite Hu. simpl. specialize (Hrf x). rewrite Hit in *.
    rewrite length_app in Hsz. simpl in Hsz.
    destruct (IH _ _ _ Hrf) as (s' & p' & Hdrop & Hrf'); simpl; [done|lia|].
    exists s', p'. split; [exact Hdrop|]. simpl in Hrf'.
    rewrite take_app_le, drop_app_le, rev_app_distr by lia. simpl.
    change (x :: rev ?l) with ([x] ++ rev l). rewrite live_packets_app, app_assoc.
    by rewrite <- Ho.
Qed.

Lemma spec_trim_nonempty q :
  items q <> [] -> (a_overflow q = true -> 0 < a_delay q) ->
  exists l x, items (spec_trim q) = l ++ [x].
Proof.
  intros Hne Hd. unfold spec_trim.
  assert (items (spec_trim q) <> []) as Hne'.
  { unfold spec_trim. destruct (a_overflow q); [|done]. simpl. specialize (Hd eq_refl).
    destruct (items q); [done|]. by destruct (Z.to_nat (a_delay q)) eqn:E; [lia|]. }
  destruct (exists_last Hne') as (l & x & E). by exists l, x.
Qed.

(** The conditional trimming before the last packet is taken. *)
Lemma trim_holds s p q :
  holds s p q -> (a_overflow q = true -> 0 <= a_delay q) ->
  exists s' p',
    (if overflow p then
       '(p', s') ← drop_to_delay (Z.to_nat (queue_size p - delay p)) p s;
       Some (p' <| overflow := false |>, s')
     else Some (p, s)) = Some (p', s') /\ holds s' p' (spec_trim q).
Proof.
  intros Hh Hd0. unfold spec_trim. rewrite (rf_over _ _ _ Hh).
  destruct (a_overflow q) eqn:E; [|by exists s, p].
  destruct (drop_to_delay_holds _ s p q Hh (Hd0 eq_refl) eq_refl) as (s' & p' & Hd & Hh').
  rewrite Hd. simpl. do 2 eexists. split; [done|].
  destruct Hh' as [?????????]. by split.
Qed.

Lemma pop_refines s q ws :
  refines s q -> items q <> [] -> (a_overflow q = true -> 0 < a_delay q) ->
  exists s', AVQueuePopTail ws s = Some (PopReturned (fst (spec_pop q)) s') /\
    refines s' (snd (spec_pop q)).
Proof.
  intros (p & Hq & Hh) Hne Hd0. destruct (spec_trim_nonempty q Hne Hd0) as (l & x & Hl).
  destruct (trim_holds s p q Hh) as (s1 & p1 & Ht & Hh1); [intros Ho; specialize (Hd0 Ho); lia|].
  destruct (unlink_release_holds s1 p1 _ l x (overflow p1) Hh1 Hl) as (h & Hu & Hrf).
  assert (0 < queue_size p) as Hpos.
  { rewrite (rf_size _ _ _ Hh). destruct (items q); simpl; [done|lia]. }
  exists (s1 <| nodes := h |> <| queue := Some (p1 <| queue_size := queue_size p1 - 1 |>) |>).
  assert (pop_ready p s =
    Some (x, s1 <| nodes := h |> <| queue := Some (p1 <| queue_size := queue_size p1 - 1 |>) |>))
    as Hpop.
  { unfold pop_ready. rewrite (proj2 (Z.ltb_lt _ _) Hpos), Ht. simpl. by rewrite Hu. }
  unfold spec_pop. destruct (items q) as [|y l0] eqn:Hit; [done|].
  rewrite Hl, removelast_last, last_snoc. simpl. split.
  - destruct ws; simpl; rewrite Hq; destruct (Z.eqb_spec (queue_size p) 0); (lia || by rewrite Hpop).
  - eexists. split; [done|]. specialize (Hrf NULL). rewrite <- (rf_over _ _ _ Hh1).
    unfold live_packets in Hrf. rewrite filter_cons, filter_nil, decide_False, app_nil_r in Hrf by auto.
    exact (holds_queue _ _ _ _ Hrf).
Qed.

(** ** Whole runs *)

Inductive QueueOp := Push (d : Z) | Pop.

(** A pop on an empty queue with no other thread at work times out. *)
Definition queue_step (op : QueueOp) (s : QState) : option (Z * QState) :=
  match op with
  | Push d => AVQueuePushHead false d s
  | Pop =>
      match AVQueuePopTail [TimedOut s] s with
      | Some (PopReturned d s') => Some (d, s')
      | _ => None
      end
  end.

Definition spec_step (op : QueueOp) (q : AQ) : Z * AQ :=
  match op with
  | Push d => (0, spec_push d q)
  | Pop => spec_pop q
  end.

Fixpoint queue_run (ops : list QueueOp) (s : QState) : option (list Z * QState) :=
  match ops with
  | [] => Some ([], s)
  | op :: ops' =>
      '(r, s') ← queue_step op s;
      '(rs, s'') ← queue_run ops' s';
      Some (r :: rs, s'')
  end.

Fixpoint spec_run (ops : list QueueOp) (q : AQ) : list Z * AQ :=
  match ops with
  | [] => ([], q)
  | op :: ops' =>
      let '(r, q') := spec_step op q in
      let '(rs, q'') := spec_run ops' q' in (r :: rs, q'')
  end.

(** Bounds a realtime queue is created with, and what they guarantee. *)
Record aq_wf (q : AQ) : Prop := {
  aw_cap : a_rt q = true -> 0 < a_cap q /\ 0 < a_delay q;
  aw_len : a_rt q = true -> Z.of_nat (length (items q)) <= a_cap q;
  aw_over : a_overflow q = true -> a_rt q = true
}.

Lemma length_removelast {A} (l : list A) : length (removelast l) = pred (length l).
Proof.
  destruct l as [|x l _] using rev_ind; [done|].
  rewrite removelast_last, length_app. simpl. lia.
Qed.

Lemma spec_step_wf op q : aq_wf q -> aq_wf (snd (spec_step op q)).
Proof.
  intros [Hc Hl Ho]. destruct op as [d|]; simpl.
  - unfold spec_push. destruct (a_rt q && _) eqn:E.
    + bool_hyps. split; simpl; auto. intros Hrt. rewrite length_removelast.
      specialize (Hl Hrt). specialize (Hc Hrt). lia.
    + split; simpl; auto. intros Hrt. rewrite Hrt in E. simpl in E.
      apply Z.leb_gt in E. lia.
  - unfold spec_pop, spec_trim. destruct (items q) as [|x l] eqn:E.
    { split; simpl; rewrite ?E; auto. }
    assert (forall k, a_rt q = true -> Z.of_nat (length (removelast (take k (x :: l)))) <= a_cap q)
      as Hk.
    { intros k Hrt. rewrite length_removelast, length_take. specialize (Hl Hrt). lia. }
    destruct (a_overflow q) eqn:Eo; split; cbn [snd a_rt a_cap a_delay items a_overflow]; auto;
      rewrite ?Eo; auto; try done.
    intros Hrt. rewrite E. specialize (Hk (length (x :: l)) Hrt). by rewrite take_ge in Hk by done.
Qed.

Lemma queue_step_refines op s q :
  refines s q -> aq_wf q -> exists s',
    queue_step op s = Some (fst (spec_step op q), s') /\ refines s' (snd (spec_step op q)).
Proof.
  intros Href [Hc Hl Ho]. destruct op as [d|]; cbn [queue_step spec_step fst snd].
  - apply push_refines; [done|]. intros Hrt. by apply Hc.
  - destruct (items q) as [|x l] eqn:E.
    + destruct Href as (p & Hq & Hh). pose proof (rf_size _ _ _ Hh) as Hs. rewrite E in Hs.
      simpl. rewrite Hq, Hs. unfold spec_pop. rewrite E. simpl. exists s. split; [done|]. by exists p.
    + destruct (pop_refines s q [TimedOut s] Href) as (s' & Hp & Hr'); [by rewrite E| |].
      * intros Hov. by apply Hc, Ho.
      * rewrite Hp. by exists s'.
Qed.

Lemma queue_run_refines ops : forall s q,
  refines s q -> aq_wf q -> exists s',
    queue_run ops s = Some (fst (spec_run ops q), s') /\ refines s' (snd (spec_run ops q)) /\
    aq_wf (snd (spec_run ops q)).
Proof.
  induction ops as [|op ops IH]; intros s q Href Hwf; [by exists s|].
  destruct (queue_step_refines op s q Href Hwf) as (s1 & Hs1 & Href1).
  pose proof (spec_step_wf op q Hwf) as Hwf1. simpl. rewrite Hs1. simpl.
  destruct (spec_step op q) as [r q1]. simpl in *.
  destruct (IH s1 q1 Href1 Hwf1) as (s2 & Hs2 & Href2 & Hwf2). rewrite Hs2. simpl.
  destruct (spec_run ops q1) as [rs q2]. simpl in *. by exists s2.
Qed.

Definition empty_state (b : Z) : QState := mkQState None ∅ b [].

Definition init_items (t : QueueType) (size delay_count : Z) : AQ :=
  let rt := bool_decide (t = REALTIME) in
  mkAQ [] rt (if rt then size else 0) (if rt then delay_count else 0) false [].

Lemma init_refines t size dl b :
  t <> UNKNOWN_TYPE -> (t = REALTIME -> dl <= size) -> 0 < b ->
  exists s, AVQueueInit false false t size dl (empty_state b) = (1, s) /\
    refines s (init_items t size dl).
Proof.
  intros Ht Hd Hb. unfold AVQueueInit. cbn [queue empty_state].
  rewrite (bool_decide_eq_false_2 (t = UNKNOWN_TYPE)) by done.
  rewrite (bool_decide_eq_false_2 (None <> None)) by (intros H; by apply H).
  destruct (bool_decide (t = REALTIME) && (size <? dl)) eqn:E.
  { bool_hyps. specialize (Hd H). lia. }
  eexists. split; [done|]. eexists. split; [done|]. split; simpl; try done.
  - unfold NULL. lia.
  - exists []. split; [done|]. split; simpl; [by rewrite lookup_insert_eq|done|apply NoDup_singleton|].
    intros a Ha. rewrite list_elem_of_singleton in Ha. rewrite lookup_insert_ne by congruence. done.
  - intros a Ha. destruct (decide (a = b)) as [->|]; [lia|].
    rewrite lookup_insert_ne in Ha by congruence. by destruct Ha.
Qed.

(** ** Abort

    The loop only maintains the forward links. *)

Fixpoint fwd (h : gmap Z AVNode) (ns : cells) (n : Z) : Prop :=
  match ns with
  | [] => True
  | (a, d) :: ns' => (exists pv, h !! a = Some (mkNode pv (first_addr ns' n) d)) /\ fwd h ns' n
  end.

Lemma seg_fwd h p ns n : seg h p ns n -> fwd h ns n.
Proof.
  revert p. induction ns as [|[a d] ns IH]; intros p; simpl; [done|].
  intros [Ha Hs]. split; [by eexists|by eapply IH].
Qed.

Lemma fwd_frame h h' ns n :
  (forall a, a ∈ map fst ns -> h' !! a = h !! a) -> fwd h ns n -> fwd h' ns n.
Proof.
  induction ns as [|[a d] ns IH]; simpl; intros Hf; [done|].
  intros [(pv & Ha) Hs]. split.
  - exists pv. rewrite Hf; [done|by left].
  - apply IH; [|done]. intros b Hb. apply Hf. by right.
Qed.

Lemma abort_loop_spec call p ns : forall s sz pv dv,
  nodes s !! head_node p = Some (mkNode pv (first_addr ns (head_node p)) dv) ->
  fwd (nodes s) ns (head_node p) -> NoDup (head_node p :: map fst ns) ->
  (forall a, a ∉ head_node p :: map fst ns -> nodes s !! a = None) ->
  sz = Z.of_nat (length ns) ->
  exists s' pv', abort_loop (length ns) call (p <| queue_size := sz |>) s =
      Some (p <| queue_size := 0 |>, s') /\
    nodes s' = {[head_node p := mkNode pv' (head_node p) dv]} /\
    released s' = released s ++ (if call then live_packets (map snd ns) else []) /\
    queue s' = queue s.
Proof.
  induction ns as [|[a d] ns IH]; intros s sz pv dv Hh Hf Hnd Hdom ->.
  - exists s, pv. simpl. split_and!; [done| | |done].
    + apply map_eq. intros b. destruct (decide (b = head_node p)) as [->|].
      * by rewrite Hh, lookup_singleton_eq.
      * rewrite lookup_singleton_ne, Hdom by congruence || set_solver. done.
    + by destruct call; rewrite app_nil_r.
  - destruct Hf as [(apv & Ha) Hf]. simpl in Hnd.
    apply NoDup_cons in Hnd as [Hhd Hnd]. apply NoDup_cons in Hnd as [Han Hnd].
    apply not_elem_of_cons in Hhd as [Hha Hhn].
    unfold abort_loop, set_next; fold abort_loop. cbn [length queue_size head_node].
    rewrite (proj2 (Z.ltb_lt 0 _)) by (simpl; lia).
    simpl. rewrite Hh. simpl. rewrite Ha. simpl.
    set (h2 := delete a _). set (s1 := mkQState (queue s) h2 (brk s) (released s)).
    set (s2 := if call then release d s1 else s1).
    assert (nodes s2 = h2 /\ queue s2 = queue s /\
      released s2 = released s ++ (if call then live_packets [d] else [])) as (En & Eq & Er).
    { subst s2. destruct call; [|by rewrite app_nil_r].
      destruct (release_frame d s1) as (? & ? & ?). by rewrite release_released. }
    destruct (IH s2 (Z.of_nat (length ns)) pv dv) as (s' & pv' & Hl & Hn & Hr & Hq'); rewrite ?En.
    + subst h2. by rewrite lookup_delete_ne, lookup_insert_eq by congruence.
    + apply (fwd_frame (nodes s)); [|done]. intros b Hb. subst h2.
      rewrite lookup_delete_ne, lookup_insert_ne; [done| |by intros ->].
      intros E. apply Hhn. by rewrite E.
    + by constructor.
    + intros b Hb. subst h2. destruct (decide (b = a)) as [->|]; [apply lookup_delete_eq|].
      apply not_elem_of_cons in Hb as [Hb1 Hb2].
      rewrite lookup_delete_ne, lookup_insert_ne by congruence. apply Hdom.
      simpl. rewrite !not_elem_of_cons. done.
    + done.
    + exists s', pv'. split_and!; [|done| |by rewrite Hq'].
      * replace (Z.of_nat (S (length ns)) - 1) with (Z.of_nat (length ns)) by lia. exact Hl.
      * rewrite Hr, Er, <- app_assoc. f_equal. destruct call; [|done].
        symmetry. exact (live_packets_app [d] (map snd ns)).
Qed.

Lemma AVQueueAbort_spec call s q :
  refines s q -> exists s' p,
    AVQueueAbort call s = Some s' /\ queue s' = Some p /\ head_node p <> NULL /\
    nodes s' = {[head_node p := mkNode (head_node p) (head_node p) 0]} /\
    released s' = a_released q ++ (if call then live_packets (items q) else []).
Proof.
  intros (p & Hq & [Hnn (ns & Hns & Hr) Hb Hsz Ht Hc Hd Ho Hrel]).
  unfold AVQueueAbort. rewrite Hq, Hsz, Nat2Z.id, <- Hns, length_map.
  assert (p = p <| queue_size := Z.of_nat (length ns) |>) as Ep.
  { rewrite <- Hns, length_map in Hsz. destruct p. simpl in *. by subst. }
  destruct (abort_loop_spec call p ns s _ _ _ (ring_head _ _ _ Hr)
              (seg_fwd _ _ _ _ (ring_seg _ _ _ Hr)) (ring_nodup _ _ _ Hr) (ring_dom _ _ _ Hr) eq_refl)
    as (s' & pv' & Hl & Hn & Hrl & Hqs).
  rewrite <- Ep in Hl. rewrite Hl. simpl. unfold set_next, set_prev.
  rewrite Hn, lookup_singleton_eq. simpl.
  rewrite lookup_insert_eq. simpl. do 2 eexists. split; [done|]. simpl. split_and!; try done.
  - by rewrite !insert_singleton_eq.
  - by rewrite Hrl, Hrel.
Qed.

(** The parameters of the specification do not change. *)
Lemma spec_run_params ops : forall q,
  a_rt (snd (spec_run ops q)) = a_rt q /\ a_cap (snd (spec_run ops q)) = a_cap q.
Proof.
  induction ops as [|op ops IH]; intros q; [done|]. simpl.
  assert (a_rt (snd (spec_step op q)) = a_rt q /\ a_cap (snd (spec_step op q)) = a_cap q)
    as [E1 E2].
  { destruct op; simpl; unfold spec_push, spec_pop, spec_trim; repeat case_goal; done. }
  destruct (spec_step op q) as [r q1]. specialize (IH q1). destruct (spec_run ops q1).
  simpl in *. by rewrite <- E1, <- E2.
Qed.

Lemma init_items_wf t size dl : (t = REALTIME -> 0 < dl <= size) -> aq_wf (init_items t size dl).
Proof.
  intros Hd. unfold init_items. split; simpl; [| |done]; intros E; rewrite E; bool_hyps;
    specialize (Hd E); lia.
Qed.

(** C30. The linked list refines a bounded sequence. For a queue created with
    a positive size and, when it is a realtime queue, a positive delay of at
    most the size, every sequence of pushes and pops, with memory for every
    node and no thread that waits or wakes others, runs without an invalid
    memory access, every call returns what the sequence specification returns,
    the packets freed are those the specification drops, the nodes allocated
    are exactly those of the list, and a realtime queue never exceeds its
    size. A delay of 0, which [AVQueueInit] accepts, and [AVQueueWake] break
    this: [avqueue_zero_delay_frees_head], [avqueue_wake_loses_packet]. *)
Theorem avqueue_refines_bounded_sequence (t : QueueType) (size dl b : Z) (ops : list QueueOp) :
  t <> UNKNOWN_TYPE -> (t = REALTIME -> 0 < dl <= size) -> 0 < b ->
  let '(r, s0) := AVQueueInit false false t size dl (empty_state b) in
  let '(results, q) := spec_run ops (init_items t size dl) in
  r = 1 /\
  (exists s, queue_run ops s0 = Some (results, s) /\ refines s q) /\
  (t = REALTIME -> Z.of_nat (length (items q)) <= size).
Proof.
  intros Ht Hd Hb. destruct (init_refines t size dl b Ht) as (s0 & Hi & Href0); [|done|].
  { intros E. specialize (Hd E). lia. }
  rewrite Hi.
  destruct (queue_run_refines ops s0 _ Href0 (init_items_wf t size dl Hd)) as (s & Hrun & Href & Hwf).
  destruct (spec_run_params ops (init_items t size dl)) as [Hrt Hcap].
  destruct (spec_run ops (init_items t size dl)) as [results q]. simpl in *.
  split_and!; [done|by exists s|]. intros ->. simpl in *.
  rewrite <- Hcap. by apply (aw_len _ Hwf).
Qed.

Lemma avqueue_refines_bounded_sequence_witness :
  let ops := [Push 11; Push 12; Push 13; Push 14; Pop; Push 15; Pop; Pop; Pop] in
  fst (spec_run ops (init_items REALTIME 3 2)) = [0; 0; 0; 0; 13; 0; 14; 15; 0] /\
  exists s, queue_run ops (snd (AVQueueInit false false REALTIME 3 2 (empty_state 100))) =
    Some ([0; 0; 0; 0; 13; 0; 14; 15; 0], s).
Proof.
  split; [reflexivity|].
  destruct (avqueue_refines_bounded_sequence REALTIME 3 2 100
    [Push 11; Push 12; Push 13; Push 14; Pop; Push 15; Pop; Pop; Pop]) as (_ & (s & H & _) & _);
    [done|lia|lia|]. exists s. exact H.
Defined.

(** Popping a complete queue as often as it has packets empties it. *)
Lemma spec_pops_complete l : forall q,
  a_rt q = false -> a_overflow q = false -> items q = l ->
  exists q', spec_run (replicate (length l) Pop) q = (rev l, q') /\ items q' = [].
Proof.
  induction l as [|x l IH] using rev_ind; intros q Hrt Ho Hit; [by exists q|].
  rewrite length_app, Nat.add_1_r. cbn [replicate spec_run spec_step].
  unfold spec_pop. rewrite Hit. unfold spec_trim. rewrite Ho.
  assert (exists y l', l ++ [x] = y :: l') as (y & l' & Hy) by (destruct l; eauto).
  rewrite Hy, <- Hy, Hit, removelast_last, last_snoc.
  destruct (IH (mkAQ l (a_rt q) (a_cap q) (a_delay q) (a_overflow q) (a_released q)) Hrt Ho eq_refl)
    as (q' & Hq' & Hi).
  rewrite Hq'. exists q'. by rewrite rev_app_distr.
Qed.

Lemma spec_pushes_complete ds : forall q,
  a_rt q = false -> exists q', spec_run (map Push ds) q = (replicate (length ds) 0, q') /\
    items q' = rev ds ++ items q /\ a_rt q' = false /\ a_overflow q' = a_overflow q.
Proof.
  induction ds as [|d ds IH]; intros q Hrt; [by exists q|].
  cbn [map spec_run spec_step]. unfold spec_push. rewrite Hrt. simpl.
  edestruct (IH (mkAQ (d :: items q) false (a_cap q) (a_delay q) (a_overflow q) (a_released q)))
    as (q' & Hr & Hi & Hrt' & Ho); [done|].
  rewrite Hr. exists q'. split_and!; try done. rewrite Hi. simpl. by rewrite <- app_assoc.
Qed.

Lemma spec_run_app ops1 ops2 q :
  spec_run (ops1 ++ ops2) q =
    let '(r1, q1) := spec_run ops1 q in
    let '(r2, q2) := spec_run ops2 q1 in (r1 ++ r2, q2).
Proof.
  revert q. induction ops1 as [|op ops1 IH]; intros q; simpl; [by destruct (spec_run ops2 q)|].
  destruct (spec_step op q) as [r q1]. rewrite IH. destruct (spec_run ops1 q1) as [r1 q2].
  by destruct (spec_run ops2 q2).
Qed.

(** A "complete" queue is lossless and first-in first-out: what is pushed
    comes out of the pops in the same order, whatever the number of packets. *)
Theorem avqueue_complete_fifo (size dl b : Z) (ds : list Z) :
  0 < b ->
  exists s,
    queue_run (map Push ds ++ replicate (length ds) Pop)
      (snd (AVQueueInit false false COMPLETE size dl (empty_state b))) =
    Some (replicate (length ds) 0 ++ ds, s) /\ AVQueueSize s = 0.
Proof.
  intros Hb. destruct (init_refines COMPLETE size dl b) as (s0 & Hi & Href0); [done|done|done|].
  rewrite Hi. cbn [snd].
  destruct (queue_run_refines (map Push ds ++ replicate (length ds) Pop) s0 _ Href0
    (init_items_wf COMPLETE size dl ltac:(done))) as (s & Hrun & Href & _).
  destruct (spec_pushes_complete ds (init_items COMPLETE size dl) eq_refl)
    as (q1 & Hp & Hit & Hrt & Ho).
  rewrite app_nil_r in Hit.
  destruct (spec_pops_complete (rev ds) q1 Hrt Ho Hit) as (q2 & Hpop & Hempty).
  rewrite rev_involutive, length_rev in Hpop.
  rewrite spec_run_app, Hp, Hpop in *. exists s. split; [exact Hrun|].
  destruct Href as (p & Hq & Hh). unfold AVQueueSize. rewrite Hq, (rf_size _ _ _ Hh).
  simpl. by rewrite Hempty.
Qed.

Lemma avqueue_complete_fifo_witness : exists s,
  queue_run [Push 5; Push 0; Push 7; Pop; Pop; Pop]
    (snd (AVQueueInit false false COMPLETE 0 0 (empty_state 8))) = Some ([0; 0; 0; 5; 0; 7], s) /\
  AVQueueSize s = 0.
Proof. exact (avqueue_complete_fifo 0 0 8 [5; 0; 7] ltac:(lia)). Defined.

(** [AVQueueFree] leaves nothing behind: after any pushes and pops it
    frees every node and the head node, and hands each remaining packet over
    exactly once, newest first. *)
Theorem avqueue_free_releases_all (t : QueueType) (size dl b : Z) (ops : list QueueOp) :
  t <> UNKNOWN_TYPE -> (t = REALTIME -> 0 < dl <= size) -> 0 < b ->
  let s0 := snd (AVQueueInit false false t size dl (empty_state b)) in
  let q := snd (spec_run ops (init_items t size dl)) in
  exists results s s', queue_run ops s0 = Some (results, s) /\ AVQueueFree true s = Some s' /\
    queue s' = None /\ nodes s' = ∅ /\ released s' = a_released q ++ live_packets (items q).
Proof.
  intros Ht Hd Hb s0 q. destruct (init_refines t size dl b Ht) as (s1 & Hi & Href0); [|done|].
  { intros E. specialize (Hd E). lia. }
  subst s0. rewrite Hi. cbn [snd].
  destruct (queue_run_refines ops s1 _ Href0 (init_items_wf t size dl Hd)) as (s & Hrun & Href & _).
  destruct (AVQueueAbort_spec true s q Href) as (s2 & p & Ha & Hq2 & Hnn & Hn & Hr).
  exists (fst (spec_run ops (init_items t size dl))), s,
    (s2 <| nodes := ∅ |> <| queue := None |>). split; [done|].
  destruct Href as (p0 & Hq0 & Hh0). unfold AVQueueFree. rewrite Hq0, Ha. simpl.
  rewrite Hq2. simpl. rewrite Hn, (proj2 (Z.eqb_neq _ _) Hnn), delete_singleton_eq.
  by rewrite <- Hr.
Qed.

Lemma avqueue_free_releases_all_witness :
  exists results s s',
    queue_run [Push 11; Push 12; Push 13; Push 14] 
      (snd (AVQueueInit false false REALTIME 3 2 (empty_state 100))) = Some (results, s) /\
    AVQueueFree true s = Some s' /\ queue s' = None /\ nodes s' = ∅ /\
    released s' = [11; 14; 13; 12].
Proof.
  exact (avqueue_free_releases_all REALTIME 3 2 100 [Push 11; Push 12; Push 13; Push 14]
           ltac:(done) ltac:(lia) ltac:(lia)).
Defined.

(** The ring without nodes is the head alone. *)
Lemma ring_nil h hd : ring h hd [] -> h = {[hd := mkNode hd hd 0]}.
Proof.
  intros [Hh _ _ Hdom]. apply map_eq. intros a. destruct (decide (a = hd)) as [->|].
  - by rewrite Hh, lookup_singleton_eq.
  - rewrite lookup_singleton_ne by congruence. apply Hdom.
    by rewrite list_elem_of_singleton.
Qed.

Lemma unlink_tail_empty hd : unlink_tail hd {[hd := mkNode hd hd 0]} = Some (0, ∅).
Proof.
  unfold unlink_tail, set_prev, set_next.
  rewrite lookup_singleton_eq. simpl. rewrite lookup_singleton_eq. simpl.
  rewrite !insert_singleton_eq, lookup_singleton_eq. simpl.
  by rewrite insert_singleton_eq, lookup_singleton_eq, delete_singleton_eq.
Qed.

Lemma push_dangling s p d :
  queue s = Some p -> nodes s = ∅ -> head_node p <> brk s ->
  AVQueuePushHead false d s = None.
Proof.
  intros Hq Hn Hb. unfold AVQueuePushHead, drop_if_full. rewrite Hq, Hn. simpl.
  assert (<[brk s:=mkNode 0 0 d]> (∅ : gmap Z AVNode) !! head_node p = None) as E.
  { by rewrite lookup_insert_ne, lookup_empty by congruence. }
  case_goal.
  - unfold unlink_tail. simpl. by rewrite E.
  - simpl. unfold link_head. by rewrite E.
Qed.

(** A delay of 0, which [AVQueueInit] accepts, breaks a realtime queue:
    the first pop after an overflow discards every packet, returns NULL, and
    unlinks and frees the head node itself, so that the next push is an
    access to freed memory. *)
Theorem avqueue_zero_delay_frees_head (s : QState) (q : AQ) :
  refines s q -> a_overflow q = true -> a_delay q = 0 -> items q <> [] ->
  exists s', AVQueuePopTail [] s = Some (PopReturned NULL s') /\ nodes s' = ∅ /\
    forall d, AVQueuePushHead false d s' = None.
Proof.
  intros (p & Hq & Hh) Ho Hd Hne.
  assert (0 < queue_size p) as Hpos.
  { rewrite (rf_size _ _ _ Hh). destruct (items q); simpl; [done|lia]. }
  destruct (trim_holds s p q Hh) as (s1 & p1 & Ht & Hh1); [lia|].
  destruct (rf_ring _ _ _ Hh1) as (ns & Hns & Hr).
  unfold spec_trim in Hns. rewrite Ho, Hd in Hns. simpl in Hns. rewrite take_0 in Hns.
  destruct ns; [|done].
  assert (head_node p1 < brk s1) as Hb1.
  { apply (rf_brk _ _ _ Hh1). rewrite (ring_head _ _ _ Hr). by eexists. }
  apply ring_nil in Hr.
  exists (s1 <| nodes := ∅ |> <| queue := Some (p1 <| queue_size := queue_size p1 - 1 |>) |>).
  split_and!; [|done|].
  - simpl. rewrite Hq. destruct (Z.eqb_spec (queue_size p) 0); [lia|].
    unfold pop_ready. rewrite (proj2 (Z.ltb_lt _ _) Hpos), Ht. simpl.
    by rewrite Hr, unlink_tail_empty.
  - intros d. eapply push_dangling; [done|done|]. simpl. lia.
Qed.

Lemma avqueue_zero_delay_frees_head_witness :
  exists s s',
    queue_run [Push 11; Push 12; Push 13]
      (snd (AVQueueInit false false REALTIME 2 0 (empty_state 100))) = Some ([0; 0; 0], s) /\
    AVQueuePopTail [] s = Some (PopReturned NULL s') /\ nodes s' = ∅ /\
    forall d, AVQueuePushHead false d s' = None.
Proof.
  destruct (init_refines REALTIME 2 0 100 ltac:(done) ltac:(lia) ltac:(lia)) as (s0 & Hi & H0).
  rewrite Hi. cbn [snd].
  destruct (push_refines _ _ 11 H0 ltac:(simpl; lia)) as (s1 & E1 & H1).
  destruct (push_refines _ _ 12 H1 ltac:(simpl; lia)) as (s2 & E2 & H2).
  destruct (push_refines _ _ 13 H2 ltac:(simpl; lia)) as (s3 & E3 & H3).
  destruct (avqueue_zero_delay_frees_head _ _ H3 ltac:(reflexivity) ltac:(reflexivity) ltac:(done))
    as (s' & Hp & Hn & Hpush).
  exists s3, s'. simpl. rewrite E1. simpl. rewrite E2. simpl. rewrite E3. simpl. done.
Defined.

(** [AVQueueWake] on an empty queue leaves the size at -1, so the next
    packet is linked but counted as 0 packets: a pop waits for another one
    instead of returning it. *)
Theorem avqueue_wake_loses_packet (s : QState) (q : AQ) (d : Z) :
  refines s q -> items q = [] -> (a_rt q = true -> 0 <= a_cap q) ->
  exists s' p, AVQueuePushHead false d (AVQueueWake s) = Some (0, s') /\
    queue s' = Some p /\ queue_size p = 0 /\
    (exists a, ring (nodes s') (head_node p) [(a, d)]) /\
    AVQueuePopTail [] s' = Some PopWaiting.
Proof.
  intros (p & Hq & Hh) Hit Hcap. pose proof (rf_size _ _ _ Hh) as Hsz. rewrite Hit in Hsz.
  destruct (link_holds _ _ _ d Hh) as (h & Hl & Hh').
  destruct (rf_ring _ _ _ Hh') as (ns & Hns & Hr). simpl in Hns. rewrite Hit in Hns.
  destruct ns as [|[a x] [|]]; try done. simpl in Hns. injection Hns as ->.
  unfold AVQueueWake. rewrite Hq, Hsz. simpl.
  unfold AVQueuePushHead, drop_if_full. simpl.
  rewrite (rf_type _ _ _ Hh), (rf_cap _ _ _ Hh).
  destruct (a_rt q && (a_cap q <=? -1)) eqn:E.
  { bool_hyps. specialize (Hcap H). lia. }
  simpl. rewrite Hl. simpl. do 2 eexists. split; [done|]. split; [done|].
  split_and!; [done|by exists a|done].
Qed.

Lemma avqueue_wake_loses_packet_witness :
  exists s' p, AVQueuePushHead false 42
      (AVQueueWake (snd (AVQueueInit false false COMPLETE 0 0 (empty_state 8)))) = Some (0, s') /\
    queue s' = Some p /\ queue_size p = 0 /\
    (exists a, ring (nodes s') (head_node p) [(a, 42)]) /\
    AVQueuePopTail [] s' = Some PopWaiting.
Proof.
  destruct (init_refines COMPLETE 0 0 8 ltac:(done) ltac:(done) ltac:(lia)) as (s0 & Hi & H0).
  rewrite Hi. cbn [snd].
  exact (avqueue_wake_loses_packet s0 _ 42 H0 ltac:(reflexivity) ltac:(done)).
Defined.
