(* ===== verification/Memory.v ===== *)
(** * Buffer memory: usage flags and the allocator interface

    Models common/memory: the translation of the abstract usage flags
    (qmmf_memory_interface.{h,cc}, qmmf_gralloc_interface.cc,
    qmmf_gbm_interface.cc) and the allocator device.  [AllocUsage] and
    [AllocDevice] are the interfaces [IMemAllocUsage] and [IAllocDevice] the
    camera streams are written against; [AllocDeviceLaws] is what an
    allocator promises.  The GBM allocator implements them on top of libgbm,
    which is not part of the repository and is the parameter [GbmLib]. *)

From S2P Require Import Prelude.

(** ** Common usage flags *)

Definition kHwCameraZsl : Z := Z.shiftl 1 0.
Definition kPrivateAllocUbwc : Z := Z.shiftl 1 1.
Definition kPrivateIommUHeap : Z := Z.shiftl 1 2.
Definition kPrivateMmHeap : Z := Z.shiftl 1 3.
Definition kPrivateUncached : Z := Z.shiftl 1 4.
Definition kProtected : Z := Z.shiftl 1 5.
Definition kSwReadOften : Z := Z.shiftl 1 6.
Definition kSwWriteOften : Z := Z.shiftl 1 7.
Definition kVideoEncoder : Z := Z.shiftl 1 8.
Definition kHwFb : Z := Z.shiftl 1 9.
Definition kHwTexture : Z := Z.shiftl 1 10.
Definition kHwRender : Z := Z.shiftl 1 11.
Definition kHwComposer : Z := Z.shiftl 1 12.
Definition kHwCameraRead : Z := Z.shiftl 1 13.
Definition kHwCameraWrite : Z := Z.shiftl 1 14.

(** Gralloc flags the header defines for the GBM build. *)
Definition GRALLOC_USAGE_PROTECTED : Z := 0x00004000.
Definition GRALLOC_USAGE_SW_READ_OFTEN : Z := 0x00000003.
Definition GRALLOC_USAGE_SW_WRITE_OFTEN : Z := 0x00000030.
Definition GRALLOC_USAGE_HW_FB : Z := 0x00001000.
Definition GRALLOC_USAGE_HW_CAMERA_ZSL : Z := 0x00060000.
Definition GRALLOC_USAGE_HW_TEXTURE : Z := 0x00000100.
Definition GRALLOC_USAGE_HW_RENDER : Z := 0x00000200.
Definition GRALLOC_USAGE_HW_COMPOSER : Z := 0x00000800.
Definition GRALLOC_USAGE_HW_VIDEO_ENCODER : Z := 0x00010000.
Definition GRALLOC_USAGE_HW_CAMERA_WRITE : Z := 0x00020000.
Definition GRALLOC_USAGE_HW_CAMERA_READ : Z := 0x00040000.
Definition GRALLOC_USAGE_PRIVATE_ALLOC_UBWC : Z := 0x10000000.
Definition GRALLOC_USAGE_PRIVATE_UNCACHED : Z := 0x02000000.

(** A table pairs a common flag with its native flags. *)
Abbreviation flag_map := (list (Z * Z)).

(** The loop of [ToLocal] and [ToGralloc]. *)
Definition map_to_native (m : flag_map) (common : Z) : Z :=
  fold_left (fun acc '(k, v) => if Z.land k common =? 0 then acc else Z.lor acc v) m 0.

(** The loop of [ToCommon] and [GrallocToCommon]. *)
Definition map_to_common (m : flag_map) (local : Z) : Z :=
  fold_left (fun acc '(k, v) => if Z.land v local =? 0 then acc else Z.lor acc k) m 0.

Definition gralloc_usage_flag_map_ : flag_map :=
  [(kHwCameraZsl, GRALLOC_USAGE_HW_CAMERA_ZSL);
   (kPrivateAllocUbwc, GRALLOC_USAGE_PRIVATE_ALLOC_UBWC);
   (kPrivateUncached, GRALLOC_USAGE_PRIVATE_UNCACHED);
   (kProtected, GRALLOC_USAGE_PROTECTED);
   (kSwReadOften, GRALLOC_USAGE_SW_READ_OFTEN);
   (kSwWriteOften, GRALLOC_USAGE_SW_WRITE_OFTEN);
   (kVideoEncoder, GRALLOC_USAGE_HW_VIDEO_ENCODER);
   (kHwFb, GRALLOC_USAGE_HW_FB);
   (kHwTexture, GRALLOC_USAGE_HW_TEXTURE);
   (kHwRender, GRALLOC_USAGE_HW_RENDER);
   (kHwComposer, GRALLOC_USAGE_HW_COMPOSER);
   (kHwCameraRead, GRALLOC_USAGE_HW_CAMERA_READ);
   (kHwCameraWrite, GRALLOC_USAGE_HW_CAMERA_WRITE)].

Definition ToGralloc (common : Z) : Z := map_to_native gralloc_usage_flag_map_ common.
Definition GrallocToCommon (gralloc : Z) : Z := map_to_common gralloc_usage_flag_map_ gralloc.

(** The flags of libgbm, whose header is not in the repository. *)
Class GbmFlags := {
  GBM_BO_USAGE_UBWC_ALIGNED_QTI : Z;
  GBM_BO_ALLOC_IOMMU_HEAP_QTI : Z;
  GBM_BO_ALLOC_MM_HEAP_QTI : Z;
  GBM_BO_USAGE_UNCACHED_QTI : Z;
  GBM_BO_USAGE_PROTECTED_QTI : Z;
  GBM_BO_USAGE_CPU_READ_QTI : Z;
  GBM_BO_USAGE_CPU_WRITE_QTI : Z;
  GBM_BO_USAGE_VIDEO_ENCODER_QTI : Z;
  GBM_BO_USAGE_HW_RENDERING_QTI : Z;
  GBM_BO_USAGE_HW_COMPOSER_QTI : Z;
  GBM_BO_USAGE_CAMERA_READ_QTI : Z;
  GBM_BO_USAGE_CAMERA_WRITE_QTI : Z
}.

(** [IMemAllocUsage]. *)
Class AllocUsage := {
  ToLocal : Z -> Z;
  ToCommon : Z -> Z
}.

Section GBMUsage.
Context `{GbmFlags}.

Definition usage_flag_map_ : flag_map :=
  [(kHwCameraZsl, 0);
   (kPrivateAllocUbwc, GBM_BO_USAGE_UBWC_ALIGNED_QTI);
   (kPrivateIommUHeap, GBM_BO_ALLOC_IOMMU_HEAP_QTI);
   (kPrivateMmHeap, GBM_BO_ALLOC_MM_HEAP_QTI);
   (kPrivateUncached, GBM_BO_USAGE_UNCACHED_QTI);
   (kProtected, GBM_BO_USAGE_PROTECTED_QTI);
   (kSwReadOften, GBM_BO_USAGE_CPU_READ_QTI);
   (kSwWriteOften, GBM_BO_USAGE_CPU_WRITE_QTI);
   (kVideoEncoder, GBM_BO_USAGE_VIDEO_ENCODER_QTI);
   (kHwFb, 0);
   (kHwTexture, 0);
   (kHwRender, GBM_BO_USAGE_HW_RENDERING_QTI);
   (kHwComposer, GBM_BO_USAGE_HW_COMPOSER_QTI);
   (kHwCameraRead, GBM_BO_USAGE_CAMERA_READ_QTI);
   (kHwCameraWrite, GBM_BO_USAGE_CAMERA_WRITE_QTI)].

#[export] Instance GBMUsage : AllocUsage := {
  ToLocal := map_to_native usage_flag_map_;
  ToCommon := map_to_common usage_flag_map_
}.

Definition LocalToGralloc (local : Z) : Z := ToGralloc (ToCommon local).
Definition GrallocToLocal (gralloc : Z) : Z := ToLocal (GrallocToCommon gralloc).
End GBMUsage.

(** ** Laws of the translation loops *)

Lemma fold_lor_acc (f : Z * Z -> bool) (g : Z * Z -> Z) m : forall acc,
  fold_left (fun a p => if f p then a else Z.lor a (g p)) m acc =
    Z.lor acc (fold_left (fun a p => if f p then a else Z.lor a (g p)) m 0).
Proof.
  induction m as [|p m IH]; intros acc; simpl; [by rewrite Z.lor_0_r|].
  rewrite IH. symmetry. rewrite IH. destruct (f p); [done|].
  by rewrite Z.lor_0_l, Z.lor_assoc.
Qed.

Lemma fold_lor_testbit (f : Z * Z -> bool) (g : Z * Z -> Z) m i : 0 <= i ->
  Z.testbit (fold_left (fun a p => if f p then a else Z.lor a (g p)) m 0) i =
    existsb (fun p => negb (f p) && Z.testbit (g p) i) m.
Proof.
  intros Hi. induction m as [|p m IH]; simpl; [by rewrite Z.bits_0|].
  rewrite fold_lor_acc, Z.lor_spec, IH. f_equal.
  destruct (f p); simpl; [by rewrite Z.bits_0|]. by rewrite Z.lor_0_l.
Qed.

Lemma fold_left_ext {A B} (f g : A -> B -> A) l :
  (forall a b, f a b = g a b) -> forall a, fold_left f l a = fold_left g l a.
Proof. intros H. induction l as [|b l IH]; intros a; simpl; [done|]. by rewrite H. Qed.

Lemma map_to_native_eq m c :
  map_to_native m c =
    fold_left (fun a p => if Z.land (fst p) c =? 0 then a else Z.lor a (snd p)) m 0.
Proof.
  unfold map_to_native. apply fold_left_ext. by intros a [k v].
Qed.

Lemma map_to_common_eq m c :
  map_to_common m c =
    fold_left (fun a p => if Z.land (snd p) c =? 0 then a else Z.lor a (fst p)) m 0.
Proof.
  unfold map_to_common. apply fold_left_ext. by intros a [k v].
Qed.

Lemma existsb_perm {A} (f : A -> bool) l1 l2 : l1 ≡ₚ l2 -> existsb f l1 = existsb f l2.
Proof.
  induction 1 as [|x l1 l2 _ IH|x y l|l1 l2 l3 _ IH1 _ IH2]; simpl; try congruence.
  by rewrite !orb_assoc, (orb_comm (f y)).
Qed.

(** The tables are hash maps whose iteration order is unspecified; the
    translations do not depend on it. *)
Theorem flag_maps_order_irrelevant (m1 m2 : flag_map) (c : Z) :
  m1 ≡ₚ m2 ->
  map_to_native m1 c = map_to_native m2 c /\ map_to_common m1 c = map_to_common m2 c.
Proof.
  intros Hp. rewrite !map_to_native_eq, !map_to_common_eq.
  split; apply Z.bits_inj_iff'; intros i Hi; rewrite !fold_lor_testbit by done;
    by apply existsb_perm.
Qed.

Lemma flag_maps_order_irrelevant_witness :
  ToGralloc (Z.lor kProtected kHwFb) =
    map_to_native (rev gralloc_usage_flag_map_) (Z.lor kProtected kHwFb).
Proof.
  apply (flag_maps_order_irrelevant gralloc_usage_flag_map_ (rev gralloc_usage_flag_map_)).
  apply Permutation_rev.
Defined.

(** What survives the way to gralloc flags and back: the two heap flags have
    no gralloc flag, and the three camera flags share bits. *)
Definition gralloc_image (c : Z) : Z :=
  let heaps := Z.lor kPrivateIommUHeap kPrivateMmHeap in
  let zsl := negb (Z.land c kHwCameraZsl =? 0) in
  let rd := negb (Z.land c kHwCameraRead =? 0) in
  let wr := negb (Z.land c kHwCameraWrite =? 0) in
  Z.lor (Z.ldiff c heaps)
    (Z.lor (if zsl || rd || wr then kHwCameraZsl else 0)
       (Z.lor (if zsl || rd then kHwCameraRead else 0)
              (if zsl || wr then kHwCameraWrite else 0))).

(** All integers of [n] bits. *)
Fixpoint bit_vectors (n : nat) : list Z :=
  match n with
  | O => [0]
  | S n' => flat_map (fun c => [2 * c; 2 * c + 1]) (bit_vectors n')
  end.

Lemma bit_vectors_complete n : forall c, 0 <= c < 2 ^ Z.of_nat n -> In c (bit_vectors n).
Proof.
  induction n as [|n IH]; intros c Hc; [simpl in *; lia|].
  rewrite Nat2Z.inj_succ, Z.pow_succ_r in Hc by lia. simpl. apply in_flat_map.
  exists (c / 2). split.
  - apply IH. split; [apply Z.div_pos; lia|apply Z.div_lt_upper_bound; lia].
  - pose proof (Z.div_mod c 2). pose proof (Z.mod_pos_bound c 2). simpl. lia.
Qed.

Lemma gralloc_roundtrip_all :
  forallb (fun c => GrallocToCommon (ToGralloc c) =? gralloc_image c) (bit_vectors 15) = true.
Proof. vm_compute. reflexivity. Qed.

(** Translating any set of the fifteen common flags to gralloc flags and
    back keeps every flag except the two heap flags, which are lost, and adds
    flags only around the camera: "camera read" or "camera write" come back
    together with "camera ZSL", whose gralloc value is the union of the two. *)
Theorem gralloc_roundtrip (c : Z) :
  0 <= c < 32768 -> GrallocToCommon (ToGralloc c) = gralloc_image c.
Proof.
  intros Hc. pose proof gralloc_roundtrip_all as H. rewrite forallb_forall in H.
  by apply Z.eqb_eq, H, bit_vectors_complete.
Qed.

Lemma gralloc_roundtrip_witness :
  GrallocToCommon (ToGralloc (Z.lor kHwCameraWrite (Z.lor kPrivateMmHeap kVideoEncoder))) =
    Z.lor kHwCameraWrite (Z.lor kHwCameraZsl kVideoEncoder).
Proof.
  exact (gralloc_roundtrip (Z.lor kHwCameraWrite (Z.lor kPrivateMmHeap kVideoEncoder))
           ltac:(split; vm_compute; congruence)).
Defined.

(** ** The allocator device *)

Inductive AllocDeviceAction := GetMetaFd | GetStride | GetHeight | GetAlignedWidth | GetAlignedHeight.

(** [IAllocDevice] and the buffer objects behind its handles.  A handle is
    the address of a buffer object; [AllocBuffer] returns [None] for
    [kAllocFail] and the handle and stride otherwise. *)
Class AllocDevice (D : Type) := {
  AllocBuffer : Z -> Z -> Z -> Z -> D -> option (Z * Z) * D;
  FreeBuffer : Z -> D -> D;
  Perform : Z -> AllocDeviceAction -> D -> option Z;
  GetFD : Z -> D -> Z;
  GetFormat : Z -> D -> Z;
  GetSize : Z -> D -> Z;
  GetAllocBufferHandle : Z -> D -> Z
}.

(** What a client may rely on: a handle is not NULL and not in use when it
    is returned, and stays valid until it is freed. *)
Class AllocDeviceLaws (D : Type) `{AllocDevice D} := {
  allocated : D -> gset Z;
  alloc_ok d w h f u b st d' : AllocBuffer w h f u d = (Some (b, st), d') ->
    b <> 0 /\ (b ∉ allocated d) /\ (allocated d' = {[b]} ∪ allocated d);
  alloc_fail d w h f u d' : AllocBuffer w h f u d = (None, d') -> allocated d' = allocated d;
  free_allocated d b : b ∈ allocated d -> allocated (FreeBuffer b d) = allocated d ∖ {[b]};
  native_inj d b1 b2 : b1 ∈ allocated d -> b2 ∈ allocated d ->
    GetAllocBufferHandle b1 d = GetAllocBufferHandle b2 d -> b1 = b2
}.

Section AllocDevice.
Context {D : Type} `{AllocDevice D} `{!AllocDeviceLaws D}.

(** A loop of [FreeBuffer] over a list of handles. *)
Definition free_all (bs : list Z) (d : D) : D := fold_left (fun d b => FreeBuffer b d) bs d.

Lemma free_all_allocated bs : forall d,
  NoDup bs -> (forall b, b ∈ bs -> b ∈ allocated d) ->
  allocated (free_all bs d) = allocated d ∖ list_to_set bs.
Proof.
  induction bs as [|b bs IH]; intros d Hnd Hin; simpl; [set_solver|].
  apply NoDup_cons in Hnd as [Hb Hnd].
  assert (allocated (FreeBuffer b d) = allocated d ∖ {[b]}) as E.
  { apply free_allocated, Hin. by left. }
  change (free_all (b :: bs) d) with (free_all bs (FreeBuffer b d)).
  rewrite IH; [rewrite E; set_solver|done|].
  intros c Hc. rewrite E. apply elem_of_difference. split; [apply Hin; by right|].
  rewrite elem_of_singleton. by intros ->.
Qed.
End AllocDevice.

(** ** The GBM allocator

    libgbm as the device uses it: [gbm_bo_create] yields a buffer object or
    NULL (0); queries answer by the address of the object. *)

Class GbmLib (L : Type) := {
  gbm_bo_create : Z -> Z -> Z -> Z -> L -> Z * L;
  gbm_bo_destroy : Z -> L -> L;
  gbm_bo_get_stride : Z -> L -> Z;
  gbm_bo_get_height : Z -> L -> Z;
  gbm_bo_get_fd : Z -> L -> Z;
  gbm_bo_get_format : Z -> L -> Z;
  gbm_bo_size : Z -> L -> Z;
  gbm_aligned_width : Z -> L -> option Z;
  gbm_aligned_height : Z -> L -> option Z;
  gbm_metadata_fd : Z -> L -> option Z;
  (** the format tables [to_gbm_] and [from_gbm_], over constants of gbm.h *)
  to_gbm_ : list (Z * Z);
  from_gbm_ : list (Z * Z)
}.

Class GbmLibLaws (L : Type) `{GbmLib L} := {
  bos : L -> gset Z;
  create_ok l w h f u bo l' : gbm_bo_create w h f u l = (bo, l') -> bo <> 0 ->
    (bo ∉ bos l) /\ (bos l' = {[bo]} ∪ bos l);
  create_fail l w h f u l' : gbm_bo_create w h f u l = (0, l') -> bos l' = bos l;
  destroy_bos l bo : bos (gbm_bo_destroy bo l) = bos l ∖ {[bo]}
}.

Section GBMDevice.
Context {L : Type} `{GbmLib L} `{!GbmLibLaws L} `{GbmFlags}.

(** The device with its [GBMBuffer] objects ([buffers]: address of the
    object to its [gbm_bo]) and the import table. *)
Record GBMDevice := mkGBM {
  gbm_lib : L;
  buffers : gmap Z Z;
  imported_buffers_map_ : gmap Z bool
}.

#[export] Instance GBMDevice_settable : Settable GBMDevice :=
  {| eta_expand := fun g => mkGBM (gbm_lib g) (buffers g) (imported_buffers_map_ g) |}.

(** [GBMBuffer::GetLocalFormat]: the loop keeps the last match. *)
Definition GetLocalFormat (common : Z) : Z :=
  fold_left (fun acc '(k, v) => if k =? common then v else acc) to_gbm_ 0.

(** [GBMBuffer::GetFormat]: the first match, 0 when there is none. *)
Definition gbm_GetFormat (bo : Z) (l : L) : Z :=
  match find (fun p => fst p =? gbm_bo_get_format bo l) from_gbm_ with
  | Some (_, v) => v
  | None => 0
  end.

(** [new GBMBuffer]: an address that is not NULL and not in use. *)
Definition new_buffer (g : GBMDevice) : Z := fresh ({[0]} ∪ dom (buffers g)).

Definition bo_of (h : Z) (g : GBMDevice) : Z := default 0 (buffers g !! h).

Definition gbm_AllocBuffer (width height format usage : Z) (g : GBMDevice)
    : option (Z * Z) * GBMDevice :=
  let handle := new_buffer g in
  let g1 := g <| buffers := <[handle := 0]> (buffers g) |> in
  let '(bo, l') := gbm_bo_create (u32 width) (u32 height) (GetLocalFormat format) (u32 (ToLocal usage))
                     (gbm_lib g) in
  if bo =? 0 then (None, g1 <| gbm_lib := l' |>)
  else (Some (handle, gbm_bo_get_stride bo l'),
        g1 <| gbm_lib := l' |> <| buffers := <[handle := bo]> (buffers g1) |>).

Definition gbm_ImportBuffer (bo : Z) (g : GBMDevice) : Z * GBMDevice :=
  let handle := new_buffer g in
  (handle, g <| buffers := <[handle := bo]> (buffers g) |>
             <| imported_buffers_map_ := <[bo := true]> (imported_buffers_map_ g) |>).

Definition gbm_FreeBuffer (handle : Z) (g : GBMDevice) : GBMDevice :=
  let bo := bo_of handle g in
  let g1 :=
    if bool_decide (imported_buffers_map_ g !! bo = Some true) then
      g <| imported_buffers_map_ := <[bo := false]> (imported_buffers_map_ g) |>
    else g <| gbm_lib := gbm_bo_destroy bo (gbm_lib g) |> in
  g1 <| buffers := delete handle (buffers g1) |>.

Definition gbm_Perform (handle : Z) (action : AllocDeviceAction) (g : GBMDevice) : option Z :=
  if handle =? 0 then None
  else
    let bo := bo_of handle g in
    match action with
    | GetHeight => Some (gbm_bo_get_height bo (gbm_lib g))
    | GetStride => Some (gbm_bo_get_stride bo (gbm_lib g))
    | GetAlignedWidth => gbm_aligned_width bo (gbm_lib g)
    | GetAlignedHeight => gbm_aligned_height bo (gbm_lib g)
    | GetMetaFd => gbm_metadata_fd bo (gbm_lib g)
    end.

(** The handle given to the camera HAL is the [private_handle_t] that
    [RepackToGralloc] caches in the buffer object, one per object. *)
#[export] Instance gbm_alloc_device : AllocDevice GBMDevice := {
  AllocBuffer := gbm_AllocBuffer;
  FreeBuffer := gbm_FreeBuffer;
  Perform := gbm_Perform;
  GetFD h g := gbm_bo_get_fd (bo_of h g) (gbm_lib g);
  GetFormat h g := gbm_GetFormat (bo_of h g) (gbm_lib g);
  GetSize h g := gbm_bo_size (bo_of h g) (gbm_lib g);
  GetAllocBufferHandle h g := h
}.

Definition gbm_allocated (g : GBMDevice) : gset Z :=
  dom (filter (fun p : Z * Z => snd p <> 0) (buffers g)).

Lemma elem_of_gbm_allocated h g :
  h ∈ gbm_allocated g <-> exists bo, buffers g !! h = Some bo /\ bo <> 0.
Proof.
  unfold gbm_allocated. rewrite elem_of_dom. unfold is_Some.
  setoid_rewrite map_lookup_filter_Some. done.
Qed.

Lemma new_buffer_fresh g : new_buffer g <> 0 /\ buffers g !! new_buffer g = None.
Proof.
  pose proof (is_fresh ({[0]} ∪ dom (buffers g))) as Hf. fold (new_buffer g) in Hf.
  rewrite elem_of_union, elem_of_singleton, elem_of_dom in Hf.
  split; [naive_solver|]. apply eq_None_not_Some. naive_solver.
Qed.

Lemma gbm_FreeBuffer_buffers b g : buffers (gbm_FreeBuffer b g) = delete b (buffers g).
Proof. unfold gbm_FreeBuffer. by case_goal. Qed.

(** The GBM device keeps the promises of [IAllocDevice]. *)
#[export] Program Instance gbm_alloc_laws : AllocDeviceLaws GBMDevice :=
  {| allocated := gbm_allocated |}.
Next Obligation.
  intros g w h f u b st g'. cbn. unfold gbm_AllocBuffer.
  destruct (gbm_bo_create _ _ _ _ _) as [bo l'].
  destruct (Z.eqb_spec bo 0); [done|]. intros [= <- _ <-].
  destruct (new_buffer_fresh g) as [Hn Hf]. split_and!; [done| |].
  - rewrite elem_of_gbm_allocated. intros (? & E & _). congruence.
  - apply set_eq. intros x. rewrite elem_of_union, elem_of_singleton, !elem_of_gbm_allocated. simpl.
    rewrite insert_insert_eq. destruct (decide (x = new_buffer g)) as [->|].
    + rewrite lookup_insert_eq. naive_solver.
    + rewrite lookup_insert_ne by congruence. naive_solver.
Qed.
Next Obligation.
  intros g w h f u g'. cbn. unfold gbm_AllocBuffer.
  destruct (gbm_bo_create _ _ _ _ _) as [bo l'].
  destruct (Z.eqb_spec bo 0); [|done]. intros [= <-].
  destruct (new_buffer_fresh g) as [Hn Hf].
  apply set_eq. intros x. rewrite !elem_of_gbm_allocated. simpl.
  destruct (decide (x = new_buffer g)) as [->|].
  - rewrite lookup_insert_eq, Hf. naive_solver.
  - by rewrite lookup_insert_ne by congruence.
Qed.
Next Obligation.
  intros g b Hb. change (gbm_allocated (gbm_FreeBuffer b g) = gbm_allocated g ∖ {[b]}).
  apply set_eq. intros x. rewrite elem_of_difference, elem_of_singleton, !elem_of_gbm_allocated.
  rewrite gbm_FreeBuffer_buffers.
  destruct (decide (x = b)) as [->|].
  - rewrite lookup_delete_eq. naive_solver.
  - rewrite lookup_delete_ne by congruence. naive_solver.
Qed.
Next Obligation. by intros g b1 b2 _ _. Qed.

(** Buffer objects and libgbm stay in step: freeing an allocated buffer
    destroys exactly the [gbm_bo] the allocation created, and freeing an
    imported buffer leaves libgbm alone. *)
Theorem gbm_alloc_import_free (g : GBMDevice) (w h f u : Z) :
  (forall handle stride g1, gbm_AllocBuffer w h f u g = (Some (handle, stride), g1) ->
     imported_buffers_map_ g !! bo_of handle g1 <> Some true ->
     bos (gbm_lib (gbm_FreeBuffer handle g1)) = bos (gbm_lib g)) /\
  (forall bo, let '(handle, g1) := gbm_ImportBuffer bo g in
     gbm_lib (gbm_FreeBuffer handle g1) = gbm_lib g).
Proof.
  split.
  - intros handle stride g1. unfold gbm_AllocBuffer.
    destruct (gbm_bo_create _ _ _ _ _) as [bo l'] eqn:E.
    destruct (Z.eqb_spec bo 0); [done|]. intros [= <- _ <-].
    unfold gbm_FreeBuffer, bo_of. simpl. rewrite lookup_insert_eq. simpl. intros Hni.
    rewrite bool_decide_eq_false_2 by done. simpl. rewrite destroy_bos.
    destruct (create_ok _ _ _ _ _ _ _ E n) as [Hnew ->]. set_solver.
  - intros bo. unfold gbm_ImportBuffer, gbm_FreeBuffer, bo_of. simpl.
    rewrite lookup_insert_eq. simpl. by rewrite lookup_insert_eq, bool_decide_eq_true_2 by done.
Qed.
End GBMDevice.

(** ** A concrete allocator

    Live handles in a list; the next handle is above all of them. *)

Definition ListDevice : Type := list Z.

Definition list_fresh (d : ListDevice) : Z := 1 + fold_right Z.max 0 d.

#[export] Instance list_device : AllocDevice ListDevice := {
  AllocBuffer w h f u d := (Some (list_fresh d, w), list_fresh d :: d);
  FreeBuffer b d := filter (fun x => x <> b) d;
  Perform b a d := Some 16;
  GetFD b d := b;
  GetFormat b d := 0x22;
  GetSize b d := 4096;
  GetAllocBufferHandle b d := b
}.

Lemma list_fresh_above (d : ListDevice) x : x ∈ d -> x < list_fresh d.
Proof.
  unfold list_fresh. induction d as [|y d IH]; simpl; intros Hx.
  - by apply not_elem_of_nil in Hx.
  - apply elem_of_cons in Hx as [->|Hx]; [lia|]. specialize (IH Hx). lia.
Qed.

Lemma list_fresh_pos (d : ListDevice) : 0 < list_fresh d.
Proof. unfold list_fresh. induction d; simpl; lia. Qed.

#[export] Program Instance list_device_laws : AllocDeviceLaws ListDevice :=
  {| allocated := list_to_set |}.
Next Obligation.
  intros d w h f u b st d' [= <- _ <-]. pose proof (list_fresh_pos d). split_and!; [lia| |done].
  rewrite elem_of_list_to_set. intros Hin%list_fresh_above. lia.
Qed.
Next Obligation. done. Qed.
Next Obligation.
  intros d b _. apply set_eq. intros x.
  rewrite elem_of_difference, elem_of_singleton, !elem_of_list_to_set. cbn.
  rewrite list_elem_of_filter. naive_solver.
Qed.
Next Obligation. by intros d b1 b2 _ _. Qed.

(** A libgbm that hands out consecutive objects. *)
#[export] Instance list_gbm : GbmLib ListDevice := {
  gbm_bo_create w h f u l := (list_fresh l, list_fresh l :: l);
  gbm_bo_destroy b l := filter (fun x => x <> b) l;
  gbm_bo_get_stride b l := 64;
  gbm_bo_get_height b l := 48;
  gbm_bo_get_fd b l := b;
  gbm_bo_get_format b l := 7;
  gbm_bo_size b l := 4096;
  gbm_aligned_width b l := Some 64;
  gbm_aligned_height b l := Some 48;
  gbm_metadata_fd b l := None;
  to_gbm_ := [(0x22, 7)];
  from_gbm_ := [(7, 0x22)]
}.

#[export] Program Instance list_gbm_laws : GbmLibLaws ListDevice := {| bos := list_to_set |}.
Next Obligation.
  intros l w h f u bo l' [= <- <-] _. split; [|done].
  rewrite elem_of_list_to_set. intros Hin%list_fresh_above. lia.
Qed.
Next Obligation. intros l w h f u l' [= E _]. pose proof (list_fresh_pos l). lia. Qed.
Next Obligation.
  intros l b. apply set_eq. intros x.
  rewrite elem_of_difference, elem_of_singleton, !elem_of_list_to_set. cbn.
  rewrite list_elem_of_filter. naive_solver.
Qed.

#[export] Instance demo_gbm_flags : GbmFlags := {
  GBM_BO_USAGE_UBWC_ALIGNED_QTI := 0x1;
  GBM_BO_ALLOC_IOMMU_HEAP_QTI := 0x2;
  GBM_BO_ALLOC_MM_HEAP_QTI := 0x4;
  GBM_BO_USAGE_UNCACHED_QTI := 0x8;
  GBM_BO_USAGE_PROTECTED_QTI := 0x10;
  GBM_BO_USAGE_CPU_READ_QTI := 0x20;
  GBM_BO_USAGE_CPU_WRITE_QTI := 0x40;
  GBM_BO_USAGE_VIDEO_ENCODER_QTI := 0x80;
  GBM_BO_USAGE_HW_RENDERING_QTI := 0x100;
  GBM_BO_USAGE_HW_COMPOSER_QTI := 0x200;
  GBM_BO_USAGE_CAMERA_READ_QTI := 0x400;
  GBM_BO_USAGE_CAMERA_WRITE_QTI := 0x800
}.

Lemma gbm_alloc_import_free_witness :
  exists handle stride g1,
    gbm_AllocBuffer 64 48 0x22 kVideoEncoder (mkGBM ([] : ListDevice) ∅ ∅) =
      (Some (handle, stride), g1) /\
    bos (gbm_lib g1) = {[1]} /\
    bos (gbm_lib (gbm_FreeBuffer handle g1)) = bos ([] : ListDevice).
Proof.
  do 3 eexists. split; [reflexivity|]. split; [set_solver|].
  eapply (proj1 (gbm_alloc_import_free (mkGBM ([] : ListDevice) ∅ ∅) 64 48 0x22 kVideoEncoder));
    [reflexivity|done].
Defined.
