(* ===== verification/Stream.v ===== *)
(** * Camera3Stream: buffers of one camera output stream

    Models common/cameraadaptor/qmmf_camera3_stream.{h,cc}.  A stream owns the
    buffers it allocated ([mem_alloc_buffers_]: handle to "free"), lends them
    to the camera HAL and to the client, and tells the monitor whether any is
    out.  Its life cycle is the state machine of [Status].

    Every public method runs under the mutex of the stream and is one
    function on [SE], the stream with the two objects its methods call: the
    monitor and the allocator (any [AllocDevice]).  The wait of [GetBuffer]
    gives the mutex up and is a parameter: a function from the state it
    starts in to the code it returns and the state it resumes in. *)

From S2P Require Import Prelude KeyedVector Monitor Memory.

Inductive Status :=
  | STATUS_ERROR
  | STATUS_INTIALIZED
  | STATUS_CONFIG_ACTIVE
  | STATUS_RECONFIG_ACTIVE
  | STATUS_CONFIGURED
  | STATUS_PREPARE_ACTIVE.

#[export] Instance Status_eq_dec : EqDecision Status.
Proof. solve_decision. Defined.

(** ** Pixel formats and buffer layout *)

Inductive BufferFormat := kRGB | kNV12 | kNV12UBWC | kNV21 | kNV16 | kBLOB | kRAW8 | kRAW10
  | kRAW12 | kRAW16 | kNV12Encodable | kUnsupported.

Record PlaneInfo := mkPlane {
  pl_stride : Z; pl_scanline : Z; pl_width : Z; pl_height : Z; pl_size : Z; pl_offset : Z
}.

Record CameraBufferMetaData := mkMeta {
  bm_format : BufferFormat; bm_num_planes : Z; bm_planes : list PlaneInfo
}.

(** Formats qmmf_memory_interface.h defines. *)
Definition HAL_PIXEL_FORMAT_RAW8 : Z := 0x123.
Definition HAL_PIXEL_FORMAT_NV12_ENCODEABLE : Z := 0x102.
Definition HAL_PIXEL_FORMAT_NV21_ZSL : Z := 0x113.
Definition HAL_PIXEL_FORMAT_YCbCr_420_SP_VENUS : Z := 0x7FA30C04.
Definition HAL_PIXEL_FORMAT_YCbCr_420_SP_VENUS_UBWC : Z := 0x7FA30C06.

(** Formats of the platform's graphics header and the macros of
    msm_media_info.h, neither of which is in the repository. *)
Class HalPlatform := {
  HAL_PIXEL_FORMAT_BLOB : Z;
  HAL_PIXEL_FORMAT_YCbCr_420_888 : Z;
  HAL_PIXEL_FORMAT_IMPLEMENTATION_DEFINED : Z;
  HAL_PIXEL_FORMAT_YCbCr_422_888 : Z;
  HAL_PIXEL_FORMAT_YCbCr_422_SP : Z;
  HAL_PIXEL_FORMAT_RAW10 : Z;
  HAL_PIXEL_FORMAT_RAW12 : Z;
  HAL_PIXEL_FORMAT_RAW16 : Z;
  MSM_MEDIA_ALIGN : Z -> Z -> Z;
  VENUS_Y_META_SIZE_UBWC : Z -> Z -> Z;
  VENUS_UV_META_SIZE_UBWC : Z -> Z -> Z
}.

(** ** State *)

(** The arguments of the constructor ([CameraStreamParameters]). *)
Record CameraStreamParameters := mkStreamParams {
  sp_width : Z; sp_height : Z; sp_format : Z; sp_data_space : Z; sp_rotation : Z;
  sp_allocFlags : Z; sp_bufferCount : Z; sp_has_cb : bool; sp_cam_feature_flags : Z
}.

Record Camera3Stream := mkStream {
  this_ : Z;
  width : Z; height : Z; format : Z; data_space : Z; rotation : Z; usage : Z; max_buffers : Z;
  id_ : Z;
  max_size_ : Z;
  current_buffer_stride_ : Z;
  status_ : Status;
  total_buffer_count_ : Z;
  pending_buffer_count_ : Z;
  hal_buffer_cnt_ : Z;
  client_buffer_cnt_ : Z;
  old_usage_ : Z;
  client_usage_ : Z;
  old_max_buffers_ : Z;
  client_max_buffers_ : Z;
  mem_alloc_buffers_ : kv bool;
  mem_alloc_slots_ : list Z;
  hw_buffer_allocated_ : Z;
  buffers_map : gmap Z Z;
  monitor_id_ : Z;
  is_stream_active_ : bool;
  prepared_buffers_count_ : Z
}.

#[export] Instance Camera3Stream_settable : Settable Camera3Stream :=
  {| eta_expand := fun s => mkStream (this_ s) (width s) (height s) (format s) (data_space s)
       (rotation s) (usage s) (max_buffers s) (id_ s) (max_size_ s) (current_buffer_stride_ s)
       (status_ s) (total_buffer_count_ s) (pending_buffer_count_ s) (hal_buffer_cnt_ s)
       (client_buffer_cnt_ s) (old_usage_ s) (client_usage_ s) (old_max_buffers_ s)
       (client_max_buffers_ s) (mem_alloc_buffers_ s) (mem_alloc_slots_ s)
       (hw_buffer_allocated_ s) (buffers_map s) (monitor_id_ s) (is_stream_active_ s)
       (prepared_buffers_count_ s) |}.

(** [camera3_stream_buffer]: the buffer of a request or a result. *)
Inductive BufferStatus := CAMERA3_BUFFER_STATUS_OK | CAMERA3_BUFFER_STATUS_ERROR.

Record camera3_stream_buffer := mkHalBuffer {
  hb_stream : Z; hb_buffer : Z; hb_status : BufferStatus; hb_acquire_fence : Z; hb_release_fence : Z
}.

(** [StreamBuffer], the fields the adaptor fills. *)
Record StreamBuffer := mkStreamBuffer {
  sb_info : option CameraBufferMetaData; sb_timestamp : Z; sb_frame_number : Z;
  sb_stream_id : Z; sb_data_space : Z; sb_handle : Z; sb_fd : Z; sb_size : Z;
  sb_metafd : option Z
}.

Section Camera3Stream.
Context {D : Type} `{AllocDevice D} `{AllocUsage} `{HalPlatform}.

Record SE := mkSE { st : Camera3Stream; mon : Camera3Monitor; dev : D }.

#[export] Instance SE_settable : Settable SE :=
  {| eta_expand := fun s => mkSE (st s) (mon s) (dev s) |}.

(** The constructor; [device] is NULL or not. *)
Definition Camera3Stream_new (this id maxSize : Z) (p : CameraStreamParameters) (device : bool)
    : Camera3Stream :=
  mkStream this (sp_width p) (sp_height p) (sp_format p) (sp_data_space p) (sp_rotation p)
    (ToLocal (sp_allocFlags p)) (sp_bufferCount p) id (u32 maxSize) 0
    (if (HAL_PIXEL_FORMAT_BLOB =? sp_format p) && (0 =? maxSize) then STATUS_ERROR
     else if device then STATUS_INTIALIZED else STATUS_ERROR)
    0 0 0 0 0 (sp_allocFlags p) 0 (sp_bufferCount p) [] [] 0 ∅ INVALID_ID false 0.

(** ** Configuration *)

(** [BeginConfigure]; [true] when it returns the stream, [false] for NULL. *)
Definition BeginConfigure (s : SE) : bool * SE :=
  let begin (new : Status) :=
    let s1 := s <| st := (st s) <| usage := ToLocal (client_usage_ (st s)) |>
                                <| max_buffers := client_max_buffers_ (st s) |> |> in
    let s2 :=
      if monitor_id_ (st s1) =? INVALID_ID then s1
      else s1 <| mon := ReleaseMonitor (monitor_id_ (st s1)) (mon s1) |>
              <| st := (st s1) <| monitor_id_ := INVALID_ID |> |> in
    (true, s2 <| st := (st s2) <| status_ := new |> |>) in
  match status_ (st s) with
  | STATUS_ERROR | STATUS_PREPARE_ACTIVE => (false, s)
  | STATUS_CONFIG_ACTIVE | STATUS_RECONFIG_ACTIVE => (true, s)
  | STATUS_INTIALIZED => begin STATUS_CONFIG_ACTIVE
  | STATUS_CONFIGURED => begin STATUS_RECONFIG_ACTIVE
  end.

Definition IsConfigureActive (s : Camera3Stream) : bool :=
  bool_decide (status_ s = STATUS_CONFIG_ACTIVE) || bool_decide (status_ s = STATUS_RECONFIG_ACTIVE).

Definition IsPrepareActive (s : Camera3Stream) : bool := bool_decide (STATUS_PREPARE_ACTIVE = status_ s).

Definition IsStreamActive (s : Camera3Stream) : bool := is_stream_active_ s.

(** Frees every allocated buffer and forgets them: the loop shared by
    [ConfigureLocked], [CloseLocked] and [TearDown]. *)
Definition free_buffers (s : SE) : SE :=
  s <| dev := free_all (kv_keys (mem_alloc_buffers_ (st s))) (dev s) |>
    <| st := (st s) <| mem_alloc_buffers_ := [] |> |>.

Definition CloseLocked (s : SE) : Z * SE :=
  match status_ (st s) with
  | STATUS_RECONFIG_ACTIVE | STATUS_CONFIGURED =>
      if 0 <? pending_buffer_count_ (st s) then (- ENOSYS, s)
      else
        let s1 := free_buffers s in
        (0, s1 <| st := (st s1) <| status_ :=
               if decide (status_ (st s1) = STATUS_RECONFIG_ACTIVE) then STATUS_CONFIG_ACTIVE
               else STATUS_INTIALIZED |> |>)
  | _ => (- ENOTCONN, s)
  end.

(** The part of [ConfigureLocked] after its [switch]. *)
Definition configure_buffers (s : SE) : SE :=
  let s1 := s <| st := (st s)
      <| total_buffer_count_ := Z.max (client_max_buffers_ (st s)) (max_buffers (st s)) |>
      <| pending_buffer_count_ := 0 |> <| hw_buffer_allocated_ := 0 |>
      <| is_stream_active_ := false |> |> in
  let s2 := free_buffers s1 in
  s2 <| st := (st s2) <| mem_alloc_slots_ :=
    replicate (Z.to_nat (total_buffer_count_ (st s2))) 0 |> |>.

Definition ConfigureLocked (s : SE) : Z * SE :=
  match status_ (st s) with
  | STATUS_RECONFIG_ACTIVE =>
      let '(res, s1) := CloseLocked s in
      if res =? 0 then (0, configure_buffers s1) else (res, s1)
  | STATUS_CONFIG_ACTIVE => (0, configure_buffers s)
  | _ => (- ENOSYS, s)
  end.

(** The part of [EndConfigure] after the monitor is acquired: an unchanged
    configuration keeps its buffers. *)
Definition finish_configure (s : SE) : Z * SE :=
  if bool_decide (status_ (st s) = STATUS_RECONFIG_ACTIVE) &&
     (ToCommon (usage (st s)) =? old_usage_ (st s)) &&
     (old_max_buffers_ (st s) =? max_buffers (st s)) then
    (0, s <| st := (st s) <| status_ := STATUS_CONFIGURED |> |>)
  else
    let '(res, s1) := ConfigureLocked s in
    if res =? 0 then
      (0, s1 <| st := (st s1) <| status_ := STATUS_CONFIGURED |>
            <| old_usage_ := ToCommon (usage (st s1)) |>
            <| old_max_buffers_ := max_buffers (st s1) |> |>)
    else (res, s1 <| st := (st s1) <| status_ := STATUS_ERROR |> |>).

Definition EndConfigure (s : SE) : Z * SE :=
  if IsConfigureActive (st s) then
    let '(mid, m) := AcquireMonitor (mon s) in
    let s1 := s <| mon := m |> <| st := (st s) <| monitor_id_ := mid |> |> in
    if mid <? 0 then (mid, s1) else finish_configure s1
  else (- ENOSYS, s).

Definition AbortConfigure (s : SE) : Z * SE :=
  if IsConfigureActive (st s) then
    (0, s <| st := (st s) <| usage := ToLocal (old_usage_ (st s)) |>
          <| max_buffers := old_max_buffers_ (st s) |>
          <| status_ := if decide (status_ (st s) = STATUS_RECONFIG_ACTIVE)
                        then STATUS_CONFIGURED else STATUS_INTIALIZED |> |>)
  else (- ENOSYS, s).

Definition Close (s : SE) : Z * SE :=
  let '(res, s1) := CloseLocked s in
  (if res =? - ENOTCONN then 0 else res, s1).

Definition TearDown (s : SE) : Z * SE :=
  if negb (bool_decide (status_ (st s) = STATUS_CONFIGURED)) then (- ENOSYS, s)
  else if 0 <? pending_buffer_count_ (st s) then (- ENOSYS, s)
  else
    let s1 :=
      if 0 <? hw_buffer_allocated_ (st s) then
        let s1 := free_buffers s in
        s1 <| st := (st s1) <| hw_buffer_allocated_ := 0 |> |>
      else s in
    (0, s1 <| st := (st s1)
          <| mem_alloc_slots_ := replicate (Z.to_nat (total_buffer_count_ (st s1))) 0 |>
          <| is_stream_active_ := false |> |>).

(** ** Buffers *)

(** First buffer of the table that is free. *)
Fixpoint first_free (m : kv bool) : option Z :=
  match m with
  | [] => None
  | (b, free) :: m' => if free then Some b else first_free m'
  end.

(** First slot below [n] holding [h]; -1 when there is none. *)
Fixpoint slot_index (i n h : Z) (slots : list Z) : Z :=
  match slots with
  | [] => -1
  | x :: slots' =>
      if n <=? i then -1 else if x =? h then i32 i else slot_index (i + 1) n h slots'
  end.

(** The allocation branch of [GetBufferLocked]; [keep_free] is
    [NULL == streamBuffer].  [None] when the allocator fails. *)
Definition alloc_slot (keep_free : bool) (s : SE) : option (Z * Z) * SE :=
  let blob := HAL_PIXEL_FORMAT_BLOB =? format (st s) in
  let buf_width := if blob then max_size_ (st s) else width (st s) in
  let buf_height := if blob then 1 else height (st s) in
  let flags := ToCommon (usage (st s)) in
  let memusage :=
    if Z.land flags kPrivateAllocUbwc =? 0 then flags
    else Z.land flags (Z.lnot (Z.lor kHwCameraRead kHwCameraWrite)) in
  match AllocBuffer (i32 buf_width) (i32 buf_height) (format (st s)) memusage (dev s) with
  | (None, d) => (None, s <| dev := d |>)
  | (Some (h, stride), d) =>
      let idx := i32 (hw_buffer_allocated_ (st s)) in
      (Some (idx, h),
       s <| dev := d |>
         <| st := (st s) <| current_buffer_stride_ := stride |>
              <| mem_alloc_slots_ := <[Z.to_nat idx := h]> (mem_alloc_slots_ (st s)) |>
              <| mem_alloc_buffers_ := kv_add h keep_free (mem_alloc_buffers_ (st s)) |>
              <| hw_buffer_allocated_ := u32 (hw_buffer_allocated_ (st s) + 1) |> |>)
  end.

(** The index and handle [GetBufferLocked] settles on; a request first looks
    for a free buffer, a preparation ([out] false) always allocates. *)
Definition pick_buffer (out : bool) (s : SE) : Z * Z * option Z * SE :=
  let found := if out then first_free (mem_alloc_buffers_ (st s)) else None in
  match found with
  | Some h =>
      let s1 := s <| st := (st s) <| mem_alloc_buffers_ :=
                     kv_replace h false (mem_alloc_buffers_ (st s)) |> |> in
      (slot_index 0 (hw_buffer_allocated_ (st s1)) h (mem_alloc_slots_ (st s1)), h, None, s1)
  | None =>
      if hw_buffer_allocated_ (st s) <? total_buffer_count_ (st s) then
        match alloc_slot (negb out) s with
        | (Some (idx, h), s1) => (idx, h, None, s1)
        | (None, s1) => (-1, 0, Some (- ENOMEM), s1)
        end
      else (-1, 0, None, s)
  end.

Definition can_get_buffers (x : Status) : bool :=
  bool_decide (x = STATUS_CONFIGURED) || bool_decide (x = STATUS_CONFIG_ACTIVE) ||
  bool_decide (x = STATUS_RECONFIG_ACTIVE) || bool_decide (x = STATUS_PREPARE_ACTIVE).

Definition config_active (x : Status) : bool :=
  bool_decide (x = STATUS_CONFIG_ACTIVE) || bool_decide (x = STATUS_RECONFIG_ACTIVE).

(** [GetBufferLocked]; [out] tells whether [streamBuffer] is given, the
    buffer filled in is returned with code 0. *)
Definition GetBufferLocked (out : bool) (s : SE) : Z * option camera3_stream_buffer * SE :=
  if negb (can_get_buffers (status_ (st s))) then (- ENOSYS, None, s)
  else
    let '(idx, h, err, s1) := pick_buffer out s in
    match err with
    | Some e => (e, None, s1)
    | None =>
        if (h =? 0) || (idx <? 0) then (- ENOSYS, None, s1)
        else if out then
          let slot := nth (Z.to_nat idx) (mem_alloc_slots_ (st s1)) 0 in
          let native := GetAllocBufferHandle slot (dev s1) in
          let m :=
            if (pending_buffer_count_ (st s1) =? 0) && negb (config_active (status_ (st s1)))
            then ChangeStateToActive (monitor_id_ (st s1)) (mon s1) else mon s1 in
          (0, Some (mkHalBuffer (this_ (st s1)) native CAMERA3_BUFFER_STATUS_OK (-1) (-1)),
           s1 <| mon := m |>
              <| st := (st s1) <| buffers_map := <[native := slot]> (buffers_map (st s1)) |>
                   <| hal_buffer_cnt_ := u32 (hal_buffer_cnt_ (st s1) + 1) |>
                   <| pending_buffer_count_ := u32 (pending_buffer_count_ (st s1) + 1) |> |>)
        else (0, None, s1)
    end.

(** [GetBuffer]; [wait] is the timed wait for a returned buffer. *)
Definition GetBuffer (wait : SE -> Z * SE) (s : SE) : Z * option camera3_stream_buffer * SE :=
  if negb (bool_decide (status_ (st s) = STATUS_CONFIGURED)) then (- ENOSYS, None, s)
  else if pending_buffer_count_ (st s) =? total_buffer_count_ (st s) then
    let '(res, s1) := wait s in
    if res =? 0 then GetBufferLocked true s1 else (res, None, s1)
  else GetBufferLocked true s.

Definition ReturnBufferLocked (handle : Z) (s : SE) : Z * SE :=
  if bool_decide (status_ (st s) = STATUS_INTIALIZED) then (- ENOSYS, s)
  else if pending_buffer_count_ (st s) =? 0 then (- ENOSYS, s)
  else if negb (kv_mem handle (mem_alloc_buffers_ (st s))) then (- EINVAL, s)
  else
    let s1 := s <| st := (st s)
        <| mem_alloc_buffers_ := kv_replace handle true (mem_alloc_buffers_ (st s)) |>
        <| pending_buffer_count_ := u32 (pending_buffer_count_ (st s) - 1) |>
        <| client_buffer_cnt_ := u32 (client_buffer_cnt_ (st s) - 1) |> |> in
    (0, if (pending_buffer_count_ (st s1) =? 0) && negb (config_active (status_ (st s1)))
        then s1 <| mon := ChangeStateToIdle (monitor_id_ (st s1)) (mon s1) |> else s1).

(** [ReturnBuffer]; the wake-up of a waiting [GetBuffer] has no state. *)
Definition ReturnBuffer (b : StreamBuffer) (s : SE) : Z * SE := ReturnBufferLocked (sb_handle b) s.

(** Layouts of [PopulateMetaInfo]: one plane, or luma and chroma. *)
Definition one_plane (f : BufferFormat) (w h alignedW alignedH size : Z) : CameraBufferMetaData :=
  mkMeta f 1 [mkPlane alignedW alignedH w h size 0].

Definition semi_planar (f : BufferFormat) (w h alignedW alignedH : Z) : CameraBufferMetaData :=
  mkMeta f 2
    [mkPlane alignedW alignedH w h (u32 (alignedW * alignedH)) 0;
     mkPlane alignedW (Z.quot alignedH 2) w (h / 2) (u32 (alignedW * Z.quot alignedH 2))
       (u32 (alignedW * alignedH))].

Definition PopulateMetaInfo (handle : Z) (s : SE) : Z * option CameraBufferMetaData :=
  let w := width (st s) in
  let h := height (st s) in
  match Perform handle GetStride (dev s), Perform handle GetAlignedHeight (dev s) with
  | Some alignedW, Some alignedH =>
      let f := GetFormat handle (dev s) in
      let raw r := (0, Some (one_plane r w h alignedW alignedH (u32 (alignedW * alignedH)))) in
      if f =? HAL_PIXEL_FORMAT_BLOB then
        (0, Some (one_plane kBLOB w h alignedW alignedH (max_size_ (st s))))
      else if (f =? HAL_PIXEL_FORMAT_YCbCr_420_SP_VENUS) || (f =? HAL_PIXEL_FORMAT_NV12_ENCODEABLE)
           || (f =? HAL_PIXEL_FORMAT_YCbCr_420_888) || (f =? HAL_PIXEL_FORMAT_IMPLEMENTATION_DEFINED)
      then (0, Some (semi_planar kNV12 w h alignedW alignedH))
      else if f =? HAL_PIXEL_FORMAT_YCbCr_420_SP_VENUS_UBWC then
        let size0 := u32 (MSM_MEDIA_ALIGN (alignedW * alignedH) 4096 +
                          MSM_MEDIA_ALIGN (VENUS_Y_META_SIZE_UBWC w h) 4096) in
        let size1 := u32 (MSM_MEDIA_ALIGN (Z.quot (alignedW * alignedH) 2) 4096 +
                          MSM_MEDIA_ALIGN (VENUS_UV_META_SIZE_UBWC w h) 4096) in
        (0, Some (mkMeta kNV12UBWC 2
              [mkPlane alignedW alignedH w h size0 0;
               mkPlane alignedW (Z.quot alignedH 2) w (h / 2) size1 (u32 (0 + size0))]))
      else if (f =? HAL_PIXEL_FORMAT_YCbCr_422_888) || (f =? HAL_PIXEL_FORMAT_YCbCr_422_SP) then
        (0, Some (mkMeta kNV16 2
              [mkPlane alignedW alignedH w h (u32 (alignedW * alignedH)) 0;
               mkPlane alignedW alignedH w h (u32 (alignedW * alignedH)) (u32 (alignedW * alignedH))]))
      else if f =? HAL_PIXEL_FORMAT_NV21_ZSL then
        (0, Some (semi_planar kNV21 w h alignedW alignedH))
      else if f =? HAL_PIXEL_FORMAT_RAW8 then raw kRAW8
      else if f =? HAL_PIXEL_FORMAT_RAW10 then raw kRAW10
      else if f =? HAL_PIXEL_FORMAT_RAW12 then raw kRAW12
      else if f =? HAL_PIXEL_FORMAT_RAW16 then raw kRAW16
      else (- ENOENT, None)
  | _, _ => (- EINVAL, None)
  end.

(** [ReturnBufferToClient]: the buffer goes to the client callback (first
    component), or, with an error status, straight back to the pool; [None]
    when the assertion that its handle is known fails. *)
Definition ReturnBufferToClient (buffer : camera3_stream_buffer) (timestamp frame_number : Z) (s : SE)
    : option (option StreamBuffer) * SE :=
  let handle := default 0 (buffers_map (st s) !! hb_buffer buffer) in
  let s1 := s <| st := (st s)
      <| hal_buffer_cnt_ := u32 (hal_buffer_cnt_ (st s) - 1) |>
      <| client_buffer_cnt_ := u32 (client_buffer_cnt_ (st s) + 1) |>
      <| is_stream_active_ := true |> |> in
  let b := mkStreamBuffer (snd (PopulateMetaInfo handle s1)) timestamp (u32 frame_number)
             (id_ (st s1)) (data_space (st s1)) handle (GetFD handle (dev s1))
             (GetSize handle (dev s1)) (Perform handle GetMetaFd (dev s1)) in
  if handle =? 0 then (None, s)
  else
    match hb_status buffer with
    | CAMERA3_BUFFER_STATUS_OK => (Some (Some b), s1)
    | CAMERA3_BUFFER_STATUS_ERROR => (Some None, snd (ReturnBuffer b s1))
    end.

(** ** Preparation *)

Definition BeginPrepare (s : SE) : Z * SE :=
  if negb (bool_decide (STATUS_CONFIGURED = status_ (st s))) then (- ENOSYS, s)
  else if is_stream_active_ (st s) then (- ENOSYS, s)
  else if 0 <? pending_buffer_count_ (st s) then (- ENOSYS, s)
  else (- ENODATA, s <| st := (st s) <| prepared_buffers_count_ := 0 |>
                          <| status_ := STATUS_PREPARE_ACTIVE |> |>).

Definition EndPrepareLocked (s : SE) : Z * SE :=
  if negb (bool_decide (STATUS_PREPARE_ACTIVE = status_ (st s))) then (- ENOSYS, s)
  else (0, s <| st := (st s) <| prepared_buffers_count_ := 0 |>
                  <| status_ := STATUS_CONFIGURED |> |>).

Definition EndPrepare (s : SE) : Z * SE := EndPrepareLocked s.

Definition PrepareBuffer (s : SE) : Z * SE :=
  if negb (bool_decide (STATUS_PREPARE_ACTIVE = status_ (st s))) then (- ENOSYS, s)
  else
    let '(res, _, s1) := GetBufferLocked false s in
    if res =? 0 then
      let s2 := s1 <| st := (st s1)
          <| prepared_buffers_count_ := u32 (prepared_buffers_count_ (st s1) + 1) |> |> in
      if prepared_buffers_count_ (st s2) <? total_buffer_count_ (st s2) then (- ENODATA, s2)
      else EndPrepareLocked s2
    else (- ENODEV, s1).

(** The destructor. *)
Definition Camera3Stream_delete (s : SE) : SE :=
  let s1 :=
    if monitor_id_ (st s) <? 0 then s
    else s <| mon := ReleaseMonitor (monitor_id_ (st s)) (mon s) |>
           <| st := (st s) <| monitor_id_ := INVALID_ID |> |> in
  snd (CloseLocked s1).

(** ** The operations as steps

    What the other threads do to a stream is a sequence of its operations.
    [OpHal] is the camera HAL writing the fields of [camera3_stream] it owns
    during configuration; [OpResume] is a [GetBuffer] that waited and
    continues after the operations that precede it. *)

Inductive StreamOp :=
  | OpBeginConfigure
  | OpHal (usage max_buffers : Z)
  | OpEndConfigure
  | OpAbortConfigure
  | OpGetBuffer
  | OpResume
  | OpReturnToClient (b : camera3_stream_buffer) (ts frame : Z)
  | OpReturnBuffer (b : StreamBuffer)
  | OpClose
  | OpTearDown
  | OpBeginPrepare
  | OpPrepareBuffer
  | OpEndPrepare.

(** A wait that times out at once. *)
Definition timed_out (s : SE) : Z * SE := (- ETIMEDOUT, s).

Definition hal_configure (u m : Z) (s : SE) : SE :=
  s <| st := (st s) <| usage := u |> <| max_buffers := m |> |>.

Definition stream_step (s : SE) (op : StreamOp) : SE :=
  match op with
  | OpBeginConfigure => snd (BeginConfigure s)
  | OpHal u m => hal_configure u m s
  | OpEndConfigure => snd (EndConfigure s)
  | OpAbortConfigure => snd (AbortConfigure s)
  | OpGetBuffer => snd (GetBuffer timed_out s)
  | OpResume => snd (GetBufferLocked true s)
  | OpReturnToClient b ts f => snd (ReturnBufferToClient b ts f s)
  | OpReturnBuffer b => snd (ReturnBuffer b s)
  | OpClose => snd (Close s)
  | OpTearDown => snd (TearDown s)
  | OpBeginPrepare => snd (BeginPrepare s)
  | OpPrepareBuffer => snd (PrepareBuffer s)
  | OpEndPrepare => snd (EndPrepare s)
  end.

(** The HAL asks for less than 2^31 buffers, and a waiting [GetBuffer] does
    not resume in the middle of a first configuration. *)
Definition stream_op_ok (s : SE) (op : StreamOp) : Prop :=
  match op with
  | OpHal _ m => 0 <= m < INT32_HALF
  | OpResume => status_ (st s) <> STATUS_CONFIG_ACTIVE
  | _ => True
  end.

(** ** Well-formed streams *)

Definition in_use (s : Camera3Stream) : Z := kv_count negb (mem_alloc_buffers_ s).

(** States in which the slot array mirrors the table of buffers. *)
Definition holds_buffers (x : Status) : bool :=
  match x with
  | STATUS_RECONFIG_ACTIVE | STATUS_CONFIGURED | STATUS_PREPARE_ACTIVE => true
  | _ => false
  end.

Record slots_wf (s : Camera3Stream) : Prop := {
  sw_hw : 0 <= hw_buffer_allocated_ s <= total_buffer_count_ s;
  sw_len : Z.of_nat (length (mem_alloc_slots_ s)) = total_buffer_count_ s;
  sw_perm : take (Z.to_nat (hw_buffer_allocated_ s)) (mem_alloc_slots_ s) ≡ₚ
              kv_keys (mem_alloc_buffers_ s)
}.

Definition small (z : Z) : Prop := 0 <= z < INT32_HALF.

Record stream_wf (s : Camera3Stream) : Prop := {
  wf_bufs : kv_ordered (mem_alloc_buffers_ s);
  wf_nonnull : Forall (fun b => b <> 0) (kv_keys (mem_alloc_buffers_ s));
  wf_pending : 0 <= pending_buffer_count_ s <= in_use s;
  wf_pending_u32 : is_u32 (pending_buffer_count_ s);
  wf_balance : u32 (hal_buffer_cnt_ s + client_buffer_cnt_ s) = u32 (pending_buffer_count_ s);
  wf_total : small (total_buffer_count_ s);
  wf_max : small (max_buffers s);
  wf_client_max : small (client_max_buffers_ s);
  wf_old_max : small (old_max_buffers_ s);
  wf_slots : holds_buffers (status_ s) = true -> slots_wf s;
  wf_closed : status_ s = STATUS_INTIALIZED \/ status_ s = STATUS_CONFIG_ACTIVE ->
              mem_alloc_buffers_ s = []
}.
Context `{!AllocDeviceLaws D}.

Abbreviation keys s := (kv_keys (mem_alloc_buffers_ (st s))).

Record se_wf (s : SE) : Prop := {
  se_stream : stream_wf (st s);
  se_owned : forall b, b ∈ keys s -> b ∈ allocated (dev s)
}.

(** Buffers of the allocator that belong to others. *)
Definition foreign (s : SE) : gset Z := allocated (dev s) ∖ list_to_set (keys s).

(** What every operation keeps: the stream stays well formed, and it neither
    frees a buffer of another owner nor loses one of its own. *)
Definition kept (s s' : SE) : Prop := se_wf s' /\ foreign s' = foreign s.

Lemma kept_trans s1 s2 s3 : kept s1 s2 -> (se_wf s2 -> kept s2 s3) -> kept s1 s3.
Proof. intros [Ha E1] Hb. destruct (Hb Ha) as [Hc E3]. split; [done|congruence]. Qed.

Lemma kept_refl s : se_wf s -> kept s s.
Proof. by split. Qed.

(** Changes that touch neither the buffers nor their counters. *)
Lemma kept_same_buffers s s' :
  se_wf s -> dev s' = dev s ->
  mem_alloc_buffers_ (st s') = mem_alloc_buffers_ (st s) ->
  mem_alloc_slots_ (st s') = mem_alloc_slots_ (st s) ->
  hw_buffer_allocated_ (st s') = hw_buffer_allocated_ (st s) ->
  total_buffer_count_ (st s') = total_buffer_count_ (st s) ->
  pending_buffer_count_ (st s') = pending_buffer_count_ (st s) ->
  u32 (hal_buffer_cnt_ (st s') + client_buffer_cnt_ (st s')) =
    u32 (hal_buffer_cnt_ (st s) + client_buffer_cnt_ (st s)) ->
  small (max_buffers (st s')) -> small (client_max_buffers_ (st s')) ->
  small (old_max_buffers_ (st s')) ->
  (holds_buffers (status_ (st s')) = true -> holds_buffers (status_ (st s)) = true) ->
  (status_ (st s') = STATUS_INTIALIZED \/ status_ (st s') = STATUS_CONFIG_ACTIVE ->
     status_ (st s) = STATUS_INTIALIZED \/ status_ (st s) = STATUS_CONFIG_ACTIVE) ->
  kept s s'.
Proof.
  intros [Hs Ho] Ed Em Esl Eh Et Ep Eb Hm Hc Hom Hst Hcl. split.
  - split; [|by rewrite Em, Ed]. destruct Hs. constructor; rewrite ?Em, ?Ep, ?Et; auto.
    + by unfold in_use; rewrite Em.
    + by rewrite Eb.
    + intros Hh. destruct (wf_slots0 (Hst Hh)). by constructor; rewrite ?Eh, ?Et, ?Esl, ?Em.
  - unfold foreign. by rewrite Em, Ed.
Qed.

Lemma BeginConfigure_kept s : se_wf s -> kept s (snd (BeginConfigure s)).
Proof.
  intros Hwf. pose proof (se_stream _ Hwf) as [].
  unfold BeginConfigure. destruct (status_ (st s)) eqn:Es; simpl; try by apply kept_refl.
  all: case_goal; apply kept_same_buffers; simpl; rewrite ?Es; auto; by intros [?|?].
Qed.

Lemma hal_configure_kept u m s : se_wf s -> small m -> kept s (hal_configure u m s).
Proof. intros Hwf Hm. pose proof (se_stream _ Hwf) as []. by apply kept_same_buffers. Qed.

Lemma AbortConfigure_kept s : se_wf s -> kept s (snd (AbortConfigure s)).
Proof.
  intros Hwf. pose proof (se_stream _ Hwf) as [].
  unfold AbortConfigure, IsConfigureActive.
  destruct (status_ (st s)) eqn:Es; simpl; try by apply kept_refl.
  all: apply kept_same_buffers; simpl; rewrite ?Es; auto; by intros [?|?].
Qed.

Lemma BeginPrepare_kept s : se_wf s -> kept s (snd (BeginPrepare s)).
Proof.
  intros Hwf. pose proof (se_stream _ Hwf) as [].
  unfold BeginPrepare. repeat case_goal; simpl; try by apply kept_refl. bool_hyps.
  apply kept_same_buffers; simpl; auto; [by rewrite <- E|by intros [?|?]].
Qed.

Lemma EndPrepareLocked_kept s : se_wf s -> kept s (snd (EndPrepareLocked s)).
Proof.
  intros Hwf. pose proof (se_stream _ Hwf) as [].
  unfold EndPrepareLocked. case_goal; simpl; [by apply kept_refl|]. bool_hyps.
  apply kept_same_buffers; simpl; auto; [by rewrite <- E|by intros [?|?]].
Qed.

(** *** Freeing the buffers *)

Lemma kept_free s st' :
  se_wf s -> mem_alloc_buffers_ st' = [] -> pending_buffer_count_ st' = 0 ->
  u32 (hal_buffer_cnt_ st' + client_buffer_cnt_ st') = 0 ->
  small (total_buffer_count_ st') -> small (max_buffers st') ->
  small (client_max_buffers_ st') -> small (old_max_buffers_ st') ->
  (holds_buffers (status_ st') = true -> hw_buffer_allocated_ st' = 0 /\
     Z.of_nat (length (mem_alloc_slots_ st')) = total_buffer_count_ st') ->
  kept s ((free_buffers s) <| st := st' |>).
Proof.
  intros [Hs Ho] Em Ep Eb Ht Hm Hc Hom Hsl. split.
  - split; simpl; [|rewrite Em; intros b Hb; by apply not_elem_of_nil in Hb].
    constructor; rewrite ?Em, ?Ep, ?Eb; auto; try by constructor.
    + unfold in_use, kv_count. rewrite Em. simpl. lia.
    + intros Hh. destruct (Hsl Hh) as [Eh El]. destruct Ht.
      constructor; rewrite ?Eh, ?El; [lia|done|by rewrite Em].
  - unfold foreign. simpl. rewrite Em, free_all_allocated; [set_solver| |done].
    apply kv_ordered_NoDup, Hs.
Qed.

Lemma no_pending s : stream_wf s -> (0 <? pending_buffer_count_ s) = false ->
  pending_buffer_count_ s = 0 /\ u32 (hal_buffer_cnt_ s + client_buffer_cnt_ s) = 0.
Proof.
  intros [] E. bool_hyps. assert (pending_buffer_count_ s = 0) as Ep by lia.
  split; [done|]. by rewrite wf_balance0, Ep.
Qed.

Lemma free_buffers_st s st' :
  (free_buffers s) <| st := st' |> =
    mkSE st' (mon s) (free_all (keys s) (dev s)).
Proof. done. Qed.

Lemma CloseLocked_kept s : se_wf s -> kept s (snd (CloseLocked s)).
Proof.
  intros Hwf. pose proof (se_stream _ Hwf) as Hs. pose proof Hs as [].
  unfold CloseLocked.
  destruct (status_ (st s)) eqn:Es; simpl; try by apply kept_refl.
  all: destruct (0 <? pending_buffer_count_ (st s)) eqn:E; simpl; [by apply kept_refl|];
    destruct (no_pending _ Hs E) as [E1 E2]; apply kept_free; simpl; auto; case_decide; try congruence;
    by rewrite ?Es.
Qed.

Lemma Close_kept s : se_wf s -> kept s (snd (Close s)).
Proof.
  intros Hwf. unfold Close. pose proof (CloseLocked_kept s Hwf).
  by destruct (CloseLocked s).
Qed.

Lemma TearDown_kept s : se_wf s -> kept s (snd (TearDown s)).
Proof.
  intros Hwf. pose proof (se_stream _ Hwf) as Hs. pose proof Hs as [].
  unfold TearDown.
  destruct (bool_decide (status_ (st s) = STATUS_CONFIGURED)) eqn:E; simpl; [|by apply kept_refl].
  bool_hyps. destruct (0 <? pending_buffer_count_ (st s)) eqn:E'; simpl; [by apply kept_refl|].
  destruct (no_pending _ Hs E') as [E1 E2].
  assert (holds_buffers (status_ (st s)) = true) as Hh by (by rewrite E).
  specialize (wf_slots0 Hh) as [Hhw Hlen Hperm].
  assert (Z.of_nat (length (replicate (Z.to_nat (total_buffer_count_ (st s))) 0)) =
          total_buffer_count_ (st s)) as Hr by (rewrite length_replicate; lia).
  destruct (0 <? hw_buffer_allocated_ (st s)) eqn:E3; simpl.
  - apply kept_free; simpl; auto.
  - bool_hyps. assert (hw_buffer_allocated_ (st s) = 0) as Eh by lia.
    rewrite Eh in Hperm. simpl in Hperm. apply Permutation_nil_l in Hperm. symmetry in Hperm.
    split.
    + split; [|apply (se_owned _ Hwf)]. constructor; simpl; auto.
      intros _. constructor; simpl; [lia|done|]. by rewrite Eh, Hperm.
    + done.
Qed.
(** *** Configuration *)

Lemma configure_buffers_kept s :
  se_wf s -> status_ (st s) = STATUS_CONFIG_ACTIVE -> kept s (configure_buffers s).
Proof.
  intros Hwf Es. pose proof (se_stream _ Hwf) as []. unfold small in *.
  assert (mem_alloc_buffers_ (st s) = []) as Em by auto.
  assert (pending_buffer_count_ (st s) = 0) as Ep.
  { unfold in_use, kv_count in *. rewrite Em in *. simpl in *. lia. }
  rewrite Ep in wf_balance0. unfold configure_buffers. split.
  - split; simpl; [|intros b Hb; by apply not_elem_of_nil in Hb].
    constructor; simpl; rewrite ?Es; auto; try constructor; try done; unfold small; simpl; lia.
  - unfold foreign. simpl. by rewrite Em.
Qed.

Lemma ConfigureLocked_kept s :
  se_wf s ->
  kept s (snd (ConfigureLocked s)) /\
  (fst (ConfigureLocked s) = 0 -> slots_wf (st (snd (ConfigureLocked s)))).
Proof.
  assert (forall s, se_wf s -> slots_wf (st (configure_buffers s))) as Hsl.
  { clear s. intros s Hwf. pose proof (se_stream _ Hwf) as []. unfold small in *.
    constructor; simpl; rewrite ?length_replicate; try lia. done. }
  intros Hwf. unfold ConfigureLocked.
  destruct (status_ (st s)) eqn:Es; simpl; try (split; [by apply kept_refl|done]).
  - split; [by apply configure_buffers_kept|]. intros _. by apply (Hsl s).
  - pose proof (CloseLocked_kept s Hwf) as Hk. destruct (CloseLocked s) as [res s1] eqn:Ec.
    simpl in Hk. destruct (Z.eqb_spec res 0); simpl; [|done].
    split; [|intros _; apply Hsl, Hk].
    apply (kept_trans s s1); [done|]. intros Hwf1. apply configure_buffers_kept; [done|].
    unfold CloseLocked in Ec. rewrite Es in Ec. destruct (0 <? _); [|].
    + injection Ec as <- <-. done.
    + injection Ec as _ <-. simpl. by rewrite Es.
Qed.
(** A change of status of a stream whose slots are in order. *)
Lemma kept_status s st' :
  se_wf s -> small (old_max_buffers_ st') ->
  st' = (st s) <| status_ := status_ st' |> <| old_usage_ := old_usage_ st' |>
               <| old_max_buffers_ := old_max_buffers_ st' |> ->
  (holds_buffers (status_ st') = true -> slots_wf (st s)) ->
  (status_ st' <> STATUS_INTIALIZED /\ status_ st' <> STATUS_CONFIG_ACTIVE) ->
  kept s (s <| st := st' |>).
Proof.
  intros [Hs Ho] Hm Est Hsl [Hn1 Hn2]. pose proof Hs as []. rewrite Est. split; [|done].
  split; [|done]. constructor; simpl; auto.
  - intros Hh. destruct (Hsl Hh). by constructor.
  - by intros [?|?].
Qed.

Lemma finish_configure_kept s : se_wf s -> kept s (snd (finish_configure s)).
Proof.
  intros Hwf. pose proof (se_stream _ Hwf) as []. unfold finish_configure.
  destruct (_ && _) eqn:Er; simpl.
  - bool_hyps. apply (kept_status s); auto. intros _. apply wf_slots0.
    by match goal with E : status_ _ = _ |- _ => rewrite E end.
  - destruct (ConfigureLocked_kept s Hwf) as [Hk Hsl]. destruct (ConfigureLocked s) as [res s1].
    simpl in *. apply (kept_trans s s1); [done|]. intros Hwf1.
    pose proof (se_stream _ Hwf1) as [].
    destruct (Z.eqb_spec res 0); simpl; by apply (kept_status s1); auto.
Qed.

Lemma EndConfigure_kept s : se_wf s -> kept s (snd (EndConfigure s)).
Proof.
  intros Hwf. unfold EndConfigure.
  destruct (IsConfigureActive (st s)); simpl; [|by apply kept_refl].
  match goal with
  | |- context [ finish_configure ?x ] => assert (kept s x) as Hk1
  end.
  { pose proof (se_stream _ Hwf) as []. by apply kept_same_buffers. }
  destruct (_ <? 0); simpl; [done|].
  eapply kept_trans; [exact Hk1|]. apply finish_configure_kept.
Qed.
(** *** Handing out buffers *)

Lemma first_free_some h m : kv_ordered m -> first_free m = Some h -> kv_lookup h m = Some true.
Proof.
  intros Ho Hf. apply kv_in_lookup; [done|]. clear Ho.
  induction m as [|[k []] m IH]; simpl in *; [done| |].
  - injection Hf as ->. by left.
  - right. auto.
Qed.

Lemma first_free_none m : first_free m = None -> kv_count negb m = Z.of_nat (length m).
Proof.
  induction m as [|[k []] m IH]; simpl; [done|done|].
  intros Hf. rewrite kv_count_cons, IH by done. simpl. lia.
Qed.

Lemma slot_index_take h n : forall slots i, 0 <= i -> n < INT32_HALF ->
  h ∈ take (Z.to_nat (n - i)) slots ->
  exists j, slot_index i n h slots = i + Z.of_nat j /\ i + Z.of_nat j < n /\ slots !! j = Some h.
Proof.
  induction slots as [|x slots IH]; intros i Hi Hn Hin; simpl.
  - rewrite take_nil in Hin. by apply not_elem_of_nil in Hin.
  - destruct (Z.leb_spec n i).
    { replace (Z.to_nat (n - i)) with 0%nat in Hin by lia. by apply not_elem_of_nil in Hin. }
    destruct (Z.eqb_spec x h) as [->|Hne].
    { exists 0%nat. rewrite i32_small by (unfold is_i32, INT32_HALF in *; lia). simpl. split_and!; [lia|lia|done]. }
    replace (Z.to_nat (n - i)) with (S (Z.to_nat (n - (i + 1)))) in Hin by lia.
    simpl in Hin. apply elem_of_cons in Hin as [->|Hin]; [done|].
    destruct (IH (i + 1) ltac:(lia) Hn Hin) as (j & -> & Hj & Hl).
    exists (S j). split_and!; [lia|lia|done].
Qed.

Lemma keys_count s : slots_wf s -> Z.of_nat (length (mem_alloc_buffers_ s)) = hw_buffer_allocated_ s.
Proof.
  intros [Hhw Hlen Hp]. apply Permutation_length in Hp.
  unfold kv_keys in Hp. rewrite length_map, length_take in Hp. lia.
Qed.

Lemma in_use_bound s : slots_wf s -> 0 <= in_use s <= hw_buffer_allocated_ s.
Proof. intros Hs. rewrite <- (keys_count s Hs). apply kv_count_bound. Qed.

(** Fields a buffer request leaves to its last step. *)
Definition same_counts (s s' : Camera3Stream) : Prop :=
  pending_buffer_count_ s' = pending_buffer_count_ s /\ hal_buffer_cnt_ s' = hal_buffer_cnt_ s /\
  client_buffer_cnt_ s' = client_buffer_cnt_ s /\ status_ s' = status_ s /\
  total_buffer_count_ s' = total_buffer_count_ s /\ this_ s' = this_ s.

(** A slot with its buffer, marked [free]. *)
Definition slot_holds (idx h : Z) (free : bool) (s : Camera3Stream) : Prop :=
  0 <= idx < hw_buffer_allocated_ s /\ mem_alloc_slots_ s !! Z.to_nat idx = Some h /\ h <> 0 /\
  kv_lookup h (mem_alloc_buffers_ s) = Some free.

Lemma alloc_slot_spec keep_free s idx h s1 :
  se_wf s -> holds_buffers (status_ (st s)) = true ->
  hw_buffer_allocated_ (st s) < total_buffer_count_ (st s) ->
  alloc_slot keep_free s = (Some (idx, h), s1) ->
  kept s s1 /\ same_counts (st s) (st s1) /\ slot_holds idx h keep_free (st s1) /\
  hw_buffer_allocated_ (st s1) = hw_buffer_allocated_ (st s) + 1 /\
  in_use (st s1) = in_use (st s) + (if keep_free then 0 else 1) /\ (h ∉ allocated (dev s)).
Proof.
  intros [Hs Ho] Hh Hlt. unfold alloc_slot.
  destruct (AllocBuffer _ _ _ _ _) as [[[h' stride]|] d] eqn:Ea; [|done].
  intros [= <- <- <-]. destruct (alloc_ok _ _ _ _ _ _ _ _ Ea) as (Hn & Hnew & Hall).
  pose proof Hs as []. destruct (wf_slots0 Hh) as [Hhw Hlen Hperm]. unfold small in *.
  assert (kv_lookup h' (mem_alloc_buffers_ (st s)) = None) as Hl.
  { apply eq_None_not_Some. rewrite kv_lookup_keys. auto. }
  rewrite (i32_small (hw_buffer_allocated_ (st s))) by (unfold is_i32, INT32_HALF in *; lia).
  pose proof (kv_keys_add h' keep_free _ Hl) as Hka.
  assert (u32 (hw_buffer_allocated_ (st s) + 1) = hw_buffer_allocated_ (st s) + 1) as Eu.
  { apply u32_small. unfold is_u32, UINT32_MOD, INT32_HALF in *. lia. }
  assert (in_use (st s) + (if keep_free then 0 else 1) =
          kv_count negb (kv_add h' keep_free (mem_alloc_buffers_ (st s)))) as Eu2.
  { rewrite kv_count_add by done. unfold in_use. destruct keep_free; simpl; lia. }
  assert (mem_alloc_slots_ (st s) !! Z.to_nat (hw_buffer_allocated_ (st s)) <> None) as Hin.
  { intros E%lookup_ge_None. lia. }
  split_and!; [|done| |by simpl|by simpl|done].
  - split.
    + split; simpl.
      * constructor; simpl; auto with qmmf.
        -- rewrite Hka. by constructor.
        -- fold (in_use (st s)) in *. unfold in_use at 1. simpl. rewrite <- Eu2. destruct keep_free; lia.
        -- intros _. constructor; simpl; [lia|by rewrite length_insert|].
           rewrite Eu, Hka. replace (Z.to_nat (hw_buffer_allocated_ (st s) + 1)) with
             (S (Z.to_nat (hw_buffer_allocated_ (st s)))) by lia.
           rewrite (take_S_r _ _ h') by (apply list_lookup_insert_eq; lia).
           rewrite take_insert_ge by lia. rewrite Hperm. by rewrite Permutation_app_comm.
        -- intros Hc. exfalso. destruct Hc as [E|E]; by rewrite E in Hh.
      * intros x. rewrite Hka, elem_of_cons, Hall, elem_of_union, elem_of_singleton. naive_solver.
    + unfold foreign. simpl. rewrite Hall. apply set_eq. intros x.
      rewrite !elem_of_difference, !elem_of_list_to_set, Hka, elem_of_cons, elem_of_union, elem_of_singleton.
      split; [naive_solver|]. intros [Hx1 Hx2]. split; [by right|]. intros [->|?]; done.
  - unfold slot_holds. simpl. rewrite Eu. split_and!; [lia|lia| |done|].
    + apply list_lookup_insert_eq. lia.
    + by rewrite kv_lookup_add, Z.eqb_refl.
Qed.
Lemma alloc_slot_fail keep_free s s1 :
  se_wf s -> alloc_slot keep_free s = (None, s1) -> kept s s1.
Proof.
  intros Hwf. unfold alloc_slot.
  destruct (AllocBuffer _ _ _ _ _) as [[[h' stride]|] d] eqn:Ea; [done|].
  intros [= <-]. apply alloc_fail in Ea. destruct Hwf as [Hs Ho]. split.
  - split; [done|]. simpl. by rewrite Ea.
  - unfold foreign. simpl. by rewrite Ea.
Qed.

Lemma take_buffer_kept s h :
  se_wf s -> holds_buffers (status_ (st s)) = true ->
  kv_lookup h (mem_alloc_buffers_ (st s)) = Some true ->
  let s1 := s <| st := (st s) <| mem_alloc_buffers_ :=
                 kv_replace h false (mem_alloc_buffers_ (st s)) |> |> in
  kept s s1 /\ in_use (st s1) = in_use (st s) + 1 /\
  kv_lookup h (mem_alloc_buffers_ (st s1)) = Some false.
Proof.
  intros [Hs Ho] Hh Hl s1. pose proof Hs as [].
  assert (in_use (st s1) = in_use (st s) + 1) as Eu.
  { unfold in_use. simpl. rewrite (kv_count_replace negb h false true) by done. simpl. lia. }
  split_and!; [|done|].
  - split.
    + split; simpl; [|by rewrite kv_keys_replace]. constructor; simpl; auto with qmmf.
      * by rewrite kv_keys_replace.
      * change (0 <= pending_buffer_count_ (st s) <= in_use (st s1)). lia.
      * intros _. destruct (wf_slots0 Hh). constructor; simpl; auto. by rewrite kv_keys_replace.
      * intros Hc. exfalso. destruct Hc as [E|E]; by rewrite E in Hh.
    + unfold foreign. simpl. by rewrite kv_keys_replace.
  - simpl. rewrite kv_lookup_replace, Z.eqb_refl. unfold kv_mem. by rewrite Hl.
Qed.

Lemma pick_buffer_spec out s idx h err s1 :
  se_wf s -> holds_buffers (status_ (st s)) = true ->
  pick_buffer out s = (idx, h, err, s1) ->
  kept s s1 /\ same_counts (st s) (st s1) /\
  ((err = None /\ slot_holds idx h (negb out) (st s1) /\
    in_use (st s1) = in_use (st s) + (if out then 1 else 0)) \/
   h = 0 /\ st s1 = st s /\ (err <> None -> err = Some (- ENOMEM)) /\
     (err = None -> hw_buffer_allocated_ (st s) = total_buffer_count_ (st s) /\
                    (out = true -> in_use (st s) = total_buffer_count_ (st s)))).
Proof.
  intros Hwf Hh. unfold pick_buffer. pose proof (se_stream _ Hwf) as Hs. pose proof Hs as [].
  destruct (if out then _ else None) as [b|] eqn:Ef.
  - destruct out; [|done]. intros [= <- <- <- <-]. apply first_free_some in Ef; [|done].
    destruct (take_buffer_kept s b Hwf Hh Ef) as (Hk & Hu & Hl).
    split_and!; [done|done|]. left. split_and!; [done| |done].
    destruct (wf_slots0 Hh) as [Hhw Hlen Hperm]. unfold small in *. simpl in *.
    destruct (slot_index_take b (hw_buffer_allocated_ (st s)) (mem_alloc_slots_ (st s)) 0)
      as (j & -> & Hj & Hlj); [lia|lia| |].
    { rewrite Z.sub_0_r, Hperm. apply kv_lookup_keys. by eexists. }
    unfold slot_holds. simpl. split_and!; [lia|lia|by rewrite Z.add_0_l, Nat2Z.id| |done].
    rewrite Forall_forall in wf_nonnull0. apply wf_nonnull0, kv_lookup_keys. by eexists.
  - destruct (hw_buffer_allocated_ (st s) <? total_buffer_count_ (st s)) eqn:Ec; bool_hyps.
    + destruct (alloc_slot (negb out) s) as [[[i b]|] s2] eqn:Ea; intros [= <- <- <- <-].
      * destruct (alloc_slot_spec (negb out) s i b s2) as (Hk & Hc & Hsl & _ & Hu & _); [done..|].
        split_and!; [done|done|]. left. split_and!; [done|done|]. by destruct out.
      * pose proof (alloc_slot_fail (negb out) _ _ Hwf Ea) as Hk.
        unfold alloc_slot in Ea. destruct (AllocBuffer _ _ _ _ _) as [[[]|] d]; [done|].
        injection Ea as <-. split_and!; [done|done|]. by right.
    + intros [= <- <- <- <-]. split_and!; [by apply kept_refl|done|]. right. split_and!; [done|done|done|].
      intros _. destruct (wf_slots0 Hh) as [Hhw Hlen Hperm] eqn:Ew. split; [lia|].
      intros ->. unfold in_use. rewrite first_free_none, (keys_count _ (wf_slots0 Hh)) by done. lia.
Qed.

Lemma GetBufferLocked_kept out s :
  se_wf s -> status_ (st s) <> STATUS_CONFIG_ACTIVE -> kept s (snd (GetBufferLocked out s)).
Proof.
  intros Hwf Hc. unfold GetBufferLocked.
  destruct (can_get_buffers (status_ (st s))) eqn:Eg; simpl; [|by apply kept_refl].
  assert (holds_buffers (status_ (st s)) = true) as Hh by (by destruct (status_ (st s))).
  destruct (pick_buffer out s) as [[[idx h] err] s1] eqn:Ep.
  destruct (pick_buffer_spec out s idx h err s1 Hwf Hh Ep) as (Hk & (Ec1 & Ec2 & Ec3 & Ec4 & Ec5 & _) & Hd).
  destruct err; [done|]. destruct (_ || _) eqn:E; [done|]. destruct out; [|done]. simpl.
  bool_hyps. destruct Hd as [(_ & Hsl & Hu)|(-> & _)]; [|done].
  destruct (se_stream _ Hwf). pose proof Hk as [Hwf1 _]. pose proof (se_stream _ Hwf1) as [].
  rewrite <- Ec4 in Hh. pose proof (in_use_bound _ (wf_slots1 Hh)). pose proof (sw_hw _ (wf_slots1 Hh)).
  unfold small in *.
  apply (kept_trans s s1); [done|]. intros _. split; [|done]. split; [|apply (se_owned _ Hwf1)].
  constructor; simpl; auto with qmmf.
  - unfold in_use in *. simpl. rewrite u32_small; [lia|]. unfold is_u32, UINT32_MOD, INT32_HALF in *. lia.
  - rewrite u32_add_l. replace (hal_buffer_cnt_ (st s1) + 1 + client_buffer_cnt_ (st s1)) with
      (hal_buffer_cnt_ (st s1) + client_buffer_cnt_ (st s1) + 1) by lia.
    by rewrite <- u32_add_l, wf_balance1, u32_add_l, u32_idem.
  - intros _. by destruct (wf_slots1 Hh).
Qed.
Lemma GetBuffer_kept s : se_wf s -> kept s (snd (GetBuffer timed_out s)).
Proof.
  intros Hwf. unfold GetBuffer, timed_out. repeat case_goal; simpl; try by apply kept_refl.
  all: bool_hyps; apply GetBufferLocked_kept; [done|congruence].
Qed.

Lemma PrepareBuffer_kept s : se_wf s -> kept s (snd (PrepareBuffer s)).
Proof.
  intros Hwf. unfold PrepareBuffer. case_goal; simpl; [by apply kept_refl|]. bool_hyps.
  assert (kept s (snd (GetBufferLocked false s))) as Hk by (apply GetBufferLocked_kept; congruence).
  destruct (GetBufferLocked false s) as [[res o] s1]. simpl in Hk.
  destruct (res =? 0); [|done]. apply (kept_trans s s1); [done|]. intros Hwf1.
  match goal with |- context [ EndPrepareLocked ?x ] => assert (kept s1 x) as Hk2 end.
  { pose proof (se_stream _ Hwf1) as []. by apply kept_same_buffers. }
  case_goal; [done|]. eapply kept_trans; [exact Hk2|]. apply EndPrepareLocked_kept.
Qed.

(** The pool after a returned buffer. *)
Lemma return_pool_kept h s :
  se_wf s -> kv_mem h (mem_alloc_buffers_ (st s)) = true -> 0 < pending_buffer_count_ (st s) ->
  kept s (s <| st := (st s)
        <| mem_alloc_buffers_ := kv_replace h true (mem_alloc_buffers_ (st s)) |>
        <| pending_buffer_count_ := u32 (pending_buffer_count_ (st s) - 1) |>
        <| client_buffer_cnt_ := u32 (client_buffer_cnt_ (st s) - 1) |> |>).
Proof.
  intros Hwf Em Hp. unfold kv_mem in Em.
  destruct (kv_lookup h (mem_alloc_buffers_ (st s))) as [v|] eqn:El; [|done].
  destruct Hwf as [Hs Ho]. pose proof Hs as [].
  assert (kv_count negb (kv_replace h true (mem_alloc_buffers_ (st s))) =
          in_use (st s) - (if negb v then 1 else 0)) as Eu.
  { rewrite (kv_count_replace negb h true v) by done. unfold in_use. simpl. lia. }
  split; [|unfold foreign; simpl; by rewrite kv_keys_replace].
  split; simpl; [|by rewrite kv_keys_replace].
  constructor; simpl; auto with qmmf; rewrite ?kv_keys_replace; auto.
  - unfold in_use at 1. simpl. rewrite Eu. unfold is_u32 in *. rewrite u32_small by (unfold is_u32; lia).
    destruct v; simpl; lia.
  - rewrite u32_add_r. replace (hal_buffer_cnt_ (st s) + (client_buffer_cnt_ (st s) - 1)) with
      (hal_buffer_cnt_ (st s) + client_buffer_cnt_ (st s) + -1) by lia.
    by rewrite <- u32_add_l, wf_balance0, u32_add_l, u32_idem.
  - intros Hh. destruct (wf_slots0 Hh). constructor; simpl; auto. by rewrite kv_keys_replace.
  - intros Hc. by rewrite (wf_closed0 Hc).
Qed.

Lemma ReturnBufferLocked_kept h s : se_wf s -> kept s (snd (ReturnBufferLocked h s)).
Proof.
  intros Hwf. unfold ReturnBufferLocked. destruct (bool_decide _); [by apply kept_refl|].
  destruct (_ =? 0) eqn:Ep; [by apply kept_refl|].
  destruct (kv_mem _ _) eqn:Em; simpl; [|by apply kept_refl].
  assert (0 < pending_buffer_count_ (st s)) as Hp.
  { bool_hyps. destruct (wf_pending _ (se_stream _ Hwf)). lia. }
  pose proof (return_pool_kept h s Hwf Em Hp) as Hk.
  destruct (_ && _); [|done]. eapply kept_trans; [exact Hk|]. intros Hwf1.
  pose proof (se_stream _ Hwf1) as []. by apply kept_same_buffers.
Qed.

Lemma ReturnBufferToClient_kept b ts f s : se_wf s -> kept s (snd (ReturnBufferToClient b ts f s)).
Proof.
  intros Hwf. unfold ReturnBufferToClient. pose proof (se_stream _ Hwf) as [].
  match goal with |- context [ (Some None, snd (ReturnBuffer _ ?x)) ] => assert (kept s x) as Hk end.
  { apply kept_same_buffers; auto. simpl. rewrite u32_add_l, u32_add_r. f_equal. lia. }
  destruct (_ =? 0); [by apply kept_refl|]. destruct (hb_status b); simpl; [done|].
  eapply kept_trans; [exact Hk|]. apply ReturnBufferLocked_kept.
Qed.

Lemma stream_step_kept s op : se_wf s -> stream_op_ok s op -> kept s (stream_step s op).
Proof.
  intros Hwf Hok. destruct op; simpl.
  - by apply BeginConfigure_kept.
  - by apply hal_configure_kept.
  - by apply EndConfigure_kept.
  - by apply AbortConfigure_kept.
  - by apply GetBuffer_kept.
  - by apply GetBufferLocked_kept.
  - by apply ReturnBufferToClient_kept.
  - by apply ReturnBufferLocked_kept.
  - by apply Close_kept.
  - by apply TearDown_kept.
  - by apply BeginPrepare_kept.
  - by apply PrepareBuffer_kept.
  - by apply EndPrepareLocked_kept.
Qed.
Definition stream_run : SE -> list StreamOp -> SE := run stream_step.

Lemma stream_run_kept ops s :
  se_wf s -> admissible stream_step stream_op_ok s ops -> kept s (stream_run s ops).
Proof.
  intros Hwf Hadm.
  apply (run_invariant_adm stream_step stream_op_ok (fun s' => kept s s')); [|by apply kept_refl|done].
  intros s' op Hk Hok. eapply kept_trans; [exact Hk|]. intros Hwf'. by apply stream_step_kept.
Qed.

Lemma Camera3Stream_new_wf this id sz p device m d :
  small (sp_bufferCount p) -> se_wf (mkSE (Camera3Stream_new this id sz p device) m d).
Proof.
  intros Hc. split; simpl; [|intros b Hb; by apply not_elem_of_nil in Hb].
  assert (small 0) by (unfold small, INT32_HALF; lia).
  assert (is_u32 0) by (unfold is_u32, UINT32_MOD; lia).
  constructor; simpl; auto; try by constructor.
Qed.

(** Over any sequence of operations on a new stream (the camera HAL's
    writes included), the stream neither frees a buffer of another owner nor
    loses one it allocated; the buffers lent to the HAL and to the client
    add up, modulo 2^32, to the pending ones; the pending buffers are at most
    the ones marked in use, and while the stream is configured these are at
    most the buffers allocated, which are at most the configured number. *)
Theorem stream_counters_bounded this id sz p device m d ops :
  small (sp_bufferCount p) ->
  let s0 := mkSE (Camera3Stream_new this id sz p device) m d in
  admissible stream_step stream_op_ok s0 ops ->
  let s := stream_run s0 ops in
  allocated (dev s) ∖ list_to_set (keys s) = allocated d /\
  (forall b, b ∈ keys s -> b ∈ allocated (dev s)) /\
  u32 (hal_buffer_cnt_ (st s) + client_buffer_cnt_ (st s)) = pending_buffer_count_ (st s) /\
  0 <= pending_buffer_count_ (st s) <= in_use (st s) /\
  (holds_buffers (status_ (st s)) = true ->
     in_use (st s) <= Z.of_nat (length (keys s)) <= total_buffer_count_ (st s)).
Proof.
  intros Hc s0 Hadm s. assert (se_wf s0) as Hwf by by apply Camera3Stream_new_wf.
  destruct (stream_run_kept ops s0 Hwf Hadm) as [[Hs Ho] Hf]. fold s in Hs, Ho, Hf.
  pose proof Hs as []. split_and!; try lia.
  - unfold foreign in Hf. rewrite Hf. simpl. set_solver.
  - done.
  - rewrite wf_balance0. by apply u32_small.
  - intros Hh. specialize (wf_slots0 Hh). pose proof (in_use_bound _ wf_slots0).
    pose proof (keys_count _ wf_slots0). pose proof (sw_hw _ wf_slots0).
    unfold kv_keys. rewrite length_map. lia.
Qed.

(** *** What never changes *)

Definition same_identity (s s' : Camera3Stream) : Prop := id_ s' = id_ s /\ this_ s' = this_ s.

Lemma pick_buffer_identity out s : same_identity (st s) (st (snd (pick_buffer out s))).
Proof.
  unfold pick_buffer, alloc_slot. destruct (if out then _ else _); [done|].
  destruct (_ <? _); [|done]. by destruct (AllocBuffer _ _ _ _ _) as [[[]|] ?].
Qed.

Lemma GetBufferLocked_identity out s : same_identity (st s) (st (snd (GetBufferLocked out s))).
Proof.
  unfold GetBufferLocked. case_goal; [done|].
  pose proof (pick_buffer_identity out s) as Hi. destruct (pick_buffer out s) as [[[idx h] [e|]] s1]; [done|].
  by repeat case_goal.
Qed.

Lemma ReturnBufferLocked_identity h s : same_identity (st s) (st (snd (ReturnBufferLocked h s))).
Proof. unfold ReturnBufferLocked. by repeat case_goal. Qed.

Lemma CloseLocked_identity s : same_identity (st s) (st (snd (CloseLocked s))).
Proof. unfold CloseLocked. by repeat case_goal. Qed.

Lemma finish_configure_identity s : same_identity (st s) (st (snd (finish_configure s))).
Proof.
  unfold finish_configure. case_goal; [done|]. unfold ConfigureLocked.
  pose proof (CloseLocked_identity s) as Hi. destruct (CloseLocked s) as [r s1]. simpl in Hi.
  destruct (status_ (st s)); simpl; try done; by destruct (r =? 0) eqn:Er; simpl; rewrite ?Er.
Qed.

Lemma stream_step_identity s op : same_identity (st s) (st (stream_step s op)).
Proof.
  destruct op; cbn [stream_step].
  - unfold BeginConfigure. by repeat case_goal.
  - done.
  - unfold EndConfigure. destruct (IsConfigureActive _); [|done]. simpl. case_goal; [done|].
    match goal with |- context [ finish_configure ?x ] => exact (finish_configure_identity x) end.
  - unfold AbortConfigure. by case_goal.
  - unfold GetBuffer, timed_out. repeat case_goal; try done. apply GetBufferLocked_identity.
  - apply GetBufferLocked_identity.
  - unfold ReturnBufferToClient. case_goal; [done|]. case_goal; [done|].
    match goal with |- context [ ReturnBuffer ?b ?x ] => exact (ReturnBufferLocked_identity (sb_handle b) x) end.
  - apply ReturnBufferLocked_identity.
  - unfold Close. pose proof (CloseLocked_identity s). by destruct (CloseLocked s).
  - unfold TearDown. by repeat case_goal.
  - unfold BeginPrepare. by repeat case_goal.
  - unfold PrepareBuffer. case_goal; [done|]. pose proof (GetBufferLocked_identity false s).
    destruct (GetBufferLocked false s) as [[r o] s1]. unfold EndPrepareLocked. by repeat case_goal.
  - unfold EndPrepare, EndPrepareLocked. by case_goal.
Qed.

(** *** A request for a buffer *)

Lemma handle_nonzero idx h f s : slot_holds idx h f s -> ((h =? 0) || (idx <? 0)) = false.
Proof. intros (? & _ & ? & _). apply orb_false_iff. split; [by apply Z.eqb_neq|apply Z.ltb_ge; lia]. Qed.

Definition never_fails : Prop := forall w h f u (d : D), fst (AllocBuffer w h f u d) <> None.

Lemma pick_buffer_none out s idx h e s1 :
  never_fails -> pick_buffer out s = (idx, h, e, s1) -> e = None.
Proof.
  intros Hnf. unfold pick_buffer. destruct (if out then _ else _); [by intros [= _ _ <- _]|].
  destruct (_ <? _); [|by intros [= _ _ <- _]]. unfold alloc_slot.
  specialize (Hnf (i32 (if HAL_PIXEL_FORMAT_BLOB =? format (st s) then max_size_ (st s) else width (st s)))
    (i32 (if HAL_PIXEL_FORMAT_BLOB =? format (st s) then 1 else height (st s))) (format (st s))
    (if Z.land (ToCommon (usage (st s))) kPrivateAllocUbwc =? 0 then ToCommon (usage (st s))
     else Z.land (ToCommon (usage (st s))) (Z.lnot (Z.lor kHwCameraRead kHwCameraWrite))) (dev s)).
  destruct (AllocBuffer _ _ _ _ _) as [[[]|] ?]; [by intros [= _ _ <- _]|done].
Qed.

(** The buffer a request yields: its pool handle [h] was free or not yet
    allocated, and is now in use. *)
Definition gives (s : SE) (b : camera3_stream_buffer) (h : Z) (s' : SE) : Prop :=
  hb_stream b = this_ (st s) /\ hb_status b = CAMERA3_BUFFER_STATUS_OK /\
  buffers_map (st s') !! hb_buffer b = Some h /\ h <> 0 /\
  kv_lookup h (mem_alloc_buffers_ (st s')) = Some false /\
  kv_lookup h (mem_alloc_buffers_ (st s)) <> Some false /\
  pending_buffer_count_ (st s') = pending_buffer_count_ (st s) + 1 /\
  in_use (st s') = in_use (st s) + 1 /\
  mon s' = (if (pending_buffer_count_ (st s) =? 0) && negb (config_active (status_ (st s)))
            then ChangeStateToActive (monitor_id_ (st s)) (mon s) else mon s) /\
  status_ (st s') = status_ (st s) /\ monitor_id_ (st s') = monitor_id_ (st s).

Lemma pick_buffer_fresh out s idx h e s1 :
  se_wf s -> holds_buffers (status_ (st s)) = true ->
  pick_buffer out s = (idx, h, e, s1) -> h <> 0 ->
  kv_lookup h (mem_alloc_buffers_ (st s)) <> Some false /\
  mon s1 = mon s /\ monitor_id_ (st s1) = monitor_id_ (st s).
Proof.
  intros Hwf Hh. unfold pick_buffer.
  destruct (if out then _ else None) as [b|] eqn:Ef.
  - destruct out; [|done]. intros [= <- <- <- <-] Hn.
    apply first_free_some in Ef; [|apply (wf_bufs _ (se_stream _ Hwf))]. by rewrite Ef.
  - destruct (_ <? _) eqn:Ec; bool_hyps; [|by intros [= <- <- <- <-]].
    destruct (alloc_slot (negb out) s) as [[[i b]|] s2] eqn:Ea; intros [= <- <- <- <-]; [|done].
    intros _. destruct (alloc_slot_spec (negb out) s i b s2) as (_ & _ & _ & _ & _ & Hna); [done..|].
    split.
    + intros Hl. apply Hna, (se_owned _ Hwf), kv_lookup_keys. by eexists.
    + unfold alloc_slot in Ea. destruct (AllocBuffer _ _ _ _ _) as [[[]|] d]; [|done].
      by injection Ea as _ _ <-.
Qed.

Lemma pick_buffer_grows out s b :
  b ∈ keys s -> b ∈ keys (snd (pick_buffer out s)).
Proof.
  rewrite <- !kv_lookup_keys. intros [v Hv]. unfold pick_buffer, alloc_slot.
  destruct (if out then _ else _); simpl.
  - rewrite kv_lookup_replace. unfold kv_mem. rewrite Hv. by destruct (_ && _).
  - destruct (_ <? _); simpl; [|by eexists].
    destruct (AllocBuffer _ _ _ _ _) as [[[]|] ?]; simpl; [|by eexists].
    rewrite kv_lookup_add. by destruct (_ =? _).
Qed.

(** A request for a buffer yields one, or leaves the stream as it is. *)
Lemma GetBufferLocked_cases s :
  se_wf s -> holds_buffers (status_ (st s)) = true ->
  let '(r, o, s') := GetBufferLocked true s in
  kept s s' /\ (forall b, b ∈ keys s -> b ∈ keys s') /\
  ((r = 0 /\ exists b h, o = Some b /\ gives s b h s') \/
   (r <> 0 /\ o = None /\ st s' = st s /\ mon s' = mon s /\
    (r = - ENOMEM \/ in_use (st s) = total_buffer_count_ (st s)))).
Proof.
  intros Hwf Hh. pose proof (GetBufferLocked_kept true s Hwf) as Hk.
  assert (status_ (st s) <> STATUS_CONFIG_ACTIVE) as Hns by (intros E; by rewrite E in Hh).
  specialize (Hk Hns). unfold GetBufferLocked in *.
  assert (can_get_buffers (status_ (st s)) = true) as Hg by (by destruct (status_ (st s))).
  rewrite Hg in *. simpl in *. pose proof (pick_buffer_grows true s) as Hgr.
  assert (mon (snd (pick_buffer true s)) = mon s) as Hmon.
  { unfold pick_buffer, alloc_slot. destruct (first_free _); [done|]. destruct (_ <? _); [|done].
    by destruct (AllocBuffer _ _ _ _ _) as [[[]|] ?]. }
  destruct (pick_buffer true s) as [[[idx h] e] s1] eqn:Ep. simpl in Hgr, Hmon.
  destruct (pick_buffer_spec _ _ _ _ _ _ Hwf Hh Ep) as
    (Hk1 & (Ec1 & Ec2 & Ec3 & Ec4 & Ec5 & Ec6) & [(-> & Hsl & Hu)|(-> & Est & Hen & Hbad)]).
  - rewrite (handle_nonzero _ _ _ _ Hsl) in *. destruct Hsl as (Hi & Hs & Hn & Hl).
    destruct (pick_buffer_fresh _ _ _ _ _ _ Hwf Hh Ep Hn) as (Hf & Hm & Hid).
    rewrite (nth_lookup_Some _ _ 0 h Hs) in *. split; [exact Hk|]. split; [done|]. left. split; [done|].
    do 2 eexists. split; [reflexivity|].
    pose proof (wf_pending _ (se_stream _ (proj1 Hk))) as Hp. simpl in Hp.
    pose proof (se_stream _ Hwf) as []. pose proof (in_use_bound _ (wf_slots0 Hh)). unfold small in *.
    unfold gives. simpl. rewrite Ec1, Ec4, Ec6, Hm, Hid. split_and!; try done.
    + apply lookup_insert_eq.
    + pose proof (sw_hw _ (wf_slots0 Hh)). apply u32_small. unfold is_u32, UINT32_MOD, INT32_HALF in *. lia.
  - destruct e as [e|].
    + injection (Hen ltac:(done)) as ->. split; [exact Hk|]. split; [done|]. right. by split_and!; try left.
    + destruct (Hbad eq_refl) as [_ Hful]. specialize (Hful eq_refl). simpl in *. split; [exact Hk|].
      split; [done|]. right. by split_and!; try right.
Qed.

Lemma GetBufferLocked_gives s :
  never_fails -> se_wf s -> holds_buffers (status_ (st s)) = true ->
  in_use (st s) < total_buffer_count_ (st s) ->
  exists b h s', GetBufferLocked true s = (0, Some b, s') /\ gives s b h s' /\ kept s s'.
Proof.
  intros Hnf Hwf Hh Hlt. pose proof (GetBufferLocked_cases s Hwf Hh) as Hc.
  destruct (GetBufferLocked true s) as [[r o] s'] eqn:E.
  destruct Hc as (Hk & _ & [(-> & b & h & -> & Hg)|(Hr & -> & _ & _ & [->|?])]); [by exists b, h, s'| |lia].
  exfalso. unfold GetBufferLocked in E. destruct (can_get_buffers (status_ (st s))); [|done]. simpl in E.
  destruct (pick_buffer true s) as [[[idx h] e] s1] eqn:Ep.
  rewrite (pick_buffer_none _ _ _ _ _ _ Hnf Ep) in E. by destruct (_ || _).
Qed.

(** A configured stream whose allocator works answers [GetBuffer] at
    once with a buffer that was not in use, as long as fewer buffers are in
    use than configured, and tells the monitor when it is the first one out;
    when all are pending it waits and, when the wait fails, hands the code
    of the wait on without touching the pool. *)
Theorem GetBuffer_result (wait : SE -> Z * SE) (s : SE) :
  never_fails -> se_wf s -> status_ (st s) = STATUS_CONFIGURED ->
  (in_use (st s) < total_buffer_count_ (st s) ->
     exists b h s', GetBuffer wait s = (0, Some b, s') /\ gives s b h s' /\ foreign s' = foreign s) /\
  (pending_buffer_count_ (st s) = total_buffer_count_ (st s) ->
     fst (wait s) <> 0 -> GetBuffer wait s = (fst (wait s), None, snd (wait s))) /\
  (pending_buffer_count_ (st s) <> total_buffer_count_ (st s) ->
     in_use (st s) = total_buffer_count_ (st s) -> GetBuffer wait s = (- ENOSYS, None, s)).
Proof.
  intros Hnf Hwf Hst. pose proof (se_stream _ Hwf) as [].
  assert (holds_buffers (status_ (st s)) = true) as Hh by (by rewrite Hst).
  unfold GetBuffer. rewrite (bool_decide_eq_true_2 _ Hst). simpl. split_and!.
  - intros Hlt. assert ((pending_buffer_count_ (st s) =? total_buffer_count_ (st s)) = false) as ->.
    { apply Z.eqb_neq. lia. }
    destruct (GetBufferLocked_gives s Hnf Hwf Hh Hlt) as (b & h & s' & E & Hg & [_ Hf]). by exists b, h, s'.
  - intros -> Hw. rewrite Z.eqb_refl. destruct (wait s) as [r s1]. simpl in *.
    by destruct (Z.eqb_spec r 0).
  - intros Hne Hu. destruct (Z.eqb_spec (pending_buffer_count_ (st s)) (total_buffer_count_ (st s))); [done|].
    unfold GetBufferLocked. rewrite Hst. simpl. unfold pick_buffer.
    pose proof (keys_count _ (wf_slots0 Hh)) as Hkc. pose proof (in_use_bound _ (wf_slots0 Hh)) as Hb.
    pose proof (sw_hw _ (wf_slots0 Hh)).
    destruct (first_free (mem_alloc_buffers_ (st s))) as [h|] eqn:Ef.
    + exfalso. apply first_free_some in Ef; [|done].
      pose proof (kv_count_replace negb h false true _ Ef) as Hc. simpl in Hc.
      pose proof (kv_count_bound negb (kv_replace h false (mem_alloc_buffers_ (st s)))) as Hcb.
      rewrite kv_replace_length in Hcb.
      unfold in_use in Hu. lia.
    + destruct (_ <? _) eqn:E; [bool_hyps; lia|done].
Qed.
(** The way of a buffer: handed out by [GetBuffer], delivered to the
    client with the handle, the stream and the timestamp, and returned, it
    leaves the pool with as many buffers in use as before and itself free;
    the monitor is told "active" and then "idle" when it was the only one. *)
Theorem buffer_round_trip (wait : SE -> Z * SE) (ts frame : Z) (s : SE) :
  never_fails -> se_wf s -> status_ (st s) = STATUS_CONFIGURED ->
  in_use (st s) < total_buffer_count_ (st s) ->
  exists b h s1 sb s2 s3,
    GetBuffer wait s = (0, Some b, s1) /\
    ReturnBufferToClient b ts frame s1 = (Some (Some sb), s2) /\
    sb_handle sb = h /\ sb_stream_id sb = id_ (st s1) /\ sb_timestamp sb = ts /\
    sb_frame_number sb = u32 frame /\
    ReturnBuffer sb s2 = (0, s3) /\
    kv_lookup h (mem_alloc_buffers_ (st s3)) = Some true /\
    in_use (st s3) = in_use (st s) /\
    pending_buffer_count_ (st s3) = pending_buffer_count_ (st s) /\
    input_queue_ (mon s3) = input_queue_ (mon s) ++
      (if pending_buffer_count_ (st s) =? 0 then
         [{| st_id := monitor_id_ (st s); st_state := ACTIVE |};
          {| st_id := monitor_id_ (st s); st_state := IDLE |}]
       else []).
Proof.
  intros Hnf Hwf Hst Hlt. pose proof (se_stream _ Hwf) as [].
  assert (holds_buffers (status_ (st s)) = true) as Hh by (by rewrite Hst).
  destruct (GetBufferLocked_gives s Hnf Hwf Hh Hlt) as (b & h & s1 & E & Hg & _).
  destruct Hg as (_ & Hok & Hmap & Hn0 & Hl & _ & Hp & Hu & Hm & Hst1 & Hid).
  rewrite Hst in *. exists b, h, s1. unfold ReturnBufferToClient. rewrite Hok, Hmap. change (default 0 (Some h)) with h.
  rewrite (proj2 (Z.eqb_neq _ _) Hn0). do 3 eexists.
  split.
  { unfold GetBuffer. rewrite (bool_decide_eq_true_2 _ Hst). simpl.
    destruct (Z.eqb_spec (pending_buffer_count_ (st s)) (total_buffer_count_ (st s))); [lia|done]. }
  split; [reflexivity|]. do 4 (split; [reflexivity|]).
  unfold ReturnBuffer, ReturnBufferLocked. simpl. rewrite Hst1, Hp. simpl.
  assert ((pending_buffer_count_ (st s) + 1 =? 0) = false) as -> by (apply Z.eqb_neq; lia).
  unfold kv_mem at 1. rewrite Hl. simpl.
  assert (u32 (pending_buffer_count_ (st s) + 1 - 1) = pending_buffer_count_ (st s)) as Eu.
  { rewrite u32_small; [lia|]. by replace (pending_buffer_count_ (st s) + 1 - 1) with (pending_buffer_count_ (st s)) by lia. }
  rewrite Eu, andb_true_r.
  split; [reflexivity|]. pose proof (kv_lookup_replace h h true (mem_alloc_buffers_ (st s1))) as Hr.
  unfold kv_mem in Hr. rewrite Z.eqb_refl, Hl in Hr. simpl in Hr.
  pose proof (kv_count_replace negb h true false _ Hl) as Hc. simpl in Hc.
  unfold in_use in *. rewrite Hm, Hid.
  destruct (pending_buffer_count_ (st s) =? 0); simpl; split_and!; try done; try lia.
  - by rewrite <- app_assoc.
  - by rewrite app_nil_r.
Qed.

(** *** The state machine of a stream *)

Inductive life_step : Status -> StreamOp -> Status -> Prop :=
  | life_begin : life_step STATUS_INTIALIZED OpBeginConfigure STATUS_CONFIG_ACTIVE
  | life_rebegin : life_step STATUS_CONFIGURED OpBeginConfigure STATUS_RECONFIG_ACTIVE
  | life_end x : config_active x = true -> life_step x OpEndConfigure STATUS_CONFIGURED
  | life_end_error : life_step STATUS_RECONFIG_ACTIVE OpEndConfigure STATUS_ERROR
  | life_abort : life_step STATUS_CONFIG_ACTIVE OpAbortConfigure STATUS_INTIALIZED
  | life_reabort : life_step STATUS_RECONFIG_ACTIVE OpAbortConfigure STATUS_CONFIGURED
  | life_close : life_step STATUS_CONFIGURED OpClose STATUS_INTIALIZED
  | life_reclose : life_step STATUS_RECONFIG_ACTIVE OpClose STATUS_CONFIG_ACTIVE
  | life_begin_prepare : life_step STATUS_CONFIGURED OpBeginPrepare STATUS_PREPARE_ACTIVE
  | life_prepared : life_step STATUS_PREPARE_ACTIVE OpPrepareBuffer STATUS_CONFIGURED
  | life_end_prepare : life_step STATUS_PREPARE_ACTIVE OpEndPrepare STATUS_CONFIGURED.

Lemma pick_buffer_status out s :
  status_ (st (snd (pick_buffer out s))) = status_ (st s).
Proof.
  unfold pick_buffer, alloc_slot. destruct (if out then _ else _); [done|].
  destruct (_ <? _); [|done]. by destruct (AllocBuffer _ _ _ _ _) as [[[]|] ?].
Qed.

Lemma GetBufferLocked_status out s :
  status_ (st (snd (GetBufferLocked out s))) = status_ (st s).
Proof.
  unfold GetBufferLocked. case_goal; [done|].
  pose proof (pick_buffer_status out s). destruct (pick_buffer out s) as [[[idx h] [e|]] s1]; [done|].
  by repeat case_goal.
Qed.

Lemma ReturnBufferLocked_status h s :
  status_ (st (snd (ReturnBufferLocked h s))) = status_ (st s).
Proof. unfold ReturnBufferLocked. by repeat case_goal. Qed.

Lemma ReturnBufferLocked_keys h s : keys (snd (ReturnBufferLocked h s)) = keys s.
Proof. unfold ReturnBufferLocked. repeat case_goal; simpl; by rewrite ?kv_keys_replace. Qed.

Lemma CloseLocked_status s :
  (fst (CloseLocked s) <> 0 /\ snd (CloseLocked s) = s) \/
  (fst (CloseLocked s) = 0 /\
   (status_ (st s) = STATUS_RECONFIG_ACTIVE /\ status_ (st (snd (CloseLocked s))) = STATUS_CONFIG_ACTIVE \/
    status_ (st s) = STATUS_CONFIGURED /\ status_ (st (snd (CloseLocked s))) = STATUS_INTIALIZED)).
Proof.
  unfold CloseLocked. destruct (status_ (st s)) eqn:Es; simpl; try (by left).
  all: destruct (0 <? _); simpl; [by left|right]; rewrite Es; naive_solver.
Qed.

Lemma finish_configure_status s :
  config_active (status_ (st s)) = true ->
  status_ (st (snd (finish_configure s))) = STATUS_CONFIGURED \/
  status_ (st s) = STATUS_RECONFIG_ACTIVE /\ status_ (st (snd (finish_configure s))) = STATUS_ERROR.
Proof.
  intros Hc. unfold finish_configure. case_goal; [by left|].
  unfold ConfigureLocked. destruct (status_ (st s)) eqn:Es; try done; [by left|].
  destruct (CloseLocked s) as [res s1]. destruct (res =? 0) eqn:Er; simpl; [by left|].
  rewrite Er. by right.
Qed.

Lemma stream_lifecycle_aux (s : SE) (op : StreamOp) :
  status_ (st (stream_step s op)) = status_ (st s) \/
  life_step (status_ (st s)) op (status_ (st (stream_step s op))).
Proof.
  destruct op; cbn [stream_step].
  - unfold BeginConfigure. destruct (status_ (st s)) eqn:Es; simpl; try (by left);
      right; constructor.
  - by left.
  - unfold EndConfigure. destruct (IsConfigureActive (st s)) eqn:Ea; [|by left]. simpl.
    destruct (_ <? 0); [by left|]. right.
    match goal with |- context [ finish_configure ?x ] =>
      destruct (finish_configure_status x) as [E|[Er E]] end; [done|rewrite E|rewrite E; simpl in Er].
    + by constructor.
    + rewrite Er. constructor.
  - unfold AbortConfigure, IsConfigureActive. destruct (status_ (st s)) eqn:Es; simpl; rewrite ?Es; try (by left);
      right; simpl; constructor.
  - unfold GetBuffer, timed_out. repeat case_goal; try (by left). left. apply GetBufferLocked_status.
  - left. apply GetBufferLocked_status.
  - left. unfold ReturnBufferToClient. case_goal; [done|]. case_goal; [done|]. simpl. unfold ReturnBuffer.
    by rewrite ReturnBufferLocked_status.
  - left. apply ReturnBufferLocked_status.
  - unfold Close. destruct (CloseLocked_status s) as [[_ E]|[_ [[E1 E2]|[E1 E2]]]];
      destruct (CloseLocked s); simpl in *; subst; [by left|right|right]; rewrite E1, E2; constructor.
  - unfold TearDown. left. by repeat case_goal.
  - unfold BeginPrepare. repeat case_goal; try (by left). right. simpl. bool_hyps.
    match goal with E : STATUS_CONFIGURED = _ |- _ => rewrite <- E end. constructor.
  - unfold PrepareBuffer. case_goal; [by left|]. bool_hyps.
    pose proof (GetBufferLocked_status false s) as Hg. destruct (GetBufferLocked false s) as [[res o] s1].
    simpl in Hg. destruct (res =? 0); [|by left]. case_goal; [by left|].
    unfold EndPrepareLocked. case_goal; [by left|]. right. simpl.
    match goal with E : STATUS_PREPARE_ACTIVE = status_ (st s) |- _ => rewrite <- E end. constructor.
  - unfold EndPrepare, EndPrepareLocked. case_goal; [by left|]. right. bool_hyps. simpl.
    match goal with E : STATUS_PREPARE_ACTIVE = _ |- _ => rewrite <- E end. constructor.
Qed.

(** C32. Every operation moves a stream along the state machine
    [life_step] or leaves its status alone. *)
Theorem stream_lifecycle (s : SE) (op : StreamOp) :
  status_ (st (stream_step s op)) = status_ (st s) \/
  life_step (status_ (st s)) op (status_ (st (stream_step s op))).
Proof. apply stream_lifecycle_aux. Qed.
(** *** Errors *)

Lemma error_step s op :
  status_ (st s) = STATUS_ERROR ->
  status_ (st (stream_step s op)) = STATUS_ERROR /\ keys (stream_step s op) = keys s.
Proof.
  intros Es. split.
  { destruct (stream_lifecycle_aux s op) as [->|Hl]; [done|]. rewrite Es in Hl. inversion Hl; subst; done. }
  destruct op; cbn [stream_step]; unfold BeginConfigure, EndConfigure, AbortConfigure, GetBuffer,
    IsConfigureActive, Close, CloseLocked, TearDown, BeginPrepare, PrepareBuffer, EndPrepare,
    EndPrepareLocked, GetBufferLocked; rewrite ?Es; try done.
  - unfold ReturnBufferToClient. destruct (_ =? 0); [done|]. destruct (hb_status b); [done|]. simpl.
    unfold ReturnBuffer. by rewrite ReturnBufferLocked_keys.
  - unfold ReturnBuffer. by rewrite ReturnBufferLocked_keys.
Qed.

Lemma finish_configure_pending s :
  status_ (st s) = STATUS_RECONFIG_ACTIVE -> 0 < pending_buffer_count_ (st s) ->
  ToCommon (usage (st s)) <> old_usage_ (st s) \/ old_max_buffers_ (st s) <> max_buffers (st s) ->
  finish_configure s = (- ENOSYS, s <| st := (st s) <| status_ := STATUS_ERROR |> |>).
Proof.
  intros Es Hp Hch. unfold finish_configure. rewrite Es. simpl.
  assert ((ToCommon (usage (st s)) =? old_usage_ (st s)) &&
          (old_max_buffers_ (st s) =? max_buffers (st s)) = false) as ->.
  { apply andb_false_iff. destruct Hch; [left|right]; by apply Z.eqb_neq. }
  unfold ConfigureLocked, CloseLocked. rewrite Es.
  by assert ((0 <? pending_buffer_count_ (st s)) = true) as -> by (apply Z.ltb_lt; lia).
Qed.

(** A reconfiguration that changes the usage or the number of buffers
    while a buffer is pending fails with [-ENOSYS] and leaves the stream in
    its error status, where the buffers it owns are never freed again,
    neither by any sequence of operations nor by the destructor. *)
Theorem reconfigure_pending_leaks (s : SE) (ops : list StreamOp) :
  se_wf s -> status_ (st s) = STATUS_RECONFIG_ACTIVE -> 0 < pending_buffer_count_ (st s) ->
  0 <= next_monitor_ (mon s) ->
  ToCommon (usage (st s)) <> old_usage_ (st s) \/ old_max_buffers_ (st s) <> max_buffers (st s) ->
  let '(res, s1) := EndConfigure s in
  res = - ENOSYS /\ status_ (st s1) = STATUS_ERROR /\
  (admissible stream_step stream_op_ok s1 ops ->
   let s2 := stream_run s1 ops in
   keys s2 = keys s /\
   forall b, b ∈ keys s -> b ∈ allocated (dev (Camera3Stream_delete s2))).
Proof.
  intros Hwf Es Hp Hm Hch. pose proof (EndConfigure_kept s Hwf) as Hk.
  assert (fst (EndConfigure s) = - ENOSYS /\ status_ (st (snd (EndConfigure s))) = STATUS_ERROR /\
          keys (snd (EndConfigure s)) = keys s) as (E1 & E2 & E3).
  { unfold EndConfigure, IsConfigureActive. rewrite Es. simpl.
    assert ((next_monitor_ (mon s) <? 0) = false) as -> by (apply Z.ltb_ge; lia).
    by rewrite finish_configure_pending. }
  destruct (EndConfigure s) as [res s1]. simpl in *. split_and!; [done|done|].
  intros Hadm. set (s2 := stream_run s1 ops). assert (status_ (st s2) = STATUS_ERROR /\ keys s2 = keys s) as [E4 E5].
  { apply (run_invariant stream_step (fun s' => status_ (st s') = STATUS_ERROR /\ keys s' = keys s)); [|done].
    intros s' op [Ea Eb]. destruct (error_step s' op Ea) as [? ->]. done. }
  split; [done|]. intros b Hb. rewrite <- E5 in Hb.
  destruct (stream_run_kept ops s1 (proj1 Hk) Hadm) as [[_ Ho] _].
  unfold Camera3Stream_delete, CloseLocked.
  destruct (_ <? 0); simpl; rewrite E4; simpl; by apply Ho.
Qed.

Lemma return_accepted h v s :
  se_wf s -> status_ (st s) <> STATUS_INTIALIZED -> 0 < pending_buffer_count_ (st s) ->
  kv_lookup h (mem_alloc_buffers_ (st s)) = Some v ->
  exists s', ReturnBufferLocked h s = (0, s') /\ kept s s' /\
    pending_buffer_count_ (st s') = pending_buffer_count_ (st s) - 1 /\
    status_ (st s') = status_ (st s) /\
    in_use (st s') = in_use (st s) - (if v then 0 else 1) /\
    kv_lookup h (mem_alloc_buffers_ (st s')) = Some true /\
    (forall h', h <> h' ->
       kv_lookup h' (mem_alloc_buffers_ (st s')) = kv_lookup h' (mem_alloc_buffers_ (st s))).
Proof.
  intros Hwf Hst Hp Hl. pose proof (ReturnBufferLocked_kept h s Hwf) as Hk.
  pose proof (wf_pending_u32 _ (se_stream _ Hwf)) as Hu.
  unfold ReturnBufferLocked in *. rewrite (bool_decide_eq_false_2 _ Hst) in *.
  assert ((pending_buffer_count_ (st s) =? 0) = false) as E by (apply Z.eqb_neq; lia). rewrite E in *.
  unfold kv_mem in *. rewrite Hl in *. simpl in Hk |- *. eexists. split; [reflexivity|].
  split; [exact Hk|]. clear Hk.
  split_and!; [|by case_goal| | |].
  - case_goal; simpl; apply u32_small; unfold is_u32 in *; lia.
  - pose proof (kv_count_replace negb h true v _ Hl) as Hc. simpl in Hc.
    unfold in_use. case_goal; simpl; rewrite Hc; destruct v; simpl; lia.
  - case_goal; simpl; rewrite kv_lookup_replace, Z.eqb_refl; unfold kv_mem; by rewrite Hl.
  - intros h' Hne. assert ((h' =? h) = false) as En by (apply Z.eqb_neq; congruence).
    case_goal; simpl; by rewrite kv_lookup_replace, En.
Qed.

(** A buffer returned twice is counted twice: with two buffers out, two
    returns of the first make the stream close successfully and free the
    second one while its holder still uses it. *)
Theorem double_return_frees_lent_buffer (s : SE) (b1 : StreamBuffer) (h2 : Z) :
  se_wf s -> status_ (st s) = STATUS_CONFIGURED -> pending_buffer_count_ (st s) = 2 ->
  sb_handle b1 <> h2 ->
  kv_lookup (sb_handle b1) (mem_alloc_buffers_ (st s)) = Some false ->
  kv_lookup h2 (mem_alloc_buffers_ (st s)) = Some false ->
  let '(r1, s1) := ReturnBuffer b1 s in
  let '(r2, s2) := ReturnBuffer b1 s1 in
  r1 = 0 /\ r2 = 0 /\ kv_lookup h2 (mem_alloc_buffers_ (st s2)) = Some false /\
  fst (Close s2) = 0 /\ (h2 ∈ allocated (dev s2)) /\ (h2 ∉ allocated (dev (snd (Close s2)))).
Proof.
  intros Hwf Es Hp Hne Hl1 Hl2. unfold ReturnBuffer.
  destruct (return_accepted (sb_handle b1) false s Hwf) as (s1 & -> & Hk1 & Ep1 & Es1 & _ & Hl & Ho1);
    [congruence|lia|done|].
  destruct (return_accepted (sb_handle b1) true s1 (proj1 Hk1)) as (s2 & -> & Hk2 & Ep2 & Es2 & _ & _ & Ho2);
    [congruence|lia|done|].
  rewrite <- (Ho1 h2), <- (Ho2 h2) in Hl2 by done.
  pose proof (proj1 Hk2) as [Hs2 Hal2].
  assert (h2 ∈ keys s2) as Hin by (apply kv_lookup_keys; by eexists).
  assert (fst (Close s2) = 0 /\ dev (snd (Close s2)) = free_all (keys s2) (dev s2)) as [Ec Ed].
  { unfold Close, CloseLocked. rewrite Es2, Es1, Es, Ep2, Ep1, Hp. done. }
  split_and!; try done; [by apply Hal2|].
  rewrite Ed, free_all_allocated; [|by apply kv_ordered_NoDup, Hs2|done]. set_solver.
Qed.

(** Aborting the reconfiguration of a configured stream gives it back
    its buffers and its status but not its monitor, which [BeginConfigure]
    released: the buffers it hands out afterwards never make the composite
    state active. *)
Theorem abort_reconfigure_unmonitored (s : SE) :
  se_wf s -> status_ (st s) = STATUS_CONFIGURED ->
  let s1 := snd (AbortConfigure (snd (BeginConfigure s))) in
  status_ (st s1) = STATUS_CONFIGURED /\ monitor_id_ (st s1) = INVALID_ID /\
  keys s1 = keys s /\ max_buffers (st s1) = old_max_buffers_ (st s) /\
  (monitor_id_ (st s) <> INVALID_ID -> kv_ordered (monitor_states_ (mon s)) ->
   kv_lookup (monitor_id_ (st s)) (monitor_states_ (mon s1)) = None).
Proof.
  intros _ Es. unfold BeginConfigure. rewrite Es. simpl.
  destruct (Z.eqb_spec (monitor_id_ (st s)) INVALID_ID) as [Ei|Ei]; simpl;
    unfold AbortConfigure, IsConfigureActive; simpl; split_and!; try done.
  intros _ Ho. unfold ReleaseMonitor. destruct (kv_mem _ _) eqn:Em; simpl.
  - by rewrite kv_lookup_remove, Z.eqb_refl.
  - unfold kv_mem in Em. by destruct (kv_lookup _ _).
Qed.
(** *** Layout of a buffer *)

(** The planes follow each other from [off] on, without gap or overlap. *)
Fixpoint contiguous (off : Z) (ps : list PlaneInfo) : Prop :=
  match ps with
  | [] => True
  | p :: ps' => pl_offset p = off /\ contiguous (off + pl_size p) ps'
  end.

Definition planes_size (ps : list PlaneInfo) : Z := fold_right (fun p n => pl_size p + n) 0 ps.

Definition computed_layout (f : BufferFormat) : bool :=
  match f with kBLOB | kNV12UBWC => false | _ => true end.

Lemma semi_planar_layout f w h W H' :
  0 <= W -> 0 <= H' -> 2 * (W * H') < UINT32_MOD ->
  let m := semi_planar f w h W H' in
  contiguous 0 (bm_planes m) /\ Forall (fun p => pl_size p = pl_stride p * pl_scanline p) (bm_planes m) /\
  planes_size (bm_planes m) <= 2 * (W * H').
Proof.
  intros HW HH Hlt. assert (0 <= Z.quot H' 2 <= H').
  { split; [apply Z.quot_pos; lia|]. apply Z.quot_le_upper_bound; lia. }
  assert (u32 (W * H') = W * H') as E1 by (apply u32_small; unfold is_u32; nia).
  assert (u32 (W * Z.quot H' 2) = W * Z.quot H' 2) as E2 by (apply u32_small; unfold is_u32; nia).
  simpl. rewrite E1, E2. unfold planes_size. simpl. split_and!; try done; [|nia].
  by repeat constructor.
Qed.

(** [PopulateMetaInfo] succeeds exactly on the formats it knows when
    the allocator reports stride and height; the planes it describes are
    contiguous from offset 0, as many as announced, and, for the formats
    whose layout it computes itself, each has room for its rows of pixels
    and all of them together for at most two bytes per pixel. *)
Theorem PopulateMetaInfo_layout (handle : Z) (s : SE) :
  match Perform handle GetStride (dev s), Perform handle GetAlignedHeight (dev s) with
  | Some W, Some H' =>
      0 <= W -> 0 <= H' -> 2 * (W * H') < UINT32_MOD ->
      match PopulateMetaInfo handle s with
      | (res, Some m) =>
          res = 0 /\ bm_num_planes m = Z.of_nat (length (bm_planes m)) /\
          contiguous 0 (bm_planes m) /\
          (computed_layout (bm_format m) = true ->
             Forall (fun p => pl_size p = pl_stride p * pl_scanline p) (bm_planes m) /\
             planes_size (bm_planes m) <= 2 * (W * H'))
      | (res, None) => res = - ENOENT
      end
  | _, _ => PopulateMetaInfo handle s = (- EINVAL, None)
  end.
Proof.
  unfold PopulateMetaInfo.
  destruct (Perform handle GetStride (dev s)) as [W|]; [|done].
  destruct (Perform handle GetAlignedHeight (dev s)) as [H'|]; [|done].
  intros HW HH Hlt. pose proof (fun f => semi_planar_layout f (width (st s)) (height (st s)) W H' HW HH Hlt) as Hsp.
  assert (u32 (W * H') = W * H') as E1 by (apply u32_small; unfold is_u32; nia).
  repeat match goal with
    | |- context [ if ?b then (0, _) else _ ] => destruct b
    end; try done; cbn -[semi_planar u32 Z.mul contiguous]; split_and!; try done.
  all: try by destruct (Hsp kNV12). all: try by destruct (Hsp kNV21).
  all: try (intros _; by destruct (Hsp kNV12) as (? & ? & ?)).
  all: try (intros _; by destruct (Hsp kNV21) as (? & ? & ?)).
  all: try (simpl; rewrite ?Z.add_0_l, ?u32_idem; done).
  all: intros _; rewrite ?E1; unfold planes_size; simpl; rewrite ?E1; split; [by repeat constructor|lia].
Qed.

(** *** Preparation *)

Fixpoint prepare_all (n : nat) (s : SE) : list Z * SE :=
  match n with
  | O => ([], s)
  | S n' =>
      let '(r, s1) := PrepareBuffer s in
      let '(rs, s2) := prepare_all n' s1 in (r :: rs, s2)
  end.

Definition preparing (k : Z) (s0 s : SE) : Prop :=
  se_wf s /\ hw_buffer_allocated_ (st s) = k /\ in_use (st s) = in_use (st s0) /\
  total_buffer_count_ (st s) = total_buffer_count_ (st s0).

Lemma PrepareBuffer_step s :
  never_fails -> se_wf s -> status_ (st s) = STATUS_PREPARE_ACTIVE ->
  hw_buffer_allocated_ (st s) < total_buffer_count_ (st s) ->
  prepared_buffers_count_ (st s) = hw_buffer_allocated_ (st s) ->
  exists s1, preparing (hw_buffer_allocated_ (st s) + 1) s s1 /\
    if hw_buffer_allocated_ (st s) + 1 <? total_buffer_count_ (st s) then
      PrepareBuffer s = (- ENODATA, s1) /\ status_ (st s1) = STATUS_PREPARE_ACTIVE /\
      prepared_buffers_count_ (st s1) = hw_buffer_allocated_ (st s) + 1
    else PrepareBuffer s = (0, s1) /\ status_ (st s1) = STATUS_CONFIGURED.
Proof.
  intros Hnf Hwf Hst Hlt Hp. pose proof (PrepareBuffer_kept s Hwf) as [Hk _].
  assert (holds_buffers (status_ (st s)) = true) as Hh by (by rewrite Hst).
  pose proof (se_stream _ Hwf) as []. destruct (wf_slots0 Hh) as [Hhw _ _]. unfold small in *.
  assert (u32 (hw_buffer_allocated_ (st s) + 1) = hw_buffer_allocated_ (st s) + 1) as Eu.
  { apply u32_small. unfold is_u32, UINT32_MOD, INT32_HALF in *. lia. }
  unfold PrepareBuffer in *. rewrite Hst in Hk |- *. simpl in Hk |- *.
  unfold GetBufferLocked in *. rewrite Hst in Hk |- *. simpl in Hk |- *.
  destruct (pick_buffer false s) as [[[idx h] e] s1] eqn:Ep.
  pose proof (pick_buffer_none _ _ _ _ _ _ Hnf Ep) as ->. unfold pick_buffer in Ep. simpl in Ep.
  assert ((hw_buffer_allocated_ (st s) <? total_buffer_count_ (st s)) = true) as E by (apply Z.ltb_lt; lia).
  rewrite E in Ep. destruct (alloc_slot true s) as [[[i b]|] s2] eqn:Ea; [|done].
  injection Ep as -> -> ->.
  destruct (alloc_slot_spec true s idx h s1 Hwf Hh Hlt Ea) as (Hk1 & (_ & _ & _ & Ec4 & Ec5 & _) & Hsl & Hhw1 & Hu & _).
  assert (prepared_buffers_count_ (st s1) = prepared_buffers_count_ (st s)) as Epc.
  { unfold alloc_slot in Ea. destruct (AllocBuffer _ _ _ _ _) as [[[]|] d]; [|done]. by injection Ea as _ _ <-. }
  rewrite (handle_nonzero _ _ _ _ Hsl) in Hk |- *. simpl in Hk |- *. rewrite Epc, Hp, Eu, Ec5 in Hk |- *.
  unfold EndPrepareLocked in Hk |- *. simpl in Hk |- *. rewrite Ec4, Hst in Hk |- *. simpl in Hk |- *.
  destruct (_ <? _); eexists; (split; [|split; [reflexivity|]]); try done; unfold preparing; simpl in *;
    (split; [exact Hk|]); unfold in_use in *; simpl; rewrite Hu; split_and!; (done || lia).
Qed.

Lemma prepare_all_completes (n : nat) : forall s,
  never_fails -> se_wf s -> status_ (st s) = STATUS_PREPARE_ACTIVE ->
  prepared_buffers_count_ (st s) = hw_buffer_allocated_ (st s) ->
  total_buffer_count_ (st s) = hw_buffer_allocated_ (st s) + 1 + Z.of_nat n ->
  exists s', prepare_all (S n) s = (replicate n (- ENODATA) ++ [0], s') /\
    status_ (st s') = STATUS_CONFIGURED /\ preparing (total_buffer_count_ (st s)) s s'.
Proof.
  induction n as [|n IH]; intros s Hnf Hwf Hst Hp Ht.
  - destruct (PrepareBuffer_step s Hnf Hwf Hst ltac:(lia) Hp) as (s1 & Hpr & Hs).
    assert ((hw_buffer_allocated_ (st s) + 1 <? total_buffer_count_ (st s)) = false) as E by (apply Z.ltb_ge; lia).
    rewrite E in Hs. destruct Hs as [Es1 Hst1]. exists s1. simpl. rewrite Es1.
    split_and!; [done|done|]. by replace (total_buffer_count_ (st s)) with (hw_buffer_allocated_ (st s) + 1) by lia.
  - destruct (PrepareBuffer_step s Hnf Hwf Hst ltac:(lia) Hp) as (s1 & (Hwf1 & Eh1 & Eu1 & Et1) & Hs).
    assert ((hw_buffer_allocated_ (st s) + 1 <? total_buffer_count_ (st s)) = true) as E by (apply Z.ltb_lt; lia).
    rewrite E in Hs. destruct Hs as (Es1 & Hst1 & Hp1).
    destruct (IH s1 Hnf Hwf1 Hst1 ltac:(lia) ltac:(lia)) as (s' & Es' & Hst' & Hwf' & Eh' & Eu' & Et').
    exists s'. cbn [prepare_all] in Es' |- *. rewrite Es1, Es'. split_and!; [done|done|].
    unfold preparing. rewrite Eh', Eu', Et'. split_and!; congruence || done.
Qed.

(** Preparing an idle, freshly configured stream allocates all its
    buffers: one [PrepareBuffer] per buffer, each but the last answered with
    [-ENODATA] and the last with 0, after which the stream is configured,
    owns as many buffers as configured, and has none in use. *)
Theorem prepare_allocates_all (s : SE) :
  never_fails -> se_wf s -> status_ (st s) = STATUS_CONFIGURED ->
  is_stream_active_ (st s) = false -> keys s = [] -> 0 < total_buffer_count_ (st s) ->
  let '(r, s1) := BeginPrepare s in
  r = - ENODATA /\
  exists s', prepare_all (Z.to_nat (total_buffer_count_ (st s))) s1 =
      (replicate (Z.to_nat (total_buffer_count_ (st s) - 1)) (- ENODATA) ++ [0], s') /\
    status_ (st s') = STATUS_CONFIGURED /\ in_use (st s') = 0 /\
    Z.of_nat (length (keys s')) = total_buffer_count_ (st s) /\
    total_buffer_count_ (st s') = total_buffer_count_ (st s).
Proof.
  intros Hnf Hwf Hst Ha Hkeys Ht. pose proof (BeginPrepare_kept s Hwf) as [Hk _].
  assert (holds_buffers (status_ (st s)) = true) as Hh by (by rewrite Hst).
  pose proof (se_stream _ Hwf) as []. pose proof (keys_count _ (wf_slots0 Hh)) as Hc.
  pose proof (in_use_bound _ (wf_slots0 Hh)).
  rewrite <- (length_map fst) in Hc. unfold kv_keys in Hkeys. rewrite Hkeys in Hc. simpl in Hc.
  assert ((0 <? pending_buffer_count_ (st s)) = false) as Ep by (apply Z.ltb_ge; lia).
  unfold BeginPrepare in *. rewrite Hst, Ha, Ep in Hk |- *. simpl in Hk |- *. split; [done|].
  match type of Hk with se_wf ?x => destruct (prepare_all_completes (Z.to_nat (total_buffer_count_ (st s) - 1)) x)
    as (s' & Es' & Hst' & Hwf' & Eh' & Eu' & Et'); [done|done|done|simpl; lia|simpl; lia|] end.
  replace (Z.to_nat (total_buffer_count_ (st s))) with (S (Z.to_nat (total_buffer_count_ (st s) - 1))) by lia.
  exists s'. split; [exact Es'|]. simpl in *.
  assert (holds_buffers (status_ (st s')) = true) as Hh' by (by rewrite Hst').
  pose proof (keys_count _ (wf_slots _ (se_stream _ Hwf') Hh')) as Hc'.
  unfold kv_keys. rewrite length_map. split_and!; try done; [|lia].
  unfold in_use in *. simpl in *. lia.
Qed.
End Camera3Stream.

Arguments SE : clear implicits.
Arguments mkSE {D}.

(** ** A stream on the concrete allocator *)

#[export] Instance demo_platform : HalPlatform := {
  HAL_PIXEL_FORMAT_BLOB := 0x21;
  HAL_PIXEL_FORMAT_YCbCr_420_888 := 0x23;
  HAL_PIXEL_FORMAT_IMPLEMENTATION_DEFINED := 0x22;
  HAL_PIXEL_FORMAT_YCbCr_422_888 := 0x27;
  HAL_PIXEL_FORMAT_YCbCr_422_SP := 0x10;
  HAL_PIXEL_FORMAT_RAW10 := 0x25;
  HAL_PIXEL_FORMAT_RAW12 := 0x26;
  HAL_PIXEL_FORMAT_RAW16 := 0x20;
  MSM_MEDIA_ALIGN x a := (x + a - 1) / a * a;
  VENUS_Y_META_SIZE_UBWC w h := w * h / 256;
  VENUS_UV_META_SIZE_UBWC w h := w * h / 512
}.

Definition demo_params : CameraStreamParameters :=
  mkStreamParams 64 48 0x22 0 0 kVideoEncoder 3 true 0.

Definition demo_new : SE ListDevice :=
  mkSE (Camera3Stream_new 0x1000 5 0 demo_params true) Camera3Monitor_init [].

Lemma demo_wf ops : admissible stream_step stream_op_ok demo_new ops -> se_wf (stream_run demo_new ops).
Proof.
  intros Hadm. apply (stream_run_kept ops demo_new); [|done].
  apply Camera3Stream_new_wf. vm_compute. split; congruence.
Qed.

Definition demo_configured : SE ListDevice := stream_run demo_new [OpBeginConfigure; OpEndConfigure].
Definition demo_two_out : SE ListDevice :=
  stream_run demo_new [OpBeginConfigure; OpEndConfigure; OpGetBuffer; OpGetBuffer].
Definition demo_reconfiguring : SE ListDevice :=
  stream_run demo_new [OpBeginConfigure; OpEndConfigure; OpGetBuffer; OpBeginConfigure; OpHal 0x80 4].

Lemma demo_configured_wf : se_wf demo_configured.
Proof. by apply demo_wf. Qed.

Lemma demo_two_out_wf : se_wf demo_two_out.
Proof. by apply demo_wf. Qed.

Lemma demo_reconfiguring_wf : se_wf demo_reconfiguring.
Proof. apply demo_wf. vm_compute. split_and!; congruence || done. Qed.

Lemma list_device_never_fails : never_fails (D := ListDevice).
Proof. done. Qed.

Definition demo_returned (h : Z) : StreamBuffer := mkStreamBuffer None 0 0 5 0 h h 4096 None.

Lemma stream_counters_bounded_witness :
  in_use (st demo_two_out) = 2 /\ pending_buffer_count_ (st demo_two_out) <= in_use (st demo_two_out).
Proof.
  split; [reflexivity|].
  assert (small (sp_bufferCount demo_params)) as Hc by (vm_compute; split; congruence).
  assert (admissible stream_step stream_op_ok demo_new
            [OpBeginConfigure; OpEndConfigure; OpGetBuffer; OpGetBuffer]) as Hadm by done.
  pose proof (stream_counters_bounded 0x1000 5 0 demo_params true Camera3Monitor_init ([] : ListDevice)
    [OpBeginConfigure; OpEndConfigure; OpGetBuffer; OpGetBuffer] Hc Hadm) as Hr.
  exact (proj2 (proj1 (proj2 (proj2 (proj2 Hr))))).
Defined.

Lemma GetBuffer_result_witness :
  exists b h s', GetBuffer timed_out demo_two_out = (0, Some b, s') /\ gives demo_two_out b h s'.
Proof.
  destruct (proj1 (GetBuffer_result timed_out demo_two_out list_device_never_fails demo_two_out_wf eq_refl)
    ltac:(reflexivity)) as (b & h & s' & E & Hg & _). by exists b, h, s'.
Defined.

Lemma buffer_round_trip_witness :
  exists b s1, GetBuffer timed_out demo_configured = (0, Some b, s1).
Proof.
  destruct (buffer_round_trip timed_out 1000 7 demo_configured list_device_never_fails demo_configured_wf
    eq_refl ltac:(reflexivity)) as (b & h & s1 & sb & s2 & s3 & E & _). by exists b, s1.
Defined.

Lemma reconfigure_pending_leaks_witness :
  fst (EndConfigure demo_reconfiguring) = - ENOSYS.
Proof.
  assert (ToCommon (usage (st demo_reconfiguring)) <> old_usage_ (st demo_reconfiguring) \/
          old_max_buffers_ (st demo_reconfiguring) <> max_buffers (st demo_reconfiguring)) as Hch
    by (right; vm_compute; congruence).
  assert (0 < pending_buffer_count_ (st demo_reconfiguring)) as Hp by reflexivity.
  assert (0 <= next_monitor_ (mon demo_reconfiguring)) as Hm by (vm_compute; congruence).
  pose proof (reconfigure_pending_leaks demo_reconfiguring [] demo_reconfiguring_wf eq_refl Hp Hm Hch) as Hr.
  destruct (EndConfigure demo_reconfiguring) as [res s1]. exact (proj1 Hr).
Defined.

Lemma double_return_frees_lent_buffer_witness :
  fst (Close (snd (ReturnBuffer (demo_returned 1) (snd (ReturnBuffer (demo_returned 1) demo_two_out))))) = 0.
Proof.
  pose proof (double_return_frees_lent_buffer demo_two_out (demo_returned 1) 2 demo_two_out_wf
    eq_refl eq_refl ltac:(done) eq_refl eq_refl) as Hr.
  destruct (ReturnBuffer (demo_returned 1) demo_two_out) as [r1 s1]. cbn [snd].
  destruct (ReturnBuffer (demo_returned 1) s1) as [r2 s2]. tauto.
Defined.

Lemma abort_reconfigure_unmonitored_witness :
  monitor_id_ (st (snd (AbortConfigure (snd (BeginConfigure demo_configured))))) = INVALID_ID.
Proof. exact (proj1 (proj2 (abort_reconfigure_unmonitored demo_configured demo_configured_wf eq_refl))). Defined.

Lemma PopulateMetaInfo_layout_witness :
  bm_num_planes (default (mkMeta kRGB 0 []) (snd (PopulateMetaInfo 1 demo_two_out))) = 2.
Proof.
  pose proof (PopulateMetaInfo_layout 1 demo_two_out ltac:(lia) ltac:(lia) ltac:(reflexivity)) as Hr.
  exact (proj1 (proj2 Hr)).
Defined.

Lemma prepare_allocates_all_witness :
  fst (prepare_all 3 (snd (BeginPrepare demo_configured))) = [- ENODATA; - ENODATA; 0].
Proof.
  pose proof (prepare_allocates_all demo_configured list_device_never_fails demo_configured_wf
    eq_refl eq_refl eq_refl ltac:(reflexivity)) as Hr.
  destruct (BeginPrepare demo_configured) as [r s1]. destruct Hr as (_ & s' & E & _).
  cbn [snd]. change (prepare_all 3 s1 = (replicate 2 (- ENODATA) ++ [0], s')) in E. by rewrite E.
Defined.
