(* ===== verification/StreamLedger.v ===== *)
(** * The buffers of a stream, one by one

    [Stream] bounds the counters of a [Camera3Stream] over any sequence of its
    operations.  Here the HAL and the client return only what they have been
    lent, once: then the stream's table of buffers in use and its counters are
    exactly the buffers that are out.  (What a buffer returned twice does is
    [double_return_frees_lent_buffer] of [Stream].) *)

From S2P Require Import Prelude KeyedVector Monitor Memory Stream.

Section StreamLedger.
Context {D : Type} `{AllocDevice D} `{AllocUsage} `{HalPlatform} `{!AllocDeviceLaws D}.

Abbreviation Stream := (SE D).
Abbreviation table s := (mem_alloc_buffers_ (st s)).

(** The stream with the handles of the buffers that are out, with the HAL or
    the client. *)
Definition Ledger : Type := Stream * list Z.

Definition handle_of (b : camera3_stream_buffer) (s : Stream) : Z := default 0 (buffers_map (st s) !! hb_buffer b).

Fixpoint settle (h : Z) (l : list Z) : list Z :=
  match l with [] => [] | x :: l => if x =? h then l else x :: settle h l end.

Definition lend (r : Z * option camera3_stream_buffer * Stream) (l : list Z) : list Z :=
  match r with (_, Some b, s') => l ++ [handle_of b s'] | _ => l end.

(** What is out after an operation. *)
Definition lent_after (op : StreamOp) (s : Stream) (l : list Z) : list Z :=
  match op with
  | OpGetBuffer => lend (GetBuffer timed_out s) l
  | OpResume => lend (GetBufferLocked true s) l
  | OpReturnToClient b _ _ =>
      match hb_status b with CAMERA3_BUFFER_STATUS_OK => l | CAMERA3_BUFFER_STATUS_ERROR => settle (handle_of b s) l end
  | OpReturnBuffer b => settle (sb_handle b) l
  | _ => l
  end.

Definition ledger_step (x : Ledger) (op : StreamOp) : Ledger := (stream_step (fst x) op, lent_after op (fst x) (snd x)).

(** Only what is out is returned. *)
Definition ledger_ok (x : Ledger) (op : StreamOp) : Prop :=
  stream_op_ok (fst x) op /\
  match op with
  | OpReturnToClient b _ _ => handle_of b (fst x) ∈ snd x
  | OpReturnBuffer b => sb_handle b ∈ snd x
  | _ => True
  end.

Definition ledger_run : Ledger -> list StreamOp -> Ledger := run ledger_step.

(** ** The invariant *)

Definition in_table (s : Stream) (l : list Z) : Prop := forall h, h ∈ l <-> kv_lookup h (table s) = Some false.

Record balanced (s : Stream) (l : list Z) : Prop := {
  bl_wf : se_wf s;
  bl_nodup : NoDup l;
  bl_table : in_table s l;
  bl_pending : pending_buffer_count_ (st s) = Z.of_nat (length l)
}.

Lemma balanced_same s s' l : balanced s l -> se_wf s' -> table s' = table s ->
  pending_buffer_count_ (st s') = pending_buffer_count_ (st s) -> balanced s' l.
Proof. intros [B1 B2 B3 B4] Hwf Ht Hp. split; try done; [by unfold in_table; rewrite Ht|congruence]. Qed.

(** Without a pending buffer nothing is out. *)
Lemma balanced_none s l : balanced s l -> (0 <? pending_buffer_count_ (st s)) = false -> l = [].
Proof. intros [_ _ _ Hp] Hz. apply Z.ltb_ge in Hz. destruct l; [done|]. simpl in Hp. lia. Qed.

Lemma balanced_empty s : se_wf s -> table s = [] -> pending_buffer_count_ (st s) = 0 -> balanced s [].
Proof.
  intros Hwf Ht Hp. split; [done|constructor| |done]. intros h. rewrite Ht. simpl. split; [by intros ?%elem_of_nil|done].
Qed.

Lemma settle_spec h l : NoDup l -> h ∈ l -> NoDup (settle h l) /\ length l = S (length (settle h l)) /\
  forall k, k ∈ settle h l <-> k ∈ l /\ k <> h.
Proof.
  induction l as [|x l IH]; [by intros _ ?%elem_of_nil|]. intros [Hx Hnd]%NoDup_cons Hin. simpl.
  destruct (Z.eqb_spec x h) as [->|Hne].
  - split_and!; [done|done|]. intros k. rewrite elem_of_cons. split; [intros Hk; split; [by right|by intros ->]|].
    intros [[?|?] ?]; done.
  - apply elem_of_cons in Hin as [?|Hin]; [congruence|]. destruct (IH Hnd Hin) as (H1s & H2s & H3s). split_and!.
    + apply NoDup_cons. split; [|done]. by intros [? _]%H3s.
    + simpl. by rewrite H2s.
    + intros k. rewrite !elem_of_cons, H3s. split; [intros [->|[? ?]]; tauto|tauto].
Qed.

(** ** Getting buffers *)

Lemma pick_buffer_others out s idx h e s1 k : pick_buffer out s = (idx, h, e, s1) -> k <> h ->
  kv_lookup k (table s1) = kv_lookup k (table s).
Proof.
  intros E Hk. apply Z.eqb_neq in Hk. revert E. unfold pick_buffer. destruct (if out then _ else None) as [b|].
  - intros [= _ <- _ <-]. simpl. by rewrite kv_lookup_replace, Hk.
  - destruct (_ <? _); [|by intros [= _ _ _ <-]]. unfold alloc_slot.
    destruct (AllocBuffer _ _ _ _ _) as [[[b stride]|] d]; [|by intros [= _ _ _ <-]].
    intros [= _ <- _ <-]. simpl. by rewrite kv_lookup_add, Hk.
Qed.

(** What a request for a buffer does to what is out. *)
Lemma lend_balanced s l : balanced s l -> status_ (st s) <> STATUS_CONFIG_ACTIVE ->
  balanced (snd (GetBufferLocked true s)) (lend (GetBufferLocked true s) l).
Proof.
  intros Hb Hns. pose proof Hb as [Hwf Hnd Ht Hp]. destruct (holds_buffers (status_ (st s))) eqn:Hh.
  2:{ unfold GetBufferLocked. replace (can_get_buffers (status_ (st s))) with false by (by destruct (status_ (st s))). done. }
  pose proof (GetBufferLocked_cases s Hwf Hh) as Hc. destruct (GetBufferLocked true s) as [[r o] s'] eqn:E.
  destruct Hc as ([Hk _] & _ & [(-> & b & h & -> & Hg)|(Hr & -> & Est & _)]).
  2:{ simpl. apply (balanced_same s); [done|done|by rewrite Est..]. }
  destruct Hg as (_ & _ & Hmap & Hn & Hl & Hf & Hp' & _). simpl. unfold handle_of. rewrite Hmap. cbn [default].
  assert (forall k, k <> h -> kv_lookup k (table s') = kv_lookup k (table s)) as Ho.
  { intros k Hk'. unfold GetBufferLocked in E. destruct (negb _); [done|].
    destruct (pick_buffer true s) as [[[idx x] err] s1] eqn:Ep.
    destruct (pick_buffer_spec _ _ _ _ _ _ Hwf Hh Ep) as (_ & _ & [(-> & Hsl & _)|(-> & _)]); [|by destruct err].
    rewrite (handle_nonzero _ _ _ _ Hsl) in E. injection E as <- <-. simpl in Hmap |- *.
    destruct Hsl as (_ & Hs & _). rewrite (nth_lookup_Some _ _ 0 x Hs), lookup_insert_eq in Hmap.
    injection Hmap as <-. by apply (pick_buffer_others _ _ _ _ _ _ k Ep). }
  split; [done| | |rewrite Hp', Hp, length_app; simpl; lia].
  - apply NoDup_app. split_and!; [done| |apply NoDup_singleton]. intros k Hk' ->%list_elem_of_singleton. by apply Ht in Hk'.
  - intros k. rewrite elem_of_app, list_elem_of_singleton. destruct (Z.eq_dec k h) as [->|Hne]; [tauto|].
    rewrite (Ho k Hne). specialize (Ht k). tauto.
Qed.

Lemma prepare_balanced s l : balanced s l -> holds_buffers (status_ (st s)) = true -> balanced (snd (GetBufferLocked false s)) l.
Proof.
  intros Hb Hh. pose proof Hb as [Hwf Hnd Ht Hp].
  assert (status_ (st s) <> STATUS_CONFIG_ACTIVE) as Hns by (intros E; by rewrite E in Hh).
  pose proof (GetBufferLocked_kept false s Hwf Hns) as [Hk _]. unfold GetBufferLocked in *. destruct (negb _); [done|].
  destruct (pick_buffer false s) as [[[idx h] err] s1] eqn:Ep.
  assert (snd (match err with
               | Some e => (e, None, s1)
               | None => if (h =? 0) || (idx <? 0) then (- ENOSYS, None, s1) else (0, @None camera3_stream_buffer, s1)
               end) = s1) as Es by (destruct err; [done|by destruct (_ || _)]).
  rewrite Es in *. clear Es.
  destruct (pick_buffer_spec _ _ _ _ _ _ Hwf Hh Ep) as (_ & (Ec & _) & [(-> & (_ & _ & Hn & Hl) & _)|(_ & Est & _)]).
  2:{ apply (balanced_same s); [done|done|by rewrite Est..]. }
  destruct (pick_buffer_fresh _ _ _ _ _ _ Hwf Hh Ep Hn) as (Hf & _).
  split; [done|done| |congruence]. intros k. rewrite (Ht k). destruct (Z.eq_dec k h) as [->|Hne].
  - rewrite Hl. split; [intros Hx; congruence|done].
  - by rewrite (pick_buffer_others _ _ _ _ _ _ k Ep).
Qed.

(** ** Returning them *)

Lemma return_balanced s l h : balanced s l -> h ∈ l -> balanced (snd (ReturnBufferLocked h s)) (settle h l).
Proof.
  intros [Hwf Hnd Ht Hp] Hin. pose proof (proj1 (Ht h) Hin) as Hl.
  assert (status_ (st s) <> STATUS_INTIALIZED) as Hs.
  { intros E. pose proof (wf_closed _ (se_stream _ Hwf) (or_introl E)) as Hc. by rewrite Hc in Hl. }
  assert (0 < pending_buffer_count_ (st s)) as Hpos by (destruct l; [by apply elem_of_nil in Hin|simpl in Hp; lia]).
  destruct (return_accepted h false s Hwf Hs Hpos Hl) as (s' & -> & [Hwf' _] & Ep & _ & _ & Ho & Hoth). simpl.
  destruct (settle_spec h l Hnd Hin) as (Hnd' & Hlen & Hmem). split; [done|done| |rewrite Ep, Hp, Hlen; lia].
  intros k. rewrite Hmem, (Ht k). destruct (Z.eq_dec k h) as [->|Hne].
  - rewrite Ho. split; [intros [_ ?]; done|done].
  - rewrite (Hoth k) by congruence. tauto.
Qed.

(** ** Configuration *)

Lemma CloseLocked_balanced s l : balanced s l -> balanced (snd (CloseLocked s)) l.
Proof.
  intros Hb. pose proof (CloseLocked_kept s (bl_wf _ _ Hb)) as [Hwf _]. unfold CloseLocked in *.
  destruct (status_ (st s)) eqn:Es; try done; (destruct (0 <? pending_buffer_count_ (st s)) eqn:E; [done|];
    pose proof (balanced_none _ _ Hb E) as ->; apply balanced_empty; [done|done|]; simpl;
    by apply (no_pending _ (se_stream _ (bl_wf _ _ Hb)))).
Qed.

(** An operation that leaves the table and the count of pending buffers as they
    are, or finds nothing out and empties them. *)
Definition leaves (l : list Z) (s s' : Stream) : Prop :=
  (table s' = table s /\ pending_buffer_count_ (st s') = pending_buffer_count_ (st s)) \/
  (l = [] /\ table s' = [] /\ pending_buffer_count_ (st s') = 0).

Lemma leaves_balanced s s' l : balanced s l -> se_wf s' -> leaves l s s' -> balanced s' l.
Proof. intros Hb Hwf [[E1 E2]|(-> & E1 & E2)]; [by apply (balanced_same s)|by apply balanced_empty]. Qed.

Lemma configure_leaves s l : balanced s l -> leaves l s (snd (finish_configure s)).
Proof.
  intros Hb. pose proof (se_stream _ (bl_wf _ _ Hb)) as Hs. unfold finish_configure.
  destruct (_ && _); [by left|]. unfold ConfigureLocked. destruct (status_ (st s)) eqn:Es; simpl; try by left.
  - right. split_and!; [|done..]. pose proof (wf_closed _ Hs (or_intror Es)) as Ht.
    destruct l as [|h l]; [done|]. assert (h ∈ h :: l) as Hh by by left. apply (bl_table _ _ Hb) in Hh. by rewrite Ht in Hh.
  - unfold CloseLocked. rewrite Es. destruct (0 <? pending_buffer_count_ (st s)) eqn:E; [by left|].
    right. split; [by apply (balanced_none s)|done].
Qed.

Lemma EndConfigure_leaves s l : balanced s l -> leaves l s (snd (EndConfigure s)).
Proof.
  intros Hb. unfold EndConfigure. destruct (IsConfigureActive (st s)); [|by left]. simpl.
  destruct (_ <? 0); [by left|]. match goal with |- leaves _ _ (snd (finish_configure ?x)) => set (s1 := x) end.
  assert (balanced s1 l) as Hb1.
  { apply (balanced_same s); [done| |done..]. pose proof (bl_wf _ _ Hb) as Hwf. pose proof (se_stream _ Hwf) as [].
    apply (fun K : kept s s1 => proj1 K). by apply kept_same_buffers. }
  exact (configure_leaves s1 l Hb1).
Qed.

Lemma TearDown_leaves s l : balanced s l -> leaves l s (snd (TearDown s)).
Proof.
  intros Hb. unfold TearDown. destruct (negb _); [by left|]. destruct (0 <? pending_buffer_count_ (st s)) eqn:E; [by left|].
  destruct (0 <? hw_buffer_allocated_ (st s)); [right|by left]. split; [by apply (balanced_none s)|]. split; [done|].
  simpl. by apply (no_pending _ (se_stream _ (bl_wf _ _ Hb))).
Qed.

Lemma step_balanced s l op : balanced s l -> ledger_ok (s, l) op ->
  balanced (fst (ledger_step (s, l) op)) (snd (ledger_step (s, l) op)).
Proof.
  intros Hb [Hok Hout]. pose proof (proj1 (stream_step_kept s op (bl_wf _ _ Hb) Hok)) as Hwf. unfold ledger_step. cbn [fst snd] in *.
  assert (leaves l s (stream_step s op) -> balanced (stream_step s op) l) as Hl by by apply leaves_balanced.
  destruct op; cbn [stream_step lent_after stream_op_ok] in *; try (apply Hl; by left).
  - apply Hl. left. unfold BeginConfigure. by repeat case_goal.
  - by apply Hl, EndConfigure_leaves.
  - apply Hl. left. unfold AbortConfigure. by case_goal.
  - unfold GetBuffer, timed_out. destruct (bool_decide _) eqn:Es; cbn [negb]; [|done]. destruct (_ =? _); [done|].
    apply lend_balanced; [done|]. apply bool_decide_eq_true in Es. congruence.
  - by apply lend_balanced.
  - unfold ReturnBufferToClient, handle_of in *. set (h := default 0 _) in *.
    assert (h <> 0) as Hn.
    { intros E. apply (bl_table _ _ Hb) in Hout. pose proof (wf_nonnull _ (se_stream _ (bl_wf _ _ Hb))) as Hnn.
      rewrite Forall_forall in Hnn. apply (Hnn h); [|done]. apply kv_lookup_keys. by eexists. }
    rewrite (proj2 (Z.eqb_neq _ _) Hn) in *. destruct (hb_status b); [by apply (balanced_same s)|]. simpl.
    unfold ReturnBuffer. apply return_balanced; [|done]. 
    pose proof (bl_wf _ _ Hb) as Hwf0. pose proof (se_stream _ Hwf0) as []. apply (balanced_same s); [done| |done..].
    match goal with |- se_wf ?x => apply (fun K : kept s x => proj1 K) end. apply kept_same_buffers; auto. simpl. rewrite u32_add_l, u32_add_r. f_equal. lia.
  - by apply return_balanced.
  - unfold Close. pose proof (CloseLocked_balanced s l Hb). by destruct (CloseLocked s).
  - by apply Hl, TearDown_leaves.
  - apply Hl. left. unfold BeginPrepare. by repeat case_goal.
  - unfold PrepareBuffer in *. destruct (bool_decide _) eqn:Es; cbn [negb] in *; [|by apply Hl; left].
    apply bool_decide_eq_true in Es. pose proof (prepare_balanced s l Hb ltac:(by rewrite <- Es)) as Hp.
    destruct (GetBufferLocked false s) as [[r o] s1]. cbn [snd] in Hp. destruct (r =? 0); [|done].
    apply (balanced_same s1); [done|done|..]; unfold EndPrepareLocked; by repeat case_goal.
  - apply Hl. left. unfold EndPrepare, EndPrepareLocked. by case_goal.
Qed.

(** C5. The stream's tables are the buffers that are out.  Over every sequence
    of operations on a new stream (the camera HAL's writes included) in which
    the HAL and the client return only what they have: no buffer is out twice,
    a buffer is marked in use exactly when it is out, and so many are pending,
    which are those that the HAL and the client are counted with, modulo 2^32.
    What is out stays allocated; no request is answered with it; and nothing is
    freed that is another owner's, or lost while it is the stream's. *)
Theorem stream_buffers_conserved this id sz p device m d ops :
  small (sp_bufferCount p) ->
  let s0 := mkSE (Camera3Stream_new this id sz p device) m d in
  admissible ledger_step ledger_ok (s0, []) ops ->
  let '(s, out) := ledger_run (s0, []) ops in
  NoDup out /\
  (forall h, h ∈ out <-> kv_lookup h (table s) = Some false) /\
  pending_buffer_count_ (st s) = Z.of_nat (length out) /\
  u32 (hal_buffer_cnt_ (st s) + client_buffer_cnt_ (st s)) = pending_buffer_count_ (st s) /\
  (forall h, h ∈ out -> h ∈ allocated (dev s)) /\
  match GetBuffer timed_out s with (_, Some b, s') => handle_of b s' ∉ out | _ => True end /\
  allocated (dev s) ∖ list_to_set (kv_keys (table s)) = allocated d /\
  (forall h, h ∈ kv_keys (table s) -> h ∈ allocated (dev s)).
Proof.
  intros Hc s0 Hadm. set (Inv := fun x : Ledger => balanced (fst x) (snd x) /\ foreign (fst x) = foreign s0).
  assert (Inv (ledger_run (s0, []) ops)) as [Hb Hf].
  { apply (run_invariant_adm ledger_step ledger_ok Inv); [|split; [|done]|done].
    - intros [s l] op [Hb Hf] Hok. split; [by apply step_balanced|]. cbn [fst snd] in *. rewrite <- Hf.
      apply (stream_step_kept s op); [apply Hb|apply Hok].
    - apply balanced_empty; [by apply Camera3Stream_new_wf|done..]. }
  destruct (ledger_run (s0, []) ops) as [s out]. cbn [fst snd] in *. pose proof (se_stream _ (bl_wf _ _ Hb)) as Hs.
  split_and!; try apply Hb.
  - rewrite (wf_balance _ Hs). apply u32_small, Hs.
  - intros h Hh%(bl_table _ _ Hb). apply (se_owned _ (bl_wf _ _ Hb)), kv_lookup_keys. by eexists.
  - unfold GetBuffer, timed_out. destruct (bool_decide _) eqn:Es; [|done]. destruct (_ =? _); [done|]. cbn [negb].
    apply bool_decide_eq_true in Es. pose proof (bl_nodup _ _ (lend_balanced s out Hb ltac:(congruence))) as Hnd.
    destruct (GetBufferLocked true s) as [[r [b|]] s1]; [|done]. simpl in Hnd. apply NoDup_app in Hnd as (_ & Hnd & _).
    intros Hin. by apply (Hnd _ Hin), list_elem_of_singleton.
  - unfold foreign in Hf. rewrite Hf. simpl. set_solver.
Qed.
End StreamLedger.

(** Three buffers are got, one comes back from the HAL, one is returned. *)
Definition demo_ledger_ops : list StreamOp :=
  [OpBeginConfigure; OpEndConfigure; OpGetBuffer; OpGetBuffer; OpReturnToClient (mkHalBuffer 0x1000 1 CAMERA3_BUFFER_STATUS_OK (-1) (-1)) 5 0;
   OpReturnBuffer (demo_returned 1); OpGetBuffer; OpClose].

Lemma stream_buffers_conserved_witness :
  let '(s, out) := ledger_run (demo_new, []) demo_ledger_ops in
  out = [2; 1] /\ pending_buffer_count_ (st s) = 2 /\ forall h, h ∈ out -> h ∈ allocated (dev s).
Proof.
  assert (small (sp_bufferCount demo_params)) as Hc by (vm_compute; split; congruence).
  assert (admissible ledger_step ledger_ok (demo_new, []) demo_ledger_ops) as Hadm.
  { repeat split; try done; apply list_elem_of_In; vm_compute; tauto. }
  pose proof (stream_buffers_conserved 0x1000 5 0 demo_params true Camera3Monitor_init ([] : ListDevice) demo_ledger_ops Hc Hadm) as Hr.
  destruct (ledger_run (demo_new, []) demo_ledger_ops) as [s out] eqn:E. cbv zeta in Hr.
  change (mkSE _ _ _) with demo_new in Hr. rewrite E in Hr. destruct Hr as (_ & _ & Hp & _ & Ho & _).
  assert (out = [2; 1]) as -> by (apply (f_equal snd) in E; vm_compute in E; by rewrite <- E).
  split_and!; done.
Defined.
