(* ===== verification/Adaptor.v ===== *)
(** * Shared data of the camera adaptor

    Models common/cameraadaptor/qmmf_camera3_types.h and
    qmmf_camera3_internal_types.h, and declares what the adaptor uses from
    outside the repository: Android's [CameraMetadata] ([CameraMetadata] and
    [CameraMetadataLaws]) and the camera HAL ([CameraHal]).  The objects of
    the adaptor hold references to each other (streams are passed around as
    pointers, handlers call back into the client); they live together in one
    [World], on which every method is a computation in [ST]. *)

From S2P Require Import Prelude KeyedVector Monitor Memory Stream.

(** ** Camera metadata

    A metadata buffer maps tags to arrays of values.  [meta_find] is the
    data of an entry; a tag without an entry has none. *)

Class CameraMetadata (M : Type) := {
  meta_empty : M;
  meta_find : Z -> M -> option (list Z);
  meta_update : Z -> list Z -> M -> Z * M;
  meta_erase : Z -> M -> M;
  meta_append : M -> M -> M;
  meta_isEmpty : M -> bool;
  meta_sort : M -> M
}.

Definition meta_exists {M} `{CameraMetadata M} (tag : Z) (m : M) : bool :=
  match meta_find tag m with Some _ => true | None => false end.

(** The data of [find], empty when there is no entry. *)
Definition meta_data {M} `{CameraMetadata M} (tag : Z) (m : M) : list Z :=
  default [] (meta_find tag m).

Class CameraMetadataLaws (M : Type) `{CameraMetadata M} := {
  meta_find_empty tag : meta_find tag meta_empty = None;
  meta_update_ok tag v m : fst (meta_update tag v m) = 0;
  meta_find_update tag tag' v m :
    meta_find tag' (snd (meta_update tag v m)) =
      if tag' =? tag then Some v else meta_find tag' m;
  meta_find_erase tag tag' m :
    meta_find tag' (meta_erase tag m) = if tag' =? tag then None else meta_find tag' m;
  meta_find_sort tag m : meta_find tag (meta_sort m) = meta_find tag m;
  meta_find_append tag m m' : meta_find tag m' = None ->
    meta_find tag (meta_append m m') = meta_find tag m;
  meta_isEmpty_spec m : meta_isEmpty m = true <-> forall tag, meta_find tag m = None
}.

(** The tags the adaptor uses; their values are Android's. *)
Class MetadataTags := {
  ANDROID_SENSOR_INFO_ACTIVE_ARRAY_SIZE : Z;
  ANDROID_SCALER_CROP_REGION : Z;
  ANDROID_REQUEST_PARTIAL_RESULT_COUNT : Z;
  ANDROID_REQUEST_AVAILABLE_CAPABILITIES : Z;
  ANDROID_SCALER_AVAILABLE_STREAM_CONFIGURATIONS : Z;
  ANDROID_JPEG_MAX_SIZE : Z;
  ANDROID_REQUEST_FRAME_COUNT : Z;
  ANDROID_REQUEST_ID : Z;
  ANDROID_REQUEST_INPUT_STREAMS : Z;
  ANDROID_REQUEST_OUTPUT_STREAMS : Z;
  ANDROID_SENSOR_TIMESTAMP : Z;
  ANDROID_QUIRKS_PARTIAL_RESULT : Z;
  ANDROID_QUIRKS_PARTIAL_RESULT_PARTIAL : Z;
  CONSTRAINED_HIGH_SPEED_VIDEO : Z;
  STREAM_CONFIGURATIONS_OUTPUT : Z;
  tags_distinct :
    NoDup [ANDROID_SCALER_CROP_REGION; ANDROID_REQUEST_FRAME_COUNT; ANDROID_REQUEST_ID;
           ANDROID_REQUEST_INPUT_STREAMS; ANDROID_REQUEST_OUTPUT_STREAMS; ANDROID_SENSOR_TIMESTAMP]
}.

(** ** Requests and results *)

Record CaptureResultExtras := mkExtras {
  requestId : Z; burstId : Z; frameNumber : Z; partialResultCount : Z; input : bool
}.

#[export] Instance CaptureResultExtras_settable : Settable CaptureResultExtras :=
  {| eta_expand := fun e => mkExtras (requestId e) (burstId e) (frameNumber e)
       (partialResultCount e) (input e) |}.

(** [memset] to zero. *)
Definition zero_extras : CaptureResultExtras := mkExtras 0 0 0 0 false.

Inductive CameraErrorCode :=
  | ERROR_CAMERA_INVALID_ERROR
  | ERROR_CAMERA_DISCONNECTED
  | ERROR_CAMERA_DEVICE
  | ERROR_CAMERA_SERVICE
  | ERROR_CAMERA_REQUEST
  | ERROR_CAMERA_RESULT
  | ERROR_CAMERA_BUFFER.

#[export] Instance CameraErrorCode_eq_dec : EqDecision CameraErrorCode.
Proof. solve_decision. Defined.

Definition NO_IN_FLIGHT_REPEATING_FRAMES : Z := -1.

(** Bits of [cam_feature_flags]. *)
Definition CamFeatureFlag_kNone : Z := 0.
Definition CamFeatureFlag_kEIS : Z := Z.shiftl 1 0.
Definition CamFeatureFlag_kHDR : Z := Z.shiftl 1 1.
Definition CamFeatureFlag_kLDC : Z := Z.shiftl 1 2.
Definition CamFeatureFlag_kForceSensorMode : Z := Z.shiftl 1 3.
Definition FORCE_SENSOR_MODE_MASK : Z := 0x00FF0000.
Definition FORCE_SENSOR_MODE_DATA (idx : Z) : Z := Z.shiftl (idx + 1) 16.

Record StreamConfiguration := mkStreamConfiguration {
  is_constrained_high_speed : bool; is_raw_only : bool; batch_size : Z;
  fps_sensormode_index : Z; params : option CameraStreamParameters;
  frame_rate_range : Z * Z
}.

Definition StreamConfiguration_default : StreamConfiguration :=
  mkStreamConfiguration false false 1 0 None (0, 0).

Record Camera3InputStream := mkInputStream {
  in_width : Z; in_height : Z; in_format : Z; in_usage : Z; in_max_buffers : Z;
  in_data_space : Z; in_stream_id : Z; in_buffers_map : gmap Z Z; input_buffer_cnt : Z
}.

#[export] Instance Camera3InputStream_settable : Settable Camera3InputStream :=
  {| eta_expand := fun i => mkInputStream (in_width i) (in_height i) (in_format i) (in_usage i)
       (in_max_buffers i) (in_data_space i) (in_stream_id i) (in_buffers_map i) (input_buffer_cnt i) |}.

Section Requests.
Context {M : Type}.

(** What a client submits. *)
Record Camera3Request := mkCamera3Request { rq_metadata : M; streamIds : list Z }.

(** A request in the adaptor; [rq_streams] are pointers, [rq_input] tells
    whether [input] points to the input stream. *)
Record CaptureRequest := mkRequest {
  metadata : M; streams : list Z; resultExtras : CaptureResultExtras; rq_input : bool
}.

#[export] Instance CaptureRequest_settable : Settable CaptureRequest :=
  {| eta_expand := fun r => mkRequest (metadata r) (streams r) (resultExtras r) (rq_input r) |}.

Record CaptureResult := mkResult { cr_metadata : M; cr_extras : CaptureResultExtras }.

Record PendingRequest := mkPending {
  shutterTS : Z; sensorTS : Z; pr_extras : CaptureResultExtras; pr_status : Z;
  isMetaPresent : bool; buffersRemaining : Z; pendingMetadata : M;
  pendingBuffers : list camera3_stream_buffer;
  partial3AReceived : bool; composedResult : M
}.

#[export] Instance PendingRequest_settable : Settable PendingRequest :=
  {| eta_expand := fun p => mkPending (shutterTS p) (sensorTS p) (pr_extras p) (pr_status p)
       (isMetaPresent p) (buffersRemaining p) (pendingMetadata p) (pendingBuffers p)
       (partial3AReceived p) (composedResult p) |}.

Definition PendingRequest_new `{CameraMetadata M} (numBuffers : Z) (extras : CaptureResultExtras)
    : PendingRequest :=
  mkPending 0 0 extras OK false numBuffers meta_empty [] false meta_empty.

(** [camera3_capture_request_t]: what the HAL is given. *)
Record camera3_capture_request := mkHalRequest {
  hr_frame_number : Z; hr_settings : option M; hr_input : option camera3_stream_buffer;
  hr_output : list camera3_stream_buffer
}.

(** [camera3_capture_result]: what it answers. *)
Record camera3_capture_result := mkHalResult {
  res_frame_number : Z; res_result : option M; res_output : list camera3_stream_buffer;
  res_input : option camera3_stream_buffer; res_partial : Z
}.
End Requests.

Arguments Camera3Request : clear implicits.
Arguments CaptureRequest : clear implicits.
Arguments CaptureResult : clear implicits.
Arguments PendingRequest : clear implicits.
Arguments camera3_capture_request : clear implicits.
Arguments camera3_capture_result : clear implicits.

(** ** The camera HAL *)

Record camera3_stream_configuration := mkHalConfig {
  operation_mode : Z;
  hal_streams : list (Z * Z)  (** usage and max_buffers of each stream *)
}.

(** The HAL module and device: return codes, the usage and buffer counts the
    HAL writes during configuration, and a state of its own.  Its callbacks
    into the client come on their own threads and are operations of the
    client. *)
Class CameraHal (M H : Type) := {
  get_number_of_cameras : H -> Z;
  hal_module_init : H -> Z * H;
  get_camera_info : Z -> H -> Z * M;
  hal_open : Z -> H -> Z * H;
  hal_version : H -> Z;
  hal_initialize : H -> Z * H;
  hal_close : H -> H;
  hal_configure_streams : camera3_stream_configuration -> H -> Z * list (Z * Z) * H;
  construct_default_request_settings : Z -> H -> option M;
  process_capture_request : camera3_capture_request M -> H -> Z * H;
  hal_flush : H -> Z * H
}.

(** The usage flags the HAL is shown: with [TARGET_USES_GBM] they are
    translated to gralloc flags and back around its calls. *)
Class HalUsage := { usage_to_hal : Z -> Z; usage_from_hal : Z -> Z }.

#[export] Instance gbm_hal_usage `{GbmFlags} : HalUsage | 5 :=
  {| usage_to_hal := LocalToGralloc; usage_from_hal := GrallocToLocal |}.

(** ** Concrete metadata *)

Abbreviation MetaMap := (gmap Z (list Z)).

#[export] Instance metamap : CameraMetadata MetaMap := {
  meta_empty := ∅;
  meta_find tag m := m !! tag;
  meta_update tag v m := (0, <[tag := v]> m);
  meta_erase tag m := delete tag m;
  meta_append m m' := m ∪ m';
  meta_isEmpty m := bool_decide (m = ∅);
  meta_sort m := m
}.

#[export] Program Instance metamap_laws : CameraMetadataLaws MetaMap.
Next Obligation. intros tag. apply lookup_empty. Qed.
Next Obligation. done. Qed.
Next Obligation.
  intros tag tag' v m.
  change ((<[tag := v]> m : MetaMap) !! tag' = if tag' =? tag then Some v else m !! tag'). destruct (Z.eqb_spec tag' tag) as [->|].
  - by rewrite lookup_insert_eq.
  - by rewrite lookup_insert_ne by congruence.
Qed.
Next Obligation.
  intros tag tag' m.
  change ((delete tag m : MetaMap) !! tag' = if tag' =? tag then None else m !! tag'). destruct (Z.eqb_spec tag' tag) as [->|].
  - by rewrite lookup_delete_eq.
  - by rewrite lookup_delete_ne by congruence.
Qed.
Next Obligation. done. Qed.
Next Obligation.
  intros tag m m' E. change ((m ∪ m' : MetaMap) !! tag = m !! tag).
  change (m' !! tag = None) in E. rewrite lookup_union, E. by destruct (m !! tag).
Qed.
Next Obligation.
  intros m. change (bool_decide (m = ∅) = true <-> forall tag, m !! tag = None).
  rewrite bool_decide_eq_true. split.
  - intros -> tag. apply lookup_empty.
  - intros Hn. by apply map_empty.
Qed.

#[export] Program Instance demo_tags : MetadataTags := {
  ANDROID_SENSOR_INFO_ACTIVE_ARRAY_SIZE := 1;
  ANDROID_SCALER_CROP_REGION := 2;
  ANDROID_REQUEST_PARTIAL_RESULT_COUNT := 3;
  ANDROID_REQUEST_AVAILABLE_CAPABILITIES := 4;
  ANDROID_SCALER_AVAILABLE_STREAM_CONFIGURATIONS := 5;
  ANDROID_JPEG_MAX_SIZE := 6;
  ANDROID_REQUEST_FRAME_COUNT := 7;
  ANDROID_REQUEST_ID := 8;
  ANDROID_REQUEST_INPUT_STREAMS := 9;
  ANDROID_REQUEST_OUTPUT_STREAMS := 10;
  ANDROID_SENSOR_TIMESTAMP := 11;
  ANDROID_QUIRKS_PARTIAL_RESULT := 12;
  ANDROID_QUIRKS_PARTIAL_RESULT_PARTIAL := 1;
  CONSTRAINED_HIGH_SPEED_VIDEO := 9;
  STREAM_CONFIGURATIONS_OUTPUT := 0
}.
Next Obligation. repeat (constructor; [set_solver|]). constructor. Qed.
