(* ===== verification/Floats.v ===== *)
(** * Floating point numbers

    IEEE binary32 ([float]) and binary64 ([double]), computed with the
    Standard Library's [SpecFloat], and what the development needs to know
    about them: how the quotient of two integers compares with one half. *)

From Stdlib Require Import SpecFloat.
From S2P Require Import Prelude.

(** ** binary32 *)

Definition float32 : Type := spec_float.

Definition f32_of_Z (z : Z) : float32 := binary_normalize 24 128 z 0 false.
Definition f32_add : float32 -> float32 -> float32 := SFadd 24 128.
Definition f32_sub : float32 -> float32 -> float32 := SFsub 24 128.
Definition f32_mul : float32 -> float32 -> float32 := SFmul 24 128.
Definition f32_div : float32 -> float32 -> float32 := SFdiv 24 128.

(** Conversion to [int32_t]: towards zero; values out of range, for which
    C++ promises nothing, wrap around. *)
Definition f32_trunc (x : float32) : Z :=
  match x with
  | S754_finite s m e =>
      let a := if 0 <=? e then Zpos m * 2 ^ e else Zpos m / 2 ^ (- e) in
      i32 (if s then - a else a)
  | _ => 0
  end.

(** [x <= 0]; false for NaN. *)
Definition f32_le_0 (x : float32) : bool := SFleb x (S754_zero false).

(** 0.1f, 0.5f and 0.01f. *)
Definition f32_tenth : float32 := f32_div (f32_of_Z 1) (f32_of_Z 10).
Definition f32_half : float32 := f32_div (f32_of_Z 1) (f32_of_Z 2).
Definition f32_hundredth : float32 := f32_div (f32_of_Z 1) (f32_of_Z 100).

(** [std::llround]: to the nearest integer, halves away from zero; undefined
    for what is not finite. *)
Definition f32_llround (x : float32) : option Z :=
  match x with
  | S754_zero _ => Some 0
  | S754_finite s m e =>
      let a := if 0 <=? e then Zpos m * 2 ^ e else (Zpos m + 2 ^ (- e - 1)) / 2 ^ (- e) in
      Some (if s then - a else a)
  | _ => None
  end.

(** ** binary64 *)

Definition float64 : Type := spec_float.

Definition f64_of_Z (z : Z) : float64 := binary_normalize 53 1024 z 0 false.
Definition f64_div : float64 -> float64 -> float64 := SFdiv 53 1024.
Definition f64_mul : float64 -> float64 -> float64 := SFmul 53 1024.

(** [float] to [double]. *)
Definition f64_of_f32 (x : float32) : float64 :=
  match x with S754_finite s m e => binary_round 53 1024 s m e | y => y end.

(** Conversion to [uint64_t]: towards zero; undefined out of range. *)
Definition f64_to_u64 (x : float64) : option Z :=
  match x with
  | S754_zero _ => Some 0
  | S754_finite false m e =>
      let a := if 0 <=? e then Zpos m * 2 ^ e else Zpos m / 2 ^ (- e) in
      if a <? 2 ^ 64 then Some a else None
  | _ => None
  end.
Definition f64_half : float64 := S754_finite false 4503599627370496 (-53).

(** [x >= 0.5]; false for NaN. *)
Definition f64_ge_half (x : float64) : bool := SFleb f64_half x.

(** ** The quotient of two integers *)

Lemma digits2_pos_bound p : let n := Zpos (digits2_pos p) in 2 ^ (n - 1) <= Zpos p < 2 ^ n.
Proof.
  simpl. assert (digits2_pos p = Pos.size p) as -> by (induction p as [p IH|p IH|]; simpl; congruence).
  pose proof (Pos.size_gt p) as Hg. pose proof (Pos.size_le p) as Hl.
  apply Pos2Z.pos_lt_pos in Hg. apply Pos2Z.pos_le_pos in Hl. rewrite Pos2Z.inj_pow in Hg, Hl.
  split; [|done]. replace (2 ^ (Zpos (Pos.size p) - 1)) with (2 ^ Zpos (Pos.size p) / 2).
  - apply Z.div_le_upper_bound; lia.
  - rewrite Z.pow_sub_r, Z.pow_1_r by lia. done.
Qed.

Lemma digits2_unique p n : 2 ^ (n - 1) <= Zpos p < 2 ^ n -> 0 < n -> Zpos (digits2_pos p) = n.
Proof.
  intros [H1 H2] Hn. pose proof (digits2_pos_bound p) as [H3 H4].
  assert (n - 1 < Zpos (digits2_pos p)) by (apply (Z.pow_lt_mono_r_iff 2); lia).
  assert (Zpos (digits2_pos p) - 1 < n) by (apply (Z.pow_lt_mono_r_iff 2); lia). lia.
Qed.

Lemma Zdigits2_unique z n : 2 ^ (n - 1) <= z < 2 ^ n -> 0 < n -> Zdigits2 z = n.
Proof.
  intros Hz Hn. assert (0 < 2 ^ (n - 1)) by (apply Z.pow_pos_nonneg; lia).
  destruct z as [|p|p]; [lia| |lia]. simpl. by apply digits2_unique.
Qed.

(** A mantissa of 53 bits, with or without the bits beyond, and where it is
    rounded to. *)
Definition normal (m : Z) : Prop := 2 ^ 52 <= m < 2 ^ 53.

Lemma shr_fexp_normal m e l : normal m -> -1074 <= e ->
  shr_fexp 53 1024 m e l = (shr_record_of_loc m l, e).
Proof.
  intros Hm He. unfold shr_fexp. rewrite (Zdigits2_unique m 53) by (try done; unfold normal in Hm; lia).
  unfold fexp, emin. by replace (Z.max (53 + e - 53) (3 - 1024 - 53) - e) with 0 by lia.
Qed.

Lemma shr_fexp_double m e l : normal (m / 2) -> -1074 <= e -> exists s,
  shr_fexp 53 1024 m e l = ({| shr_m := m / 2; shr_r := Z.odd m; shr_s := s |}, e + 1).
Proof.
  intros Hm He. assert (2 ^ 53 <= m < 2 ^ 54) as Hb.
  { unfold normal in Hm. pose proof (Z.div_mod m 2 ltac:(lia)). pose proof (Z.mod_pos_bound m 2 ltac:(lia)). lia. }
  unfold shr_fexp. rewrite (Zdigits2_unique m 54) by (try done; lia).
  unfold fexp, emin. replace (Z.max (54 + e - 53) (3 - 1024 - 53) - e) with 1 by lia. cbn [shr iter_pos].
  destruct m as [|p|p]; [lia| |lia].
  exists (let '(Build_shr_record _ r s) := shr_record_of_loc (Zpos p) l in orb r s).
  rewrite <- Z.div2_div. destruct p as [p|p|]; [| |lia]; by destruct l as [|[]].
Qed.

(** Whether rounding goes up. *)
Lemma round_nearest_even_cases m l : round_nearest_even m l = m \/
  (round_nearest_even m l = m + 1 /\ l <> loc_Exact).
Proof. destruct l as [|[]]; simpl; auto. destruct (Z.even m); auto. Qed.

Lemma loc_of_even m s : loc_of_shr_record {| shr_m := m; shr_r := false; shr_s := s |} = loc_Exact \/
  loc_of_shr_record {| shr_m := m; shr_r := false; shr_s := s |} = loc_Inexact Lt.
Proof. destruct s; auto. Qed.

(** The second shift: after rounding there may be one bit too many. *)
Lemma finish_round m e : 2 ^ 52 <= m <= 2 ^ 53 -> -1074 <= e <= 900 ->
  exists p, (let '(mrs, e') := shr_fexp 53 1024 m e loc_Exact in
    match shr_m mrs with
    | Z0 => S754_zero false
    | Zpos m => if Z.leb e' (Z.sub 1024 53) then S754_finite false m e' else S754_infinity false
    | _ => S754_nan
    end) = S754_finite false p (e + if m =? 2 ^ 53 then 1 else 0) /\ normal (Zpos p).
Proof.
  intros Hm He. destruct (Z.eqb_spec m (2 ^ 53)) as [->|Hne].
  - destruct (shr_fexp_double (2 ^ 53) e loc_Exact) as [s ->]; [by vm_compute|lia|].
    change (shr_m _) with 4503599627370496. rewrite (proj2 (Z.leb_le _ _)) by lia.
    exists 4503599627370496%positive. split; [reflexivity|unfold normal; lia].
  - assert (normal m) as Hn by (unfold normal; lia). rewrite shr_fexp_normal by (done || lia).
    cbn [shr_record_of_loc shr_m]. destruct m as [|p|p]; [by destruct Hn| |by destruct Hn].
    rewrite (proj2 (Z.leb_le _ _)) by lia. rewrite Z.add_0_r. by exists p.
Qed.

Lemma ge_half_normal p e : normal (Zpos p) -> f64_ge_half (S754_finite false p e) = (-53 <=? e).
Proof.
  intros [Hp _]. unfold f64_ge_half, f64_half, SFleb, SFcompare.
  destruct (Z.compare_spec (-53) e) as [<-|Hlt|Hgt].
  - change (Pos.compare_cont Eq 4503599627370496 p) with (Pos.compare 4503599627370496 p).
    destruct (Pos.compare_spec 4503599627370496 p) as [Hc|Hc|Hc]; [reflexivity|reflexivity|].
    exfalso. apply Pos2Z.pos_lt_pos in Hc. by apply (Zle_not_lt _ _ Hp).
  - symmetry. apply Z.leb_le. lia.
  - symmetry. apply Z.leb_gt. lia.
Qed.

(** Rounding a quotient of 53 or 54 bits, with the location of what is beyond
    it: the exponent moves by the bits that are too many, and by one more
    when rounding carries over. *)
Lemma round_normal q e l : normal q -> -1074 <= e <= 800 -> exists p b,
  binary_round_aux 53 1024 false q e l = S754_finite false p (e + b) /\ normal (Zpos p) /\
  0 <= b <= 1 /\ (b = 1 -> q + 1 = 2 ^ 53).
Proof.
  intros Hq He. unfold binary_round_aux. rewrite shr_fexp_normal by (done || lia).
  replace (shr_m (shr_record_of_loc q l)) with q by (by destruct l as [|[]]).
  set (m := round_nearest_even _ _).
  assert (m = q \/ m = q + 1) as Hm by (destruct (round_nearest_even_cases q (loc_of_shr_record (shr_record_of_loc q l))); tauto).
  destruct (finish_round m e) as (p & E & Hp); [unfold normal in Hq; lia|lia|].
  exists p, (if m =? 2 ^ 53 then 1 else 0). split; [exact E|]. split; [done|].
  unfold normal in Hq. destruct (Z.eqb_spec m (2 ^ 53)); lia.
Qed.

Lemma round_double q e l : normal (q / 2) -> -1074 <= e <= 800 -> exists p b,
  binary_round_aux 53 1024 false q e l = S754_finite false p (e + 1 + b) /\ normal (Zpos p) /\
  0 <= b <= 1 /\ (b = 1 -> q + 1 = 2 ^ 54).
Proof.
  intros Hq He. unfold binary_round_aux. destruct (shr_fexp_double q e l) as [s ->]; [done|lia|].
  cbn [shr_m]. set (m := round_nearest_even _ _).
  assert (m = q / 2 \/ (m = q / 2 + 1 /\ Z.odd q = true)) as Hm.
  { unfold m. destruct (Z.odd q); [destruct (round_nearest_even_cases (q / 2)
      (loc_of_shr_record {| shr_m := q / 2; shr_r := true; shr_s := s |})); tauto|].
    left. by destruct s. }
  destruct (finish_round m (e + 1)) as (p & E & Hp); [unfold normal in Hq; lia|lia|].
  exists p, (if m =? 2 ^ 53 then 1 else 0). split; [exact E|]. split; [done|].
  unfold normal in Hq. destruct (Z.eqb_spec m (2 ^ 53)) as [E2|E2]; [|lia]. split; [lia|]. intros _.
  destruct Hm as [Hm|[Hm Ho]]; [lia|]. rewrite Zodd_mod in Ho. apply Z.eqb_eq in Ho.
  pose proof (Z.div_mod q 2). lia.
Qed.

(** An integer below 2^53 is a [double], with a mantissa of 53 bits. *)
Lemma f64_of_small z : 0 < z < 2 ^ 53 -> exists m k,
  f64_of_Z z = S754_finite false m (- k) /\ Zpos m = z * 2 ^ k /\ normal (Zpos m) /\ 0 <= k <= 52.
Proof.
  intros Hz. destruct z as [|p|p]; [lia| |lia]. unfold f64_of_Z, binary_normalize, binary_round, shl_align.
  pose proof (digits2_pos_bound p) as [H1 H2]. set (n := Zpos (digits2_pos p)) in *.
  assert (n - 1 < 53) by (apply (Z.pow_lt_mono_r_iff 2); lia). assert (0 < n) by (unfold n; lia).
  unfold fexp, emin. replace (Z.max (n + 0 - 53) (3 - 1024 - 53) - 0) with (n - 53) by lia.
  assert (forall m, Zpos m = Zpos p * 2 ^ (53 - n) -> normal (Zpos m)) as Hnorm.
  { intros m ->. unfold normal. replace 52 with (n - 1 + (53 - n)) at 1 by lia. rewrite Z.pow_add_r by lia.
    replace (2 ^ 53) with (2 ^ n * 2 ^ (53 - n)) by (rewrite <- Z.pow_add_r by lia; f_equal; lia).
    assert (0 < 2 ^ (53 - n)) by (apply Z.pow_pos_nonneg; lia). nia. }
  assert (exists m, (let '(mz, ez) := match n - 53 with
      | Zneg d => (Pos.iter xO p d, Z.max (n + 0 - 53) (3 - 1024 - 53)) | _ => (p, 0) end in
      binary_round_aux 53 1024 false (Zpos mz) ez loc_Exact)
    = binary_round_aux 53 1024 false (Zpos m) (- (53 - n)) loc_Exact /\ Zpos m = Zpos p * 2 ^ (53 - n)) as (m & -> & Em).
  { destruct (n - 53) as [|d|d] eqn:Ed; [|lia|].
    - exists p. replace (53 - n) with 0 by lia. split; [done|lia].
    - exists (Pos.iter xO p d). replace (Z.max (n + 0 - 53) (3 - 1024 - 53)) with (- (53 - n)) by lia.
      split; [done|]. replace (53 - n) with (Zpos d) by lia.
      clear. induction d as [|d IH] using Pos.peano_ind; [simpl; lia|].
      rewrite Pos.iter_succ, Pos2Z.inj_succ, Z.pow_succ_r by lia. lia. }
  exists m, (53 - n). split_and!; [|done|by apply Hnorm|lia|lia].
  unfold binary_round_aux. rewrite shr_fexp_normal by (try (by apply Hnorm); lia).
  cbn [shr_record_of_loc loc_of_shr_record round_nearest_even shr_m].
  rewrite shr_fexp_normal by (try (by apply Hnorm); lia). cbn [shr_record_of_loc shr_m].
  by rewrite (proj2 (Z.leb_le _ _)) by lia.
Qed.

(** The mantissa of a quotient. *)
Lemma div_core m1 e1 m2 e2 : normal (Zpos m1) -> normal (Zpos m2) -> -100 <= e1 - e2 <= 100 ->
  exists l, SFdiv_core_binary 53 1024 (Zpos m1) e1 (Zpos m2) e2
  = (Zpos m1 * 2 ^ 53 / Zpos m2, e1 - e2 - 53, l).
Proof.
  intros H1 H2 He. unfold SFdiv_core_binary.
  rewrite !(Zdigits2_unique _ 53) by (try done; unfold normal in *; lia).
  unfold fexp, emin. replace (Z.min _ _) with (e1 - e2 - 53) by lia.
  replace (e1 - e2 - (e1 - e2 - 53)) with 53 by lia. rewrite Z.shiftl_mul_pow2 by lia.
  pose proof (Z.div_eucl_eq (Zpos m1 * 2 ^ 53) (Zpos m2) ltac:(lia)) as Hq.
  pose proof (Z.mod_pos_bound (Zpos m1 * 2 ^ 53) (Zpos m2) ltac:(lia)) as Hr.
  unfold Z.div, Z.modulo in *. destruct (Z.div_eucl _ _) as [q r]. by eexists.
Qed.

(** The quotient of two integers is at least one half as a [double] exactly
    when it is. *)
Lemma half_quotient d i : 0 <= d < 2 ^ 53 -> 0 < i < 2 ^ 53 ->
  f64_ge_half (f64_div (f64_of_Z d) (f64_of_Z i)) = (i <=? 2 * d).
Proof.
  intros Hd Hi. destruct (f64_of_small i Hi) as (m2 & k2 & -> & E2 & N2 & K2).
  destruct (decide (d = 0)) as [->|Hd0]; [symmetry; apply Z.leb_gt; lia|].
  destruct (f64_of_small d ltac:(lia)) as (m1 & k1 & -> & E1 & N1 & K1).
  unfold f64_div, SFdiv. destruct (div_core m1 (- k1) m2 (- k2) N1 N2) as [l ->]; [lia|].
  set (q := Zpos m1 * 2 ^ 53 / Zpos m2). set (D := - k1 - - k2).
  pose proof (Z.mul_div_le (Zpos m1 * 2 ^ 53) (Zpos m2) ltac:(lia)) as Q1. fold q in Q1.
  pose proof (Z.mul_succ_div_gt (Zpos m1 * 2 ^ 53) (Zpos m2) ltac:(lia)) as Q2. fold q in Q2.
  assert (Hq : 2 ^ 52 <= q /\ q + 2 <= 2 ^ 54) by (unfold normal in *; nia).
  assert (Hcase : (Zpos m2 <= Zpos m1 /\ normal (q / 2)) \/ (Zpos m1 < Zpos m2 /\ normal q /\ q + 2 <= 2 ^ 53)).
  { destruct (Z.le_gt_cases (Zpos m2) (Zpos m1)) as [Hle|Hlt]; [left|right]; (split; [done|]).
    - assert (2 ^ 53 <= q) by (unfold normal in *; nia). unfold normal.
      split; [apply Z.div_le_lower_bound; lia|apply Z.div_lt_upper_bound; lia].
    - unfold normal in *. assert (q + 2 <= 2 ^ 53) by nia. lia. }
  assert (Hrel : (i <=? 2 * d) = (0 <=? D) || ((D =? -1) && (Zpos m2 <=? Zpos m1))).
  { assert (0 < 2 ^ k1) by (apply Z.pow_pos_nonneg; lia).
    destruct (Z.leb_spec 0 D) as [HD|HD]; simpl.
    - apply Z.leb_le. assert (k2 = k1 + D) as Ek by lia. rewrite Ek, Z.pow_add_r in E2 by lia.
      assert (0 < 2 ^ D) by (apply Z.pow_pos_nonneg; lia).
      destruct (Z.le_gt_cases i (2 * d)) as [|Hgt]; [done|]. exfalso. unfold normal in *.
      assert (i * 2 ^ k1 <= i * (2 ^ k1 * 2 ^ D)) by nia. assert (2 * d * 2 ^ k1 < i * 2 ^ k1) by nia. lia.
    - destruct (Z.eqb_spec D (-1)) as [HD1|HD1]; simpl.
      + assert (k1 = Z.succ k2) as Ek by lia. rewrite Ek, Z.pow_succ_r in E1 by lia.
        assert (0 < 2 ^ k2) by (apply Z.pow_pos_nonneg; lia).
        destruct (Z.leb_spec (Zpos m2) (Zpos m1)); [apply Z.leb_le|apply Z.leb_gt]; nia.
      + apply Z.leb_gt. assert (k1 = k2 + 1 + 1 + (- D - 2)) as Ek by lia.
        rewrite Ek, !Z.pow_add_r, Z.pow_1_r in E1 by lia.
        assert (0 < 2 ^ (- D - 2)) by (apply Z.pow_pos_nonneg; lia).
        assert (0 < 2 ^ k2) by (apply Z.pow_pos_nonneg; lia).
        destruct (Z.le_gt_cases i (2 * d)) as [Hle|]; [|done]. exfalso. unfold normal in *.
        assert (Zpos m1 >= 4 * (d * 2 ^ k2)) by nia. nia. }
  rewrite Hrel. cbn [xorb]. destruct Hcase as [[Hm Hn]|(Hm & Hn & Hb)].
  - destruct (round_double q (D - 53) l Hn ltac:(lia)) as (p & b & -> & Np & Hb1 & Hb2).
    assert (b = 0) as -> by lia. rewrite ge_half_normal by done.
    rewrite (proj2 (Z.leb_le (Zpos m2) _)) by lia.
    destruct (Z.leb_spec 0 D), (Z.eqb_spec D (-1)), (Z.leb_spec (-53) (D - 53 + 1 + 0)); simpl; lia.
  - destruct (round_normal q (D - 53) l Hn ltac:(lia)) as (p & b & -> & Np & Hb1 & Hb2).
    assert (b = 0) as -> by lia. rewrite ge_half_normal by done.
    rewrite (proj2 (Z.leb_gt (Zpos m2) _)) by lia.
    destruct (Z.leb_spec 0 D), (Z.eqb_spec D (-1)), (Z.leb_spec (-53) (D - 53 + 0)); simpl; lia.
Qed.
