(* ===== verification/SmoothZoom.v ===== *)
(** * Camera3SmoothZoom: gradual changes of the crop region

    Models common/cameraadaptor/qmmf_camera3_smooth_zoom.{h,cc}.  A repeating
    request that asks for a new crop region reaches it in [zoom_steps_]
    steps.  [float] is IEEE binary32; integers are
    [int32_t]. *)

From Stdlib Require Import SpecFloat.
From S2P Require Import Prelude KeyedVector Floats Monitor Memory Stream Adaptor.

Record CropData := mkCrop { left : Z; top : Z; crop_width : Z; crop_height : Z }.

#[export] Instance CropData_settable : Settable CropData :=
  {| eta_expand := fun c => mkCrop (left c) (top c) (crop_width c) (crop_height c) |}.

Record Camera3SmoothZoom := mkZoom {
  enable_ : bool;
  max_width_ : Z;
  max_height_ : Z;
  zoom_factor_ : float32;
  zoom_step_size_ : float32;
  zoom_step_ : float32;
  zoom_steps_ : Z;
  left_offset_ : float32;
  top_offset_ : float32;
  left_step_ : float32;
  top_step_ : float32;
  crop_current_ : CropData;
  crop_target_ : CropData
}.

#[export] Instance Camera3SmoothZoom_settable : Settable Camera3SmoothZoom :=
  {| eta_expand := fun z => mkZoom (enable_ z) (max_width_ z) (max_height_ z) (zoom_factor_ z)
       (zoom_step_size_ z) (zoom_step_ z) (zoom_steps_ z) (left_offset_ z) (top_offset_ z)
       (left_step_ z) (top_step_ z) (crop_current_ z) (crop_target_ z) |}.

(** The constructor; [step] is the property persist.qmmf.zoom.step. *)
Definition Camera3SmoothZoom_new (step : float32) : Camera3SmoothZoom :=
  mkZoom false 0 0 (f32_of_Z 1) step (S754_zero false) 0 (S754_zero false) (S754_zero false)
    (S754_zero false) (S754_zero false) (mkCrop 0 0 0 0) (mkCrop 0 0 0 0).

Definition IsEnable (z : Camera3SmoothZoom) : bool := enable_ z.
Definition IsGoing (z : Camera3SmoothZoom) : bool := 0 <=? zoom_steps_ z.
Definition Enable (z : Camera3SmoothZoom) : Camera3SmoothZoom := z <| enable_ := true |>.
Definition Disable (z : Camera3SmoothZoom) : Camera3SmoothZoom := z <| enable_ := false |>.

Definition crop_of (d : list Z) : CropData :=
  mkCrop (nth 0 d 0) (nth 1 d 0) (nth 2 d 0) (nth 3 d 0).

Definition crop_data (c : CropData) : list Z := [left c; top c; crop_width c; crop_height c].

Definition crop_differs (a b : CropData) : bool :=
  negb ((left a =? left b) && (top a =? top b) &&
        (crop_width a =? crop_width b) && (crop_height a =? crop_height b)).

(** The target, moved and shrunk into the sensor array. *)
Definition clamp_target (w h : Z) (c : CropData) : CropData :=
  let c1 := if w <? crop_width c then c <| crop_width := w |> else c in
  let c2 := if h <? crop_height c1 then c1 <| crop_height := h |> else c1 in
  let c3 := if w <? i32 (left c2 + crop_width c2) then c2 <| left := w - crop_width c2 |> else c2 in
  if h <? i32 (top c3 + crop_height c3) then c3 <| top := h - crop_height c3 |> else c3.

Section SmoothZoom.
Context {M : Type} `{CameraMetadata M} `{MetadataTags}.

(** First use: the sensor size and the crop region of the request. *)
Definition zoom_learn (r : CaptureRequest M) (z : Camera3SmoothZoom) : Camera3SmoothZoom :=
  if (max_width_ z =? 0) || (max_height_ z =? 0) then
    let z1 :=
      match meta_find ANDROID_SENSOR_INFO_ACTIVE_ARRAY_SIZE (metadata r) with
      | Some d => z <| max_width_ := nth 2 d 0 |> <| max_height_ := nth 3 d 0 |>
      | None => z
      end in
    match meta_find ANDROID_SCALER_CROP_REGION (metadata r) with
    | Some d => z1 <| crop_current_ := crop_of d |> <| crop_target_ := crop_of d |>
    | None => z1
    end
  else z.

Definition zoom_invalid (z : Camera3SmoothZoom) : bool :=
  (max_width_ z <=? 0) || (max_height_ z <=? 0) ||
  (crop_width (crop_current_ z) <=? 0) || (crop_height (crop_current_ z) <=? 0) ||
  (crop_width (crop_target_ z) <=? 0) || (crop_height (crop_target_ z) <=? 0) ||
  f32_le_0 (zoom_step_size_ z).

(** A new target starts a zoom when none is going on. *)
Definition zoom_retarget (r : CaptureRequest M) (z : Camera3SmoothZoom) : Camera3SmoothZoom :=
  match meta_find ANDROID_SCALER_CROP_REGION (metadata r) with
  | None => z
  | Some d =>
      if crop_differs (crop_of d) (crop_current_ z) && (zoom_steps_ z <? 0) then
        let target := clamp_target (max_width_ z) (max_height_ z) (crop_of d) in
        let zoom_target := f32_div (f32_of_Z (crop_width target)) (f32_of_Z (max_width_ z)) in
        let factor := f32_div (f32_of_Z (crop_width (crop_current_ z))) (f32_of_Z (max_width_ z)) in
        let steps := f32_trunc (SFabs (f32_div (f32_sub zoom_target factor) (zoom_step_size_ z))) in
        let z1 := z <| crop_target_ := target |> <| zoom_factor_ := factor |>
                    <| zoom_steps_ := steps |> in
        if negb (steps =? 0) then
          z1 <| zoom_step_ := f32_div (f32_sub zoom_target factor) (f32_of_Z steps) |>
             <| left_offset_ := f32_of_Z (left (crop_current_ z)) |>
             <| top_offset_ := f32_of_Z (top (crop_current_ z)) |>
             <| left_step_ := f32_div (f32_of_Z (i32 (left target - left (crop_current_ z)))) (f32_of_Z steps) |>
             <| top_step_ := f32_div (f32_of_Z (i32 (top target - top (crop_current_ z)))) (f32_of_Z steps) |>
        else
          z1 <| zoom_step_ := S754_zero false |> <| left_step_ := S754_zero false |>
             <| top_step_ := S754_zero false |>
      else z
  end.

(** One step towards the target. *)
Definition zoom_advance (z : Camera3SmoothZoom) : Camera3SmoothZoom :=
  if zoom_steps_ z <=? 0 then z <| crop_current_ := crop_target_ z |>
  else
    let factor := f32_add (zoom_factor_ z) (zoom_step_ z) in
    let lo := f32_add (left_offset_ z) (left_step_ z) in
    let t := f32_add (top_offset_ z) (top_step_ z) in
    let w := f32_trunc (f32_mul (f32_of_Z (max_width_ z)) factor) in
    z <| zoom_factor_ := factor |> <| left_offset_ := lo |> <| top_offset_ := t |>
      <| crop_current_ := mkCrop (f32_trunc lo) (f32_trunc t) w
           (Z.quot (i32 (w * crop_height (crop_target_ z))) (crop_width (crop_target_ z))) |>.

Definition Update (r : CaptureRequest M) (z : Camera3SmoothZoom)
    : CaptureRequest M * Camera3SmoothZoom :=
  if negb (enable_ z) then (r, z)
  else
    let z1 := zoom_learn r z in
    if zoom_invalid z1 then (r, z1)
    else
      let z2 := zoom_advance (zoom_retarget r z1) in
      let r' := r <| metadata := snd (meta_update ANDROID_SCALER_CROP_REGION
                                        (crop_data (crop_current_ z2)) (metadata r)) |> in
      (r', if 0 <=? zoom_steps_ z2 then z2 <| zoom_steps_ := zoom_steps_ z2 - 1 |> else z2).

(** ** Correctness *)

(** What an update does to the zoom while one is going on: the request has
    no influence. *)
Definition zoom_tick (z : Camera3SmoothZoom) : Camera3SmoothZoom :=
  let z' := zoom_advance z in
  if 0 <=? zoom_steps_ z' then z' <| zoom_steps_ := zoom_steps_ z' - 1 |> else z'.

Fixpoint zoom_ticks (n : nat) (z : Camera3SmoothZoom) : Camera3SmoothZoom :=
  match n with O => z | S n' => zoom_ticks n' (zoom_tick z) end.

Fixpoint updates (rs : list (CaptureRequest M)) (z : Camera3SmoothZoom)
    : list (CaptureRequest M) * Camera3SmoothZoom :=
  match rs with
  | [] => ([], z)
  | r :: rs' =>
      let '(r', z1) := Update r z in
      let '(out, z2) := updates rs' z1 in (r' :: out, z2)
  end.

Lemma zoom_advance_same z :
  zoom_steps_ (zoom_advance z) = zoom_steps_ z /\ enable_ (zoom_advance z) = enable_ z /\
  max_width_ (zoom_advance z) = max_width_ z /\ max_height_ (zoom_advance z) = max_height_ z /\
  crop_target_ (zoom_advance z) = crop_target_ z.
Proof. unfold zoom_advance. by case_goal. Qed.

Lemma zoom_retarget_going r z : 0 <= zoom_steps_ z -> zoom_retarget r z = z.
Proof.
  intros Hs. unfold zoom_retarget. destruct (meta_find _ _); [|done].
  assert ((zoom_steps_ z <? 0) = false) as -> by (apply Z.ltb_ge; lia). by rewrite andb_false_r.
Qed.

Lemma zoom_learn_known r z : zoom_invalid z = false -> zoom_learn r z = z.
Proof.
  unfold zoom_invalid. intros Hv. bool_hyps. unfold zoom_learn.
  destruct (Z.eqb_spec (max_width_ z) 0); [lia|]. by destruct (Z.eqb_spec (max_height_ z) 0); [lia|].
Qed.

Lemma Update_going r z :
  enable_ z = true -> zoom_invalid z = false -> 0 <= zoom_steps_ z ->
  Update r z =
    (r <| metadata := snd (meta_update ANDROID_SCALER_CROP_REGION
                             (crop_data (crop_current_ (zoom_tick z))) (metadata r)) |>, zoom_tick z).
Proof.
  intros He Hv Hs. unfold Update, zoom_tick. rewrite He, (zoom_learn_known r z Hv), Hv. simpl.
  rewrite (zoom_retarget_going r z Hs). by destruct (0 <=? zoom_steps_ (zoom_advance z)).
Qed.

Lemma zoom_tick_same z : 0 <= zoom_steps_ z ->
  zoom_steps_ (zoom_tick z) = zoom_steps_ z - 1 /\ enable_ (zoom_tick z) = enable_ z /\
  crop_target_ (zoom_tick z) = crop_target_ z /\
  crop_current_ (zoom_tick z) = crop_current_ (zoom_advance z).
Proof.
  intros Hs. unfold zoom_tick. destruct (zoom_advance_same z) as (-> & E2 & _ & _ & E5).
  assert ((0 <=? zoom_steps_ z) = true) as -> by (apply Z.leb_le; lia). simpl. auto.
Qed.

Lemma updates_going rs : forall z,
  enable_ z = true -> Z.of_nat (length rs) <= zoom_steps_ z + 1 ->
  (forall k, (k < length rs)%nat -> zoom_invalid (zoom_ticks k z) = false) ->
  snd (updates rs z) = zoom_ticks (length rs) z.
Proof.
  induction rs as [|r rs IH]; intros z He Hl Hv; [done|]. cbn [updates length zoom_ticks] in *.
  rewrite Update_going; [|done|apply (Hv 0%nat); lia|lia].
  destruct (zoom_tick_same z ltac:(lia)) as (E1 & E2 & _).
  specialize (IH (zoom_tick z)). destruct (updates rs (zoom_tick z)) as [out z2]. simpl in *.
  apply IH; [congruence|lia|]. intros k Hk. apply (Hv (S k)). lia.
Qed.

Lemma zoom_ticks_end n : forall z,
  zoom_steps_ z = Z.of_nat n ->
  zoom_steps_ (zoom_ticks (S n) z) = -1 /\ crop_target_ (zoom_ticks (S n) z) = crop_target_ z /\
  crop_current_ (zoom_ticks (S n) z) = crop_target_ z.
Proof.
  induction n as [|n IH]; intros z Hs; destruct (zoom_tick_same z ltac:(lia)) as (E1 & _ & E3 & E4).
  - cbn [zoom_ticks]. rewrite E1, E3, E4. split_and!; [lia|done|].
    unfold zoom_advance. by assert ((zoom_steps_ z <=? 0) = true) as -> by (apply Z.leb_le; lia).
  - destruct (IH (zoom_tick z) ltac:(lia)) as (IH1 & IH2 & IH3). cbn [zoom_ticks] in *.
    rewrite IH1, IH2, IH3, E3. auto.
Qed.

(** A zoom ends: from a state with [n] steps to go, [n + 1] requests,
    whatever they ask for, bring the crop region to the target chosen when
    the zoom started, provided no step rounds the region to nothing. *)
Theorem zoom_reaches_target (n : nat) (rs : list (CaptureRequest M)) (z : Camera3SmoothZoom) :
  enable_ z = true -> zoom_steps_ z = Z.of_nat n -> length rs = S n ->
  (forall k, (k <= n)%nat -> zoom_invalid (zoom_ticks k z) = false) ->
  let z' := snd (updates rs z) in
  IsGoing z' = false /\ crop_current_ z' = crop_target_ z /\ crop_target_ z' = crop_target_ z.
Proof.
  intros He Hs Hl Hv z'. subst z'. rewrite updates_going; [|done|lia|intros k Hk; apply Hv; lia].
  rewrite Hl. destruct (zoom_ticks_end n z Hs) as (E1 & E2 & E3).
  unfold IsGoing. by rewrite E1, E2, E3.
Qed.

Lemma zoom_learn_enable r z : enable_ (zoom_learn r z) = enable_ z.
Proof. unfold zoom_learn. by repeat case_goal. Qed.

(** The crop region is all an update changes in a request: it becomes
    the current region of the zoom, and the other tags, the streams and the
    extras stay.  A disabled zoom, or one without a usable sensor size,
    region or step, leaves the request as it is. *)
Theorem Update_request `{!CameraMetadataLaws M} (r : CaptureRequest M) (z : Camera3SmoothZoom) :
  let '(r', z') := Update r z in
  (enable_ z = false -> r' = r /\ z' = z) /\
  (enable_ z = true -> zoom_invalid (zoom_learn r z) = true -> r' = r /\ z' = zoom_learn r z) /\
  (enable_ z = true -> zoom_invalid (zoom_learn r z) = false ->
     meta_find ANDROID_SCALER_CROP_REGION (metadata r') = Some (crop_data (crop_current_ z')) /\
     (forall tag, tag <> ANDROID_SCALER_CROP_REGION ->
        meta_find tag (metadata r') = meta_find tag (metadata r)) /\
     streams r' = streams r /\ resultExtras r' = resultExtras r /\ rq_input r' = rq_input r).
Proof.
  unfold Update. destruct (enable_ z); simpl; [|done].
  destruct (zoom_invalid (zoom_learn r z)); [done|]. split_and!; try done. intros _ _.
  cbn. split_and!; try done.
  - rewrite meta_find_update, Z.eqb_refl. by case_goal.
  - intros tag Ht. rewrite meta_find_update. by destruct (Z.eqb_spec tag ANDROID_SCALER_CROP_REGION).
Qed.

(** The crop region lies within the sensor array at its right and bottom. *)
Definition inside (w h : Z) (c : CropData) : Prop :=
  crop_width c <= w /\ crop_height c <= h /\ left c + crop_width c <= w /\ top c + crop_height c <= h.

Definition crop_small (c : CropData) : Prop :=
  Z.abs (left c) < 2 ^ 30 /\ Z.abs (top c) < 2 ^ 30 /\
  0 < crop_width c < 2 ^ 30 /\ 0 < crop_height c < 2 ^ 30.

(** The clamping of one axis: size, then position. *)
Definition clamp_size (w cw : Z) : Z := if w <? cw then w else cw.
Definition clamp_pos (w l cw : Z) : Z := if w <? i32 (l + clamp_size w cw) then w - clamp_size w cw else l.

Lemma clamp_target_eq w h c :
  clamp_target w h c =
    mkCrop (clamp_pos w (left c) (crop_width c)) (clamp_pos h (top c) (crop_height c))
           (clamp_size w (crop_width c)) (clamp_size h (crop_height c)).
Proof.
  destruct c as [l t cw ch]. unfold clamp_target, clamp_pos, clamp_size. cbv zeta.
  simpl. destruct (w <? cw); simpl; destruct (h <? ch); simpl.
  all: destruct (w <? i32 _); simpl; by destruct (h <? i32 _).
Qed.

Lemma clamp_axis w l cw :
  0 < w < 2 ^ 30 -> Z.abs l < 2 ^ 30 -> 0 < cw < 2 ^ 30 ->
  clamp_size w cw = Z.min cw w /\ clamp_pos w l cw = Z.min l (w - Z.min cw w).
Proof.
  intros Hw Hl Hc. assert (clamp_size w cw = Z.min cw w) as E.
  { unfold clamp_size. destruct (Z.ltb_spec w cw); lia. }
  split; [done|]. unfold clamp_pos. rewrite E, i32_small by (unfold is_i32, INT32_HALF; lia).
  destruct (Z.ltb_spec w (l + Z.min cw w)); lia.
Qed.

(** The target of a zoom: the requested region, shrunk to the size of
    the sensor array and moved left and up just enough to end inside it; a
    region that is inside already is kept, and none is moved out at the left
    or at the top. *)
Theorem clamp_target_inside (w h : Z) (c : CropData) :
  0 < w < 2 ^ 30 -> 0 < h < 2 ^ 30 -> crop_small c ->
  let t := clamp_target w h c in
  inside w h t /\ (inside w h c -> t = c) /\
  crop_width t = Z.min (crop_width c) w /\ crop_height t = Z.min (crop_height c) h /\
  left t = Z.min (left c) (w - crop_width t) /\ top t = Z.min (top c) (h - crop_height t) /\
  (0 <= left c -> 0 <= left t) /\ (0 <= top c -> 0 <= top t).
Proof.
  intros Hw Hh (Hl & Ht & Hcw & Hch). unfold inside. rewrite clamp_target_eq. simpl.
  destruct (clamp_axis w (left c) (crop_width c)) as [-> ->]; [lia..|].
  destruct (clamp_axis h (top c) (crop_height c)) as [-> ->]; [lia..|].
  split_and!; try lia. intros (? & ? & ? & ?). destruct c. simpl in *. f_equal; lia.
Qed.
End SmoothZoom.

(** ** A zoom on concrete metadata *)

Definition zoom_request (c : CropData) : CaptureRequest MetaMap :=
  mkRequest {[ANDROID_SCALER_CROP_REGION := crop_data c;
              ANDROID_SENSOR_INFO_ACTIVE_ARRAY_SIZE := [0; 0; 4000; 3000]]} [] zero_extras false.

(** After the first request and one that asks for the left upper quarter. *)
Definition zoom_started : Camera3SmoothZoom :=
  snd (updates [zoom_request (mkCrop 0 0 4000 3000); zoom_request (mkCrop 0 0 2000 1500)]
         (Enable (Camera3SmoothZoom_new f32_tenth))).

Lemma zoom_reaches_target_witness :
  zoom_steps_ zoom_started = 4 /\
  crop_current_ (snd (updates (repeat (zoom_request (mkCrop 9 9 9 9)) 5) zoom_started)) =
    mkCrop 0 0 2000 1500.
Proof.
  split; [vm_compute; reflexivity|].
  assert (zoom_steps_ zoom_started = Z.of_nat 4) as Hs by (vm_compute; reflexivity).
  assert (forall k, (k <= 4)%nat -> zoom_invalid (zoom_ticks k zoom_started) = false) as Hv.
  { intros k Hk. do 5 (destruct k as [|k]; [vm_compute; reflexivity|]). lia. }
  rewrite (proj1 (proj2 (zoom_reaches_target 4 (repeat (zoom_request (mkCrop 9 9 9 9)) 5) zoom_started
    ltac:(vm_compute; reflexivity) Hs eq_refl Hv))).
  vm_compute. reflexivity.
Defined.

Lemma Update_request_witness :
  meta_find ANDROID_SCALER_CROP_REGION
    (metadata (fst (Update (zoom_request (mkCrop 5 5 5 5)) zoom_started))) =
    Some (crop_data (crop_current_ (snd (Update (zoom_request (mkCrop 5 5 5 5)) zoom_started)))).
Proof.
  pose proof (Update_request (zoom_request (mkCrop 5 5 5 5)) zoom_started) as Hu.
  destruct (Update (zoom_request (mkCrop 5 5 5 5)) zoom_started) as [r' z']. cbn [fst snd].
  apply (proj1 (proj2 (proj2 Hu) ltac:(vm_compute; reflexivity) ltac:(vm_compute; reflexivity))).
Defined.

Lemma clamp_target_inside_witness :
  inside 4000 3000 (clamp_target 4000 3000 (mkCrop 3000 100 2000 5000)).
Proof.
  assert (crop_small (mkCrop 3000 100 2000 5000)) as Hc by (unfold crop_small; simpl; lia).
  exact (proj1 (clamp_target_inside 4000 3000 (mkCrop 3000 100 2000 5000) ltac:(lia) ltac:(lia) Hc)).
Defined.
