(* ===== verification/World.v ===== *)
(** * The objects of the camera adaptor

    The state of the request handler (qmmf_camera3_request_handler.h), of the
    prepare handler (qmmf_camera3_prepare_handler.h) and of the device client
    (qmmf_camera3_device_client.h), together with the streams they point to,
    the monitor, the allocator, the HAL, and the trace of the calls the
    adaptor makes into its client and into the HAL.

    A critical section of the code is one computation.  Where a method gives
    its mutex up to wait, the list [ws] it takes says what each wait returns
    and what the other threads did to the world meanwhile; a wait beyond the
    end of the list times out. *)

From S2P Require Import Prelude KeyedVector Monitor Memory Stream Adaptor Floats SmoothZoom.

(** [Camera3DeviceClient::State]. *)
Inductive State :=
  | STATE_ERROR
  | STATE_NOT_INITIALIZED
  | STATE_CLOSED
  | STATE_NOT_CONFIGURED
  | STATE_CONFIGURED
  | STATE_RUNNING.

#[export] Instance State_eq_dec : EqDecision State.
Proof. solve_decision. Defined.

Section World.
Context {D M H : Type}.

(** Calls into the client and into the HAL. *)
Inductive Event :=
  | EvError (code : CameraErrorCode) (extras : CaptureResultExtras)
  | EvIdle
  | EvShutter (extras : CaptureResultExtras) (timestamp : Z)
  | EvPrepared (streamId : Z)
  | EvResult (extras : CaptureResultExtras) (m : M)
  | EvBuffer (b : StreamBuffer)
  | EvInputReturned (b : StreamBuffer)
  | EvSubmitted (r : camera3_capture_request M).

Record Camera3RequestHandler := mkHandler {
  handler_ready : bool;  (** [mark_cb_] and [hal3_device_] are set *)
  rh_error_cb : bool;    (** [error_cb_] is not empty *)
  requests_ : list (CaptureRequest M);
  streaming_requests_ : list (CaptureRequest M);
  current_request_ : CaptureRequest M;
  old_request_ : CaptureRequest M;
  configuration_update_ : bool;
  toggle_pause_state_ : bool;
  paused_state_ : bool;
  current_frame_number_ : Z;
  current_input_frame_number_ : Z;
  streaming_last_frame_number_ : Z;
  rh_monitor_id_ : Z;
  rh_batch_size_ : Z;
  smooth_zoom_ : Camera3SmoothZoom;
  reproc_requests_ : list (CaptureRequest M);
  run_worker_ : bool
}.

#[export] Instance Camera3RequestHandler_settable : Settable Camera3RequestHandler :=
  {| eta_expand := fun r => mkHandler (handler_ready r) (rh_error_cb r) (requests_ r)
       (streaming_requests_ r) (current_request_ r) (old_request_ r) (configuration_update_ r)
       (toggle_pause_state_ r) (paused_state_ r) (current_frame_number_ r)
       (current_input_frame_number_ r) (streaming_last_frame_number_ r) (rh_monitor_id_ r)
       (rh_batch_size_ r) (smooth_zoom_ r) (reproc_requests_ r) (run_worker_ r) |}.

Record Camera3PrepareHandler := mkPrepareHandler {
  prepare_cb_ : bool;
  prepare_streams_ : list Z;
  prepare_running_ : bool;
  abort_prepare_ : bool;
  prepared_stream_ : Z  (** 0 for NULL *)
}.

#[export] Instance Camera3PrepareHandler_settable : Settable Camera3PrepareHandler :=
  {| eta_expand := fun p => mkPrepareHandler (prepare_cb_ p) (prepare_streams_ p)
       (prepare_running_ p) (abort_prepare_ p) (prepared_stream_ p) |}.

Record CameraClientCallbacks := mkCallbacks {
  errorCb : bool; idleCb : bool; shutterCb : bool; preparedCb : bool; resultCb : bool
}.

Record Camera3DeviceClient := mkClient {
  client_cb_ : CameraClientCallbacks;
  camera_id_ : Z;
  state_ : State;
  flush_on_going_ : bool;
  streams_ : kv Z;
  deleted_streams_ : list Z;
  next_stream_id_ : Z;
  reconfig_ : bool;
  request_templates_ : gmap Z M;
  camera_module_ : bool;   (** not NULL *)
  device_ : bool;          (** not NULL *)
  number_of_cameras_ : Z;
  device_info_ : M;
  alloc_device_interface_ : bool;  (** not NULL *)
  repeating_requests_ : list Z;
  next_request_id_ : Z;
  current_request_ids_ : list Z;
  frame_number_ : Z;
  next_shutter_frame_number_ : Z;
  next_shutter_input_frame_number_ : Z;
  partial_result_count_ : Z;
  is_partial_result_supported_ : bool;
  next_result_frame_number_ : Z;
  next_result_input_frame_number_ : Z;
  pause_state_notify_ : bool;
  current_state_updates_ : list State;
  state_listeners_ : Z;
  is_hfr_supported_ : bool;
  is_raw_only_ : bool;
  hfr_mode_enabled_ : bool;
  cam_feature_flags_ : Z;
  fps_sensormode_index_ : Z;
  frame_rate_range_ : Z * Z;
  input_stream_ : Camera3InputStream;
  dc_batch_size_ : Z;
  pending_requests_vector_ : kv (PendingRequest M);
  pending_error_requests_vector_ : kv (PendingRequest M)
}.

#[export] Instance Camera3DeviceClient_settable : Settable Camera3DeviceClient :=
  {| eta_expand := fun c => mkClient (client_cb_ c) (camera_id_ c) (state_ c) (flush_on_going_ c)
       (streams_ c) (deleted_streams_ c) (next_stream_id_ c) (reconfig_ c) (request_templates_ c)
       (camera_module_ c) (device_ c) (number_of_cameras_ c) (device_info_ c)
       (alloc_device_interface_ c) (repeating_requests_ c) (next_request_id_ c)
       (current_request_ids_ c) (frame_number_ c) (next_shutter_frame_number_ c)
       (next_shutter_input_frame_number_ c) (partial_result_count_ c)
       (is_partial_result_supported_ c) (next_result_frame_number_ c)
       (next_result_input_frame_number_ c) (pause_state_notify_ c) (current_state_updates_ c)
       (state_listeners_ c) (is_hfr_supported_ c) (is_raw_only_ c) (hfr_mode_enabled_ c)
       (cam_feature_flags_ c) (fps_sensormode_index_ c) (frame_rate_range_ c) (input_stream_ c)
       (dc_batch_size_ c) (pending_requests_vector_ c) (pending_error_requests_vector_ c) |}.

Definition Camera3PrepareHandler_new : Camera3PrepareHandler :=
  mkPrepareHandler false [] false false 0.

(** [ClearCaptureRequest]; [input] keeps its value. *)
Definition ClearCaptureRequest `{CameraMetadata M} (r : CaptureRequest M) : CaptureRequest M :=
  r <| streams := [] |> <| metadata := meta_empty |>
    <| resultExtras := zero_extras <| requestId := -1 |> |>.

(** A request as its members' constructors leave it; [resultExtras] and
    [input], which have none, are 0 here. *)
Definition CaptureRequest_new `{CameraMetadata M} : CaptureRequest M :=
  mkRequest meta_empty [] zero_extras false.

(** The constructor; [zoom] is the smooth zoom it contains. *)
Definition Camera3RequestHandler_new `{CameraMetadata M} (zoom : Camera3SmoothZoom)
    : Camera3RequestHandler :=
  mkHandler false false [] [] CaptureRequest_new (ClearCaptureRequest CaptureRequest_new)
    false false true 0 0 NO_IN_FLIGHT_REPEATING_FRAMES INVALID_ID 1 zoom [] false.

(** The constructor of the client; its prepare handler gets the client's
    callback.  [batch_size_], which it does not set, is 0 here. *)
Definition Camera3DeviceClient_new `{CameraMetadata M} (cb : CameraClientCallbacks)
    : Camera3DeviceClient :=
  mkClient cb 0 STATE_NOT_INITIALIZED false [] [] 0 false ∅ false false 0 meta_empty false
    [] 0 [] 0 0 0 0 false 0 0 false [] 0 false false false CamFeatureFlag_kNone 0 (0, 0)
    (mkInputStream 0 0 0 0 0 0 (-1) ∅ 0) 0 [] [].

(** The streams by their addresses, and everything else. *)
Record World := mkWorld {
  heap : gmap Z Camera3Stream;
  w_mon : Camera3Monitor;
  w_dev : D;
  hal : H;
  rh : Camera3RequestHandler;
  ph : Camera3PrepareHandler;
  dc : Camera3DeviceClient;
  events : list Event
}.

#[export] Instance World_settable : Settable World :=
  {| eta_expand := fun w => mkWorld (heap w) (w_mon w) (w_dev w) (hal w) (rh w) (ph w) (dc w)
       (events w) |}.

Definition emit (e : Event) : ST World unit :=
  modify (fun w => w <| events := events w ++ [e] |>).

(** A method of the stream at an address. *)
Definition on_stream {A} (p : Z) (f : SE D -> A * SE D) : ST World A := fun w =>
  match heap w !! p with
  | None => None
  | Some s =>
      let '(a, s') := f (mkSE s (w_mon w) (w_dev w)) in
      Some (a, w <| heap := <[p := st s']> (heap w) |> <| w_mon := mon s' |> <| w_dev := dev s' |>)
  end.

(** A field of the stream at an address. *)
Definition of_stream {A} (p : Z) (f : Camera3Stream -> A) : ST World A := fun w =>
  match heap w !! p with None => None | Some s => Some (f s, w) end.

Definition set_rh (f : Camera3RequestHandler -> Camera3RequestHandler) : ST World unit :=
  modify (fun w => w <| rh := f (rh w) |>).

Definition set_ph (f : Camera3PrepareHandler -> Camera3PrepareHandler) : ST World unit :=
  modify (fun w => w <| ph := f (ph w) |>).

Definition set_dc (f : Camera3DeviceClient -> Camera3DeviceClient) : ST World unit :=
  modify (fun w => w <| dc := f (dc w) |>).

Definition set_mon (f : Camera3Monitor -> Camera3Monitor) : ST World unit :=
  modify (fun w => w <| w_mon := f (w_mon w) |>).

Definition on_hal {A} (f : H -> A * H) : ST World A :=
  pure_step (fun w => let '(a, h) := f (hal w) in (a, w <| hal := h |>)).

(** [cond_wait_relative] with what the waits of the method will return. *)
Definition wait_cond (ws : list (World -> Z * World)) : ST World (Z * list (World -> Z * World)) :=
  match ws with
  | [] => ret (- ETIMEDOUT, [])
  | w :: ws' => pure_step (fun s => let '(r, s') := w s in ((r, ws'), s'))
  end.

Lemma wp_on_stream {A} p (f : SE D -> A * SE D) Q w :
  wp (on_stream p f) Q w <->
  exists s, heap w !! p = Some s /\
    let '(a, s') := f (mkSE s (w_mon w) (w_dev w)) in
    Q a (w <| heap := <[p := st s']> (heap w) |> <| w_mon := mon s' |> <| w_dev := dev s' |>).
Proof.
  unfold wp, on_stream. destruct (heap w !! p) as [s|].
  - destruct (f _) as [a s'] eqn:E. split; [intros HQ; exists s; by rewrite E|].
    intros (s0 & [= <-] & HQ). by rewrite E in HQ.
  - split; [done|]. by intros (? & ? & _).
Qed.

Lemma wp_of_stream {A} p (f : Camera3Stream -> A) Q w :
  wp (of_stream p f) Q w <-> exists s, heap w !! p = Some s /\ Q (f s) w.
Proof.
  unfold wp, of_stream. destruct (heap w !! p); split; try done.
  - intros HQ. by eexists.
  - by intros (? & [= <-] & ?).
  - by intros (? & ? & _).
Qed.

(** ** Well-formed pools of streams *)

Context `{AllocDevice D} `{!AllocDeviceLaws D}.

(** The stream at an address with the monitor and the allocator it calls. *)
Definition stream_at (w : World) (p : Z) (s : Camera3Stream) : Prop :=
  heap w !! p = Some s /\ se_wf (mkSE s (w_mon w) (w_dev w)).

Definition pool_wf (w : World) : Prop :=
  forall p s, heap w !! p = Some s -> se_wf (mkSE s (w_mon w) (w_dev w)).

Lemma se_wf_any_mon s m m' d : se_wf (mkSE s m d) -> se_wf (mkSE s m' d).
Proof. intros [Hs Ho]. by split. Qed.

Lemma se_wf_more_allocated s m m' d d' :
  se_wf (mkSE s m d) -> allocated d ⊆ allocated d' -> se_wf (mkSE s m' d').
Proof. intros [Hs Ho] Hd. split; [done|]. simpl in *. intros b Hb. by apply Hd, Ho. Qed.

(** A step of one stream that keeps its buffers keeps the pool. *)
Lemma pool_wf_insert w p s s' :
  pool_wf w -> heap w !! p = Some s ->
  kept (mkSE s (w_mon w) (w_dev w)) s' ->
  (forall b, b ∈ kv_keys (mem_alloc_buffers_ s) -> b ∈ kv_keys (mem_alloc_buffers_ (st s'))) ->
  pool_wf (w <| heap := <[p := st s']> (heap w) |> <| w_mon := mon s' |> <| w_dev := dev s' |>).
Proof.
  intros Hwf Hp [Hwf' Hf] Hg q t Hq. simpl in Hq.
  destruct (decide (q = p)) as [->|Hne].
  - rewrite lookup_insert_eq in Hq. injection Hq as <-. simpl. by destruct s'.
  - rewrite lookup_insert_ne in Hq by congruence.
    apply (se_wf_more_allocated t (w_mon w) (mon s') (w_dev w)); [by apply Hwf in Hq|].
    intros b Hb. unfold foreign in Hf. simpl in Hf.
    destruct (decide (b ∈ kv_keys (mem_alloc_buffers_ s))) as [Hin|Hnin].
    + apply (se_owned _ Hwf'). by apply Hg.
    + assert (b ∈ allocated (dev s') ∖ list_to_set (kv_keys (mem_alloc_buffers_ (st s')))) as Hx.
      { rewrite Hf. apply elem_of_difference. split; [done|]. by rewrite elem_of_list_to_set. }
      by apply elem_of_difference in Hx as [Hx _].
Qed.
End World.

Arguments Event : clear implicits.
Arguments Camera3RequestHandler : clear implicits.
Arguments Camera3DeviceClient : clear implicits.
Arguments World : clear implicits.

(** ** A concrete HAL

    Two cameras; a configuration asks for at least four buffers per stream;
    everything succeeds, and the calls are recorded. *)

Definition DemoHal : Type := list Z.

#[export] Instance demo_hal : CameraHal MetaMap DemoHal := {
  get_number_of_cameras h := 2;
  hal_module_init h := (0, h);
  get_camera_info idx h :=
    (0, {[ANDROID_SCALER_AVAILABLE_STREAM_CONFIGURATIONS := [0x21; 4000; 3000; 0];
          ANDROID_JPEG_MAX_SIZE := [6000000];
          ANDROID_REQUEST_PARTIAL_RESULT_COUNT := [2]]});
  hal_open idx h := (0, 1 :: h);
  hal_version h := 0x304;
  hal_initialize h := (0, h);
  hal_close h := 2 :: h;
  hal_configure_streams c h := (0, map (fun s => (fst s, 4)) (hal_streams c), 3 :: h);
  construct_default_request_settings t h := Some {[1 := [t]]};
  process_capture_request r h := (0, 4 :: h);
  hal_flush h := (0, 5 :: h)
}.

(** The build without [TARGET_USES_GBM]. *)
Definition plain_hal_usage : HalUsage := {| usage_to_hal u := u; usage_from_hal u := u |}.

Definition demo_callbacks : CameraClientCallbacks := mkCallbacks true true true true true.

(** A new client with the given streams, allocator and monitor. *)
Definition demo_world (streams : gmap Z Camera3Stream) (d : ListDevice) (m : Camera3Monitor)
    : World ListDevice MetaMap DemoHal :=
  mkWorld streams m d [] (Camera3RequestHandler_new (Camera3SmoothZoom_new f32_tenth))
    (Camera3PrepareHandler_new <| prepare_cb_ := true |>) (Camera3DeviceClient_new demo_callbacks) [].
