(* ===== verification/PrepareHandler.v ===== *)
(** * Camera3PrepareHandler: allocation of stream buffers ahead of time

    Models common/cameraadaptor/qmmf_camera3_prepare_handler.{h,cc}.  The
    client queues streams ([Prepare]) or cancels them ([Clear]); the thread
    takes one at a time and allocates one buffer per pass.  A pass gives the
    mutex up around [PrepareBuffer], so it is two steps, [ThreadLoop_pick]
    and [ThreadLoop_prepare], between which the client may run. *)

From S2P Require Import Prelude KeyedVector Monitor Memory Stream Adaptor Floats SmoothZoom World.

Section PrepareHandler.
Context {D M H : Type} `{AllocDevice D} `{AllocUsage} `{HalPlatform}.

Abbreviation ST' := (ST (World D M H)).

Definition prepare_cb (stream : Z) : ST' unit :=
  let* cb := gets (fun w => prepare_cb_ (ph w)) in
  if cb then let* i := of_stream stream id_ in emit (EvPrepared i) else ret tt.

(** [Prepare]; [run_res] is what starting the thread returns. *)
Definition Prepare (run_res stream : Z) : ST' Z :=
  if stream =? 0 then ret (- EINVAL)
  else
    let* res := on_stream stream BeginPrepare in
    if res =? 0 then
      do* prepare_cb stream in ret 0
    else if negb (res =? - ENODATA) then ret res
    else
      let* running := gets (fun w => prepare_running_ (ph w)) in
      if running then
        do* set_ph (fun p => p <| prepare_streams_ := prepare_streams_ p ++ [stream] |>) in ret 0
      else if negb (run_res =? OK) then
        do* prepare_cb stream in ret run_res
      else
        do* set_ph (fun p => p <| abort_prepare_ := false |> <| prepare_running_ := true |>
                               <| prepare_streams_ := prepare_streams_ p ++ [stream] |>) in
        ret 0.

Definition Clear : ST' Z :=
  let* queued := gets (fun w => prepare_streams_ (ph w)) in
  do* for_each queued (fun s => let* r := on_stream s EndPrepare in ret tt) in
  do* set_ph (fun p => p <| prepare_streams_ := [] |> <| abort_prepare_ := true |>) in
  ret 0.

(** First half of a pass: [Some r] when the pass ends with [r]. *)
Definition ThreadLoop_pick : ST' (option bool) :=
  let* p := gets ph in
  if prepared_stream_ p =? 0 then
    match prepare_streams_ p with
    | [] => do* set_ph (fun p => p <| prepare_running_ := false |>) in ret (Some false)
    | s :: rest =>
        do* set_ph (fun p => p <| prepared_stream_ := s |> <| prepare_streams_ := rest |>) in
        ret None
    end
  else if abort_prepare_ p then
    let* r := on_stream (prepared_stream_ p) EndPrepare in
    do* set_ph (fun p => p <| prepared_stream_ := 0 |> <| abort_prepare_ := false |>) in
    ret (Some true)
  else ret None.

(** Second half: one buffer, and the end of the preparation. *)
Definition ThreadLoop_prepare : ST' bool :=
  let* s := gets (fun w => prepared_stream_ (ph w)) in
  let* res := on_stream s PrepareBuffer in
  if res =? - ENODATA then ret true
  else
    do* (if negb (res =? 0) then let* r := on_stream s EndPrepare in ret tt else ret tt) in
    do* prepare_cb s in
    do* set_ph (fun p => p <| prepared_stream_ := 0 |>) in
    ret true.

Definition ThreadLoop : ST' bool :=
  let* r := ThreadLoop_pick in
  match r with Some b => ret b | None => ThreadLoop_prepare end.

(** The thread runs [ThreadLoop] as long as it returns [true]; [fuel] bounds
    the passes. *)
Fixpoint thread_run (fuel : nat) : ST' bool :=
  match fuel with
  | O => ret true
  | S n => let* more := ThreadLoop in if more then thread_run n else ret false
  end.

Definition Camera3PrepareHandler_delete : ST' unit :=
  let* s := gets (fun w => prepared_stream_ (ph w)) in
  do* (if s =? 0 then ret tt
       else do* (let* r := on_stream s EndPrepare in ret tt) in
            set_ph (fun p => p <| prepared_stream_ := 0 |>)) in
  let* r := Clear in ret tt.

(** ** Correctness *)

Context `{!AllocDeviceLaws D}.

(** What preparing the stream at [p] leaves of a world [w0]. *)
Record others_kept (p : Z) (w0 w : World D M H) : Prop := {
  ok_heap : forall q, q <> p -> heap w !! q = heap w0 !! q;
  ok_rh : rh w = rh w0;
  ok_dc : dc w = dc w0;
  ok_hal : hal w = hal w0
}.

(** [k] buffers are allocated, and the handler is at work on [p]. *)
Record at_work (p k : Z) (rest : list Z) (s0 : Camera3Stream) (w0 w : World D M H) : Prop := {
  aw_stream : exists s, stream_at w p s /\ status_ s = STATUS_PREPARE_ACTIVE /\
    prepared_buffers_count_ s = k /\ hw_buffer_allocated_ s = k /\
    total_buffer_count_ s = total_buffer_count_ s0 /\ in_use s = 0 /\ id_ s = id_ s0;
  aw_others : others_kept p w0 w;
  aw_events : events w = events w0;
  aw_ph : ph w = (ph w0) <| prepared_stream_ := p |> <| prepare_streams_ := rest |>
}.

(** The preparation of [p] is over. *)
Record prepared (p : Z) (rest : list Z) (s0 : Camera3Stream) (w0 w : World D M H) : Prop := {
  pd_stream : exists s, stream_at w p s /\ status_ s = STATUS_CONFIGURED /\ in_use s = 0 /\
    Z.of_nat (length (mem_alloc_buffers_ s)) = total_buffer_count_ s0 /\
    total_buffer_count_ s = total_buffer_count_ s0 /\ id_ s = id_ s0;
  pd_others : others_kept p w0 w;
  pd_events : events w = events w0 ++ (if prepare_cb_ (ph w0) then [EvPrepared (id_ s0)] else []);
  pd_ph : ph w = (ph w0) <| prepared_stream_ := 0 |> <| prepare_streams_ := rest |>
}.

Lemma pass_at_work p k rest s0 w0 w :
  never_fails (D := D) -> p <> 0 -> abort_prepare_ (ph w0) = false ->
  at_work p k rest s0 w0 w -> k < total_buffer_count_ s0 ->
  wp ThreadLoop (fun r w' => r = true /\
    if k + 1 <? total_buffer_count_ s0 then at_work p (k + 1) rest s0 w0 w'
    else prepared p rest s0 w0 w') w.
Proof.
  intros Hnf Hp Hab [(s & [Hs Hwf] & Hst & Hpc & Hhw & Htot & Hiu & Hid) Hok Hev Hph] Hlt.
  unfold ThreadLoop, ThreadLoop_pick, ThreadLoop_prepare, prepare_cb. rewrite !wp_bind, wp_gets, Hph. simpl.
  destruct (Z.eqb_spec p 0); [done|]. rewrite Hab, wp_ret, !wp_bind, wp_gets, Hph. simpl.
  rewrite !wp_bind, wp_on_stream. exists s. split; [done|].
  destruct (PrepareBuffer_step (mkSE s (w_mon w) (w_dev w)) Hnf Hwf Hst ltac:(simpl; lia) ltac:(simpl; lia))
    as (s1 & (Hwf1 & Eh1 & Eu1 & Et1) & Hstep). simpl in Eh1, Eu1, Et1, Hstep.
  pose proof (stream_step_identity (mkSE s (w_mon w) (w_dev w)) OpPrepareBuffer) as [Eid _].
  cbn [stream_step] in Eid. rewrite Hhw, Htot in Hstep. destruct Hok as [Hh Hr Hd Hl].
  assert (forall q, q <> p -> <[p := st s1]> (heap w) !! q = heap w0 !! q) as Hh'.
  { intros q Hq. rewrite lookup_insert_ne by congruence. auto. }
  destruct (k + 1 <? total_buffer_count_ s0) eqn:E; destruct Hstep as [Es Hst1]; rewrite Es in *; simpl in *.
  - split; [done|]. destruct Hst1 as [Hst1 Hpc1]. constructor; simpl; try done.
    exists (st s1). split_and!; try done; try lia; try congruence.
    split; simpl; [by rewrite lookup_insert_eq|]. by destruct s1.
  - rewrite !wp_bind, wp_ret, !wp_bind, wp_gets. simpl. rewrite Hph. simpl.
    bool_hyps. assert (holds_buffers (status_ (st s1)) = true) as Hhb by (by rewrite Hst1).
    pose proof (keys_count _ (wf_slots _ (se_stream _ Hwf1) Hhb)) as Hkc.
    assert (exists s, stream_at (w <| heap := <[p := st s1]> (heap w) |> <| w_mon := mon s1 |> <| w_dev := dev s1 |>) p s /\
      status_ s = STATUS_CONFIGURED /\ in_use s = 0 /\
      Z.of_nat (length (mem_alloc_buffers_ s)) = total_buffer_count_ s0 /\
      total_buffer_count_ s = total_buffer_count_ s0 /\ id_ s = id_ s0) as Hpd.
    { exists (st s1). split_and!; try done; try lia; try congruence.
      split; simpl; [by rewrite lookup_insert_eq|]. by destruct s1. }
    destruct (prepare_cb_ (ph w0)) eqn:Ecb.
    + rewrite !wp_bind, wp_of_stream. simpl. exists (st s1). split; [by rewrite lookup_insert_eq|].
      unfold emit, set_ph. rewrite !wp_modify, !wp_bind, wp_modify, wp_ret. simpl. split; [done|].
      constructor; simpl; [exact Hpd|done| |].
      * rewrite Hev, Ecb. congruence.
      * by rewrite ?Hph, ?Ecb.
    + unfold set_ph. rewrite wp_ret, !wp_bind, wp_modify, wp_ret. simpl. split; [done|].
      constructor; simpl; [exact Hpd|done| |].
      * by rewrite Hev, Ecb, app_nil_r.
      * by rewrite ?Hph, ?Ecb.
Qed.

Lemma wp_thread_run_more n Q w :
  wp ThreadLoop (fun r w' => r = true /\ wp (thread_run n) Q w') w -> wp (thread_run (S n)) Q w.
Proof.
  intros Hw. cbn [thread_run]. apply wp_bind. eapply wp_mono; [exact Hw|].
  by intros r w' [-> Hr].
Qed.

Lemma thread_run_at_work (n : nat) : forall p k rest s0 w0 w fuel Q,
  never_fails (D := D) -> p <> 0 -> abort_prepare_ (ph w0) = false ->
  at_work p k rest s0 w0 w -> total_buffer_count_ s0 = k + 1 + Z.of_nat n ->
  (forall w', prepared p rest s0 w0 w' -> wp (thread_run fuel) Q w') ->
  wp (thread_run (S n + fuel)) Q w.
Proof.
  induction n as [|n IH]; intros p k rest s0 w0 w fuel Q Hnf Hp Hab Haw Ht HQ;
    apply wp_thread_run_more; (eapply wp_mono; [apply (pass_at_work p k rest s0 w0); auto; lia|]);
    intros r w' [-> Hr]; (split; [done|]).
  - assert ((k + 1 <? total_buffer_count_ s0) = false) as E by (apply Z.ltb_ge; lia).
    rewrite E in Hr. by apply HQ.
  - assert ((k + 1 <? total_buffer_count_ s0) = true) as E by (apply Z.ltb_lt; lia).
    rewrite E in Hr. apply (IH p (k + 1) rest s0 w0); auto; lia.
Qed.

(** A stream [Prepare] has queued: nothing allocated yet. *)
Definition queued (w : World D M H) (p : Z) (s : Camera3Stream) : Prop :=
  stream_at w p s /\ status_ s = STATUS_PREPARE_ACTIVE /\ prepared_buffers_count_ s = 0 /\
  hw_buffer_allocated_ s = 0 /\ in_use s = 0 /\ 0 < total_buffer_count_ s.

Lemma ThreadLoop_pick_queued p rest w Q :
  p <> 0 -> prepared_stream_ (ph w) = 0 -> prepare_streams_ (ph w) = p :: rest ->
  abort_prepare_ (ph w) = false ->
  wp ThreadLoop Q (w <| ph := (ph w) <| prepared_stream_ := p |> <| prepare_streams_ := rest |> |>) ->
  wp ThreadLoop Q w.
Proof.
  intros Hp H0' Hq Hab Hw. unfold ThreadLoop, ThreadLoop_pick, wp, bind, gets, set_ph, modify, ret in *.
  rewrite H0', Hq. simpl in *. destruct (Z.eqb_spec p 0); [done|].
  by rewrite Hab in *.
Qed.

Lemma queued_keys w p s : queued w p s -> mem_alloc_buffers_ s = [].
Proof.
  intros ([_ Hwf] & Hst & _ & Hhw & _).
  assert (holds_buffers (status_ s) = true) as Hh by (by rewrite Hst).
  pose proof (keys_count _ (wf_slots _ (se_stream _ Hwf) Hh)) as Hk. simpl in Hk.
  destruct (mem_alloc_buffers_ s); [done|simpl in Hk; lia].
Qed.

Lemma queued_at_work w p s rest :
  queued w p s ->
  at_work p 0 rest s w (w <| ph := (ph w) <| prepared_stream_ := p |> <| prepare_streams_ := rest |> |>).
Proof. intros ([Hs Hwf] & Hst & Hp & Hhw & Hu & Ht). constructor; try done. by exists s. Qed.

Lemma queued_kept w w' p s : queued w p s -> heap w' !! p = heap w !! p -> queued w' p s.
Proof.
  intros Hq Hh. pose proof (queued_keys w p s Hq) as Hk. destruct Hq as ([Hs Hwf] & Hr).
  split; [|done]. split; [congruence|]. destruct Hwf as [Hst _]. split; [done|]. simpl in *.
  rewrite Hk. intros b Hb. by apply not_elem_of_nil in Hb.
Qed.

Definition fully_prepared (w : World D M H) (p : Z) (s0 : Camera3Stream) : Prop :=
  exists s, heap w !! p = Some s /\ status_ s = STATUS_CONFIGURED /\ in_use s = 0 /\
    Z.of_nat (length (mem_alloc_buffers_ s)) = total_buffer_count_ s0.

Definition total_of (ps : list (Z * Camera3Stream)) : nat :=
  fold_right (fun q n => (Z.to_nat (total_buffer_count_ (snd q)) + n)%nat) O ps.

(** The thread allocates every buffer of every queued stream, one per
    pass, reports each stream once to the client in the order of the queue,
    and ends: for streams with [n] buffers in all, [n + 1] passes. *)
Theorem thread_prepares_queue (ps : list (Z * Camera3Stream)) : forall (w : World D M H),
  never_fails (D := D) ->
  prepared_stream_ (ph w) = 0 -> abort_prepare_ (ph w) = false -> prepare_cb_ (ph w) = true ->
  prepare_streams_ (ph w) = map fst ps -> NoDup (map fst ps) ->
  Forall (fun q => fst q <> 0 /\ queued w (fst q) (snd q)) ps ->
  wp (thread_run (total_of ps + 1)) (fun more w' =>
    more = false /\ prepare_running_ (ph w') = false /\
    events w' = events w ++ map (fun q => EvPrepared (id_ (snd q))) ps /\
    Forall (fun q => fully_prepared w' (fst q) (snd q)) ps /\
    (forall p, p ∉ map fst ps -> heap w' !! p = heap w !! p)) w.
Proof.
  induction ps as [|[p s] ps IH]; intros w Hnf H0' Hab Hcb Hq Hnd Hall; cbn [map fst snd total_of fold_right] in *.
  - cbn. unfold wp, ThreadLoop, ThreadLoop_pick, bind, gets. rewrite H0', Hq. simpl.
    split_and!; try done. by rewrite app_nil_r.
  - apply NoDup_cons in Hnd as [Hnin Hnd].
    apply Forall_cons in Hall as [[Hp Hqp] Hall]. simpl in Hp, Hqp.
    pose proof Hqp as (_ & _ & _ & _ & _ & Htot).
    destruct (Z.to_nat (total_buffer_count_ s)) as [|n] eqn:En; [lia|].
    fold (total_of ps). rewrite <- Nat.add_assoc. apply wp_thread_run_more.
    apply (ThreadLoop_pick_queued p (map fst ps)); [done..|].
    set (w1 := w <| ph := _ |>).
    eapply wp_mono; [apply (pass_at_work p 0 (map fst ps) s w w1 Hnf Hp Hab (queued_at_work w p s _ Hqp) Htot)|].
    intros r w2 [-> Hr]. split; [done|].
    assert (forall w', prepared p (map fst ps) s w w' ->
      wp (thread_run (total_of ps + 1)) (fun more w'' =>
        more = false /\ prepare_running_ (ph w'') = false /\
        events w'' = events w ++ EvPrepared (id_ s) :: map (fun q => EvPrepared (id_ (snd q))) ps /\
        Forall (fun q => fully_prepared w'' (fst q) (snd q)) ((p, s) :: ps) /\
        (forall q, q ∉ p :: map fst ps -> heap w'' !! q = heap w !! q)) w') as Hend.
    { intros w' [(s' & [Hs' _] & Hst' & Hu' & Hl' & _) [Hok _ _ _] Hev Hph]. rewrite Hcb in Hev.
      eapply wp_mono; [apply (IH w')|]; auto; rewrite ?Hph; try done.
      - apply Forall_forall. intros q Hin. rewrite Forall_forall in Hall. destruct (Hall q Hin) as [Hq0 Hqq].
        split; [done|]. apply (queued_kept w w'); [done|]. apply Hok. intros Eqp. rewrite <- Eqp in Hnin.
        apply Hnin. apply list_elem_of_In, in_map. by apply list_elem_of_In.
      - intros more w'' (-> & Hrun & Hev' & Hfp & Hrest). split_and!; try done.
        + by rewrite Hev', Hev, <- app_assoc.
        + constructor; [|done]. simpl. exists s'. by rewrite (Hrest p Hnin).
        + intros q Hq'. apply not_elem_of_cons in Hq' as [Hne Hnin']. by rewrite Hrest, Hok. }
    destruct (0 + 1 <? total_buffer_count_ s) eqn:E; bool_hyps.
    + destruct n as [|n]; [lia|].
      apply (thread_run_at_work n p (0 + 1) (map fst ps) s w w2 (total_of ps + 1)); auto; lia.
    + destruct n as [|n]; [by apply Hend|lia].
Qed.

(** A cancelled preparation leaks into the next one: [Clear] with no
    stream at work leaves [abort_prepare_] set, a stream queued while the
    thread runs is then dropped after its first buffer, back to configured,
    and the client never hears of it. *)
Theorem stale_abort_drops_next (w : World D M H) (p run_res : Z) (s : Camera3Stream) :
  never_fails (D := D) -> p <> 0 ->
  prepared_stream_ (ph w) = 0 -> prepare_streams_ (ph w) = [] -> prepare_running_ (ph w) = true ->
  stream_at w p s -> status_ s = STATUS_CONFIGURED -> is_stream_active_ s = false ->
  hw_buffer_allocated_ s = 0 -> 1 < total_buffer_count_ s ->
  wp (let* _c := Clear in
      let* r := Prepare run_res p in
      let* _l1 := ThreadLoop in
      let* _l2 := ThreadLoop in ret r)
    (fun r w' => r = 0 /\ prepared_stream_ (ph w') = 0 /\ prepare_streams_ (ph w') = [] /\
       events w' = events w /\
       exists s', heap w' !! p = Some s' /\ status_ s' = STATUS_CONFIGURED /\
         Z.of_nat (length (mem_alloc_buffers_ s')) = 1) w.
Proof.
  intros Hnf Hp H0' Hq Hrun [Hs Hwf] Hst Hac Hhw Ht.
  assert (holds_buffers (status_ s) = true) as Hh by (by rewrite Hst).
  pose proof (wf_slots _ (se_stream _ Hwf) Hh) as Hsl. pose proof (in_use_bound _ Hsl) as Hib.
  pose proof (wf_pending _ (se_stream _ Hwf)) as Hpend. simpl in Hsl, Hib, Hpend. assert (pending_buffer_count_ s = 0) as Hpc by lia.
  set (s1 := s <| prepared_buffers_count_ := 0 |> <| status_ := STATUS_PREPARE_ACTIVE |>).
  assert (BeginPrepare (mkSE s (w_mon w) (w_dev w)) = (- ENODATA, mkSE s1 (w_mon w) (w_dev w))) as Eb.
  { unfold BeginPrepare, s1. simpl. by rewrite Hst, Hac, Hpc. }
  pose proof (BeginPrepare_kept (mkSE s (w_mon w) (w_dev w)) Hwf) as [Hwf1 _]. rewrite Eb in Hwf1.
  destruct (PrepareBuffer_step (mkSE s1 (w_mon w) (w_dev w)) Hnf Hwf1 eq_refl ltac:(simpl; lia) ltac:(simpl; lia))
    as (s2 & (Hwf2 & Eh2 & _ & Et2) & Hstep). simpl in Eh2, Et2, Hstep.
  rewrite Hhw in Hstep. assert ((0 + 1 <? total_buffer_count_ s) = true) as E by (apply Z.ltb_lt; lia).
  rewrite E in Hstep. destruct Hstep as (Es2 & Hst2 & Hpc2).
  assert (holds_buffers (status_ (st s2)) = true) as Hh2 by (by rewrite Hst2).
  pose proof (keys_count _ (wf_slots _ (se_stream _ Hwf2) Hh2)) as Hk2.
  unfold Clear, Prepare, ThreadLoop, ThreadLoop_pick, ThreadLoop_prepare, set_ph, wp, bind, gets,
    modify, ret, on_stream, for_each.
  destruct (Z.eqb_spec p 0); [done|]. rewrite Hq. simpl. rewrite Hs, Eb. simpl. rewrite Hrun. simpl.
  rewrite H0'. simpl. rewrite lookup_insert_eq. rewrite Es2. simpl.
  destruct (Z.eqb_spec p 0); [done|]. simpl. rewrite lookup_insert_eq.
  unfold EndPrepare, EndPrepareLocked. simpl. rewrite Hst2. simpl.
  split_and!; try done. eexists. rewrite lookup_insert_eq. split; [done|]. simpl. by rewrite Hk2, Eh2, Hhw.
Qed.
End PrepareHandler.

(** ** On the concrete HAL *)

Definition demo_preparing : SE ListDevice :=
  stream_run demo_new [OpBeginConfigure; OpEndConfigure; OpBeginPrepare].

Lemma demo_preparing_wf : se_wf demo_preparing.
Proof. by apply demo_wf. Qed.

Definition demo_prepare_world (queue : list Z) (s : SE ListDevice) : World ListDevice MetaMap DemoHal :=
  let w := demo_world {[0x1000 := st s]} (dev s) (mon s) in
  w <| ph := (ph w) <| prepare_streams_ := queue |> <| prepare_running_ := true |> |>.

Lemma demo_stream_at queue s : se_wf s -> stream_at (demo_prepare_world queue s) 0x1000 (st s).
Proof. intros Hwf. split; [apply lookup_singleton_eq|]. by destruct s. Qed.

Lemma thread_prepares_queue_witness :
  exists w', thread_run 4 (demo_prepare_world [0x1000] demo_preparing) = Some (false, w') /\
    events w' = [EvPrepared 5].
Proof.
  assert (queued (demo_prepare_world [0x1000] demo_preparing) 0x1000 (st demo_preparing)) as Hq.
  { split; [exact (demo_stream_at [0x1000] demo_preparing demo_preparing_wf)|]. split_and!; reflexivity. }
  assert (Forall (fun q => fst q <> 0 /\ queued (demo_prepare_world [0x1000] demo_preparing) (fst q) (snd q))
            [(0x1000, st demo_preparing)]) as Hall by (apply Forall_singleton; split; [done|exact Hq]).
  pose proof (thread_prepares_queue [(0x1000, st demo_preparing)]
    (demo_prepare_world [0x1000] demo_preparing) list_device_never_fails eq_refl eq_refl eq_refl eq_refl
    (NoDup_singleton 0x1000) Hall) as Hw.
  change (total_of [(0x1000%Z, st demo_preparing)] + 1)%nat with 4%nat in Hw.
  unfold wp in Hw. destruct (thread_run 4 _) as [[more w']|]; [|done].
  destruct Hw as (-> & _ & Hev & _). by exists w'.
Defined.

Lemma stale_abort_drops_next_witness :
  exists r w', (let* _c := Clear in
      let* r := Prepare 0 0x1000 in
      let* _l1 := ThreadLoop in
      let* _l2 := ThreadLoop in ret r) (demo_prepare_world [] demo_configured) = Some (r, w') /\
    r = 0 /\ events w' = [].
Proof.
  assert (stream_at (demo_prepare_world [] demo_configured) 0x1000 (st demo_configured)) as Hs.
  { exact (demo_stream_at [] demo_configured demo_configured_wf). }
  pose proof (stale_abort_drops_next (demo_prepare_world [] demo_configured) 0x1000 0 (st demo_configured)
    list_device_never_fails ltac:(done) eq_refl eq_refl eq_refl Hs eq_refl eq_refl eq_refl
    ltac:(reflexivity)) as Hw.
  unfold wp in Hw. match type of Hw with match ?x with _ => _ end => destruct x as [[r w']|] end; [|done].
  destruct Hw as (-> & _ & _ & Hev & _). by exists 0, w'.
Defined.
