(* ===== verification/RequestHandler.v ===== *)
(** * Camera3RequestHandler: the queue of capture requests

    Models common/cameraadaptor/qmmf_camera3_request_handler.{h,cc}.  The
    client queues single requests, repeating requests and reprocess requests;
    the handler thread numbers them, gets their output buffers, registers
    them with the client and hands them to the HAL.  The client's side of the
    registration and of fatal errors is the interface [HandlerCallbacks].

    [SubmitRequest] holds no lock around its calls: what other threads and
    the HAL's callbacks do in between is an argument ([Gaps]). *)

From S2P Require Import Prelude KeyedVector Monitor Memory Stream Adaptor Floats SmoothZoom World.

(** [mark_cb_] (frame number, number of buffers, extras) and [set_error_]. *)
Class HandlerCallbacks (D M H : Type) := {
  mark_cb_ : Z -> Z -> CaptureResultExtras -> ST (World D M H) Z;
  set_error_ : ST (World D M H) unit
}.

Section RequestHandler.
Context {D M H : Type} `{AllocDevice D} `{AllocUsage} `{HalPlatform} `{CameraMetadata M}
  `{MetadataTags} `{CameraHal M H} {HU : HalUsage}.

Abbreviation W := (World D M H).

(** [error_cb_], when it is set. *)
Definition error_cb (e : CaptureResultExtras) : ST W unit :=
  let* cb := gets (fun w => rh_error_cb (rh w)) in
  if cb then emit (EvError ERROR_CAMERA_REQUEST e) else ret tt.

Definition Initialize (has_error_cb : bool) : ST W Z :=
  do* set_rh (fun r => r <| handler_ready := true |> <| rh_error_cb := has_error_cb |>) in
  let* i := pure_step (fun w => let '(i, m) := AcquireMonitor (w_mon w) in (i, w <| w_mon := m |>)) in
  do* set_rh (fun r => r <| rh_monitor_id_ := i |> <| smooth_zoom_ := Enable (smooth_zoom_ r) |>) in
  ret i.

Definition FinishConfiguration (batch_size : Z) : ST W unit :=
  set_rh (fun r => r <| configuration_update_ := true |> <| rh_batch_size_ := batch_size |>).

Definition monitor_active : ST W unit :=
  let* i := gets (fun w => rh_monitor_id_ (rh w)) in set_mon (ChangeStateToActive i).

Definition monitor_idle : ST W unit :=
  let* i := gets (fun w => rh_monitor_id_ (rh w)) in set_mon (ChangeStateToIdle i).

Definition Resume : ST W unit :=
  let* paused := gets (fun w => toggle_pause_state_ (rh w)) in
  if paused then ret tt
  else do* monitor_active in set_rh (fun r => r <| paused_state_ := false |>).

(** The queueing methods return their code and [*lastFrameNumber]. *)
Definition QueueRequestList (requests : list (CaptureRequest M)) : ST W (Z * Z) :=
  do* set_rh (fun r => r <| requests_ := requests_ r ++ requests |>) in
  let* last := gets (fun w => current_frame_number_ (rh w) + Z.of_nat (length (requests_ (rh w))) - 1) in
  do* Resume in
  ret (0, last).

(** [thread_ok]: the worker thread can be created when it is not running. *)
Definition QueueReprocRequestList (thread_ok : bool) (requests : list (CaptureRequest M)) : ST W (Z * Z) :=
  let* running := gets (fun w => run_worker_ (rh w)) in
  if negb running && negb thread_ok then ret (- EINTR, 0)
  else
    do* set_rh (fun r => r <| run_worker_ := true |>
                           <| reproc_requests_ := reproc_requests_ r ++ requests |>) in
    let* last := gets (fun w =>
      current_frame_number_ (rh w) + Z.of_nat (length (reproc_requests_ (rh w))) - 1) in
    do* Resume in
    ret (0, last).

Definition SetRepeatingRequests (requests : list (CaptureRequest M)) : ST W (Z * Z) :=
  let* last := gets (fun w => streaming_last_frame_number_ (rh w)) in
  do* set_rh (fun r => r <| streaming_requests_ := requests |>) in
  do* Resume in
  do* set_rh (fun r => r <| streaming_last_frame_number_ := NO_IN_FLIGHT_REPEATING_FRAMES |>) in
  ret (0, last).

Definition ClearRepeatingRequests : ST W (Z * Z) :=
  let* last := gets (fun w => streaming_last_frame_number_ (rh w)) in
  do* set_rh (fun r => r <| streaming_requests_ := [] |>
                         <| streaming_last_frame_number_ := NO_IN_FLIGHT_REPEATING_FRAMES |>) in
  ret (0, last).

(** [Clear]: the queued requests are reported as failed, each with a frame
    number of its own; an in-flight request is waited for. *)
Definition Clear (ws : list (W -> Z * W)) : ST W (Z * Z) :=
  do* set_rh (fun r => r <| streaming_requests_ := [] |>) in
  let* cb := gets (fun w => rh_error_cb (rh w)) in
  let* queued := gets (fun w => requests_ (rh w)) in
  do* (if cb then
         for_each queued (fun q =>
           let* n := gets (fun w => current_frame_number_ (rh w)) in
           do* set_rh (fun r => r <| current_frame_number_ := u32 (n + 1) |>) in
           emit (EvError ERROR_CAMERA_REQUEST ((resultExtras q) <| frameNumber := n |>)))
       else ret tt) in
  let* last := gets (fun w => streaming_last_frame_number_ (rh w)) in
  do* set_rh (fun r => r <| requests_ := [] |>
                         <| streaming_last_frame_number_ := NO_IN_FLIGHT_REPEATING_FRAMES |>) in
  let* current := gets (fun w => requestId (resultExtras (current_request_ (rh w)))) in
  if current =? -1 then ret (0, last)
  else let* r := wait_cond ws in ret (fst r, last).

(** [TogglePause]; the result is [pending_request]. *)
Definition TogglePause (pause : bool) : ST W bool :=
  let* pending := gets (fun w =>
    match requests_ (rh w), streaming_requests_ (rh w) with [], [] => false | _, _ => true end) in
  do* set_rh (fun r => r <| toggle_pause_state_ := pause |>) in
  ret pending.

(** ** The handler thread *)

(** The handler goes idle. *)
Definition pause_idle : ST W unit :=
  let* paused := gets (fun w => paused_state_ (rh w)) in
  if paused then ret tt
  else do* set_rh (fun r => r <| paused_state_ := true |>) in monitor_idle.

(** A round of the repeating requests: the first is taken, the others are
    queued.  [Update] works on the repeating requests themselves. *)
Fixpoint update_all (rs : list (CaptureRequest M)) (z : Camera3SmoothZoom)
    : list (CaptureRequest M) * Camera3SmoothZoom :=
  match rs with
  | [] => ([], z)
  | r :: rs' =>
      let '(r', z1) := Update r z in
      let '(out, z2) := update_all rs' z1 in (r' :: out, z2)
  end.

Definition next_repeating (first : CaptureRequest M) (rest : list (CaptureRequest M)) : ST W (CaptureRequest M) :=
  pure_step (fun w =>
    let '(updated, z) := update_all (first :: rest) (smooth_zoom_ (rh w)) in
    let n := current_frame_number_ (rh w) in
    let next := hd first updated in
    (next <| resultExtras := (resultExtras next) <| frameNumber := n |> |>,
     w <| rh := (rh w) <| smooth_zoom_ := z |> <| streaming_requests_ := updated |>
          <| requests_ := requests_ (rh w) ++ tl updated |>
          <| streaming_last_frame_number_ := n + Z.of_nat (length updated) - 1 |>
          <| current_frame_number_ := u32 (n + 1) |> |>)).

(** The waiting loop of [GetRequest]: [Some] request of a repeating round,
    [None] when [requests_] has one, or the code of a time out. *)
Fixpoint get_wait (exit_pending : bool) (ws : list (W -> Z * W)) : ST W (Z * option (CaptureRequest M)) :=
  let* queued := gets (fun w => requests_ (rh w)) in
  let* streaming := gets (fun w => streaming_requests_ (rh w)) in
  match queued, streaming with
  | _ :: _, _ => ret (0, None)
  | [], first :: rest => let* next := next_repeating first rest in ret (0, Some next)
  | [], [] =>
      match ws with
      | [] => do* pause_idle in ret (- ETIMEDOUT, None)
      | w :: ws' =>
          do* pure_step w in
          let* none := gets (fun w =>
            match requests_ (rh w), streaming_requests_ (rh w) with [], [] => true | _, _ => false end) in
          if none || exit_pending then do* pause_idle in ret (- ETIMEDOUT, None)
          else get_wait exit_pending ws'
      end
  end.

(** The first request with an input stream, and the others. *)
Fixpoint take_reproc (rs : list (CaptureRequest M)) : option (CaptureRequest M * list (CaptureRequest M)) :=
  match rs with
  | [] => None
  | r :: rs' =>
      if rq_input r then Some (r, rs')
      else match take_reproc rs' with Some (x, rest) => Some (x, r :: rest) | None => None end
  end.

(** The choice among the queued requests. *)
Definition take_queued : ST W (CaptureRequest M) := fun w =>
  match take_reproc (requests_ (rh w)) with
  | Some (r, rest) =>
      let n := current_input_frame_number_ (rh w) in
      Some (r <| resultExtras := (resultExtras r) <| frameNumber := n |> |>,
            w <| rh := (rh w) <| requests_ := rest |> <| current_input_frame_number_ := u32 (n + 1) |> |>)
  | None =>
      match requests_ (rh w) with
      | [] => None
      | r :: rest =>
          let n := current_frame_number_ (rh w) in
          Some (r <| resultExtras := (resultExtras r) <| frameNumber := n |> |>,
                w <| rh := (rh w) <| requests_ := rest |> <| current_frame_number_ := u32 (n + 1) |> |>)
      end
  end.

(** The end of [GetRequest]: the handler is active, and a new configuration
    forgets the settings the HAL was given last. *)
Definition start_request (next : CaptureRequest M) : ST W unit :=
  let* paused := gets (fun w => paused_state_ (rh w)) in
  do* (if paused then monitor_active else ret tt) in
  do* set_rh (fun r => r <| paused_state_ := false |>) in
  do* set_rh (fun r => if configuration_update_ r
                       then r <| old_request_ := ClearCaptureRequest (old_request_ r) |>
                              <| configuration_update_ := false |>
                       else r) in
  set_rh (fun r => r <| current_request_ := next |>).

Definition GetRequest (exit_pending : bool) (ws : list (W -> Z * W)) : ST W (Z * option (CaptureRequest M)) :=
  let* r := get_wait exit_pending ws in
  if negb (fst r =? 0) then ret r
  else
    let* next := (match snd r with Some next => ret next | None => take_queued end) in
    do* start_request next in
    ret (0, Some next).

(** [SignalError]. *)
Definition SignalError `{!HandlerCallbacks D M H} : ST W unit :=
  let* ready := gets (fun w => handler_ready (rh w)) in
  if ready then set_error_ else ret tt.

(** [streams[i]->buffers_map[...]], erased. *)
Definition forget_buffer (native : Z) (s : SE D) : Z * SE D :=
  (default 0 (buffers_map (st s) !! native),
   s <| st := (st s) <| buffers_map := delete native (buffers_map (st s)) |> |>).

(** A [StreamBuffer] of which only the handle is filled in. *)
Definition handle_only (h : Z) : StreamBuffer := mkStreamBuffer None 0 0 0 0 h 0 0 (Some 0).

Fixpoint return_all (out : list camera3_stream_buffer) (ss : list Z) : ST W unit :=
  match out, ss with
  | b :: out', s :: ss' =>
      let* h := on_stream s (forget_buffer (hb_buffer b)) in
      do* (let* r := on_stream s (ReturnBuffer (handle_only h)) in ret tt) in
      return_all out' ss'
  | [], _ => ret tt
  | _, [] => undefined
  end.

Definition clear_current : ST W unit :=
  set_rh (fun r => r <| current_request_ := ClearCaptureRequest (current_request_ r) |>).

(** [HandleErrorRequest]; [out] are the buffers got so far. *)
Definition HandleErrorRequest (next : CaptureRequest M) (out : list camera3_stream_buffer) : ST W unit :=
  do* return_all out (streams next) in clear_current.

(** [SubmitRequest] holds no lock from one call to the next: what the other
    threads do before it takes the buffer of each stream, before it registers
    the request, before it calls the HAL, while it is in the HAL, which may
    call back at once, before it gives up and before it is done. *)
Record Gaps := mkGaps {
  g_streams : list (W -> W); g_mark : W -> W; g_send : W -> W; g_hal : W -> W; g_error : W -> W; g_end : W -> W
}.

(** The other threads do nothing. *)
Definition no_gaps : Gaps := mkGaps [] id id id id id.

Definition gaps_list (g : Gaps) : list (W -> W) := g_mark g :: g_send g :: g_hal g :: g_error g :: g_end g :: g_streams g.

Definition gap (f : W -> W) : ST W unit := modify f.

(** The loop of [SubmitRequest] over the streams: a code and the buffers got. *)
Fixpoint get_buffers (bw : Z -> SE D -> Z * SE D) (gs : list (W -> W)) (ss : list Z) (out : list camera3_stream_buffer)
    : ST W (Z * list camera3_stream_buffer) :=
  match ss with
  | [] => ret (0, out)
  | s :: ss' =>
      do* gap (hd id gs) in
      let* rb := on_stream s (fun x => let '(r, b, x') := GetBuffer (bw s) x in ((r, b), x')) in
      match rb with
      | (r, Some b) => if r =? 0 then get_buffers bw (tl gs) ss' (out ++ [b]) else ret (r, out)
      | (r, None) => ret (r, out)
      end
  end.

Definition set_usage (f : Z -> Z) (s : SE D) : unit * SE D :=
  (tt, s <| st := (st s) <| usage := f (usage (st s)) |> |>).

(** [hal3_device_->ops->process_capture_request]: the HAL takes the request,
    and its callbacks may run before it returns. *)
Definition hal_submit (during : W -> W) (hr : camera3_capture_request M) : ST W Z :=
  do* emit (EvSubmitted hr) in
  let* res := on_hal (process_capture_request hr) in
  do* gap during in ret res.

(** [SubmitRequest]; [bw] is what waiting for a buffer of a stream does, [g]
    what the other threads do meanwhile. *)
Definition SubmitRequest `{!HandlerCallbacks D M H} (bw : Z -> SE D -> Z * SE D) (g : Gaps)
    (request : CaptureRequest M) (in_buf : option camera3_stream_buffer) : ST W Z :=
  let* old := gets (fun w => requestId (resultExtras (old_request_ (rh w)))) in
  let* going := gets (fun w => IsGoing (smooth_zoom_ (rh w))) in
  let fresh := negb (old =? requestId (resultExtras request)) || going in
  let next := if fresh then request <| metadata := meta_sort (metadata request) |> else request in
  do* (if fresh then set_rh (fun r => r <| old_request_ := next |>) else ret tt) in
  let* got := get_buffers bw (g_streams g) (streams next) [] in
  let '(res, out) := got in
  if negb (res =? 0) then
    do* gap (g_error g) in
    do* error_cb (resultExtras next) in
    do* HandleErrorRequest next out in
    ret res
  else
    let* ready := gets (fun w => handler_ready (rh w)) in
    if negb ready then do* HandleErrorRequest next out in ret (-1)
    else
      do* for_each (streams next) (fun s => on_stream s (set_usage usage_to_hal)) in
      let n := frameNumber (resultExtras next) in
      let total := Z.of_nat (length out) + match in_buf with Some _ => 1 | None => 0 end in
      do* gap (g_mark g) in
      let* res := mark_cb_ n total (resultExtras next) in
      if res <? 0 then
        do* SignalError in do* HandleErrorRequest next out in ret res
      else
        let hr := mkHalRequest n (if fresh then Some (metadata next) else None) in_buf out in
        do* gap (g_send g) in
        let* res := hal_submit (g_hal g) hr in
        if negb (res =? 0) then
          do* SignalError in do* gap (g_error g) in do* HandleErrorRequest next out in ret res
        else
          do* for_each (streams next) (fun s => on_stream s (set_usage usage_from_hal)) in
          do* gap (g_end g) in
          do* clear_current in
          ret res.

(** Whether one of the pointers is to a stream with the given identifier. *)
Fixpoint any_id (i : Z) (ss : list Z) : ST W bool :=
  match ss with
  | [] => ret false
  | s :: ss' => let* j := of_stream s id_ in if i =? j then ret true else any_id i ss'
  end.

(** Whether a queued request, or the one at work, uses a stream. *)
Definition IsStreamActive (stream : Z) : ST W bool :=
  let* i := of_stream stream id_ in
  let* ss := gets (fun w => streams (current_request_ (rh w)) ++
    concat (map streams (requests_ (rh w))) ++ concat (map streams (streaming_requests_ (rh w)))) in
  any_id i ss.

(** The loop of [WaitOnPause]. *)
Fixpoint pause_wait (exit_pending : bool) (ws : list (W -> Z * W)) : ST W bool :=
  let* pause := gets (fun w => toggle_pause_state_ (rh w)) in
  if negb pause then ret false
  else
    do* pause_idle in
    match ws with
    | [] => ret true
    | w :: ws' =>
        let* res := pure_step w in
        if (- ETIMEDOUT =? res) || exit_pending then ret true else pause_wait exit_pending ws'
    end.

(** A batch of high speed requests is not interrupted; a batch size of 0
    divides by zero. *)
Definition WaitOnPause (exit_pending : bool) (ws : list (W -> Z * W)) : ST W bool :=
  let* n := gets (fun w => current_frame_number_ (rh w)) in
  let* b := gets (fun w => rh_batch_size_ (rh w)) in
  if b =? 0 then undefined
  else if negb (n mod b =? 0) then ret false
  else pause_wait exit_pending ws.

Definition ThreadLoop `{!HandlerCallbacks D M H} (exit_pending : bool)
    (pw gw : list (W -> Z * W)) (bw : Z -> SE D -> Z * SE D) (g : Gaps) : ST W bool :=
  let* paused := WaitOnPause exit_pending pw in
  if paused then ret true
  else if exit_pending then ret false
  else
    let* r := GetRequest exit_pending gw in
    match r with
    | (0, Some next) => let* res := SubmitRequest bw g next None in ret true
    | _ => ret true
    end.

(** One reprocess request: [in_buf] is what [get_input_buffer] fills in. *)
Definition reproc_request `{!HandlerCallbacks D M H} (bw : Z -> SE D -> Z * SE D) (g : Gaps)
    (in_buf : StreamBuffer) (request : CaptureRequest M) : ST W unit :=
  let* n := gets (fun w => current_input_frame_number_ (rh w)) in
  let next := request <| resultExtras := (resultExtras request) <| frameNumber := n |> |> in
  do* set_rh (fun r => r <| current_input_frame_number_ := u32 (n + 1) |>) in
  do* set_rh (fun r => r <| current_request_ := next |>) in
  let* paused := gets (fun w => paused_state_ (rh w)) in
  do* (if paused then monitor_active else ret tt) in
  do* set_rh (fun r => r <| paused_state_ := false |>) in
  do* set_rh (fun r => if configuration_update_ r
                       then r <| old_request_ := ClearCaptureRequest (old_request_ r) |>
                              <| configuration_update_ := false |>
                       else r) in
  let* native := gets (fun w => GetAllocBufferHandle (sb_handle in_buf) (w_dev w)) in
  do* set_dc (fun c =>
    let i := input_stream_ c in
    c <| input_stream_ := i <| input_buffer_cnt := u32 (input_buffer_cnt i + 1) |>
           <| in_buffers_map := match in_buffers_map i !! native with
                                | Some _ => in_buffers_map i
                                | None => <[native := sb_handle in_buf]> (in_buffers_map i)
                                end |> |>) in
  let* res := SubmitRequest bw g next
    (Some (mkHalBuffer (-1) native CAMERA3_BUFFER_STATUS_OK (-1) (-1))) in
  ret tt.

(** A pass of [ReprocLoop] over the queued reprocess requests;
    [get_input_buffer] is the client's callback, by the number of the
    request in the pass, and so are [gs]. *)
Definition ReprocLoop `{!HandlerCallbacks D M H} (bw : Z -> SE D -> Z * SE D) (gs : list Gaps)
    (get_input_buffer : nat -> StreamBuffer) : ST W unit :=
  let* rs := gets (fun w => reproc_requests_ (rh w)) in
  do* for_each (imap (fun i r => (i, r)) rs)
        (fun p => reproc_request bw (nth (fst p) gs no_gaps) (get_input_buffer (fst p)) (snd p)) in
  set_rh (fun r => r <| reproc_requests_ := [] |>).

(** The destructor, after the thread has been joined. *)
Definition Camera3RequestHandler_delete : ST W unit :=
  let* i := gets (fun w => rh_monitor_id_ (rh w)) in
  do* (if i <? 0 then ret tt
       else do* set_mon (ReleaseMonitor i) in set_rh (fun r => r <| rh_monitor_id_ := INVALID_ID |>)) in
  set_rh (fun r => r <| run_worker_ := false |>).

(** ** Frame numbers and order *)

(** [n] passes of the handler thread through [GetRequest]. *)
Fixpoint get_requests (n : nat) : ST W (list (CaptureRequest M)) :=
  match n with
  | O => ret []
  | S n' =>
      let* r := GetRequest false [] in
      let* rs := get_requests n' in
      ret (match snd r with Some x => x :: rs | None => rs end)
  end.

Definition with_number (n : Z) (r : CaptureRequest M) : CaptureRequest M :=
  r <| resultExtras := (resultExtras r) <| frameNumber := n |> |>.

Fixpoint numbered (n : Z) (rs : list (CaptureRequest M)) : list (CaptureRequest M) :=
  match rs with [] => [] | r :: rs' => with_number n r :: numbered (u32 (n + 1)) rs' end.

Definition plain (r : CaptureRequest M) : Prop := rq_input r = false.

(** The parts of the handler that taking requests leaves alone. *)
Definition same_streaming (w w' : W) : Prop :=
  streaming_requests_ (rh w') = streaming_requests_ (rh w) /\
  streaming_last_frame_number_ (rh w') = streaming_last_frame_number_ (rh w) /\
  smooth_zoom_ (rh w') = smooth_zoom_ (rh w) /\ heap w' = heap w /\ events w' = events w.

Lemma take_reproc_plain rs : Forall plain rs -> take_reproc rs = None.
Proof. induction 1 as [|r rs Hr _ IH]; simpl; [done|]. by rewrite Hr, IH. Qed.

Lemma wp_start_request next (Q : unit -> W -> Prop) w :
  (forall w', requests_ (rh w') = requests_ (rh w) -> same_streaming w w' ->
     current_frame_number_ (rh w') = current_frame_number_ (rh w) ->
     paused_state_ (rh w') = false -> current_request_ (rh w') = next -> Q tt w') ->
  wp (start_request next) Q w.
Proof.
  intros HQ. unfold start_request, monitor_active, set_mon, set_rh, wp, bind, gets, modify, ret.
  destruct (paused_state_ (rh w)); simpl; apply HQ; unfold same_streaming; simpl;
    by destruct (configuration_update_ (rh w)).
Qed.

Lemma GetRequest_queued r rest ws w (Q : Z * option (CaptureRequest M) -> W -> Prop) :
  requests_ (rh w) = r :: rest -> Forall plain (r :: rest) ->
  (forall w', requests_ (rh w') = rest -> same_streaming w w' ->
     current_frame_number_ (rh w') = u32 (current_frame_number_ (rh w) + 1) ->
     Q (0, Some (with_number (current_frame_number_ (rh w)) r)) w') ->
  wp (GetRequest false ws) Q w.
Proof.
  intros Hq Hp HQ. unfold GetRequest. rewrite wp_bind.
  assert (get_wait false ws w = Some ((0, None), w)) as E.
  { destruct ws; unfold get_wait, bind, gets; by rewrite Hq. }
  unfold wp at 1. rewrite E. cbn [fst snd Z.eqb negb]. rewrite wp_bind.
  unfold take_queued, wp at 1. rewrite Hq, take_reproc_plain by done.
  rewrite wp_bind. apply wp_start_request. intros w' Hq' Hs' Hn' _ _. rewrite wp_ret. by apply HQ.
Qed.

Lemma get_requests_queued q : forall w,
  requests_ (rh w) = q -> Forall plain q ->
  wp (get_requests (length q)) (fun got w' =>
    got = numbered (current_frame_number_ (rh w)) q /\ requests_ (rh w') = [] /\ same_streaming w w') w.
Proof.
  induction q as [|r rest IH]; intros w Hq Hp; [done|]. cbn [length get_requests numbered].
  rewrite wp_bind. apply (GetRequest_queued r rest); [done..|]. intros w' Hq' Hs' Hn'.
  rewrite wp_bind. apply Forall_cons in Hp as [_ Hp].
  eapply wp_mono; [apply (IH w' Hq' Hp)|]. intros got w'' (-> & Hq'' & Hs''). rewrite wp_ret.
  rewrite Hn'. split_and!; [done|done|]. unfold same_streaming in *. intuition congruence.
Qed.

Lemma numbered_snoc n q r : 0 <= n -> n + Z.of_nat (length q) < UINT32_MOD ->
  numbered n (q ++ [r]) = numbered n q ++ [with_number (n + Z.of_nat (length q)) r].
Proof.
  revert n. induction q as [|x q IH]; intros n Hn Hl; simpl in *.
  - by rewrite Z.add_0_r.
  - rewrite u32_small by (unfold is_u32; lia). rewrite IH by lia. simpl. do 4 f_equal. lia.
Qed.

(** Queued requests leave the handler in order of submission with
    consecutive frame numbers, and [lastFrameNumber] is the number the last
    of them will get (as long as the 32-bit counter does not wrap). *)
Theorem queued_requests_in_order (w : W) (rs : list (CaptureRequest M)) (r : CaptureRequest M) :
  Forall plain (requests_ (rh w) ++ rs ++ [r]) -> is_u32 (current_frame_number_ (rh w)) ->
  let n := current_frame_number_ (rh w) in
  let all := requests_ (rh w) ++ rs ++ [r] in
  wp (let* queued := QueueRequestList (rs ++ [r]) in
      let* got := get_requests (length all) in ret (queued, got))
    (fun out w' =>
       fst (fst out) = 0 /\ snd out = numbered n all /\ requests_ (rh w') = [] /\
       (n + Z.of_nat (length all) <= UINT32_MOD ->
        last (snd out) = Some (with_number (snd (fst out)) r))) w.
Proof.
  intros Hp Hn n all. rewrite wp_bind.
  unfold QueueRequestList, set_rh. rewrite !wp_bind, wp_modify, wp_bind, wp_gets, wp_bind.
  assert (forall w0 : W, exists w1, Resume w0 = Some (tt, w1) /\ requests_ (rh w1) = requests_ (rh w0) /\
            current_frame_number_ (rh w1) = current_frame_number_ (rh w0)) as HR.
  { intros w0. unfold Resume, monitor_active, set_mon, set_rh, bind, gets, modify, ret.
    destruct (toggle_pause_state_ (rh w0)); eauto. }
  set (w0 := w <| rh := _ |>). destruct (HR w0) as (w1 & E1 & Eq1 & En1). unfold wp at 1. rewrite E1.
  rewrite wp_ret, wp_bind. simpl in Eq1, En1. fold all in Eq1.
  eapply wp_mono; [apply (get_requests_queued all w1 Eq1 Hp)|].
  intros got w2 (-> & Hq2 & _). rewrite wp_ret. simpl. split_and!; [done|by rewrite En1|done|].
  intros Hlim. rewrite En1. fold n. unfold all in *. rewrite app_assoc, numbered_snoc.
  - rewrite last_snoc, !length_app, Nat2Z.inj_add. simpl. rewrite !length_app in *. simpl in Hlim. do 2 f_equal. lia.
  - unfold is_u32, n in *. lia.
  - rewrite !length_app in *. simpl in Hlim. lia.
Qed.

Lemma Update_plain (r : CaptureRequest M) z : plain r -> plain (fst (Update r z)).
Proof. unfold Update, plain. intros Hr. by repeat case_goal. Qed.

Lemma update_all_plain rs : forall z, Forall plain rs -> Forall plain (fst (update_all rs z)).
Proof.
  induction rs as [|r rs IH]; intros z Hp; simpl; [done|]. apply Forall_cons in Hp as [Hr Hp].
  pose proof (Update_plain r z Hr). destruct (Update r z) as [r' z1]. specialize (IH z1 Hp).
  destruct (update_all rs z1) as [out z2]. by constructor.
Qed.

Lemma update_all_length rs : forall z, length (fst (update_all rs z)) = length rs.
Proof.
  induction rs as [|r rs IH]; intros z; simpl; [done|]. destruct (Update r z) as [r' z1].
  specialize (IH z1). destruct (update_all rs z1) as [out z2]. simpl in *. lia.
Qed.

(** A round of repeating requests: with nothing else queued, the handler
    takes each of them once, in order, with consecutive frame numbers and the
    crop region of the zoom, remembers the number of the last, and keeps the
    (zoomed) list for the next round. *)
Theorem repeating_round (w : W) (first : CaptureRequest M) (rest : list (CaptureRequest M)) :
  requests_ (rh w) = [] -> streaming_requests_ (rh w) = first :: rest ->
  Forall plain (first :: rest) ->
  let n := current_frame_number_ (rh w) in
  let updated := fst (update_all (first :: rest) (smooth_zoom_ (rh w))) in
  wp (get_requests (length (first :: rest)))
    (fun got w' =>
       got = numbered n updated /\ requests_ (rh w') = [] /\
       streaming_requests_ (rh w') = updated /\
       smooth_zoom_ (rh w') = snd (update_all (first :: rest) (smooth_zoom_ (rh w))) /\
       streaming_last_frame_number_ (rh w') = n + Z.of_nat (length (first :: rest)) - 1) w.
Proof.
  intros Hq Hs Hp n updated.
  pose proof (update_all_plain _ (smooth_zoom_ (rh w)) Hp) as Hup.
  pose proof (update_all_length (first :: rest) (smooth_zoom_ (rh w))) as Hul.
  unfold updated in *. clear updated.
  destruct (update_all (first :: rest) (smooth_zoom_ (rh w))) as [upd z] eqn:Ez.
  cbn [fst snd] in *. destruct upd as [|u us]; [done|].
  cbn [length get_requests]. rewrite wp_bind. unfold GetRequest. rewrite wp_bind.
  assert (get_wait false [] w = Some ((0, Some (with_number n u)),
    w <| rh := (rh w) <| smooth_zoom_ := z |> <| streaming_requests_ := u :: us |>
          <| requests_ := us |>
          <| streaming_last_frame_number_ := n + Z.of_nat (length (u :: us)) - 1 |>
          <| current_frame_number_ := u32 (n + 1) |> |>)) as E.
  { unfold get_wait, next_repeating, bind, gets, pure_step, ret. rewrite Hq, Hs, Ez, Hq.
done. }
  unfold wp at 1. rewrite E. cbn [fst snd Z.eqb negb]. rewrite wp_bind, wp_ret, wp_bind.
  apply wp_start_request. intros w1 Hq1 Hs1 Hn1 _ _. rewrite wp_ret, wp_bind. simpl in Hq1, Hn1.
  apply Forall_cons in Hup as [_ Hup]. assert (length rest = length us) as -> by (simpl in Hul; lia).
  eapply wp_mono; [apply (get_requests_queued us w1 Hq1 Hup)|].
  intros got w2 (-> & Hq2 & Hs2). rewrite wp_ret. simpl. rewrite Hn1.
  unfold same_streaming in *. simpl in *. split_and!; try done; intuition congruence.
Qed.

(** ** Buffers of a request

    What the client's callbacks promise: they leave the streams and the
    allocator alone. *)
Class HandlerCallbacksLaws {HC : HandlerCallbacks D M H} := {
  mark_cb_pool n t e w : wp (mark_cb_ n t e) (fun _ w' => heap w' = heap w /\ w_dev w' = w_dev w) w;
  set_error_pool w : wp set_error_ (fun _ w' => heap w' = heap w /\ w_dev w' = w_dev w) w
}.

Context `{!AllocDeviceLaws D} {HC : HandlerCallbacks D M H} {HCL : HandlerCallbacksLaws}.

(** A stream with no buffer more out than before, and one that has lent one
    more buffer, with the given native handle. *)
Definition unlent (s0 s : Camera3Stream) : Prop :=
  pending_buffer_count_ s = pending_buffer_count_ s0 /\ in_use s = in_use s0 /\ status_ s = status_ s0.

Definition lent (native : Z) (s0 s : Camera3Stream) : Prop :=
  pending_buffer_count_ s = pending_buffer_count_ s0 + 1 /\ in_use s = in_use s0 + 1 /\
  status_ s = status_ s0 /\
  exists h, buffers_map s !! native = Some h /\ kv_lookup h (mem_alloc_buffers_ s) = Some false.

Fixpoint find_lent (p : Z) (got : list (Z * camera3_stream_buffer)) : option camera3_stream_buffer :=
  match got with
  | [] => None
  | (q, b) :: got' => if q =? p then Some b else find_lent p got'
  end.

(** The pool [w] is [w0] after the buffers [got] were lent. *)
Record lending (w0 : W) (got : list (Z * camera3_stream_buffer)) (w : W) : Prop := {
  ln_wf : pool_wf w;
  ln_streams : forall p s0, heap w0 !! p = Some s0 -> exists s, heap w !! p = Some s /\
    match find_lent p got with Some b => lent (hb_buffer b) s0 s | None => unlent s0 s end
}.

Lemma lending_same_pool w0 got w w' :
  lending w0 got w -> heap w' = heap w -> w_dev w' = w_dev w -> lending w0 got w'.
Proof.
  intros [Hwf Hs] Hh Hd. split; [|by rewrite Hh].
  intros p s Hp. rewrite Hh in Hp. rewrite Hd. exact (se_wf_any_mon s _ _ _ (Hwf p s Hp)).
Qed.

Lemma find_lent_none p got : p ∉ map fst got -> find_lent p got = None.
Proof.
  induction got as [|[q b] got IH]; simpl; [done|]. rewrite not_elem_of_cons. intros [Hne Hin].
  destruct (Z.eqb_spec q p); [congruence|auto].
Qed.

Lemma find_lent_snoc p got q b : p ∉ map fst got \/ q <> p ->
  find_lent p (got ++ [(q, b)]) = if q =? p then Some b else find_lent p got.
Proof.
  induction got as [|[x c] got IH]; simpl; [done|]. intros Hd.
  destruct (Z.eqb_spec x p) as [->|Hx].
  - destruct Hd as [Hd|Hd]; [exfalso; apply Hd; by left|]. by destruct (Z.eqb_spec q p).
  - apply IH. destruct Hd as [Hd|Hd]; [left; set_solver|by right].
Qed.

(** A wait for a buffer that times out undisturbed. *)
Definition undisturbed (bw : Z -> SE D -> Z * SE D) : Prop :=
  forall p x, snd (bw p x) = x /\ fst (bw p x) <> 0.

Lemma wp_no_gap {A} f (m : ST W A) (Q : A -> W -> Prop) w : f = id -> wp (do* gap f in m) Q w = wp m Q w.
Proof. by intros ->. Qed.

(** Replacing one stream of the pool. *)
Lemma lending_insert w0 got got' w p s0 s s' :
  lending w0 got w -> heap w0 !! p = Some s0 -> heap w !! p = Some s ->
  kept (mkSE s (w_mon w) (w_dev w)) s' ->
  (forall b, b ∈ kv_keys (mem_alloc_buffers_ s) -> b ∈ kv_keys (mem_alloc_buffers_ (st s'))) ->
  (forall q, q <> p -> find_lent q got' = find_lent q got) ->
  match find_lent p got' with Some b => lent (hb_buffer b) s0 (st s') | None => unlent s0 (st s') end ->
  lending w0 got' (w <| heap := <[p := st s']> (heap w) |> <| w_mon := mon s' |> <| w_dev := dev s' |>).
Proof.
  intros [Hwf Hs] Hp0 Hp Hk Hg Hoth Hme. split; [by apply (pool_wf_insert w p s)|].
  intros q t0 Hq. simpl. destruct (decide (q = p)) as [->|Hne].
  - rewrite lookup_insert_eq. eexists. split; [done|]. rewrite Hq in Hp0. by injection Hp0 as ->.
  - rewrite lookup_insert_ne, Hoth by congruence. by apply Hs.
Qed.

Lemma get_buffers_lends bw ss : forall w0 got w,
  undisturbed bw -> lending w0 got w -> NoDup (map fst got ++ ss) ->
  Forall (fun p => exists s0, heap w0 !! p = Some s0 /\ status_ s0 = STATUS_CONFIGURED) ss ->
  wp (get_buffers bw [] ss (map snd got)) (fun ro w' =>
    exists got' rest, snd ro = map snd (got ++ got') /\ ss = map fst got' ++ rest /\
      lending w0 (got ++ got') w' /\ (fst ro = 0 -> rest = []) /\ events w' = events w /\ rh w' = rh w) w.
Proof.
  induction ss as [|p ss IH]; intros w0 got w Hbw Hln Hnd Hall; cbn [get_buffers].
  - rewrite wp_ret. exists [], []. by rewrite app_nil_r.
  - apply Forall_cons in Hall as [(s0 & Hp0 & Hst0) Hall].
    assert (p ∉ map fst got) as Hnin.
    { apply NoDup_app in Hnd as (_ & Hd & _). intros Hin. apply (Hd p Hin). by left. }
    destruct (ln_streams _ _ _ Hln p s0 Hp0) as (s & Hp & Hs).
    rewrite (find_lent_none p got Hnin) in Hs. destruct Hs as (Hpend & Huse & Hst).
    pose proof (ln_wf _ _ _ Hln p s Hp) as Hwf.
    rewrite wp_no_gap, wp_bind, wp_on_stream by done. exists s. split; [done|].
    assert (status_ s = STATUS_CONFIGURED) as Hsc by congruence.
    unfold GetBuffer. rewrite (bool_decide_eq_true_2 _ Hsc). cbn [negb st].
    assert (forall r, r <> 0 -> exists got' rest,
      map snd got = map snd (got ++ got') /\ p :: ss = map fst got' ++ rest /\
      (r = 0 -> rest = []) /\ got' = []) as Hstop.
    { intros r Hr. exists [], (p :: ss). by rewrite app_nil_r. }
    assert (holds_buffers (status_ s) = true) as Hh by (by rewrite Hsc).
    destruct (pending_buffer_count_ s =? total_buffer_count_ s).
    + destruct (bw p (mkSE s (w_mon w) (w_dev w))) as [r x] eqn:Eb.
      destruct (Hbw p (mkSE s (w_mon w) (w_dev w))) as [Hx Hr]. rewrite Eb in Hx, Hr. simpl in Hx, Hr. subst x.
      apply Z.eqb_neq in Hr as Er. rewrite Er, wp_ret. cbn [fst snd].
      destruct (Hstop r Hr) as (got' & rest & E1 & E2 & E3 & ->). exists [], rest. split_and!; try done.
      rewrite app_nil_r. apply (lending_insert w0 got got w p s0 s (mkSE s (w_mon w) (w_dev w))); auto.
      * by apply kept_refl.
      * by rewrite find_lent_none.
    + pose proof (GetBufferLocked_cases (mkSE s (w_mon w) (w_dev w)) Hwf Hh) as Hc.
      destruct (GetBufferLocked true _) as [[r o] s'].
      destruct Hc as (Hk & Hgr & [(-> & b & h & -> & Hg)|(Hr & -> & Est & _)]).
      * destruct Hg as (_ & _ & Hm & _ & Hl & _ & Hp' & Hu' & _ & Hst' & _). simpl in *.
        assert (lending w0 (got ++ [(p, b)])
          (w <| heap := <[p := st s']> (heap w) |> <| w_mon := mon s' |> <| w_dev := dev s' |>)) as Hln'.
        { apply (lending_insert w0 got _ w p s0 s s'); auto.
          - intros q Hq. rewrite find_lent_snoc by (right; congruence). by destruct (Z.eqb_spec p q); [congruence|].
          - rewrite find_lent_snoc, Z.eqb_refl by (by left).
            unfold lent. rewrite Hp', Hu', Hst', Hpend, Huse, Hst. split_and!; try done. by exists h. }
        change (map snd got ++ [b]) with (map snd got ++ map snd [(p, b)]). rewrite <- map_app.
        eapply wp_mono; [apply (IH w0 _ _ Hbw Hln'); [|done]|].
        { rewrite map_app. simpl. by rewrite <- app_assoc. }
        intros ro w' (got' & rest & E1 & E2 & Hl' & E4 & E5 & E6). exists ((p, b) :: got'), rest.
        rewrite <- app_assoc in *. simpl in *. split_and!; try done. by rewrite E2.
      * apply Z.eqb_neq in Hr as Er. rewrite wp_ret. cbn [fst snd].
        destruct (Hstop r Hr) as (got' & rest & E1 & E2 & E3 & ->). exists [], rest. split_and!; try done.
        rewrite app_nil_r. apply (lending_insert w0 got got w p s0 s s'); auto.
        rewrite find_lent_none, Est by done. done.
Qed.

Lemma forget_buffer_kept native s : se_wf s -> kept s (snd (forget_buffer native s)).
Proof. intros Hwf. pose proof (se_stream _ Hwf) as []. by apply kept_same_buffers. Qed.

(** A lent buffer goes back to its pool. *)
Lemma return_lent w0 got w p b s0 (Q : unit -> W -> Prop) :
  lending w0 ((p, b) :: got) w -> p ∉ map fst got -> heap w0 !! p = Some s0 ->
  status_ s0 = STATUS_CONFIGURED -> 0 <= pending_buffer_count_ s0 ->
  (forall w', lending w0 got w' -> events w' = events w -> rh w' = rh w -> Q tt w') ->
  wp (let* h := on_stream p (forget_buffer (hb_buffer b)) in
      let* r := on_stream p (ReturnBuffer (handle_only h)) in ret tt) Q w.
Proof.
  intros Hln Hnin Hp0 Hst0 Hpos HQ.
  destruct (ln_streams _ _ _ Hln p s0 Hp0) as (s & Hp & Hs). simpl in Hs. rewrite Z.eqb_refl in Hs.
  destruct Hs as (Hpend & Huse & Hst & h & Hm & Hl). pose proof (ln_wf _ _ _ Hln p s Hp) as Hwf.
  rewrite wp_bind, wp_on_stream. exists s. split; [done|]. unfold forget_buffer. cbn [st].
  rewrite Hm. cbn [default]. rewrite wp_bind, wp_on_stream. simpl heap. rewrite lookup_insert_eq.
  eexists. split; [done|].
  pose proof (forget_buffer_kept (hb_buffer b) (mkSE s (w_mon w) (w_dev w)) Hwf) as Hk1.
  unfold forget_buffer in Hk1. simpl in Hk1.
  match type of Hk1 with kept _ ?x =>
    destruct (return_accepted h false x (proj1 Hk1)) as (s' & E & Hk2 & Ep & Es & Eu & _) end;
    [simpl; congruence|simpl; lia|done|].
  unfold ReturnBuffer. simpl. simpl in E. rewrite E. rewrite wp_ret.
  assert (lending w0 got (w <| heap := <[p := st s']> (heap w) |> <| w_mon := mon s' |> <| w_dev := dev s' |>)) as Hln'.
  { refine (lending_insert w0 ((p, b) :: got) got w p s0 s s' Hln Hp0 Hp _ _ _ _).
    - eapply kept_trans; [exact Hk1|]. done.
    - intros c Hc. pose proof (ReturnBufferLocked_keys h
        (mkSE (s <| buffers_map := delete (hb_buffer b) (buffers_map s) |>) (w_mon w) (w_dev w))) as Ek.
      simpl in Ek. rewrite E in Ek. simpl in Ek. by rewrite Ek.
    - intros q Hq. simpl. by destruct (Z.eqb_spec p q); [congruence|].
    - rewrite find_lent_none by done. unfold unlent. simpl in *. split_and!; [lia| |congruence].
      unfold in_use in *. simpl in Eu. rewrite Eu. lia. }
  match goal with |- Q tt ?x => apply (HQ x) end; [|done|done].
  simpl. simpl in Hln'. rewrite insert_insert_eq. done.
Qed.

Lemma return_all_returns w0 got : forall rest w,
  lending w0 got w -> NoDup (map fst got) ->
  Forall (fun p => exists s0, heap w0 !! p = Some s0 /\ status_ s0 = STATUS_CONFIGURED /\
                      0 <= pending_buffer_count_ s0) (map fst got) ->
  wp (return_all (map snd got) (map fst got ++ rest))
    (fun _ w' => lending w0 [] w' /\ events w' = events w /\ rh w' = rh w) w.
Proof.
  induction got as [|[p b] got IH]; intros rest w Hln Hnd Hall; cbn [map return_all app fst snd]; [done|].
  cbn [map fst] in Hnd, Hall. apply NoDup_cons in Hnd as [Hnin Hnd].
  apply Forall_cons in Hall as [(s0 & Hp0 & Hst0 & Hpos) Hall].
  pose proof (return_lent w0 got w p b s0 (fun _ w' => lending w0 got w' /\ events w' = events w /\ rh w' = rh w)
    Hln Hnin Hp0 Hst0 Hpos (fun w' a e r => conj a (conj e r))) as Hw.
  rewrite wp_bind in Hw |- *. eapply wp_mono; [exact Hw|]. cbn beta. intros h w1 Hw1.
  rewrite wp_bind. eapply wp_mono; [exact Hw1|]. intros _ w2 (Hln2 & Ev2 & Er2).
  eapply wp_mono; [apply (IH rest w2 Hln2 Hnd Hall)|]. intros _ w3 (? & Ev3 & Er3). split_and!; congruence.
Qed.

Lemma set_usage_lends f w0 got ss : forall w,
  lending w0 got w -> Forall (fun p => is_Some (heap w0 !! p)) ss ->
  wp (for_each ss (fun s => on_stream s (set_usage f)))
    (fun _ w' => lending w0 got w' /\ events w' = events w /\ rh w' = rh w) w.
Proof.
  induction ss as [|p ss IH]; intros w Hln Hall; cbn [for_each]; [done|].
  apply Forall_cons in Hall as [[s0 Hp0] Hall].
  destruct (ln_streams _ _ _ Hln p s0 Hp0) as (s & Hp & Hs). pose proof (ln_wf _ _ _ Hln p s Hp) as Hwf.
  rewrite wp_bind, wp_on_stream. exists s. split; [done|]. unfold set_usage. cbn [st].
  match goal with |- wp _ _ ?x => assert (lending w0 got x) as Hln' end.
  { refine (lending_insert w0 got got w p s0 s _ Hln Hp0 Hp _ _ _ _); [|done|done|].
    - pose proof (se_stream _ Hwf) as []. by apply kept_same_buffers.
    - by destruct (find_lent p got). }
  eapply wp_mono; [apply (IH _ Hln' Hall)|]. done.
Qed.

Lemma HandleErrorRequest_returns w0 got rest w next :
  lending w0 got w -> streams next = map fst got ++ rest -> NoDup (map fst got) ->
  Forall (fun p => exists s0, heap w0 !! p = Some s0 /\ status_ s0 = STATUS_CONFIGURED /\
                      0 <= pending_buffer_count_ s0) (map fst got) ->
  wp (HandleErrorRequest next (map snd got)) (fun _ w' => lending w0 [] w') w.
Proof.
  intros Hln Es Hnd Hall. unfold HandleErrorRequest. rewrite Es, wp_bind.
  eapply wp_mono; [apply (return_all_returns w0 got rest w Hln Hnd Hall)|].
  intros _ w1 (Hln1 & _). unfold clear_current, set_rh. rewrite wp_modify.
  by apply (lending_same_pool w0 [] w1).
Qed.

Lemma SignalError_lends w0 got w : lending w0 got w ->
  wp SignalError (fun _ w' => lending w0 got w') w.
Proof.
  intros Hln. unfold SignalError. rewrite wp_bind, wp_gets. destruct (handler_ready _); [|done].
  eapply wp_mono; [apply set_error_pool|]. intros _ w' [Hh Hd]. by apply (lending_same_pool w0 got w).
Qed.

(** No buffer is lost when a request fails: whatever the reason (a
    stream without a free buffer, a client or a HAL that refuses), every
    stream ends with as many buffers pending and in use as before.  When the
    request goes through, each of its streams has lent one buffer, and these
    buffers, in the order of the streams, are what the HAL is given; it gets
    the settings, sorted, when the request is not the one submitted before or
    a zoom is going on. *)
Theorem SubmitRequest_buffers (bw : Z -> SE D -> Z * SE D) (request : CaptureRequest M)
    (in_buf : option camera3_stream_buffer) (w : W) :
  undisturbed bw -> pool_wf w -> NoDup (streams request) ->
  Forall (fun p => exists s, heap w !! p = Some s /\ status_ s = STATUS_CONFIGURED) (streams request) ->
  wp (SubmitRequest bw no_gaps request in_buf) (fun res w' =>
    if res =? 0 then
      exists got hr, lending w got w' /\ map fst got = streams request /\
        last (events w') = Some (EvSubmitted hr) /\ hr_output hr = map snd got /\
        hr_frame_number hr = frameNumber (resultExtras request) /\ hr_input hr = in_buf /\
        hr_settings hr =
          (if negb (requestId (resultExtras (old_request_ (rh w))) =? requestId (resultExtras request)) ||
              IsGoing (smooth_zoom_ (rh w))
           then Some (meta_sort (metadata request)) else None)
    else lending w [] w') w.
Proof.
  intros Hbw Hwf Hnd Hall.
  assert (Forall (fun p => exists s0, heap w !! p = Some s0 /\ status_ s0 = STATUS_CONFIGURED /\
            0 <= pending_buffer_count_ s0) (streams request)) as Hall'.
  { eapply Forall_impl; [exact Hall|]. intros p (s & Hp & Hst). exists s. split_and!; [done|done|].
    apply (wf_pending _ (se_stream _ (Hwf p s Hp))). }
  assert (lending w [] w) as Hln0.
  { split; [done|]. intros p s0 Hp. by exists s0. }
  unfold SubmitRequest. rewrite !wp_bind, wp_gets, wp_bind, wp_gets.
  set (fresh := negb _ || _).
  set (next := if fresh then _ else request).
  assert (streams next = streams request /\ resultExtras next = resultExtras request) as [Enx Eex]
    by (unfold next; by destruct fresh).
  rewrite wp_bind.
  assert (exists w1, (if fresh then set_rh (fun r => r <| old_request_ := next |>) else ret tt) w = Some (tt, w1) /\
            heap w1 = heap w /\ w_dev w1 = w_dev w) as (w1 & E1 & Eh1 & Ed1).
  { destruct fresh; eexists; by split. }
  unfold wp at 1. rewrite E1. rewrite wp_bind, Enx.
  pose proof (lending_same_pool w [] w w1 Hln0 Eh1 Ed1) as Hln1.
  eapply wp_mono; [apply (get_buffers_lends bw (streams request) w [] w1 Hbw Hln1); [done|exact Hall]|].
  intros [res out] w2 (got & rest & Eo & Ess & Hln2 & Hr0 & _). simpl in Eo, Hr0. rewrite Eo. clear Eo out. cbn [app] in Hln2.
  assert (NoDup (map fst got)) as Hnd2 by (rewrite Ess in Hnd; apply NoDup_app in Hnd; tauto).
  assert (Forall (fun p => exists s0, heap w !! p = Some s0 /\ status_ s0 = STATUS_CONFIGURED /\
            0 <= pending_buffer_count_ s0) (map fst got)) as Hall2.
  { rewrite Ess in Hall'. by apply Forall_app in Hall' as [? _]. }
  assert (forall res' w', res' <> 0 -> lending w got w' ->
    wp (do* HandleErrorRequest next (map snd got) in ret res')
      (fun res w' => if res =? 0 then
         exists got hr, lending w got w' /\ map fst got = streams request /\
           last (events w') = Some (EvSubmitted hr) /\ hr_output hr = map snd got /\
           hr_frame_number hr = frameNumber (resultExtras request) /\ hr_input hr = in_buf /\
           hr_settings hr = (if fresh then Some (meta_sort (metadata request)) else None)
       else lending w [] w') w') as Herr.
  { intros res' w' Hr' Hln'. rewrite wp_bind.
    eapply wp_mono; [apply (HandleErrorRequest_returns w got rest w' next Hln'); [by rewrite Enx|done|done]|].
    intros ? w'' Hln''. rewrite wp_ret. apply Z.eqb_neq in Hr' as Er. by rewrite Er. }
  destruct (Z.eqb_spec res 0) as [->|Hr]; cbn [negb].
  2:{ rewrite wp_no_gap, wp_bind by done. unfold error_cb. rewrite wp_bind, wp_gets.
      destruct (rh_error_cb (rh w2)); [|by apply Herr].
      unfold emit. rewrite wp_modify. apply Herr; [done|]. by apply (lending_same_pool w got w2). }
  rewrite (Hr0 eq_refl), app_nil_r in Ess.
  assert (Forall (fun p => is_Some (heap w !! p)) (streams request)) as Hsome.
  { eapply Forall_impl; [exact Hall|]. intros p (s & Hp & _). by eexists. }
  rewrite wp_bind, wp_gets. destruct (handler_ready (rh w2)); cbn [negb]; [|by apply Herr].
  rewrite wp_bind. eapply wp_mono; [apply (set_usage_lends _ w got (streams request) w2 Hln2 Hsome)|].
  intros _ w3 (Hln3 & _). rewrite wp_no_gap, wp_bind by done. eapply wp_mono; [apply mark_cb_pool|].
  intros res w4 [Eh4 Ed4]. pose proof (lending_same_pool w got w3 w4 Hln3 Eh4 Ed4) as Hln4.
  destruct (Z.ltb_spec res 0).
  { rewrite wp_bind. eapply wp_mono; [apply (SignalError_lends w got w4 Hln4)|].
    intros ? w5 Hln5. apply Herr; [lia|done]. }
  rewrite wp_no_gap by done. rewrite wp_bind. unfold hal_submit, emit. rewrite wp_bind, wp_modify, wp_bind. unfold on_hal. rewrite wp_pure_step.
  destruct (process_capture_request _ _) as [res2 h2]. cbn [fst snd]. rewrite wp_no_gap, wp_ret by done.
  set (w6 := _ <| hal := h2 |>).
  assert (lending w got w6) as Hln6 by by apply (lending_same_pool w got w4).
  destruct (Z.eqb_spec res2 0) as [->|Hr2]; cbn [negb].
  2:{ rewrite wp_bind. eapply wp_mono; [apply (SignalError_lends w got w6 Hln6)|].
      intros ? w7 Hln7. rewrite wp_no_gap by done. by apply Herr. }
  rewrite wp_bind. eapply wp_mono; [apply (set_usage_lends _ w got (streams request) w6 Hln6 Hsome)|].
  intros _ w7 (Hln7 & Hev7 & _). rewrite wp_no_gap by done. unfold clear_current, set_rh. rewrite wp_bind, wp_modify, wp_ret. simpl.
  eexists got, _. split_and!; [by apply (lending_same_pool w got w7)|by symmetry| | | | |].
  - rewrite Hev7. simpl. by rewrite last_snoc.
  - done.
  - simpl. by rewrite Eex.
  - done.
  - simpl. unfold next. by destruct fresh.
Qed.

(** Settings are lost when a request fails for want of a buffer: the
    handler has already noted the request as the last one submitted, so that
    its next submission, which repeats the identifier, carries no settings
    although the HAL has never seen them. *)
Theorem failed_request_counts_as_sent (bw : Z -> SE D -> Z * SE D) (request : CaptureRequest M)
    (p : Z) (rest : list Z) (s : Camera3Stream) (w : W) :
  undisturbed bw -> streams request = p :: rest -> heap w !! p = Some s ->
  status_ s = STATUS_CONFIGURED -> pending_buffer_count_ s = total_buffer_count_ s ->
  requestId (resultExtras (old_request_ (rh w))) <> requestId (resultExtras request) ->
  wp (SubmitRequest bw no_gaps request None) (fun res w' =>
    res <> 0 /\
    events w' = events w ++ (if rh_error_cb (rh w) then [EvError ERROR_CAMERA_REQUEST (resultExtras request)] else []) /\
    requestId (resultExtras (old_request_ (rh w'))) = requestId (resultExtras request) /\
    smooth_zoom_ (rh w') = smooth_zoom_ (rh w)) w.
Proof.
  intros Hbw Hss Hp Hst Hpend Hne. unfold SubmitRequest. rewrite !wp_bind, wp_gets, wp_bind, wp_gets.
  apply Z.eqb_neq in Hne as En. rewrite En. cbn [negb orb].
  rewrite wp_bind. unfold set_rh. rewrite wp_modify, wp_bind. simpl streams. rewrite Hss. cbn [get_buffers].
  rewrite wp_no_gap, wp_bind, wp_on_stream by done. exists s. split; [done|]. unfold GetBuffer.
  rewrite (bool_decide_eq_true_2 _ Hst). cbn [negb st]. rewrite Hpend, Z.eqb_refl. simpl.
  destruct (Hbw p (mkSE s (w_mon w) (w_dev w))) as [Hx Hr].
  destruct (bw p (mkSE s (w_mon w) (w_dev w))) as [r x]. simpl in Hx, Hr. subst x.
  apply Z.eqb_neq in Hr as Er. rewrite Er, wp_ret, Er. cbn [negb].
  rewrite wp_no_gap by done. unfold error_cb, HandleErrorRequest, clear_current, emit, set_rh. cbn [return_all].
  rewrite !wp_bind, wp_gets. simpl.
  destruct (rh_error_cb (rh w)); rewrite ?wp_modify, ?wp_ret, !wp_bind, wp_ret, wp_modify, wp_ret; simpl;
    by rewrite ?app_nil_r.
Qed.

(** ** The handler's monitor *)

(** What the handler last told the monitor agrees with [paused_state_]. *)
Definition mirrored (w : W) : Prop :=
  exists s0, kv_lookup (rh_monitor_id_ (rh w)) (monitor_states_ (w_mon w)) = Some s0 /\
    final_state (rh_monitor_id_ (rh w)) (input_queue_ (w_mon w)) s0 =
      if paused_state_ (rh w) then IDLE else ACTIVE.

Lemma final_state_app i q1 q2 s0 : final_state i (q1 ++ q2) s0 = final_state i q2 (final_state i q1 s0).
Proof. revert s0. induction q1 as [|t q1 IH]; intros s0; simpl; [done|apply IH]. Qed.

Lemma mirrored_post (w : W) (st' : MonitorState) (w' : W) :
  mirrored w -> rh_monitor_id_ (rh w') = rh_monitor_id_ (rh w) ->
  w_mon w' = ChangeState (rh_monitor_id_ (rh w)) st' (w_mon w) ->
  st' = (if paused_state_ (rh w') then IDLE else ACTIVE) -> mirrored w'.
Proof.
  intros (s0 & Hl & _) Ei Em Es. exists s0. rewrite Ei, Em. simpl. split; [done|].
  rewrite final_state_app. simpl. by rewrite Z.eqb_refl.
Qed.

Lemma mirrored_same (w w' : W) :
  mirrored w -> rh_monitor_id_ (rh w') = rh_monitor_id_ (rh w) -> w_mon w' = w_mon w ->
  paused_state_ (rh w') = paused_state_ (rh w) -> mirrored w'.
Proof. unfold mirrored. by intros Hm -> -> ->. Qed.

Lemma Resume_mirrored w : mirrored w -> wp Resume (fun _ => mirrored) w.
Proof.
  intros Hm. unfold Resume, monitor_active, set_mon, set_rh. rewrite wp_bind, wp_gets.
  destruct (toggle_pause_state_ (rh w)); [done|].
  rewrite !wp_bind, wp_gets, !wp_modify. by apply (mirrored_post w ACTIVE).
Qed.

Lemma pause_idle_mirrored w : mirrored w -> wp pause_idle (fun _ w' => mirrored w' /\ paused_state_ (rh w') = true) w.
Proof.
  intros Hm. unfold pause_idle, monitor_idle, set_mon, set_rh. rewrite wp_bind, wp_gets.
  destruct (paused_state_ (rh w)) eqn:E; [done|].
  rewrite !wp_bind, wp_modify, wp_bind, wp_gets, wp_modify. split; [|done]. by apply (mirrored_post w IDLE).
Qed.

Lemma start_request_mirrored next w : mirrored w ->
  wp (start_request next) (fun _ w' => mirrored w' /\ paused_state_ (rh w') = false) w.
Proof.
  intros Hm. unfold start_request, monitor_active, set_mon, set_rh, wp, bind, gets, modify, ret.
  destruct (paused_state_ (rh w)) eqn:E; simpl.
  - split; [|by destruct (configuration_update_ (rh w))].
    apply (mirrored_post w ACTIVE); [done|..]; by destruct (configuration_update_ (rh w)).
  - split; [|by destruct (configuration_update_ (rh w))].
    apply (mirrored_same w); [done|..]; simpl; rewrite ?E; by destruct (configuration_update_ (rh w)).
Qed.

Definition wait_keeps (P : W -> Prop) (ws : list (W -> Z * W)) : Prop :=
  Forall (fun f : W -> Z * W => forall w, P w -> P (snd (f w))) ws.

Lemma get_wait_mirrored e ws : forall w, wait_keeps mirrored ws -> mirrored w ->
  wp (get_wait e ws) (fun r w' => mirrored w' /\ (r = (0, None) -> requests_ (rh w') <> [])) w.
Proof.
  set (Q := fun (r : Z * option (CaptureRequest M)) (w' : W) =>
    mirrored w' /\ (r = (0, None) -> requests_ (rh w') <> [])).
  assert (forall w, mirrored w -> wp (do* pause_idle in ret (- ETIMEDOUT, None)) Q w) as Htimeout.
  { intros w Hm. rewrite wp_bind. eapply wp_mono; [by apply pause_idle_mirrored|].
    intros _ w' [Hm' _]. rewrite wp_ret. by split. }
  assert (forall first rest w, mirrored w ->
    wp (let* next := next_repeating first rest in ret (0, Some next)) Q w) as Hrep.
  { intros first rest w Hm. rewrite wp_bind. unfold next_repeating. rewrite wp_pure_step.
    destruct (update_all _ _) as [u z]. cbn [fst snd]. rewrite wp_ret. split; [by apply (mirrored_same w)|done]. }
  assert (forall (w : W) r q, mirrored w -> requests_ (rh w) = r :: q -> Q (0, None) w) as Hgot.
  { intros w r q Hm Eq. split; [done|]. by rewrite Eq. }
  induction ws as [|f ws IH]; intros w Hws Hm; cbn [get_wait]; rewrite wp_bind, wp_gets, wp_bind, wp_gets;
    (destruct (requests_ (rh w)) as [|r q] eqn:Eq; [|rewrite wp_ret; by eapply Hgot]);
    (destruct (streaming_requests_ (rh w)); [|by apply Hrep]); [by apply Htimeout|].
  apply Forall_cons in Hws as [Hf Hws]. rewrite wp_bind, wp_pure_step, wp_bind, wp_gets.
  match goal with |- context [ if ?b then _ else _ ] => destruct b end; [apply Htimeout; auto|].
  apply IH; auto.
Qed.

Lemma take_queued_mirrored w : mirrored w -> requests_ (rh w) <> [] ->
  wp take_queued (fun _ => mirrored) w.
Proof.
  intros Hm Hq. unfold take_queued, wp. destruct (take_reproc (requests_ (rh w))) as [[r rest]|].
  - by apply (mirrored_same w).
  - destruct (requests_ (rh w)); [done|]. by apply (mirrored_same w).
Qed.

Lemma pause_wait_mirrored e ws : forall w, wait_keeps mirrored ws -> mirrored w ->
  wp (pause_wait e ws) (fun _ => mirrored) w.
Proof.
  induction ws as [|f ws IH]; intros w Hws Hm; cbn [pause_wait]; rewrite wp_bind, wp_gets;
    (destruct (toggle_pause_state_ (rh w)); [|done]); cbn [negb]; rewrite wp_bind;
    (eapply wp_mono; [by apply pause_idle_mirrored|]); intros ? w' [Hm' _]; [done|].
  apply Forall_cons in Hws as [Hf Hws]. rewrite wp_bind, wp_pure_step.
  destruct (_ || _); [rewrite wp_ret; by apply Hf|]. apply IH; auto.
Qed.

Lemma mirrored_pass w : mirrored w -> mirrored (w <| w_mon := snd (process_pass (w_mon w)) |>).
Proof.
  intros (s0 & Hl & Hf). rewrite process_pass_spec. eexists. simpl. split; [|done].
  rewrite (apply_queue_lookup _ _ _ s0 Hl). by rewrite Hf.
Qed.

(** The handler's monitor follows its pausing: over queueing, the
    waiting for and taking of requests, and pausing, whatever happens during
    the waits that also respects this, the last state the handler posted is
    "idle" exactly when [paused_state_] is set; a pass of the monitor thread
    keeps it so. *)
Theorem handler_monitor_follows_pause (w : W) (rs : list (CaptureRequest M)) (e b : bool)
    (ws : list (W -> Z * W)) :
  mirrored w -> wait_keeps mirrored ws -> rh_batch_size_ (rh w) <> 0 ->
  wp (QueueRequestList rs) (fun _ => mirrored) w /\
  wp (QueueReprocRequestList b rs) (fun _ => mirrored) w /\
  wp (SetRepeatingRequests rs) (fun _ => mirrored) w /\
  wp (GetRequest e ws) (fun r w' => mirrored w' /\ (fst r = 0 -> paused_state_ (rh w') = false)) w /\
  wp (WaitOnPause e ws) (fun _ => mirrored) w /\
  mirrored (w <| w_mon := snd (process_pass (w_mon w)) |>).
Proof.
  intros Hm Hws Hb.
  assert (forall w (f : Camera3RequestHandler M -> Camera3RequestHandler M), mirrored w ->
    rh_monitor_id_ (f (rh w)) = rh_monitor_id_ (rh w) -> paused_state_ (f (rh w)) = paused_state_ (rh w) ->
    mirrored (w <| rh := f (rh w) |>)) as Hset by (intros; by eapply mirrored_same).
  split_and!.
  - unfold QueueRequestList, set_rh. rewrite wp_bind, wp_modify, wp_bind, wp_gets, wp_bind.
    eapply wp_mono; [apply Resume_mirrored, (Hset w); done|done].
  - unfold QueueReprocRequestList, set_rh. rewrite wp_bind, wp_gets. destruct (_ && _); [done|].
    rewrite wp_bind, wp_modify, wp_bind, wp_gets, wp_bind.
    eapply wp_mono; [apply Resume_mirrored, (Hset w); done|done].
  - unfold SetRepeatingRequests, set_rh. rewrite wp_bind, wp_gets, wp_bind, wp_modify, wp_bind.
    eapply wp_mono; [apply Resume_mirrored, (Hset w); done|].
    intros ? w' Hm'. rewrite wp_bind, wp_modify, wp_ret. by apply (Hset w').
  - unfold GetRequest. rewrite wp_bind. eapply wp_mono; [by apply get_wait_mirrored|].
    intros [r o] w1 [Hm1 Hq]. simpl. destruct (Z.eqb_spec r 0) as [->|]; [|done]. cbn [negb]. rewrite wp_bind.
    assert (forall next w2, mirrored w2 -> wp (do* start_request next in ret (0, Some next))
      (fun r w' => mirrored w' /\ (fst r = 0 -> paused_state_ (rh w') = false)) w2) as Hst.
    { intros next w2 Hm2. rewrite wp_bind. eapply wp_mono; [by apply start_request_mirrored|].
      intros ? w3 [Hm3 Hp3]. by rewrite wp_ret. }
    destruct o as [next|]; [by apply Hst|].
    eapply wp_mono; [apply take_queued_mirrored; auto|]. intros next w2 Hm2. by apply Hst.
  - unfold WaitOnPause. rewrite wp_bind, wp_gets, wp_bind, wp_gets.
    destruct (Z.eqb_spec (rh_batch_size_ (rh w)) 0); [done|]. destruct (_ =? 0); [|done].
    cbn [negb]. by apply pause_wait_mirrored.
  - by apply mirrored_pass.
Qed.

(** A batch of high speed requests is sent in full before a pause takes
    effect; with the batch size 0 the handler thread divides by zero. *)
Theorem pause_waits_for_batch (w : W) (e : bool) (ws : list (W -> Z * W)) :
  (0 < rh_batch_size_ (rh w) -> current_frame_number_ (rh w) mod rh_batch_size_ (rh w) <> 0 ->
     WaitOnPause e ws w = Some (false, w)) /\
  (rh_batch_size_ (rh w) = 0 -> WaitOnPause e ws w = None) /\
  (0 < rh_batch_size_ (rh w) -> current_frame_number_ (rh w) mod rh_batch_size_ (rh w) = 0 ->
     toggle_pause_state_ (rh w) = true ->
     exists w', WaitOnPause e [] w = Some (true, w') /\ paused_state_ (rh w') = true).
Proof.
  unfold WaitOnPause, bind, gets. split_and!.
  - intros Hb Hn. destruct (Z.eqb_spec (rh_batch_size_ (rh w)) 0); [lia|].
    by apply Z.eqb_neq in Hn as ->.
  - by intros ->.
  - intros Hb Hn Ht. destruct (Z.eqb_spec (rh_batch_size_ (rh w)) 0); [lia|]. rewrite Hn. simpl.
    unfold bind, gets. rewrite Ht. simpl. unfold pause_idle, monitor_idle, set_mon, set_rh, bind, gets, modify, ret.
    destruct (paused_state_ (rh w)) eqn:Ep; eexists; (split; [reflexivity|]); simpl; done.
Qed.
End RequestHandler.

(** ** On the concrete HAL *)

Abbreviation DemoWorld := (World ListDevice MetaMap DemoHal).

(** A client that accepts every request. *)
Definition accepting : HandlerCallbacks ListDevice MetaMap DemoHal :=
  {| mark_cb_ n t e := ret 0; set_error_ := ret tt |}.

Lemma accepting_laws : HandlerCallbacksLaws (HC := accepting).
Proof. by split. Qed.

Definition demo_request (i : Z) (ss : list Z) : CaptureRequest MetaMap :=
  mkRequest {[ANDROID_REQUEST_ID := [i]]} ss (mkExtras i 0 0 0 false) false.

(** A handler that is ready, next to a stream. *)
Definition demo_handler_world (s : SE ListDevice) (f : Camera3RequestHandler MetaMap -> Camera3RequestHandler MetaMap)
    : DemoWorld :=
  let w := demo_world {[0x1000 := st s]} (dev s) (mon s) in
  let w1 := match Initialize true w with Some (_, w1) => w1 | None => w end in
  w1 <| rh := f (rh w1) |>.

Definition demo_timeout (p : Z) (s : SE ListDevice) : Z * SE ListDevice := (- ETIMEDOUT, s).

Lemma demo_timeout_undisturbed : undisturbed demo_timeout.
Proof. intros p x. by split. Qed.

Lemma demo_pool_wf s f : se_wf s -> pool_wf (demo_handler_world s f).
Proof.
  intros Hwf p t Hp. destruct (decide (p = 0x1000)) as [->|Hne].
  - assert (heap (demo_handler_world s f) !! 0x1000 = Some (st s)) as E by apply lookup_singleton_eq.
    rewrite E in Hp. injection Hp as <-. destruct s as [s m d]. by apply (se_wf_any_mon s m _ d).
  - assert (heap (demo_handler_world s f) !! p = None) as E.
    { apply lookup_singleton_ne. congruence. }
    by rewrite E in Hp.
Qed.

Definition demo_handler : DemoWorld := demo_handler_world demo_configured (fun r => r).

Lemma queued_requests_in_order_witness :
  exists got last w', (let* queued := QueueRequestList ([demo_request 1 []] ++ [demo_request 2 []]) in
      let* got := get_requests (length (requests_ (rh demo_handler) ++ [demo_request 1 []] ++ [demo_request 2 []])) in
      ret (queued, got)) demo_handler = Some (((0, last), got), w') /\ requests_ (rh w') = [].
Proof.
  assert (is_u32 (current_frame_number_ (rh demo_handler))) as Hn by (vm_compute; split; congruence).
  assert (Forall plain (requests_ (rh demo_handler) ++ [demo_request 1 []] ++ [demo_request 2 []])) as Hp
    by (vm_compute; by repeat constructor).
  pose proof (queued_requests_in_order demo_handler [demo_request 1 []] (demo_request 2 []) Hp Hn) as Hw.
  apply wp_some in Hw as ([[r n] got] & w' & E & Hr & _ & Hq & _). cbn [fst snd] in Hr. subst r.
  exists got, n, w'. split; [exact E|exact Hq].
Defined.

Lemma repeating_round_witness :
  exists got w', get_requests 1 (demo_handler_world demo_configured
      (fun r => r <| streaming_requests_ := [demo_request 3 []] |>)) = Some (got, w') /\
    streaming_last_frame_number_ (rh w') = 0.
Proof.
  pose proof (repeating_round (demo_handler_world demo_configured
      (fun r => r <| streaming_requests_ := [demo_request 3 []] |>)) (demo_request 3 []) []
      eq_refl eq_refl ltac:(by repeat constructor)) as Hw.
  apply wp_some in Hw as (got & w' & E & _ & _ & _ & _ & Hl). exists got, w'. split; [exact E|exact Hl].
Defined.

Lemma SubmitRequest_buffers_witness :
  exists r w', SubmitRequest (HandlerCallbacks0 := accepting) (HU := plain_hal_usage) demo_timeout no_gaps (demo_request 1 [0x1000]) None
      demo_handler = Some (r, w') /\
    if r =? 0 then is_Some (last (events w')) else lending demo_handler [] w'.
Proof.
  assert (Forall (fun p => exists s, heap demo_handler !! p = Some s /\
            status_ s = STATUS_CONFIGURED) (streams (demo_request 1 [0x1000]))) as Hall.
  { apply Forall_singleton. exists (st demo_configured). split; reflexivity. }
  pose proof (SubmitRequest_buffers (HC := accepting) (HCL := accepting_laws)
    (HU := plain_hal_usage) demo_timeout
    (demo_request 1 [0x1000]) None demo_handler
    demo_timeout_undisturbed (demo_pool_wf _ _ demo_configured_wf) (NoDup_singleton 0x1000) Hall) as Hw.
  apply wp_some in Hw as (r & w' & E0 & Hw). exists r, w'. split; [exact E0|]. destruct (r =? 0); [|done]. destruct Hw as (got & hr & _ & _ & E & _).
  rewrite E. by eexists.
Defined.

Definition demo_all_out : SE ListDevice :=
  stream_run demo_new [OpBeginConfigure; OpEndConfigure; OpGetBuffer; OpGetBuffer; OpGetBuffer].

Lemma failed_request_counts_as_sent_witness :
  exists r w', SubmitRequest (HandlerCallbacks0 := accepting) (HU := plain_hal_usage) demo_timeout no_gaps
      (demo_request 1 [0x1000]) None (demo_handler_world demo_all_out (fun r => r)) = Some (r, w') /\
    r <> 0 /\ requestId (resultExtras (old_request_ (rh w'))) = 1.
Proof.
  pose proof (failed_request_counts_as_sent (HC := accepting) (HU := plain_hal_usage) demo_timeout
    (demo_request 1 [0x1000]) 0x1000 [] (st demo_all_out) (demo_handler_world demo_all_out (fun r => r))
    demo_timeout_undisturbed eq_refl (lookup_singleton_eq _ _) eq_refl eq_refl
    ltac:(vm_compute; congruence)) as Hw.
  apply wp_some in Hw as (r & w' & E & Hr & _ & Hid & _). exists r, w'.
  split; [exact E|]. split; [exact Hr|exact Hid].
Defined.

Lemma handler_monitor_follows_pause_witness :
  exists r w', SetRepeatingRequests [demo_request 1 []] demo_handler = Some (r, w') /\ mirrored w'.
Proof.
  assert (mirrored demo_handler) as Hm by (exists IDLE; split; vm_compute; reflexivity).
  destruct (handler_monitor_follows_pause demo_handler [demo_request 1 []] false true [] Hm
    (Forall_nil_2 _) ltac:(vm_compute; congruence)) as (_ & _ & Hw & _).
  apply wp_some in Hw as (r & w' & E & Hm'). exists r, w'. split; [exact E|exact Hm'].
Defined.
