(* ===== verification/DeviceState.v ===== *)
(** * Camera3DeviceClient: its state machine

    Models the part of common/cameraadaptor/qmmf_camera3_device_client.cc that
    moves the client between its states: the error state, the reports of the
    monitor thread, the waiting for a state, and pausing, resuming, draining
    and flushing on top of it. *)

From S2P Require Import Prelude KeyedVector Monitor Memory Stream Adaptor Floats SmoothZoom World RequestHandler.

Section DeviceState.
Context {D M H : Type} `{AllocDevice D} `{AllocUsage} `{HalPlatform} `{CameraMetadata M}
  `{MetadataTags} `{CameraHal M H} {HU : HalUsage}.

Abbreviation W := (World D M H).

Definition InternalUpdateStatusLocked (s : State) : ST W unit :=
  set_dc (fun c => c <| state_ := s |> <| current_state_updates_ := current_state_updates_ c ++ [s] |>).

(** [SetErrorState] and its variants, which differ in the locking only; the
    message is left out. *)
Definition SetErrorState : ST W unit :=
  let* s := gets (fun w => state_ (dc w)) in
  match s with
  | STATE_ERROR | STATE_NOT_INITIALIZED | STATE_CLOSED => ret tt
  | _ =>
      do* (let* pending := TogglePause true in ret tt) in
      do* InternalUpdateStatusLocked STATE_ERROR in
      let* cb := gets (fun w => errorCb (client_cb_ (dc w))) in
      if cb then emit (EvError ERROR_CAMERA_DEVICE zero_extras) else ret tt
  end.

(** The report of the monitor thread. *)
Definition NotifyStatus (idle : bool) : ST W unit :=
  let* s := gets (fun w => state_ (dc w)) in
  match s with
  | STATE_RUNNING | STATE_CONFIGURED =>
      do* InternalUpdateStatusLocked (if idle then STATE_CONFIGURED else STATE_RUNNING) in
      let* quiet := gets (fun w => pause_state_notify_ (dc w)) in
      let* cb := gets (fun w => idleCb (client_cb_ (dc w))) in
      if quiet then ret tt else if idle && cb then emit EvIdle else ret tt
  | _ => ret tt
  end.

Definition is_running (s : State) : bool := bool_decide (s = STATE_RUNNING).

(** The loop of [WaitUntilStateThenRelock]; [start] is [startIndex]. *)
Fixpoint wait_state (active : bool) (start : nat) (ws : list (W -> Z * W)) : ST W Z :=
  let* s := gets (fun w => state_ (dc w)) in
  if Bool.eqb active (is_running s) then ret 0
  else
    match ws with
    | [] => ret (- ETIMEDOUT)
    | f :: ws' =>
        let* r := pure_step f in
        if negb (r =? 0) then ret r
        else
          let* ups := gets (fun w => drop start (current_state_updates_ (dc w))) in
          if existsb (fun u => Bool.eqb active (is_running u)) ups then ret 0
          else wait_state active start ws'
    end.

Definition WaitUntilStateThenRelock (active : bool) (ws : list (W -> Z * W)) : ST W Z :=
  let* n := gets (fun w => state_listeners_ (dc w)) in
  do* (if n =? 0 then set_dc (fun c => c <| current_state_updates_ := [] |>) else ret tt) in
  let* start := gets (fun w => length (current_state_updates_ (dc w))) in
  do* set_dc (fun c => c <| state_listeners_ := state_listeners_ c + 1 |>) in
  let* res := wait_state active start ws in
  do* set_dc (fun c => c <| state_listeners_ := state_listeners_ c - 1 |>) in
  ret res.

Definition InternalPauseAndWaitLocked (ws : list (W -> Z * W)) : ST W Z :=
  do* (let* pending := TogglePause true in ret tt) in
  do* set_dc (fun c => c <| pause_state_notify_ := true |>) in
  let* res := WaitUntilStateThenRelock false ws in
  do* (if negb (res =? 0) then SetErrorState else ret tt) in
  ret res.

Definition InternalResumeLocked (ws : list (W -> Z * W)) : ST W Z :=
  let* pending := TogglePause false in
  if negb pending then ret 0
  else
    let* res := WaitUntilStateThenRelock true ws in
    do* (if negb (res =? 0) then SetErrorState else ret tt) in
    do* set_dc (fun c => c <| pause_state_notify_ := false |>) in
    ret res.

Definition WaitUntilDrainedLocked (ws : list (W -> Z * W)) : ST W Z :=
  let* s := gets (fun w => state_ (dc w)) in
  match s with
  | STATE_NOT_INITIALIZED | STATE_CLOSED | STATE_NOT_CONFIGURED => ret 0
  | STATE_CONFIGURED | STATE_ERROR | STATE_RUNNING =>
      let* res := WaitUntilStateThenRelock false ws in
      do* (if negb (res =? 0) then SetErrorState else ret tt) in
      ret res
  end.

Definition WaitUntilIdle (ws : list (W -> Z * W)) : ST W Z := WaitUntilDrainedLocked ws.

(** [Flush], with [*lastFrameNumber]; [during] is what the other threads, the
    HAL's callbacks above all, do while the HAL flushes. *)
Definition Flush (ws : list (W -> Z * W)) (during : W -> W) : ST W (Z * Z) :=
  do* set_dc (fun c => c <| flush_on_going_ := true |>) in
  let* r := Clear ws in
  if negb (fst r =? 0) then
    do* set_dc (fun c => c <| flush_on_going_ := false |>) in ret r
  else
    let* open := gets (fun w => device_ (dc w)) in
    if negb open then undefined
    else
      let* res := on_hal hal_flush in
      do* modify during in
      do* (if res =? 0 then set_dc (fun c => c <| repeating_requests_ := [] |>) else ret tt) in
      do* set_dc (fun c => c <| flush_on_going_ := false |>) in
      ret (res, snd r).

(** ** The error state *)

(** Whether an error makes the client enter the error state. *)
Definition can_fail (s : State) : bool :=
  match s with STATE_ERROR | STATE_NOT_INITIALIZED | STATE_CLOSED => false | _ => true end.

(** The world [SetErrorState] leaves. *)
Definition error_world (w : W) : W :=
  if can_fail (state_ (dc w)) then
    w <| rh := (rh w) <| toggle_pause_state_ := true |> |>
      <| dc := (dc w) <| state_ := STATE_ERROR |>
                      <| current_state_updates_ := current_state_updates_ (dc w) ++ [STATE_ERROR] |> |>
      <| events := events w ++
           (if errorCb (client_cb_ (dc w)) then [EvError ERROR_CAMERA_DEVICE zero_extras] else []) |>
  else w.

Lemma SetErrorState_eq w : SetErrorState w = Some (tt, error_world w).
Proof.
  unfold SetErrorState, error_world, InternalUpdateStatusLocked, TogglePause, set_rh, set_dc, emit,
    bind, gets, modify, ret, can_fail.
  destruct (state_ (dc w)); try done; simpl; destruct w as [? ? ? ? ? ? c ?];
    destruct (errorCb (client_cb_ c)) eqn:E; simpl in *; rewrite ?E, ?app_nil_r; done.
Qed.

Lemma wp_SetErrorState Q w : wp SetErrorState Q w <-> Q tt (error_world w).
Proof. unfold wp. by rewrite SetErrorState_eq. Qed.

(** The error state keeps everything but the client's state and the pause
    flag of the request handler. *)
Lemma error_world_keeps w :
  heap (error_world w) = heap w /\ w_mon (error_world w) = w_mon w /\ w_dev (error_world w) = w_dev w /\
  hal (error_world w) = hal w /\ ph (error_world w) = ph w /\
  streams_ (dc (error_world w)) = streams_ (dc w) /\
  pending_requests_vector_ (dc (error_world w)) = pending_requests_vector_ (dc w).
Proof. unfold error_world. by destruct (can_fail _). Qed.

(** ** Waiting for a state *)

(** The other threads only add to the record of updates while a listener is
    registered. *)
Definition only_adds (f : W -> Z * W) : Prop :=
  forall w, exists us, current_state_updates_ (dc (snd (f w))) = current_state_updates_ (dc w) ++ us.

Definition reaches (active : bool) (s : State) : bool := Bool.eqb active (is_running s).

Lemma wait_state_sound active start ws : forall w,
  Forall only_adds ws -> start = length (take start (current_state_updates_ (dc w))) ->
  wp (wait_state active start ws) (fun res w' =>
    take start (current_state_updates_ (dc w')) = take start (current_state_updates_ (dc w)) /\
    (res = 0 -> reaches active (state_ (dc w')) = true \/
       Exists (fun u => reaches active u = true) (drop start (current_state_updates_ (dc w'))))) w.
Proof.
  induction ws as [|f ws IH]; intros w Hws Hs; cbn [wait_state]; rewrite wp_bind, wp_gets;
    (destruct (Bool.eqb _ _) eqn:Ea; [rewrite wp_ret; split; [done|by left]|]); [done|].
  apply Forall_cons in Hws as [Hf Hws]. rewrite wp_bind, wp_pure_step.
  destruct (Hf w) as [us Hu]. destruct (f w) as [r w1]. cbn [fst snd] in *.
  assert (take start (current_state_updates_ (dc w1)) = take start (current_state_updates_ (dc w))) as Et.
  { rewrite Hu, take_app_le; [done|]. rewrite length_take in Hs. lia. }
  destruct (Z.eqb_spec r 0) as [->|]; cbn [negb]; [|rewrite wp_ret; by split].
  rewrite wp_bind, wp_gets. destruct (existsb _ _) eqn:Ex.
  - rewrite wp_ret. split; [done|]. intros _. right. apply existsb_exists in Ex as (u & Hin & Hx).
    apply Exists_exists. exists u. split; [by apply list_elem_of_In|done].
  - eapply wp_mono; [apply IH; [done|by rewrite Et]|]. intros r w2 [E2 Hx2]. split; [congruence|done].
Qed.

(** [f] records that the client entered a state that is waited for. *)
Definition enters (active : bool) (f : W -> Z * W) : Prop :=
  forall w, exists us, current_state_updates_ (dc (snd (f w))) = current_state_updates_ (dc w) ++ us /\
    Exists (fun u => reaches active u = true) us.

Lemma wait_state_catches active start pre f post : forall w,
  Forall (fun g : W -> Z * W => forall w, fst (g w) = 0) (pre ++ [f]) -> Forall only_adds pre ->
  enters active f -> (start <= length (current_state_updates_ (dc w)))%nat ->
  wp (wait_state active start (pre ++ f :: post)) (fun res _ => res = 0) w.
Proof.
  induction pre as [|g pre IH]; intros w Hz Hadd Hf Hs; simpl; rewrite wp_bind, wp_gets;
    (destruct (Bool.eqb _ _) eqn:Ea; [by rewrite wp_ret|]); rewrite wp_bind, wp_pure_step;
    apply Forall_cons in Hz as [Hg Hz]; rewrite Hg; cbn [negb Z.eqb]; rewrite wp_bind, wp_gets.
  - destruct (Hf w) as (us & Eu & Hu). rewrite (proj2 (existsb_exists _ _)); [done|].
    apply Exists_exists in Hu as (u & Hin & Hu). exists u. split; [|done].
    apply list_elem_of_In. rewrite Eu, drop_app_le by done. apply elem_of_app. by right.
  - apply Forall_cons in Hadd as [Hg' Hadd].
    destruct (existsb _ _); [done|]. apply IH; [done..|].
    destruct (Hg' w) as [us Eu]. rewrite Eu, length_app. lia.
Qed.

(** The updates the wait starts from. *)
Definition base_updates (w : W) : list State :=
  if state_listeners_ (dc w) =? 0 then [] else current_state_updates_ (dc w).

(** Waiting for the running state, or for its end, misses no
    transition.  A wait that succeeds has the client in such a state, or saw
    it enter one since the wait began; and a wait that is woken after the
    client entered such a state succeeds, even when the client has left it
    again by then. *)
Theorem wait_misses_no_transition (w : W) (active : bool) (ws : list (W -> Z * W)) :
  Forall only_adds ws ->
  wp (WaitUntilStateThenRelock active ws) (fun res w' =>
    exists seen, current_state_updates_ (dc w') = base_updates w ++ seen /\
      (res = 0 -> reaches active (state_ (dc w')) = true \/
                  Exists (fun u => reaches active u = true) seen)) w /\
  forall pre f post, ws = pre ++ f :: post ->
    Forall (fun g : W -> Z * W => forall w, fst (g w) = 0) (pre ++ [f]) ->
    enters active f ->
    wp (WaitUntilStateThenRelock active ws) (fun res _ => res = 0) w.
Proof.
  intros Hws.
  set (w1 := w <| dc := (dc w) <| current_state_updates_ := base_updates w |>
                              <| state_listeners_ := state_listeners_ (dc w) + 1 |> |>).
  assert (forall Q : Z -> W -> Prop,
    wp (let* res := wait_state active (length (base_updates w)) ws in
        do* set_dc (fun c => c <| state_listeners_ := state_listeners_ c - 1 |>) in ret res) Q w1 ->
    wp (WaitUntilStateThenRelock active ws) Q w) as Hstart.
  { intros Q HQ. unfold WaitUntilStateThenRelock. rewrite wp_bind, wp_gets, wp_bind.
    unfold w1, base_updates in HQ. destruct (Z.eqb_spec (state_listeners_ (dc w)) 0) as [E|].
    - unfold set_dc. rewrite wp_modify, wp_bind, wp_gets, wp_bind, wp_modify. exact HQ.
    - rewrite wp_ret, wp_bind, wp_gets, wp_bind. unfold set_dc. rewrite wp_modify.
      destruct w as [? ? ? ? ? ? c ?]. destruct c. exact HQ. }
  split.
  - apply Hstart. rewrite wp_bind. eapply wp_mono.
    + apply wait_state_sound; [done|]. simpl. by rewrite firstn_all.
    + intros res w' [E Hres]. unfold set_dc. rewrite wp_bind, wp_modify, wp_ret. simpl in E |- *.
      exists (drop (length (base_updates w)) (current_state_updates_ (dc w'))). split; [|done].
      rewrite firstn_all in E. pose proof (take_drop (length (base_updates w)) (current_state_updates_ (dc w'))) as Et.
      by rewrite E in Et.
  - intros pre f post -> Hz Hf. apply Hstart. rewrite wp_bind. eapply wp_mono.
    + apply wait_state_catches; [done| |done|done]. by apply Forall_app in Hws as [Hpre _].
    + intros res w' ->. done.
Qed.

(** When a paused client is resumed with nothing queued, the flag that
    keeps the pause from the client stays set: the client has left the pause
    but none of its later returns to idle is reported. *)
Theorem resume_without_requests_mutes_idle (w : W) (ws : list (W -> Z * W)) :
  requests_ (rh w) = [] -> streaming_requests_ (rh w) = [] -> pause_state_notify_ (dc w) = true ->
  exists w', InternalResumeLocked ws w = Some (0, w') /\
    toggle_pause_state_ (rh w') = false /\ pause_state_notify_ (dc w') = true /\
    forall v b, pause_state_notify_ (dc v) = true ->
      wp (NotifyStatus b) (fun _ v' => events v' = events v /\ pause_state_notify_ (dc v') = true) v.
Proof.
  intros Hq Hs Hp. unfold InternalResumeLocked, TogglePause, set_rh, bind, gets, modify, ret.
  rewrite Hq, Hs. cbn [negb]. eexists. split; [reflexivity|]. split; [done|]. split; [done|].
  intros v b Hv. unfold NotifyStatus, InternalUpdateStatusLocked, set_dc.
  rewrite wp_bind, wp_gets.
  destruct (state_ (dc v)); rewrite ?wp_ret; try done;
    rewrite wp_bind, wp_modify, wp_bind, wp_gets, wp_bind, wp_gets; simpl; by rewrite Hv.
Qed.
End DeviceState.

(** ** On the concrete HAL *)

(** The monitor thread reports that the camera is running. *)
Definition demo_report : World ListDevice MetaMap DemoHal -> Z * World ListDevice MetaMap DemoHal := fun w =>
  (0, w <| dc := (dc w) <| state_ := STATE_RUNNING |>
             <| current_state_updates_ := current_state_updates_ (dc w) ++ [STATE_RUNNING] |> |>).

Definition demo_idle_world : World ListDevice MetaMap DemoHal :=
  demo_world ∅ (dev demo_new) (mon demo_new).

Lemma demo_report_adds : only_adds demo_report.
Proof. intros w. by exists [STATE_RUNNING]. Qed.

Lemma wait_misses_no_transition_witness :
  wp (WaitUntilStateThenRelock true [demo_report]) (fun res _ => res = 0) demo_idle_world.
Proof.
  apply (proj2 (wait_misses_no_transition demo_idle_world true [demo_report]
    (proj2 (Forall_singleton _ _) demo_report_adds)) [] demo_report [] eq_refl).
  - by apply Forall_singleton.
  - intros w. exists [STATE_RUNNING]. split; [done|]. by apply Exists_cons_hd.
Defined.

Definition demo_paused_world : World ListDevice MetaMap DemoHal :=
  demo_idle_world <| dc := (dc demo_idle_world) <| pause_state_notify_ := true |> |>.

Lemma resume_without_requests_mutes_idle_witness :
  exists w', InternalResumeLocked [] demo_paused_world = Some (0, w') /\ pause_state_notify_ (dc w') = true.
Proof.
  destruct (resume_without_requests_mutes_idle demo_paused_world [] eq_refl eq_refl eq_refl)
    as (w' & E & _ & Hp & _).
  exists w'. split; [exact E|exact Hp].
Defined.
