(* ===== verification/DeviceStreams.v ===== *)
(** * Camera3DeviceClient: the camera and its streams

    Models the part of common/cameraadaptor/qmmf_camera3_device_client.cc that
    opens the camera, creates, configures, prepares and deletes its streams,
    and takes buffers back from the client. *)

From S2P Require Import Prelude KeyedVector Monitor Memory Stream Adaptor Floats SmoothZoom World PrepareHandler RequestHandler DeviceState.

(** Macros of the build and constants of the platform's headers. *)
Class ClientPlatform := {
  DISABLE_OP_MODES : bool;
  USE_FPS_IDX : bool;
  CAMERA3_STREAM_CONFIGURATION_NORMAL_MODE : Z;
  CAMERA3_STREAM_CONFIGURATION_CONSTRAINED_HIGH_SPEED_MODE : Z;
  CAMERA3_TEMPLATE_COUNT : Z;
  sizeof_camera3_jpeg_blob : Z;
  (** what a [CaptureResultExtras] without an initialiser holds *)
  indeterminate_extras : CaptureResultExtras;
  (** [KeyedVector::valueFor] of a key that is missing: the address it gives,
      or nothing when it aborts *)
  valueFor_missing : option Z
}.

Definition QCAMERA3_VENDOR_STREAM_CONFIGURATION_RAW_ONLY_MODE : Z := 0x8000.
Definition QCAMERA3_SENSORMODE_ZZHDR_OPMODE : Z := 0xF002.
Definition QCAMERA3_SENSORMODE_FPS_DEFAULT_INDEX : Z := 0.
Definition FORCE_SENSORMODE_ENABLE : Z := Z.shiftl 1 24.
Definition EIS_ENABLE : Z := 0xF200.
Definition LDC_ENABLE : Z := 0xF800.

(** [HARDWARE_DEVICE_API_VERSION(3, 2)]. *)
Definition CAMERA_DEVICE_API_VERSION_3_2 : Z := 0x302.

Section DeviceStreams.
Context {D M H : Type} `{AllocDevice D} `{AllocUsage} `{HalPlatform} `{CameraMetadata M}
  `{MetadataTags} `{CameraHal M H} {HU : HalUsage} `{ClientPlatform}.

Abbreviation W := (World D M H).

(** ** Opening *)

(** The common exit of [Initialize]. *)
Definition abandon : ST W unit :=
  set_dc (fun c => c <| alloc_device_interface_ := false |> <| device_ := false |>
                     <| camera_module_ := false |>).

(** [load] is what [hw_get_module] returns and whether it gives a module,
    [tags] the result of setting up the vendor tags, [alloc] whether an
    allocator can be created. *)
Definition Initialize (load : Z * bool) (tags : Z) (alloc : bool) : ST W Z :=
  let* s := gets (fun w => state_ (dc w)) in
  if negb (bool_decide (s = STATE_NOT_INITIALIZED)) then do* abandon in ret (- ENOSYS)
  else
    do* set_dc (fun c => c <| camera_module_ := snd load |>) in
    if negb (fst load =? 0) || negb (snd load) then do* abandon in ret (fst load)
    else
      do* modify (fun w => w <| dc := (dc w) <| number_of_cameras_ := u32 (get_number_of_cameras (hal w)) |> |>) in
      let* res := on_hal hal_module_init in
      if negb (res =? 0) then do* abandon in ret res
      else if negb (tags =? 0) then do* abandon in ret tags
      else
        do* set_dc (fun c => c <| alloc_device_interface_ := alloc |> <| state_ := STATE_CLOSED |>
                               <| next_stream_id_ := 0 |> <| reconfig_ := true |>) in
        ret 0.

(** The common exit of [OpenCamera]. *)
Definition close_device : ST W unit :=
  let* open := gets (fun w => device_ (dc w)) in
  do* (if open then modify (fun w => w <| hal := hal_close (hal w) |>) else ret tt) in
  set_dc (fun c => c <| device_ := false |>).

(** What [OpenCamera] reads from the characteristics of the camera. *)
Definition learn_device (info : M) (c : Camera3DeviceClient M) : Camera3DeviceClient M :=
  let c1 :=
    match meta_data ANDROID_REQUEST_PARTIAL_RESULT_COUNT info with
    | n :: _ => c <| partial_result_count_ := u32 n |> <| is_partial_result_supported_ := 1 <? u32 n |>
    | [] => c
    end in
  if existsb (Z.eqb CONSTRAINED_HIGH_SPEED_VIDEO) (meta_data ANDROID_REQUEST_AVAILABLE_CAPABILITIES info)
  then c1 <| is_hfr_supported_ := true |> else c1.

(** [run_res] is what starting the request thread returns. *)
Definition OpenCamera (run_res idx : Z) : ST W Z :=
  let* c := gets dc in
  if number_of_cameras_ c <=? idx then ret (- EINVAL)
  else if negb (camera_module_ c) then ret (- ENODEV)
  else if device_ c then ret (- EINVAL)
  else if negb (bool_decide (state_ c = STATE_CLOSED)) then do* close_device in ret (- ENOSYS)
  else
    let* info := gets (fun w => get_camera_info idx (hal w)) in
    if negb (fst info =? 0) then do* close_device in ret (fst info)
    else
      do* set_dc (fun c => c <| device_info_ := snd info |>) in
      let* res := on_hal (hal_open idx) in
      if negb (res =? 0) then do* close_device in ret res
      else
        do* set_dc (fun c => c <| device_ := true |>) in
        let* version := gets (fun w => hal_version (hal w)) in
        if version <? CAMERA_DEVICE_API_VERSION_3_2 then do* close_device in ret (- EINVAL)
        else
          let* res := on_hal hal_initialize in
          if negb (res =? 0) then do* close_device in ret res
          else
            do* set_dc (learn_device (snd info)) in
            do* set_dc (fun c => c <| camera_id_ := idx |> <| state_ := STATE_NOT_CONFIGURED |>) in
            let* cb := gets (fun w => errorCb (client_cb_ (dc w))) in
            do* (let* i := RequestHandler.Initialize cb in ret tt) in
            if run_res <? 0 then
              do* SetErrorState in do* close_device in ret run_res
            else ret run_res.

(** ** Configuration *)

Definition GetOpMode (c : Camera3DeviceClient M) : Z :=
  let has f := negb (Z.land (cam_feature_flags_ c) f =? 0) in
  if negb DISABLE_OP_MODES then
    if is_raw_only_ c then QCAMERA3_VENDOR_STREAM_CONFIGURATION_RAW_ONLY_MODE
    else CAMERA3_STREAM_CONFIGURATION_NORMAL_MODE
  else
    let m0 := CAMERA3_STREAM_CONFIGURATION_NORMAL_MODE in
    let m1 := if has CamFeatureFlag_kHDR then Z.lor m0 QCAMERA3_SENSORMODE_ZZHDR_OPMODE else m0 in
    let m2 := if hfr_mode_enabled_ c
              then Z.lor m1 CAMERA3_STREAM_CONFIGURATION_CONSTRAINED_HIGH_SPEED_MODE else m1 in
    let m3 := if has CamFeatureFlag_kEIS then Z.lor m2 EIS_ENABLE else m2 in
    let m4 := if has CamFeatureFlag_kLDC then Z.lor m3 LDC_ENABLE else m3 in
    if has CamFeatureFlag_kForceSensorMode then
      Z.lor m4 (Z.lor (Z.land FORCE_SENSOR_MODE_MASK (cam_feature_flags_ c)) FORCE_SENSORMODE_ENABLE)
    else if QCAMERA3_SENSORMODE_FPS_DEFAULT_INDEX <? fps_sensormode_index_ c then
      Z.lor m4 (u32 (Z.shiftl (fps_sensormode_index_ c) 16))
    else m4.

(** [BeginConfigure] of the streams in turn, until one refuses. *)
Fixpoint begin_all (ss : list Z) : ST W bool :=
  match ss with
  | [] => ret true
  | p :: ss' => let* ok := on_stream p BeginConfigure in if ok then begin_all ss' else ret false
  end.

(** [AbortConfigure] or [EndConfigure] of those that are being configured. *)
Fixpoint finish_all (f : SE D -> Z * SE D) (ss : list Z) : ST W Z :=
  match ss with
  | [] => ret 0
  | p :: ss' =>
      let* active := of_stream p IsConfigureActive in
      let* res := (if active then on_stream p f else ret 0) in
      if negb (res =? 0) then ret res else finish_all f ss'
  end.

(** The stream descriptors the HAL is shown and writes to. *)
Fixpoint hal_view (ss : list Z) : ST W (list (Z * Z)) :=
  match ss with
  | [] => ret []
  | p :: ss' =>
      let* x := of_stream p (fun s => (usage s, max_buffers s)) in
      let* xs := hal_view ss' in ret (x :: xs)
  end.

Fixpoint hal_write (ss : list Z) (out : list (Z * Z)) : ST W (list (Z * Z)) :=
  match ss, out with
  | p :: ss', (u, m) :: out' =>
      do* on_stream p (fun s => (tt, s <| st := (st s) <| usage := u |> <| max_buffers := m |> |>)) in
      hal_write ss' out'
  | _, _ => ret out
  end.

Definition has_input (c : Camera3DeviceClient M) : bool := 0 <=? in_stream_id (input_stream_ c).

(** The call into the HAL, with the translation of the usage flags around it. *)
Definition configure_hal (ss : list Z) : ST W Z :=
  do* for_each ss (fun p => on_stream p (set_usage usage_to_hal)) in
  let* outs := hal_view ss in
  let* c := gets dc in
  let ins := if has_input c
             then [(usage_to_hal (in_usage (input_stream_ c)), in_max_buffers (input_stream_ c))] else [] in
  let config := mkHalConfig (GetOpMode c) (outs ++ ins) in
  let* r := on_hal (fun h => let '(r, l, h') := hal_configure_streams config h in ((r, l), h')) in
  let* rest := hal_write ss (snd r) in
  do* set_dc (fun c =>
    match rest with
    | (u, m) :: _ =>
        if has_input c then c <| input_stream_ := (input_stream_ c) <| in_usage := usage_from_hal u |>
                                                                  <| in_max_buffers := m |> |>
        else c
    | [] => c
    end) in
  do* for_each ss (fun p => on_stream p (set_usage usage_from_hal)) in
  ret (fst r).

Definition delete_stream (p : Z) : ST W unit :=
  do* on_stream p (fun s => (tt, Camera3Stream_delete s)) in
  modify (fun w => w <| heap := delete p (heap w) |>).

(** The loop over [deleted_streams_]. *)
Definition purge_deleted : ST W unit :=
  let* gone := gets (fun w => deleted_streams_ (dc w)) in
  do* for_each gone delete_stream in
  set_dc (fun c => c <| deleted_streams_ := [] |>).

Definition stream_ptrs (w : W) : list Z := kv_values (streams_ (dc w)).

Definition ConfigureStreamsLocked : ST W Z :=
  let* c := gets dc in
  if negb (bool_decide (state_ c = STATE_NOT_CONFIGURED) || bool_decide (state_ c = STATE_CONFIGURED))
  then ret (- ENOSYS)
  else if negb (reconfig_ c) then ret 0
  else
    let* ss := gets stream_ptrs in
    let* ok := begin_all ss in
    if negb ok then ret (- ENOSYS)
    else if negb (device_ c) then undefined
    else
      do* set_dc (fun c => if has_input c
                           then c <| input_stream_ := (input_stream_ c) <| in_usage := 0 |> |> else c) in
      let* res := configure_hal ss in
      if res =? - EINVAL then
        let* r := finish_all AbortConfigure ss in
        if negb (r =? 0) then ret r
        else
          do* InternalUpdateStatusLocked STATE_NOT_CONFIGURED in
          do* set_dc (fun c => c <| reconfig_ := true |>) in
          ret (- EINVAL)
      else if negb (res =? 0) then ret res
      else
        let* r := finish_all EndConfigure ss in
        if negb (r =? 0) then ret r
        else
          do* FinishConfiguration (dc_batch_size_ c) in
          do* set_dc (fun c => c <| reconfig_ := false |> <| frame_number_ := 0 |>) in
          do* InternalUpdateStatusLocked STATE_CONFIGURED in
          do* purge_deleted in
          ret 0.

(** [ConfigureStreams], whose result goes through a [bool]. *)
Definition ConfigureStreams (sc : StreamConfiguration) : ST W Z :=
  do* set_dc (fun c =>
    let c1 := c <| hfr_mode_enabled_ := is_constrained_high_speed sc |>
                <| is_raw_only_ := is_raw_only sc |> <| dc_batch_size_ := batch_size sc |>
                <| frame_rate_range_ := frame_rate_range sc |>
                <| cam_feature_flags_ :=
                     match params sc with
                     | Some p => Z.lor (cam_feature_flags_ c) (sp_cam_feature_flags p)
                     | None => cam_feature_flags_ c
                     end |> in
    if USE_FPS_IDX then c1 <| fps_sensormode_index_ := fps_sensormode_index sc |> else c1) in
  let* res := ConfigureStreamsLocked in
  ret (if res =? 0 then 0 else 1).

Definition EndConfigure (sc : StreamConfiguration) : ST W Z :=
  let* c := gets dc in
  if negb (camera_module_ c) then ret (- ENODEV)
  else if is_constrained_high_speed sc && negb (is_hfr_supported_ c) then ret (- EINVAL)
  else ConfigureStreams sc.

(** ** Streams *)

(** [QueryMaxBlobSize]: the loop over the groups of four values. *)
Fixpoint max_blob (cfgs : list Z) (w h : Z) : Z * Z :=
  match cfgs with
  | f :: cw :: ch :: dir :: rest =>
      if (dir =? STREAM_CONFIGURATIONS_OUTPUT) && (f =? HAL_PIXEL_FORMAT_BLOB) &&
         (i32 (w * h) <? i32 (cw * ch))
      then max_blob rest cw ch else max_blob rest w h
  | _ => (w, h)
  end.

Definition QueryMaxBlobSize (info : M) : Z * Z :=
  let cfgs := meta_data ANDROID_SCALER_AVAILABLE_STREAM_CONFIGURATIONS info in
  if Z.of_nat (length cfgs) mod 4 =? 0 then max_blob cfgs 0 0 else (0, 0).

Definition JPEG_BUFFER_SIZE_MIN : Z := 256 * 1024 + sizeof_camera3_jpeg_blob.

(** Conversion of a float to a 64-bit integer: towards zero. *)
Definition f32_to_ssize (x : float32) : Z :=
  match x with
  | SpecFloat.S754_finite s m e =>
      let a := if 0 <=? e then Zpos m * 2 ^ e else Zpos m / 2 ^ (- e) in if s then - a else a
  | _ => 0
  end.

(** [None] when the assertion on the sizes fails. *)
Definition CaclulateBlobSize (info : M) (w h : Z) : option Z :=
  let '(mw, mh) := QueryMaxBlobSize info in
  if mw =? 0 then Some (- EINVAL)
  else
    match meta_data ANDROID_JPEG_MAX_SIZE info with
    | [] => Some (- EINVAL)
    | maxSize :: _ =>
        if maxSize <=? JPEG_BUFFER_SIZE_MIN then None
        else
          let scale := f32_div (f32_of_Z (i32 (w * h))) (f32_of_Z (i32 (mw * mh))) in
          let size := f32_to_ssize (f32_add (f32_mul scale (f32_of_Z (i32 (maxSize - JPEG_BUFFER_SIZE_MIN))))
                                            (f32_of_Z JPEG_BUFFER_SIZE_MIN)) in
          Some (i32 (if maxSize <? size then maxSize else size))
    end.

(** The state check of the methods that add a stream: [inl] a refusal, or
    whether the client was running and has been paused.  A client that is
    running again at the end fails the assertion. *)
Definition pause_to_add (ws : list (W -> Z * W)) : ST W (Z + bool) :=
  let* s := gets (fun w => state_ (dc w)) in
  match s with
  | STATE_ERROR | STATE_NOT_INITIALIZED | STATE_CLOSED => ret (inl (- ENOSYS))
  | STATE_NOT_CONFIGURED | STATE_CONFIGURED => ret (inr false)
  | STATE_RUNNING =>
      let* res := InternalPauseAndWaitLocked ws in
      if negb (res =? 0) then do* SetErrorState in ret (inl res)
      else
        let* s := gets (fun w => state_ (dc w)) in
        if is_running s then undefined else ret (inr true)
  end.

(** The end of these methods: a client that was running continues. *)
Definition continue_if (wasActive : bool) (ws : list (W -> Z * W)) : ST W Z :=
  if wasActive then
    let* res := ConfigureStreamsLocked in
    if negb (res =? 0) then ret res else let* r := InternalResumeLocked ws in ret 0
  else ret 0.

(** A new stream is registered under the next identifier; [new] gives an
    address that is not in use. *)
Definition add_stream (p blob : Z) (cfg : CameraStreamParameters) : ST W unit := fun w =>
  let i := next_stream_id_ (dc w) in
  match heap w !! p with
  | Some _ => None
  | None =>
      if p =? 0 then None
      else Some (tt, w
        <| heap := <[p := Camera3Stream_new p i blob cfg (alloc_device_interface_ (dc w))]> (heap w) |>
        <| dc := (dc w) <| streams_ := kv_add i p (streams_ (dc w)) |> <| reconfig_ := true |> |>)
  end.

(** [p] is the address of the new stream; [ws1] and [ws2] are the waits for
    the pause and for the restart. *)
Definition CreateStream (p : Z) (cfg : CameraStreamParameters) (ws1 ws2 : list (W -> Z * W)) : ST W Z :=
  if negb (sp_has_cb cfg) then ret (- EINVAL)
  else
    let* r := pause_to_add ws1 in
    match r with
    | inl e => ret e
    | inr wasActive =>
        let* info := gets (fun w => device_info_ (dc w)) in
        match (if sp_format cfg =? HAL_PIXEL_FORMAT_BLOB
               then CaclulateBlobSize info (sp_width cfg) (sp_height cfg) else Some 0) with
        | None => undefined
        | Some blob =>
            if (sp_format cfg =? HAL_PIXEL_FORMAT_BLOB) && (blob <=? 0) then ret (- EINVAL)
            else
              do* add_stream p blob cfg in
              let* res := continue_if wasActive ws2 in
              if negb (res =? 0) then ret res
              else
                let* n := gets (fun w => next_stream_id_ (dc w)) in
                do* set_dc (fun c => c <| next_stream_id_ := n + 1 |>) in
                ret n
        end
    end.

(** [cbs]: both callbacks of the input stream are given. *)
Definition CreateInputStream (cbs : bool) (w h f : Z) (ws1 ws2 : list (W -> Z * W)) : ST W Z :=
  if negb cbs then ret (- EINVAL)
  else
    let* c := gets dc in
    if has_input c then ret (- ENOSYS)
    else
      let* r := pause_to_add ws1 in
      match r with
      | inl e => ret e
      | inr wasActive =>
          do* set_dc (fun c => c <| reconfig_ := true |>
                <| input_stream_ := mkInputStream w h f 0 0 0 (next_stream_id_ c) ∅ 0 |>
                <| next_stream_id_ := next_stream_id_ c + 1 |>) in
          let* res := continue_if wasActive ws2 in
          if negb (res =? 0) then ret res
          else gets (fun w => in_stream_id (input_stream_ (dc w)))
      end.

(** The end of a stream that has been taken out of the table. *)
Definition retire_stream (p : Z) (cache : bool) (ws : list (W -> Z * W)) : ST W Z :=
  let* last := gets (fun w => match streams_ (dc w) with [] => true | _ => false end) in
  do* (if last then set_dc (fun c => c <| cam_feature_flags_ := CamFeatureFlag_kNone |>) else ret tt) in
  let* res := on_stream p Close in
  if negb cache && negb last then
    do* set_dc (fun c => c <| reconfig_ := true |>) in
    let* res := ConfigureStreamsLocked in
    if negb (res =? 0) then ret res
    else let* r := InternalResumeLocked ws in ret 0
  else
    do* set_dc (fun c => if is_running (state_ c) then c else c <| reconfig_ := true |>) in
    do* set_dc (fun c => c <| deleted_streams_ := deleted_streams_ c ++ [p] |>) in
    ret res.

(** The deletion once the client may be changed. *)
Definition delete_known (streamId : Z) (cache : bool) (ws : list (W -> Z * W)) : ST W Z :=
  let* c := gets dc in
  if streamId =? in_stream_id (input_stream_ c) then
    do* set_dc (fun c => c <| input_stream_ := (input_stream_ c) <| in_stream_id := -1 |> |>) in
    ret 0
  else
    match kv_lookup streamId (streams_ c) with
    | None => ret (- EINVAL)
    | Some p =>
        let* busy := RequestHandler.IsStreamActive p in
        if busy then ret (- ENOSYS)
        else
          do* set_dc (fun c => c <| streams_ := kv_remove streamId (streams_ c) |>) in
          retire_stream p cache ws
    end.

Definition DeleteStream (streamId : Z) (cache : bool) (ws1 ws2 : list (W -> Z * W)) : ST W Z :=
  let* s := gets (fun w => state_ (dc w)) in
  match s with
  | STATE_ERROR | STATE_NOT_INITIALIZED | STATE_CLOSED => ret (- ENOSYS)
  | _ =>
      let* res := (if cache then ret 0 else InternalPauseAndWaitLocked ws1) in
      if negb (res =? 0) then do* SetErrorState in ret res
      else delete_known streamId cache ws2
  end.

(** [Prepare] and [TearDown] go on after an unknown identifier, with an
    index out of range. *)
Definition Prepare (run_res streamId : Z) : ST W Z :=
  let* c := gets dc in
  match kv_lookup streamId (streams_ c) with
  | None => undefined
  | Some p =>
      let* active := of_stream p Stream.IsStreamActive in
      if active then ret (- EINVAL)
      else
        let* busy := RequestHandler.IsStreamActive p in
        if busy then ret (- EINVAL) else PrepareHandler.Prepare run_res p
  end.

Definition TearDown (streamId : Z) : ST W Z :=
  let* c := gets dc in
  match kv_lookup streamId (streams_ c) with
  | None => undefined
  | Some p =>
      let* busy := RequestHandler.IsStreamActive p in
      if busy then ret (- EINVAL) else on_stream p Stream.TearDown
  end.

Definition ReturnStreamBuffer (b : StreamBuffer) : ST W Z :=
  let* s := gets (fun w => state_ (dc w)) in
  match s with
  | STATE_CONFIGURED | STATE_RUNNING =>
      let* c := gets dc in
      match kv_lookup (sb_stream_id b) (streams_ c) with
      | None => ret (- EINVAL)
      | Some p => on_stream p (ReturnBuffer b)
      end
  | _ => ret (- ENOSYS)
  end.

(** ** Static information and templates *)

Definition GetCameraInfo (has_info : bool) (idx : Z) : ST W (Z * option M) :=
  let* c := gets dc in
  if negb has_info then ret (- EINVAL, None)
  else if number_of_cameras_ c <=? idx then ret (- EINVAL, None)
  else if negb (camera_module_ c) then ret (- ENODEV, None)
  else
    let* info := gets (fun w => get_camera_info idx (hal w)) in
    ret (fst info, if fst info =? 0 then Some (snd info) else None).

Definition CreateDefaultRequest (templateId : Z) : ST W (Z * option M) :=
  let* c := gets dc in
  match state_ c with
  | STATE_ERROR | STATE_NOT_INITIALIZED | STATE_CLOSED => ret (- ENOSYS, None)
  | _ =>
      if (templateId <? 0) || (CAMERA3_TEMPLATE_COUNT <=? templateId) then undefined
      else
        let cached := default meta_empty (request_templates_ c !! templateId) in
        if negb (meta_isEmpty cached) then ret (0, Some cached)
        else if negb (device_ c) then undefined
        else
          let* raw := gets (fun w => construct_default_request_settings templateId (hal w)) in
          match raw with
          | None => ret (- EINVAL, None)
          | Some m =>
              do* set_dc (fun c => c <| request_templates_ := <[templateId := m]> (request_templates_ c) |>) in
              ret (0, Some m)
          end
  end.

(** ** Destruction: the body, then the members *)

Definition Camera3DeviceClient_delete : ST W unit :=
  let* open := gets (fun w => device_ (dc w)) in
  do* (if open then modify (fun w => w <| hal := hal_close (hal w) |>) else ret tt) in
  do* (let* r := PrepareHandler.Clear in ret tt) in
  let* ss := gets stream_ptrs in
  do* for_each ss delete_stream in
  do* set_dc (fun c => c <| streams_ := [] |>) in
  do* purge_deleted in
  do* set_dc (fun c => c <| alloc_device_interface_ := false |>
                         <| pending_error_requests_vector_ := [] |>) in
  do* Camera3PrepareHandler_delete in
  Camera3RequestHandler_delete.
End DeviceStreams.
