(* ===== verification/DeviceRequests.v ===== *)
(** * Camera3DeviceClient: submission of requests

    Models the part of common/cameraadaptor/qmmf_camera3_device_client.cc that
    validates the requests of the client, numbers them, turns them into
    requests of the adaptor and queues them at the request handler. *)

From stdpp Require Import sorting.
From S2P Require Import Prelude KeyedVector Monitor Memory Stream Adaptor Floats SmoothZoom World PrepareHandler RequestHandler DeviceState DeviceStreams.

(** [compare] of qmmf_camera3_utils.cc, by which the identifiers of a request
    are sorted. *)
Definition compare (left right : Z) : Z :=
  if left <? right then -1 else if right <? left then 1 else 0.

Definition compare_le (left right : Z) : Prop := compare left right <= 0.

#[export] Instance compare_le_dec l r : Decision (compare_le l r).
Proof. unfold compare_le. apply _. Defined.

Section DeviceRequests.
Context {D M H : Type} `{AllocDevice D} `{AllocUsage} `{HalPlatform} `{CameraMetadata M}
  `{MetadataTags} `{CameraHal M H} {HU : HalUsage} `{ClientPlatform}.

Abbreviation W := (World D M H).

(** [streams_.valueFor]. *)
Definition valueFor (i : Z) (m : kv Z) : option Z :=
  match kv_lookup i m with Some p => Some p | None => valueFor_missing end.

(** The loop of [SubmitRequestList] over the sorted identifiers of a request:
    [None] when it aborts, [Some (inl code)] when it refuses, or the metadata
    and [input_stream_idx]. *)
Fixpoint check_ids (c : Camera3DeviceClient M) (ids : list Z) (i prev idx : Z) (m : M)
    : option (Z + M * Z) :=
  match ids with
  | [] => Some (inr (m, idx))
  | x :: ids' =>
      if in_stream_id (input_stream_ c) =? x then
        check_ids c ids' (i + 1) prev i (snd (meta_update ANDROID_REQUEST_INPUT_STREAMS [x] m))
      else
        match valueFor x (streams_ c) with
        | None => None
        | Some p =>
            if p =? 0 then Some (inl (- EINVAL))
            else if prev =? x then Some (inl (- EINVAL))
            else check_ids c ids' (i + 1) x idx m
        end
  end.

(** The metadata of one request, numbered [n]. *)
Definition prepare_metadata (c : Camera3DeviceClient M) (n : Z) (r : Camera3Request M) : option (Z + M) :=
  if meta_isEmpty (rq_metadata r) then Some (inl (- EINVAL))
  else
    match streamIds r with
    | [] => Some (inl (- EINVAL))
    | _ =>
        let ids := merge_sort compare_le (streamIds r) in
        match check_ids c ids 0 (-1) (-1) (rq_metadata r) with
        | None => None
        | Some (inl e) => Some (inl e)
        | Some (inr (m, idx)) =>
            let outs := if 0 <=? idx then delete (Z.to_nat idx) ids else ids in
            match outs with
            | [] => None
            | _ => Some (inr (snd (meta_update ANDROID_REQUEST_ID [n]
                                     (snd (meta_update ANDROID_REQUEST_OUTPUT_STREAMS outs m)))))
            end
        end
    end.

(** The loop over the requests. *)
Fixpoint prepare_list (n : Z) (rs : list (Camera3Request M)) : ST W (Z * list M * Z) :=
  match rs with
  | [] => ret (0, [], n)
  | r :: rs' =>
      let* c := gets dc in
      match prepare_metadata c n r with
      | None => undefined
      | Some (inl e) => ret (e, [], n)
      | Some (inr m) =>
          do* set_dc (fun c => c <| current_request_ids_ := current_request_ids_ c ++ [n] |>) in
          let* x := prepare_list (i32 (n + 1)) rs' in
          let '(e, ms, n') := x in ret (e, m :: ms, n')
      end
  end.

(** The streams of a request, by the identifiers in its metadata. *)
Fixpoint request_streams (ids : list Z) : ST W (Z * list Z) :=
  match ids with
  | [] => ret (0, [])
  | i :: ids' =>
      let* c := gets dc in
      match kv_lookup i (streams_ c) with
      | None => ret (- EINVAL, [])
      | Some p =>
          let* active := of_stream p IsConfigureActive in
          let* res := (if active then on_stream p Stream.EndConfigure else ret 0) in
          if negb (res =? 0) then ret (- ENODEV, [])
          else
            let* preparing := of_stream p IsPrepareActive in
            if preparing then ret (- ENOSYS, [])
            else let* x := request_streams ids' in ret (fst x, p :: snd x)
      end
  end.

(** The reconfiguration [GenerateCaptureRequestLocked] begins with. *)
Definition ensure_configured : ST W Z :=
  let* c := gets dc in
  if bool_decide (state_ c = STATE_NOT_CONFIGURED) || reconfig_ c then
    let* res := ConfigureStreamsLocked in
    let* s := gets (fun w => state_ (dc w)) in
    if (res =? - EINVAL) && bool_decide (s = STATE_NOT_CONFIGURED) then ret (- EINVAL)
    else if negb (res =? 0) then ret res
    else if bool_decide (s = STATE_NOT_CONFIGURED) then ret (- ENODEV)
    else ret 0
  else ret 0.

(** The identifiers of the input stream: a code, and whether there is one. *)
Definition request_input (m : M) : ST W (Z * bool) :=
  match meta_find ANDROID_REQUEST_INPUT_STREAMS m with
  | None => ret (0, false)
  | Some [x] =>
      let* c := gets dc in
      if in_stream_id (input_stream_ c) =? x then ret (0, true) else ret (- ENOSYS, false)
  | Some _ => ret (- ENOSYS, false)
  end.

Definition GenerateCaptureRequestLocked (request : M) : ST W (Z * CaptureRequest M) :=
  let blank := mkRequest meta_empty [] indeterminate_extras false in
  let* res := ensure_configured in
  if negb (res =? 0) then ret (res, blank)
  else
    match meta_data ANDROID_REQUEST_OUTPUT_STREAMS request with
    | [] => ret (- EINVAL, blank)
    | ids =>
        let* x := request_streams ids in
        if negb (fst x =? 0) then ret (fst x, blank)
        else
          let m := meta_erase ANDROID_REQUEST_OUTPUT_STREAMS request in
          let* i := request_input m in
          if negb (fst i =? 0) then ret (fst i, blank)
          else
            let m' := if snd i then meta_erase ANDROID_REQUEST_INPUT_STREAMS m else m in
            ret (0, mkRequest m' (snd x) (indeterminate_extras <| Adaptor.input := snd i |>) (snd i))
    end.

(** [GetRequestListLocked]: the requests and the reprocess requests. *)
Fixpoint GetRequestListLocked (burst : Z) (ms : list M)
    : ST W (Z * list (CaptureRequest M) * list (CaptureRequest M)) :=
  match ms with
  | [] => ret (0, [], [])
  | m :: ms' =>
      let* g := GenerateCaptureRequestLocked m in
      if negb (fst g =? 0) then ret (- EINVAL, [], [])
      else
        match meta_data ANDROID_REQUEST_ID m with
        | [] => ret (- EINVAL, [], [])
        | n :: _ =>
            let r := (snd g) <| resultExtras := (resultExtras (snd g))
                                  <| burstId := burst |> <| requestId := n |> |> in
            let* x := GetRequestListLocked (burst + 1) ms' in
            let '(e, rs, ps) := x in
            ret (e, if rq_input r then rs else r :: rs, if rq_input r then r :: ps else ps)
        end
  end.

Definition is_nil {A} (l : list A) : bool := match l with [] => true | _ => false end.

(** [AddRequestListLocked], with [*lastFrameNumber]; whether the client gets
    to run in time does not matter. *)
Definition AddRequestListLocked (thread_ok : bool) (ms : list M) (streaming : bool)
    (ws : list (W -> Z * W)) : ST W (Z * Z) :=
  let* x := GetRequestListLocked 0 ms in
  let '(res, rs, ps) := x in
  if negb (res =? 0) then ret (res, 0)
  else if Bool.eqb (is_nil rs) (is_nil ps) then ret (- EINVAL, 0)
  else
    let* q := (if negb (is_nil ps) then QueueReprocRequestList thread_ok ps
               else if streaming then SetRepeatingRequests rs else QueueRequestList rs) in
    if negb (fst q =? 0) then ret q
    else let* r := WaitUntilStateThenRelock true ws in ret q.

Definition SubmitRequestList (thread_ok : bool) (rs : list (Camera3Request M)) (streaming : bool)
    (ws : list (W -> Z * W)) : ST W (Z * Z) :=
  if is_nil rs then ret (- EINVAL, 0)
  else
    let* first := gets (fun w => next_request_id_ (dc w)) in
    do* set_dc (fun c => c <| current_request_ids_ := [] |>) in
    let* s := gets (fun w => state_ (dc w)) in
    match s with
    | STATE_ERROR | STATE_NOT_INITIALIZED | STATE_CLOSED => ret (- ENOSYS, 0)
    | _ =>
        let* x := prepare_list first rs in
        let '(e, ms, n) := x in
        if negb (e =? 0) then ret (e, 0)
        else
          do* set_dc (fun c => c <| next_request_id_ := n |>) in
          let* q := AddRequestListLocked thread_ok ms streaming ws in
          if negb (fst q =? 0) then ret q
          else
            do* (if streaming
                 then set_dc (fun c => c <| repeating_requests_ := repeating_requests_ c ++ [first] |>)
                 else ret tt) in
            ret (first, snd q)
    end.

(** A list of one request. *)
Definition SubmitRequest (thread_ok : bool) (r : Camera3Request M) (streaming : bool)
    (ws : list (W -> Z * W)) : ST W (Z * Z) := SubmitRequestList thread_ok [r] streaming ws.

Definition CancelRequest (requestId : Z) : ST W (Z * Z) :=
  let* c := gets dc in
  match state_ c with
  | STATE_ERROR | STATE_NOT_INITIALIZED | STATE_CLOSED => ret (- ENOSYS, 0)
  | _ =>
      if negb (existsb (Z.eqb requestId) (repeating_requests_ c)) then ret (- EINVAL, 0)
      else
        let* q := ClearRepeatingRequests in
        do* (if fst q =? 0 then set_dc (fun c => c <| repeating_requests_ := [] |>) else ret tt) in
        ret q
  end.
End DeviceRequests.
