(* ===== verification/DeviceResults.v ===== *)
(** * Camera3DeviceClient: results from the HAL

    Models the part of common/cameraadaptor/qmmf_camera3_device_client.cc that
    runs on the threads of the HAL: results with metadata and buffers, shutter
    and error notifications.  They meet in the table of pending requests and
    are passed on to the client.  [client_callbacks] implements the interface
    the request handler was verified against. *)

From S2P Require Import Prelude KeyedVector Monitor Memory Stream Adaptor Floats SmoothZoom World PrepareHandler RequestHandler DeviceState DeviceStreams.

(** Error codes of the HAL's interface, the indices of [halErrorMap]. *)
Definition CAMERA3_MSG_ERROR_BUFFER : Z := 4.

Definition halErrorMap : list CameraErrorCode :=
  [ERROR_CAMERA_INVALID_ERROR; ERROR_CAMERA_DEVICE; ERROR_CAMERA_REQUEST; ERROR_CAMERA_RESULT;
   ERROR_CAMERA_BUFFER].

(** [camera3_notify_msg]. *)
Inductive camera3_notify_msg :=
  | CAMERA3_MSG_SHUTTER (frame_number timestamp : Z)
  | CAMERA3_MSG_ERROR (frame_number error_code : Z)
  | MSG_OTHER (type : Z).

Section DeviceResults.
Context {D M H : Type} `{AllocDevice D} `{AllocUsage} `{HalPlatform} `{CameraMetadata M}
  `{MetadataTags} `{CameraHal M H} {HU : HalUsage} `{ClientPlatform}.

Abbreviation W := (World D M H).

(** The result is the index the request is put at. *)
Definition MarkPendingRequest (frameNumber numBuffers : Z) (extras : CaptureResultExtras) : ST W Z :=
  do* set_dc (fun c => c <| pending_requests_vector_ :=
        kv_add frameNumber (PendingRequest_new numBuffers extras) (pending_requests_vector_ c) |>) in
  gets (fun w => kv_indexOf frameNumber (pending_requests_vector_ (dc w))).

(** The pending request of a frame, which is there. *)
Definition pending (n : Z) : ST W (PendingRequest M) := fun w =>
  match kv_lookup n (pending_requests_vector_ (dc w)) with Some r => Some (r, w) | None => None end.

Definition edit (n : Z) (f : PendingRequest M -> PendingRequest M) : ST W unit :=
  let* r := pending n in
  set_dc (fun c => c <| pending_requests_vector_ :=
                          kv_replace n (f r) (pending_requests_vector_ c) |>).

Definition UpdatePartialTag (tag v : Z) (m : M) : bool * M :=
  let '(r, m') := meta_update tag [v] m in (r =? 0, m').

Definition HandlePartialResult (frameNumber : Z) (partial : M) (extras : CaptureResultExtras) : ST W bool :=
  let* cb := gets (fun w => resultCb (client_cb_ (dc w))) in
  if negb cb then ret true
  else
    let '(ok1, m1) := UpdatePartialTag ANDROID_REQUEST_FRAME_COUNT (i32 frameNumber) partial in
    if negb ok1 then ret false
    else
      let '(ok2, m2) := UpdatePartialTag ANDROID_REQUEST_ID (requestId extras) m1 in
      if negb ok2 then ret false
      else
        let* version := gets (fun w => if device_ (dc w) then Some (hal_version (hal w)) else None) in
        match version with
        | None => undefined
        | Some v =>
            let '(ok3, m3) :=
              if v <? CAMERA_DEVICE_API_VERSION_3_2
              then UpdatePartialTag ANDROID_QUIRKS_PARTIAL_RESULT ANDROID_QUIRKS_PARTIAL_RESULT_PARTIAL m2
              else (true, m2) in
            if negb ok3 then ret false else do* emit (EvResult extras m3) in ret true
        end.

(** The check of the order of the results; it advances the expected frame. *)
Definition in_order (isInput : bool) (n : Z) : ST W bool :=
  let* next := gets (fun w => if isInput then next_result_input_frame_number_ (dc w)
                              else next_result_frame_number_ (dc w)) in
  if n <? next then ret false
  else
    do* set_dc (fun c => if isInput then c <| next_result_input_frame_number_ := u32 (n + 1) |>
                         else c <| next_result_frame_number_ := u32 (n + 1) |>) in
    ret true.

Definition SendCaptureResult (m : M) (extras : CaptureResultExtras) (collected : M) (n : Z) : ST W unit :=
  let* cb := gets (fun w => resultCb (client_cb_ (dc w))) in
  if meta_isEmpty m || negb cb then ret tt
  else
    let* ok := in_order (Adaptor.input extras) n in
    if negb ok then SetErrorState
    else
      let '(r, m1) := meta_update ANDROID_REQUEST_FRAME_COUNT [i32 n] m in
      if negb (r =? 0) then SetErrorState
      else
        let* partial := gets (fun w => is_partial_result_supported_ (dc w)) in
        let m2 := if partial && negb (meta_isEmpty collected) then meta_append m1 collected else m1 in
        let m3 := meta_sort m2 in
        match meta_data ANDROID_SENSOR_TIMESTAMP m3 with
        | [] => SetErrorState
        | _ => emit (EvResult extras m3)
        end.

(** The report of a buffer with an error; [errorCb] is not checked. *)
Definition report_buffer_error (n : Z) : ST W unit :=
  let* c := gets dc in
  let* extras :=
    (match kv_lookup n (pending_requests_vector_ c) with
     | Some r => do* edit n (fun r => r <| pr_status := CAMERA3_MSG_ERROR_BUFFER |>) in ret (pr_extras r)
     | None => ret (indeterminate_extras <| frameNumber := u32 n |>)
     end) in
  if errorCb (client_cb_ c) then emit (EvError ERROR_CAMERA_BUFFER extras) else undefined.

Definition return_output (timestamp n : Z) (b : camera3_stream_buffer) : ST W unit :=
  let* out := on_stream (hb_stream b) (ReturnBufferToClient b timestamp n) in
  do* (match out with None => undefined | Some (Some sb) => emit (EvBuffer sb) | Some None => ret tt end) in
  match hb_status b with
  | CAMERA3_BUFFER_STATUS_OK => ret tt
  | CAMERA3_BUFFER_STATUS_ERROR =>
      let* flushing := gets (fun w => flush_on_going_ (dc w)) in
      if flushing then ret tt else report_buffer_error n
  end.

Definition ReturnOutputBuffers (bs : list camera3_stream_buffer) (timestamp n : Z) : ST W unit :=
  for_each bs (return_output timestamp n).

(** A request that is complete, or all of whose buffers are back after an
    error. *)
Definition finished (r : PendingRequest M) : bool :=
  (buffersRemaining r =? 0) &&
  (negb (pr_status r =? 0) || (isMetaPresent r && negb (shutterTS r =? 0))).

Definition failed_early (r : PendingRequest M) : bool :=
  negb (pr_status r =? 0) && (negb (isMetaPresent r) || (shutterTS r =? 0)).

Definition RemovePendingRequestLocked (n : Z) : ST W unit :=
  let* r := pending n in
  if negb (finished r) then ret tt
  else
    do* (if (pr_status r =? 0) && negb (sensorTS r =? shutterTS r) then SetErrorState else ret tt) in
    do* ReturnOutputBuffers (pendingBuffers r) 0 n in
    let* r' := pending n in
    do* (if failed_early r'
         then set_dc (fun c => c <| pending_error_requests_vector_ :=
                                      kv_add n r' (pending_error_requests_vector_ c) |>)
         else ret tt) in
    set_dc (fun c => c <| pending_requests_vector_ := kv_remove n (pending_requests_vector_ c) |>).

(** ** Results *)

(** A partial result is composed with the earlier ones and passed on. *)
Definition take_partial (n : Z) (m : M) : ST W unit :=
  do* edit n (fun r => r <| composedResult := meta_append (composedResult r) m |>) in
  let* r := pending n in
  let* b := HandlePartialResult n (composedResult r) (pr_extras r) in
  edit n (fun r => r <| partial3AReceived := b |>).

(** The final metadata arrives: the partial results collected so far. *)
Definition take_meta (n : Z) : ST W M :=
  let* r := pending n in
  let* partial := gets (fun w => is_partial_result_supported_ (dc w)) in
  let acquire := partial && negb (meta_isEmpty (composedResult r)) in
  do* edit n (fun r => (if acquire then r <| composedResult := meta_empty |> else r)
                         <| isMetaPresent := true |>) in
  ret (if acquire then composedResult r else meta_empty).

(** [find_camera_metadata_ro_entry] of the time stamp. *)
Definition sensor_timestamp (m : option M) (r : PendingRequest M) : PendingRequest M :=
  match m with
  | Some m => match meta_find ANDROID_SENSOR_TIMESTAMP m with
              | Some [t] => r <| sensorTS := t |>
              | _ => r
              end
  | None => r
  end.

(** The metadata and the buffers of an accepted result are kept until the
    shutter, or passed on. *)
Definition pass_on (n shutter : Z) (final : option M) (collected : M) (out : list camera3_stream_buffer)
    : ST W unit :=
  do* (if shutter =? 0 then edit n (fun r => r <| pendingBuffers := pendingBuffers r ++ out |>)
       else ret tt) in
  do* (match final with
       | Some m =>
           if shutter =? 0
           then edit n (fun r => r <| pendingMetadata := m |> <| composedResult := collected |>)
           else let* r := pending n in SendCaptureResult m (pr_extras r) collected n
       | None => ret tt
       end) in
  if 0 <? shutter then ReturnOutputBuffers out shutter n else ret tt.

(** The input buffer goes back to the client. *)
Definition return_input (b : camera3_stream_buffer) : ST W unit :=
  let* i := gets (fun w => input_stream_ (dc w)) in
  let h := default 0 (in_buffers_map i !! hb_buffer b) in
  do* set_dc (fun c => c <| input_stream_ :=
        (input_stream_ c) <| in_buffers_map := delete (hb_buffer b) (in_buffers_map (input_stream_ c)) |> |>) in
  do* emit (EvInputReturned (mkStreamBuffer None 0 0 (in_stream_id i) (in_data_space i) h 0 0 (Some 0))) in
  set_dc (fun c => c <| input_stream_ :=
        (input_stream_ c) <| input_buffer_cnt := u32 (input_buffer_cnt (input_stream_ c) - 1) |> |>).

(** The part of [HandleCaptureResult] after the partial results; [final] is
    the metadata unless it is partial. *)
Definition take_result (n : Z) (res : camera3_capture_result M) (final : option M) : ST W unit :=
  let* r := pending n in
  let shutter := shutterTS r in
  if bool_decide (is_Some final) && isMetaPresent r then SetErrorState
  else
    let* collected := (match final with Some m => take_meta n | None => ret meta_empty end) in
    do* edit n (fun r => r <| buffersRemaining := buffersRemaining r - Z.of_nat (length (res_output res))
                              - match res_input res with Some _ => 1 | None => 0 end |>) in
    let* r := pending n in
    if buffersRemaining r <? 0 then SetErrorState
    else
      do* edit n (sensor_timestamp (res_result res)) in
      do* pass_on n shutter final collected (res_output res) in
      do* RemovePendingRequestLocked n in
      match res_input res with Some b => return_input b | None => ret tt end.

Definition no_data (res : camera3_capture_result M) : bool :=
  match res_result res, res_output res, res_input res with None, [], None => true | _, _, _ => false end.

Definition HandleCaptureResult (res : camera3_capture_result M) : ST W unit :=
  let n := res_frame_number res in
  let* c := gets dc in
  let supported := is_partial_result_supported_ c in
  let has_meta := bool_decide (is_Some (res_result res)) in
  if no_data res then SetErrorState
  else if negb supported && has_meta && negb (res_partial res =? 1) then SetErrorState
  else
    match kv_lookup n (pending_requests_vector_ c) with
    | None =>
        match kv_lookup n (pending_error_requests_vector_ c) with
        | Some _ => set_dc (fun c => c <| pending_error_requests_vector_ :=
                                            kv_remove n (pending_error_requests_vector_ c) |>)
        | None => SetErrorState
        end
    | Some _ =>
        do* (if res_partial res =? 0 then ret tt
             else edit n (fun r => r <| pr_extras := (pr_extras r)
                                          <| Adaptor.partialResultCount := i32 (res_partial res) |> |>)) in
        if supported && has_meta &&
           ((partial_result_count_ c <? res_partial res) || (res_partial res <? 1)) then SetErrorState
        else
          match res_result res with
          | Some m =>
              if supported && (res_partial res <? partial_result_count_ c) then
                do* take_partial n m in take_result n res None
              else take_result n res (Some m)
          | None => take_result n res None
          end
    end.

(** ** Notifications *)

Definition NotifyError (n code : Z) : ST W unit :=
  let e := if (0 <=? code) && (code <? 5) then nth (Z.to_nat code) halErrorMap ERROR_CAMERA_INVALID_ERROR
           else ERROR_CAMERA_INVALID_ERROR in
  match e with
  | ERROR_CAMERA_REQUEST | ERROR_CAMERA_RESULT | ERROR_CAMERA_BUFFER =>
      let* c := gets dc in
      let* extras :=
        (match kv_lookup n (pending_requests_vector_ c) with
         | Some r => do* edit n (fun r => r <| pr_status := code |>) in ret (pr_extras r)
         | None => ret (indeterminate_extras <| frameNumber := n |>)
         end) in
      if negb (flush_on_going_ c) && errorCb (client_cb_ c) then emit (EvError e extras) else ret tt
  | _ => SetErrorState
  end.

(** The check of the order of the shutters. *)
Definition shutter_in_order (isInput : bool) (n : Z) : ST W bool :=
  let* next := gets (fun w => if isInput then next_shutter_input_frame_number_ (dc w)
                              else next_shutter_frame_number_ (dc w)) in
  if n <? next then ret false
  else
    do* set_dc (fun c => if isInput then c <| next_shutter_input_frame_number_ := u32 (n + 1) |>
                         else c <| next_shutter_frame_number_ := u32 (n + 1) |>) in
    ret true.

Definition NotifyShutter (n timestamp : Z) : ST W unit :=
  let* c := gets dc in
  match kv_lookup n (pending_requests_vector_ c) with
  | None => SetErrorState
  | Some r =>
      do* (if shutterCb (client_cb_ c) then emit (EvShutter (pr_extras r) timestamp) else ret tt) in
      let* ok := shutter_in_order (Adaptor.input (pr_extras r)) n in
      if negb ok then SetErrorState
      else
        do* edit n (fun r => r <| shutterTS := timestamp |>) in
        do* SendCaptureResult (pendingMetadata r) (pr_extras r) (composedResult r) n in
        do* ReturnOutputBuffers (pendingBuffers r) timestamp n in
        do* edit n (fun r => r <| pendingBuffers := [] |>) in
        RemovePendingRequestLocked n
  end.

(** [None] is NULL. *)
Definition Notify (msg : option camera3_notify_msg) : ST W unit :=
  match msg with
  | Some (CAMERA3_MSG_SHUTTER n t) => NotifyShutter n t
  | Some (CAMERA3_MSG_ERROR n e) => NotifyError n e
  | _ => SetErrorState
  end.

(** The client as the request handler sees it. *)
#[export] Instance client_callbacks : HandlerCallbacks D M H :=
  {| mark_cb_ := MarkPendingRequest; set_error_ := SetErrorState |}.
End DeviceResults.
