(* ===== verification/Client.v ===== *)
(** * The whole client

    The operations of the camera adaptor as one set of atomic steps, whatever
    thread takes them: the calls of the client, the threads of the request
    handler, of the prepare handler and of the monitor, and the callbacks of
    the HAL.  The invariants of the adaptor are instances of
    [ClientInvariant], which lists the few steps an invariant has to be
    checked for; [client_step_preserves] lifts it to every operation. *)

From S2P Require Import Prelude KeyedVector Monitor Memory Stream Adaptor Floats SmoothZoom World PrepareHandler RequestHandler DeviceState DeviceStreams DeviceRequests DeviceResults.

(** A bound on the frame numbers of the HAL's callbacks. *)
Class FrameLimit := frame_limit : Z.

Section Client.
Context {D M H : Type} `{AllocDevice D} `{AllocUsage} `{HalPlatform} `{CameraMetadata M}
  `{MetadataTags} `{CameraHal M H} {HU : HalUsage} `{ClientPlatform} `{!AllocDeviceLaws D}
  {FL : FrameLimit}.

Abbreviation W := (World D M H).

Definition is_device_error (e : Event M) : bool :=
  match e with EvError ERROR_CAMERA_DEVICE _ => true | _ => false end.

(** How often the client was told that the camera has failed. *)
Definition device_errors (w : W) : nat := length (List.filter is_device_error (events w)).

(** The part of the client's state the invariants speak about. *)
Definition core (c : Camera3DeviceClient M) : State * kv Z * list Z * Z :=
  (state_ c, streams_ c, deleted_streams_ c, next_stream_id_ c).

(** The results the client was handed: the kind of each, and its frame
    number. *)
Definition result_of (e : Event M) : option (bool * list Z) :=
  match e with
  | EvResult x m => Some (Adaptor.input x, meta_data ANDROID_REQUEST_FRAME_COUNT m)
  | _ => None
  end.

Definition results (w : W) : list (bool * list Z) := omap result_of (events w).

(** What the order of the results depends on. *)
Definition result_core (c : Camera3DeviceClient M) : bool * Z * Z :=
  (is_partial_result_supported_ c, next_result_frame_number_ c, next_result_input_frame_number_ c).

Record framed_client (w w' : W) : Prop := {
  fr_heap : heap w' = heap w;
  fr_dev : w_dev w' = w_dev w;
  fr_core : core (dc w') = core (dc w);
  fr_errors : device_errors w' = device_errors w
}.

Record framed (w w' : W) : Prop := {
  fr_client : framed_client w w';
  fr_results : results w' = results w;
  fr_order : result_core (dc w') = result_core (dc w)
}.

(** A step of a stream that keeps its buffers and its identity. *)
Definition stream_safe {A} (f : SE D -> A * SE D) : Prop :=
  (forall s, se_wf s -> kept s (snd (f s))) /\ (forall s, same_identity (st s) (st (snd (f s)))).

Class FrameInvariant (I : W -> Prop) := {
  inv_frame w w' : framed w w' -> I w -> I w';
  inv_stream A p (f : SE D -> A * SE D) : stream_safe f -> preserves I (on_stream p f);
  inv_fail : preserves I SetErrorState;
  inv_send m e c n : n < frame_limit -> preserves I (SendCaptureResult m e c n);
  inv_partial n m :
    hoare (fun w => I w /\ is_partial_result_supported_ (dc w) = true) (take_partial n m) (fun _ => I)
}.

(** An invariant that does not speak about the results. *)
Lemma frame_invariant (I : W -> Prop) :
  (forall w w', framed_client w w' -> I w -> I w') ->
  (forall A p (f : SE D -> A * SE D), stream_safe f -> preserves I (on_stream p f)) ->
  preserves I SetErrorState -> FrameInvariant I.
Proof.
  intros Hf Hs Hfail.
  assert (forall f, (forall c, core (f c) = core c) -> preserves I (set_dc f)) as Hdc.
  { intros f Hc. apply preserves_modify. intros w. apply Hf. split; try done. apply Hc. }
  assert (forall x m, preserves I (emit (EvResult x m))) as Hemit.
  { intros x m. apply preserves_modify. intros w. apply Hf. split; try done.
    unfold device_errors. simpl. rewrite List.filter_app, length_app. simpl. lia. }
  assert (forall n f, preserves I (edit n f)) as Hedit.
  { intros n f. unfold edit. apply preserves_bind; [|intros; by apply Hdc].
    intros w Hw. unfold pending. by destruct (kv_lookup _ _). }
  split; [intros w w' [Hc _ _]; by apply Hf|done..| |].
  - intros m e c n _. unfold SendCaptureResult, in_order.
    repeat lazymatch goal with
      | |- preserves _ (set_dc _) => apply Hdc; intros ?; by case_goal
      | |- preserves _ (emit _) => apply Hemit
      | |- preserves _ SetErrorState => done
      | _ => preserve_step
      end.
  - intros n m. apply (hoare_weaken _ I _ _ (fun _ => I)); [by intros w [Hi _]| |done].
    unfold take_partial, HandlePartialResult. cbv zeta.
    match goal with |- hoare _ ?x _ => change (preserves I x) end.
    repeat lazymatch goal with
      | |- preserves _ (edit _ _) => apply Hedit
      | |- preserves _ (emit _) => apply Hemit
      | |- preserves _ (pending _) => intros w Hw; unfold pending; by destruct (kv_lookup _ _)
      | _ => preserve_step
      end.
Qed.

(** ** Steps of a stream *)

Lemma step_safe {A} (f : SE D -> A * SE D) (op : StreamOp) :
  (forall s : SE D, stream_op_ok s op) -> (forall s, snd (f s) = stream_step s op) -> stream_safe f.
Proof.
  intros Hok Hf. split; intros s; rewrite Hf; [intros Hwf; by apply stream_step_kept|apply stream_step_identity].
Qed.

Lemma BeginConfigure_safe : stream_safe BeginConfigure.
Proof. by apply (step_safe _ OpBeginConfigure). Qed.
Lemma EndConfigure_safe : stream_safe Stream.EndConfigure.
Proof. by apply (step_safe _ OpEndConfigure). Qed.
Lemma AbortConfigure_safe : stream_safe AbortConfigure.
Proof. by apply (step_safe _ OpAbortConfigure). Qed.
Lemma ReturnBufferToClient_safe b t n : stream_safe (ReturnBufferToClient b t n).
Proof. by apply (step_safe _ (OpReturnToClient b t n)). Qed.
Lemma ReturnBuffer_safe b : stream_safe (ReturnBuffer b).
Proof. by apply (step_safe _ (OpReturnBuffer b)). Qed.
Lemma Close_safe : stream_safe Close.
Proof. by apply (step_safe _ OpClose). Qed.
Lemma TearDown_safe : stream_safe Stream.TearDown.
Proof. by apply (step_safe _ OpTearDown). Qed.
Lemma BeginPrepare_safe : stream_safe BeginPrepare.
Proof. by apply (step_safe _ OpBeginPrepare). Qed.
Lemma PrepareBuffer_safe : stream_safe PrepareBuffer.
Proof. by apply (step_safe _ OpPrepareBuffer). Qed.
Lemma EndPrepare_safe : stream_safe EndPrepare.
Proof. by apply (step_safe _ OpEndPrepare). Qed.

Lemma hal_configure_safe u m : small m ->
  stream_safe (fun s : SE D => (tt, s <| st := (st s) <| usage := u |> <| max_buffers := m |> |>)).
Proof. intros Hm. by apply (step_safe _ (OpHal u m)). Qed.

Lemma set_usage_safe f : stream_safe (set_usage (D := D) f).
Proof. split; [|done]. intros s Hwf. pose proof (se_stream _ Hwf) as []. by apply kept_same_buffers. Qed.

Lemma forget_buffer_safe b : stream_safe (forget_buffer (D := D) b).
Proof. split; [|done]. intros s. apply forget_buffer_kept. Qed.

(** A wait for a buffer during which the stream is used by other threads,
    and is not closed under the one that waits. *)
Definition buffer_wait_safe (bw : Z -> SE D -> Z * SE D) : Prop :=
  forall p, stream_safe (bw p) /\
    forall s, fst (bw p s) = 0 -> status_ (st (snd (bw p s))) <> STATUS_CONFIG_ACTIVE.

Lemma GetBuffer_safe bw p : buffer_wait_safe bw ->
  stream_safe (fun x => let '(r, b, x') := GetBuffer (bw p) x in ((r, b), x')).
Proof.
  intros Hbw. destruct (Hbw p) as [[Hk Hi] Hst].
  assert (forall s, snd (let '(r, b, x') := GetBuffer (bw p) s in ((r, b), x')) =
    snd (GetBuffer (bw p) s)) as E by (intros s; by destruct (GetBuffer (bw p) s) as [[r b] x']).
  split; intros s; rewrite E; unfold GetBuffer; clear E.
  - intros Hwf. destruct (bool_decide _) eqn:Es; cbn [negb]; [|by apply kept_refl].
    apply bool_decide_eq_true in Es.
    destruct (_ =? _); [|apply GetBufferLocked_kept; [done|congruence]].
    specialize (Hk s Hwf). specialize (Hst s). destruct (bw p s) as [r s1]. cbn [fst snd] in *.
    destruct (Z.eqb_spec r 0); [|done]. eapply kept_trans; [exact Hk|]. intros Hwf1.
    apply GetBufferLocked_kept; auto.
  - destruct (negb _); [done|]. destruct (_ =? _); [|apply GetBufferLocked_identity].
    specialize (Hi s). destruct (bw p s) as [r s1]. cbn [fst snd] in *.
    destruct (r =? 0); [|done]. destruct (GetBufferLocked_identity true s1) as [E1 E2].
    destruct Hi as [E3 E4]. split; congruence.
Qed.
#[local] Hint Resolve BeginConfigure_safe EndConfigure_safe AbortConfigure_safe ReturnBufferToClient_safe
  ReturnBuffer_safe Close_safe TearDown_safe BeginPrepare_safe PrepareBuffer_safe EndPrepare_safe
  set_usage_safe forget_buffer_safe GetBuffer_safe hal_configure_safe : preserves.

(** ** Operations that only take framed steps *)

Section Framed.
Context (I : W -> Prop) {FI : FrameInvariant I}.

Lemma preserves_framed {A} (f : W -> A * W) : (forall w, framed w (snd (f w))) -> preserves I (pure_step f).
Proof. intros Hf. apply preserves_pure_step. intros w. by apply inv_frame. Qed.

Lemma preserves_modify_framed f : (forall w, framed w (f w)) -> preserves I (modify f).
Proof. intros Hf. apply preserves_modify. intros w. by apply inv_frame. Qed.

Lemma preserves_dc f : (forall c, core (f c) = core c /\ result_core (f c) = result_core c) ->
  preserves I (set_dc f).
Proof. intros Hf. apply preserves_modify_framed. intros w. split; [split|..]; try done; apply Hf. Qed.

Lemma preserves_rh f : preserves I (set_rh f).
Proof. apply preserves_modify_framed. intros w. by repeat split. Qed.

Lemma preserves_ph f : preserves I (set_ph f).
Proof. apply preserves_modify_framed. intros w. by repeat split. Qed.

Lemma preserves_mon f : preserves I (set_mon f).
Proof. apply preserves_modify_framed. intros w. by repeat split. Qed.

Lemma preserves_emit e : is_device_error e = false -> result_of e = None -> preserves I (emit e).
Proof.
  intros He Hr. apply preserves_modify_framed. intros w. split; [split|..]; try done.
  - unfold device_errors. simpl. rewrite List.filter_app, length_app. simpl. rewrite He. simpl. lia.
  - unfold results. simpl. rewrite omap_app. simpl. by rewrite Hr, app_nil_r.
Qed.

Lemma preserves_hal {A} (f : H -> A * H) : preserves I (on_hal f).
Proof. apply preserves_framed. intros w. by destruct (f (hal w)). Qed.

Lemma preserves_of_stream {A} p (f : Camera3Stream -> A) : preserves I (of_stream p f).
Proof. intros w Hw. unfold of_stream. by destruct (heap w !! p). Qed.

Lemma wait_cond_inv (ws : list (W -> Z * W)) : wait_keeps I ws -> preserves I (wait_cond ws).
Proof.
  intros Hws. destruct ws as [|g ws]; [apply preserves_ret|]. apply Forall_cons in Hws as [Hg _].
  apply preserves_pure_step. intros w Hw. specialize (Hg w Hw). by destruct (g w).
Qed.

#[local] Hint Resolve preserves_rh preserves_ph preserves_mon preserves_hal preserves_of_stream wait_cond_inv
  inv_fail : preserves.

Ltac frame_step :=
  lazymatch goal with
  | |- preserves _ (set_dc _) => apply preserves_dc; intros ?; repeat case_goal; done
  | |- preserves _ (emit _) => apply preserves_emit; done
  | |- preserves _ (on_stream _ _) => apply inv_stream; auto with preserves
  | |- preserves _ (modify _) => apply preserves_modify_framed; intros ?; by repeat split
  | |- preserves _ (pure_step _) => apply preserves_framed; intros ?; repeat case_goal; by repeat split
  | _ => preserve_step
  end.

Ltac frame := repeat first [ solve [eauto 2 with preserves] | frame_step ].

(** *** The request handler *)

Lemma error_cb_inv e : preserves I (error_cb e).
Proof. unfold error_cb. frame. Qed.

Lemma Resume_inv : preserves I Resume.
Proof. unfold Resume, monitor_active. frame. Qed.

#[local] Hint Resolve error_cb_inv Resume_inv : preserves.

Lemma FinishConfiguration_inv n : preserves I (FinishConfiguration n).
Proof. unfold FinishConfiguration. frame. Qed.

Lemma handler_Initialize_inv b : preserves I (RequestHandler.Initialize b).
Proof. unfold RequestHandler.Initialize. frame. Qed.

Lemma QueueRequestList_inv rs : preserves I (QueueRequestList rs).
Proof. unfold QueueRequestList. frame. Qed.

Lemma QueueReprocRequestList_inv b rs : preserves I (QueueReprocRequestList b rs).
Proof. unfold QueueReprocRequestList. frame. Qed.

Lemma SetRepeatingRequests_inv rs : preserves I (SetRepeatingRequests rs).
Proof. unfold SetRepeatingRequests. frame. Qed.

Lemma ClearRepeatingRequests_inv : preserves I ClearRepeatingRequests.
Proof. unfold ClearRepeatingRequests. frame. Qed.

Lemma Clear_inv ws : wait_keeps I ws -> preserves I (RequestHandler.Clear ws).
Proof. intros Hws. unfold RequestHandler.Clear. frame. Qed.

Lemma TogglePause_inv b : preserves I (TogglePause b).
Proof. unfold TogglePause. frame. Qed.

Lemma pause_idle_inv : preserves I pause_idle.
Proof. unfold pause_idle, monitor_idle. frame. Qed.

#[local] Hint Resolve FinishConfiguration_inv handler_Initialize_inv QueueRequestList_inv
  QueueReprocRequestList_inv SetRepeatingRequests_inv ClearRepeatingRequests_inv Clear_inv TogglePause_inv
  pause_idle_inv : preserves.

Lemma next_repeating_inv r rs : preserves I (next_repeating r rs).
Proof. unfold next_repeating. apply preserves_framed. intros w. by destruct (update_all _ _). Qed.

#[local] Hint Resolve next_repeating_inv : preserves.

Lemma wait_keeps_cons (g : W -> Z * W) ws : wait_keeps I (g :: ws) ->
  preserves I (pure_step g) /\ wait_keeps I ws.
Proof. intros [Hg Hws]%Forall_cons. split; [by apply preserves_pure_step|done]. Qed.

Lemma get_wait_inv e ws : wait_keeps I ws -> preserves I (get_wait e ws).
Proof.
  induction ws as [|g ws IH]; intros Hws; cbn [get_wait]; [frame|].
  apply wait_keeps_cons in Hws as [Hg Hws]. frame.
Qed.

Lemma take_queued_inv : preserves I take_queued.
Proof.
  intros w Hw. unfold take_queued. destruct (take_reproc _) as [[r rest]|]; [by apply (inv_frame w)|].
  destruct (requests_ (rh w)); [done|]. by apply (inv_frame w).
Qed.

Lemma start_request_inv r : preserves I (start_request r).
Proof. unfold start_request, monitor_active. frame. Qed.

#[local] Hint Resolve get_wait_inv take_queued_inv start_request_inv : preserves.

Lemma GetRequest_inv e ws : wait_keeps I ws -> preserves I (GetRequest e ws).
Proof. intros Hws. unfold GetRequest. frame. Qed.

Lemma return_all_inv out ss : preserves I (return_all out ss).
Proof. revert ss. induction out; intros ss; simpl; frame. Qed.

#[local] Hint Resolve GetRequest_inv return_all_inv : preserves.

Lemma HandleErrorRequest_inv r out : preserves I (HandleErrorRequest r out).
Proof. unfold HandleErrorRequest, clear_current. frame. Qed.

(** What the other threads do in the gaps of an operation keeps the
    invariant. *)
Definition gaps_keep (gs : list (W -> W)) : Prop := Forall (fun f => forall w, I w -> I (f w)) gs.

Lemma gap_inv f : (forall w, I w -> I (f w)) -> preserves I (gap f).
Proof. apply preserves_modify. Qed.

Lemma get_buffers_inv bw ss : forall gs out, gaps_keep gs -> buffer_wait_safe bw -> preserves I (get_buffers bw gs ss out).
Proof.
  induction ss as [|s ss IH]; intros gs out Hgs Hbw; simpl; [frame|].
  assert (gaps_keep (tl gs) /\ forall w, I w -> I (hd id gs w)) as [Htl Hhd%gap_inv].
  { destruct gs as [|f gs]; [by split|]. by apply Forall_cons in Hgs as [? ?]. }
  frame.
Qed.

Lemma MarkPendingRequest_inv n t e : preserves I (MarkPendingRequest n t e).
Proof. unfold MarkPendingRequest. frame. Qed.

Lemma SignalError_inv : preserves I SignalError.
Proof. unfold SignalError. simpl. frame. Qed.

#[local] Hint Resolve HandleErrorRequest_inv get_buffers_inv MarkPendingRequest_inv SignalError_inv : preserves.

Lemma SubmitRequest_inv bw g r b : buffer_wait_safe bw -> gaps_keep (gaps_list g) ->
  preserves I (RequestHandler.SubmitRequest bw g r b).
Proof.
  intros Hbw Hg. unfold gaps_keep, gaps_list in Hg. rewrite !Forall_cons in Hg. destruct Hg as (H1g & H2g & H3g & H4g & H5g & Hgs).
  apply gap_inv in H1g, H2g, H3g, H4g, H5g. unfold RequestHandler.SubmitRequest, hal_submit, clear_current. simpl. frame.
Qed.

Lemma pause_wait_inv e ws : wait_keeps I ws -> preserves I (pause_wait e ws).
Proof.
  induction ws as [|g ws IH]; intros Hws; cbn [pause_wait]; [frame|].
  apply wait_keeps_cons in Hws as [Hg Hws]. frame.
Qed.

#[local] Hint Resolve SubmitRequest_inv pause_wait_inv : preserves.

Lemma handler_ThreadLoop_inv e pw gw bw g : wait_keeps I pw -> wait_keeps I gw -> buffer_wait_safe bw ->
  gaps_keep (gaps_list g) -> preserves I (RequestHandler.ThreadLoop e pw gw bw g).
Proof. intros. unfold RequestHandler.ThreadLoop, WaitOnPause. frame. Qed.

Lemma reproc_request_inv bw g b r : buffer_wait_safe bw -> gaps_keep (gaps_list g) -> preserves I (reproc_request bw g b r).
Proof. intros. unfold reproc_request, monitor_active. frame. Qed.

#[local] Hint Resolve reproc_request_inv : preserves.

Lemma ReprocLoop_inv bw gs f : buffer_wait_safe bw -> Forall (fun g => gaps_keep (gaps_list g)) gs -> preserves I (ReprocLoop bw gs f).
Proof.
  intros Hbw Hgs. assert (forall i, gaps_keep (gaps_list (nth i gs no_gaps))) as Hn.
  { intros i. destruct (nth_in_or_default i gs no_gaps) as [Hin| ->]; [|by repeat constructor].
    rewrite Forall_forall in Hgs. by apply Hgs, list_elem_of_In. }
  unfold ReprocLoop. frame.
Qed.

Lemma any_id_inv i ss : preserves I (any_id i ss).
Proof. induction ss; simpl; frame. Qed.

Lemma handler_IsStreamActive_inv p : preserves I (RequestHandler.IsStreamActive p).
Proof. unfold RequestHandler.IsStreamActive. frame. apply any_id_inv. Qed.

#[local] Hint Resolve handler_ThreadLoop_inv ReprocLoop_inv handler_IsStreamActive_inv : preserves.

(** *** The prepare handler *)

Lemma prepare_cb_inv p : preserves I (prepare_cb p).
Proof. unfold prepare_cb. frame. Qed.

#[local] Hint Resolve prepare_cb_inv : preserves.

Lemma handler_Prepare_inv r p : preserves I (PrepareHandler.Prepare r p).
Proof. unfold PrepareHandler.Prepare. frame. Qed.

Lemma prepare_Clear_inv : preserves I PrepareHandler.Clear.
Proof. unfold PrepareHandler.Clear. frame. Qed.

Lemma ThreadLoop_pick_inv : preserves I ThreadLoop_pick.
Proof. unfold ThreadLoop_pick. frame. Qed.

Lemma ThreadLoop_prepare_inv : preserves I ThreadLoop_prepare.
Proof. unfold ThreadLoop_prepare. frame. Qed.

#[local] Hint Resolve handler_Prepare_inv prepare_Clear_inv ThreadLoop_pick_inv ThreadLoop_prepare_inv : preserves.

(** *** Waiting, pausing, flushing *)

Lemma wait_state_inv a n ws : wait_keeps I ws -> preserves I (wait_state a n ws).
Proof.
  induction ws as [|g ws IH]; intros Hws; cbn [wait_state]; [frame|].
  apply wait_keeps_cons in Hws as [Hg Hws]. frame.
Qed.

#[local] Hint Resolve wait_state_inv : preserves.

Lemma WaitUntilState_inv a ws : wait_keeps I ws -> preserves I (WaitUntilStateThenRelock a ws).
Proof. intros. unfold WaitUntilStateThenRelock. frame. Qed.

#[local] Hint Resolve WaitUntilState_inv : preserves.

Lemma InternalPauseAndWait_inv ws : wait_keeps I ws -> preserves I (InternalPauseAndWaitLocked ws).
Proof. intros. unfold InternalPauseAndWaitLocked. frame. Qed.

Lemma InternalResume_inv ws : wait_keeps I ws -> preserves I (InternalResumeLocked ws).
Proof. intros. unfold InternalResumeLocked. frame. Qed.

Lemma WaitUntilIdle_inv ws : wait_keeps I ws -> preserves I (WaitUntilIdle ws).
Proof. intros. unfold WaitUntilIdle, WaitUntilDrainedLocked. frame. Qed.

Lemma Flush_inv ws during : wait_keeps I ws -> (forall w, I w -> I (during w)) -> preserves I (Flush ws during).
Proof.
  intros Hws Hd. assert (preserves I (modify during)) by (by apply preserves_modify). unfold Flush. frame.
Qed.

#[local] Hint Resolve InternalPauseAndWait_inv InternalResume_inv WaitUntilIdle_inv Flush_inv : preserves.

(** *** Results *)

Lemma pending_inv n : preserves I (pending n).
Proof. intros w Hw. unfold pending. by destruct (kv_lookup _ _). Qed.

#[local] Hint Resolve pending_inv : preserves.

Lemma edit_inv n f : preserves I (edit n f).
Proof. unfold edit. frame. Qed.

#[local] Hint Resolve edit_inv : preserves.

Lemma report_buffer_error_inv n : preserves I (report_buffer_error n).
Proof. unfold report_buffer_error. frame. Qed.

#[local] Hint Resolve inv_send report_buffer_error_inv : preserves.

Lemma ReturnOutputBuffers_inv bs t n : preserves I (ReturnOutputBuffers bs t n).
Proof. unfold ReturnOutputBuffers, return_output. frame. Qed.

#[local] Hint Resolve ReturnOutputBuffers_inv : preserves.

Lemma RemovePendingRequest_inv n : preserves I (RemovePendingRequestLocked n).
Proof. unfold RemovePendingRequestLocked. frame. Qed.

#[local] Hint Resolve RemovePendingRequest_inv : preserves.

Lemma take_result_inv n res m : n < frame_limit -> preserves I (take_result n res m).
Proof. intros Hn. unfold take_result, take_meta, pass_on, return_input. frame. Qed.

#[local] Hint Resolve take_result_inv : preserves.

Lemma edit_partial n f b : preserves (fun w : W => is_partial_result_supported_ (dc w) = b) (edit n f).
Proof.
  intros w Hw. unfold edit, bind, pending. by destruct (kv_lookup _ _).
Qed.

Lemma preserves_and {A} (I1 I2 : W -> Prop) (m : ST W A) :
  preserves I1 m -> preserves I2 m -> preserves (fun w => I1 w /\ I2 w) m.
Proof.
  intros Hm1 Hm2 w [Hw1 Hw2]. specialize (Hm1 w Hw1). specialize (Hm2 w Hw2). by destruct (m w) as [[a w']|].
Qed.

Lemma HandleCaptureResult_inv res : res_frame_number res < frame_limit -> preserves I (HandleCaptureResult res).
Proof.
  intros Hn. unfold HandleCaptureResult. cbv zeta. apply (hoare_bind _ _ _ _ (fun c w => I w /\ dc w = c)).
  { by intros w Hw. }
  intros c. set (P := fun w : W => I w /\ is_partial_result_supported_ (dc w) = is_partial_result_supported_ c).
  assert (forall m : ST W unit, preserves I m -> hoare P m (fun _ => I)) as Hw.
  { intros m Hm w [Hi _]. by apply Hm. }
  apply (hoare_weaken _ P _ _ (fun _ => I)); [by intros w [Hi <-]| |done].
  case_goal; [apply Hw; frame|]. case_goal; [apply Hw; frame|].
  destruct (kv_lookup _ _); [|apply Hw; frame].
  apply (hoare_bind _ _ _ _ (fun _ => P)).
  { apply hoare_preserves. case_goal; [apply preserves_ret|]. apply preserves_and; [frame|apply edit_partial]. }
  intros ?. case_goal; [apply Hw; frame|]. destruct (res_result res); [|apply Hw; frame].
  destruct (is_partial_result_supported_ c) eqn:Es; cbn [andb]; [|apply Hw; frame].
  case_goal; [|apply Hw; frame]. apply (hoare_bind _ _ _ _ (fun _ => I)); [exact (inv_partial _ _)|].
  intros ?. apply hoare_preserves. frame.
Qed.

Lemma NotifyError_inv n e : preserves I (NotifyError n e).
Proof. unfold NotifyError. cbv zeta. frame. Qed.

Lemma NotifyShutter_inv n t : n < frame_limit -> preserves I (NotifyShutter n t).
Proof. intros Hn. unfold NotifyShutter, shutter_in_order. frame. Qed.

#[local] Hint Resolve NotifyError_inv NotifyShutter_inv : preserves.

(** The frame number of a message is within the bound. *)
Definition message_fine (msg : option camera3_notify_msg) : Prop :=
  match msg with Some (CAMERA3_MSG_SHUTTER n _) => n < frame_limit | _ => True end.

Lemma Notify_inv m : message_fine m -> preserves I (Notify m).
Proof. intros Hm. unfold Notify. destruct m as [[]|]; cbn [message_fine] in Hm; frame. Qed.

#[local] Hint Resolve HandleCaptureResult_inv Notify_inv : preserves.

(** *** Streams *)

Lemma client_Prepare_inv r i : preserves I (DeviceStreams.Prepare r i).
Proof. unfold DeviceStreams.Prepare. frame. Qed.

Lemma client_TearDown_inv i : preserves I (DeviceStreams.TearDown i).
Proof. unfold DeviceStreams.TearDown. frame. Qed.

Lemma ReturnStreamBuffer_inv b : preserves I (ReturnStreamBuffer b).
Proof. unfold ReturnStreamBuffer. frame. Qed.

Lemma GetCameraInfo_inv b i : preserves I (GetCameraInfo b i).
Proof. unfold GetCameraInfo. frame. Qed.

Lemma CreateDefaultRequest_inv t : preserves I (CreateDefaultRequest t).
Proof. unfold CreateDefaultRequest. frame. Qed.

Lemma CancelRequest_inv i : preserves I (CancelRequest i).
Proof. unfold CancelRequest. frame. Qed.

Lemma begin_all_inv ss : preserves I (begin_all ss).
Proof. induction ss; simpl; frame. Qed.

Lemma finish_all_inv f ss : stream_safe f -> preserves I (finish_all f ss).
Proof. intros Hf. induction ss; simpl; frame. Qed.

Lemma hal_view_inv ss : preserves I (hal_view ss).
Proof. induction ss; simpl; frame. Qed.

Lemma hal_write_inv ss : forall out, Forall (fun x => small (snd x)) out -> preserves I (hal_write ss out).
Proof.
  induction ss as [|p ss IH]; intros [|[u m] out] Hout; simpl; try frame.
  - apply hal_configure_safe. by apply Forall_cons in Hout as [? _].
  - apply IH. by apply Forall_cons in Hout as [_ Hout].
Qed.
End Framed.

(** ** Operations of the client that change its state or its streams *)

(** The client has been initialised, which no operation takes back. *)
Definition started (w : W) : Prop := state_ (dc w) <> STATE_NOT_INITIALIZED.

Class ClientInvariant (I : W -> Prop) := {
  ci_frame : FrameInvariant I;
  ci_notify b : preserves I (NotifyStatus b);
  ci_configure : preserves I ConfigureStreamsLocked;
  ci_initialize l t a : preserves I (DeviceStreams.Initialize l t a);
  ci_open r i : preserves I (OpenCamera r i);
  ci_create p cfg ws1 ws2 : small (sp_bufferCount cfg) -> wait_keeps started ws1 ->
    wait_keeps I ws1 -> wait_keeps I ws2 -> preserves I (CreateStream p cfg ws1 ws2);
  ci_input b wd h f ws1 ws2 : wait_keeps I ws1 -> wait_keeps I ws2 ->
    preserves I (CreateInputStream b wd h f ws1 ws2);
  ci_delete i b ws1 ws2 : wait_keeps I ws1 -> wait_keeps I ws2 -> preserves I (DeleteStream i b ws1 ws2)
}.
#[local] Existing Instance ci_frame.

(** A pass of the monitor thread, with its reports to the client. *)
Definition monitor_pass : ST W unit :=
  let* reports := pure_step (fun w =>
    let '(r, m) := process_pass (w_mon w) in (r, w <| w_mon := m |>)) in
  for_each reports NotifyStatus.

(** One operation on one thread.  The waits of an operation, and what runs
    while no lock is held, are part of it. *)
Inductive ClientOp :=
  | COpInitialize (load : Z * bool) (tags : Z) (alloc : bool)
  | COpOpenCamera (run_res idx : Z)
  | COpEndConfigure (sc : StreamConfiguration)
  | COpCreateStream (p : Z) (cfg : CameraStreamParameters) (ws1 ws2 : list (W -> Z * W))
  | COpCreateInputStream (cbs : bool) (w h f : Z) (ws1 ws2 : list (W -> Z * W))
  | COpDeleteStream (i : Z) (cache : bool) (ws1 ws2 : list (W -> Z * W))
  | COpPrepare (run_res i : Z)
  | COpTearDown (i : Z)
  | COpReturnStreamBuffer (b : StreamBuffer)
  | COpCreateDefaultRequest (t : Z)
  | COpSubmitRequestList (thread_ok : bool) (rs : list (Camera3Request M)) (streaming : bool)
      (ws : list (W -> Z * W))
  | COpCancelRequest (i : Z)
  | COpFlush (ws : list (W -> Z * W)) (during : W -> W)
  | COpWaitUntilIdle (ws : list (W -> Z * W))
  | COpHandlerLoop (exit_pending : bool) (pw gw : list (W -> Z * W)) (bw : Z -> SE D -> Z * SE D) (g : Gaps (D := D) (M := M) (H := H))
  | COpReprocLoop (bw : Z -> SE D -> Z * SE D) (gs : list (Gaps (D := D) (M := M) (H := H))) (bufs : nat -> StreamBuffer)
  | COpPreparePick
  | COpPrepareBuffer
  | COpMonitorPass
  | COpCaptureResult (res : camera3_capture_result M)
  | COpNotify (msg : option camera3_notify_msg).

Definition run_op {A} (m : ST W A) : ST W unit := let* r := m in ret tt.

Definition client_step (op : ClientOp) : ST W unit :=
  match op with
  | COpInitialize l t a => run_op (DeviceStreams.Initialize l t a)
  | COpOpenCamera r i => run_op (OpenCamera r i)
  | COpEndConfigure sc => run_op (DeviceStreams.EndConfigure sc)
  | COpCreateStream p cfg ws1 ws2 => run_op (CreateStream p cfg ws1 ws2)
  | COpCreateInputStream b w h f ws1 ws2 => run_op (CreateInputStream b w h f ws1 ws2)
  | COpDeleteStream i c ws1 ws2 => run_op (DeleteStream i c ws1 ws2)
  | COpPrepare r i => run_op (DeviceStreams.Prepare r i)
  | COpTearDown i => run_op (DeviceStreams.TearDown i)
  | COpReturnStreamBuffer b => run_op (ReturnStreamBuffer b)
  | COpCreateDefaultRequest t => run_op (CreateDefaultRequest t)
  | COpSubmitRequestList b rs s ws => run_op (SubmitRequestList b rs s ws)
  | COpCancelRequest i => run_op (CancelRequest i)
  | COpFlush ws d => run_op (Flush ws d)
  | COpWaitUntilIdle ws => run_op (WaitUntilIdle ws)
  | COpHandlerLoop e pw gw bw g => run_op (RequestHandler.ThreadLoop e pw gw bw g)
  | COpReprocLoop bw gs f => ReprocLoop bw gs f
  | COpPreparePick => run_op ThreadLoop_pick
  | COpPrepareBuffer => run_op ThreadLoop_prepare
  | COpMonitorPass => monitor_pass
  | COpCaptureResult res => HandleCaptureResult res
  | COpNotify m => Notify m
  end.

(** What the other threads do while an operation waits keeps the invariant:
    they take such operations too. *)
Definition rely (I : W -> Prop) (op : ClientOp) : Prop :=
  match op with
  | COpCreateStream _ cfg ws1 ws2 =>
      small (sp_bufferCount cfg) /\ wait_keeps started ws1 /\ wait_keeps I ws1 /\ wait_keeps I ws2
  | COpCreateInputStream _ _ _ _ ws1 ws2 | COpDeleteStream _ _ ws1 ws2 =>
      wait_keeps I ws1 /\ wait_keeps I ws2
  | COpSubmitRequestList _ _ _ ws | COpWaitUntilIdle ws => wait_keeps I ws
  | COpFlush ws d => wait_keeps I ws /\ forall w, I w -> I (d w)
  | COpHandlerLoop _ pw gw bw g =>
      wait_keeps I pw /\ wait_keeps I gw /\ buffer_wait_safe bw /\ gaps_keep I (gaps_list g)
  | COpReprocLoop bw gs _ => buffer_wait_safe bw /\ Forall (fun g => gaps_keep I (gaps_list g)) gs
  | COpCaptureResult res => res_frame_number res < frame_limit
  | COpNotify msg => message_fine msg
  | _ => True
  end.

Section Steps.
Context (I : W -> Prop) {CI : ClientInvariant I}.

#[local] Hint Resolve ci_notify ci_configure ci_initialize ci_open ci_create ci_input ci_delete
  client_Prepare_inv client_TearDown_inv ReturnStreamBuffer_inv CreateDefaultRequest_inv CancelRequest_inv
  Flush_inv WaitUntilIdle_inv WaitUntilState_inv handler_ThreadLoop_inv ReprocLoop_inv ThreadLoop_pick_inv
  ThreadLoop_prepare_inv HandleCaptureResult_inv Notify_inv preserves_of_stream
  QueueReprocRequestList_inv SetRepeatingRequests_inv QueueRequestList_inv : preserves.

Ltac frame_step :=
  lazymatch goal with
  | |- preserves _ (set_dc _) => apply preserves_dc; [apply _|]; intros ?; repeat case_goal; done
  | |- preserves _ (on_stream _ _) => apply inv_stream; auto with preserves
  | _ => preserve_step
  end.

Ltac frame := repeat first [ solve [eauto 3 with preserves typeclass_instances] | frame_step ].

Lemma ConfigureStreams_inv sc : preserves I (ConfigureStreams sc).
Proof. unfold ConfigureStreams. frame. Qed.

Lemma prepare_list_inv rs : forall n, preserves I (prepare_list n rs).
Proof. induction rs; intros n; simpl; frame. Qed.

Lemma request_streams_inv ids : preserves I (request_streams ids).
Proof. induction ids; simpl; frame. Qed.

#[local] Hint Resolve ConfigureStreams_inv prepare_list_inv request_streams_inv : preserves.

Lemma Generate_inv m : preserves I (GenerateCaptureRequestLocked m).
Proof. unfold GenerateCaptureRequestLocked, ensure_configured, request_input. cbv zeta. frame. Qed.

#[local] Hint Resolve Generate_inv : preserves.

Lemma GetRequestList_inv ms : forall n, preserves I (GetRequestListLocked n ms).
Proof. induction ms; intros n; simpl; frame. Qed.

#[local] Hint Resolve GetRequestList_inv : preserves.

Lemma SubmitRequestList_inv b rs s ws : wait_keeps I ws -> preserves I (SubmitRequestList b rs s ws).
Proof. intros Hws. unfold SubmitRequestList, AddRequestListLocked. frame. Qed.

Lemma monitor_pass_inv : preserves I monitor_pass.
Proof.
  unfold monitor_pass. frame. apply preserves_framed; [apply _|]. intros w.
  destruct (process_pass (w_mon w)). by split.
Qed.

#[local] Hint Resolve SubmitRequestList_inv monitor_pass_inv : preserves.

(** An invariant of the base steps is one of every operation. *)
Lemma client_step_preserves op : rely I op -> preserves I (client_step op).
Proof.
  destruct op; cbn [rely client_step]; intros; unfold run_op; split_hyps; try (frame; done).
  unfold DeviceStreams.EndConfigure. frame.
Qed.
End Steps.

(** ** Interleavings

    The waits of an operation: points at which it gives its mutex up, or runs
    without one. *)
Definition unlocked (gs : list (W -> W)) : list (W -> Z * W) := map (fun f w => (0, f w)) gs.

Definition op_waits (op : ClientOp) : list (W -> Z * W) :=
  match op with
  | COpCreateStream _ _ ws1 ws2 | COpCreateInputStream _ _ _ _ ws1 ws2 | COpDeleteStream _ _ ws1 ws2 => ws1 ++ ws2
  | COpHandlerLoop _ ws1 ws2 _ g => ws1 ++ ws2 ++ unlocked (gaps_list g)
  | COpReprocLoop _ gs _ => concat (map (fun g => unlocked (gaps_list g)) gs)
  | COpSubmitRequestList _ _ _ ws | COpWaitUntilIdle ws => ws
  | COpFlush ws d => unlocked [d] ++ ws
  | _ => []
  end.

(** Streams ask for less than 2^31 buffers, and a wait for a buffer is a
    safe use of its stream. *)
Definition op_fine (op : ClientOp) : Prop :=
  match op with
  | COpCreateStream _ cfg _ _ => small (sp_bufferCount cfg)
  | COpHandlerLoop _ _ _ bw _ | COpReprocLoop bw _ _ => buffer_wait_safe bw
  | COpCaptureResult res => res_frame_number res < frame_limit
  | COpNotify msg => message_fine msg
  | _ => True
  end.

(** [effect w w']: the threads take [w] to [w'] by some interleaving of their
    operations.  What happens during a wait is such an interleaving again. *)
Inductive effect : W -> W -> Prop :=
  | effect_done w : effect w w
  | effect_step op w w1 w2 :
      op_fine op -> (forall g, g ∈ op_waits op -> forall v, effect v (snd (g v))) ->
      client_step op w = Some (tt, w1) -> effect w1 w2 -> effect w w2.

Lemma op_waits_rely (I : W -> Prop) op : op_fine op ->
  (forall g, g ∈ op_waits op -> forall w, (I w -> I (snd (g w))) /\ (started w -> started (snd (g w)))) ->
  rely I op.
Proof.
  intros Hf Hw.
  assert (forall (J : W -> Prop), (forall g w, g ∈ op_waits op -> J w -> J (snd (g w))) ->
    forall ws, (forall g, g ∈ ws -> g ∈ op_waits op) -> wait_keeps J ws) as Hk.
  { intros J HJ ws Hws. apply Forall_forall. intros g Hg w. by apply HJ, Hws. }
  pose proof (Hk I (fun g w Hg => proj1 (Hw g Hg w))) as HkI.
  pose proof (Hk started (fun g w Hg => proj2 (Hw g Hg w))) as Hks.
  assert (forall gs, (forall f, f ∈ gs -> (fun w => (0, f w)) ∈ op_waits op) -> gaps_keep I gs) as Hgap.
  { intros gs Hgs. apply Forall_forall. intros f Hin w. by apply (Hw _ (Hgs f Hin)). }
  assert (forall (f : W -> W) gs, f ∈ gs -> (fun w => (0, f w)) ∈ unlocked gs) as Hun.
  { intros f gs Hin. by apply (list_elem_of_fmap_2 (fun f w => (0, f w))). }
  destruct op; cbn [rely op_waits op_fine] in *; split_and?; try exact Hf; try done;
    try (first [apply HkI | apply Hks]; set_solver).
  - intros w. apply (Hw (fun w => (0, during w))). by left.
  - apply Hgap. intros f Hin. rewrite !elem_of_app. right. right. by apply Hun.
  - apply Forall_forall. intros g Hin. apply Hgap. intros f Hf'. apply list_elem_of_In, in_concat.
    exists (unlocked (gaps_list g)). split; [by apply in_map_iff; exists g; split; [|apply list_elem_of_In]|].
    by apply list_elem_of_In, Hun.
Qed.

(** An invariant of the base steps holds after every interleaving. *)
Lemma effect_invariant (I : W -> Prop) `{!ClientInvariant I} `{!ClientInvariant started} w w' :
  effect w w' -> (I w -> I w') /\ (started w -> started w').
Proof.
  induction 1 as [|op w w1 w2 Hf _ Hg Hs _ [IH1 IH2]]; [done|].
  pose proof (client_step_preserves I op (op_waits_rely I op Hf Hg) w) as Hp.
  assert (rely started op) as Hr.
  { apply op_waits_rely; [done|]. intros g Hin v. destruct (Hg g Hin v). done. }
  pose proof (client_step_preserves started op Hr w) as Hq.
  rewrite Hs in Hp, Hq. auto.
Qed.
End Client.

#[export] Hint Resolve BeginConfigure_safe EndConfigure_safe AbortConfigure_safe ReturnBufferToClient_safe
  ReturnBuffer_safe Close_safe TearDown_safe BeginPrepare_safe PrepareBuffer_safe EndPrepare_safe
  set_usage_safe forget_buffer_safe GetBuffer_safe hal_configure_safe : preserves.
