(* ===== verification/ClientInvariants.v ===== *)
(** * Invariants of the whole client

    The instances of [ClientInvariant]: the memory of the streams, the error
    state, and the table of streams; each is an invariant of every
    interleaving of the client's threads. *)

From S2P Require Import Prelude KeyedVector Monitor Memory Stream Adaptor Floats SmoothZoom World PrepareHandler RequestHandler DeviceState DeviceStreams DeviceRequests DeviceResults Client.

(** The HAL asks for less than 2^31 buffers per stream. *)
Class CameraHalLaws (M H : Type) `{CameraHal M H} := {
  hal_small c h : Forall (fun x => small (snd x)) (snd (fst (hal_configure_streams c h)))
}.

Section ClientInvariants.
Context {D M H : Type} `{AllocDevice D} `{AllocUsage} `{HalPlatform} `{CameraMetadata M}
  `{MetadataTags} `{HC : CameraHal M H} {HU : HalUsage} `{ClientPlatform} `{!AllocDeviceLaws D}
  {FL : FrameLimit} {HL : CameraHalLaws M H}.

Abbreviation W := (World D M H).
Abbreviation is_started := (@started D M H).

Lemma hoare_of_preserves {A B} (I : W -> Prop) (m : ST W A) (k : A -> ST W B) (R : A -> Prop) :
  (forall w, match m w with Some (a, _) => R a | None => True end) -> preserves I m ->
  (forall a, R a -> preserves I (k a)) -> preserves I (bind m k).
Proof.
  intros HR Hm Hk w Hw. unfold bind. specialize (HR w). specialize (Hm w Hw).
  destruct (m w) as [[a w']|]; [|done]. by apply Hk.
Qed.

Section Configure.
Context (I : W -> Prop) {FI : FrameInvariant I}.

Lemma configure_hal_inv ss : preserves I (configure_hal ss).
Proof.
  unfold configure_hal. apply preserves_bind.
  { apply preserves_for_each. intros p _. apply inv_stream, set_usage_safe. }
  intros _. apply preserves_bind; [by apply hal_view_inv|]. intros outs.
  apply preserves_bind; [apply preserves_gets|]. intros c. cbv zeta.
  apply (hoare_of_preserves I _ _ (fun x => Forall (fun y => small (snd y)) (snd x))).
  - intros w. unfold on_hal, pure_step.
    match goal with |- context [ hal_configure_streams ?c ?h ] => pose proof (hal_small c h) as Hs end.
    by destruct (hal_configure_streams _ _) as [[r l] h'].
  - by apply preserves_hal.
  - intros [r l] Hl. cbn [fst snd] in *. apply preserves_bind; [by apply hal_write_inv|]. intros rest.
    apply preserves_bind.
    { apply preserves_dc; [done|]. intros c'. destruct rest as [|[u m] ?]; [done|]. by case_goal. }
    intros _. apply preserves_bind; [|intros; apply preserves_ret].
    apply preserves_for_each. intros p _. apply inv_stream, set_usage_safe.
Qed.

(** What a configuration needs besides framed steps. *)
Lemma configure_inv :
  (forall s, s <> STATE_NOT_INITIALIZED -> s <> STATE_CLOSED -> preserves I (InternalUpdateStatusLocked s)) ->
  preserves I purge_deleted -> preserves I ConfigureStreamsLocked.
Proof.
  intros Hst Hpurge. unfold ConfigureStreamsLocked. apply preserves_bind; [apply preserves_gets|]. intros c.
  case_goal; [apply preserves_ret|]. case_goal; [apply preserves_ret|].
  apply preserves_bind; [apply preserves_gets|]. intros ss.
  apply preserves_bind; [by apply begin_all_inv|]. intros ok.
  case_goal; [apply preserves_ret|]. case_goal; [apply preserves_undefined|].
  apply preserves_bind; [apply preserves_dc; [done|]; intros c'; by case_goal|]. intros _.
  apply preserves_bind; [by apply configure_hal_inv|]. intros res.
  case_goal; [|case_goal; [apply preserves_ret|]].
  - apply preserves_bind; [apply finish_all_inv; [done|apply AbortConfigure_safe]|]. intros r.
    case_goal; [apply preserves_ret|]. apply preserves_bind; [by apply Hst|]. intros _.
    apply preserves_bind; [by apply preserves_dc|]. intros; apply preserves_ret.
  - apply preserves_bind; [apply finish_all_inv; [done|apply EndConfigure_safe]|]. intros r.
    case_goal; [apply preserves_ret|]. apply preserves_bind; [by apply FinishConfiguration_inv|]. intros _.
    apply preserves_bind; [by apply preserves_dc|]. intros _.
    apply preserves_bind; [by apply Hst|]. intros _.
    apply preserves_bind; [done|]. intros; apply preserves_ret.
Qed.

Lemma notify_inv :
  (forall s, s <> STATE_NOT_INITIALIZED -> s <> STATE_CLOSED -> preserves I (InternalUpdateStatusLocked s)) ->
  forall b, preserves I (NotifyStatus b).
Proof.
  intros Hst b. unfold NotifyStatus. apply preserves_bind; [apply preserves_gets|]. intros s.
  assert (forall x : State, x <> STATE_NOT_INITIALIZED -> x <> STATE_CLOSED -> preserves I
    (do* InternalUpdateStatusLocked x in
     let* quiet := gets (fun w => pause_state_notify_ (dc w)) in
     let* cb := gets (fun w => idleCb (client_cb_ (dc w))) in
     if quiet then ret tt else if b && cb then emit EvIdle else ret tt)) as Hn.
  { intros x Hx Hx'. apply preserves_bind; [by apply Hst|]. intros _.
    apply preserves_bind; [apply preserves_gets|]. intros q.
    apply preserves_bind; [apply preserves_gets|]. intros cb.
    case_goal; [apply preserves_ret|]. case_goal; [by apply preserves_emit|apply preserves_ret]. }
  destruct s; try apply preserves_ret; apply Hn; by destruct b.
Qed.

Lemma pause_to_add_inv ws : wait_keeps I ws -> preserves I (pause_to_add ws).
Proof.
  intros Hws. unfold pause_to_add. apply preserves_bind; [apply preserves_gets|]. intros s.
  destruct s; try apply preserves_ret. apply preserves_bind; [by apply InternalPauseAndWait_inv|]. intros r.
  case_goal.
  - apply preserves_bind; [apply inv_fail|]. intros; apply preserves_ret.
  - apply preserves_bind; [apply preserves_gets|]. intros s.
    case_goal; [apply preserves_undefined|apply preserves_ret].
Qed.

Lemma continue_inv b ws : preserves I ConfigureStreamsLocked -> wait_keeps I ws -> preserves I (continue_if b ws).
Proof.
  intros Hc Hws. unfold continue_if. case_goal; [|apply preserves_ret].
  apply preserves_bind; [done|]. intros r. case_goal; [apply preserves_ret|].
  apply preserves_bind; [by apply InternalResume_inv|]. intros; apply preserves_ret.
Qed.
End Configure.

(** ** Invariants that leave the table of streams free *)

Section Loose.
Context (I : W -> Prop) {FI : FrameInvariant I}.
Hypothesis Hdc : forall f, (forall c, state_ (f c) = state_ c /\ result_core (f c) = result_core c) ->
  preserves I (set_dc f).
Hypothesis Hadd : forall p blob cfg, small (sp_bufferCount cfg) -> preserves I (add_stream p blob cfg).
Hypothesis Hconf : preserves I ConfigureStreamsLocked.

Lemma loose_create p cfg ws1 ws2 : small (sp_bufferCount cfg) -> wait_keeps I ws1 -> wait_keeps I ws2 ->
  preserves I (CreateStream p cfg ws1 ws2).
Proof.
  intros Hs H1' H2'. unfold CreateStream. case_goal; [apply preserves_ret|].
  apply preserves_bind; [by apply pause_to_add_inv|]. intros [e|b]; [apply preserves_ret|].
  apply preserves_bind; [apply preserves_gets|]. intros info.
  destruct (if _ =? _ then _ else _); [|apply preserves_undefined]. case_goal; [apply preserves_ret|].
  apply preserves_bind; [by apply Hadd|]. intros _.
  apply preserves_bind; [by apply continue_inv|]. intros r. case_goal; [apply preserves_ret|].
  apply preserves_bind; [apply preserves_gets|]. intros n.
  apply preserves_bind; [by apply Hdc|]. intros; apply preserves_ret.
Qed.

Lemma loose_input b w h f ws1 ws2 : wait_keeps I ws1 -> wait_keeps I ws2 ->
  preserves I (CreateInputStream b w h f ws1 ws2).
Proof.
  intros H1' H2'. unfold CreateInputStream. case_goal; [apply preserves_ret|].
  apply preserves_bind; [apply preserves_gets|]. intros c. case_goal; [apply preserves_ret|].
  apply preserves_bind; [by apply pause_to_add_inv|]. intros [e|a]; [apply preserves_ret|].
  apply preserves_bind; [by apply Hdc|]. intros _.
  apply preserves_bind; [by apply continue_inv|]. intros r. case_goal; [apply preserves_ret|apply preserves_gets].
Qed.

Lemma loose_delete i b ws1 ws2 : wait_keeps I ws1 -> wait_keeps I ws2 -> preserves I (DeleteStream i b ws1 ws2).
Proof.
  intros H1' H2'. unfold DeleteStream, delete_known, retire_stream. apply preserves_bind; [apply preserves_gets|]. intros s.
  match goal with |- preserves _ (match _ with STATE_ERROR => _ | STATE_NOT_INITIALIZED => _ |
    STATE_CLOSED => _ | STATE_NOT_CONFIGURED => ?x | _ => _ end) => assert (preserves I x) as Hx end;
    [|destruct s; try apply preserves_ret; apply Hx].
  apply preserves_bind; [case_goal; [apply preserves_ret|by apply InternalPauseAndWait_inv]|]. intros r.
  case_goal; [apply preserves_bind; [apply inv_fail|]; intros; apply preserves_ret|].
  apply preserves_bind; [apply preserves_gets|]. intros c.
  case_goal; [apply preserves_bind; [by apply Hdc|]; intros; apply preserves_ret|].
  destruct (kv_lookup i _) as [p|]; [|apply preserves_ret].
  apply preserves_bind; [by apply handler_IsStreamActive_inv|]. intros busy. case_goal; [apply preserves_ret|].
  apply preserves_bind; [by apply Hdc|]. intros _.
  apply preserves_bind; [apply preserves_gets|]. intros last.
  apply preserves_bind; [case_goal; [by apply Hdc|apply preserves_ret]|]. intros _.
  apply preserves_bind; [apply inv_stream, Close_safe|]. intros res. case_goal.
  - apply preserves_bind; [by apply Hdc|]. intros _. apply preserves_bind; [done|]. intros e.
    case_goal; [apply preserves_ret|]. apply preserves_bind; [by apply InternalResume_inv|].
    intros; apply preserves_ret.
  - apply preserves_bind; [apply Hdc; intros c'; by case_goal|]. intros _.
    apply preserves_bind; [by apply Hdc|]. intros; apply preserves_ret.
Qed.
End Loose.

(** ** The client stays initialised *)

Lemma started_status s : s <> STATE_NOT_INITIALIZED -> preserves is_started (InternalUpdateStatusLocked s).
Proof. intros Hs. by apply preserves_modify. Qed.

Lemma started_dc f : (forall c, state_ c <> STATE_NOT_INITIALIZED -> state_ (f c) <> STATE_NOT_INITIALIZED) ->
  preserves is_started (set_dc f).
Proof. intros Hf. apply preserves_modify. intros w Hw. by apply Hf. Qed.

#[export] Instance started_frame : FrameInvariant is_started.
Proof.
  apply frame_invariant.
  - intros w w' [_ _ Hc _] Hs. injection Hc as Es _ _ _. unfold started. congruence.
  - intros A p f _ w Hs. unfold on_stream. destruct (heap w !! p) as [s|]; [|done]. by destruct (f _).
  - intros w Hs. rewrite SetErrorState_eq. unfold error_world, started. by destruct (can_fail _).
Qed.

Lemma started_add p blob cfg : preserves is_started (add_stream p blob cfg).
Proof. intros w Hw. unfold add_stream. destruct (heap w !! p); [done|]. by destruct (p =? 0). Qed.

(** ** Memory *)

Abbreviation stream_keys s := (kv_keys (mem_alloc_buffers_ s)).

(** [F] are buffers of the allocator that belong to others. *)
Record memory_ok (F : gset Z) (w : W) : Prop := {
  mo_wf : pool_wf w;
  mo_disjoint p q s t : heap w !! p = Some s -> heap w !! q = Some t -> p <> q ->
    forall b, b ∈ stream_keys s -> b ∈ stream_keys t -> False;
  mo_foreign b : b ∈ F -> b ∈ allocated (w_dev w) /\
    forall p s, heap w !! p = Some s -> b ∈ stream_keys s -> False
}.

Lemma memory_same_pool F w w' :
  memory_ok F w -> heap w' ⊆ heap w -> w_dev w' = w_dev w -> memory_ok F w'.
Proof.
  intros [Hwf Hdis Hf] Hh Hd. split.
  - intros p s Hp. apply (lookup_weaken _ _ _ _ Hp) in Hh. rewrite Hd.
    apply (se_wf_any_mon s (w_mon w)). by apply (Hwf p).
  - intros p q s t Hp Hq. apply (Hdis p q); by eapply lookup_weaken.
  - intros b Hb. destruct (Hf b Hb) as [Ha Ho]. rewrite Hd. split; [done|].
    intros p s Hp. apply (Ho p). by eapply lookup_weaken.
Qed.

Lemma memory_step F w p s s' :
  memory_ok F w -> heap w !! p = Some s -> kept (mkSE s (w_mon w) (w_dev w)) s' ->
  memory_ok F (w <| heap := <[p := st s']> (heap w) |> <| w_mon := mon s' |> <| w_dev := dev s' |>).
Proof.
  intros [Hwf Hdis Hf] Hp [Hwf' Hk].
  assert (forall b, b ∈ allocated (w_dev w) -> (b ∈ stream_keys s -> False) ->
    b ∈ allocated (dev s') /\ (b ∈ stream_keys (st s') -> False)) as Hout.
  { intros b Ha Hn. assert (b ∈ foreign s') as Hb.
    { rewrite Hk. unfold foreign. apply elem_of_difference. split; [done|]. simpl. by rewrite elem_of_list_to_set. }
    unfold foreign in Hb. apply elem_of_difference in Hb as [Hb1 Hb2]. split; [done|].
    by rewrite elem_of_list_to_set in Hb2. }
  assert (forall q t b, heap w !! q = Some t -> q <> p -> b ∈ stream_keys t ->
    b ∈ allocated (dev s') /\ (b ∈ stream_keys (st s') -> False)) as Hother.
  { intros q t b Hq Hne Hb. apply Hout; [by apply (se_owned _ (Hwf q t Hq))|].
    intros Hb'. by apply (Hdis q p t s Hq Hp Hne b). }
  split; simpl.
  - intros q t Hq. simpl in Hq. destruct (decide (q = p)) as [->|Hne].
    + rewrite lookup_insert_eq in Hq. injection Hq as <-. simpl. by destruct s'.
    + rewrite lookup_insert_ne in Hq by congruence. pose proof (Hwf q t Hq) as [Hs _].
      split; [done|]. intros b Hb. by destruct (Hother q t b Hq Hne Hb).
  - intros q r t u Hq Hr Hne b Hb Hb'.
    destruct (decide (q = p)) as [->|Hqp]; destruct (decide (r = p)) as [->|Hrp]; try done;
      rewrite ?lookup_insert_eq, ?lookup_insert_ne in * by congruence; simplify_eq.
    + by destruct (Hother r u b Hr Hrp Hb').
    + by destruct (Hother q t b Hq Hqp Hb).
    + by apply (Hdis q r t u Hq Hr Hne b).
  - intros b Hb. destruct (Hf b Hb) as [Ha Ho]. destruct (Hout b Ha (Ho p s Hp)) as [Ha' Hn].
    split; [done|]. intros q t Hq Hbt. destruct (decide (q = p)) as [->|Hne].
    + rewrite lookup_insert_eq in Hq. injection Hq as <-. done.
    + rewrite lookup_insert_ne in Hq by congruence. by apply (Ho q t).
Qed.

#[export] Instance memory_frame F : FrameInvariant (memory_ok F).
Proof.
  apply frame_invariant.
  - intros w w' [Hh Hd _ _] Hm. apply (memory_same_pool F w); [done|by rewrite Hh|done].
  - intros A p f [Hk _] w Hm. unfold on_stream. destruct (heap w !! p) as [s|] eqn:Hp; [|done].
    specialize (Hk (mkSE s (w_mon w) (w_dev w)) (mo_wf _ _ Hm p s Hp)).
    destruct (f _) as [a s']. by apply (memory_step F w p s s').
  - intros w Hm. rewrite SetErrorState_eq. destruct (error_world_keeps w) as (Hh & _ & Hd & _).
    apply (memory_same_pool F w); [done|by rewrite Hh|done].
Qed.

Lemma memory_dc F f : preserves (memory_ok F) (set_dc f).
Proof. apply preserves_modify. intros w Hm. by apply (memory_same_pool F w). Qed.

Lemma memory_add F p blob cfg : small (sp_bufferCount cfg) -> preserves (memory_ok F) (add_stream p blob cfg).
Proof.
  intros Hs w [Hwf Hdis Hf]. unfold add_stream. destruct (heap w !! p) eqn:Hp; [done|].
  destruct (p =? 0); [done|]. split; simpl.
  - intros q t Hq. simpl in Hq. destruct (decide (q = p)) as [->|Hne].
    + rewrite lookup_insert_eq in Hq. injection Hq as <-. by apply Camera3Stream_new_wf.
    + rewrite lookup_insert_ne in Hq by congruence. by apply (Hwf q).
  - intros q r t u Hq Hr Hne b Hb Hb'.
    destruct (decide (q = p)) as [->|Hqp].
    { rewrite lookup_insert_eq in Hq. injection Hq as <-. simpl in Hb. by apply not_elem_of_nil in Hb. }
    destruct (decide (r = p)) as [->|Hrp].
    { rewrite lookup_insert_eq in Hr. injection Hr as <-. simpl in Hb'. by apply not_elem_of_nil in Hb'. }
    rewrite lookup_insert_ne in Hq by congruence. rewrite lookup_insert_ne in Hr by congruence.
    by apply (Hdis q r t u Hq Hr Hne b).
  - intros b Hb. destruct (Hf b Hb) as [Ha Ho]. split; [done|]. intros q t Hq Hbt.
    destruct (decide (q = p)) as [->|Hne].
    + rewrite lookup_insert_eq in Hq. injection Hq as <-. simpl in Hbt. by apply not_elem_of_nil in Hbt.
    + rewrite lookup_insert_ne in Hq by congruence. by apply (Ho q t).
Qed.

Lemma Camera3Stream_delete_kept (s : SE D) : se_wf s -> kept s (Camera3Stream_delete s).
Proof.
  intros Hwf. unfold Camera3Stream_delete. case_goal; [by apply CloseLocked_kept|].
  match goal with |- kept _ (snd (CloseLocked ?x)) => assert (kept s x) as Hk end.
  { pose proof (se_stream _ Hwf) as []. by apply kept_same_buffers. }
  eapply kept_trans; [exact Hk|]. apply CloseLocked_kept.
Qed.

Lemma Camera3Stream_delete_safe :
  stream_safe (fun s : SE D => (tt, Camera3Stream_delete s)).
Proof.
  split; [apply Camera3Stream_delete_kept|]. intros s. simpl. unfold Camera3Stream_delete.
  case_goal; [apply CloseLocked_identity|].
  match goal with |- context [ CloseLocked ?x ] => exact (CloseLocked_identity x) end.
Qed.

Lemma memory_delete F p : preserves (memory_ok F) (delete_stream p).
Proof.
  unfold delete_stream. apply preserves_bind; [apply inv_stream, Camera3Stream_delete_safe|]. intros _.
  apply preserves_modify. intros w Hm. apply (memory_same_pool F w); [done|apply delete_subseteq|done].
Qed.

Lemma memory_purge F : preserves (memory_ok F) purge_deleted.
Proof.
  unfold purge_deleted. apply preserves_bind; [apply preserves_gets|]. intros gone.
  apply preserves_bind; [|intros _; apply memory_dc]. apply preserves_for_each. intros p _. apply memory_delete.
Qed.

Lemma memory_configure F : preserves (memory_ok F) ConfigureStreamsLocked.
Proof. apply configure_inv; [apply _|intros; apply memory_dc|apply memory_purge]. Qed.

Lemma abandon_inv (I : W -> Prop) : FrameInvariant I -> preserves I abandon.
Proof. intros HF. by apply preserves_dc. Qed.

Lemma close_device_inv (I : W -> Prop) : FrameInvariant I -> preserves I close_device.
Proof.
  intros HF. unfold close_device. apply preserves_bind; [apply preserves_gets|]. intros o.
  apply preserves_bind; [|intros _; by apply preserves_dc].
  case_goal; [apply preserves_modify_framed; [done|by split]|apply preserves_ret].
Qed.

Lemma delete_stream_frame (I : W -> Prop) : FrameInvariant I ->
  (forall p, preserves I (modify (fun w => w <| heap := delete p (heap w) |>))) ->
  forall p, preserves I (delete_stream p).
Proof.
  intros HF Hd p. unfold delete_stream. apply preserves_bind; [apply inv_stream, Camera3Stream_delete_safe|].
  intros _. apply Hd.
Qed.

#[export] Instance started_invariant : ClientInvariant is_started.
Proof.
  assert (forall f, (forall c, state_ (f c) = state_ c /\ result_core (f c) = result_core c) ->
    preserves is_started (set_dc f)) as Hdc.
  { intros f Hf. apply started_dc. intros c. by rewrite (proj1 (Hf c)). }
  assert (preserves is_started ConfigureStreamsLocked) as Hconf.
  { apply configure_inv; [apply _|intros; by apply started_status|]. unfold purge_deleted.
    apply preserves_bind; [apply preserves_gets|]. intros gone.
    apply preserves_bind; [|intros _; by apply Hdc]. apply preserves_for_each. intros p _.
    apply delete_stream_frame; [apply _|]. intros q. by apply preserves_modify. }
  split.
  - apply _.
  - apply notify_inv; [apply _|intros; by apply started_status].
  - done.
  - intros l t a. unfold DeviceStreams.Initialize.
    repeat lazymatch goal with
      | |- preserves _ (set_dc _) => by apply started_dc
      | |- preserves _ abandon => apply abandon_inv, _
      | |- preserves _ (on_hal _) => apply preserves_hal, _
      | |- preserves _ (modify _) => by apply preserves_modify
      | _ => preserve_step
      end.
  - intros r i. unfold OpenCamera.
    repeat lazymatch goal with
      | |- preserves _ (set_dc (learn_device _)) => apply started_dc; intros c Hc; unfold learn_device; by repeat case_goal
      | |- preserves _ (set_dc _) => by apply started_dc
      | |- preserves _ close_device => apply close_device_inv, _
      | |- preserves _ (on_hal _) => apply preserves_hal, _
      | |- preserves _ SetErrorState => apply inv_fail
      | |- preserves _ (RequestHandler.Initialize _) => apply handler_Initialize_inv, _
      | _ => preserve_step
      end.
  - intros p cfg ws1 ws2 Hs _ Hw1 Hw2. apply loose_create; auto using started_add. apply _.
  - intros. apply loose_input; auto. apply _.
  - intros. apply loose_delete; auto. apply _.
Qed.

#[export] Instance memory_invariant F : ClientInvariant (memory_ok F).
Proof.
  assert (forall f : W -> W, (forall w, heap (f w) = heap w /\ w_dev (f w) = w_dev w) ->
    preserves (memory_ok F) (modify f)) as Hmod.
  { intros f Hf. apply preserves_modify. intros w Hm. destruct (Hf w) as [E1 E2].
    apply (memory_same_pool F w); [done|by rewrite E1|done]. }
  split.
  - apply _.
  - apply notify_inv; [apply _|]. intros; apply memory_dc.
  - apply memory_configure.
  - intros l t a. unfold DeviceStreams.Initialize.
    repeat lazymatch goal with
      | |- preserves _ (set_dc _) => apply memory_dc
      | |- preserves _ abandon => apply abandon_inv, _
      | |- preserves _ (on_hal _) => apply preserves_hal, _
      | |- preserves _ (modify _) => apply Hmod; intros w; by split
      | _ => preserve_step
      end.
  - intros r i. unfold OpenCamera.
    repeat lazymatch goal with
      | |- preserves _ (set_dc _) => apply memory_dc
      | |- preserves _ close_device => apply close_device_inv, _
      | |- preserves _ (on_hal _) => apply preserves_hal, _
      | |- preserves _ SetErrorState => apply inv_fail
      | |- preserves _ (RequestHandler.Initialize _) => apply handler_Initialize_inv, _
      | _ => preserve_step
      end.
  - intros p cfg ws1 ws2 Hs _ Hw1 Hw2. apply loose_create; auto using memory_dc, memory_add, memory_configure. apply _.
  - intros. apply loose_input; auto using memory_dc, memory_configure. apply _.
  - intros. apply loose_delete; auto using memory_dc, memory_configure. apply _.
Qed.

(** C1. Memory safety of the whole client.  Whatever its threads and the HAL
    do, in any interleaving: no buffer that belongs to someone else is freed,
    no two streams share a buffer, and every stream stays well formed (it owns
    the buffers in its table, and its counters agree with them). *)
Theorem client_memory_safe (F : gset Z) (w w' : W) :
  effect w w' -> memory_ok F w -> memory_ok F w'.
Proof. intros He. by apply (effect_invariant (memory_ok F)) in He as [Hm _]. Qed.

(** ** The error state *)

Definition failed (k : nat) (w : W) : Prop := state_ (dc w) = STATE_ERROR /\ device_errors w = k.

#[export] Instance failed_frame k : FrameInvariant (failed k).
Proof.
  apply frame_invariant.
  - intros w w' [_ _ Hc He] [Hs Hk]. injection Hc as Es _ _ _. split; congruence.
  - intros A p f _ w [Hs Hk]. unfold on_stream. destruct (heap w !! p) as [s|]; [|done].
    by destruct (f _) as [a s'].
  - intros w [Hs Hk]. rewrite SetErrorState_eq. unfold error_world. by rewrite Hs.
Qed.

Lemma failed_dc k f : (forall c, state_ (f c) = state_ c /\ result_core (f c) = result_core c) ->
  preserves (failed k) (set_dc f).
Proof. intros Hf. apply preserves_modify. intros w [Hs Hk]. split; [|done]. simpl. by rewrite (proj1 (Hf _)). Qed.

Lemma failed_add k p blob cfg : preserves (failed k) (add_stream p blob cfg).
Proof.
  intros w Hw. unfold add_stream. destruct (heap w !! p); [done|]. by destruct (p =? 0).
Qed.

Lemma failed_configure k : preserves (failed k) ConfigureStreamsLocked.
Proof. intros w Hw. unfold ConfigureStreamsLocked, bind, gets. by rewrite (proj1 Hw). Qed.

#[export] Instance failed_invariant k : ClientInvariant (failed k).
Proof.
  split.
  - apply _.
  - intros b w Hw. unfold NotifyStatus, bind, gets. by rewrite (proj1 Hw).
  - apply failed_configure.
  - intros l t a w Hw. unfold DeviceStreams.Initialize, bind at 1, gets at 1. rewrite (proj1 Hw).
    by apply (preserves_bind (failed k) abandon), Hw; [apply abandon_inv, _|intros; apply preserves_ret].
  - intros r i w Hw. unfold OpenCamera, bind at 1, gets at 1. rewrite (proj1 Hw).
    destruct (_ <=? _); [exact Hw|]. destruct (negb (camera_module_ _)); [exact Hw|].
    destruct (device_ _); [exact Hw|]. change (bool_decide (STATE_ERROR = STATE_CLOSED)) with false. cbn [negb].
    by apply (preserves_bind (failed k) close_device), Hw; [apply close_device_inv, _|intros; apply preserves_ret].
  - intros p cfg ws1 ws2 Hs _ Hw1 Hw2. apply loose_create; auto using failed_dc, failed_add, failed_configure. apply _.
  - intros. apply loose_input; auto using failed_dc, failed_configure. apply _.
  - intros. apply loose_delete; auto using failed_dc, failed_configure. apply _.
Qed.

(** C26. The error state is final, and the client hears of it once.  An error
    of an open camera takes the client to the error state with one report of a
    device error; after that no interleaving of operations leaves the state
    or reports another one. *)
Theorem error_state_final (w : W) :
  can_fail (state_ (dc w)) = true ->
  exists w1, SetErrorState w = Some (tt, w1) /\ state_ (dc w1) = STATE_ERROR /\
    device_errors w1 = (device_errors w + if errorCb (client_cb_ (dc w)) then 1 else 0)%nat /\
    forall w2, effect w1 w2 -> state_ (dc w2) = STATE_ERROR /\ device_errors w2 = device_errors w1.
Proof.
  intros Hf. eexists. split; [apply SetErrorState_eq|].
  assert (state_ (dc (error_world w)) = STATE_ERROR) as Hs by (unfold error_world; by rewrite Hf).
  split_and!; [done| |].
  - unfold error_world, device_errors. rewrite Hf. simpl. rewrite List.filter_app, length_app.
    by destruct (errorCb _).
  - intros w2 He. by apply (effect_invariant (failed _) _ _ He).
Qed.

(** ** The table of streams *)

Record table_ok (w : W) : Prop := {
  tb_ordered : kv_ordered (streams_ (dc w));
  tb_entry i p : kv_lookup i (streams_ (dc w)) = Some p ->
    p <> 0 /\ 0 <= i <= next_stream_id_ (dc w) /\
    exists s, heap w !! p = Some s /\ id_ s = i /\ this_ s = p;
  tb_gone p : p ∈ deleted_streams_ (dc w) ->
    is_Some (heap w !! p) /\ forall i, kv_lookup i (streams_ (dc w)) <> Some p;
  tb_nodup : NoDup (deleted_streams_ (dc w));
  tb_next : 0 <= next_stream_id_ (dc w);
  tb_closed : state_ (dc w) = STATE_NOT_INITIALIZED -> streams_ (dc w) = []
}.

(** A stream that is neither in the table nor to be deleted. *)
Definition detached (p : Z) (w : W) : Prop :=
  is_Some (heap w !! p) /\ (p ∉ deleted_streams_ (dc w)) /\
  forall i, kv_lookup i (streams_ (dc w)) <> Some p.

(** Two identifiers do not share a stream. *)
Lemma table_inj (w : W) i j p : table_ok w ->
  kv_lookup i (streams_ (dc w)) = Some p -> kv_lookup j (streams_ (dc w)) = Some p -> i = j.
Proof.
  intros Ht Hi Hj. destruct (tb_entry _ Ht i p Hi) as (_ & _ & s & Hs & <- & _).
  destruct (tb_entry _ Ht j p Hj) as (_ & _ & t & Hs' & <- & _). congruence.
Qed.

(** Worlds with the same table, whose streams keep their identities. *)
Lemma table_same (w w' : W) :
  streams_ (dc w') = streams_ (dc w) -> deleted_streams_ (dc w') = deleted_streams_ (dc w) ->
  next_stream_id_ (dc w') = next_stream_id_ (dc w) ->
  (state_ (dc w') = STATE_NOT_INITIALIZED -> state_ (dc w) = STATE_NOT_INITIALIZED) ->
  (forall p s, heap w !! p = Some s -> exists s', heap w' !! p = Some s' /\ same_identity s s') ->
  table_ok w -> table_ok w'.
Proof.
  intros Es Ed En Est Hh []. constructor; rewrite ?Es, ?Ed, ?En; auto.
  - intros i p Hi. destruct (tb_entry0 i p Hi) as (Hp & Hr & s & Hs & Ei & Et).
    destruct (Hh p s Hs) as (s' & Hs' & [E1 E2]). split; [done|]. split; [done|].
    exists s'. by rewrite E1, E2.
  - intros p Hp. destruct (tb_gone0 p Hp) as [[s Hs] Hn]. split; [|done].
    destruct (Hh p s Hs) as (s' & Hs' & _). by exists s'.
Qed.

Lemma identity_refl s : same_identity s s.
Proof. done. Qed.

Lemma heap_step_identity (w : W) p s s' : heap w !! p = Some s -> same_identity s s' ->
  forall q t, heap w !! q = Some t -> exists t', <[p := s']> (heap w) !! q = Some t' /\ same_identity t t'.
Proof.
  intros Hp Hi q t Hq. destruct (decide (q = p)) as [->|Hne].
  - rewrite lookup_insert_eq. exists s'. split; [done|]. congruence.
  - rewrite lookup_insert_ne by congruence. by exists t.
Qed.

#[export] Instance table_frame : FrameInvariant table_ok.
Proof.
  apply frame_invariant.
  - intros w w' [Hh _ Hc _] Ht. injection Hc as E1 E2 E3 E4.
    apply (table_same w); rewrite ?E1; try done. intros p s Hp. rewrite Hh. by exists s.
  - intros A p f [_ Hi] w Ht. unfold on_stream. destruct (heap w !! p) as [s|] eqn:Hp; [|done].
    specialize (Hi (mkSE s (w_mon w) (w_dev w))). destruct (f _) as [a s'].
    apply (table_same w); try done. by apply (heap_step_identity w p s).
  - intros w Ht. rewrite SetErrorState_eq. unfold error_world.
    destruct (can_fail (state_ (dc w))) eqn:E; [|done].
    apply (table_same w); try done. intros p s Hp. by exists s.
Qed.

#[export] Instance detached_frame p : FrameInvariant (detached p).
Proof.
  apply frame_invariant.
  - intros w w' [Hh _ Hc _]. unfold detached. injection Hc as _ E2 E3 _. by rewrite Hh, E2, E3.
  - intros A q f _ w (Hs & Hd & Hn). unfold on_stream. destruct (heap w !! q) as [s|] eqn:Hq; [|done].
    destruct (f _) as [a s']. split_and!; [|done|done]. simpl. destruct (decide (q = p)) as [->|].
    + rewrite lookup_insert_eq. by eexists.
    + by rewrite lookup_insert_ne.
  - intros w Hd. rewrite SetErrorState_eq. unfold error_world. by destruct (can_fail _).
Qed.

Lemma frame_and (I J : W -> Prop) : FrameInvariant I -> FrameInvariant J -> FrameInvariant (fun w => I w /\ J w).
Proof.
  intros HI HJ. split.
  - intros w w' Hf [Hi Hj]. split; by apply (inv_frame w).
  - intros A p f Hf w [Hi Hj]. pose proof (inv_stream (I := I) A p f Hf w Hi) as E1.
    pose proof (inv_stream (I := J) A p f Hf w Hj) as E2. by destruct (on_stream p f w) as [[a w']|].
  - intros w [Hi Hj]. pose proof (inv_fail (I := I) w Hi) as E1. pose proof (inv_fail (I := J) w Hj) as E2.
    by destruct (SetErrorState w) as [[a w']|].
  - intros m e c n Hn w [Hi Hj]. pose proof (inv_send (I := I) m e c n Hn w Hi) as E1.
    pose proof (inv_send (I := J) m e c n Hn w Hj) as E2. by destruct (SendCaptureResult m e c n w) as [[a w']|].
  - intros n m w [[Hi Hj] Hp]. pose proof (inv_partial (I := I) n m w (conj Hi Hp)) as E1.
    pose proof (inv_partial (I := J) n m w (conj Hj Hp)) as E2. by destruct (take_partial n m w) as [[a w']|].
Qed.

Lemma table_status s : s <> STATE_NOT_INITIALIZED -> preserves table_ok (InternalUpdateStatusLocked s).
Proof.
  intros Hs. apply preserves_modify. intros w Ht.
  apply (table_same w); try done. intros p t Hp. by exists t.
Qed.

(** A change of the client's record that keeps the table. *)
Lemma table_dc f : (forall c, streams_ (f c) = streams_ c /\ deleted_streams_ (f c) = deleted_streams_ c /\
    state_ (f c) = state_ c /\ next_stream_id_ c <= next_stream_id_ (f c)) ->
  preserves table_ok (set_dc f).
Proof.
  intros Hf. apply preserves_modify. intros w []. destruct (Hf (dc w)) as (E1 & E2 & E3 & Hn).
  constructor; simpl; rewrite ?E1, ?E2, ?E3; auto; [|lia].
  intros i p Hi. destruct (tb_entry0 i p Hi) as (Hp & Hr & Hs). split; [done|]. split; [lia|done].
Qed.

Lemma table_add p blob cfg :
  hoare (fun w => table_ok w /\ started w) (add_stream p blob cfg) (fun _ => table_ok).
Proof.
  intros w [[] Hst]. unfold add_stream. destruct (heap w !! p) eqn:Hp; [done|].
  destruct (Z.eqb_spec p 0); [done|].
  assert (forall i, kv_lookup i (streams_ (dc w)) <> Some p) as Hnew.
  { intros i Hi. destruct (tb_entry0 i p Hi) as (_ & _ & s & Hs & _). congruence. }
  constructor; simpl; auto.
  - by apply kv_add_ordered.
  - intros i q Hi. rewrite kv_lookup_add in Hi.
    destruct (Z.eqb_spec i (next_stream_id_ (dc w))) as [->|].
    + injection Hi as <-. split; [done|]. split; [lia|]. eexists. by rewrite lookup_insert_eq.
    + destruct (tb_entry0 i q Hi) as (Hq & Hr & s & Hs & Ei). split; [done|]. split; [done|].
      exists s. rewrite lookup_insert_ne by congruence. done.
  - intros q Hq. destruct (tb_gone0 q Hq) as [[s Hs] Hn]. split.
    + exists s. rewrite lookup_insert_ne; [done|congruence].
    + intros i Hi. rewrite kv_lookup_add in Hi. destruct (i =? _); [|by apply (Hn i)].
      injection Hi as <-. congruence.
  - done.
Qed.

(** During [purge_deleted]: [gone] are the streams still to delete. *)
Definition purging (gone : list Z) (w : W) : Prop :=
  table_ok (w <| dc := (dc w) <| deleted_streams_ := gone |> |>).

Lemma purging_step p gone : hoare (purging (p :: gone)) (delete_stream p) (fun _ => purging gone).
Proof.
  intros w Hw. unfold delete_stream, on_stream, bind, modify.
  destruct (heap w !! p) as [s|] eqn:Hp; [|done].
  pose proof (proj2 Camera3Stream_delete_safe (mkSE s (w_mon w) (w_dev w))) as Hi. simpl in Hi.
  destruct (Camera3Stream_delete _) as [s' m' d']. simpl in Hi.
  destruct Hw as [Ho He Hg Hn Hx Hc]. simpl in *. apply NoDup_cons in Hn as [Hpn Hn].
  destruct (Hg p) as [_ Hfree]; [by left|].
  constructor; simpl; auto.
  - intros i q Hq. destruct (He i q Hq) as (Hq0 & Hr & t & Ht & Ei). split; [done|]. split; [done|].
    exists t. assert (q <> p) by (intros ->; by apply (Hfree i)).
    by rewrite lookup_delete_ne, lookup_insert_ne by congruence.
  - intros q Hq. destruct (Hg q) as [[t Ht] Hf]; [by right|]. split; [|done]. exists t.
    assert (q <> p) by (intros ->; done). by rewrite lookup_delete_ne, lookup_insert_ne by congruence.
Qed.

Lemma table_purge : preserves table_ok purge_deleted.
Proof.
  assert (forall gone, hoare (purging gone) (for_each gone delete_stream) (fun _ => purging [])) as Hloop.
  { induction gone as [|p gone IH]; simpl; [by intros w Hw|].
    eapply hoare_bind; [apply purging_step|]. intros ?. apply IH. }
  intros w Hw. unfold purge_deleted, bind at 1, gets.
  assert (purging (deleted_streams_ (dc w)) w) as Hp.
  { unfold purging. apply (table_same w); try done. intros p s Hs. by exists s. }
  specialize (Hloop _ w Hp). unfold bind. destruct (for_each _ _ w) as [[u w1]|]; [|done]. done.
Qed.

Lemma table_configure : preserves table_ok ConfigureStreamsLocked.
Proof. apply configure_inv; [apply _|intros; by apply table_status|apply table_purge]. Qed.

(** Creation, for an invariant that a new stream keeps once the client is
    initialised. *)
Section Create.
Context (I : W -> Prop) {FI : FrameInvariant I}.
Hypothesis Hadd : forall p blob cfg, small (sp_bufferCount cfg) ->
  hoare (fun w => I w /\ started w) (add_stream p blob cfg) (fun _ => I).
Hypothesis Hnext : preserves I (set_dc (fun c => c <| next_stream_id_ := next_stream_id_ c + 1 |>)).
Hypothesis Hconf : preserves I ConfigureStreamsLocked.

Lemma pause_to_add_started ws : wait_keeps is_started ws -> wait_keeps I ws ->
  hoare I (pause_to_add ws) (fun r w => I w /\ (match r with inr _ => is_started w | inl _ => True end)).
Proof.
  intros Hs1 Hw1 w Hw. unfold pause_to_add, bind at 1, gets at 1.
  pose proof (frame_and _ _ FI started_frame) as Hf.
  destruct (state_ (dc w)) eqn:Es; try (split; [done|]; unfold started; congruence); [done..|].
  assert (I w /\ is_started w) as Hts by (split; [done|]; unfold started; congruence).
  assert (wait_keeps (fun w => I w /\ is_started w) ws) as Hws.
  { apply Forall_forall. intros g Hg v [Hv1 Hv2]. unfold wait_keeps in *. rewrite Forall_forall in Hw1, Hs1. auto. }
  pose proof (InternalPauseAndWait_inv _ ws Hws w Hts) as Hp. unfold bind at 1.
  destruct (InternalPauseAndWaitLocked ws w) as [[r w1]|]; [|done]. destruct Hp as [Hp1 Hp2].
  destruct (negb (r =? 0)).
  - pose proof (inv_fail (I := I) w1 Hp1) as Hf1. unfold bind. by destruct (SetErrorState w1) as [[u w2]|].
  - unfold bind, gets. destruct (is_running (state_ (dc w1))); unfold undefined, ret; [done|by split].
Qed.

Lemma create_inv p cfg ws1 ws2 : small (sp_bufferCount cfg) -> wait_keeps is_started ws1 -> wait_keeps I ws1 ->
  wait_keeps I ws2 -> preserves I (CreateStream p cfg ws1 ws2).
Proof.
  intros Hsm Hs1 Hw1 Hw2. unfold CreateStream. case_goal; [apply preserves_ret|].
  eapply hoare_bind; [by apply pause_to_add_started|]. intros [e|b]; [by intros w [Hw _]|].
  eapply hoare_bind; [apply hoare_gets|]. intros info.
  destruct (if _ =? _ then _ else _); [|done].
  case_goal; [by intros w [[Hw _] _]|].
  apply (hoare_bind _ _ _ _ (fun _ => I)).
  { eapply hoare_weaken; [|by apply Hadd|done]. tauto. }
  intros _. match goal with |- hoare _ ?m _ => change (preserves I m) end.
  apply preserves_bind; [by apply continue_inv|]. intros r.
  case_goal; [apply preserves_ret|]. intros w Hw. unfold bind, gets. cbn beta. by apply Hnext.
Qed.
End Create.

Lemma table_next : preserves table_ok (set_dc (fun c => c <| next_stream_id_ := next_stream_id_ c + 1 |>)).
Proof. apply table_dc. intros c. simpl. split_and!; try done. lia. Qed.

Lemma IsStreamActive_pure p (w : W) :
  match RequestHandler.IsStreamActive p w with Some (_, w') => w' = w | None => True end.
Proof.
  assert (forall A q (f : Camera3Stream -> A), preserves (fun v : W => v = w) (of_stream q f)) as Hof.
  { intros A q f v ->. unfold of_stream. by destruct (heap w !! q). }
  assert (preserves (fun v : W => v = w) (RequestHandler.IsStreamActive p)) as Hp; [|by apply Hp].
  unfold RequestHandler.IsStreamActive. apply preserves_bind; [apply Hof|]. intros i.
  apply preserves_bind; [apply preserves_gets|]. intros ss. induction ss as [|q ss IH]; simpl; [apply preserves_ret|].
  apply preserves_bind; [apply Hof|]. intros j. case_goal; [apply preserves_ret|apply IH].
Qed.

(** Taking a stream out of the table. *)
Lemma table_remove (w : W) i p : table_ok w -> kv_lookup i (streams_ (dc w)) = Some p ->
  let w' := w <| dc := (dc w) <| streams_ := kv_remove i (streams_ (dc w)) |> |> in
  table_ok w' /\ detached p w'.
Proof.
  intros Ht Hi w'. pose proof Ht as [Ho He Hg Hn Hx Hc]. split.
  - constructor; simpl; auto.
    + by apply kv_remove_ordered.
    + intros j q Hj. rewrite kv_lookup_remove in Hj by done. destruct (j =? i); [done|]. by apply He.
    + intros q Hq. destruct (Hg q Hq) as [Hs Hf]. split; [done|]. intros j Hj.
      rewrite kv_lookup_remove in Hj by done. destruct (j =? i); [done|]. by apply (Hf j).
    + intros Hst. by rewrite (Hc Hst).
  - destruct (He i p Hi) as (_ & _ & s & Hs & _). split; [by exists s|]. split.
    + intros Hin. by destruct (Hg p Hin) as [_ Hf]; apply (Hf i).
    + intros j Hj. simpl in Hj. rewrite kv_lookup_remove in Hj by done.
      destruct (Z.eqb_spec j i) as [|Hne]; [done|]. by apply Hne, (table_inj w j i p).
Qed.

(** [deleted_streams_] takes a detached stream. *)
Lemma table_push p : hoare (fun w => table_ok w /\ detached p w)
  (set_dc (fun c => c <| deleted_streams_ := deleted_streams_ c ++ [p] |>)) (fun _ => table_ok).
Proof.
  intros w [[Ho He Hg Hn Hx Hc] (Hs & Hd & Hf)]. constructor; simpl; auto.
  - intros q [Hq|Hq]%elem_of_app; [by apply Hg|]. apply list_elem_of_singleton in Hq as ->. done.
  - apply NoDup_app. split; [done|]. split; [|apply NoDup_singleton].
    intros q Hq Hq'. apply list_elem_of_singleton in Hq' as ->. done.
Qed.

(** Deletion, for an invariant [J] and what holds of the stream [q] between
    its removal from the table and its end, [K q]. *)
Section Delete.
Context (J : W -> Prop) {FJ : FrameInvariant J} (K : Z -> W -> Prop) {FK : forall q, FrameInvariant (K q)}.
Hypothesis Hremove : forall (w : W) i q, J w -> kv_lookup i (streams_ (dc w)) = Some q ->
  let w' := w <| dc := (dc w) <| streams_ := kv_remove i (streams_ (dc w)) |> |> in J w' /\ K q w'.
Hypothesis Hpush : forall q, hoare (fun w => J w /\ K q w)
  (set_dc (fun c => c <| deleted_streams_ := deleted_streams_ c ++ [q] |>)) (fun _ => J).
Hypothesis Hconf : preserves J ConfigureStreamsLocked.

(** What follows the removal. *)
Lemma delete_removed q b ws2 : wait_keeps J ws2 ->
  hoare (fun w => J w /\ K q w) (retire_stream q b ws2) (fun _ => J).
Proof.
  intros Hw2. pose proof (frame_and _ _ FJ (FK q)) as Hf. unfold retire_stream.
  eapply hoare_bind; [apply hoare_gets|]. intros last.
  apply (hoare_bind _ _ _ _ (fun _ w => J w /\ K q w)).
  { intros w [Hw _]. revert w Hw. apply (hoare_preserves (fun w => J w /\ K q w)).
    case_goal; [by apply preserves_dc|apply preserves_ret]. }
  intros _. apply (hoare_bind _ _ _ _ (fun _ w => J w /\ K q w)).
  { apply hoare_preserves, inv_stream, Close_safe. }
  intros res. case_goal.
  - apply (hoare_weaken _ J _ _ (fun _ => J)); [tauto| |done].
    match goal with |- hoare _ ?m _ => change (preserves J m) end.
    apply preserves_bind; [by apply preserves_dc|]. intros _.
    apply preserves_bind; [exact Hconf|]. intros e. case_goal; [apply preserves_ret|].
    apply preserves_bind; [by apply InternalResume_inv|]. intros; apply preserves_ret.
  - apply (hoare_bind _ _ _ _ (fun _ w => J w /\ K q w)).
    { apply hoare_preserves. apply preserves_dc; [done|]. intros c. by case_goal. }
    intros _. apply (hoare_bind _ _ _ _ (fun _ => J)); [apply Hpush|].
    intros _ w Hw. exact Hw.
Qed.

Lemma delete_inv i b ws1 ws2 : wait_keeps J ws1 -> wait_keeps J ws2 -> preserves J (DeleteStream i b ws1 ws2).
Proof.
  intros Hw1 Hw2. unfold DeleteStream. apply preserves_bind; [apply preserves_gets|]. intros s.
  match goal with |- preserves _ (match _ with STATE_ERROR => _ | STATE_NOT_INITIALIZED => _ |
    STATE_CLOSED => _ | STATE_NOT_CONFIGURED => ?x | _ => _ end) => assert (preserves J x) as Hx end;
    [|destruct s; try apply preserves_ret; apply Hx].
  apply preserves_bind; [case_goal; [apply preserves_ret|by apply InternalPauseAndWait_inv]|]. intros r.
  case_goal; [apply preserves_bind; [apply inv_fail|]; intros; apply preserves_ret|].
  intros w Hw. unfold delete_known, bind at 1, gets at 1.
  destruct (i =? _).
  { revert w Hw. match goal with |- forall w, _ -> match ?m w with _ => _ end => change (preserves J m) end.
    apply preserves_bind; [by apply preserves_dc|intros; apply preserves_ret]. }
  destruct (kv_lookup i (streams_ (dc w))) as [q|] eqn:Hi; [|done].
  unfold bind at 1. pose proof (IsStreamActive_pure q w) as Hp.
  destruct (RequestHandler.IsStreamActive q w) as [[busy w1]|]; [|done]. subst w1.
  destruct busy; [done|]. unfold bind at 1, set_dc at 1, modify at 1.
  exact (delete_removed q b ws2 Hw2 _ (Hremove w i q Hw Hi)).
Qed.
End Delete.

Lemma table_delete i b ws1 ws2 : wait_keeps table_ok ws1 -> wait_keeps table_ok ws2 ->
  preserves table_ok (DeleteStream i b ws1 ws2).
Proof.
  apply (delete_inv table_ok detached); [apply table_remove|apply table_push|apply table_configure].
Qed.

Lemma table_initialize l t a : preserves table_ok (DeviceStreams.Initialize l t a).
Proof.
  intros w Hw. unfold DeviceStreams.Initialize, bind at 1, gets at 1.
  destruct (bool_decide (state_ (dc w) = STATE_NOT_INITIALIZED)) eqn:Es; cbn [negb].
  2: { revert w Hw Es. intros w Hw _. revert w Hw.
       match goal with |- forall w, _ -> match ?m w with _ => _ end => change (preserves table_ok m) end.
       apply preserves_bind; [apply abandon_inv, _|intros; apply preserves_ret]. }
  apply bool_decide_eq_true in Es. pose proof (tb_closed _ Hw Es) as Hnil.
  set (J := fun w : W => table_ok w /\ streams_ (dc w) = [] /\ state_ (dc w) = STATE_NOT_INITIALIZED).
  assert (FrameInvariant J) as HJ.
  { apply frame_and; [apply _|]. apply frame_invariant.
    - intros v v' [_ _ Hc _] [E1' E2']. injection Hc as E1 E2 _ _. split; congruence.
    - intros A p f Hf v Hv. unfold on_stream. destruct (heap v !! p); [|done]. by destruct (f _).
    - intros v Hv. rewrite SetErrorState_eq. unfold error_world. by rewrite (proj2 Hv). }
  assert (preserves J abandon) as Hab by apply abandon_inv, _.
  assert (J w) as Hj by done. clear Hw Es Hnil. revert w Hj.
  match goal with |- forall w, _ -> match ?m w with _ => _ end => change (hoare J m (fun _ => table_ok)) end.
  assert (forall e : Z, hoare J (do* abandon in ret e) (fun _ => table_ok)) as Hfail.
  { intros e. apply (hoare_bind _ _ _ _ (fun _ => J)); [done|]. intros ? w [Hw _]. exact Hw. }
  apply (hoare_bind _ _ _ _ (fun _ => J)); [by apply hoare_preserves, preserves_dc|]. intros _.
  case_goal; [apply Hfail|]. apply (hoare_bind _ _ _ _ (fun _ => J)).
  { apply hoare_preserves, preserves_modify_framed; [done|by split]. }
  intros _. apply (hoare_bind _ _ _ _ (fun _ => J)); [apply hoare_preserves, preserves_hal, _|]. intros res.
  case_goal; [apply Hfail|]. case_goal; [apply Hfail|].
  apply (hoare_bind _ _ _ _ (fun _ => table_ok)); [|intros _ w Hw; exact Hw].
  intros w ([Ho He Hg Hn Hx Hc] & Hnil & _). simpl.
  constructor; simpl; auto; try lia. intros j q Hj. by rewrite Hnil in Hj.
Qed.

Lemma table_open r i : preserves table_ok (OpenCamera r i).
Proof.
  unfold OpenCamera.
  repeat lazymatch goal with
    | |- preserves _ (set_dc (learn_device _)) =>
        apply table_dc; intros c; unfold learn_device; repeat case_goal; (split_and!; [done..|simpl; lia])
    | |- preserves _ (set_dc (fun c => c <| camera_id_ := _ |> <| state_ := _ |>)) =>
        apply preserves_modify; intros w Hw; apply (table_same w); try done; intros p s Hs; by exists s
    | |- preserves _ (set_dc _) => by apply preserves_dc; [apply _|]
    | |- preserves _ close_device => apply close_device_inv, _
    | |- preserves _ (on_hal _) => apply preserves_hal, _
    | |- preserves _ SetErrorState => apply inv_fail
    | |- preserves _ (RequestHandler.Initialize _) => apply handler_Initialize_inv, _
    | _ => preserve_step
    end.
Qed.

#[export] Instance table_invariant : ClientInvariant table_ok.
Proof.
  split.
  - apply _.
  - apply notify_inv; [apply _|intros; by apply table_status].
  - apply table_configure.
  - apply table_initialize.
  - apply table_open.
  - apply create_inv; [apply _|intros; apply table_add|apply table_next|apply table_configure].
  - intros b w h f ws1 ws2 Hw1 Hw2. unfold CreateInputStream. case_goal; [apply preserves_ret|].
    apply preserves_bind; [apply preserves_gets|]. intros c. case_goal; [apply preserves_ret|].
    apply preserves_bind; [by apply pause_to_add_inv; [apply _|]|]. intros [e|a]; [apply preserves_ret|].
    apply preserves_bind; [apply table_dc; intros c'; (split_and!; [done..|simpl; lia])|]. intros _.
    apply preserves_bind; [apply continue_inv; [apply _|apply table_configure|done]|]. intros r.
    case_goal; [apply preserves_ret|apply preserves_gets].
  - intros. by apply table_delete.
Qed.

(** C2. The table of streams stays consistent in every interleaving.  Every
    entry points to a live stream that carries the identifier of its entry and
    its own address, so identifiers and streams correspond one to one; the
    streams waiting for deletion are live, distinct and no longer in the
    table; and no identifier in use is above the next one to be given out. *)
Theorem stream_table_consistent (w w' : W) : effect w w' -> table_ok w -> table_ok w'.
Proof. intros He. by apply (effect_invariant table_ok) in He as [Ht _]. Qed.
End ClientInvariants.

(** ** On the concrete HAL *)

#[export] Instance demo_client_platform : ClientPlatform := {|
  DISABLE_OP_MODES := true;
  USE_FPS_IDX := true;
  CAMERA3_STREAM_CONFIGURATION_NORMAL_MODE := 0;
  CAMERA3_STREAM_CONFIGURATION_CONSTRAINED_HIGH_SPEED_MODE := 1;
  CAMERA3_TEMPLATE_COUNT := 7;
  sizeof_camera3_jpeg_blob := 8;
  indeterminate_extras := zero_extras;
  valueFor_missing := Some 0
|}.

#[export] Instance demo_hal_laws : CameraHalLaws MetaMap DemoHal.
Proof.
  constructor. intros c h. simpl. apply Forall_forall. intros [u m] Hin.
  apply list_elem_of_In, in_map_iff in Hin as ([u' m'] & [= <- <-] & _). unfold small, INT32_HALF. simpl. lia.
Qed.

#[export] Instance demo_frame_limit : FrameLimit := INT32_HALF.

Abbreviation DemoOp := (@ClientOp ListDevice MetaMap DemoHal).

(** A sequence of operations whose waits all time out. *)
Fixpoint demo_run (ops : list DemoOp) (w : World ListDevice MetaMap DemoHal)
    : option (World ListDevice MetaMap DemoHal) :=
  match ops with
  | [] => Some w
  | op :: ops' =>
      match client_step (HU := plain_hal_usage) op w with
      | Some (_, w1) => demo_run ops' w1
      | None => None
      end
  end.

Lemma demo_run_effect ops : forall w w',
  Forall (fun op => op_fine op /\ op_waits op = []) ops -> demo_run ops w = Some w' ->
  effect (HU := plain_hal_usage) w w'.
Proof.
  induction ops as [|op ops IH]; simpl; intros w w' Hops E.
  - injection E as ->. constructor.
  - apply Forall_cons in Hops as [[Hf Hn] Hops].
    destruct (client_step op w) as [[[] w1]|] eqn:Es; [|done].
    eapply (effect_step op); [done| |exact Es|by apply IH].
    rewrite Hn. intros g Hg. by apply not_elem_of_nil in Hg.
Qed.

(** A client opens camera 0, and creates and configures a stream. *)
Definition demo_open_ops : list DemoOp :=
  [COpInitialize (0, true) 0 true; COpOpenCamera 0 0; COpCreateStream 0x1000 demo_params [] [];
   COpEndConfigure StreamConfiguration_default].

Definition demo_new_client : World ListDevice MetaMap DemoHal :=
  demo_world ∅ (dev demo_new) (mon demo_new).

Definition demo_open_client : World ListDevice MetaMap DemoHal :=
  default demo_new_client (demo_run demo_open_ops demo_new_client).

Lemma demo_open_runs : demo_run demo_open_ops demo_new_client = Some demo_open_client.
Proof. vm_compute. reflexivity. Qed.

Lemma demo_ops_fine : Forall (fun op : DemoOp => op_fine op /\ op_waits op = []) demo_open_ops.
Proof.
  unfold demo_open_ops. repeat apply Forall_cons_2; [..|apply Forall_nil_2]; split; try done.
Qed.

Lemma demo_new_memory_ok : memory_ok ∅ demo_new_client.
Proof.
  split.
  - intros p s Hp. exfalso. change ((∅ : gmap Z Camera3Stream) !! p = Some s) in Hp. by rewrite lookup_empty in Hp.
  - intros p q s t Hp. exfalso. change ((∅ : gmap Z Camera3Stream) !! p = Some s) in Hp. by rewrite lookup_empty in Hp.
  - intros b Hb. by apply not_elem_of_empty in Hb.
Qed.

Lemma demo_new_table_ok : table_ok demo_new_client.
Proof. constructor; try done; [intros p Hp; by apply not_elem_of_nil in Hp|constructor]. Qed.

Lemma client_memory_safe_witness :
  is_Some (heap demo_open_client !! 0x1000) /\ memory_ok ∅ demo_open_client.
Proof.
  split; [vm_compute; by eexists|].
  exact (client_memory_safe (HU := plain_hal_usage) ∅ demo_new_client demo_open_client
    (demo_run_effect _ _ _ demo_ops_fine demo_open_runs) demo_new_memory_ok).
Defined.

Lemma stream_table_consistent_witness :
  streams_ (dc demo_open_client) = [(0, 0x1000)] /\ table_ok demo_open_client.
Proof.
  split; [vm_compute; reflexivity|].
  exact (stream_table_consistent (HU := plain_hal_usage) demo_new_client demo_open_client
    (demo_run_effect _ _ _ demo_ops_fine demo_open_runs) demo_new_table_ok).
Defined.

Lemma error_state_final_witness :
  exists w1, SetErrorState demo_open_client = Some (tt, w1) /\ state_ (dc w1) = STATE_ERROR /\
    device_errors w1 = 1%nat.
Proof.
  destruct (error_state_final (HU := plain_hal_usage) demo_open_client ltac:(vm_compute; reflexivity))
    as (w1 & E & Hs & Hk & _).
  exists w1. split; [exact E|]. split; [exact Hs|]. rewrite Hk. vm_compute. reflexivity.
Defined.
