(* ===== verification/ResultOrder.v ===== *)
(** * The order of the results

    Results and shutters reach the client on the threads of the HAL, while
    its other threads submit, flush, reconfigure or fail.  [results_in_order]
    holds over all of their interleavings. *)

From Stdlib Require Import Sorted.
From S2P Require Import Prelude KeyedVector Monitor Memory Stream Adaptor Floats SmoothZoom World PrepareHandler RequestHandler DeviceState DeviceStreams DeviceRequests DeviceResults Client ClientInvariants.

Section ResultOrder.
Context {D M H : Type} `{AllocDevice D} `{AllocUsage} `{HalPlatform} `{CameraMetadata M}
  `{!CameraMetadataLaws M} `{MetadataTags} `{HC : CameraHal M H} {HU : HalUsage} `{ClientPlatform}
  `{!AllocDeviceLaws D} {FL : FrameLimit} {HL : CameraHalLaws M H}.

Abbreviation W := (World D M H).

(** The camera has been opened, which no operation takes back. *)
Definition opened (c : Camera3DeviceClient M) : Prop :=
  state_ c <> STATE_NOT_INITIALIZED /\ state_ c <> STATE_CLOSED.

(** The frame numbers of the results of one kind, in the order in which the
    client got them: of reprocess requests, or of the others. *)
Definition frames (isInput : bool) (w : W) : list Z :=
  concat (map snd (List.filter (fun r => Bool.eqb (fst r) isInput) (results w))).

(** The next frame number the client accepts. *)
Definition next_frame (isInput : bool) (c : Camera3DeviceClient M) : Z :=
  if isInput then next_result_input_frame_number_ c else next_result_frame_number_ c.

(** The frame numbers rise, and stay below the next one. *)
Definition ordered (w : W) : Prop :=
  opened (dc w) /\ is_partial_result_supported_ (dc w) = false /\
  forall b, 0 <= next_frame b (dc w) /\ StronglySorted Z.lt (frames b w ++ [next_frame b (dc w)]).

Lemma ordered_same (w w' : W) : results w' = results w -> result_core (dc w') = result_core (dc w) ->
  opened (dc w') -> ordered w -> ordered w'.
Proof.
  intros Hr Ho Hop (_ & Hp & Hn). injection Ho as E1 E2 E3. unfold ordered, frames.
  rewrite Hr, E1. split_and!; [done..|]. intros b. specialize (Hn b). unfold next_frame in *. by rewrite E2, E3.
Qed.

Lemma ordered_dc f : (forall c, opened c -> opened (f c) /\ result_core (f c) = result_core c) ->
  preserves ordered (set_dc f).
Proof.
  intros Hf. apply preserves_modify. intros w Hw. pose proof (Hf (dc w) (proj1 Hw)) as [Ho Hc].
  by apply (ordered_same w).
Qed.

Lemma opened_core (c c' : Camera3DeviceClient M) : core c' = core c -> opened c -> opened c'.
Proof. intros E [Hc1 Hc2]. injection E as E _ _ _. by split; rewrite E. Qed.

(** A sorted sequence accepts a new last element. *)
Lemma sorted_accept (l : list Z) (x y z : Z) : x <= y -> y < z ->
  StronglySorted Z.lt (l ++ [x]) -> StronglySorted Z.lt ((l ++ [y]) ++ [z]).
Proof.
  intros Hxy Hyz. induction l as [|a l IH]; simpl; intros Hs.
  - repeat constructor. lia.
  - apply StronglySorted_inv in Hs as [Hs Ha]. constructor; [by apply IH|].
    rewrite Forall_app, Forall_singleton in Ha. destruct Ha as [Ha Hax].
    rewrite !Forall_app, !Forall_singleton. split_and!; [done|lia..].
Qed.

Lemma sorted_skip (l : list Z) (x z : Z) : x <= z ->
  StronglySorted Z.lt (l ++ [x]) -> StronglySorted Z.lt (l ++ [z]).
Proof.
  intros Hxz. induction l as [|a l IH]; simpl; intros Hs; [repeat constructor|].
  apply StronglySorted_inv in Hs as [Hs Ha]. constructor; [by apply IH|].
  rewrite Forall_app, Forall_singleton in Ha |- *. destruct Ha. split; [done|lia].
Qed.

Hypothesis limit_small : frame_limit <= INT32_HALF.

Lemma frames_emit b (w : W) x m : frames b (w <| events := events w ++ [EvResult x m] |>) =
  frames b w ++ (if Bool.eqb (Adaptor.input x) b then meta_data ANDROID_REQUEST_FRAME_COUNT m else []).
Proof.
  unfold frames, results. simpl. rewrite omap_app. simpl. rewrite List.filter_app, map_app, concat_app.
  simpl. destruct (Bool.eqb _ _); simpl; by rewrite ?app_nil_r.
Qed.

(** A frame number that is accepted may be handed out. *)
Lemma in_order_hoare b n : n < frame_limit ->
  hoare ordered (in_order b n) (fun ok w => ordered w /\
    (ok = true -> forall x m, Adaptor.input x = b -> meta_data ANDROID_REQUEST_FRAME_COUNT m = [i32 n] ->
      ordered (w <| events := events w ++ [EvResult x m] |>))).
Proof.
  intros Hn w (Ho & Hp & Hs). unfold in_order, bind, gets.
  change (if b then next_result_input_frame_number_ (dc w) else next_result_frame_number_ (dc w))
    with (next_frame b (dc w)).
  destruct (Z.ltb_spec n (next_frame b (dc w))) as [|Hle]; [split; [exact (conj Ho (conj Hp Hs))|done]|].
  assert (0 <= n < INT32_HALF) as Hr by (destruct (Hs b); lia).
  assert (u32 (n + 1) = n + 1) as Hu by (apply u32_small; unfold is_u32, INT32_HALF, UINT32_MOD in *; lia).
  assert (i32 n = n) as Hi by (apply i32_small; unfold is_i32, INT32_HALF in *; lia).
  unfold set_dc, modify, ret. rewrite Hu, Hi.
  set (c := if b then (dc w) <| next_result_input_frame_number_ := n + 1 |>
            else (dc w) <| next_result_frame_number_ := n + 1 |>).
  assert (forall b', next_frame b' c = if Bool.eqb b b' then n + 1 else next_frame b' (dc w)) as Hnext
    by (intros []; unfold c; by destruct b).
  assert (opened c /\ is_partial_result_supported_ c = false) as [Hc1 Hc2]
    by (unfold c; destruct b; exact (conj Ho Hp)).
  split.
  - split_and!; [done..|]. intros b'. cbn [dc]. simpl. rewrite Hnext. destruct (Hs b') as [Hb1 Hb2].
    change (frames b' _) with (frames b' w). destruct (Bool.eqb b b') eqn:Eb; [|done].
    apply eqb_prop in Eb as <-. split; [lia|]. apply (sorted_skip _ (next_frame b (dc w))); [lia|done].
  - intros _ x m <- Hm. split_and!; [done..|]. intros b'. rewrite frames_emit, Hm. simpl.
    rewrite Hnext. destruct (Hs b') as [Hb1 Hb2].
    change (frames b' _) with (frames b' w). destruct (Bool.eqb _ b') eqn:Eb; [|by rewrite app_nil_r].
    apply eqb_prop in Eb as <-. split; [lia|]. apply (sorted_accept _ (next_frame (Adaptor.input x) (dc w))); [lia..|done].
Qed.

Lemma ordered_fail : preserves ordered SetErrorState.
Proof.
  intros w Hw. rewrite SetErrorState_eq. unfold error_world. destruct (can_fail _); [|done].
  apply (ordered_same w); [|done..]. unfold results. simpl. rewrite omap_app.
  destruct (errorCb _); simpl; by rewrite app_nil_r.
Qed.

Lemma ordered_send m x c n : n < frame_limit -> preserves ordered (SendCaptureResult m x c n).
Proof.
  intros Hn. unfold SendCaptureResult. apply preserves_bind; [apply preserves_gets|]. intros cb.
  case_goal; [apply preserves_ret|]. eapply hoare_bind; [by apply in_order_hoare|]. intros ok w [Hw Hemit].
  destruct ok; cbn [negb]; [|by apply ordered_fail]. specialize (Hemit eq_refl).
  pose proof (meta_update_ok ANDROID_REQUEST_FRAME_COUNT [i32 n] m) as Hok.
  pose proof (meta_find_update ANDROID_REQUEST_FRAME_COUNT ANDROID_REQUEST_FRAME_COUNT [i32 n] m) as Hfind.
  destruct (meta_update _ _ m) as [r m1]. simpl in Hok, Hfind. subst r. cbn [Z.eqb negb].
  unfold bind, gets. rewrite (proj1 (proj2 Hw)). cbn [andb].
  destruct (meta_data ANDROID_SENSOR_TIMESTAMP _); [by apply ordered_fail|].
  apply Hemit; [done|]. unfold meta_data. by rewrite meta_find_sort, Hfind, Z.eqb_refl.
Qed.

#[export] Instance ordered_frame : FrameInvariant ordered.
Proof.
  split.
  - intros w w' [[_ _ Hc _] Hr Ho] Hw. apply (ordered_same w); [done..| |done].
    by apply (opened_core (dc w)), Hw.
  - intros A p f _ w Hw. unfold on_stream. destruct (heap w !! p) as [s|]; [|done]. by destruct (f _).
  - apply ordered_fail.
  - apply ordered_send.
  - intros n m w [(_ & Hp & _) Hp']. congruence.
Qed.

Lemma ordered_status s : s <> STATE_NOT_INITIALIZED -> s <> STATE_CLOSED ->
  preserves ordered (InternalUpdateStatusLocked s).
Proof. intros Hs Hc. apply ordered_dc. by intros c Ho. Qed.

Lemma ordered_modify f : (forall w : W, dc (f w) = dc w /\ events (f w) = events w) -> preserves ordered (modify f).
Proof.
  intros Hf. apply preserves_modify. intros w Hw. destruct (Hf w) as [E1 E2].
  apply (ordered_same w); [unfold results; by rewrite E2|by rewrite E1|rewrite E1; apply Hw|done].
Qed.

Lemma ordered_configure : preserves ordered ConfigureStreamsLocked.
Proof.
  apply configure_inv; [apply _|intros; by apply ordered_status|]. unfold purge_deleted.
  apply preserves_bind; [apply preserves_gets|]. intros gone.
  apply preserves_bind; [|intros _; by apply ordered_dc]. apply preserves_for_each. intros p _.
  apply delete_stream_frame; [apply _|]. intros q. by apply ordered_modify.
Qed.

#[export] Instance ordered_invariant : ClientInvariant ordered.
Proof.
  assert (forall f, (forall c, state_ (f c) = state_ c /\ result_core (f c) = result_core c) ->
    preserves ordered (set_dc f)) as Hdc.
  { intros f Hf. apply ordered_dc. intros c [Hc1 Hc2]. destruct (Hf c) as [E1 E2]. split; [|done].
    split; by rewrite E1. }
  assert (forall p blob cfg, preserves ordered (add_stream p blob cfg)) as Hadd.
  { intros p blob cfg w Hw. unfold add_stream. destruct (heap w !! p); [done|]. by destruct (p =? 0). }
  assert (forall e : Z, preserves ordered (do* abandon in ret e)) as Hab.
  { intros e. apply preserves_bind; [apply abandon_inv, _|intros; apply preserves_ret]. }
  split.
  - apply _.
  - apply notify_inv; [apply _|apply ordered_status].
  - apply ordered_configure.
  - intros l t a w Hw. unfold DeviceStreams.Initialize, bind at 1, gets at 1.
    rewrite bool_decide_eq_false_2; [by apply Hab|apply (proj1 Hw)].
  - intros r i w Hw. unfold OpenCamera, bind at 1, gets at 1.
    destruct (_ <=? _); [exact Hw|]. destruct (negb (camera_module_ _)); [exact Hw|].
    destruct (device_ _); [exact Hw|]. rewrite bool_decide_eq_false_2; [|apply (proj1 Hw)].
    by apply (preserves_bind ordered close_device), Hw; [apply close_device_inv, _|intros; apply preserves_ret].
  - intros p cfg ws1 ws2 Hs _ Hw1 Hw2. apply loose_create; auto using ordered_configure. apply _.
  - intros. apply loose_input; auto using ordered_configure. apply _.
  - intros. apply loose_delete; auto using ordered_configure. apply _.
Qed.

(** C3. The results of a camera without partial results come in order. In
    every interleaving of the client's threads and the HAL's callbacks, with
    frame numbers below 2^31, the frame numbers of the results the client gets
    strictly rise, those of reprocess requests among themselves and those of
    all other requests among themselves: no result of either kind comes twice,
    and none after a later one of its kind. *)
Theorem results_in_order (w w' : W) (b : bool) :
  effect w w' -> ordered w -> StronglySorted Z.lt (frames b w').
Proof.
  intros He Hw. apply (effect_invariant ordered) in He as [Ho _]. destruct (Ho Hw) as (_ & _ & Hs).
  destruct (Hs b) as [_ Hs']. generalize (next_frame b (dc w')), Hs'. clear. intros x Hs.
  induction (frames b w') as [|a l IH]; [constructor|]. apply StronglySorted_inv in Hs as [Hs Ha].
  apply Forall_app in Ha as [Ha _]. constructor; auto.
Qed.
End ResultOrder.

(** ** On the concrete HAL *)

(** An open client that waits for the results of frames 0 and 1. *)
Definition demo_two_frames : World ListDevice MetaMap DemoHal :=
  demo_open_client <| dc := (dc demo_open_client) <| is_partial_result_supported_ := false |>
    <| pending_requests_vector_ := [(0, PendingRequest_new 0 zero_extras); (1, PendingRequest_new 0 zero_extras)] |> |>.

Definition demo_meta_result (n : Z) : camera3_capture_result MetaMap :=
  mkHalResult n (Some {[ANDROID_SENSOR_TIMESTAMP := [100 + n]]}) [] None 1.

(** The metadata of frame 0 comes before its shutter. *)
Definition demo_result_ops : list DemoOp :=
  [COpCaptureResult (demo_meta_result 0); COpNotify (Some (CAMERA3_MSG_SHUTTER 0 100));
   COpNotify (Some (CAMERA3_MSG_SHUTTER 1 101)); COpCaptureResult (demo_meta_result 1)].

Definition demo_results : World ListDevice MetaMap DemoHal :=
  default demo_two_frames (demo_run demo_result_ops demo_two_frames).

Lemma demo_results_run : demo_run demo_result_ops demo_two_frames = Some demo_results.
Proof. vm_compute. reflexivity. Qed.

Lemma demo_result_ops_fine : Forall (fun op : DemoOp => op_fine op /\ op_waits op = []) demo_result_ops.
Proof. unfold demo_result_ops. repeat apply Forall_cons_2; [..|apply Forall_nil_2]; by split. Qed.

Lemma demo_two_frames_ordered : ordered demo_two_frames.
Proof.
  split; [by split; vm_compute|]. split; [by vm_compute|].
  intros []; (split; [by vm_compute|]); vm_compute; repeat constructor.
Qed.

Lemma results_in_order_witness :
  frames false demo_results = [0; 1] /\ StronglySorted Z.lt (frames false demo_results).
Proof.
  split; [vm_compute; reflexivity|].
  pose proof (results_in_order (HU := plain_hal_usage) (Z.le_refl INT32_HALF) demo_two_frames demo_results false) as Hr.
  exact (Hr (demo_run_effect _ _ _ demo_result_ops_fine demo_results_run) demo_two_frames_ordered).
Defined.
