(* ===== verification/Delivery.v ===== *)
(** * Delivery of a request

    What the client gets for one request, whatever order the HAL's messages
    about it come in: the shutter, the metadata, and the buffers in any
    number of parts.  Each arrives once, and the request is then removed. *)

From S2P Require Import Prelude KeyedVector Monitor Memory Stream Adaptor Floats SmoothZoom World PrepareHandler RequestHandler DeviceState DeviceStreams DeviceRequests DeviceResults Client ClientInvariants ResultOrder.

(** A message of the HAL about a frame. *)
Inductive FrameMessage :=
  | MsgShutter
  | MsgMeta (buffers : list camera3_stream_buffer)  (** the metadata, with some of the buffers *)
  | MsgBuffers (buffers : list camera3_stream_buffer).

Definition is_shutter (x : FrameMessage) : bool := match x with MsgShutter => true | _ => false end.
Definition is_meta (x : FrameMessage) : bool := match x with MsgMeta _ => true | _ => false end.
Definition buffers_of (x : FrameMessage) : list camera3_stream_buffer :=
  match x with MsgShutter => [] | MsgMeta bs | MsgBuffers bs => bs end.

(** A message with buffers only has some. *)
Definition has_content (x : FrameMessage) : bool :=
  match x with MsgBuffers [] => false | _ => true end.

Section Delivery.
Context {D M H : Type} `{AllocDevice D} `{AllocUsage} `{HalPlatform} `{CameraMetadata M}
  `{!CameraMetadataLaws M} `{MetadataTags} `{HC : CameraHal M H} {HU : HalUsage} `{ClientPlatform}.

Abbreviation W := (World D M H).

(** [tri P m Q]: from [P], [m] is defined and ends in [Q]. *)
Definition tri {A} (P : W -> Prop) (m : ST W A) (Q : A -> W -> Prop) : Prop := forall w, P w -> wp m Q w.

Lemma tri_bind {A B} P (m : ST W A) (k : A -> ST W B) Q R :
  tri P m R -> (forall a, tri (R a) (k a) Q) -> tri P (bind m k) Q.
Proof. intros Hm Hk w Hw. rewrite wp_bind. eapply wp_mono; [by apply Hm|]. intros a w'. apply Hk. Qed.

Lemma tri_ret {A} (P : W -> Prop) (a : A) : tri P (ret a) (fun x w => x = a /\ P w).
Proof. by intros w Hw. Qed.

(** ** One frame *)

(** Frame [n], its time stamp [t], its metadata [m]. *)
Context (n t : Z) (m : M).

(** The number of the final metadata's part. *)
Definition last_part (c : Camera3DeviceClient M) : Z :=
  if is_partial_result_supported_ c then partial_result_count_ c else 1.

Definition handle (x : FrameMessage) : ST W unit :=
  match x with
  | MsgShutter => Notify (Some (CAMERA3_MSG_SHUTTER n t))
  | MsgMeta bs => let* c := gets dc in HandleCaptureResult (mkHalResult n (Some m) bs None (last_part c))
  | MsgBuffers bs => HandleCaptureResult (mkHalResult n None bs None 0)
  end.

(** The part of the client the delivery neither changes nor depends on the
    change of. *)
Definition fixed (c : Camera3DeviceClient M) :=
  (state_ c, client_cb_ c, is_partial_result_supported_ c, partial_result_count_ c,
   pending_error_requests_vector_ c, streams_ c).

(** The streams are where they were, with the handles they have lent. *)
Definition same_streams (h h' : gmap Z Camera3Stream) : Prop :=
  forall p s, h !! p = Some s -> exists s', h' !! p = Some s' /\ id_ s' = id_ s /\ buffers_map s' = buffers_map s.

(** [sb] hands the client the buffer [b] of the HAL. *)
Definition delivers (h : gmap Z Camera3Stream) (b : camera3_stream_buffer) (sb : StreamBuffer) : Prop :=
  exists s, h !! hb_stream b = Some s /\ sb_stream_id sb = id_ s /\
    sb_handle sb = (default 0 (buffers_map s !! hb_buffer b)) /\ sb_timestamp sb = t /\ sb_frame_number sb = u32 n.

(** A buffer that a live stream has lent, without an error. *)
Definition good_buffer (h : gmap Z Camera3Stream) (b : camera3_stream_buffer) : Prop :=
  hb_status b = CAMERA3_BUFFER_STATUS_OK /\
  exists s, h !! hb_stream b = Some s /\ default 0 (buffers_map s !! hb_buffer b) <> 0.

Definition next_shutter (isInput : bool) (c : Camera3DeviceClient M) : Z :=
  if isInput then next_shutter_input_frame_number_ c else next_shutter_frame_number_ c.

(** Extras that differ in the count of partial results only. *)
Definition same_extras (x y : CaptureResultExtras) : Prop :=
  x <| Adaptor.partialResultCount := 0 |> = y <| Adaptor.partialResultCount := 0 |>.

Lemma same_extras_input x y : same_extras x y -> Adaptor.input x = Adaptor.input y.
Proof. destruct x, y. unfold same_extras. simpl. congruence. Qed.

(** ** A request under way *)

(** From [w0], where the request, for [k] buffers, is fresh; [ready] and [sready]: the result
    and the shutter are still to come, and will be in order. *)
Context (w0 : W) (x0 : CaptureResultExtras) (k : Z).

Record view (r : PendingRequest M) (es : list (Event M)) (sready ready : bool) (w : W) : Prop := {
  v_pending : pending_requests_vector_ (dc w) = kv_replace n r (pending_requests_vector_ (dc w0));
  v_extras : same_extras (pr_extras r) x0;
  v_events : events w = events w0 ++ es;
  v_fixed : fixed (dc w) = fixed (dc w0);
  v_streams : same_streams (heap w0) (heap w);
  v_shutter : sready = true -> next_shutter (Adaptor.input x0) (dc w) <= n;
  v_result : ready = true -> next_frame (Adaptor.input x0) (dc w) <= n
}.

Hypothesis fresh : kv_lookup n (pending_requests_vector_ (dc w0)) = Some (PendingRequest_new k x0).

Lemma view_pending r es b1 b2 : tri (view r es b1 b2) (pending n) (fun r' w => r' = r /\ view r es b1 b2 w).
Proof.
  intros w Hw. unfold wp, pending. rewrite (v_pending _ _ _ _ _ Hw). by erewrite kv_lookup_replaced by exact fresh.
Qed.

Lemma view_edit f r es b1 b2 : same_extras (pr_extras (f r)) (pr_extras r) ->
  tri (view r es b1 b2) (edit n f) (fun _ => view (f r) es b1 b2).
Proof.
  intros Hf. eapply tri_bind; [apply view_pending|]. intros r' w [-> []]. unfold set_dc. rewrite wp_modify.
  constructor; simpl; try done; [by rewrite v_pending0, kv_replace_replace|]. unfold same_extras in *. congruence.
Qed.

Ltac edit_step f :=
  rewrite wp_bind; eapply wp_mono; [apply (view_edit f); [unfold same_extras; done|eassumption]|].

Hypothesis stamp : 0 < t.
Hypothesis meta_stamp : meta_find ANDROID_SENSOR_TIMESTAMP m = Some [t].
Hypothesis listening : client_cb_ (dc w0) = mkCallbacks true true true true true.

(** The result the client gets. *)
Definition final_result (x : CaptureResultExtras) : Event M :=
  EvResult x (meta_sort (snd (meta_update ANDROID_REQUEST_FRAME_COUNT [i32 n] m))).

Lemma cb_view r es b1 b2 w : view r es b1 b2 w -> client_cb_ (dc w) = mkCallbacks true true true true true.
Proof. intros Hw. pose proof (v_fixed _ _ _ _ _ Hw) as E. unfold fixed in E. congruence. Qed.

Lemma meta_not_empty : meta_isEmpty m = false.
Proof.
  destruct (meta_isEmpty m) eqn:E; [|done]. pose proof (proj1 (meta_isEmpty_spec m) E ANDROID_SENSOR_TIMESTAMP). congruence.
Qed.

Lemma empty_is_empty : meta_isEmpty (meta_empty (M := M)) = true.
Proof. apply meta_isEmpty_spec. intros tag. apply meta_find_empty. Qed.

Lemma timestamp_tag : (ANDROID_SENSOR_TIMESTAMP =? ANDROID_REQUEST_FRAME_COUNT) = false.
Proof.
  apply Z.eqb_neq. pose proof tags_distinct as Hd. intros E. rewrite E in Hd.
  apply NoDup_cons in Hd as [_ Hd]. apply NoDup_cons in Hd as [Hnot _]. apply Hnot. set_solver.
Qed.

(** The next frame number is always representable. *)
Lemma view_send r es b1 x : same_extras x x0 ->
  tri (view r es b1 true) (SendCaptureResult m x meta_empty n) (fun _ => view r (es ++ [final_result x]) b1 false).
Proof.
  intros Hx w Hw. pose proof (cb_view _ _ _ _ _ Hw) as Hcb.
  assert (Adaptor.input x = Adaptor.input x0) as Hin by (by apply same_extras_input).
  unfold SendCaptureResult. rewrite wp_bind, wp_gets, Hcb, meta_not_empty. cbn [orb negb resultCb].
  destruct Hw as [V1 V2 V3 V4 V5 V6 V7]. specialize (V7 eq_refl). unfold next_frame in V7.
  unfold in_order. rewrite !wp_bind, wp_gets. rewrite Hin.
  destruct (Z.ltb_spec n (if Adaptor.input x0 then next_result_input_frame_number_ (dc w)
                          else next_result_frame_number_ (dc w))); [destruct (Adaptor.input x0); lia|].
  unfold set_dc. rewrite wp_bind, wp_modify, wp_ret. cbn [negb].
  pose proof (meta_update_ok ANDROID_REQUEST_FRAME_COUNT [i32 n] m) as Hok.
  pose proof (meta_find_update ANDROID_REQUEST_FRAME_COUNT ANDROID_SENSOR_TIMESTAMP [i32 n] m) as Hfind.
  unfold final_result. destruct (meta_update _ _ m) as [res m1]. simpl in Hok, Hfind. subst res. cbn [Z.eqb negb].
  rewrite wp_bind, wp_gets, empty_is_empty. cbn [negb]. rewrite andb_false_r.
  unfold meta_data. rewrite meta_find_sort, Hfind, timestamp_tag, meta_stamp. cbn [default id].
  unfold emit. rewrite wp_modify. constructor; simpl; try done.
  - by destruct (Adaptor.input x0).
  - by rewrite V3, <-app_assoc.
  - by destruct (Adaptor.input x0).
  - intros Hb. specialize (V6 Hb). unfold next_shutter in *. by destruct (Adaptor.input x0).
Qed.

(** The order of the shutters. *)
Lemma view_shutter_check r es b2 x : same_extras x x0 ->
  tri (view r es true b2) (shutter_in_order (Adaptor.input x) n) (fun ok w => ok = true /\ view r es false b2 w).
Proof.
  intros Hx w Hw. assert (Adaptor.input x = Adaptor.input x0) as Hin by (by apply same_extras_input).
  destruct Hw as [V1 V2 V3 V4 V5 V6 V7]. specialize (V6 eq_refl). unfold next_shutter in V6.
  unfold shutter_in_order. rewrite !wp_bind, wp_gets, Hin.
  destruct (Z.ltb_spec n (if Adaptor.input x0 then next_shutter_input_frame_number_ (dc w)
                          else next_shutter_frame_number_ (dc w))); [destruct (Adaptor.input x0); lia|].
  unfold set_dc. rewrite wp_bind, wp_modify, wp_ret. split; [done|].
  constructor; simpl; try done; try (by destruct (Adaptor.input x0)).
Qed.

Lemma view_emit e r es b1 b2 : tri (view r es b1 b2) (emit e) (fun _ => view r (es ++ [e]) b1 b2).
Proof.
  intros w []. unfold emit. rewrite wp_modify. constructor; simpl; try done. by rewrite v_events0, <-app_assoc.
Qed.

(** Buffers without errors all reach the client. *)
Lemma view_return bs : Forall (good_buffer (heap w0)) bs -> forall r es b1 b2,
  tri (view r es b1 b2) (ReturnOutputBuffers bs t n) (fun _ w => exists sbs,
    Forall2 (delivers (heap w0)) bs sbs /\ view r (es ++ map EvBuffer sbs) b1 b2 w).
Proof.
  unfold ReturnOutputBuffers. induction 1 as [|b bs [Hok (s & Hs & Hne0)] _ IH]; intros r es b1 b2; simpl.
  { intros w Hw. rewrite wp_ret. exists []. simpl. by rewrite app_nil_r. }
  intros w Hw. rewrite wp_bind. unfold return_output. rewrite Hok, wp_bind, wp_on_stream.
  pose proof (v_streams _ _ _ _ _ Hw) as Hst. destruct (Hst _ _ Hs) as (s' & Hs' & Ei & Eb). exists s'.
  split; [done|]. unfold ReturnBufferToClient. cbn [st]. rewrite Eb, Hok, (proj2 (Z.eqb_neq _ _) Hne0). cbv beta iota.
  rewrite wp_bind. unfold emit. rewrite wp_modify, wp_ret.
  match goal with |- context [ EvBuffer ?x ] => set (sb := x) end.
  eapply wp_mono; [apply (IH r (es ++ [EvBuffer sb]) b1 b2)|].
  - destruct Hw as [V1 V2 V3 V4 V5 V6 V7]. constructor; simpl; try done; [by rewrite V3, <-app_assoc|].
    intros p u Hp. destruct (decide (p = hb_stream b)) as [->|Hne].
    + rewrite lookup_insert_eq. eexists. split; [done|]. simpl. assert (u = s) as -> by congruence. done.
    + rewrite lookup_insert_ne by congruence. by apply V5.
  - intros u w' (sbs & Hsbs & Hv). exists (sb :: sbs). split; [|by rewrite <-app_assoc in Hv].
    constructor; [|done]. exists s. unfold sb. simpl. done.
Qed.

(** The request is gone, after the events [es]. *)
Record removed (es : list (Event M)) (w : W) : Prop := {
  rm_pending : pending_requests_vector_ (dc w) = kv_remove n (pending_requests_vector_ (dc w0));
  rm_events : events w = events w0 ++ es;
  rm_fixed : fixed (dc w) = fixed (dc w0);
  rm_streams : same_streams (heap w0) (heap w)
}.

Lemma view_remove r es b1 b2 : pr_status r = 0 ->
  (finished r = true -> sensorTS r = shutterTS r /\ pendingBuffers r = []) ->
  tri (view r es b1 b2) (RemovePendingRequestLocked n)
      (fun _ w => if finished r then removed es w else view r es b1 b2 w).
Proof.
  intros Hs Hf. unfold RemovePendingRequestLocked. eapply tri_bind; [apply view_pending|].
  intros r' w [-> Hw]. destruct (finished r); cbn [negb]; [|done].
  destruct (Hf eq_refl) as [Hts Hb]. rewrite wp_bind, Hs, Hts, !Z.eqb_refl. cbn [andb negb].
  rewrite wp_ret, wp_bind, Hb. cbn [ReturnOutputBuffers for_each]. rewrite wp_ret, wp_bind.
  eapply wp_mono; [by apply view_pending|]. intros r' w' [-> []]. unfold failed_early. rewrite Hs. cbn [Z.eqb negb andb].
  rewrite wp_bind, wp_ret. unfold set_dc. rewrite wp_modify.
  constructor; simpl; try done. by rewrite v_pending0, kv_remove_replace.
Qed.

(** ** The messages *)

Definition buffer_of (e : Event M) : option StreamBuffer := match e with EvBuffer b => Some b | _ => None end.

(** What the client has got: the shutter if [sh], the result if [me], and the
    buffers [bs] in their order. *)
Definition received (sh me : bool) (bs : list camera3_stream_buffer) (es : list (Event M)) : Prop :=
  exists x y sbs, same_extras x x0 /\ same_extras y x0 /\ Forall2 (delivers (heap w0)) bs sbs /\
    omap buffer_of es = sbs /\
    es ≡ₚ (if sh then [EvShutter x t] else []) ++ (if me then [final_result y] else []) ++ map EvBuffer sbs.

(** The request after the shutter if [sh], the metadata if [me], and the
    buffers [bs], when [left] buffers are still to come. *)
Record progress (sh me : bool) (left : Z) (bs : list camera3_stream_buffer) (r : PendingRequest M) : Prop := {
  pg_shutter : shutterTS r = if sh then t else 0;
  pg_meta : isMetaPresent r = me;
  pg_count : buffersRemaining r = left;
  pg_status : pr_status r = 0;
  pg_buffers : pendingBuffers r = if sh then [] else bs;
  pg_pending : sh = false -> pendingMetadata r = if me then m else meta_empty;
  pg_composed : composedResult r = meta_empty;
  pg_sensor : me = true -> sensorTS r = t
}.

Definition to_come (bs : list camera3_stream_buffer) : Z := k - Z.of_nat (length bs).

Definition complete (sh me : bool) (bs : list camera3_stream_buffer) : bool :=
  sh && me && (Z.of_nat (length bs) =? k).

Definition under_way (sh me : bool) (bs : list camera3_stream_buffer) (w : W) : Prop :=
  exists r es, progress sh me (to_come bs) bs r /\ received sh (sh && me) (if sh then bs else []) es /\
    view r es (negb sh) (negb (sh && me)) w.

Definition delivered (bs : list camera3_stream_buffer) (w : W) : Prop :=
  exists es, received true true bs es /\ removed es w.

Lemma progress_finished sh me bs r : progress sh me (to_come bs) bs r -> finished r = complete sh me bs.
Proof.
  intros []. unfold finished, complete, to_come in *. rewrite pg_shutter0, pg_meta0, pg_count0, pg_status0. cbn [Z.eqb negb orb].
  replace (k - Z.of_nat (length bs) =? 0) with (Z.of_nat (length bs) =? k) by lia.
  destruct sh, me; simpl; rewrite ?andb_false_r, ?andb_true_r; try done.
  destruct (Z.eqb_spec t 0); [lia|]. by rewrite andb_true_r.
Qed.

(** The end of every message. *)
Lemma settle sh me bs r es w : progress sh me (to_come bs) bs r ->
  received sh (sh && me) (if sh then bs else []) es ->
  view r es (negb sh) (negb (sh && me)) w ->
  wp (RemovePendingRequestLocked n)
     (fun _ w' => if complete sh me bs then delivered bs w' else under_way sh me bs w') w.
Proof.
  intros Hp Hr Hw. pose proof (progress_finished _ _ _ _ Hp) as Hf.
  eapply wp_mono; [apply view_remove; [apply Hp| |exact Hw]|].
  - rewrite Hf. unfold complete. destruct sh, me; try done. intros _. destruct Hp. split; [|done].
    by rewrite pg_sensor0, pg_shutter0.
  - intros u w' Hw'. rewrite Hf in Hw'. destruct (complete sh me bs) eqn:Ec.
    + exists es. unfold complete in Ec. by destruct sh, me.
    + by exists r, es.
Qed.

Lemma received_nothing me es : received false me [] es -> me = false -> es = [].
Proof.
  intros (x & y & sbs & _ & _ & Hb & _ & Hp) ->. apply Forall2_nil_inv_l in Hb as ->. simpl in Hp.
  by apply Permutation_nil_r in Hp.
Qed.

Lemma buffers_only sbs : omap buffer_of (map EvBuffer sbs) = sbs.
Proof. induction sbs; simpl; [done|]. by f_equal. Qed.

(** The shutter. *)
Lemma handle_shutter me bs : Forall (good_buffer (heap w0)) bs ->
  tri (under_way false me bs) (handle MsgShutter)
      (fun _ w => if complete true me bs then delivered bs w else under_way true me bs w).
Proof.
  intros Hbs w (r & es & Hp & Hr & Hw). apply received_nothing in Hr as ->; [|done].
  unfold handle, Notify, NotifyShutter. rewrite wp_bind, wp_gets, (v_pending _ _ _ _ _ Hw).
  erewrite kv_lookup_replaced by exact fresh. rewrite (cb_view _ _ _ _ _ Hw). cbn [shutterCb].
  pose proof (v_extras _ _ _ _ _ Hw) as Hx.
  rewrite wp_bind. eapply wp_mono; [by apply view_emit|]. clear w Hw. intros u w Hw.
  rewrite wp_bind. eapply wp_mono; [eapply view_shutter_check; [exact Hx|exact Hw]|]. clear w Hw. intros ok w [-> Hw]. cbn [negb].
  set (r1 := r <| shutterTS := t |>).
  edit_step (fun r : PendingRequest M => r <| shutterTS := t |>).
  clear w Hw. intros ? w Hw. change (_ <| shutterTS := t |>) with r1 in Hw.
  rewrite wp_bind. apply (wp_mono _ (fun _ => view r1 ([EvShutter (pr_extras r) t] ++
    (if me then [final_result (pr_extras r)] else [])) false (negb me))).
  { rewrite (pg_pending _ _ _ _ _ Hp eq_refl), (pg_composed _ _ _ _ _ Hp). destruct me; [by apply view_send|].
    unfold SendCaptureResult. by rewrite wp_bind, wp_gets, empty_is_empty. }
  clear w Hw. intros ? w Hw. rewrite (pg_buffers _ _ _ _ _ Hp).
  rewrite wp_bind. eapply wp_mono; [by apply view_return|]. clear w Hw. intros ? w (sbs & Hsbs & Hw).
  edit_step (fun r : PendingRequest M => r <| pendingBuffers := [] |>).
  clear w Hw. intros ? w Hw. eapply settle; [|..|exact Hw].
  - destruct Hp. by constructor.
  - exists (pr_extras r), (pr_extras r), sbs. split_and!; [done..| |].
    + rewrite !omap_app, buffers_only. by destruct me.
    + cbn [andb]. by rewrite <-app_assoc.
Qed.

Hypothesis parts : is_partial_result_supported_ (dc w0) = true -> 1 <= partial_result_count_ (dc w0).

(** The HAL's result: the metadata, if [fin], and some buffers. *)
Definition answer (fin : bool) (bs : list camera3_stream_buffer) (c : Camera3DeviceClient M)
    : camera3_capture_result M :=
  mkHalResult n (if fin then Some m else None) bs None (if fin then last_part c else 0).

Lemma received_more sh me b sbs bs cs es x :
  received sh me bs es -> (b = true -> me = false) -> same_extras x x0 ->
  Forall2 (delivers (heap w0)) cs sbs ->
  received sh (me || b) (bs ++ cs) ((es ++ if b then [final_result x] else []) ++ map EvBuffer sbs).
Proof.
  intros (x1 & y & ss & Hx1 & Hy & Hb & Ho & Hp) Hme Hx Hs.
  exists x1, (if b then x else y), (ss ++ sbs). split_and!; [done|by destruct b|by apply Forall2_app| |].
  - rewrite !omap_app, Ho, buffers_only. destruct b; simpl; by rewrite ?app_nil_r.
  - rewrite map_app. destruct b; [rewrite (Hme eq_refl) in *|rewrite app_nil_r, orb_false_r].
    + simpl in *. rewrite Hp. solve_Permutation.
    + rewrite Hp. by rewrite !app_assoc.
Qed.

(** What happens to an accepted result before the request is looked at for
    removal: the client is passed what it can have. *)
Lemma handle_pass_on sh me fin left rb bs r es w :
  (fin = true -> me = false) -> Forall (good_buffer (heap w0)) bs ->
  (sh = false -> pendingMetadata r = if me then m else meta_empty) ->
  shutterTS r = (if sh then t else 0) -> pendingBuffers r = (if sh then [] else rb) ->
  isMetaPresent r = me || fin -> buffersRemaining r = left -> pr_status r = 0 ->
  composedResult r = meta_empty -> ((me || fin) = true -> sensorTS r = t) ->
  received sh (sh && me) (if sh then rb else []) es ->
  view r es (negb sh) (negb (sh && me)) w ->
  wp (pass_on n (if sh then t else 0) (if fin then Some m else None) meta_empty bs)
     (fun _ w' => exists r' es', progress sh (me || fin) left (rb ++ bs) r' /\
        received sh (sh && (me || fin)) (if sh then rb ++ bs else []) es' /\
        view r' es' (negb sh) (negb (sh && (me || fin))) w') w.
Proof.
  intros Hme Hbs Hpend Hts Hpb Hp2 Hp3 Hp4 Hp7 Hp8 Hr Hw.
  pose proof (v_extras _ _ _ _ _ Hw) as Hx. unfold pass_on. destruct sh; cbn [andb] in *.
  - assert ((t =? 0) = false) as -> by lia. assert ((0 <? t) = true) as -> by lia.
    rewrite wp_bind, wp_ret, wp_bind.
    apply (wp_mono _ (fun _ => view r (es ++ if fin then [final_result (pr_extras r)] else []) false (negb (me || fin)))).
    { destruct fin; [|by rewrite app_nil_r, orb_false_r]. rewrite (Hme eq_refl) in *.
      rewrite wp_bind. eapply wp_mono; [by apply view_pending|]. intros r' w' [-> Hw']. by apply view_send. }
    clear w Hw. intros u w Hw. eapply wp_mono; [by apply view_return|]. intros u' w' (sbs & Hsbs & Hw').
    exists r. eexists. split_and!; [by constructor| |exact Hw']. by apply received_more.
  - change (0 =? 0) with true. change (0 <? 0) with false. cbv iota.
    edit_step (fun r : PendingRequest M => r <| pendingBuffers := pendingBuffers r ++ bs |>).
    clear w Hw. intros u w Hw. rewrite wp_bind. destruct fin.
    + eapply wp_mono; [apply (view_edit (fun r : PendingRequest M => r <| pendingMetadata := m |> <| composedResult := meta_empty |>));
        [unfold same_extras; done|exact Hw]|]. intros u' w' Hw'. cbv beta. rewrite wp_ret.
      cbv beta in Hw'. match type of Hw' with view ?x _ _ _ _ => exists x, es end.
      split_and!; [|done|done]. constructor; simpl; try done; [by rewrite Hpb|intros _; by rewrite orb_true_r].
    + cbv beta iota. rewrite !wp_ret. cbv beta in Hw. match type of Hw with view ?x _ _ _ _ => exists x, es end.
      rewrite orb_false_r in *. split_and!; [|done|done]. constructor; simpl; try done. by rewrite Hpb.
Qed.

(** The metadata is taken: there are no partial results to join it with. *)
Lemma view_take_meta r es b1 b2 : composedResult r = meta_empty ->
  tri (view r es b1 b2) (take_meta n) (fun c w => c = meta_empty /\ view (r <| isMetaPresent := true |>) es b1 b2 w).
Proof.
  intros Hc. unfold take_meta. eapply tri_bind; [apply view_pending|]. intros r' w [-> Hw].
  rewrite wp_bind, wp_gets, Hc, empty_is_empty. cbv zeta. cbn [negb]. rewrite andb_false_r.
  edit_step (fun r : PendingRequest M => r <| isMetaPresent := true |>). intros u w' Hw'. by rewrite wp_ret.
Qed.

Lemma handle_take sh me fin rb bs r es w :
  (fin = true -> me = false) -> Forall (good_buffer (heap w0)) bs -> Z.of_nat (length (rb ++ bs)) <= k ->
  progress sh me (to_come rb) rb r -> received sh (sh && me) (if sh then rb else []) es ->
  view r es (negb sh) (negb (sh && me)) w ->
  forall p, wp (take_result n (mkHalResult n (if fin then Some m else None) bs None p) (if fin then Some m else None))
     (fun _ w' => if complete sh (me || fin) (rb ++ bs) then delivered (rb ++ bs) w'
                  else under_way sh (me || fin) (rb ++ bs) w') w.
Proof.
  intros Hme Hbs Hk Hp Hr Hw p. rewrite length_app in Hk. unfold take_result. cbv zeta. cbn [res_output res_input res_result].
  rewrite wp_bind. eapply wp_mono; [by apply view_pending|]. clear w Hw. intros r' w [-> Hw].
  assert (bool_decide (is_Some (if fin then Some m else None)) && isMetaPresent r = false) as ->.
  { destruct fin; [|done]. by rewrite (pg_meta _ _ _ _ _ Hp), (Hme eq_refl), andb_false_r. }
  rewrite wp_bind. apply (wp_mono _ (fun c w => c = meta_empty /\
    view (r <| isMetaPresent := me || fin |>) es (negb sh) (negb (sh && me)) w)).
  { destruct fin; rewrite ?orb_true_r, ?orb_false_r; [apply view_take_meta; [apply (pg_composed _ _ _ _ _ Hp)|exact Hw]|].
    rewrite wp_ret. split; [done|]. destruct Hp. destruct r. simpl in *. by subst. }
  clear w Hw. intros c w [-> Hw].
  edit_step (fun r : PendingRequest M => r <| buffersRemaining := buffersRemaining r - Z.of_nat (length bs) - 0 |>).
  clear w Hw. intros u w Hw. cbv beta in Hw. rewrite wp_bind. eapply wp_mono; [by apply view_pending|].
  clear w Hw. intros r' w [-> Hw]. destruct Hp as [Hp1 Hp2 Hp3 Hp4 Hp5 Hp6 Hp7 Hp8].
  match goal with |- context [ ?x <? 0 ] => assert ((x <? 0) = false) as -> end.
  { simpl. rewrite Hp3. unfold to_come. lia. }
  rewrite wp_bind. eapply wp_mono; [apply (view_edit (sensor_timestamp (if fin then Some m else None))); [|exact Hw]|].
  { unfold same_extras, sensor_timestamp. destruct fin; [by rewrite meta_stamp|done]. }
  clear w Hw. intros u' w Hw. cbv beta in Hw. rewrite wp_bind, Hp1.
  eapply wp_mono; [eapply (handle_pass_on sh me fin (to_come (rb ++ bs)) rb bs); [done|done|..|exact Hr|exact Hw]|];
    unfold sensor_timestamp.
  all: try (destruct fin; [rewrite meta_stamp|]; simpl; done).
  - unfold to_come in *. rewrite length_app. destruct fin; [rewrite meta_stamp|]; simpl; lia.
  - destruct fin; [by rewrite meta_stamp|]. rewrite orb_false_r. exact Hp8.
  - intros u2 w2 (r2 & es2 & Hp2' & Hr2 & Hw2). rewrite wp_bind. eapply wp_mono; [by eapply settle|].
    intros u3 w3 Hw3. by rewrite wp_ret.
Qed.

Lemma fixed_parts (c : Camera3DeviceClient M) : fixed c = fixed (dc w0) ->
  is_partial_result_supported_ c = is_partial_result_supported_ (dc w0) /\
  partial_result_count_ c = partial_result_count_ (dc w0).
Proof. unfold fixed. intros E. split; congruence. Qed.

(** A result of the HAL. *)
Lemma handle_answer sh me fin rb bs w :
  (fin = true -> me = false) -> (fin = false -> bs <> []) -> Forall (good_buffer (heap w0)) bs ->
  Z.of_nat (length (rb ++ bs)) <= k -> under_way sh me rb w ->
  wp (HandleCaptureResult (answer fin bs (dc w)))
     (fun _ w' => if complete sh (me || fin) (rb ++ bs) then delivered (rb ++ bs) w'
                  else under_way sh (me || fin) (rb ++ bs) w') w.
Proof.
  intros Hme Hne Hbs Hk (r & es & Hp & Hr & Hw).
  destruct (fixed_parts _ (v_fixed _ _ _ _ _ Hw)) as [Es Ec]. rewrite <-Es, <-Ec in parts.
  unfold HandleCaptureResult, answer. cbv zeta. cbn [res_frame_number res_result res_partial].
  rewrite wp_bind, wp_gets. unfold last_part.
  match goal with |- context [ no_data ?x ] => assert (no_data x = false) as -> end.
  { unfold no_data. simpl. destruct fin; [done|]. destruct bs; [by destruct Hne|done]. }
  set (p := if fin then _ else 0) in *.
  match goal with |- context [ if ?b then SetErrorState else _ ] => assert (b = false) as -> end.
  { unfold p. by destruct fin, (is_partial_result_supported_ (dc w)). }
  rewrite (v_pending _ _ _ _ _ Hw). erewrite kv_lookup_replaced by exact fresh.
  rewrite wp_bind. apply (wp_mono _ (fun _ => fun w => exists r', progress sh me (to_come rb) rb r' /\
    view r' es (negb sh) (negb (sh && me)) w)).
  { destruct (p =? 0); [rewrite wp_ret; by exists r|].
    eapply wp_mono; [apply (view_edit (fun r : PendingRequest M =>
      r <| pr_extras := (pr_extras r) <| Adaptor.partialResultCount := i32 p |> |>)); [|exact Hw]|].
    { unfold same_extras. by destruct (pr_extras r). }
    intros u w' Hw'. cbv beta in Hw'. eexists. split; [|exact Hw']. by destruct Hp. }
  intros u w' (r' & Hp' & Hw').
  match goal with |- context [ if ?b then SetErrorState else _ ] => assert (b = false) as -> end.
  { unfold p in *. destruct fin; [|by rewrite andb_false_r]. cbn [andb].
    destruct (is_partial_result_supported_ (dc w)); [|done]. specialize (parts eq_refl). simpl. lia. }
  pose proof (handle_take sh me fin rb bs r' es w' Hme Hbs Hk Hp' Hr Hw' p) as Ht.
  destruct fin; [|exact Ht]. unfold p in *.
  destruct (is_partial_result_supported_ (dc w)); [|exact Ht]. rewrite Z.ltb_irrefl. exact Ht.
Qed.

(** ** All the messages *)

Fixpoint handle_all (xs : list FrameMessage) : ST W unit :=
  match xs with [] => ret tt | x :: xs' => do* handle x in handle_all xs' end.

Definition count (f : FrameMessage -> bool) (xs : list FrameMessage) : nat := length (List.filter f xs).

(** The messages that are still to come after the shutter if [sh], the
    metadata if [me], and the buffers [bs]. *)
Definition remaining (sh me : bool) (bs : list camera3_stream_buffer) (xs : list FrameMessage) : Prop :=
  count is_shutter xs = (if sh then 0 else 1)%nat /\ count is_meta xs = (if me then 0 else 1)%nat /\
  Z.of_nat (length (bs ++ concat (map buffers_of xs))) = k /\ forallb has_content xs = true /\
  Forall (good_buffer (heap w0)) (bs ++ concat (map buffers_of xs)).

Lemma remaining_complete sh me bs xs : remaining sh me bs xs -> complete sh me bs = true -> xs = [].
Proof.
  intros (Hs & Hm & Hl & Hc & _) Hcomp. unfold complete in Hcomp.
  destruct sh, me; try done. apply Z.eqb_eq in Hcomp.
  destruct xs as [|x xs]; [done|]. rewrite length_app in Hl. exfalso. destruct x as [|cs|[|c cs]]; simpl in *; try done; lia.
Qed.

Lemma handle_all_delivers xs : forall sh me bs w,
  remaining sh me bs xs -> (if complete sh me bs then delivered bs w else under_way sh me bs w) ->
  wp (handle_all xs) (fun _ => delivered (bs ++ concat (map buffers_of xs))) w.
Proof.
  induction xs as [|x xs IH]; intros sh me bs w Hrem Hw.
  - simpl. rewrite wp_ret, app_nil_r. destruct Hrem as (Hs & Hm & Hl & _). simpl in *.
    destruct sh, me; try done. unfold complete in Hw. rewrite app_nil_r in Hl. by rewrite Hl, Z.eqb_refl in Hw.
  - assert (complete sh me bs = false) as Hc.
    { destruct (complete sh me bs) eqn:E; [|done]. by apply remaining_complete with (xs := x :: xs) in E. }
    rewrite Hc in Hw. destruct Hrem as (Hs & Hm & Hl & Hne & Hg). cbn [handle_all]. rewrite wp_bind.
    cbn [forallb] in Hne. apply andb_true_iff in Hne as [Hx Hne].
    rewrite Forall_app in Hg. destruct Hg as [Hg1 Hg2]. cbn [map concat] in *. rewrite Forall_app in Hg2.
    rewrite !length_app in Hl. rewrite app_assoc. destruct x as [|cs|cs]; cbn [buffers_of] in *.
    + destruct sh; [done|]. eapply wp_mono; [apply handle_shutter; [done|exact Hw]|].
      intros u w' Hw'. rewrite app_nil_r. eapply IH; [|exact Hw'].
      split_and!; [by injection Hs|done|by rewrite length_app|done|rewrite Forall_app; tauto].
    + destruct me; [done|]. unfold handle. rewrite wp_bind, wp_gets.
      eapply wp_mono; [apply (handle_answer sh false true bs cs); try done; [tauto|rewrite length_app; lia]|].
      intros u w' Hw'. eapply IH; [|exact Hw'].
      split_and!; [done|by injection Hm|rewrite !length_app; lia|done|rewrite !Forall_app; tauto].
    + unfold handle. eapply wp_mono; [apply (handle_answer sh me false bs cs); try done; [by destruct cs|tauto|rewrite length_app; lia]|].
      rewrite orb_false_r. intros u w' Hw'. eapply IH; [|exact Hw'].
      split_and!; [done|done|rewrite !length_app; lia|done|rewrite !Forall_app; tauto].
Qed.
(** C4. A request is delivered exactly once. For a registered request with [k]
    buffers, let the HAL send the shutter, the metadata and the buffers, each
    of them one that its stream has lent, none with an error, in any order and
    in any number of messages. Then the client gets exactly one shutter, one
    result and each buffer once, the buffers in the HAL's order with the
    shutter's time stamp, and nothing else; the request is no longer pending,
    the other requests are untouched, and the client's state is what it was. *)
Theorem request_delivered_once (xs : list FrameMessage) :
  next_shutter (Adaptor.input x0) (dc w0) <= n -> next_frame (Adaptor.input x0) (dc w0) <= n ->
  remaining false false [] xs ->
  wp (handle_all xs) (fun _ => delivered (concat (map buffers_of xs))) w0.
Proof.
  intros Hsn Hfn Hrem. apply (handle_all_delivers xs false false [] w0 Hrem).
  change (complete false false []) with false. exists (PendingRequest_new k x0), []. split_and!.
  - constructor; try done. unfold to_come. simpl. lia.
  - exists x0, x0, []. by split_and!.
  - constructor; try done; [by rewrite kv_replace_same|by rewrite app_nil_r|].
    intros p s Hp. by exists s.
Qed.
End Delivery.

(** ** On the concrete HAL *)

Definition demo_buffer (b : Z) : camera3_stream_buffer :=
  mkHalBuffer 0x1000 b CAMERA3_BUFFER_STATUS_OK (-1) (-1).

(** An open client that waits for frame 5, with two buffers that its stream
    has lent. *)
Definition demo_one_frame : World ListDevice MetaMap DemoHal :=
  demo_open_client <| heap := (fun s => s <| buffers_map := {[7 := 1; 8 := 2]} |>) <$> heap demo_open_client |> <| dc := (dc demo_open_client)
    <| pending_requests_vector_ := [(5, PendingRequest_new 2 zero_extras)] |> |>.

(** A buffer before the shutter, one with the metadata. *)
Definition demo_messages : list FrameMessage :=
  [MsgBuffers [demo_buffer 7]; MsgShutter; MsgMeta [demo_buffer 8]].

Lemma request_delivered_once_witness :
  wp (handle_all 5 100 ({[ANDROID_SENSOR_TIMESTAMP := [100]]} : MetaMap) demo_messages)
     (fun _ => delivered 5 100 {[ANDROID_SENSOR_TIMESTAMP := [100]]} demo_one_frame zero_extras
                 [demo_buffer 7; demo_buffer 8]) demo_one_frame.
Proof.
  apply (request_delivered_once 5 100 ({[ANDROID_SENSOR_TIMESTAMP := [100]]} : MetaMap) demo_one_frame zero_extras 2).
  all: try (vm_compute; done).
  split_and!; try (vm_compute; done).
  repeat constructor; vm_compute; by eexists; split.
Defined.
