(* ===== verification/Submission.v ===== *)
(** * From a submitted request to the HAL

    The client's side of the request handler, and the two ends of a request:
    every request the HAL is handed is registered with the client first, and
    the client numbers the requests it accepts. *)

From S2P Require Import Prelude KeyedVector Monitor Memory Stream Adaptor Floats SmoothZoom World PrepareHandler RequestHandler DeviceState DeviceStreams DeviceRequests DeviceResults Client ClientInvariants.

Section Submission.
Context {D M H : Type} `{AllocDevice D} `{AllocUsage} `{HalPlatform} `{CameraMetadata M}
  `{MetadataTags} `{HC : CameraHal M H} {HU : HalUsage} `{ClientPlatform}.

Abbreviation W := (World D M H).

(** The client is what the request handler was verified against. *)
#[export] Instance client_callbacks_laws : HandlerCallbacksLaws (HC := client_callbacks (D := D) (M := M) (H := H)).
Proof.
  split.
  - intros n t e w. simpl. unfold MarkPendingRequest, set_dc. by rewrite wp_bind, wp_modify, wp_gets.
  - intros w. unfold set_error_. simpl. unfold wp. rewrite SetErrorState_eq.
    by destruct (error_world_keeps w) as (Eh & _ & Ed & _).
Qed.

(** The requests the HAL was handed, and the pending requests. *)
Definition submitted_of (e : Event M) : option (camera3_capture_request M) :=
  match e with EvSubmitted r => Some r | _ => None end.

Definition submitted (w : W) : list (camera3_capture_request M) := omap submitted_of (events w).

Definition traffic (w : W) := (submitted w, pending_requests_vector_ (dc w)).

Definition quiet {A} (m : ST W A) : Prop := forall v, preserves (fun w => traffic w = v) m.

Lemma quiet_bind {A B} (m : ST W A) (k : A -> ST W B) : quiet m -> (forall a, quiet (k a)) -> quiet (bind m k).
Proof. intros Hm Hk v. apply preserves_bind; [apply Hm|]. intros a. apply Hk. Qed.

Lemma quiet_stream {A} p (f : SE D -> A * SE D) : quiet (on_stream p f).
Proof. intros v w Hw. unfold on_stream. destruct (heap w !! p); [|done]. by destruct (f _). Qed.

Lemma quiet_for_each {A} (l : list A) (body : A -> ST W unit) : (forall x, quiet (body x)) -> quiet (for_each l body).
Proof. intros Hb v. apply preserves_for_each. intros x _. apply Hb. Qed.

Lemma quiet_set_rh f : quiet (set_rh f).
Proof. by intros v w. Qed.

Lemma quiet_emit e : submitted_of e = None -> quiet (emit e).
Proof.
  intros He v w <-. unfold emit, modify, traffic, submitted. simpl. rewrite omap_app. simpl. by rewrite He, app_nil_r.
Qed.

Lemma quiet_fail : quiet SetErrorState.
Proof.
  intros v w <-. rewrite SetErrorState_eq. unfold error_world. destruct (can_fail _); [|done].
  unfold traffic, submitted. simpl. rewrite omap_app. destruct (errorCb _); simpl; by rewrite app_nil_r.
Qed.

Ltac quiet_step :=
  lazymatch goal with
  | |- quiet (bind _ _) => apply quiet_bind; [|intros ?]
  | |- quiet (on_stream _ _) => apply quiet_stream
  | |- quiet (set_rh _) => apply quiet_set_rh
  | |- quiet (emit _) => by apply quiet_emit
  | |- quiet (for_each _ _) => apply quiet_for_each; intros ?
  | |- quiet SetErrorState => apply quiet_fail
  | |- quiet (match ?x with _ => _ end) => destruct x
  | |- quiet _ => by intros ? ?
  end.

Lemma quiet_return_all out : forall ss, quiet (return_all out ss).
Proof. induction out as [|b out IH]; intros [|s ss]; simpl; by repeat quiet_step. Qed.

Lemma quiet_handle_error r out : quiet (HandleErrorRequest r out).
Proof. unfold HandleErrorRequest, clear_current. apply quiet_bind; [apply quiet_return_all|]. intros ?. quiet_step. Qed.

Lemma quiet_signal : quiet SignalError.
Proof. unfold SignalError. simpl. repeat quiet_step. Qed.

Lemma quiet_get_buffers bw ss : forall out, quiet (get_buffers bw [] ss out).
Proof. induction ss as [|s ss IH]; intros out; simpl; by repeat quiet_step. Qed.

(** What [SubmitRequest] leaves: the requests it handed to the HAL, which are
    registered. *)
Definition registered (w0 : W) (request : CaptureRequest M) (w : W) : Prop :=
  submitted w = submitted w0 \/
  exists r, submitted w = submitted w0 ++ [r] /\ hr_frame_number r = frameNumber (resultExtras request) /\
    kv_lookup (hr_frame_number r) (pending_requests_vector_ (dc w)) =
      Some (PendingRequest_new (Z.of_nat (length (hr_output r)) + match hr_input r with Some _ => 1 | None => 0 end)
              (resultExtras request)).

Lemma quiet_registered {A} w0 request (m : ST W A) : quiet m -> preserves (registered w0 request) m.
Proof.
  intros Hm w Hw. pose proof (Hm _ w eq_refl) as E. destruct (m w) as [[a w']|]; [|done].
  injection E as E1 E2. unfold registered in *. by rewrite E1, E2.
Qed.

Lemma quiet_same {A} w0 (m : ST W A) : quiet m ->
  hoare (fun w => submitted w = submitted w0) m (fun _ w => submitted w = submitted w0).
Proof.
  intros Hm w Hw. pose proof (Hm _ w eq_refl) as E. destruct (m w) as [[a w']|]; [|done].
  injection E as E1 E2. congruence.
Qed.

Lemma submission_registers (bw : Z -> SE D -> Z * SE D) (request : CaptureRequest M)
    (in_buf : option camera3_stream_buffer) (w : W) :
  match RequestHandler.SubmitRequest bw no_gaps request in_buf w with
  | Some (_, w') => registered w request w'
  | None => True
  end.
Proof.
  set (P := fun w' : W => submitted w' = submitted w).
  assert (forall A (m : ST W A), quiet m -> hoare P m (fun _ => P)) as Hq by (intros A m; apply quiet_same).
  assert (forall A (m : ST W A), quiet m -> hoare P m (fun _ => registered w request)) as Hend.
  { intros A m Hm w1 Hw1. pose proof (Hq A m Hm w1 Hw1) as Hp. destruct (m w1) as [[a w2]|]; [|done]. by left. }
  assert (forall fl fl' r out (x : Z), quiet (do* (if fl : bool then SignalError else error_cb fl') in
    do* HandleErrorRequest r out in ret x)) as Herr.
  { intros fl fl' r out x. apply quiet_bind; [destruct fl; [apply quiet_signal|unfold error_cb; repeat quiet_step]|].
    intros ?. apply quiet_bind; [apply quiet_handle_error|]. intros ?. quiet_step. }
  assert (hoare P (RequestHandler.SubmitRequest bw no_gaps request in_buf) (fun _ => registered w request)) as Hs; [|by apply Hs].
  unfold RequestHandler.SubmitRequest. apply (hoare_bind _ _ _ _ (fun _ => P)); [apply Hq; quiet_step|]. intros old.
  apply (hoare_bind _ _ _ _ (fun _ => P)); [apply Hq; quiet_step|]. intros going. cbv zeta.
  set (fresh := negb (old =? _) || going).
  set (next := if fresh then _ else request).
  assert (resultExtras next = resultExtras request) as Hx by (unfold next; by destruct fresh).
  clearbody fresh next.
  apply (hoare_bind _ _ _ _ (fun _ => P)); [apply Hq; repeat quiet_step|]. intros _.
  apply (hoare_bind _ _ _ _ (fun _ => P)); [apply Hq, quiet_get_buffers|]. intros [res out].
  case_goal; [apply Hend, quiet_bind; [quiet_step|intros _; apply (Herr false)]|].
  apply (hoare_bind _ _ _ _ (fun _ => P)); [apply Hq; quiet_step|]. intros ready. case_goal.
  { apply Hend, quiet_bind; [apply quiet_handle_error|]. intros ?. quiet_step. }
  apply (hoare_bind _ _ _ _ (fun _ => P)); [apply Hq; repeat quiet_step|]. intros ?.
  apply (hoare_bind _ _ _ _ (fun _ => P)); [apply Hq; quiet_step|]. intros ?. rewrite Hx.
  set (n := frameNumber _). set (total := _ + _).
  apply (hoare_bind _ _ _ _ (fun _ w' => P w' /\
    kv_lookup n (pending_requests_vector_ (dc w')) = Some (PendingRequest_new total (resultExtras request)))).
  { intros w1 Hw1. simpl. unfold MarkPendingRequest, bind, set_dc, modify, gets. split; [done|].
    simpl. by rewrite kv_lookup_add, Z.eqb_refl. }
  intros idx. case_goal.
  { eapply hoare_weaken; [|apply Hend, (Herr true zero_extras)|done]. by intros w1 [Hw1 _]. }
  set (hr := mkHalRequest n _ in_buf out).
  apply (hoare_bind _ _ _ _ (fun _ w' => P w' /\
    kv_lookup n (pending_requests_vector_ (dc w')) = Some (PendingRequest_new total (resultExtras request)))); [by intros w1 Hw1|].
  intros _. apply (hoare_bind _ _ _ _ (fun _ => registered w request)).
  { unfold hal_submit. apply (hoare_bind _ _ _ _ (fun _ => registered w request)).
    { intros w1 [Hw1 Hl]. unfold emit, modify. right. exists hr. split_and!; [|done|].
      - unfold submitted in *. simpl. rewrite omap_app, Hw1. done.
      - simpl. rewrite Hl. unfold total. by destruct in_buf. }
    intros ?. apply hoare_preserves, quiet_registered, quiet_bind.
    - intros v w1 Hw1. unfold on_hal, pure_step. by destruct (process_capture_request _ _).
    - intros ?. apply quiet_bind; [by intros ? ?|intros ?; quiet_step]. }
  intros res'. case_goal; apply hoare_preserves, quiet_registered.
  - apply quiet_bind; [apply quiet_signal|]. intros ?. apply quiet_bind; [by intros ? ?|]. intros ?.
    apply quiet_bind; [apply quiet_handle_error|]. intros ?. quiet_step.
  - apply quiet_bind; [apply quiet_for_each; intros; apply quiet_stream|]. intros ?.
    apply quiet_bind; [by intros ? ?|]. intros ?. unfold clear_current. repeat quiet_step.
Qed.

(** Two computations that do the same from the states of [P] on. *)
Definition same_from {A} (P : W -> Prop) (m m' : ST W A) : Prop := forall w, P w -> m w = m' w.

Lemma same_bind {A B} (P : W -> Prop) (Q : A -> W -> Prop) (m : ST W A) (k k' : A -> ST W B) :
  hoare P m Q -> (forall a, same_from (Q a) (k a) (k' a)) -> same_from P (bind m k) (bind m k').
Proof.
  intros Hm Hk w Hw. specialize (Hm w Hw). unfold bind. destruct (m w) as [[a w']|]; [|done]. by apply Hk.
Qed.

Lemma same_any {A B} (m : ST W A) (k k' : A -> ST W B) :
  (forall a, same_from (fun _ => True) (k a) (k' a)) -> same_from (fun _ => True) (bind m k) (bind m k').
Proof. apply same_bind. intros w _. by destruct (m w) as [[]|]. Qed.

(** The HAL is handed a request, the last event, that is registered under its
    frame number, with the number of its buffers. *)
Definition hal_sees (request : CaptureRequest M) (w : W) : Prop := exists hr before,
  events w = before ++ [EvSubmitted hr] /\ hr_frame_number hr = frameNumber (resultExtras request) /\
  kv_lookup (hr_frame_number hr) (pending_requests_vector_ (dc w)) =
    Some (PendingRequest_new (Z.of_nat (length (hr_output hr)) + match hr_input hr with Some _ => 1 | None => 0 end)
            (resultExtras request)).

(** Nobody takes away a pending request that the HAL does not have yet. *)
Definition keeps_pending (n : Z) (f : W -> W) : Prop := forall v r,
  kv_lookup n (pending_requests_vector_ (dc v)) = Some r -> kv_lookup n (pending_requests_vector_ (dc (f v))) = Some r.

Definition with_hal (during : W -> W) (g : Gaps) : Gaps :=
  mkGaps (g_streams g) (g_mark g) (g_send g) during (g_error g) (g_end g).

(** C14. A request is registered before the HAL sees it.  Whatever the other
    threads do in between, as long as they leave alone a request that the HAL
    does not have: the HAL's callbacks during its call, which may come at
    once, find the request that the HAL was handed among the pending ones,
    under its frame number and with the number of its buffers - what they
    would do in any other state makes no difference.  If nobody comes in
    between, the HAL is handed at most one request, and the client has a fresh
    pending request for it. *)
Theorem submitted_requests_registered (bw : Z -> SE D -> Z * SE D) (g : Gaps) (during during' : W -> W)
    (request : CaptureRequest M) (in_buf : option camera3_stream_buffer) (w : W) :
  keeps_pending (frameNumber (resultExtras request)) (g_send g) ->
  (forall v, hal_sees request v -> during v = during' v) ->
  RequestHandler.SubmitRequest bw (with_hal during g) request in_buf w =
    RequestHandler.SubmitRequest bw (with_hal during' g) request in_buf w /\
  match RequestHandler.SubmitRequest bw no_gaps request in_buf w with
  | Some (_, w') => registered w request w'
  | None => True
  end.
Proof.
  intros Hsend Hsame. split; [|apply submission_registers].
  assert (forall {A} (m : ST W A), same_from (fun _ => True) m m) as Hrefl by done.
  apply (fun H : same_from (fun _ => True) _ _ => H w I). unfold RequestHandler.SubmitRequest.
  apply same_any. intros old. apply same_any. intros going. cbv zeta.
  set (fresh := negb (old =? _) || going). set (next := if fresh then _ else request).
  assert (resultExtras next = resultExtras request) as Hx by (unfold next; by destruct fresh). clearbody fresh next.
  apply same_any. intros _. apply same_any. intros [res out]. case_goal; [apply Hrefl|].
  apply same_any. intros ready. case_goal; [apply Hrefl|]. apply same_any. intros _. apply same_any. intros _. rewrite Hx.
  set (n := frameNumber _). set (total := _ + _).
  set (marked := fun v : W => kv_lookup n (pending_requests_vector_ (dc v)) = Some (PendingRequest_new total (resultExtras request))).
  apply (same_bind _ (fun _ => marked)).
  { intros w1 _. unfold marked. simpl. unfold MarkPendingRequest, bind, set_dc, modify, gets. simpl.
    by rewrite kv_lookup_add, Z.eqb_refl. }
  intros idx. case_goal; [intros ? _; by apply Hrefl|]. apply (same_bind _ (fun _ => marked)).
  { intros w1 Hw1. by apply Hsend. }
  intros _ w1 Hw1. unfold hal_submit, emit, on_hal, gap, bind, modify, pure_step, ret. simpl.
  destruct (process_capture_request _ _) as [res1 h1]. rewrite Hsame; [done|].
  eexists _, (events w1). split; [reflexivity|]. split; [done|]. simpl. unfold marked in Hw1. rewrite Hw1.
  unfold total. by destruct in_buf.
Qed.
End Submission.

(** On the concrete HAL: a HAL that answers during its call, which cannot be
    told from one that falls over in a state without the request. *)
Definition demo_answer (w : World ListDevice MetaMap DemoHal) : World ListDevice MetaMap DemoHal :=
  default w (snd <$> Notify (Some (CAMERA3_MSG_SHUTTER 0 100)) w).

Definition demo_picky_answer (w : World ListDevice MetaMap DemoHal) : World ListDevice MetaMap DemoHal :=
  match kv_lookup 0 (pending_requests_vector_ (dc w)) with Some _ => demo_answer w | None => demo_new_client end.

Definition demo_submit (during : World ListDevice MetaMap DemoHal -> World ListDevice MetaMap DemoHal) :=
  RequestHandler.SubmitRequest (HU := plain_hal_usage) (HandlerCallbacks0 := client_callbacks) demo_timeout
    (with_hal during no_gaps) (demo_request 1 [0x1000]) None demo_open_client.

Lemma submitted_requests_registered_witness :
  demo_submit demo_answer = demo_submit demo_picky_answer /\
  exists w', demo_submit demo_answer = Some (0, w') /\ length (submitted w') = 1%nat.
Proof.
  split.
  - refine (proj1 (submitted_requests_registered (HU := plain_hal_usage) demo_timeout no_gaps demo_answer demo_picky_answer
      (demo_request 1 [0x1000]) None demo_open_client _ _)).
    + intros v x Hx. exact Hx.
    + intros v (hr & before & _ & Hn & Hl). rewrite Hn in Hl. unfold demo_picky_answer.
      change (frameNumber (resultExtras (demo_request 1 [0x1000]))) with 0 in Hl. by rewrite Hl.
  - eexists. split; vm_compute; reflexivity.
Defined.
