(* ===== verification/RequestBatch.v ===== *)
(** * Submission of a batch of requests

    The functional behaviour of [SubmitRequestList] on a configured client:
    a batch of well-formed requests is numbered and queued as one, and a
    batch with a malformed request is refused as a whole. *)

From stdpp Require Import sorting.
From S2P Require Import Prelude KeyedVector Monitor Memory Stream Adaptor Floats SmoothZoom World PrepareHandler RequestHandler DeviceState DeviceStreams DeviceRequests ClientInvariants.

#[export] Instance compare_total : Total compare_le.
Proof. intros x y. unfold compare_le, compare. repeat case_goal; lia. Qed.

#[export] Instance compare_trans : Transitive compare_le.
Proof.
  intros x y z. unfold compare_le, compare. repeat case_goal; bool_hyps; lia.
Qed.

Lemma compare_le_spec x y : compare_le x y <-> x <= y.
Proof. unfold compare_le, compare. repeat case_goal; bool_hyps; lia. Qed.

Section RequestBatch.
Context {D M H : Type} `{AllocDevice D} `{AllocUsage} `{HalPlatform} `{CameraMetadata M}
  `{!CameraMetadataLaws M} `{MetadataTags} `{HC : CameraHal M H} {HU : HalUsage} `{ClientPlatform}.

Abbreviation W := (World D M H).

(** A stream of the table, other than the input stream. *)
Definition output_stream (c : Camera3DeviceClient M) (i : Z) : Prop :=
  0 <= i /\ in_stream_id (input_stream_ c) <> i /\ exists p, kv_lookup i (streams_ c) = Some p /\ p <> 0.

(** A request the client accepts: settings, and distinct output streams. *)
Definition well_formed (c : Camera3DeviceClient M) (r : Camera3Request M) : Prop :=
  meta_isEmpty (rq_metadata r) = false /\ streamIds r <> [] /\ NoDup (streamIds r) /\
  Forall (output_stream c) (streamIds r) /\ meta_find ANDROID_REQUEST_INPUT_STREAMS (rq_metadata r) = None.

(** One it refuses: no settings, no streams, or a stream twice. *)
Definition malformed (c : Camera3DeviceClient M) (r : Camera3Request M) : Prop :=
  meta_isEmpty (rq_metadata r) = true \/ streamIds r = [] \/
  (Forall (output_stream c) (streamIds r) /\ ~ NoDup (streamIds r)).

Definition sorted_ids (r : Camera3Request M) : list Z := merge_sort compare_le (streamIds r).

(** The metadata of an accepted request under the number [n]. *)
Definition numbered (n : Z) (r : Camera3Request M) : M :=
  snd (meta_update ANDROID_REQUEST_ID [n]
    (snd (meta_update ANDROID_REQUEST_OUTPUT_STREAMS (sorted_ids r) (rq_metadata r)))).

(** ** Validation *)

Lemma check_ids_ok c ids : forall i prev idx m, Forall (output_stream c) ids -> NoDup ids -> prev ∉ ids ->
  check_ids c ids i prev idx m = Some (inr (m, idx)).
Proof.
  induction ids as [|x ids IH]; intros i prev idx m Hout Hnd Hp; [done|]. cbn [check_ids].
  apply Forall_cons in Hout as [(Hpos & Hin & p & Hl & Hnz) Hout]. apply NoDup_cons in Hnd as [Hx Hnd].
  apply not_elem_of_cons in Hp as [Hp _]. rewrite (proj2 (Z.eqb_neq _ _) Hin). unfold valueFor. rewrite Hl.
  rewrite (proj2 (Z.eqb_neq _ _) Hnz), (proj2 (Z.eqb_neq _ _) Hp). by apply IH.
Qed.

Lemma check_ids_duplicate c ids : forall i prev idx m, Forall (output_stream c) ids -> StronglySorted compare_le ids ->
  ~ NoDup ids \/ head ids = Some prev -> check_ids c ids i prev idx m = Some (inl (- EINVAL)).
Proof.
  induction ids as [|x ids IH]; intros i prev idx m Hout Hs Hd.
  { destruct Hd as [Hd|Hd]; [destruct Hd; constructor|done]. }
  apply Forall_cons in Hout as [(Hpos & Hin & p & Hl & Hnz) Hout]. apply StronglySorted_inv in Hs as [Hs Hx].
  cbn [check_ids]. rewrite (proj2 (Z.eqb_neq _ _) Hin). unfold valueFor. rewrite Hl, (proj2 (Z.eqb_neq _ _) Hnz).
  destruct (Z.eqb_spec prev x) as [|Hne]; [done|]. destruct Hd as [Hd|[= Hd]]; [|congruence].
  apply IH; [done..|]. destruct (decide (NoDup ids)) as [Hnd|]; [right|by left].
  assert (x ∈ ids) as Hxi.
  { destruct (decide (x ∈ ids)); [done|]. destruct Hd. by constructor. }
  destruct ids as [|y ids]; [by apply not_elem_of_nil in Hxi|]. simpl. f_equal.
  apply Forall_cons in Hx as [Hxy _]. apply (proj1 (compare_le_spec _ _)) in Hxy.
  apply elem_of_cons in Hxi as [->|Hxi]; [done|]. apply StronglySorted_inv in Hs as [_ Hs].
  rewrite Forall_forall in Hs. specialize (Hs x Hxi). apply (proj1 (compare_le_spec _ _)) in Hs. lia.
Qed.

Lemma sorted_output c r : Forall (output_stream c) (streamIds r) -> Forall (output_stream c) (sorted_ids r).
Proof. intros Hf. unfold sorted_ids. by rewrite merge_sort_Permutation. Qed.

Lemma sorted_not_nil r : streamIds r <> [] -> sorted_ids r <> [].
Proof.
  intros Hne E. apply Hne. apply Permutation_nil_r. rewrite <-E. symmetry. apply merge_sort_Permutation.
Qed.

Lemma prepare_well_formed c n r : well_formed c r -> prepare_metadata c n r = Some (inr (numbered n r)).
Proof.
  intros (Hm & Hne & Hnd & Hout & _). unfold prepare_metadata. rewrite Hm.
  destruct (streamIds r) as [|i ids] eqn:Ei; [done|]. rewrite <-Ei in *. change (merge_sort _ _) with (sorted_ids r).
  apply sorted_output in Hout as Hs. apply sorted_not_nil in Hne.
  rewrite check_ids_ok; [|done|unfold sorted_ids; by rewrite merge_sort_Permutation|].
  - change (0 <=? -1) with false. cbv iota. unfold numbered. by destruct (sorted_ids r).
  - intros Hin. rewrite Forall_forall in Hs. destruct (Hs _ Hin) as [Hneg _]. lia.
Qed.

Lemma prepare_malformed c n r : malformed c r -> prepare_metadata c n r = Some (inl (- EINVAL)).
Proof.
  unfold prepare_metadata. intros [->|[E|[Hout Hd]]]; [done|rewrite E; by destruct (meta_isEmpty _)|].
  destruct (meta_isEmpty _); [done|]. destruct (streamIds r) as [|i ids] eqn:Ei; [done|].
  rewrite <-Ei in *. change (merge_sort _ _) with (sorted_ids r).
  rewrite (check_ids_duplicate c (sorted_ids r)); [done|by apply sorted_output|apply StronglySorted_merge_sort; apply _|].
  left. intros Hnd. apply Hd. unfold sorted_ids in Hnd. by rewrite merge_sort_Permutation in Hnd.
Qed.

(** The tables the validation reads do not change while it runs. *)
Definition with_ids (ids : list Z) (w : W) : W := w <| dc := (dc w) <| current_request_ids_ := ids |> |>.

Lemma well_formed_ids ids w r : well_formed (dc (with_ids ids w)) r <-> well_formed (dc w) r.
Proof. done. Qed.

Fixpoint numbered_all (n : Z) (rs : list (Camera3Request M)) : list M :=
  match rs with [] => [] | r :: rs' => numbered n r :: numbered_all (n + 1) rs' end.

Lemma prepare_list_ok rs : forall n w, Forall (well_formed (dc w)) rs ->
  0 <= n -> n + Z.of_nat (length rs) < INT32_HALF ->
  exists ids, prepare_list n rs w = Some ((0, numbered_all n rs, n + Z.of_nat (length rs)), with_ids ids w).
Proof.
  induction rs as [|r rs IH]; intros n w Hr Hn Hlen; cbn [prepare_list length].
  - exists (current_request_ids_ (dc w)). unfold ret. do 2 f_equal; [simpl; f_equal; lia|].
    unfold with_ids. by destruct w as [? ? ? ? ? ? [] ?].
  - apply Forall_cons in Hr as [Hr Hrs]. unfold bind at 1, gets. rewrite (prepare_well_formed (dc w) n r Hr).
    unfold set_dc, bind, modify. cbn [length] in Hlen.
    assert (i32 (n + 1) = n + 1) as -> by (apply i32_small; unfold is_i32, INT32_HALF in *; lia).
    match goal with |- context [ prepare_list (n + 1) rs ?v ] =>
      change v with (with_ids (current_request_ids_ (dc w) ++ [n]) w) end.
    destruct (IH (n + 1) (with_ids (current_request_ids_ (dc w) ++ [n]) w)) as [ids ->]; [|lia..|].
    { eapply Forall_impl; [exact Hrs|]. intros x. by rewrite well_formed_ids. }
    exists ids. unfold ret. do 3 f_equal. lia.
Qed.

(** A malformed request after well-formed ones. *)
Lemma prepare_list_refused good bad rest : forall n w, Forall (well_formed (dc w)) good -> malformed (dc w) bad ->
  exists ids ms k, prepare_list n (good ++ bad :: rest) w = Some ((- EINVAL, ms, k), with_ids ids w).
Proof.
  induction good as [|r good IH]; intros n w Hg Hb; cbn [prepare_list app].
  - unfold bind, gets. rewrite (prepare_malformed (dc w) n bad Hb). unfold ret.
    exists (current_request_ids_ (dc w)), [], n. do 2 f_equal. unfold with_ids. by destruct w as [? ? ? ? ? ? [] ?].
  - apply Forall_cons in Hg as [Hr Hg]. unfold bind at 1, gets. rewrite (prepare_well_formed (dc w) n r Hr).
    unfold set_dc, bind, modify.
    destruct (IH (i32 (n + 1)) (with_ids (current_request_ids_ (dc w) ++ [n]) w)) as (ids & ms & k & E); [|done|].
    { eapply Forall_impl; [exact Hg|]. intros x. by rewrite well_formed_ids. }
    unfold with_ids in E at 1. rewrite E. unfold ret. by exists ids, (numbered n r :: ms), k.
Qed.

(** ** The configured client *)

(** The client is configured, as are its streams, which are idle. *)
Definition steady (w : W) : Prop :=
  (state_ (dc w) = STATE_CONFIGURED \/ state_ (dc w) = STATE_RUNNING) /\ reconfig_ (dc w) = false /\
  forall i p, kv_lookup i (streams_ (dc w)) = Some p ->
    exists s, heap w !! p = Some s /\ status_ s = STATUS_CONFIGURED.

(** The stream with an identifier. *)
Definition stream_of (w : W) (i : Z) : Z := default 0 (kv_lookup i (streams_ (dc w))).

(** The request the handler gets for [r], the [b]-th of a batch, under the
    number [n]. *)
Definition queued_as (w : W) (b n : Z) (r : Camera3Request M) : CaptureRequest M :=
  mkRequest (meta_erase ANDROID_REQUEST_OUTPUT_STREAMS (numbered n r)) (map (stream_of w) (sorted_ids r))
    (indeterminate_extras <| Adaptor.input := false |> <| burstId := b |> <| requestId := n |>) false.

Fixpoint queued_all (w : W) (b n : Z) (rs : list (Camera3Request M)) : list (CaptureRequest M) :=
  match rs with [] => [] | r :: rs' => queued_as w b n r :: queued_all w (b + 1) (n + 1) rs' end.

Lemma tag_neq (i j : nat) (x y : Z) :
  let tags := [ANDROID_SCALER_CROP_REGION; ANDROID_REQUEST_FRAME_COUNT; ANDROID_REQUEST_ID;
               ANDROID_REQUEST_INPUT_STREAMS; ANDROID_REQUEST_OUTPUT_STREAMS; ANDROID_SENSOR_TIMESTAMP] in
  tags !! i = Some x -> tags !! j = Some y -> i <> j -> (x =? y) = false.
Proof.
  intros tags Hi Hj Hne. apply Z.eqb_neq. intros ->. apply Hne.
  by apply (NoDup_lookup tags i j y tags_distinct).
Qed.

Lemma numbered_find n r tag : meta_find tag (numbered n r) =
  if tag =? ANDROID_REQUEST_ID then Some [n]
  else if tag =? ANDROID_REQUEST_OUTPUT_STREAMS then Some (sorted_ids r) else meta_find tag (rq_metadata r).
Proof. unfold numbered. by rewrite !meta_find_update. Qed.

Lemma request_streams_steady w ids : steady w -> Forall (output_stream (dc w)) ids ->
  request_streams ids w = Some ((0, map (stream_of w) ids), w).
Proof.
  intros (_ & _ & Hst). induction 1 as [|i ids (_ & _ & p & Hl & _) _ IH]; [done|].
  destruct (Hst i p Hl) as (s & Hs & Hc).
  assert (of_stream p IsConfigureActive w = Some (false, w)) as E1.
  { unfold of_stream, IsConfigureActive. by rewrite Hs, Hc. }
  assert (of_stream p IsPrepareActive w = Some (false, w)) as E2.
  { unfold of_stream, IsPrepareActive. by rewrite Hs, Hc. }
  cbn [request_streams]. unfold bind, gets. rewrite Hl, E1. unfold ret at 1. cbn [Z.eqb negb].
  rewrite E2, IH. unfold ret, stream_of. cbn [fst snd map]. by rewrite Hl.
Qed.

Lemma generate_steady w n r : steady w -> well_formed (dc w) r ->
  GenerateCaptureRequestLocked (numbered n r) w = Some ((0,
    mkRequest (meta_erase ANDROID_REQUEST_OUTPUT_STREAMS (numbered n r)) (map (stream_of w) (sorted_ids r))
      (indeterminate_extras <| Adaptor.input := false |>) false), w).
Proof.
  intros Hst (_ & Hne & _ & Hout & Hin). unfold GenerateCaptureRequestLocked. cbv zeta.
  assert (ensure_configured w = Some (0, w)) as Hen.
  { destruct Hst as (Hs & Hr & _). unfold ensure_configured, bind, gets. rewrite Hr. by destruct Hs as [-> | ->]. }
  unfold bind at 1. rewrite Hen. cbn [Z.eqb negb]. unfold meta_data. rewrite numbered_find.
  rewrite (tag_neq 4 2) by done. rewrite Z.eqb_refl. cbn [default id].
  apply sorted_not_nil in Hne. apply sorted_output in Hout.
  destruct (sorted_ids r) as [|i ids] eqn:E; [done|]. rewrite <-E in *.
  unfold bind at 1. rewrite request_streams_steady by done. cbn [fst snd Z.eqb negb].
  unfold request_input. rewrite meta_find_erase, numbered_find.
  rewrite (tag_neq 3 4), (tag_neq 3 2), Hin by done. done.
Qed.

Lemma request_list_steady w rs : forall b n, steady w -> Forall (well_formed (dc w)) rs ->
  GetRequestListLocked b (numbered_all n rs) w = Some ((0, queued_all w b n rs, []), w).
Proof.
  induction rs as [|r rs IH]; intros b n Hst Hrs; [done|]. apply Forall_cons in Hrs as [Hr Hrs].
  cbn [numbered_all GetRequestListLocked]. unfold bind at 1. rewrite generate_steady by done.
  cbn [fst snd Z.eqb negb]. unfold meta_data. rewrite numbered_find, Z.eqb_refl. cbn [default id].
  unfold bind. rewrite (IH (b + 1) (n + 1) Hst Hrs). done.
Qed.

Lemma queued_all_length w rs : forall b n, length (queued_all w b n rs) = length rs.
Proof. induction rs; intros b n; simpl; [done|]. by rewrite IHrs. Qed.

Lemma queued_all_same (w w' : W) rs : streams_ (dc w') = streams_ (dc w) ->
  forall b n, queued_all w' b n rs = queued_all w b n rs.
Proof.
  intros E. induction rs as [|r rs IH]; intros b n; [done|]. cbn [queued_all]. rewrite IH.
  unfold queued_as. f_equal. f_equal. apply map_ext. intros i. unfold stream_of. by rewrite E.
Qed.

(** C15. A batch of requests is accepted or refused as a whole.  On a
    configured client, well-formed requests are appended to the handler's
    queue in their order, under consecutive identifiers the first of which is
    returned, each with the streams it names; the frame number reported is
    that of the last of them.  What follows is a wait whose outcome does not
    matter.  A request without settings or streams, or with a stream twice,
    makes the batch fail with -EINVAL, and then nothing but the list of the
    identifiers of the last batch has changed: no request is queued, none of
    the batch's requests is handed to the HAL, and no identifier is used.  A
    client is steady that is configured and whose streams are. *)
Theorem batch_all_or_nothing (w : W) (rs : list (Camera3Request M)) (thread_ok : bool) (ws : list (W -> Z * W)) :
  steady w -> rs <> [] -> 0 <= next_request_id_ (dc w) ->
  next_request_id_ (dc w) + Z.of_nat (length rs) < INT32_HALF ->
  let n := next_request_id_ (dc w) in
  (Forall (well_formed (dc w)) rs ->
   exists w2, requests_ (rh w2) = requests_ (rh w) ++ queued_all w 0 n rs /\
     next_request_id_ (dc w2) = n + Z.of_nat (length rs) /\ heap w2 = heap w /\ events w2 = events w /\
     SubmitRequestList thread_ok rs false ws w =
       (let* waited := WaitUntilStateThenRelock true ws in
        ret (n, current_frame_number_ (rh w) + Z.of_nat (length (requests_ (rh w)) + length rs) - 1)) w2) /\
  (forall good bad rest, rs = good ++ bad :: rest -> Forall (well_formed (dc w)) good -> malformed (dc w) bad ->
   exists ids, SubmitRequestList thread_ok rs false ws w = Some ((- EINVAL, 0), with_ids ids w)).
Proof.
  intros Hst Hne Hn Hlen n.
  assert (forall Q : option (Z * Z * W) -> Prop,
    Q ((let* x := prepare_list n rs in
        let '(e, ms, k) := x in
        if negb (e =? 0) then ret (e, 0)
        else
          do* set_dc (fun c => c <| next_request_id_ := k |>) in
          let* q := AddRequestListLocked thread_ok ms false ws in
          if negb (fst q =? 0) then ret q else do* ret tt in ret (n, snd q)) (with_ids [] w)) ->
    Q (SubmitRequestList thread_ok rs false ws w)) as Hstart.
  { intros Q HQ. unfold SubmitRequestList. destruct rs as [|r rs']; [done|]. cbn [is_nil].
    unfold bind at 1, gets at 1, bind at 1, set_dc at 1, modify at 1, bind at 1, gets at 1.
    change (state_ (dc _)) with (state_ (dc w)). destruct Hst as [Hs _].
    destruct Hs as [-> | ->]; exact HQ. }
  split.
  - intros Hrs. destruct (prepare_list_ok rs n (with_ids [] w)) as [ids Ep]; [exact Hrs|done..|].
    set (w1 := with_ids ids w <| dc := (dc (with_ids ids w)) <| next_request_id_ := n + Z.of_nat (length rs) |> |>).
    pose proof (request_list_steady w1 rs 0 n Hst Hrs) as Eg. rewrite (queued_all_same w w1 rs eq_refl) in Eg.
    assert (is_nil (queued_all w 0 n rs) = false) as Hnil by (by destruct rs).
    set (q := QueueRequestList (queued_all w 0 n rs) w1).
    assert (exists w2, q = Some ((0, current_frame_number_ (rh w) + Z.of_nat (length (requests_ (rh w)) + length rs) - 1), w2) /\
      requests_ (rh w2) = requests_ (rh w) ++ queued_all w 0 n rs /\
      next_request_id_ (dc w2) = n + Z.of_nat (length rs) /\ heap w2 = heap w /\ events w2 = events w)
      as (w2 & Eq & Hq1 & Hq2 & Hq3 & Hq4).
    { unfold q, QueueRequestList, Resume, monitor_active, set_rh, set_mon, bind, gets, modify. simpl.
      rewrite length_app, queued_all_length. destruct (toggle_pause_state_ (rh w)); eexists; by split_and!. }
    exists w2. split_and!; [done..|]. apply Hstart. unfold bind at 1.
    change (with_ids ids (with_ids [] w)) with (with_ids ids w) in Ep. rewrite Ep. cbn [Z.eqb negb].
    unfold bind at 1, set_dc at 1, modify at 1. unfold bind at 1, AddRequestListLocked, bind at 1.
    match goal with |- context [ GetRequestListLocked 0 _ ?v ] => change v with w1 end. rewrite Eg.
    cbn [Z.eqb negb]. rewrite Hnil. cbn [is_nil Bool.eqb negb]. unfold bind at 1. fold q. rewrite Eq.
    cbn [fst snd Z.eqb negb]. unfold bind. by destruct (WaitUntilStateThenRelock true ws w2) as [[r w3]|].
  - intros good bad rest -> Hg Hb. apply Hstart.
    destruct (prepare_list_refused good bad rest n (with_ids [] w) Hg Hb) as (ids & ms & k & E).
    unfold bind at 1. rewrite E. by exists ids.
Qed.
End RequestBatch.

(** ** On the concrete HAL *)

Lemma demo_open_steady : steady demo_open_client.
Proof.
  split; [left; vm_compute; reflexivity|]. split; [vm_compute; reflexivity|]. intros i p.
  assert (streams_ (dc demo_open_client) = [(0, 0x1000)]) as -> by (vm_compute; reflexivity).
  simpl. destruct (i =? 0); [|done]. intros [= <-].
  eexists (default (st demo_new) (heap demo_open_client !! 0x1000)). split; vm_compute; reflexivity.
Qed.

Definition demo_camera_request : Camera3Request MetaMap := mkCamera3Request {[99 := [1]]} [0].

Lemma demo_request_well_formed : well_formed (dc demo_open_client) demo_camera_request.
Proof.
  split_and!; [vm_compute; reflexivity|done|apply NoDup_singleton| |vm_compute; reflexivity].
  apply Forall_singleton. split; [done|]. split; [by vm_compute|]. exists 0x1000. by vm_compute.
Qed.

Lemma batch_all_or_nothing_witness :
  exists w2 : World ListDevice MetaMap DemoHal, map (fun r => requestId (resultExtras r)) (requests_ (rh w2)) = [0; 1] /\
    next_request_id_ (dc w2) = 2.
Proof.
  destruct (batch_all_or_nothing (HU := plain_hal_usage) demo_open_client [demo_camera_request; demo_camera_request]
    true [] demo_open_steady ltac:(done) ltac:(vm_compute; done) ltac:(vm_compute; done)) as [Hok _].
  destruct Hok as (w2 & Hq & Hn & _).
  - apply Forall_cons_2; [apply demo_request_well_formed|]. apply Forall_cons_2; [apply demo_request_well_formed|constructor].
  - exists w2. rewrite Hq, Hn. split; vm_compute; reflexivity.
Defined.
