(* ===== verification/PendingTable.v ===== *)
(** * The table of pending requests

    The HAL's messages about a frame touch that frame's entry only; which
    entries are removed, and one kind that never is. *)

From S2P Require Import Prelude KeyedVector Monitor Memory Stream Adaptor Floats SmoothZoom World PrepareHandler RequestHandler DeviceState DeviceStreams DeviceRequests DeviceResults Client ClientInvariants ResultOrder.

Section PendingTable.
Context {D M H : Type} `{AllocDevice D} `{AllocUsage} `{HalPlatform} `{CameraMetadata M}
  `{MetadataTags} `{HC : CameraHal M H} {HU : HalUsage} `{ClientPlatform}.

Abbreviation W := (World D M H).

(** The frame a message is about; a malformed message is about none. *)
Inductive HalMessage :=
  | HalResult (res : camera3_capture_result M)
  | HalNotify (msg : option camera3_notify_msg).

Definition about (n : Z) (x : HalMessage) : bool :=
  match x with
  | HalResult res => res_frame_number res =? n
  | HalNotify (Some (CAMERA3_MSG_SHUTTER k _)) | HalNotify (Some (CAMERA3_MSG_ERROR k _)) => k =? n
  | HalNotify _ => false
  end.

Definition receive (x : HalMessage) : ST W unit :=
  match x with HalResult res => HandleCaptureResult res | HalNotify msg => Notify msg end.

Definition table (w : W) : kv (PendingRequest M) := pending_requests_vector_ (dc w).

(** The table is ordered, and has the entry [v] for frame [n]. *)
Definition entry (n : Z) (v : option (PendingRequest M)) (w : W) : Prop :=
  kv_ordered (table w) /\ kv_lookup n (table w) = v.

Lemma entry_same n v (w w' : W) : table w' = table w -> entry n v w -> entry n v w'.
Proof. unfold entry. by intros ->. Qed.

Section Keep.
Context (n : Z) (v : option (PendingRequest M)).

Lemma entry_dc f : (forall c, pending_requests_vector_ (f c) = pending_requests_vector_ c) ->
  preserves (entry n v) (set_dc f).
Proof. intros Hf. apply preserves_modify. intros w. apply entry_same, Hf. Qed.

Lemma entry_emit e : preserves (entry n v) (emit e).
Proof. apply preserves_modify. intros w. by apply entry_same. Qed.

Lemma entry_fail : preserves (entry n v) SetErrorState.
Proof. intros w. rewrite SetErrorState_eq. unfold error_world. destruct (can_fail _); [by apply entry_same|done]. Qed.

Lemma entry_stream {A} p (f : SE D -> A * SE D) : preserves (entry n v) (on_stream p f).
Proof. intros w Hw. unfold on_stream. destruct (heap w !! p); [|done]. by destruct (f _). Qed.

Lemma entry_pending k : preserves (entry n v) (pending k).
Proof. intros w Hw. unfold pending. by destruct (kv_lookup _ _). Qed.

Context (k : Z) (other : k <> n).

Lemma entry_edit f : preserves (entry n v) (edit k f).
Proof.
  unfold edit. apply preserves_bind; [apply entry_pending|]. intros r. apply preserves_modify. intros w [Ho Hl].
  split; [by apply kv_replace_ordered|]. unfold table. simpl. rewrite kv_lookup_replace.
  destruct (Z.eqb_spec n k); [congruence|done].
Qed.

Lemma entry_remove (w : W) f : pending_requests_vector_ f = kv_remove k (table w) ->
  entry n v w -> entry n v (w <| dc := f |>).
Proof.
  intros Hf [Ho Hl]. unfold entry, table. simpl. rewrite Hf. split; [by apply kv_remove_ordered|].
  rewrite kv_lookup_remove by done. destruct (Z.eqb_spec n k); [congruence|done].
Qed.
End Keep.
#[local] Hint Resolve entry_emit entry_fail entry_stream entry_pending entry_edit : preserves.

Ltac entry_step :=
  lazymatch goal with
  | |- preserves _ (set_dc _) =>
      first [ apply entry_dc; intros ?; repeat case_goal; done
            | apply preserves_modify; intros ?; by eapply entry_remove ]
  | _ => preserve_step
  end.

Ltac entry := repeat first [ solve [eauto 2 with preserves] | entry_step ].

Lemma entry_send n v m x c k : preserves (entry n v) (SendCaptureResult m x c k).
Proof. unfold SendCaptureResult, in_order. entry. Qed.

Lemma entry_return n v bs t k : k <> n -> preserves (entry n v) (ReturnOutputBuffers bs t k).
Proof. intros Hne. unfold ReturnOutputBuffers, return_output, report_buffer_error. entry. Qed.
#[local] Hint Resolve entry_send entry_return : preserves.

Lemma entry_remove_pending n v k : k <> n -> preserves (entry n v) (RemovePendingRequestLocked k).
Proof. intros Hne. unfold RemovePendingRequestLocked. entry. Qed.
#[local] Hint Resolve entry_remove_pending : preserves.

Lemma entry_take_result n v k res m : k <> n -> preserves (entry n v) (take_result k res m).
Proof. intros Hne. unfold take_result, take_meta, pass_on, return_input. cbv zeta. entry. Qed.
#[local] Hint Resolve entry_take_result : preserves.

Lemma entry_result n v res : res_frame_number res <> n -> preserves (entry n v) (HandleCaptureResult res).
Proof. intros Hne. unfold HandleCaptureResult, take_partial, HandlePartialResult. cbv zeta. entry. Qed.

Lemma entry_shutter n v k t : k <> n -> preserves (entry n v) (NotifyShutter k t).
Proof. intros Hne. unfold NotifyShutter, shutter_in_order. entry. Qed.

Lemma entry_error n v k e : k <> n -> preserves (entry n v) (NotifyError k e).
Proof. intros Hne. unfold NotifyError. cbv zeta. entry. Qed.

(** Messages about other frames leave the entry of a frame alone. *)
Lemma other_frames n v x : about n x = false -> preserves (entry n v) (receive x).
Proof.
  destruct x as [res|[[k t|k e|t]|]]; cbn [about receive Notify]; intros Hne; try apply entry_fail.
  - apply Z.eqb_neq in Hne. by apply entry_result.
  - apply Z.eqb_neq in Hne. by apply entry_shutter.
  - apply Z.eqb_neq in Hne. by apply entry_error.
Qed.

Fixpoint receive_all (xs : list HalMessage) : ST W unit :=
  match xs with [] => ret tt | x :: xs' => do* receive x in receive_all xs' end.

Lemma other_frames_all n v xs : forallb (fun x => negb (about n x)) xs = true -> preserves (entry n v) (receive_all xs).
Proof.
  induction xs as [|x xs IH]; cbn [forallb receive_all]; intros Hx; [apply preserves_ret|].
  apply andb_true_iff in Hx as [Hx Hxs]. apply preserves_bind; [by apply other_frames, negb_true_iff|].
  intros _. by apply IH.
Qed.

(** Frames do not interfere.  Whatever messages the HAL sends about other
    frames, valid or not, and whatever errors they lead to, the pending
    request of a frame stays exactly as it is. *)
Theorem frames_independent (n : Z) (r : PendingRequest M) (xs : list HalMessage) (w w' : W) :
  kv_ordered (table w) -> kv_lookup n (table w) = Some r ->
  forallb (fun x => negb (about n x)) xs = true -> receive_all xs w = Some (tt, w') ->
  kv_lookup n (table w') = Some r.
Proof.
  intros Ho Hl Hx E. pose proof (other_frames_all n (Some r) xs Hx w (conj Ho Hl)) as Hp.
  rewrite E in Hp. apply Hp.
Qed.

(** A request whose error comes last is never removed.  When the HAL has
    returned all the buffers of a request and only then reports that its
    metadata will not come, the request meets the condition for removal, but
    nothing looks at it: it is still pending after the report, and after any
    further messages about other frames. *)
Theorem late_error_stays_pending (n code : Z) (r : PendingRequest M) (xs : list HalMessage) (w : W) :
  kv_ordered (table w) -> kv_lookup n (table w) = Some r -> buffersRemaining r = 0 -> 2 <= code <= 4 ->
  forallb (fun x => negb (about n x)) xs = true ->
  exists w1 r1, receive (HalNotify (Some (CAMERA3_MSG_ERROR n code))) w = Some (tt, w1) /\
    kv_lookup n (table w1) = Some r1 /\ finished r1 = true /\
    forall w', receive_all xs w1 = Some (tt, w') -> kv_lookup n (table w') = Some r1.
Proof.
  intros Ho Hl Hb Hc Hx. set (r1 := r <| pr_status := code |>).
  assert (exists w1, receive (HalNotify (Some (CAMERA3_MSG_ERROR n code))) w = Some (tt, w1) /\
    table w1 = kv_replace n r1 (table w)) as (w1 & E & Ht).
  { cbn [receive Notify]. unfold NotifyError, edit, pending, set_dc, emit, bind, gets, modify, ret.
    unfold table in *.
    assert (code = 2 \/ code = 3 \/ code = 4) as [-> | [-> | ->]] by lia;
      match goal with |- context [ Z.to_nat ?z ] => let k := eval compute in (Z.to_nat z) in change (Z.to_nat z) with k end;
      cbn; rewrite Hl; cbn; rewrite Hl.
    all: destruct (flush_on_going_ (dc w)), (errorCb (client_cb_ (dc w))).
    all: by eexists. }
  assert (entry n (Some r1) w1) as [Ho1 Hl1].
  { unfold entry. rewrite Ht. split; [by apply kv_replace_ordered|by eapply kv_lookup_replaced]. }
  exists w1, r1. split_and!; [done|done| |].
  - unfold finished, r1. simpl. rewrite Hb. assert ((code =? 0) = false) as -> by lia. done.
  - intros w' E'. pose proof (other_frames_all n (Some r1) xs Hx w1 (conj Ho1 Hl1)) as Hp. rewrite E' in Hp. apply Hp.
Qed.
End PendingTable.

(** ** On the concrete HAL *)

Abbreviation DemoMessage := (@HalMessage MetaMap).

(** A client that waits for frames 0, whose buffers are back, and 1. *)
Definition demo_waiting : World ListDevice MetaMap DemoHal :=
  demo_open_client <| dc := (dc demo_open_client) <| pending_requests_vector_ :=
    [(0, PendingRequest_new 0 zero_extras); (1, PendingRequest_new 0 zero_extras)] |> |>.

Definition demo_other_messages : list DemoMessage :=
  [HalNotify (Some (CAMERA3_MSG_SHUTTER 1 100));
   HalResult (mkHalResult 1 (Some {[ANDROID_SENSOR_TIMESTAMP := [100]]}) [] None 2); HalNotify None].

Lemma frames_independent_witness :
  exists w', receive_all demo_other_messages demo_waiting = Some (tt, w') /\
    kv_lookup 0 (table w') = Some (PendingRequest_new 0 zero_extras) /\ kv_lookup 1 (table w') = None.
Proof.
  destruct (receive_all demo_other_messages demo_waiting) as [[[] w']|] eqn:E; [|by vm_compute in E].
  exists w'. split; [done|]. split.
  - refine (frames_independent 0 _ demo_other_messages demo_waiting w' _ _ eq_refl E); vm_compute; [by repeat constructor|done].
  - vm_compute in E. by injection E as <-.
Defined.

Lemma late_error_stays_pending_witness :
  exists (w1 : World ListDevice MetaMap DemoHal) r1, kv_lookup 0 (table w1) = Some r1 /\ finished r1 = true.
Proof.
  destruct (late_error_stays_pending 0 3 (PendingRequest_new 0 zero_extras) demo_other_messages demo_waiting)
    as (w1 & r1 & _ & Hl & Hf & _); try (vm_compute; done).
  { vm_compute. by repeat constructor. }
  by exists w1, r1.
Defined.
