(* ===== verification/Configuration.v ===== *)
(** * Configuration of the streams

    What [ConfigureStreamsLocked] leaves of the streams when the HAL accepts
    a configuration, and when it refuses one. *)

From S2P Require Import Prelude KeyedVector Monitor Memory Stream Adaptor Floats SmoothZoom World PrepareHandler RequestHandler DeviceState DeviceStreams Client ClientInvariants.

Section Configuration.
Context {D M H : Type} `{AllocDevice D} `{AllocUsage} `{HalPlatform} `{CameraMetadata M}
  `{MetadataTags} `{HC : CameraHal M H} {HU : HalUsage} `{ClientPlatform} `{!AllocDeviceLaws D}.

Abbreviation W := (World D M H).

(** A condition on the status of every stream of a list. *)
Definition all_status (P : Z -> Status -> Prop) (ss : list Z) (w : W) : Prop :=
  forall p s, p ∈ ss -> heap w !! p = Some s -> P p (status_ s).

(** ** Loops over the streams

    [P] holds of the streams before their turn, [Q] after it. *)
Section Loops.
Context (P Q : Z -> Status -> Prop).

Definition half (todo done : list Z) (w : W) : Prop :=
  all_status (fun p s => P p s \/ Q p s) todo w /\ all_status Q done w.

Lemma half_step {A} (f : SE D -> A * SE D) (w w' : W) p todo done a :
  half (p :: todo) done w -> on_stream p f w = Some (a, w') ->
  (forall x, heap w !! p = Some (st x) -> a = fst (f x) -> Q p (status_ (st (snd (f x))))) ->
  half todo (p :: done) w'.
Proof.
  intros [Ht Hd]. unfold on_stream. destruct (heap w !! p) as [s|] eqn:Hp; [|done].
  destruct (f _) as [b s'] eqn:E. intros [= <- <-] Hf.
  specialize (Hf (mkSE s (w_mon w) (w_dev w)) eq_refl). rewrite E in Hf. specialize (Hf eq_refl).
  assert (forall q t, <[p := st s']> (heap w) !! q = Some t -> t = st s' /\ q = p \/ q <> p /\ heap w !! q = Some t) as Hq.
  { intros q t. destruct (decide (q = p)) as [->|Hne].
    - rewrite lookup_insert_eq. intros [= <-]. by left.
    - rewrite lookup_insert_ne by congruence. by right. }
  split; intros q t Hin Hl; apply Hq in Hl as [[-> ->]|[Hne Hl]]; [by right| |done|].
  - apply (Ht q t); [by right|done].
  - apply elem_of_cons in Hin as [->|Hin]; [done|]. by apply (Hd q t).
Qed.

(** A stream that does not need its turn. *)
Lemma half_skip (w : W) p todo done : half (p :: todo) done w ->
  (forall s, heap w !! p = Some s -> Q p (status_ s)) -> half todo (p :: done) w.
Proof.
  intros [Ht Hd] Hp. split; intros q t Hin Hl; [apply (Ht q t); [by right|done]|].
  apply elem_of_cons in Hin as [->|Hin]; [by apply Hp|by apply (Hd q t)].
Qed.

Lemma half_status (w : W) p todo done s : half (p :: todo) done w -> heap w !! p = Some s ->
  P p (status_ s) \/ Q p (status_ s).
Proof. intros [Ht _] Hp. apply (Ht p s); [by left|done]. Qed.

Lemma half_end todo p done (w : W) : all_status Q (todo ++ p :: done) w -> all_status Q ((p :: todo) ++ done) w.
Proof. intros Hw q s Hq. apply Hw. set_solver. Qed.

Lemma half_begin todo :
  (forall p (x : SE D), P p (status_ (st x)) \/ Q p (status_ (st x)) -> fst (BeginConfigure x) = true ->
    Q p (status_ (st (snd (BeginConfigure x))))) ->
  forall done (w w' : W), half todo done w -> begin_all todo w = Some (true, w') -> all_status Q (todo ++ done) w'.
Proof.
  intros Hf. induction todo as [|p todo IH]; intros done w w' Hw; cbn [begin_all].
  { intros [= <-]. apply Hw. }
  unfold bind. destruct (on_stream p BeginConfigure w) as [[[|] w1]|] eqn:E; [|done..].
  intros E1. apply half_end. apply (IH (p :: done) w1); [|done].
  eapply half_step; [exact Hw|exact E|]. intros x Hx Ha. apply Hf; [|done]. by eapply half_status.
Qed.

Lemma half_finish (f : SE D -> Z * SE D) todo :
  (forall p x, P p (status_ (st x)) -> fst (f x) = 0 -> Q p (status_ (st (snd (f x))))) ->
  (forall p s, P p (status_ s) -> IsConfigureActive s = true) ->
  (forall p s, Q p (status_ s) -> IsConfigureActive s = false) ->
  forall done (w w' : W), half todo done w -> finish_all f todo w = Some (0, w') -> all_status Q (todo ++ done) w'.
Proof.
  intros Hf Hact Hin. induction todo as [|p todo IH]; intros done w w' Hw; cbn [finish_all].
  { intros [= <-]. apply Hw. }
  unfold bind at 1, of_stream. destruct (heap w !! p) as [s|] eqn:Hp; [|done].
  unfold bind. destruct (IsConfigureActive s) eqn:Ha.
  - destruct (on_stream p f w) as [[r w1]|] eqn:E; [|done]. destruct (Z.eqb_spec r 0) as [->|Hr]; cbn [negb]; [|intros [= ?]; congruence].
    intros E1. apply half_end. apply (IH (p :: done) w1); [|done].
    eapply half_step; [exact Hw|exact E|]. intros x Hx Hr. apply Hf; [|done].
    destruct (half_status w p todo done (st x) Hw Hx) as [|HQ]; [done|]. apply Hin in HQ. congruence.
  - unfold ret at 1. cbn [Z.eqb negb]. intros E1. apply half_end. apply (IH (p :: done) w); [|done].
    apply half_skip; [done|]. intros t Ht. assert (t = s) as -> by congruence.
    destruct (half_status w p todo done s Hw Ht) as [HP|]; [|done]. by rewrite (Hact p s HP) in Ha.
Qed.

End Loops.

(** ** The operations of a stream *)

Definition active (s : Status) : Prop := s = STATUS_CONFIG_ACTIVE \/ s = STATUS_RECONFIG_ACTIVE.

Lemma active_spec s : active (status_ s) <-> IsConfigureActive s = true.
Proof. unfold active, IsConfigureActive. rewrite orb_true_iff, !bool_decide_eq_true. done. Qed.

(** The status [BeginConfigure] takes a stream to. *)
Definition begun (s : Status) : Status :=
  match s with STATUS_INTIALIZED => STATUS_CONFIG_ACTIVE | STATUS_CONFIGURED => STATUS_RECONFIG_ACTIVE | _ => s end.

Lemma BeginConfigure_status (x : SE D) : fst (BeginConfigure x) = true ->
  status_ (st (snd (BeginConfigure x))) = begun (status_ (st x)) /\ active (begun (status_ (st x))).
Proof.
  unfold BeginConfigure, active. destruct (status_ (st x)) eqn:E; try done; intros _; simpl; rewrite ?E; auto.
Qed.

Lemma EndConfigure_status (x : SE D) : fst (Stream.EndConfigure x) = 0 ->
  status_ (st (snd (Stream.EndConfigure x))) = STATUS_CONFIGURED.
Proof.
  unfold Stream.EndConfigure, finish_configure. destruct (IsConfigureActive (st x)); [|done].
  destruct (AcquireMonitor (mon x)) as [i m]. destruct (Z.ltb_spec i 0); [simpl; lia|].
  case_goal; [done|]. destruct (ConfigureLocked _) as [r y]. destruct (Z.eqb_spec r 0); [done|]. simpl. congruence.
Qed.

Lemma AbortConfigure_status (x : SE D) : active (status_ (st x)) ->
  fst (AbortConfigure x) = 0 /\ forall s, begun s = status_ (st x) -> ~ active s ->
    status_ (st (snd (AbortConfigure x))) = s.
Proof.
  intros Ha. unfold AbortConfigure. rewrite (proj1 (active_spec _) Ha). split; [done|]. unfold active in *.
  intros s Hs Hn. simpl. destruct s; simpl in Hs; rewrite <-Hs in *; try done; try (by destruct Hn; auto);
    destruct Ha as [Ha|Ha]; done.
Qed.

(** A step that changes no status. *)
Lemma same_status {A} p (f : SE D -> A * SE D) P ss :
  (forall x, status_ (st (snd (f x))) = status_ (st x)) -> preserves (all_status P ss) (on_stream p f).
Proof.
  intros Hf w Hw. unfold on_stream. destruct (heap w !! p) as [s|] eqn:Hp; [|done].
  specialize (Hf (mkSE s (w_mon w) (w_dev w))). destruct (f _) as [a s']. simpl in Hf.
  intros q t Hq. simpl. destruct (decide (q = p)) as [->|Hne].
  - rewrite lookup_insert_eq. intros [= <-]. rewrite Hf. by apply (Hw p s).
  - rewrite lookup_insert_ne by congruence. by apply Hw.
Qed.

Lemma same_heap P ss (f : W -> W) : (forall w, heap (f w) = heap w) -> preserves (all_status P ss) (modify f).
Proof. intros Hf. apply preserves_modify. intros w Hw. unfold all_status. by rewrite Hf. Qed.

Lemma configure_hal_status P ss ss' : preserves (all_status P ss) (configure_hal ss').
Proof.
  unfold configure_hal. apply preserves_bind.
  { apply preserves_for_each. intros p _. by apply same_status. }
  intros _. apply preserves_bind.
  { induction ss' as [|p ss' IH]; cbn [hal_view]; [apply preserves_ret|]. apply preserves_bind.
    - intros w Hw. unfold of_stream. by destruct (heap w !! p).
    - intros x. apply preserves_bind; [done|]. intros; apply preserves_ret. }
  intros outs. apply preserves_bind; [apply preserves_gets|]. intros c. apply preserves_bind.
  { apply preserves_pure_step. intros w Hw. by destruct (hal_configure_streams _ _) as [[? ?] ?]. }
  intros [r l]. apply preserves_bind.
  { cbn [snd]. revert l. induction ss' as [|p ss' IH]; intros [|[u m] l]; cbn [hal_write]; try apply preserves_ret.
    apply preserves_bind; [by apply same_status|]. intros _. apply IH. }
  intros rest. apply preserves_bind; [by apply same_heap|]. intros _.
  apply preserves_bind; [|intros; apply preserves_ret]. apply preserves_for_each. intros p _. by apply same_status.
Qed.

Lemma delete_stream_status P ss p : preserves (all_status P ss) (delete_stream p).
Proof.
  intros w Hw. unfold delete_stream, on_stream, bind, modify. destruct (heap w !! p) as [s|] eqn:Hp; [|done].
  intros q t Hq. simpl. destruct (decide (q = p)) as [->|Hne]; [by rewrite lookup_delete_eq|].
  rewrite lookup_delete_ne, lookup_insert_ne by congruence. by apply Hw.
Qed.

Lemma delete_all gone : forall (w w' : W), for_each gone delete_stream w = Some (tt, w') ->
  forall p, p ∈ gone \/ heap w !! p = None -> heap w' !! p = None.
Proof.
  induction gone as [|q gone IH]; intros w w'; cbn [for_each].
  { intros [= <-] p [Hp|Hp]; [by apply not_elem_of_nil in Hp|done]. }
  unfold bind at 1. destruct (delete_stream q w) as [[[] w1]|] eqn:E; [|done]. intros E1 p Hp.
  apply (IH w1 w' E1). unfold delete_stream, on_stream, bind, modify in E.
  destruct (heap w !! q) as [s|] eqn:Hq; [|done]. injection E as <-. simpl.
  destruct (decide (p = q)) as [->|Hne]; [right; by rewrite lookup_delete_eq|].
  rewrite lookup_delete_ne, lookup_insert_ne by congruence.
  destruct Hp as [Hp|Hp]; [|by right]. apply elem_of_cons in Hp as [->|Hp]; [done|by left].
Qed.

(** ** Acceptance *)

Context {FL : FrameLimit} {HL : CameraHalLaws M H}.

(** The tables a configuration reads. *)
Definition tables (w0 w : W) : Prop :=
  streams_ (dc w) = streams_ (dc w0) /\ deleted_streams_ (dc w) = deleted_streams_ (dc w0).

#[local] Instance tables_frame (w0 : W) : FrameInvariant (tables w0).
Proof.
  apply frame_invariant.
  - intros w w' [_ _ Hc _] [E1 E2]. injection Hc as _ E3 E4 _. split; congruence.
  - intros A p f _ w Hw. unfold on_stream. destruct (heap w !! p); [|done]. by destruct (f _).
  - intros w Hw. rewrite SetErrorState_eq. unfold error_world. by destruct (can_fail _).
Qed.

Lemma values_lookup {V} i (v : V) (m : kv V) : kv_lookup i m = Some v -> v ∈ kv_values m.
Proof. intros Hl. apply kv_lookup_in in Hl. unfold kv_values. by apply (list_elem_of_fmap_2 snd _ (i, v)). Qed.

Definition clear_input_usage (w : W) : W :=
  w <| dc := (fun c => if has_input c then c <| input_stream_ := (input_stream_ c) <| in_usage := 0 |> |> else c) (dc w) |>.

(** The phases of a configuration that succeeds. *)
Lemma configure_phases (w w' : W) : reconfig_ (dc w) = true -> ConfigureStreamsLocked w = Some (0, w') ->
  exists w1 w2 w3, begin_all (stream_ptrs w) w = Some (true, w1) /\
    configure_hal (stream_ptrs w) (clear_input_usage w1) = Some (0, w2) /\
    finish_all Stream.EndConfigure (stream_ptrs w) w2 = Some (0, w3) /\
    (do* FinishConfiguration (dc_batch_size_ (dc w)) in
     do* set_dc (fun c => c <| reconfig_ := false |> <| frame_number_ := 0 |>) in
     do* InternalUpdateStatusLocked STATE_CONFIGURED in
     do* purge_deleted in ret 0) w3 = Some (0, w').
Proof.
  intros Hr. unfold ConfigureStreamsLocked. unfold bind at 1, gets at 1.
  destruct (negb _); [done|]. rewrite Hr. cbn [negb]. unfold bind at 1, gets at 1. set (ss := stream_ptrs w).
  unfold bind at 1. destruct (begin_all ss w) as [[[|] w1]|] eqn:E1; [|done..]. cbn [negb].
  destruct (negb (device_ (dc w))); [done|]. unfold bind at 1, set_dc at 1, modify at 1.
  unfold bind at 1. match goal with |- context [ configure_hal ss ?v ] => change v with (clear_input_usage w1) end.
  destruct (configure_hal ss (clear_input_usage w1)) as [[r w2]|] eqn:E2; [|done].
  destruct (Z.eqb_spec r (- EINVAL)).
  { unfold bind at 1. destruct (finish_all AbortConfigure ss w2) as [[r' w3]|]; [|done].
    destruct (Z.eqb_spec r' 0); cbn [negb]; [done|]. intros [= ? _]. congruence. }
  destruct (Z.eqb_spec r 0) as [->|]; cbn [negb]; [|intros [= ? _]; congruence].
  unfold bind at 1. destruct (finish_all _ ss w2) as [[r' w3]|] eqn:E3; [|done].
  destruct (Z.eqb_spec r' 0) as [->|]; cbn [negb]; [|intros [= ? _]; congruence].
  intros E. by exists w1, w2, w3.
Qed.

(** The streams are configured before the deleted ones are purged. *)
Lemma configured_before_purge (w w1 w2 w3 : W) :
  begin_all (stream_ptrs w) w = Some (true, w1) ->
  configure_hal (stream_ptrs w) (clear_input_usage w1) = Some (0, w2) ->
  finish_all Stream.EndConfigure (stream_ptrs w) w2 = Some (0, w3) ->
  all_status (fun _ s => s = STATUS_CONFIGURED) (stream_ptrs w) w3 /\ tables w w3.
Proof.
  set (ss := stream_ptrs w). intros E1 E2 E3.
  assert (all_status (fun _ => active) ss w1 /\ tables w w1) as [Ha1 Ht1].
  { split.
    - pose proof (half_begin (fun _ _ => True) (fun _ => active) ss) as Hb.
      specialize (Hb ltac:(by intros p x _ Hx; destruct (BeginConfigure_status x Hx) as [-> ?])
        [] w w1 ltac:(by split; [left|intros ? ? ?%not_elem_of_nil]) E1). by rewrite app_nil_r in Hb.
    - assert (tables w w) as Hw by done. pose proof (begin_all_inv _ ss w Hw) as Hp. by rewrite E1 in Hp. }
  assert (all_status (fun _ => active) ss w2 /\ tables w w2) as [Ha2 Ht2].
  { split.
    - assert (all_status (fun _ => active) ss (clear_input_usage w1)) as Hv by done.
      pose proof (configure_hal_status (fun _ => active) ss ss _ Hv) as Hp. by rewrite E2 in Hp.
    - assert (tables w (clear_input_usage w1)) as Hv.
      { unfold clear_input_usage. simpl. by destruct (has_input (dc w1)). }
      pose proof (configure_hal_inv _ ss _ Hv) as Hp. by rewrite E2 in Hp. }
  split.
  - pose proof (half_finish (fun _ => active) (fun _ s => s = STATUS_CONFIGURED) Stream.EndConfigure ss) as Hb.
    specialize (Hb ltac:(intros p x _ Hx; by apply EndConfigure_status)
      ltac:(intros p s; apply active_spec) ltac:(intros p s Hs; unfold IsConfigureActive; by rewrite Hs)
      [] w2 w3 ltac:(split; [intros p s Hp Hs; left; exact (Ha2 p s Hp Hs)|by intros ? ? ?%not_elem_of_nil]) E3).
    by rewrite app_nil_r in Hb.
  - pose proof (finish_all_inv _ _ ss EndConfigure_safe w2 Ht2) as Hp. by rewrite E3 in Hp.
Qed.

(** C18. A successful configuration configures every stream.  When
    [ConfigureStreamsLocked] reports success, the client is configured, every
    stream of its table is alive and configured, and the streams that waited
    for their deletion are gone. *)
Theorem configuration_success (w w' : W) :
  table_ok w -> reconfig_ (dc w) = true -> ConfigureStreamsLocked w = Some (0, w') ->
  state_ (dc w') = STATE_CONFIGURED /\ reconfig_ (dc w') = false /\ streams_ (dc w') = streams_ (dc w) /\
  (forall i p, kv_lookup i (streams_ (dc w)) = Some p ->
    exists s, heap w' !! p = Some s /\ status_ s = STATUS_CONFIGURED) /\
  deleted_streams_ (dc w') = [] /\ forall p, p ∈ deleted_streams_ (dc w) -> heap w' !! p = None.
Proof.
  intros Hok Hr E. pose proof (table_configure w Hok) as Hok'. rewrite E in Hok'.
  destruct (configure_phases w w' Hr E) as (w1 & w2 & w3 & E1 & E2 & E3 & E4). clear E Hr.
  destruct (configured_before_purge w w1 w2 w3 E1 E2 E3) as [Hall [Es Ed]]. clear E1 E2 E3.
  unfold FinishConfiguration, set_rh, InternalUpdateStatusLocked, purge_deleted, set_dc, bind, gets, modify, ret in E4.
  match type of E4 with context [ for_each ?l delete_stream ?v ] =>
    change l with (deleted_streams_ (dc w3)) in E4; set (w4 := v) in * end.
  destruct (for_each _ delete_stream w4) as [[[] w5]|] eqn:E5; [|done]. injection E4 as <-.
  assert (dc w5 = dc w4) as Edc.
  { assert (preserves (fun v : W => dc v = dc w4) (for_each (deleted_streams_ (dc w3)) delete_stream)) as Hp.
    { apply preserves_for_each. intros p _ v Hv. unfold delete_stream, on_stream, bind, modify.
      destruct (heap v !! p); [done|done]. }
    specialize (Hp w4 eq_refl). by rewrite E5 in Hp. }
  assert (all_status (fun _ s => s = STATUS_CONFIGURED) (stream_ptrs w) w5) as Hall'.
  { assert (all_status (fun _ s => s = STATUS_CONFIGURED) (stream_ptrs w) w4) as Hw4 by done.
    pose proof (preserves_for_each _ (deleted_streams_ (dc w3)) delete_stream
      (fun p _ => delete_stream_status (fun _ s => s = STATUS_CONFIGURED) (stream_ptrs w) p) w4 Hw4) as Hp. by rewrite E5 in Hp. }
  pose proof (delete_all _ _ _ E5) as Hgone. simpl in *. rewrite Edc in *. rewrite Ed in Hgone.
  split_and!; try done; [|intros p Hp; apply Hgone; by left].
  intros i p Hi. rewrite <-Es in Hi. destruct (tb_entry _ Hok' i p) as (_ & _ & s & Hs & _); [exact Hi|].
  exists s. split; [done|]. apply (Hall' p s); [|done]. rewrite Es in Hi. by eapply values_lookup.
Qed.

(** ** Refusal *)

Definition live (ss : list Z) (w : W) : Prop := forall p, p ∈ ss -> is_Some (heap w !! p).

Lemma on_stream_total {A} p (f : SE D -> A * SE D) (w : W) ss : live ss w -> p ∈ ss ->
  exists x a w', heap w !! p = Some (st x) /\ on_stream p f w = Some (a, w') /\ a = fst (f x) /\
    heap w' = <[p := st (snd (f x))]> (heap w) /\ live ss w' /\ hal w' = hal w /\ dc w' = dc w.
Proof.
  intros Hl Hp. destruct (Hl p Hp) as [s Hs]. unfold on_stream. rewrite Hs.
  exists (mkSE s (w_mon w) (w_dev w)). destruct (f _) as [a s']. eexists a, _. split_and!; try done.
  intros q Hq. simpl. destruct (decide (q = p)) as [->|]; [rewrite lookup_insert_eq; by eexists|].
  rewrite lookup_insert_ne by congruence. by apply Hl.
Qed.

Definition can_begin (s : Status) : Prop := s <> STATUS_ERROR /\ s <> STATUS_PREPARE_ACTIVE.

Lemma begin_all_total ss ss' : forall w : W, live ss w -> all_status (fun _ => can_begin) ss w ->
  (forall p, p ∈ ss' -> p ∈ ss) ->
  exists w1, begin_all ss' w = Some (true, w1) /\ live ss w1 /\ hal w1 = hal w /\ dc w1 = dc w.
Proof.
  induction ss' as [|p ss' IH]; intros w Hl Hg Hin; cbn [begin_all]; [by exists w|].
  assert (p ∈ ss) as Hp by (apply Hin; by left).
  destruct (on_stream_total p BeginConfigure w ss Hl Hp) as (x & a & w1 & Hx & E & -> & Hh & Hl1 & Eh & Ed).
  unfold bind. rewrite E. destruct (Hg p (st x) Hp Hx) as [Hg1 Hg2].
  assert (fst (BeginConfigure x) = true) as Ht by (unfold BeginConfigure; by destruct (status_ (st x))).
  destruct (BeginConfigure_status x Ht) as [Hb Ha]. rewrite Ht.
  destruct (IH w1) as (w2 & E2 & Hl2 & Eh2 & Ed2); [done| |intros q Hq; apply Hin; by right|].
  - intros q t Hq. rewrite Hh. destruct (decide (q = p)) as [->|].
    + rewrite lookup_insert_eq. intros [= <-]. rewrite Hb. destruct Ha as [-> | ->]; by split.
    + rewrite lookup_insert_ne by congruence. by apply Hg.
  - exists w2. by rewrite Eh2, Ed2.
Qed.

(** Aborting never fails. *)
Lemma abort_all_total ss ss' : forall w : W, live ss w -> (forall p, p ∈ ss' -> p ∈ ss) ->
  exists w1, finish_all AbortConfigure ss' w = Some (0, w1) /\ live ss w1 /\ dc w1 = dc w.
Proof.
  induction ss' as [|p ss' IH]; intros w Hl Hin; cbn [finish_all]; [by exists w|].
  assert (p ∈ ss) as Hp by (apply Hin; by left). assert (forall q, q ∈ ss' -> q ∈ ss) as Hin' by (intros q Hq; apply Hin; by right).
  destruct (on_stream_total p AbortConfigure w ss Hl Hp) as (x & a & w1 & Hx & E & -> & Hh & Hl1 & Eh & Ed).
  unfold bind, of_stream. rewrite Hx. destruct (IsConfigureActive (st x)) eqn:Ea.
  - rewrite E. assert (fst (AbortConfigure x) = 0) as -> by (unfold AbortConfigure; by rewrite Ea).
    cbn [Z.eqb negb]. destruct (IH w1 Hl1 Hin') as (w2 & E2 & Hl2 & Ed2). exists w2. by rewrite Ed2.
  - unfold ret at 1. cbn [Z.eqb negb]. by apply IH.
Qed.

Lemma for_each_stream_total (f : SE D -> unit * SE D) ss ss' : forall w : W, live ss w -> (forall p, p ∈ ss' -> p ∈ ss) ->
  exists w1, for_each ss' (fun p => on_stream p f) w = Some (tt, w1) /\ live ss w1 /\ hal w1 = hal w /\ dc w1 = dc w.
Proof.
  induction ss' as [|p ss' IH]; intros w Hl Hin; cbn [for_each]; [by exists w|].
  destruct (on_stream_total p f w ss Hl ltac:(apply Hin; by left)) as (x & [] & w1 & Hx & E & _ & Hh & Hl1 & Eh & Ed).
  unfold bind. rewrite E. destruct (IH w1 Hl1) as (w2 & E2 & Hl2 & Eh2 & Ed2); [intros q Hq; apply Hin; by right|].
  exists w2. by rewrite Eh2, Ed2.
Qed.

Lemma hal_view_total (w : W) ss : live ss w -> exists v, hal_view ss w = Some (v, w).
Proof.
  induction ss as [|p ss IH]; intros Hl; cbn [hal_view]; [by eexists|].
  destruct (Hl p ltac:(by left)) as [s Hs]. unfold bind at 1, of_stream. rewrite Hs.
  destruct IH as [v Ev]; [intros q Hq; apply Hl; by right|]. unfold bind. rewrite Ev. by eexists.
Qed.

Lemma hal_write_total ss ss' : forall (w : W) out, live ss w -> (forall p, p ∈ ss' -> p ∈ ss) ->
  exists rest w1, hal_write ss' out w = Some (rest, w1) /\ live ss w1 /\ dc w1 = dc w.
Proof.
  induction ss' as [|p ss' IH]; intros w out Hl Hin; cbn [hal_write]; [by exists out, w|].
  destruct out as [|[u m] out]; [by exists [], w|].
  match goal with |- context [ on_stream p ?f ] =>
    destruct (on_stream_total p f w ss Hl ltac:(apply Hin; by left)) as (x & [] & w1 & Hx & E & _ & Hh & Hl1 & Eh & Ed) end.
  unfold bind. rewrite E. destruct (IH w1 out Hl1) as (r & w2 & E2 & Hl2 & Ed2); [intros q Hq; apply Hin; by right|].
  exists r, w2. by rewrite Ed2.
Qed.

(** A HAL that answers [r] to every configuration. *)
Definition answers (r : Z) (h : H) : Prop := forall c, fst (fst (hal_configure_streams c h)) = r.

Lemma configure_hal_total r ss (w : W) : live ss w -> answers r (hal w) ->
  exists w1, configure_hal ss w = Some (r, w1) /\ live ss w1 /\ tables w w1 /\ device_ (dc w1) = device_ (dc w).
Proof.
  intros Hl Hr. unfold configure_hal.
  destruct (for_each_stream_total (set_usage usage_to_hal) ss ss w Hl) as (w1 & E1 & Hl1 & Eh1 & Ed1); [done|].
  unfold bind at 1. rewrite E1. destruct (hal_view_total w1 ss Hl1) as [v Ev]. unfold bind at 1. rewrite Ev.
  unfold bind at 1, gets at 1. cbv zeta. unfold bind at 1, on_hal, pure_step. rewrite Eh1.
  match goal with |- context [ hal_configure_streams ?c (hal w) ] => pose proof (Hr c) as Ha;
    destruct (hal_configure_streams c (hal w)) as [[r' l] h'] end. simpl in Ha. subst r'.
  cbv beta iota. cbn [fst snd]. unfold bind at 1.
  match goal with |- context [ hal_write ss l ?x ] => destruct (hal_write_total ss ss x l) as (rest & w2 & E2 & Hl2 & Ed2) end; [done..|].
  rewrite E2. unfold bind at 1, set_dc at 1, modify at 1. unfold bind at 1.
  match goal with |- context [ for_each ss ?f ?x ] =>
    destruct (for_each_stream_total (set_usage usage_from_hal) ss ss x) as (w3 & E3 & Hl3 & Eh3 & Ed3) end; [done..|].
  rewrite E3. exists w3. unfold tables. rewrite Ed3. simpl. rewrite Ed2. simpl. rewrite Ed1.
  destruct rest as [|[u m] rest]; [done|]. by destruct (has_input (dc w)).
Qed.

(** The statuses after a refusal: every stream is back where it was. *)
Definition status_was (f : Status -> Status) (w : W) (p : Z) (s : Status) : Prop :=
  forall t, heap w !! p = Some t -> s = f (status_ t).

Lemma begun_idem s : begun (begun s) = begun s.
Proof. by destruct s. Qed.

Lemma refusal_restores ss (w w1 w2 w3 : W) :
  live ss w -> all_status (fun _ s => s = STATUS_INTIALIZED \/ s = STATUS_CONFIGURED) ss w ->
  begin_all ss w = Some (true, w1) -> configure_hal ss (clear_input_usage w1) = Some (- EINVAL, w2) ->
  finish_all AbortConfigure ss w2 = Some (0, w3) -> all_status (status_was id w) ss w3.
Proof.
  intros Hl Hall E1 E2 E3.
  assert (all_status (status_was begun w) ss w1) as Ha1.
  { rewrite <-(app_nil_r ss). eapply (half_begin (status_was id w) (status_was begun w) ss); [|split|exact E1].
    - intros p x Hx Hb t Ht. destruct (BeginConfigure_status x Hb) as [-> _].
      destruct Hx as [-> | ->]; [done|exact Ht|by rewrite begun_idem|exact Ht].
    - intros p s Hp Hs. left. intros t Ht. simpl. congruence.
    - by intros ? ? ?%not_elem_of_nil. }
  assert (all_status (status_was begun w) ss w2) as Ha2.
  { assert (all_status (status_was begun w) ss (clear_input_usage w1)) as Hv by done.
    pose proof (configure_hal_status (status_was begun w) ss ss _ Hv) as Hp. by rewrite E2 in Hp. }
  set (P := fun (p : Z) (s : Status) => exists t, heap w !! p = Some t /\ s = begun (status_ t) /\
    (status_ t = STATUS_INTIALIZED \/ status_ t = STATUS_CONFIGURED)).
  set (Q := fun (p : Z) (s : Status) => exists t, heap w !! p = Some t /\ s = status_ t /\ ~ active s).
  assert (all_status Q ss w3) as Ha3.
  { rewrite <-(app_nil_r ss). eapply (half_finish P Q AbortConfigure ss); [..|exact E3].
    - intros p x (t & Ht & Hx & Hs) _. exists t.
      assert (~ active (status_ t)) as Hn by (destruct Hs as [-> | ->]; intros [?|?]; done).
      assert (active (status_ (st x))) as Hax by (rewrite Hx; unfold active; destruct Hs as [-> | ->]; simpl; auto).
      destruct (AbortConfigure_status x Hax) as [_ Hb]. by rewrite (Hb (status_ t)).
    - intros p s (t & _ & Hs & Ht). apply active_spec. rewrite Hs. unfold active. destruct Ht as [-> | ->]; simpl; auto.
    - intros p s (t & _ & _ & Hn). apply not_true_iff_false. by rewrite <-active_spec.
    - split; [|by intros ? ? ?%not_elem_of_nil]. intros p s Hp Hs. left. destruct (Hl p Hp) as [t Ht].
      exists t. split_and!; [done|by apply (Ha2 p s)|by apply (Hall p t)]. }
  intros p s Hp Hs t Ht. destruct (Ha3 p s Hp Hs) as (t' & Ht' & -> & _). simpl. congruence.
Qed.

(** C19. A configuration the HAL refuses changes nothing but the state.  When
    the HAL answers -EINVAL, [ConfigureStreamsLocked] reports it, the client
    is unconfigured and will configure again, its table and the streams that
    wait for their deletion are what they were, and every stream is back in
    the status it had. *)
Theorem configuration_refused (w : W) :
  table_ok w -> (state_ (dc w) = STATE_NOT_CONFIGURED \/ state_ (dc w) = STATE_CONFIGURED) ->
  reconfig_ (dc w) = true -> device_ (dc w) = true -> answers (- EINVAL) (hal w) ->
  all_status (fun _ s => s = STATUS_INTIALIZED \/ s = STATUS_CONFIGURED) (stream_ptrs w) w ->
  exists w', ConfigureStreamsLocked w = Some (- EINVAL, w') /\
    state_ (dc w') = STATE_NOT_CONFIGURED /\ reconfig_ (dc w') = true /\ tables w w' /\
    forall i p s, kv_lookup i (streams_ (dc w)) = Some p -> heap w !! p = Some s ->
      exists s', heap w' !! p = Some s' /\ status_ s' = status_ s.
Proof.
  intros Hok Hst Hr Hd Ha Hall. set (ss := stream_ptrs w) in *.
  assert (live ss w) as Hl.
  { intros p Hp. unfold ss, stream_ptrs, kv_values in Hp. apply list_elem_of_fmap in Hp as ([i q] & -> & Hin).
    apply (kv_in_lookup i q _ (tb_ordered _ Hok)) in Hin. destruct (tb_entry _ Hok i q Hin) as (_ & _ & s & Hs & _). by exists s. }
  destruct (begin_all_total ss ss w Hl) as (w1 & E1 & Hl1 & Eh1 & Ed1); [|done|].
  { intros p s Hp Hs. destruct (Hall p s Hp Hs) as [-> | ->]; by split. }
  set (v1 := clear_input_usage w1).
  assert (tables w v1) as Ht1.
  { unfold tables, v1, clear_input_usage. simpl. rewrite Ed1. by destruct (has_input (dc w)). }
  destruct (configure_hal_total (- EINVAL) ss v1) as (w2 & E2 & Hl2 & Ht2 & Hd2); [done|by unfold v1; simpl; rewrite Eh1|].
  destruct (abort_all_total ss ss w2 Hl2) as (w3 & E3 & Hl3 & Ed3); [done|].
  pose proof (refusal_restores ss w w1 w2 w3 Hl Hall E1 E2 E3) as Hback.
  eexists. split.
  - unfold ConfigureStreamsLocked. unfold bind at 1, gets at 1.
    assert (bool_decide (state_ (dc w) = STATE_NOT_CONFIGURED) || bool_decide (state_ (dc w) = STATE_CONFIGURED) = true) as ->
      by (by destruct Hst as [-> | ->]).
    rewrite Hr. cbn [negb]. unfold bind at 1, gets at 1. fold ss. unfold bind at 1. rewrite E1. cbn [negb].
    rewrite Hd. cbn [negb]. unfold bind at 1, set_dc at 1, modify at 1. unfold bind at 1.
    match goal with |- context [ configure_hal ss ?v ] => change v with v1 end. rewrite E2, Z.eqb_refl.
    unfold bind at 1. rewrite E3. reflexivity.
  - unfold tables in *. simpl. rewrite Ed3. destruct Ht1 as [Ht1a Ht1b], Ht2 as [Ht2a Ht2b].
    split_and!; [done..|congruence|congruence|]. intros i p s Hi Hs. simpl.
    assert (p ∈ ss) as Hp by (by eapply values_lookup). destruct (Hl3 p Hp) as [s' Hs'].
    exists s'. split; [done|]. by apply (Hback p s' Hp Hs').
Qed.
End Configuration.

(** ** On the concrete HAL *)

(** A client with a stream that is still to be configured. *)
Definition demo_create_ops : list DemoOp := take 3 demo_open_ops.

Definition demo_created : World ListDevice MetaMap DemoHal :=
  default demo_new_client (demo_run demo_create_ops demo_new_client).

Lemma demo_created_run : demo_run demo_create_ops demo_new_client = Some demo_created.
Proof. vm_compute. reflexivity. Qed.

Lemma demo_created_table_ok : table_ok demo_created.
Proof.
  pose proof (demo_run_effect demo_create_ops demo_new_client demo_created
    (Forall_take _ _ _ demo_ops_fine) demo_created_run) as He.
  apply (effect_invariant (HU := plain_hal_usage) table_ok _ _ He). apply demo_new_table_ok.
Qed.

Lemma configuration_success_witness :
  exists w' s, ConfigureStreamsLocked (HU := plain_hal_usage) demo_created = Some (0, w') /\
    heap w' !! 0x1000 = Some s /\ status_ s = STATUS_CONFIGURED.
Proof.
  destruct (ConfigureStreamsLocked (HU := plain_hal_usage) demo_created) as [[r w']|] eqn:E; [|by vm_compute in E].
  assert (r = 0) as -> by (vm_compute in E; by injection E as <- _).
  destruct (configuration_success (HU := plain_hal_usage) demo_created w' demo_created_table_ok
    ltac:(vm_compute; reflexivity) E) as (_ & _ & _ & Hs & _).
  destruct (Hs 0 0x1000 ltac:(vm_compute; reflexivity)) as (s & Hl & Hc).
  exists w', s. split; [reflexivity|]. split; [exact Hl|exact Hc].
Defined.

(** A HAL that refuses every configuration. *)
Definition refusing_hal : CameraHal MetaMap DemoHal := {|
  get_number_of_cameras := get_number_of_cameras (M := MetaMap); hal_module_init := hal_module_init (M := MetaMap);
  get_camera_info := get_camera_info; hal_open := hal_open (M := MetaMap); hal_version := hal_version (M := MetaMap);
  hal_initialize := hal_initialize (M := MetaMap); hal_close := hal_close (M := MetaMap);
  hal_configure_streams := fun c h => (- EINVAL, [], h);
  construct_default_request_settings := construct_default_request_settings;
  process_capture_request := process_capture_request; hal_flush := hal_flush (M := MetaMap)
|}.

Lemma configuration_refused_witness :
  exists w', ConfigureStreamsLocked (H5 := refusing_hal) (HU := plain_hal_usage) demo_created = Some (- EINVAL, w') /\
    state_ (dc w') = STATE_NOT_CONFIGURED.
Proof.
  destruct (configuration_refused (HC := refusing_hal) (HU := plain_hal_usage) demo_created
    demo_created_table_ok ltac:(left; vm_compute; reflexivity) ltac:(vm_compute; reflexivity)
    ltac:(vm_compute; reflexivity) ltac:(done)) as (w' & E & Hs & _).
  - assert (stream_ptrs demo_created = [0x1000]) as -> by (vm_compute; reflexivity).
    intros p s ->%list_elem_of_singleton Hs. left. vm_compute in Hs. by injection Hs as <-.
  - exists w'. split; [exact E|exact Hs].
Defined.
