(* ===== verification/StreamLifetime.v ===== *)
(** * The lifetime of streams and of the camera

    Where the client loses track of a stream or of the camera: deletion
    without caching, and a second initialisation. *)

From S2P Require Import Prelude KeyedVector Monitor Memory Stream Adaptor Floats SmoothZoom World PrepareHandler RequestHandler DeviceState DeviceStreams DeviceRequests DeviceResults Client ClientInvariants.

Section StreamLifetime.
Context {D M H : Type} `{AllocDevice D} `{AllocUsage} `{HalPlatform} `{CameraMetadata M}
  `{MetadataTags} `{HC : CameraHal M H} {HU : HalUsage} `{ClientPlatform} `{!AllocDeviceLaws D}
  {FL : FrameLimit} {HL : CameraHalLaws M H}.

Abbreviation W := (World D M H).
Abbreviation is_started := (@started D M H).

(** A stream that is alive, in no table, and will not be deleted. *)
Definition leaked (p : Z) (w : W) : Prop := table_ok w /\ detached p w.

#[local] Instance leaked_frame p : FrameInvariant (leaked p).
Proof. apply frame_and; apply _. Qed.

Lemma leaked_same p (w w' : W) : table_ok w' -> heap w' !! p = heap w !! p ->
  deleted_streams_ (dc w') = deleted_streams_ (dc w) -> streams_ (dc w') = streams_ (dc w) ->
  leaked p w -> leaked p w'.
Proof. intros Ht Eh Ed Es [_ (Hl & Hd & Hn)]. split; [done|]. unfold detached. by rewrite Eh, Ed, Es. Qed.

Lemma leaked_table {A} p (m : ST W A) : preserves table_ok m ->
  (forall w, leaked p w -> match m w with Some (_, w') => detached p w' | None => True end) -> preserves (leaked p) m.
Proof.
  intros Ht Hd w Hw. specialize (Ht w (proj1 Hw)). specialize (Hd w Hw). destruct (m w) as [[a w']|]; [|done]. by split.
Qed.

Lemma detached_dc p (f : Camera3DeviceClient M -> Camera3DeviceClient M) :
  (forall c, streams_ (f c) = streams_ c /\ deleted_streams_ (f c) = deleted_streams_ c) ->
  preserves (fun w : W => detached p w) (set_dc f).
Proof.
  intros Hf. apply preserves_modify. intros w. unfold detached. simpl. destruct (Hf (dc w)) as [-> ->]. done.
Qed.

Lemma leaked_status p s : s <> STATE_NOT_INITIALIZED -> preserves (leaked p) (InternalUpdateStatusLocked s).
Proof.
  intros Hs. apply leaked_table; [by apply table_status|]. intros w Hw.
  pose proof (detached_dc p (fun c => c <| state_ := s |> <| current_state_updates_ := current_state_updates_ c ++ [s] |>)) as Hd.
  apply Hd; [done|apply Hw].
Qed.

Lemma leaked_purge p : preserves (leaked p) purge_deleted.
Proof.
  apply leaked_table; [apply table_purge|]. intros w Hw. unfold purge_deleted, bind at 1, gets.
  set (gone := deleted_streams_ (dc w)).
  assert (p ∉ gone) as Hp by (by destruct Hw as [_ (_ & Hd & _)]).
  assert (forall l, p ∉ l -> preserves (fun v : W => is_Some (heap v !! p) /\ dc v = dc w) (for_each l delete_stream)) as Hloop.
  { intros l Hl. apply preserves_for_each. intros q Hq v [Hs Hdc]. unfold delete_stream, on_stream, bind, modify.
    destruct (heap v !! q) as [s|]; [|done]. destruct (Camera3Stream_delete _). simpl. split; [|done].
    assert (q <> p) by (by intros ->). by rewrite lookup_delete_ne, lookup_insert_ne. }
  specialize (Hloop gone Hp w). unfold bind. destruct (for_each gone delete_stream w) as [[u w1]|]; [|done].
  destruct Hloop as [Hs Hdc]; [by split; [apply Hw|]|]. unfold detached. simpl. rewrite Hdc.
  split_and!; [done|by apply not_elem_of_nil|apply Hw].
Qed.

Lemma leaked_configure p : preserves (leaked p) ConfigureStreamsLocked.
Proof. apply configure_inv; [apply _|intros; by apply leaked_status|apply leaked_purge]. Qed.

Lemma leaked_add p q blob cfg :
  hoare (fun w => leaked p w /\ started w) (add_stream q blob cfg) (fun _ => leaked p).
Proof.
  intros w [[Ht Hd] Hs]. pose proof (table_add q blob cfg w (conj Ht Hs)) as Ht'.
  unfold add_stream in *. destruct (heap w !! q) eqn:Hq; [done|]. destruct (q =? 0); [done|].
  split; [done|]. destruct Hd as ([s Hp] & Hdel & Hn). assert (p <> q) by (intros ->; congruence).
  unfold detached. simpl. rewrite lookup_insert_ne by congruence. split_and!; [by exists s|done|].
  intros i. rewrite kv_lookup_add. destruct (i =? _); [congruence|apply Hn].
Qed.

(** A stream [q] on its way out is another one. *)
Definition other (p q : Z) (w : W) : Prop := detached q w /\ q <> p.

#[local] Instance other_frame p q : FrameInvariant (other p q).
Proof.
  apply frame_and; [apply _|]. apply frame_invariant; [done| |].
  - intros A r f _ w Hw. by destruct (on_stream r f w) as [[a w']|].
  - intros w Hw. by destruct (SetErrorState w) as [[a w']|].
Qed.

Lemma leaked_delete p i b ws1 ws2 : wait_keeps (leaked p) ws1 -> wait_keeps (leaked p) ws2 ->
  preserves (leaked p) (DeleteStream i b ws1 ws2).
Proof.
  apply (delete_inv (leaked p) (other p)); [| |apply leaked_configure].
  - intros w j q [Ht (Hs & Hd & Hn)] Hj. destruct (table_remove w j q Ht Hj) as [Ht' Hq].
    assert (q <> p) by (intros ->; by apply (Hn j)). split; [|by split]. split; [done|].
    split_and!; [done|done|]. intros k. simpl. rewrite kv_lookup_remove by apply Ht.
    destruct (k =? j); [done|apply Hn].
  - intros q w [[Ht (Hs & Hd & Hn)] [Hq Hne]]. pose proof (table_push q w (conj Ht Hq)) as Ht'.
    split; [exact Ht'|]. split_and!; [done| |done]. simpl. rewrite elem_of_app, list_elem_of_singleton. by intros [?|?].
Qed.

Lemma leaked_dc p f : (forall c, streams_ (f c) = streams_ c /\ deleted_streams_ (f c) = deleted_streams_ c) ->
  preserves (fun w : W => table_ok w) (set_dc f) -> preserves (leaked p) (set_dc f).
Proof. intros Hf Ht. apply leaked_table; [done|]. intros w [_ Hd]. by apply detached_dc. Qed.

Lemma leaked_input p b wd h f ws1 ws2 : wait_keeps (leaked p) ws1 -> wait_keeps (leaked p) ws2 ->
  preserves (leaked p) (CreateInputStream b wd h f ws1 ws2).
Proof.
  intros Hw1 Hw2. unfold CreateInputStream. case_goal; [apply preserves_ret|].
  apply preserves_bind; [apply preserves_gets|]. intros c. case_goal; [apply preserves_ret|].
  apply preserves_bind; [by apply pause_to_add_inv; [apply _|]|]. intros [e|a]; [apply preserves_ret|].
  apply preserves_bind.
  { apply leaked_dc; [done|]. apply table_dc; intros c'; (split_and!; [done..|simpl; lia]). }
  intros _. apply preserves_bind; [apply continue_inv; [apply _|apply leaked_configure|done]|]. intros r.
  case_goal; [apply preserves_ret|apply preserves_gets].
Qed.

Ltac detached_step :=
  lazymatch goal with
  | |- preserves _ (set_dc (learn_device _)) => apply detached_dc; intros ?; unfold learn_device; repeat case_goal; done
  | |- preserves _ (set_dc _) => by apply detached_dc
  | |- preserves _ abandon => apply abandon_inv, _
  | |- preserves _ close_device => apply close_device_inv, _
  | |- preserves _ (on_hal _) => apply preserves_hal, _
  | |- preserves _ (modify _) => by apply preserves_modify
  | |- preserves _ SetErrorState => apply inv_fail
  | |- preserves _ (RequestHandler.Initialize _) => apply handler_Initialize_inv, _
  | _ => preserve_step
  end.

#[local] Instance leaked_invariant p : ClientInvariant (leaked p).
Proof.
  split.
  - apply _.
  - apply notify_inv; [apply _|intros; by apply leaked_status].
  - apply leaked_configure.
  - intros l t a. apply leaked_table; [apply table_initialize|]. intros w [_ Hd]. revert w Hd.
    match goal with |- forall w, _ -> match ?m w with _ => _ end => change (preserves (detached p) m) end.
    unfold DeviceStreams.Initialize. repeat detached_step.
  - intros r i. apply leaked_table; [apply table_open|]. intros w [_ Hd]. revert w Hd.
    match goal with |- forall w, _ -> match ?m w with _ => _ end => change (preserves (detached p) m) end.
    unfold OpenCamera. repeat detached_step.
  - apply create_inv; [apply _|intros; apply leaked_add|apply leaked_dc; [done|apply table_next]|apply leaked_configure].
  - intros. by apply leaked_input.
  - intros. by apply leaked_delete.
Qed.

(** ** Deletion without caching *)

Lemma retired_uncached_leaks (w : W) i p ws2 r w1 :
  table_ok w -> kv_lookup i (streams_ (dc w)) = Some p -> wait_keeps (leaked p) ws2 ->
  (exists j q, kv_lookup j (streams_ (dc w)) = Some q /\ j <> i) ->
  retire_stream p false ws2 (w <| dc := (dc w) <| streams_ := kv_remove i (streams_ (dc w)) |> |>) = Some (r, w1) ->
  leaked p w1.
Proof.
  intros Ht Hi Hws (j & q & Hj & Hne). pose proof (table_remove w i p Ht Hi) as Hl. cbv zeta in Hl.
  set (v := w <| dc := _ |>) in *. unfold retire_stream, bind at 1, gets at 1.
  assert (match streams_ (dc v) with [] => true | _ => false end = false) as ->.
  { unfold v. simpl. destruct (kv_remove i (streams_ (dc w))) eqn:E; [|done].
    pose proof (kv_lookup_remove j i (streams_ (dc w)) (tb_ordered _ Ht)) as Hk. rewrite E in Hk.
    destruct (Z.eqb_spec j i); [done|]. simpl in Hk. congruence. }
  intros E. match type of E with ?m v = _ => assert (preserves (leaked p) m) as Hp end.
  { apply preserves_bind; [apply preserves_ret|]. intros ?.
    apply preserves_bind; [apply inv_stream, Close_safe|]. intros ?. cbn [andb negb].
    apply preserves_bind; [by apply preserves_dc; [apply _|]|]. intros ?.
    apply preserves_bind; [apply leaked_configure|]. intros e. case_goal; [apply preserves_ret|].
    apply preserves_bind; [by apply InternalResume_inv; [apply _|]|]. intros; apply preserves_ret. }
  specialize (Hp v Hl). rewrite E in Hp. exact Hp.
Qed.

(** A client that is not running is paused at once. *)
Lemma pause_idle_client (w : W) : is_running (state_ (dc w)) = false ->
  exists v, InternalPauseAndWaitLocked [] w = Some (0, v) /\ heap v = heap w /\
    streams_ (dc v) = streams_ (dc w) /\ input_stream_ (dc v) = input_stream_ (dc w) /\
    rh v = (rh w) <| toggle_pause_state_ := true |> /\ pause_state_notify_ (dc v) = true.
Proof.
  intros Hr. unfold InternalPauseAndWaitLocked, WaitUntilStateThenRelock, TogglePause, wait_state, set_rh, set_dc,
    bind, gets, modify, ret.
  destruct (state_listeners_ (dc w) =? 0) eqn:En; cbn; rewrite En; cbn; rewrite Hr; cbn; eexists; (split; [reflexivity|done]).
Qed.

(** Deleting a stream without caching leaks it.  When an idle client
    deletes one of several streams with [cache] off, the stream leaves the
    table and is closed, but it is neither deleted nor put on the list of
    streams to delete: it stays allocated in every continuation, and no
    table of the client leads to it any more. *)
Theorem uncached_delete_leaks_stream (w w1 w2 : W) (i p : Z) (ws2 : list (W -> Z * W)) :
  table_ok w -> (state_ (dc w) = STATE_NOT_CONFIGURED \/ state_ (dc w) = STATE_CONFIGURED) ->
  kv_lookup i (streams_ (dc w)) = Some p -> i <> in_stream_id (input_stream_ (dc w)) ->
  (exists j q, kv_lookup j (streams_ (dc w)) = Some q /\ j <> i) -> wait_keeps (leaked p) ws2 ->
  DeleteStream i false [] ws2 w = Some (0, w1) -> effect w1 w2 ->
  is_Some (heap w2 !! p) /\ (forall j, kv_lookup j (streams_ (dc w2)) <> Some p) /\
  p ∉ deleted_streams_ (dc w2).
Proof.
  intros Ht Hst Hi Hin Hoth Hws E He.
  assert (leaked p w1) as Hl.
  { assert (is_running (state_ (dc w)) = false) as Hr by (by destruct Hst as [-> | ->]).
    destruct (pause_idle_client w Hr) as (v & Ev & Eh & Es & Ei & _).
    pose proof (InternalPauseAndWait_inv table_ok [] (Forall_nil_2 _) w Ht) as Htv. rewrite Ev in Htv.
    rewrite <-Es in Hi, Hoth. rewrite <-Ei in Hin.
    assert (delete_known i false ws2 v = Some (0, w1)) as E'.
    { unfold DeleteStream, bind, gets in E. destruct Hst as [Hst|Hst]; rewrite Hst, Ev in E; exact E. }
    unfold delete_known, bind at 1, gets at 1 in E'.
    rewrite (proj2 (Z.eqb_neq _ _) Hin), Hi in E'. unfold bind at 1 in E'.
    pose proof (IsStreamActive_pure p v) as Hp. destruct (RequestHandler.IsStreamActive p v) as [[[|] v']|]; [done| |done].
    subst v'. unfold bind at 1, set_dc at 1, modify at 1 in E'. by eapply (retired_uncached_leaks v i p ws2). }
  apply (effect_invariant (leaked p)) in He as [Hinv _]. destruct (Hinv Hl) as (_ & Hs & Hd & Hn). done.
Qed.

Lemma retire_keeps_pause p b (w : W) : match streams_ (dc w) with [] => True | _ => b = true end ->
  match retire_stream p b [] w with Some (_, w') => rh w' = rh w | None => True end.
Proof.
  intros Hb. assert (preserves (fun v : W => rh v = rh w) (on_stream p Close)) as Hs.
  { intros v Hv. unfold on_stream. destruct (heap v !! p); [|done]. by destruct (Close _). }
  unfold retire_stream, bind at 1, gets at 1.
  destruct (streams_ (dc w)) as [|x l]; [|subst b];
    unfold bind at 1, set_dc at 1, modify at 1, ret at 1; unfold bind at 1;
    match goal with |- context [ on_stream p Close ?v ] => specialize (Hs v eq_refl);
      destruct (on_stream p Close v) as [[r w1]|]; [|done] end; cbn [negb andb]; rewrite ?andb_false_r; exact Hs.
Qed.

(** Deleting the last stream without caching stops the client.  The
    request handler is paused for the deletion and not resumed: requests that
    are queued afterwards are not taken, and the HAL is handed nothing. *)
Theorem delete_last_stream_stays_paused (w w1 w2 : W) (i p : Z) (rs : list (CaptureRequest M)) (last : Z)
    (gw : list (W -> Z * W)) (bw : Z -> SE D -> Z * SE D) (g : Gaps) :
  (state_ (dc w) = STATE_NOT_CONFIGURED \/ state_ (dc w) = STATE_CONFIGURED) ->
  streams_ (dc w) = [(i, p)] -> i <> in_stream_id (input_stream_ (dc w)) ->
  rh_batch_size_ (rh w) = 1 ->
  DeleteStream i false [] [] w = Some (0, w1) -> QueueRequestList rs w1 = Some ((0, last), w2) ->
  requests_ (rh w2) = requests_ (rh w) ++ rs /\
  exists w3, RequestHandler.ThreadLoop false [] gw bw g w2 = Some (true, w3) /\
    requests_ (rh w3) = requests_ (rh w2) /\ events w3 = events w2.
Proof.
  intros Hst Hs Hin Hbatch E Eq.
  assert (is_running (state_ (dc w)) = false) as Hr by (by destruct Hst as [-> | ->]).
  destruct (pause_idle_client w Hr) as (v & Ev & _ & Es & Ei & Hp & _).
  assert (rh w1 = (rh w) <| toggle_pause_state_ := true |>) as Hrh.
  { assert (delete_known i false [] v = Some (0, w1)) as E'.
    { unfold DeleteStream, bind, gets in E. destruct Hst as [Hst|Hst]; rewrite Hst, Ev in E; exact E. }
    unfold delete_known, bind at 1, gets at 1 in E'. rewrite Es, Ei, Hs in E'. simpl in E'.
    rewrite (proj2 (Z.eqb_neq _ _) Hin), Z.eqb_refl in E'. unfold bind at 1 in E'.
    pose proof (IsStreamActive_pure p v) as Hpure.
    destruct (RequestHandler.IsStreamActive p v) as [[[|] v']|]; [done| |done]. subst v'.
    unfold bind at 1, set_dc at 1, modify at 1 in E'.
    match type of E' with retire_stream p false [] ?x = _ => pose proof (retire_keeps_pause p false x) as Hk end.
    rewrite E' in Hk. simpl in Hk. rewrite Es, Hs in Hk. simpl in Hk. rewrite Z.eqb_refl in Hk. by rewrite Hk. }
  clear E Ev Hp. unfold QueueRequestList, Resume, set_rh, bind, gets, modify, ret in Eq. simpl in Eq.
  rewrite Hrh in Eq. simpl in Eq. injection Eq as _ <-. split; [done|].
  unfold RequestHandler.ThreadLoop, WaitOnPause, bind at 1, bind at 1, gets at 1. simpl.
  unfold bind, gets. simpl. rewrite Hbatch. rewrite Z.mod_1_r. cbn [Z.eqb negb].
  unfold pause_idle, monitor_idle, set_rh, set_mon, bind, gets, modify, ret. simpl.
  destruct (paused_state_ (rh w)); by eexists.
Qed.

(** A second initialisation breaks an open client.  It is refused, but
    on its way out forgets the module and the device of the first one, which
    is not closed, and leaves the client's state alone: the client takes
    itself to be open, its next flush dereferences the null device, and so
    does the first use of a request template. *)
Theorem second_initialize_forgets_device (w : W) (l : Z * bool) (t : Z) (a : bool) :
  state_ (dc w) <> STATE_NOT_INITIALIZED ->
  exists w1, DeviceStreams.Initialize l t a w = Some (- ENOSYS, w1) /\ state_ (dc w1) = state_ (dc w) /\
    hal w1 = hal w /\ device_ (dc w1) = false /\
    (requestId (resultExtras (current_request_ (rh w))) = -1 -> forall during, Flush [] during w1 = None) /\
    forall i, (state_ (dc w) = STATE_CONFIGURED \/ state_ (dc w) = STATE_RUNNING) -> 0 <= i < CAMERA3_TEMPLATE_COUNT ->
      meta_isEmpty (default meta_empty (request_templates_ (dc w) !! i)) = true ->
      CreateDefaultRequest i w1 = None.
Proof.
  intros Hs. unfold DeviceStreams.Initialize, bind at 1, gets at 1. rewrite bool_decide_eq_false_2 by done. cbn [negb].
  unfold abandon, set_dc, bind, modify, ret. eexists. split; [reflexivity|]. split_and!; try done.
  - intros Hid during. unfold Flush, set_dc, bind at 1, modify at 1, bind at 1. unfold RequestHandler.Clear.
    unfold set_rh, bind at 1, modify at 1, bind at 1, gets at 1, bind at 1, gets at 1. simpl.
    set (loop := if rh_error_cb (rh w) then _ else _).
    assert (preserves (fun v : W => requestId (resultExtras (current_request_ (rh v))) = -1 /\ device_ (dc v) = false) loop) as Hp.
    { unfold loop. case_goal; [|apply preserves_ret]. apply preserves_for_each. intros q _ v Hv. exact Hv. }
    unfold bind at 1. match goal with |- context [ loop ?v ] => specialize (Hp v (conj Hid eq_refl)); destruct (loop v) as [[u v1]|] end; [|done].
    destruct Hp as [Hp1 Hp2]. unfold bind, gets, modify. simpl. rewrite Hp1. simpl. by rewrite Hp2.
  - intros i Hst Hi Hm. unfold CreateDefaultRequest, bind, gets. simpl.
    assert ((i <? 0) || (CAMERA3_TEMPLATE_COUNT <=? i) = false) as -> by lia. rewrite Hm. cbn [negb].
    by destruct Hst as [-> | ->].
Qed.
End StreamLifetime.

(** ** On the concrete HAL *)

(** A client with two streams. *)
Definition demo_two_ops : list DemoOp :=
  take 3 demo_open_ops ++ [COpCreateStream 0x2000 demo_params [] []; COpEndConfigure StreamConfiguration_default].

Definition demo_two_streams : World ListDevice MetaMap DemoHal :=
  default demo_new_client (demo_run demo_two_ops demo_new_client).

Lemma demo_two_run : demo_run demo_two_ops demo_new_client = Some demo_two_streams.
Proof. vm_compute. reflexivity. Qed.

Lemma demo_two_table_ok : table_ok demo_two_streams.
Proof.
  assert (Forall (fun op : DemoOp => op_fine op /\ op_waits op = []) demo_two_ops) as Hf.
  { unfold demo_two_ops. apply Forall_app. split; [apply Forall_take, demo_ops_fine|].
    repeat apply Forall_cons_2; [..|apply Forall_nil_2]; by split. }
  pose proof (demo_run_effect demo_two_ops demo_new_client demo_two_streams Hf demo_two_run) as He.
  apply (effect_invariant (HU := plain_hal_usage) table_ok _ _ He). apply demo_new_table_ok.
Qed.

Definition demo_deleted : World ListDevice MetaMap DemoHal :=
  match DeleteStream (HU := plain_hal_usage) 0 false [] [] demo_two_streams with
  | Some (_, w) => w
  | None => demo_two_streams
  end.

Lemma demo_deleted_eq : DeleteStream (HU := plain_hal_usage) 0 false [] [] demo_two_streams = Some (0, demo_deleted).
Proof. vm_compute. reflexivity. Qed.

Lemma uncached_delete_leaks_stream_witness :
  is_Some (heap demo_deleted !! 0x1000) /\ streams_ (dc demo_deleted) = [(1, 0x2000)] /\
  deleted_streams_ (dc demo_deleted) = [].
Proof.
  split; [|split; vm_compute; reflexivity].
  refine (proj1 (uncached_delete_leaks_stream (HU := plain_hal_usage) demo_two_streams demo_deleted demo_deleted 0 0x1000 []
    demo_two_table_ok _ _ _ _ (Forall_nil_2 _) demo_deleted_eq (effect_done _))).
  - right. vm_compute. reflexivity.
  - vm_compute. reflexivity.
  - vm_compute. discriminate.
  - exists 1, 0x2000. split; vm_compute; [reflexivity|discriminate].
Defined.

Definition demo_last_deleted : World ListDevice MetaMap DemoHal :=
  match DeleteStream (HU := plain_hal_usage) 0 false [] [] demo_open_client with
  | Some (_, w) => w
  | None => demo_open_client
  end.

Lemma delete_last_stream_stays_paused_witness :
  exists w2 w3 : World ListDevice MetaMap DemoHal, QueueRequestList [demo_request 3 []] demo_last_deleted = Some ((0, 0), w2) /\
    requests_ (rh w3) = requests_ (rh w2) /\ events w3 = events w2.
Proof.
  destruct (QueueRequestList [demo_request 3 []] demo_last_deleted) as [[[r l] w2]|] eqn:E; [|by vm_compute in E].
  assert (r = 0 /\ l = 0) as [-> ->] by (vm_compute in E; injection E as <- <- _; done).
  destruct (delete_last_stream_stays_paused (HU := plain_hal_usage) demo_open_client demo_last_deleted w2 0 0x1000
    [demo_request 3 []] 0 [] (fun _ x => (0, x)) no_gaps ltac:(right; vm_compute; reflexivity) ltac:(vm_compute; reflexivity)
    ltac:(vm_compute; discriminate) ltac:(vm_compute; reflexivity) ltac:(vm_compute; reflexivity) E)
    as (_ & w3 & _ & Hq & He).
  exists w2, w3. split; [reflexivity|]. split; [exact Hq|exact He].
Defined.

(** An open client without a request in flight. *)
Definition demo_no_request : World ListDevice MetaMap DemoHal :=
  demo_open_client <| rh := (rh demo_open_client)
    <| current_request_ := ClearCaptureRequest (current_request_ (rh demo_open_client)) |> |>.

Lemma second_initialize_forgets_device_witness :
  exists w1, DeviceStreams.Initialize (0, true) 0 true demo_no_request = Some (- ENOSYS, w1) /\
    state_ (dc w1) = STATE_CONFIGURED /\ Flush [] (fun w => w) w1 = None.
Proof.
  destruct (second_initialize_forgets_device demo_no_request (0, true) 0 true ltac:(vm_compute; discriminate))
    as (w1 & E & Hs & _ & _ & Hf & _).
  exists w1. split; [exact E|]. split; [rewrite Hs; vm_compute; reflexivity|].
  apply Hf. vm_compute. reflexivity.
Defined.
