(* ===== verification/CameraModes.v ===== *)
(** * Operation modes and JPEG sizes

    The operation mode the client asks the HAL for, which carries the sensor
    mode that the feature flags force, and the largest JPEG size a camera
    offers. *)

From S2P Require Import Prelude KeyedVector Monitor Memory Stream Adaptor Floats SmoothZoom World PrepareHandler RequestHandler DeviceState DeviceStreams ClientInvariants.

Section CameraModes.
Context {D M H : Type} `{AllocDevice D} `{AllocUsage} `{HalPlatform} `{CameraMetadata M}
  `{MetadataTags} `{HC : CameraHal M H} {HU : HalUsage} `{ClientPlatform}.

Abbreviation W := (World D M H).

(** ** Forced sensor modes *)

(** The flags that force sensor mode [idx], besides the flags [low]. *)
Definition forcing (low idx : Z) : Z := Z.lor (Z.lor low CamFeatureFlag_kForceSensorMode) (FORCE_SENSOR_MODE_DATA idx).

(** The sensor mode an operation mode carries, with the bit that enables it. *)
Definition sensor_mode (mode : Z) : Z := Z.shiftr mode 16.

(** The platform's modes do not overlap the sensor mode. *)
Definition low_modes : Prop :=
  0 <= CAMERA3_STREAM_CONFIGURATION_NORMAL_MODE < 2 ^ 16 /\
  0 <= CAMERA3_STREAM_CONFIGURATION_CONSTRAINED_HIGH_SPEED_MODE < 2 ^ 16.

Lemma shiftr_low a : 0 <= a < 2 ^ 16 -> Z.shiftr a 16 = 0.
Proof. intros Ha. rewrite Z.shiftr_div_pow2 by done. by apply Z.div_small. Qed.

(** The sensor mode of forcing flags is that of their upper half. *)
Lemma forced_mode (c : Camera3DeviceClient M) : DISABLE_OP_MODES = true -> low_modes ->
  Z.land (cam_feature_flags_ c) CamFeatureFlag_kForceSensorMode <> 0 ->
  sensor_mode (GetOpMode c) = Z.lor (Z.land 0xFF (Z.shiftr (cam_feature_flags_ c) 16)) 0x100.
Proof.
  intros Hd [Hn Hh] Hf. unfold GetOpMode. rewrite Hd. cbn [negb]. cbv zeta.
  apply Z.eqb_neq in Hf. rewrite Hf. cbn [negb]. unfold sensor_mode. rewrite !Z.shiftr_lor, Z.shiftr_land.
  change (Z.shiftr FORCE_SENSOR_MODE_MASK 16) with 0xFF. change (Z.shiftr FORCE_SENSORMODE_ENABLE 16) with 0x100.
  match goal with |- Z.lor (Z.shiftr ?m 16) _ = _ => assert (Z.shiftr m 16 = 0) as -> end; [|done].
  repeat (match goal with |- context [ if ?b then _ else _ ] => destruct b end; rewrite ?Z.shiftr_lor);
    rewrite ?(shiftr_low _ Hn), ?(shiftr_low _ Hh); done.
Qed.

Lemma forcing_upper low idx : 0 <= low < 8 -> 0 <= idx < 255 ->
  Z.shiftr (forcing low idx) 16 = idx + 1 /\ Z.land (forcing low idx) CamFeatureFlag_kForceSensorMode <> 0.
Proof.
  intros Hl Hi. unfold forcing, FORCE_SENSOR_MODE_DATA. split.
  - rewrite !Z.shiftr_lor, shiftr_low by lia. change (Z.shiftr CamFeatureFlag_kForceSensorMode 16) with 0.
    rewrite !Z.lor_0_l, Z.shiftr_shiftl_l by lia. by rewrite Z.shiftl_0_r.
  - intros E. assert (Z.testbit (Z.land (Z.lor (Z.lor low CamFeatureFlag_kForceSensorMode) (Z.shiftl (idx + 1) 16))
      CamFeatureFlag_kForceSensorMode) 3 = true) as Ht.
    { rewrite Z.land_spec, !Z.lor_spec. change (Z.testbit CamFeatureFlag_kForceSensorMode 3) with true.
      by rewrite orb_true_r. }
    by rewrite E in Ht.
Qed.

Lemma land_byte a : 0 <= a < 256 -> Z.land 0xFF a = a.
Proof.
  intros Ha. rewrite Z.land_comm. change 0xFF with (Z.ones 8). rewrite Z.land_ones by done. by apply Z.mod_small.
Qed.

(** Nothing in a configuration changes the flags. *)
Section Flags.
Context (v : Z).
Let K (w : W) : Prop := cam_feature_flags_ (dc w) = v.

Lemma flags_stream {A} p (f : SE D -> A * SE D) : preserves K (on_stream p f).
Proof. intros w Hw. unfold on_stream. destruct (heap w !! p); [|done]. by destruct (f _). Qed.

Lemma flags_of_stream {A} p (f : Camera3Stream -> A) : preserves K (of_stream p f).
Proof. intros w Hw. unfold of_stream. by destruct (heap w !! p). Qed.

Lemma flags_begin ss : preserves K (begin_all ss).
Proof.
  induction ss as [|p ss IH]; cbn [begin_all]; [apply preserves_ret|].
  apply preserves_bind; [apply flags_stream|]. intros [|]; [done|apply preserves_ret].
Qed.

Lemma flags_finish f ss : preserves K (finish_all f ss).
Proof.
  induction ss as [|p ss IH]; cbn [finish_all]; [apply preserves_ret|].
  apply preserves_bind; [apply flags_of_stream|]. intros a.
  apply preserves_bind; [destruct a; [apply flags_stream|apply preserves_ret]|]. intros r.
  case_goal; [apply preserves_ret|done].
Qed.

Lemma flags_view ss : preserves K (hal_view ss).
Proof.
  induction ss as [|p ss IH]; cbn [hal_view]; [apply preserves_ret|].
  apply preserves_bind; [apply flags_of_stream|]. intros x.
  apply preserves_bind; [done|]. intros; apply preserves_ret.
Qed.

Lemma flags_write ss : forall out, preserves K (hal_write ss out).
Proof.
  induction ss as [|p ss IH]; intros [|[u m] out]; cbn [hal_write]; try apply preserves_ret.
  apply preserves_bind; [apply flags_stream|]. intros _. apply IH.
Qed.

Lemma flags_dc f : (forall c, cam_feature_flags_ (f c) = cam_feature_flags_ c) -> preserves K (set_dc f).
Proof. intros Hf. apply preserves_modify. intros w Hw. unfold K in *. simpl. by rewrite Hf. Qed.

Lemma flags_delete p : preserves K (delete_stream p).
Proof.
  unfold delete_stream. apply preserves_bind; [apply flags_stream|]. intros _. by apply preserves_modify.
Qed.

Lemma flags_configure : preserves K ConfigureStreamsLocked.
Proof.
  unfold ConfigureStreamsLocked, configure_hal, FinishConfiguration, InternalUpdateStatusLocked, purge_deleted. cbv zeta.
  repeat lazymatch goal with
    | |- preserves _ (begin_all _) => apply flags_begin
    | |- preserves _ (finish_all _ _) => apply flags_finish
    | |- preserves _ (hal_view _) => apply flags_view
    | |- preserves _ (hal_write _ _) => apply flags_write
    | |- preserves _ (on_stream _ _) => apply flags_stream
    | |- preserves _ (delete_stream _) => apply flags_delete
    | |- preserves _ (set_dc _) => apply flags_dc; intros ?; repeat case_goal; done
    | |- preserves _ (set_rh _) => by intros w Hw
    | |- preserves _ (on_hal _) => apply preserves_pure_step; intros w Hw; by destruct (hal_configure_streams _ _) as [[? ?] ?]
    | _ => preserve_step
    end.
Qed.
End Flags.

(** The feature flags a configuration brings. *)
Definition flags_of (sc : StreamConfiguration) : Z :=
  match params sc with Some p => sp_cam_feature_flags p | None => 0 end.

Lemma configure_flags sc (w w' : W) r : ConfigureStreams sc w = Some (r, w') ->
  cam_feature_flags_ (dc w') = Z.lor (cam_feature_flags_ (dc w)) (flags_of sc).
Proof.
  unfold ConfigureStreams. unfold bind at 1, set_dc at 1, modify at 1. unfold bind at 1.
  match goal with |- context [ ConfigureStreamsLocked ?v ] =>
    pose proof (flags_configure (cam_feature_flags_ (dc v)) v eq_refl) as Hk;
    destruct (ConfigureStreamsLocked v) as [[r' w1]|]; [|done] end.
  intros [= _ <-]. rewrite Hk. unfold flags_of. simpl. destruct USE_FPS_IDX, (params sc); simpl; by rewrite ?Z.lor_0_r.
Qed.

(** A forced sensor mode reaches the HAL, but only the first one does.
    A configuration of a fresh client that forces sensor mode [idx] makes the
    operation mode carry [idx + 1] in its upper half, with the enabling bit,
    whatever other features are on.  The flags of later configurations are
    joined to the earlier ones: after a second configuration that forces
    [idx'], the operation mode carries the bitwise or of the two, another
    sensor mode in general. *)
Theorem forced_sensor_mode (w w1 w2 : W) (sc sc' : StreamConfiguration) (r r' low low' idx idx' : Z) :
  DISABLE_OP_MODES = true -> low_modes -> cam_feature_flags_ (dc w) = CamFeatureFlag_kNone ->
  0 <= low < 8 -> 0 <= low' < 8 -> 0 <= idx < 255 -> 0 <= idx' < 255 ->
  flags_of sc = forcing low idx -> flags_of sc' = forcing low' idx' ->
  ConfigureStreams sc w = Some (r, w1) -> ConfigureStreams sc' w1 = Some (r', w2) ->
  sensor_mode (GetOpMode (dc w1)) = Z.lor (idx + 1) 0x100 /\
  sensor_mode (GetOpMode (dc w2)) = Z.lor (Z.lor (idx + 1) (idx' + 1)) 0x100.
Proof.
  intros Hd Hlow H0' Hl Hl' Hi Hi' Hs Hs' E1 E2.
  apply configure_flags in E1, E2. rewrite H0', Hs in E1. change CamFeatureFlag_kNone with 0 in E1. rewrite Z.lor_0_l in E1.
  rewrite E1, Hs' in E2.
  destruct (forcing_upper low idx Hl Hi) as [Hu Hf]. destruct (forcing_upper low' idx' Hl' Hi') as [Hu' Hf'].
  split.
  - rewrite forced_mode by (by rewrite ?E1). rewrite E1, Hu, land_byte by lia. done.
  - assert (Z.land (cam_feature_flags_ (dc w2)) CamFeatureFlag_kForceSensorMode <> 0) as Hf2.
    { rewrite E2, Z.land_lor_distr_l. intros E. apply Z.lor_eq_0_iff in E as [E _]. done. }
    rewrite forced_mode by done. rewrite E2, Z.shiftr_lor, Hu, Hu', Z.land_lor_distr_r, !land_byte by lia. done.
Qed.

(** ** JPEG sizes *)

(** The sizes of the JPEG output streams among the configurations. *)
Fixpoint blob_sizes (cfgs : list Z) : list (Z * Z) :=
  match cfgs with
  | f :: w :: h :: dir :: rest =>
      if (dir =? STREAM_CONFIGURATIONS_OUTPUT) && (f =? HAL_PIXEL_FORMAT_BLOB)
      then (w, h) :: blob_sizes rest else blob_sizes rest
  | _ => []
  end.

Definition area (s : Z * Z) : Z := fst s * snd s.

(** Sizes whose area is an [int]. *)
Definition int_area (s : Z * Z) : Prop := 0 <= area s < INT32_HALF.

Lemma max_blob_spec n : forall cfgs w h, (length cfgs <= n)%nat -> int_area (w, h) -> Forall int_area (blob_sizes cfgs) ->
  let m := max_blob cfgs w h in
  (m = (w, h) \/ m ∈ blob_sizes cfgs) /\ area (w, h) <= area m /\ Forall (fun s => area s <= area m) (blob_sizes cfgs).
Proof.
  induction n as [|n IH]; intros cfgs w h Hn Hw Hall; [destruct cfgs; [|simpl in Hn; lia]|];
    [by split_and!; [left|simpl; lia|constructor]|].
  destruct cfgs as [|f [|cw [|ch [|dir rest]]]]; try (by split_and!; [left|simpl; lia|constructor]).
  cbn [max_blob blob_sizes] in *. simpl in Hn.
  destruct ((dir =? STREAM_CONFIGURATIONS_OUTPUT) && (f =? HAL_PIXEL_FORMAT_BLOB)); cbn [andb].
  2: { apply IH; [idtac|done..]. lia. }
  apply Forall_cons in Hall as [Hc Hall]. unfold int_area, area in Hc, Hw. cbn [fst snd] in Hc, Hw.
  rewrite !i32_small by (unfold is_i32, INT32_HALF in *; lia).
  destruct (Z.ltb_spec (w * h) (cw * ch)) as [Hlt|Hge].
  - destruct (IH rest cw ch ltac:(lia) Hc Hall) as (Hm & Ha & Hf). split_and!.
    + right. destruct Hm as [-> | Hm]; [by left|by right].
    + unfold area in *. simpl in *. lia.
    + by constructor.
  - destruct (IH rest w h ltac:(lia) Hw Hall) as (Hm & Ha & Hf). split_and!; [|done|].
    + destruct Hm as [-> | Hm]; [by left|right; by right].
    + constructor; [unfold area in *; simpl in *; lia|done].
Qed.

(** [QueryMaxBlobSize] gives the largest JPEG size of the camera: one
    of its JPEG output sizes, none of which has a larger area, or 0 by 0 when
    there is none. *)
Theorem QueryMaxBlobSize_max (info : M) :
  let cfgs := meta_data ANDROID_SCALER_AVAILABLE_STREAM_CONFIGURATIONS info in
  Z.of_nat (length cfgs) mod 4 = 0 -> Forall int_area (blob_sizes cfgs) ->
  (QueryMaxBlobSize info = (0, 0) \/ QueryMaxBlobSize info ∈ blob_sizes cfgs) /\
  Forall (fun s => area s <= area (QueryMaxBlobSize info)) (blob_sizes cfgs).
Proof.
  intros cfgs Hlen Hall. unfold QueryMaxBlobSize. fold cfgs. rewrite Hlen. cbn [Z.eqb].
  destruct (max_blob_spec (length cfgs) cfgs 0 0) as (Hm & _ & Hf); [done|by vm_compute|done|]. by split.
Qed.
End CameraModes.

(** ** On the concrete HAL *)

Definition demo_forcing (idx : Z) : StreamConfiguration :=
  mkStreamConfiguration false false 1 0 (Some (mkStreamParams 64 48 0x22 0 0 0 3 true (forcing 0 idx))) (0, 0).

(** A client after the configuration [sc]. *)
Definition demo_configured (sc : StreamConfiguration) (w : World ListDevice MetaMap DemoHal)
    : World ListDevice MetaMap DemoHal :=
  match ConfigureStreams (HU := plain_hal_usage) sc w with Some (_, w') => w' | None => w end.

Definition demo_forced : World ListDevice MetaMap DemoHal := demo_configured (demo_forcing 0) demo_open_client.
Definition demo_forced_twice : World ListDevice MetaMap DemoHal := demo_configured (demo_forcing 1) demo_forced.

Lemma demo_forced_eq :
  ConfigureStreams (HU := plain_hal_usage) (demo_forcing 0) demo_open_client = Some (0, demo_forced).
Proof. vm_compute. reflexivity. Qed.

Lemma demo_forced_twice_eq :
  ConfigureStreams (HU := plain_hal_usage) (demo_forcing 1) demo_forced = Some (0, demo_forced_twice).
Proof. vm_compute. reflexivity. Qed.

(** The sensor modes 0 and 1 give mode 2. *)
Lemma forced_sensor_mode_witness :
  sensor_mode (GetOpMode (dc demo_forced)) = 0x101 /\ sensor_mode (GetOpMode (dc demo_forced_twice)) = 0x103.
Proof.
  assert (DISABLE_OP_MODES = true) as Hd by reflexivity. assert low_modes as Hlow by (by vm_compute).
  exact (forced_sensor_mode (HU := plain_hal_usage) demo_open_client demo_forced demo_forced_twice
    (demo_forcing 0) (demo_forcing 1) 0 0 0 0 0 1 Hd Hlow ltac:(by vm_compute) ltac:(lia) ltac:(lia) ltac:(lia) ltac:(lia)
    eq_refl eq_refl demo_forced_eq demo_forced_twice_eq).
Defined.

Definition demo_sizes : MetaMap :=
  {[ANDROID_SCALER_AVAILABLE_STREAM_CONFIGURATIONS := [0x21; 1920; 1080; 0; 0x21; 4000; 3000; 0; 0x22; 8000; 6000; 0]]}.

Lemma QueryMaxBlobSize_max_witness : QueryMaxBlobSize demo_sizes = (4000, 3000) /\
  Forall (fun s => area s <= 12000000) (blob_sizes [0x21; 1920; 1080; 0; 0x21; 4000; 3000; 0; 0x22; 8000; 6000; 0]).
Proof.
  split; [by vm_compute|].
  exact (proj2 (QueryMaxBlobSize_max demo_sizes eq_refl ltac:(repeat constructor; vm_compute; congruence))).
Defined.
