(* ===== verification/ExtraParam.v ===== *)
(** * The container of extra parameters

    Models [ExtraParam] of include/qmmf-sdk/qmmf_recorder_extra_param.h and
    recorder/src/client/qmmf_recorder_extra_param.cc: tagged structures in one
    buffer, each behind a descriptor, with a map from the tags to the offsets
    of their entries.  The buffer alone travels between processes, and
    [Acquire] builds the map again from what it finds in it.

    A structure is the list of its bytes, the first four of which are the tag
    of its [DataTagBase]; numbers are little endian, [size_t] has 64 bits.  A
    computation is undefined where the code accesses the buffer out of its
    bounds.  An operation that the code applies to an object [other] besides
    [this] returns both. *)

From stdpp Require Import sorting.
From S2P Require Import Prelude.

(** ** Bytes *)

Definition bytes32 (v : Z) : list Z :=
  [v mod 256; (v / 256) mod 256; (v / 65536) mod 256; (v / 16777216) mod 256].

Definition load32 (b : list Z) (o : Z) : option Z :=
  match drop (Z.to_nat o) b with
  | b0 :: b1 :: b2 :: b3 :: _ => Some (b0 + 256 * b1 + 65536 * b2 + 16777216 * b3)
  | _ => None
  end.

(** [memcpy] of [src] to the offset [o] of a buffer. *)
Definition copy_to (o : Z) (src b : list Z) : option (list Z) :=
  if o + Z.of_nat (length src) <=? Z.of_nat (length b)
  then Some (take (Z.to_nat o) b ++ src ++ drop (Z.to_nat o + length src) b) else None.

(** [memcpy] of [n] bytes from the offset [o]. *)
Definition copy_from (o n : Z) (b : list Z) : option (list Z) :=
  if o + n <=? Z.of_nat (length b) then Some (take (Z.to_nat n) (drop (Z.to_nat o) b)) else None.

(** [std::vector::erase] of a range. *)
Definition erase_range (first last : Z) (b : list Z) : option (list Z) :=
  if (first <=? last) && (last <=? Z.of_nat (length b))
  then Some (take (Z.to_nat first) b ++ drop (Z.to_nat last) b) else None.

(** ** The container *)

Record DataDecriptor := mkDataDecriptor { tag_id : Z; entry_id : Z; data_size : Z }.

Definition kDataDescSize : Z := 12.

Definition desc_bytes (d : DataDecriptor) : list Z :=
  bytes32 (tag_id d) ++ bytes32 (entry_id d) ++ bytes32 (data_size d).

Definition load_desc (b : list Z) (o : Z) : option DataDecriptor :=
  match load32 b o, load32 b (o + 4), load32 b (o + 8) with
  | Some t, Some e, Some n => Some (mkDataDecriptor t e n)
  | _, _, _ => None
  end.

Record ExtraParam := mkExtraParam {
  locked_ : bool;
  data_map_ : gmap Z (list Z);
  data_buffer_ : list Z
}.

#[export] Instance settable_ExtraParam : Settable ExtraParam :=
  {| eta_expand := fun s => mkExtraParam (locked_ s) (data_map_ s) (data_buffer_ s) |}.

Definition ExtraParam_new : ExtraParam := mkExtraParam false ∅ [].

Definition buffer_size (s : ExtraParam) : Z := Z.of_nat (length (data_buffer_ s)).

Definition Clear : ST ExtraParam Z :=
  let* l := gets locked_ in
  if l then ret (- EPERM)
  else do* modify (fun s => s <| data_map_ := ∅ |> <| data_buffer_ := [] |>) in ret 0.

Definition IsEmpty (s : ExtraParam) : bool := bool_decide (data_map_ s = ∅).

Definition Exists (tag : Z) (s : ExtraParam) : bool := bool_decide (is_Some (data_map_ s !! tag)).

Definition TagCount (s : ExtraParam) : Z := Z.of_nat (size (data_map_ s)).

Definition EntryCount (tag : Z) (s : ExtraParam) : Z :=
  match data_map_ s !! tag with Some v => Z.of_nat (length v) | None => 0 end.

(** [DataTagBase::IsValidTag] of a structure. *)
Definition IsValidTag (tag : Z) (data : list Z) : bool := bool_decide (load32 data 0 = Some tag).

(** The descriptor and the place of an entry the container does not have. *)
Definition append_entry (tag entry : Z) (n : Z) : ST ExtraParam Z := fun s =>
  let o := buffer_size s in
  let b := data_buffer_ s ++ replicate (Z.to_nat (kDataDescSize + n)) 0 in
  match copy_to o (desc_bytes (mkDataDecriptor tag entry n)) b with
  | None => None
  | Some b' => Some (o, s <| data_map_ := <[tag := default [] (data_map_ s !! tag) ++ [o]]> (data_map_ s) |>
                          <| data_buffer_ := b' |>)
  end.

Definition write_entry (o : Z) (data : list Z) : ST ExtraParam Z := fun s =>
  match copy_to (o + kDataDescSize) data (data_buffer_ s) with
  | None => None
  | Some b => Some (0, s <| data_buffer_ := b |>)
  end.

(** A difference of [size_t]. *)
Definition sub64 (a b : Z) : Z := (a - b) mod 2 ^ 64.

Definition FillDataEntry (tag entry : Z) (data : list Z) : ST ExtraParam Z :=
  let n := Z.of_nat (length data) in
  let append := let* o := append_entry tag entry n in write_entry o data in
  let* s := gets id in
  if locked_ s then ret (- EPERM)
  else
    match data_map_ s !! tag with
    | None => if negb (entry =? 0) then ret (- EINVAL) else append
    | Some v =>
        if entry <? Z.of_nat (length v) then
          match v !! Z.to_nat entry with Some o => write_entry o data | None => undefined end
        else if 1 <? sub64 (Z.of_nat (length v)) entry then ret (- EINVAL)
        else append
    end.

Definition Update (tag : Z) (data : list Z) (entry : Z) : ST ExtraParam Z :=
  if negb (IsValidTag tag data) then ret (- EINVAL) else FillDataEntry tag entry data.

(** What [Fetch] comes back with: the structure, an error, or the exception
    of [std::vector::at]. *)
Inductive fetched :=
| Fetched (data : list Z)
| NotFetched (error : Z)
| OutOfRange.

(** [Fetch] into an object that holds [data]. *)
Definition Fetch (tag : Z) (data : list Z) (entry : Z) (s : ExtraParam) : option fetched :=
  if negb (IsValidTag tag data) then Some (NotFetched (- EINVAL))
  else
    match data_map_ s !! tag with
    | None => Some (NotFetched (- ENOENT))
    | Some v =>
        match v !! Z.to_nat entry with
        | None => Some OutOfRange
        | Some o => Fetched <$> copy_from (o + kDataDescSize) (Z.of_nat (length data)) (data_buffer_ s)
        end
    end.

(** ** The buffer and its map *)

Fixpoint acquire_loop (fuel : nat) (b : list Z) (o : Z) (m : gmap Z (list Z)) : option (gmap Z (list Z)) :=
  if Z.of_nat (length b) <=? o then Some m
  else
    match fuel with
    | O => None
    | S fuel' =>
        match load_desc b o with
        | None => None
        | Some d =>
            let m' :=
              match m !! tag_id d with
              | None => <[tag_id d := [o]]> m
              | Some v => if Z.of_nat (length v) <=? entry_id d then <[tag_id d := v ++ [o]]> m else m
              end in
            acquire_loop fuel' b (o + (data_size d + kDataDescSize)) m'
        end
    end.

Definition Acquire (data : list Z) : ST ExtraParam Z := fun s =>
  if locked_ s then Some (- EPERM, s)
  else
    match acquire_loop (length data) data 0 ∅ with
    | None => None
    | Some m => Some (0, s <| data_map_ := m |> <| data_buffer_ := data |>)
    end.

(** [ReleaseOwnership]: the bytes the caller gets. *)
Definition ReleaseOwnership : ST ExtraParam (list Z) := fun s =>
  Some (data_buffer_ s, s <| data_map_ := ∅ |> <| data_buffer_ := [] |>).

Definition GetAndLock : ST ExtraParam (list Z) := fun s =>
  Some (data_buffer_ s, s <| locked_ := true |>).

(** [same]: the pointer is that of the buffer. *)
Definition ReturnAndUnlock (same : bool) : ST ExtraParam Z := fun s =>
  if negb (locked_ s) then Some (- EPERM, s)
  else if negb same then Some (- EINVAL, s)
  else Some (0, s <| locked_ := false |>).

(** The copy constructor: the new container and the one it is copied from. *)
Definition ExtraParam_copy (other : ExtraParam) : option (ExtraParam * ExtraParam) :=
  match GetAndLock other with
  | None => None
  | Some (data, other1) =>
      match Acquire data ExtraParam_new, ReturnAndUnlock true other1 with
      | Some (_, this), Some (_, other2) => Some (this, other2)
      | _, _ => None
      end
  end.

(** [operator=] of two objects.  [same]: both buffers have the same address,
    that of no allocation. *)
Definition ExtraParam_assign (same : bool) (this other : ExtraParam) : option (ExtraParam * ExtraParam) :=
  match GetAndLock other with
  | None => None
  | Some (data, other1) =>
      match (if same then Some (0, this) else Acquire data this), ReturnAndUnlock true other1 with
      | Some (_, this'), Some (_, other2) => Some (this', other2)
      | _, _ => None
      end
  end.

(** [ReorganizeDataMap]: its result and the map, which an error leaves half
    done. *)
Fixpoint reorganize_loop (fuel : nat) (b : list Z) (o : Z) (m : gmap Z (list Z))
    : option (Z * gmap Z (list Z)) :=
  if Z.of_nat (length b) <=? o then Some (0, m)
  else
    match fuel with
    | O => None
    | S fuel' =>
        match load_desc b o with
        | None => None
        | Some d =>
            match m !! tag_id d with
            | None => Some (- EFAULT, m)
            | Some v =>
                if Z.of_nat (length v) <=? entry_id d then Some (- EFAULT, m)
                else reorganize_loop fuel' b (o + (data_size d + kDataDescSize))
                       (<[tag_id d := <[Z.to_nat (entry_id d) := o]> v]> m)
            end
        end
    end.

Definition ReorganizeDataMap (o : Z) : ST ExtraParam Z := fun s =>
  match reorganize_loop (length (data_buffer_ s)) (data_buffer_ s) o (data_map_ s) with
  | None => None
  | Some (r, m) => Some (r, s <| data_map_ := m |>)
  end.

(** The erasure of the bytes the code takes for those of the entry at [o]:
    the end of the range is the size of the entry, not its end. *)
Definition erase_entry (o : Z) : ST ExtraParam unit := fun s =>
  match load_desc (data_buffer_ s) o with
  | None => None
  | Some d =>
      match erase_range o (u32 (data_size d + kDataDescSize)) (data_buffer_ s) with
      | None => None
      | Some b => Some (tt, s <| data_buffer_ := b |>)
      end
  end.

Definition RemoveDataEntry (tag entry : Z) : ST ExtraParam Z :=
  let* s := gets id in
  if locked_ s then ret (- EPERM)
  else
    match data_map_ s !! tag with
    | None => ret (- EINVAL)
    | Some v =>
        match v !! Z.to_nat entry with
        | None => ret (- EINVAL)
        | Some o =>
            do* erase_entry o in
            let* r := ReorganizeDataMap o in
            if negb (r =? 0) then ret r
            else
              do* modify (fun s => s <| data_map_ := alter (delete (Z.to_nat entry)) tag (data_map_ s) |>) in
              ret 0
        end
    end.

(** [std::sort] with [std::greater]. *)
Definition descending (a b : Z) : Prop := b <= a.

#[export] Instance descending_dec a b : Decision (descending a b).
Proof. unfold descending. apply _. Defined.

Definition sort_descending : list Z -> list Z := merge_sort descending.

Definition EraseDataTag (tag : Z) : ST ExtraParam Z :=
  let* s := gets id in
  if locked_ s then ret (- EPERM)
  else
    match data_map_ s !! tag with
    | None => ret (- EINVAL)
    | Some v =>
        let entries := sort_descending v in
        do* modify (fun s => s <| data_map_ := <[tag := entries]> (data_map_ s) |>) in
        do* for_each entries erase_entry in
        match last entries with
        | None => undefined
        | Some o =>
            let* r := ReorganizeDataMap o in
            if negb (r =? 0) then ret r
            else do* modify (fun s => s <| data_map_ := delete tag (data_map_ s) |>) in ret 0
        end
    end.

Definition Remove (tag entry : Z) : ST ExtraParam Z := RemoveDataEntry tag entry.

Definition Erase (tag : Z) : ST ExtraParam Z := EraseDataTag tag.

Definition Size (s : ExtraParam) : Z := buffer_size s.

(** ** What the buffer holds

    A container built by its own operations holds the entries of a list, one
    after the other; the map gives the offsets of the entries of a tag in
    their order, and the entries of a tag are numbered in their order. *)

Record Entry := mkEntry { e_tag : Z; e_id : Z; e_data : list Z }.

Definition entry_bytes (e : Entry) : list Z :=
  desc_bytes (mkDataDecriptor (e_tag e) (e_id e) (Z.of_nat (length (e_data e)))) ++ e_data e.

Definition entry_size (e : Entry) : Z := kDataDescSize + Z.of_nat (length (e_data e)).

Definition flat (es : list Entry) : list Z := concat (map entry_bytes es).

Fixpoint total (es : list Entry) : Z :=
  match es with [] => 0 | e :: es' => entry_size e + total es' end.

(** The structures of a tag, and their offsets when the entries begin at [o]. *)
Fixpoint payloads (t : Z) (es : list Entry) : list (list Z) :=
  match es with
  | [] => []
  | e :: es' => if e_tag e =? t then e_data e :: payloads t es' else payloads t es'
  end.

Fixpoint offsets (t o : Z) (es : list Entry) : list Z :=
  match es with
  | [] => []
  | e :: es' => if e_tag e =? t then o :: offsets t (o + entry_size e) es'
                else offsets t (o + entry_size e) es'
  end.

(** A list as the value of a key: absent when empty. *)
Definition listed {A} (l : list A) : option (list A) := match l with [] => None | _ => Some l end.

Definition indexed (es : list Entry) (m : gmap Z (list Z)) : Prop :=
  forall t, m !! t = listed (offsets t 0 es).

Definition entry_ok (e : Entry) : Prop :=
  is_u32 (e_tag e) /\ is_u32 (e_id e) /\ is_u32 (Z.of_nat (length (e_data e))).

Fixpoint ids (t : Z) (es : list Entry) : list Z :=
  match es with
  | [] => []
  | e :: es' => if e_tag e =? t then e_id e :: ids t es' else ids t es'
  end.

Definition numbered (es : list Entry) : Prop := forall t k i, ids t es !! k = Some i -> i = Z.of_nat k.

Record layout (es : list Entry) (s : ExtraParam) : Prop := {
  layout_buffer : data_buffer_ s = flat es;
  layout_map : indexed es (data_map_ s);
  layout_entries : Forall entry_ok es;
  layout_numbers : numbered es
}.

(** ** Lemmas on bytes *)

Lemma of_bytes32 v : is_u32 v ->
  v mod 256 + 256 * ((v / 256) mod 256) + 65536 * ((v / 65536) mod 256)
  + 16777216 * ((v / 16777216) mod 256) = v.
Proof.
  unfold is_u32, UINT32_MOD. intros Hv.
  rewrite (Z.mod_small (v / 16777216)) by (split; [apply Z.div_pos; lia|apply Z.div_lt_upper_bound; lia]).
  change 65536 with (256 * 256). change 16777216 with (256 * 256 * 256).
  rewrite <- !Z.div_div by lia.
  pose proof (Z.div_mod v 256 ltac:(lia)). pose proof (Z.div_mod (v / 256) 256 ltac:(lia)).
  pose proof (Z.div_mod (v / 256 / 256) 256 ltac:(lia)). lia.
Qed.

Lemma load32_bytes pre v post o : is_u32 v -> o = Z.of_nat (length pre) ->
  load32 (pre ++ bytes32 v ++ post) o = Some v.
Proof.
  intros Hv ->. unfold load32. rewrite Nat2Z.id, drop_app_length. simpl. f_equal. by apply of_bytes32.
Qed.

Lemma desc_bytes_length d : length (desc_bytes d) = 12%nat.
Proof. done. Qed.

Lemma load_desc_bytes pre d post o :
  is_u32 (tag_id d) -> is_u32 (entry_id d) -> is_u32 (data_size d) -> o = Z.of_nat (length pre) ->
  load_desc (pre ++ desc_bytes d ++ post) o = Some d.
Proof.
  intros Ht He Hn ->. unfold load_desc, desc_bytes. rewrite <- !app_assoc.
  rewrite load32_bytes by done.
  rewrite (app_assoc pre), load32_bytes by (try done; rewrite length_app; simpl; lia).
  rewrite (app_assoc (pre ++ _)), load32_bytes by (try done; rewrite !length_app; simpl; lia).
  by destruct d.
Qed.

Lemma copy_to_app pre mid post src o : length src = length mid -> o = Z.of_nat (length pre) ->
  copy_to o src (pre ++ mid ++ post) = Some (pre ++ src ++ post).
Proof.
  intros Hl ->. unfold copy_to. rewrite !length_app, Nat2Z.id.
  rewrite (proj2 (Z.leb_le _ _)) by lia. rewrite take_app_length. do 3 f_equal.
  rewrite <- drop_drop, drop_app_length, Hl. apply drop_app_length.
Qed.

Lemma copy_from_app pre mid post o n : o = Z.of_nat (length pre) -> n = Z.of_nat (length mid) ->
  copy_from o n (pre ++ mid ++ post) = Some mid.
Proof.
  intros -> ->. unfold copy_from. rewrite !length_app, !Nat2Z.id.
  rewrite (proj2 (Z.leb_le _ _)) by lia. by rewrite drop_app_length, take_app_length.
Qed.

(** ** Lemmas on the entries *)

Lemma entry_bytes_length e : Z.of_nat (length (entry_bytes e)) = entry_size e.
Proof. unfold entry_bytes, entry_size, kDataDescSize. rewrite length_app, desc_bytes_length. lia. Qed.

Lemma flat_app es1 es2 : flat (es1 ++ es2) = flat es1 ++ flat es2.
Proof. unfold flat. by rewrite map_app, concat_app. Qed.

Lemma flat_cons e es : flat (e :: es) = entry_bytes e ++ flat es.
Proof. done. Qed.

Lemma flat_length es : Z.of_nat (length (flat es)) = total es.
Proof.
  induction es as [|e es IH]; [done|].
  rewrite flat_cons, length_app, Nat2Z.inj_add, entry_bytes_length, IH. done.
Qed.

Lemma total_nonneg es : 0 <= total es.
Proof. rewrite <- flat_length. lia. Qed.

Lemma total_app es1 es2 : total (es1 ++ es2) = total es1 + total es2.
Proof. induction es1 as [|e es1 IH]; simpl; lia. Qed.

Lemma entry_size_pos e : kDataDescSize <= entry_size e.
Proof. unfold entry_size. lia. Qed.

Lemma payloads_app t es1 es2 : payloads t (es1 ++ es2) = payloads t es1 ++ payloads t es2.
Proof. induction es1 as [|e es1 IH]; simpl; [done|]. rewrite IH. by case_goal. Qed.

Lemma offsets_app t es1 es2 : forall o, offsets t o (es1 ++ es2) = offsets t o es1 ++ offsets t (o + total es1) es2.
Proof.
  induction es1 as [|e es1 IH]; intros o; simpl; [by rewrite Z.add_0_r|].
  rewrite IH, Z.add_assoc. by case_goal.
Qed.

Lemma offsets_length t es : forall o, length (offsets t o es) = length (payloads t es).
Proof. induction es as [|e es IH]; intros o; simpl; [done|]. case_goal; simpl; by rewrite IH. Qed.

Lemma offsets_lookup t es : forall o k x, offsets t o es !! k = Some x ->
  exists es1 e es2, es = es1 ++ e :: es2 /\ e_tag e = t /\ length (payloads t es1) = k /\ x = o + total es1.
Proof.
  induction es as [|e es IH]; intros o k x Hk; simpl in Hk; [done|].
  destruct (Z.eqb_spec (e_tag e) t) as [Ht|Ht].
  - destruct k as [|k]; simpl in Hk.
    + injection Hk as <-. exists [], e, es. split_and!; try done. simpl. lia.
    + apply IH in Hk as (es1 & e' & es2 & -> & Ht' & Hl & ->). exists (e :: es1), e', es2.
      split_and!; try done; simpl; [|lia]. rewrite (proj2 (Z.eqb_eq _ _) Ht). simpl. by rewrite Hl.
  - apply IH in Hk as (es1 & e' & es2 & -> & Ht' & Hl & ->). exists (e :: es1), e', es2.
    split_and!; try done; simpl; [|lia]. by rewrite (proj2 (Z.eqb_neq _ _) Ht).
Qed.

Lemma listed_default {A} (l : list A) : default [] (listed l) = l.
Proof. by destruct l. Qed.

Lemma listed_snoc {A} (l : list A) x : listed (l ++ [x]) = Some (l ++ [x]).
Proof. by destruct l. Qed.

Lemma indexed_lookup es m t : indexed es m -> default [] (m !! t) = offsets t 0 es.
Proof. intros Hm. by rewrite Hm, listed_default. Qed.

Lemma indexed_snoc es e m : indexed es m ->
  indexed (es ++ [e]) (<[e_tag e := default [] (m !! e_tag e) ++ [total es]]> m).
Proof.
  intros Hm t. rewrite (indexed_lookup es m) by done.
  rewrite offsets_app. simpl. destruct (Z.eqb_spec (e_tag e) t) as [<-|Ht].
  - by rewrite lookup_insert_eq, listed_snoc.
  - rewrite lookup_insert_ne by done. by rewrite app_nil_r.
Qed.

Lemma indexed_unique es m m' : indexed es m -> indexed es m' -> m = m'.
Proof. intros Hm Hm'. apply map_eq. intros t. by rewrite Hm, Hm'. Qed.

(** A structure is replaced by one of the same length: nothing moves. *)
Definition replaced (e : Entry) (data : list Z) : Entry := mkEntry (e_tag e) (e_id e) data.

Lemma offsets_replaced t es1 e es2 data o : length data = length (e_data e) ->
  offsets t o (es1 ++ replaced e data :: es2) = offsets t o (es1 ++ e :: es2).
Proof.
  intros Hl. rewrite !offsets_app. f_equal. cbn [offsets]. unfold entry_size.
  cbn [replaced e_tag e_data]. by rewrite Hl.
Qed.

Lemma ids_app t es1 es2 : ids t (es1 ++ es2) = ids t es1 ++ ids t es2.
Proof. induction es1 as [|e es1 IH]; simpl; [done|]. rewrite IH. by case_goal. Qed.

Lemma ids_length t es : length (ids t es) = length (payloads t es).
Proof. induction es as [|e es IH]; simpl; [done|]. case_goal; simpl; by rewrite IH. Qed.

Lemma ids_replaced t es1 e es2 data : ids t (es1 ++ replaced e data :: es2) = ids t (es1 ++ e :: es2).
Proof. by rewrite !ids_app. Qed.

Lemma numbered_at es1 e es2 : numbered (es1 ++ e :: es2) ->
  e_id e = Z.of_nat (length (payloads (e_tag e) es1)).
Proof.
  intros Hn. apply (Hn (e_tag e)). rewrite ids_app, <- ids_length.
  rewrite lookup_app_r, Nat.sub_diag by done. simpl. by rewrite Z.eqb_refl.
Qed.

Lemma numbering_snoc es e : numbered es -> e_id e = Z.of_nat (length (payloads (e_tag e) es)) ->
  numbered (es ++ [e]).
Proof.
  intros Hn He t k i Hk. rewrite ids_app in Hk. apply lookup_app_Some in Hk as [Hk|[Hge Hk]]; [by apply (Hn t)|].
  simpl in Hk. destruct (Z.eqb_spec (e_tag e) t) as [<-|_]; [|done].
  apply list_lookup_singleton_Some in Hk as [Hk <-]. rewrite He, <- ids_length. f_equal. lia.
Qed.

(** ** The map is rebuilt from the buffer *)

Lemma load_entry es1 e es2 : entry_ok e ->
  load_desc (flat (es1 ++ e :: es2)) (total es1)
  = Some (mkDataDecriptor (e_tag e) (e_id e) (Z.of_nat (length (e_data e)))).
Proof.
  intros (Ht & Hi & Hn). rewrite flat_app, flat_cons. unfold entry_bytes. rewrite <- app_assoc.
  apply load_desc_bytes; simpl; try done. by rewrite flat_length.
Qed.

Lemma acquire_loop_layout es2 : forall fuel es1 m,
  (length es2 <= fuel)%nat -> Forall entry_ok es2 -> numbered (es1 ++ es2) -> indexed es1 m ->
  exists m', acquire_loop fuel (flat (es1 ++ es2)) (total es1) m = Some m' /\ indexed (es1 ++ es2) m'.
Proof.
  induction es2 as [|e es2 IH]; intros fuel es1 m Hf Hok Hn Hm.
  - exists m. rewrite app_nil_r in *. split; [|done].
    destruct fuel; cbn [acquire_loop]; by rewrite flat_length, Z.leb_refl.
  - destruct fuel as [|fuel]; [simpl in Hf; lia|]. apply Forall_cons in Hok as [He Hok].
    cbn [acquire_loop]. rewrite flat_length, (load_entry es1 e es2), total_app by done.
    pose proof (total_nonneg es2). pose proof (entry_size_pos e).
    rewrite (proj2 (Z.leb_gt _ _)) by (simpl; unfold kDataDescSize in *; lia).
    cbn [tag_id entry_id data_size].
    specialize (IH fuel (es1 ++ [e]) (<[e_tag e := default [] (m !! e_tag e) ++ [total es1]]> m)).
    rewrite <- !app_assoc in IH. simpl in IH.
    destruct IH as (m' & E & Hm'); [simpl in Hf; lia|done|done|by apply indexed_snoc|].
    exists m'. split; [|done]. rewrite <- E. f_equal.
    + rewrite total_app. simpl. unfold entry_size. lia.
    + rewrite (numbered_at _ _ _ Hn), <- (offsets_length _ _ 0), <- (indexed_lookup es1 m) by done.
      destruct (m !! e_tag e) as [v|]; simpl; [by rewrite Z.leb_refl|done].
Qed.

Lemma layout_length es : (length es <= length (flat es))%nat.
Proof.
  induction es as [|e es IH]; [done|]. rewrite flat_cons, length_app.
  pose proof (entry_bytes_length e). pose proof (entry_size_pos e). unfold kDataDescSize in *. simpl. lia.
Qed.

Lemma Acquire_layout es s s' : layout es s -> locked_ s' = false ->
  Acquire (data_buffer_ s) s' = Some (0, s <| locked_ := false |>).
Proof.
  intros [Hb Hm He Hn] Hl. unfold Acquire. rewrite Hl, Hb.
  destruct (acquire_loop_layout es (length (flat es)) [] ∅) as (m & E & Hm'); try done; [apply layout_length|].
  simpl in E. rewrite E, (indexed_unique es m (data_map_ s)) by done. destruct s, s'. simpl in *. by subst.
Qed.

(** ** Writing and reading *)

Lemma layout_append es s tag data : layout es s -> is_u32 tag -> is_u32 (Z.of_nat (length data)) ->
  is_u32 (Z.of_nat (length (payloads tag es))) ->
  let e := mkEntry tag (Z.of_nat (length (payloads tag es))) data in
  exists s', (let* o := append_entry tag (e_id e) (Z.of_nat (length data)) in write_entry o data) s = Some (0, s') /\
    layout (es ++ [e]) s' /\ locked_ s' = locked_ s.
Proof.
  intros [Hb Hm He Hn] Ht Hd Hi e. unfold bind, append_entry, buffer_size. rewrite Hb.
  set (z := replicate _ _).
  assert (z = replicate 12 0 ++ replicate (length data) 0) as ->.
  { unfold z, kDataDescSize. rewrite <- replicate_add. f_equal. lia. }
  rewrite (copy_to_app _ (replicate 12 0)) by done.
  eexists. split.
  { unfold write_entry. set (d := mkDataDecriptor _ _ _).
    match goal with |- context [copy_to _ data (data_buffer_ ?x)] =>
      change (data_buffer_ x) with (flat es ++ desc_bytes d ++ replicate (length data) 0) end.
    rewrite app_assoc, <- (app_nil_r (replicate (length data) 0)), copy_to_app; [done| |].
    - by rewrite length_replicate.
    - rewrite length_app, desc_bytes_length. unfold kDataDescSize. lia. }
  split; [|done]. split; simpl.
  - rewrite flat_app, flat_cons. unfold entry_bytes. simpl. by rewrite <- !app_assoc.
  - rewrite flat_length. by apply (indexed_snoc es e).
  - apply Forall_app. split; [done|]. by apply Forall_singleton.
  - by apply numbering_snoc.
Qed.

Lemma layout_write es1 e es2 s data : layout (es1 ++ e :: es2) s -> length data = length (e_data e) ->
  exists s', write_entry (total es1) data s = Some (0, s') /\
    layout (es1 ++ replaced e data :: es2) s' /\ locked_ s' = locked_ s /\ data_map_ s' = data_map_ s.
Proof.
  intros [Hb Hm He Hn] Hl. unfold write_entry. rewrite Hb, flat_app, flat_cons. unfold entry_bytes at 1.
  rewrite <- app_assoc, (app_assoc (flat es1)).
  rewrite copy_to_app; [|done|].
  2: { rewrite length_app, desc_bytes_length, Nat2Z.inj_add, flat_length. done. }
  eexists. split; [done|]. split; [|done]. split; simpl.
  - rewrite flat_app, flat_cons. unfold entry_bytes. simpl. rewrite Hl. by rewrite <- !app_assoc.
  - intros t. by rewrite Hm, offsets_replaced.
  - apply Forall_app in He as [He1 He2]. apply Forall_cons in He2 as [(H1 & H2 & H3) He2].
    apply Forall_app. split; [done|]. apply Forall_cons. split; [|done]. split_and!; simpl; [done..|by rewrite Hl].
  - intros t. rewrite ids_replaced. apply Hn.
Qed.

Lemma layout_read es1 e es2 s : layout (es1 ++ e :: es2) s ->
  copy_from (total es1 + kDataDescSize) (Z.of_nat (length (e_data e))) (data_buffer_ s) = Some (e_data e).
Proof.
  intros [Hb _ _ _]. rewrite Hb, flat_app, flat_cons. unfold entry_bytes.
  rewrite <- app_assoc, (app_assoc (flat es1)). apply copy_from_app; [|done].
  rewrite length_app, desc_bytes_length, Nat2Z.inj_add, flat_length. done.
Qed.

(** ** The container as a map of lists *)

Record Params := mkParams { p_locked : bool; p_contents : gmap Z (list (list Z)) }.

Inductive ParamOp :=
| OpUpdate (tag : Z) (data : list Z) (entry : Z)
| OpFetch (tag : Z) (data : list Z) (entry : Z)
| OpExists (tag : Z)
| OpEntryCount (tag : Z)
| OpTagCount
| OpClear
| OpGetAndLock
| OpReturnAndUnlock (same : bool)
| OpCopy
| OpRelease
| OpMove.

Inductive ParamAnswer :=
| Answer (z : Z)
| AnswerFetched (f : fetched).

(** The operations of the code.  [OpCopy] goes on with a copy, [OpMove]
    with a new container that acquires the bytes the old one releases. *)
Definition param_step (op : ParamOp) (s : ExtraParam) : option (ParamAnswer * ExtraParam) :=
  let of_status (m : ST ExtraParam Z) := match m s with Some (r, s') => Some (Answer r, s') | None => None end in
  match op with
  | OpUpdate t d e => of_status (Update t d e)
  | OpFetch t d e => match Fetch t d e s with Some f => Some (AnswerFetched f, s) | None => None end
  | OpExists t => Some (Answer (Z.b2z (Exists t s)), s)
  | OpEntryCount t => Some (Answer (EntryCount t s), s)
  | OpTagCount => Some (Answer (TagCount s), s)
  | OpClear => of_status Clear
  | OpGetAndLock => match GetAndLock s with Some (_, s') => Some (Answer 0, s') | None => None end
  | OpReturnAndUnlock same => of_status (ReturnAndUnlock same)
  | OpCopy => match ExtraParam_copy s with Some (s', _) => Some (Answer 0, s') | None => None end
  | OpRelease => match ReleaseOwnership s with Some (_, s') => Some (Answer 0, s') | None => None end
  | OpMove =>
      match ReleaseOwnership s with
      | None => None
      | Some (data, _) => match Acquire data ExtraParam_new with Some (r, s') => Some (Answer r, s') | None => None end
      end
  end.

(** What they promise. *)
Definition spec_step (op : ParamOp) (a : Params) : ParamAnswer * Params :=
  let entries t := default [] (p_contents a !! t) in
  match op with
  | OpUpdate t d e =>
      let k := Z.to_nat e in
      if negb (IsValidTag t d) then (Answer (- EINVAL), a)
      else if p_locked a then (Answer (- EPERM), a)
      else if (length (entries t) <? k)%nat then (Answer (- EINVAL), a)
      else (Answer 0, mkParams false (<[t := if (length (entries t) =? k)%nat then entries t ++ [d]
                                             else <[k := d]> (entries t)]> (p_contents a)))
  | OpFetch t d e =>
      (AnswerFetched
         (if negb (IsValidTag t d) then NotFetched (- EINVAL)
          else match p_contents a !! t with
               | None => NotFetched (- ENOENT)
               | Some l => match l !! Z.to_nat e with Some x => Fetched x | None => OutOfRange end
               end), a)
  | OpExists t => (Answer (Z.b2z (bool_decide (is_Some (p_contents a !! t)))), a)
  | OpEntryCount t => (Answer (Z.of_nat (length (entries t))), a)
  | OpTagCount => (Answer (Z.of_nat (size (p_contents a))), a)
  | OpClear => if p_locked a then (Answer (- EPERM), a) else (Answer 0, mkParams false ∅)
  | OpGetAndLock => (Answer 0, mkParams true (p_contents a))
  | OpReturnAndUnlock same =>
      if negb (p_locked a) then (Answer (- EPERM), a)
      else if negb same then (Answer (- EINVAL), a)
      else (Answer 0, mkParams false (p_contents a))
  | OpCopy | OpMove => (Answer 0, mkParams false (p_contents a))
  | OpRelease => (Answer 0, mkParams (p_locked a) ∅)
  end.

Fixpoint param_run (ops : list ParamOp) (s : ExtraParam) : option (list ParamAnswer * ExtraParam) :=
  match ops with
  | [] => Some ([], s)
  | op :: ops' =>
      match param_step op s with
      | None => None
      | Some (r, s1) => match param_run ops' s1 with Some (rs, s2) => Some (r :: rs, s2) | None => None end
      end
  end.

Fixpoint spec_run (ops : list ParamOp) (a : Params) : list ParamAnswer * Params :=
  match ops with
  | [] => ([], a)
  | op :: ops' => let '(r, a1) := spec_step op a in let '(rs, a2) := spec_run ops' a1 in (r :: rs, a2)
  end.

Section Refinement.
(** The size of the structure of each tag. *)
Context (sizeof : Z -> nat).
Context (sizeof_u32 : forall t, is_u32 (Z.of_nat (sizeof t))).

(** An operation uses each tag with its structure. *)
Definition fits (op : ParamOp) : Prop :=
  match op with
  | OpUpdate t d e | OpFetch t d e => is_u32 t /\ is_u32 e /\ length d = sizeof t
  | _ => True
  end.

(** [s] holds what [a] says, in at most [k] entries. *)
Definition represents (k : Z) (s : ExtraParam) (a : Params) : Prop :=
  exists es, layout es s /\ locked_ s = p_locked a /\ Z.of_nat (length es) <= k /\
    (forall t, p_contents a !! t = listed (payloads t es)) /\
    (forall e, e ∈ es -> length (e_data e) = sizeof (e_tag e)).

Lemma payloads_length t es : (length (payloads t es) <= length es)%nat.
Proof. induction es as [|e es IH]; simpl; [done|]. case_goal; simpl; lia. Qed.

Lemma represents_new : represents 0 ExtraParam_new (mkParams false ∅).
Proof. exists []. split_and!; try done. intros e He. by apply not_elem_of_nil in He. Qed.

Lemma represents_entries k s a t : represents k s a ->
  length (default [] (data_map_ s !! t)) = length (default [] (p_contents a !! t)).
Proof.
  intros (es & [_ Hm _ _] & _ & _ & Ha & _). by rewrite Ha, Hm, !listed_default, offsets_length.
Qed.

Lemma represents_lookup k s a : represents k s a ->
  length <$> data_map_ s = length <$> p_contents a.
Proof.
  intros (es & [_ Hm _ _] & _ & _ & Ha & _). apply map_eq. intros t. rewrite !lookup_fmap, Ha, Hm.
  pose proof (offsets_length t es 0) as Hl. destruct (offsets t 0 es), (payloads t es); try done.
  simpl in *. by f_equal.
Qed.

Lemma represents_mono k k' s a : k <= k' -> represents k s a -> represents k' s a.
Proof. intros Hk (es & H1 & H2 & H3 & H4). exists es. split_and!; try done; [lia|apply H4..]. Qed.
Lemma payloads_replaced t es1 e es2 data : payloads t (es1 ++ replaced e data :: es2) =
  if e_tag e =? t then <[length (payloads t es1) := data]> (payloads t (es1 ++ e :: es2))
  else payloads t (es1 ++ e :: es2).
Proof.
  rewrite !payloads_app. cbn [payloads replaced e_tag e_data]. case_goal; [|done].
  by rewrite insert_app_r_alt, Nat.sub_diag by done.
Qed.

Lemma represents_append k s a tag data :
  represents k s a -> locked_ s = false -> is_u32 tag -> length data = sizeof tag -> k < 2 ^ 32 - 1 ->
  let l := default [] (p_contents a !! tag) in
  exists s', (let* o := append_entry tag (Z.of_nat (length l)) (Z.of_nat (length data)) in write_entry o data) s
             = Some (0, s') /\
    represents (k + 1) s' (mkParams false (<[tag := l ++ [data]]> (p_contents a))).
Proof.
  intros (es & Hl & Hlock & Hk & Ha & Hs) Hf Ht Hd Hsmall l.
  assert (l = payloads tag es) as -> by (unfold l; by rewrite Ha, listed_default).
  pose proof (payloads_length tag es).
  destruct (layout_append es s tag data) as (s' & E & Hl' & Hlock'); try done.
  { rewrite Hd. apply sizeof_u32. }
  { unfold is_u32, UINT32_MOD. lia. }
  exists s'. split; [exact E|]. eexists. split; [exact Hl'|]. split_and!.
  - by rewrite Hlock'.
  - rewrite length_app. simpl. lia.
  - intros t. simpl. rewrite payloads_app. simpl. destruct (Z.eqb_spec tag t) as [<-|Hne].
    + by rewrite lookup_insert_eq, listed_snoc.
    + by rewrite lookup_insert_ne, app_nil_r.
  - intros e He. apply elem_of_app in He as [He|He]; [by apply Hs|]. by apply list_elem_of_singleton in He as ->.
Qed.

Lemma represents_write k s a tag data j o :
  represents k s a -> locked_ s = false -> length data = sizeof tag ->
  data_map_ s !! tag = Some o -> (j < length o)%nat ->
  exists x s', o !! j = Some x /\ write_entry x data s = Some (0, s') /\
    represents k s' (mkParams false (<[tag := <[j := data]> (default [] (p_contents a !! tag))]> (p_contents a))).
Proof.
  intros (es & Hl & Hlock & Hk & Ha & Hs) Hf Hd Ho Hj.
  assert (o = offsets tag 0 es) as ->.
  { destruct Hl as [_ Hm _ _]. rewrite Hm in Ho. by destruct (offsets tag 0 es); [|injection Ho as <-]. }
  destruct (lookup_lt_is_Some_2 (offsets tag 0 es) j Hj) as [x Hx].
  pose proof (offsets_lookup _ _ _ _ _ Hx) as (es1 & e & es2 & -> & Ht & Hlen & ->).
  assert (e ∈ es1 ++ e :: es2) as Hin by (apply elem_of_app; right; by left).
  destruct (layout_write es1 e es2 s data Hl) as (s' & E & Hl' & Hlock' & _).
  { rewrite Hd, <- Ht. symmetry. by apply Hs. }
  exists (0 + total es1), s'. split; [done|]. split; [done|]. eexists. split; [exact Hl'|]. split_and!.
  - by rewrite Hlock'.
  - rewrite length_app in *. simpl in *. lia.
  - intros t. simpl. rewrite payloads_replaced. destruct (Z.eqb_spec (e_tag e) t) as [<-|Hne].
    + rewrite <- Ht, lookup_insert_eq, Ha, listed_default, <- Hlen, <- Ht.
      rewrite payloads_app. simpl. rewrite Z.eqb_refl.
      rewrite insert_app_r_alt, Nat.sub_diag by done. simpl. by destruct (payloads (e_tag e) es1).
    + rewrite lookup_insert_ne by congruence. apply Ha.
  - intros e' He. apply elem_of_app in He as [He|He]; [apply Hs, elem_of_app; by left|].
    apply elem_of_cons in He as [->|He]; [simpl; congruence|]. apply Hs, elem_of_app. right. by right.
Qed.

Lemma represents_fetch k s a t d e : represents k s a -> length d = sizeof t ->
  Fetch t d e s = Some (if negb (IsValidTag t d) then NotFetched (- EINVAL)
          else match p_contents a !! t with
               | None => NotFetched (- ENOENT)
               | Some l => match l !! Z.to_nat e with Some x => Fetched x | None => OutOfRange end
               end).
Proof.
  intros (es & Hl & Hlock & Hk & Ha & Hs) Hd. unfold Fetch. case_goal; [done|].
  pose proof (offsets_length t es 0) as Hlen. pose proof (layout_map _ _ Hl t) as Hm. rewrite Hm, Ha.
  destruct (offsets t 0 es) as [|o os] eqn:Eo, (payloads t es) as [|p ps] eqn:Ep; try done. simpl listed.
  cbv beta iota. destruct ((o :: os) !! Z.to_nat e) as [x|] eqn:Ex.
  - rewrite <- Eo in Ex. apply offsets_lookup in Ex as (es1 & x' & es2 & -> & Ht & Hj & ->).
    rewrite Z.add_0_l, Hd, <- Ht, <- (Hs x') by (apply elem_of_app; right; by left).
    rewrite (layout_read es1 x' es2 s Hl). rewrite <- Ep, payloads_app, <- Hj. simpl.
    rewrite Ht, Z.eqb_refl, lookup_app_r, Nat.sub_diag by done. done.
  - apply lookup_ge_None in Ex. rewrite Hlen in Ex. apply lookup_ge_None in Ex. by rewrite Ex.
Qed.
Lemma represents_update k s a t d e : represents k s a -> k < 2 ^ 32 - 1 -> fits (OpUpdate t d e) ->
  exists s', param_step (OpUpdate t d e) s = Some (fst (spec_step (OpUpdate t d e) a), s') /\
    represents (k + 1) s' (snd (spec_step (OpUpdate t d e) a)).
Proof.
  intros Hr Hk (Ht & [He1 He2] & Hd). assert (represents (k + 1) s a) as Hr' by (apply (represents_mono k); [lia|done]).
  pose proof (represents_entries k s a t Hr) as Hlen.
  assert (Z.of_nat (length (default [] (p_contents a !! t))) <= k) as Hbound.
  { destruct Hr as (es & _ & _ & Hes & Ha & _). rewrite Ha, listed_default. pose proof (payloads_length t es). lia. }
  assert (locked_ s = p_locked a) as Hlock by (by destruct Hr as (es & _ & Hl & _)).
  unfold param_step, spec_step, Update. destruct (negb (IsValidTag t d)); [by eexists|].
  unfold FillDataEntry, bind at 1, gets at 1. cbn [id]. rewrite Hlock. destruct (p_locked a) eqn:Hp; [by eexists|].
  destruct (represents_append k s a t d Hr Hlock Ht Hd Hk) as (sa & Ea & Hra).
  destruct (data_map_ s !! t) as [v|] eqn:Hv; simpl default in Hlen.
  - destruct (Z.ltb_spec e (Z.of_nat (length v))) as [Hlt|Hge].
    + destruct (represents_write k s a t d (Z.to_nat e) v Hr Hlock Hd Hv) as (x & s' & -> & -> & Hr2); [lia|].
      exists s'. rewrite <- Hlen. rewrite (proj2 (Nat.ltb_ge _ _)) by lia. rewrite (proj2 (Nat.eqb_neq _ _)) by lia.
      split; [done|]. apply (represents_mono k); [lia|done].
    + unfold sub64. destruct (decide (e = Z.of_nat (length v))) as [->|Hne].
      * rewrite Z.sub_diag. change (1 <? 0 mod 2 ^ 64) with false. exists sa. rewrite <- Hlen in Ea, Hbound |- *. rewrite Nat2Z.id, Nat.ltb_irrefl, Nat.eqb_refl.
        rewrite Ea. by split.
      * rewrite <- Hlen in Hbound |- *. rewrite (proj2 (Z.ltb_lt _ _)).
        -- rewrite (proj2 (Nat.ltb_lt _ _)) by lia. by exists s.
        -- rewrite <- (Z_mod_plus_full _ 1), Z.mod_small; unfold UINT32_MOD in *; lia.
  - destruct (Z.eqb_spec e 0) as [->|Hne].
    + exists sa. rewrite <- Hlen in Ea |- *. change (Z.of_nat (length [])) with 0 in Ea.
      cbn [negb]. rewrite Ea. by split.
    + rewrite <- Hlen. simpl. rewrite (proj2 (Nat.ltb_lt 0 _)) by lia. by exists s.
Qed.

Lemma represents_copy k s a : represents k s a ->
  ExtraParam_copy s = Some (s <| locked_ := false |>, s <| locked_ := false |>) /\
  represents k (s <| locked_ := false |>) (mkParams false (p_contents a)).
Proof.
  intros (es & Hl & Hlock & Hk & Ha & Hs). split.
  - unfold ExtraParam_copy, GetAndLock, ReturnAndUnlock. simpl.
    by rewrite (Acquire_layout es s ExtraParam_new Hl) by done.
  - exists es. split_and!; try done. destruct Hl. by split.
Qed.

Lemma represents_step k s a op : represents k s a -> k < 2 ^ 32 - 1 -> fits op ->
  exists s', param_step op s = Some (fst (spec_step op a), s') /\ represents (k + 1) s' (snd (spec_step op a)).
Proof.
  intros Hr Hk Hf. assert (represents (k + 1) s a) as Hr' by (apply (represents_mono k); [lia|done]).
  assert (locked_ s = p_locked a) as Hlock by (by destruct Hr as (es & _ & Hl & _)).
  assert (forall b, represents (k + 1) (s <| locked_ := b |>) (mkParams b (p_contents a))) as Hb.
  { intros b. destruct Hr' as (es & [H1 H2 H3 H4] & _ & Hk' & Ha). exists es.
    split; [by split|]. by split. }
  destruct op as [t d e|t d e|t|t| | | |same| | |].
  - by apply represents_update.
  - exists s. simpl. rewrite (represents_fetch k s a t d e Hr) by apply Hf. by split.
  - exists s. split; [|done]. simpl. unfold Exists.
    pose proof (f_equal (.!! t) (represents_lookup k s a Hr)) as E. simpl in E. rewrite !lookup_fmap in E.
    do 4 f_equal. apply bool_decide_ext.
    destruct (data_map_ s !! t), (p_contents a !! t); done.
  - exists s. split; [|done]. simpl. unfold EntryCount. rewrite <- (represents_entries k s a t Hr).
    by destruct (data_map_ s !! t).
  - exists s. split; [|done]. simpl. unfold TagCount.
    rewrite <- (map_size_fmap length (data_map_ s)), (represents_lookup k s a Hr). by rewrite map_size_fmap.
  - simpl. unfold Clear, bind, gets, modify, ret. rewrite Hlock. destruct (p_locked a) eqn:Hp; [by eexists|].
    eexists. split; [done|]. apply (represents_mono 0); [destruct Hr as (es & _ & _ & ? & _); lia|].
    destruct represents_new as (es & Hl & H1 & H2). exists es. destruct Hl.
    split; [by split|]. split; [done|apply H2].
  - eexists. split; [done|]. apply Hb.
  - simpl. unfold ReturnAndUnlock. rewrite Hlock. destruct (p_locked a) eqn:Hp; [|by eexists].
    destruct same; [|by eexists]. eexists. split; [done|]. apply Hb.
  - simpl. rewrite (proj1 (represents_copy k s a Hr)). eexists. split; [done|]. apply Hb.
  - eexists. split; [done|]. apply (represents_mono 0); [destruct Hr as (es & _ & _ & ? & _); lia|].
    destruct represents_new as (es & Hl & H1 & H2). exists es. destruct Hl. split; [by split|]. split; [done|apply H2].
  - destruct Hr as (es & Hl & _). simpl. rewrite (Acquire_layout es s ExtraParam_new Hl) by done. eexists. split; [done|]. apply Hb.
Qed.

Lemma represents_run ops : forall k s a, represents k s a -> Forall fits ops ->
  k + Z.of_nat (length ops) < 2 ^ 32 ->
  exists s', param_run ops s = Some (fst (spec_run ops a), s') /\
    represents (k + Z.of_nat (length ops)) s' (snd (spec_run ops a)).
Proof.
  induction ops as [|op ops IH]; intros k s a Hr Hf Hk.
  - exists s. split; [done|]. by rewrite Z.add_0_r.
  - apply Forall_cons in Hf as [Hop Hf]. cbn [length] in Hk |- *.
    destruct (represents_step k s a op Hr ltac:(lia) Hop) as (s1 & E1 & Hr1).
    cbn [param_run spec_run]. rewrite E1. destruct (spec_step op a) as [r a1]. simpl in Hr1 |- *.
    destruct (IH (k + 1) s1 a1 Hr1 Hf ltac:(lia)) as (s2 & -> & Hr2). exists s2.
    destruct (spec_run ops a1) as [rs a2]. split; [done|]. simpl in *. by replace (k + Z.of_nat (S (length ops))) with (k + 1 + Z.of_nat (length ops)) by lia.
Qed.

(** C16. The container is a map from tags to lists of structures.  Any
    sequence of fewer than 2^32 operations (writing and reading entries,
    queries, clearing, locking, copying, giving the bytes away and acquiring
    them), each tag with the structure of its type, runs without undefined
    behaviour and answers what the abstract map of lists answers, errors
    included: the entries of a tag are numbered without gaps, nothing is
    written while the container is locked, and a copy has everything the
    original has.  In the end the container holds what the map says: its
    buffer is the entries, the lists of the map are those of each tag, and
    the index leads to them.  Removing entries and erasing tags are not among
    the operations: [erased_tag_comes_back]. *)
Theorem extra_param_refines_map (ops : list ParamOp) :
  Forall fits ops -> Z.of_nat (length ops) < 2 ^ 32 ->
  exists s, param_run ops ExtraParam_new = Some (fst (spec_run ops (mkParams false ∅)), s) /\
    represents (Z.of_nat (length ops)) s (snd (spec_run ops (mkParams false ∅))).
Proof. intros Hf Hk. exact (represents_run ops 0 _ _ represents_new Hf Hk). Qed.

(** The buffer carries everything.  Whatever a container was built by, a
    container that acquires its bytes, wherever they went in between, is the
    same container, unlocked: the map it builds from the buffer is the map
    the operations kept up. *)
Theorem acquired_container_same (ops : list ParamOp) (s s' : ExtraParam) (rs : list ParamAnswer) :
  Forall fits ops -> Z.of_nat (length ops) < 2 ^ 32 ->
  param_run ops ExtraParam_new = Some (rs, s) -> locked_ s' = false ->
  Acquire (data_buffer_ s) s' = Some (0, s <| locked_ := false |>).
Proof.
  intros Hf Hk E Hl. destruct (represents_run ops 0 _ _ represents_new Hf Hk) as (s1 & E1 & es & Hs & _).
  rewrite E in E1. injection E1 as _ <-. by apply (Acquire_layout es).
Qed.
End Refinement.

(** ** Erasing *)

Lemma reorganize_layout es2 : forall fuel es1 m,
  (length es2 <= fuel)%nat -> Forall entry_ok es2 -> numbered (es1 ++ es2) -> indexed (es1 ++ es2) m ->
  reorganize_loop fuel (flat (es1 ++ es2)) (total es1) m = Some (0, m).
Proof.
  induction es2 as [|e es2 IH]; intros fuel es1 m Hf Hok Hn Hm.
  - rewrite app_nil_r. destruct fuel; cbn [reorganize_loop]; by rewrite flat_length, Z.leb_refl.
  - destruct fuel as [|fuel]; [simpl in Hf; lia|]. apply Forall_cons in Hok as [He Hok].
    cbn [reorganize_loop]. rewrite flat_length, (load_entry es1 e es2), total_app by done.
    pose proof (total_nonneg es2). pose proof (entry_size_pos e).
    rewrite (proj2 (Z.leb_gt _ _)) by (simpl; unfold kDataDescSize in *; lia).
    cbn [tag_id entry_id data_size]. rewrite (numbered_at _ _ _ Hn), <- (offsets_length _ _ 0), Hm.
    rewrite offsets_app. cbn [offsets]. rewrite Z.eqb_refl.
    set (os := offsets (e_tag e) 0 es1). set (os2 := offsets _ _ es2).
    assert (listed (os ++ (0 + total es1) :: os2) = Some (os ++ (0 + total es1) :: os2)) as -> by (by destruct os).
    rewrite (proj2 (Z.leb_gt _ _)) by (rewrite length_app; simpl; lia).
    rewrite Nat2Z.id, list_insert_id by (by rewrite lookup_app_r, Nat.sub_diag).
    rewrite insert_id.
    2: { rewrite Hm, offsets_app. cbn [offsets]. rewrite Z.eqb_refl. fold os os2. by destruct os. }
    specialize (IH fuel (es1 ++ [e]) m). rewrite <- !app_assoc in IH. simpl in IH.
    rewrite <- IH; [|simpl in Hf; lia|done..]. f_equal. rewrite total_app. simpl. unfold entry_size. lia.
Qed.

Lemma offsets_nil t es : payloads t es = [] -> forall o, offsets t o es = [].
Proof. intros Hp o. apply length_zero_iff_nil. by rewrite offsets_length, Hp. Qed.

(** Erasing works for the first tag of the buffer only.  [erase] is given
    the size of an entry as the end of its range.  When the entry of a tag
    has as many bytes before it as it is long, nothing is taken from the
    buffer: [Erase] reports success and the container has lost the tag, but
    whoever acquires its bytes gets the tag and its structure back.  With
    more bytes before it the range ends before it begins, and the erasure is
    undefined. *)
Theorem erased_tag_comes_back (es1 es2 : list Entry) (e : Entry) (s : ExtraParam) :
  layout (es1 ++ e :: es2) s -> locked_ s = false ->
  payloads (e_tag e) es1 = [] -> payloads (e_tag e) es2 = [] -> is_u32 (entry_size e) ->
  (total es1 = entry_size e ->
   exists s1, Erase (e_tag e) s = Some (0, s1) /\ Exists (e_tag e) s1 = false /\
     forall s', locked_ s' = false -> Acquire (data_buffer_ s1) s' = Some (0, s)) /\
  (entry_size e < total es1 -> Erase (e_tag e) s = None).
Proof.
  intros Hl Hlock H1 H2 Hu.
  assert (data_map_ s !! e_tag e = Some [total es1]) as Hm.
  { destruct Hl as [_ Hm _ _]. rewrite Hm, offsets_app, (offsets_nil _ es1) by done. cbn [offsets].
    by rewrite Z.eqb_refl, offsets_nil. }
  assert (<[e_tag e := [total es1]]> (data_map_ s) = data_map_ s) as Hid by (by apply insert_id).
  assert (forall p, erase_entry (total es1) (mkExtraParam false p (data_buffer_ s)) =
    match erase_range (total es1) (entry_size e) (data_buffer_ s) with
    | None => None | Some b => Some (tt, mkExtraParam false p b) end) as He.
  { intros p. destruct Hl as [Hb _ He _]. apply Forall_app in He as [_ He]. apply Forall_cons in He as [He _].
    unfold erase_entry. cbn [data_buffer_]. rewrite Hb, load_entry by done. cbn [data_size].
    by rewrite Z.add_comm, u32_small. }
  unfold Erase, EraseDataTag, bind, gets, modify, id. rewrite Hlock, Hm. change (sort_descending [total es1]) with [total es1].
  cbn [for_each last]. unfold bind, ret. rewrite Hid.
  assert (s <| data_map_ := data_map_ s |> = mkExtraParam false (data_map_ s) (data_buffer_ s)) as ->
    by (destruct s; simpl in *; by subst).
  rewrite He. unfold erase_range. split; intros Hsize.
  - rewrite Hsize, Z.leb_refl. destruct Hl as [Hb Hx Ho Hn] eqn:E. clear E.
    rewrite (proj2 (Z.leb_le _ _)).
    2: { rewrite Hb, flat_length, total_app. simpl. pose proof (total_nonneg es1); pose proof (total_nonneg es2). lia. }
    cbn [andb]. rewrite take_drop. unfold ReorganizeDataMap. cbn [data_buffer_ data_map_].
    rewrite Hb, <- Hsize, reorganize_layout; try done.
    2: { pose proof (layout_length (es1 ++ e :: es2)) as Hf. rewrite length_app in Hf. lia. }
    2: { by apply Forall_app in Ho as [_ Ho]. }
    eexists. split; [done|]. split; [unfold Exists; simpl; by rewrite lookup_delete_eq|].
    intros s' Hs'. pose proof (Acquire_layout _ s s' Hl Hs') as Ha. rewrite Hb in Ha. simpl. rewrite Ha.
    destruct s. simpl in *. by subst.
  - by rewrite (proj2 (Z.leb_gt _ _)).
Qed.

(** ** On concrete structures *)

Definition demo_sizeof (t : Z) : nat := if t =? 7 then 8%nat else 6%nat.

Lemma demo_sizeof_u32 t : is_u32 (Z.of_nat (demo_sizeof t)).
Proof. unfold demo_sizeof. by case_goal. Qed.

Definition demo_source (x : Z) : list Z := bytes32 7 ++ bytes32 x.

Definition demo_params : list ParamOp :=
  [OpUpdate 7 (demo_source 1) 0; OpUpdate 9 (bytes32 9 ++ [1; 0]) 0; OpUpdate 7 (demo_source 2) 1;
   OpUpdate 7 (demo_source 3) 0; OpUpdate 7 (demo_source 4) 5; OpFetch 7 (demo_source 0) 0;
   OpFetch 7 (demo_source 0) 1; OpTagCount; OpCopy; OpMove; OpFetch 9 (bytes32 9 ++ [0; 0]) 0].

Lemma demo_params_fit : Forall (fits demo_sizeof) demo_params.
Proof. by repeat constructor. Qed.

Definition demo_container : ExtraParam :=
  default ExtraParam_new (snd <$> param_run demo_params ExtraParam_new).

Definition demo_answers : list ParamAnswer := fst (spec_run demo_params (mkParams false ∅)).

Lemma demo_runs : param_run demo_params ExtraParam_new = Some (demo_answers, demo_container).
Proof. vm_compute. reflexivity. Qed.

Lemma extra_param_refines_map_witness :
  demo_answers = [Answer 0; Answer 0; Answer 0; Answer 0; Answer (- EINVAL);
                  AnswerFetched (Fetched (demo_source 3)); AnswerFetched (Fetched (demo_source 2));
                  Answer 2; Answer 0; Answer 0; AnswerFetched (Fetched (bytes32 9 ++ [1; 0]))] /\
  exists s, param_run demo_params ExtraParam_new = Some (demo_answers, s) /\
    represents demo_sizeof 11 s (snd (spec_run demo_params (mkParams false ∅))).
Proof.
  split; [vm_compute; reflexivity|].
  exact (extra_param_refines_map demo_sizeof demo_sizeof_u32 demo_params demo_params_fit eq_refl).
Defined.

Lemma acquired_container_same_witness :
  data_map_ demo_container !! 7 = Some [0; 38] /\
  Acquire (data_buffer_ demo_container) ExtraParam_new = Some (0, demo_container <| locked_ := false |>).
Proof.
  split; [vm_compute; reflexivity|].
  exact (acquired_container_same demo_sizeof demo_sizeof_u32 demo_params demo_container ExtraParam_new
    demo_answers demo_params_fit eq_refl demo_runs eq_refl).
Defined.

Definition demo_two_tags : ExtraParam :=
  default ExtraParam_new
    (snd <$> param_run [OpUpdate 3 (bytes32 3 ++ [5]) 0; OpUpdate 4 (bytes32 4 ++ [6]) 0] ExtraParam_new).

Lemma demo_two_tags_layout : layout [mkEntry 3 0 (bytes32 3 ++ [5]); mkEntry 4 0 (bytes32 4 ++ [6])] demo_two_tags.
Proof.
  destruct (layout_append [] ExtraParam_new 3 (bytes32 3 ++ [5])) as (s1 & E1 & H1 & _); try done.
  vm_compute in E1. injection E1 as <-.
  destruct (layout_append _ _ 4 (bytes32 4 ++ [6]) H1) as (s2 & E2 & H2 & _); try done.
  vm_compute in E2. injection E2 as <-. exact H2.
Qed.

Lemma erased_tag_comes_back_witness :
  exists s1, Erase 4 demo_two_tags = Some (0, s1) /\ Exists 4 s1 = false /\
    Acquire (data_buffer_ s1) ExtraParam_new = Some (0, demo_two_tags).
Proof.
  destruct (erased_tag_comes_back [mkEntry 3 0 (bytes32 3 ++ [5])] [] (mkEntry 4 0 (bytes32 4 ++ [6]))
    demo_two_tags demo_two_tags_layout eq_refl eq_refl eq_refl) as [H _]; [by vm_compute|].
  destruct (H eq_refl) as (s1 & E & Hx & Ha). exists s1. split; [exact E|]. split; [exact Hx|]. by apply Ha.
Defined.
