(* ===== verification/ThreadHelper.v ===== *)
(** * The worker thread helper

    Models [ThreadHelper] of common/utils/qmmf_thread.h and
    common/utils/qmmf_thread.cc.  [lock_] lets one of [Run], [RequestExit] and
    [RequestExitAndWait] at a time be under way; the thread it manages runs
    besides, and [state_lock_] is only held for one access to [state_].  So a
    call is a program counter that moves from one access to the next, and the
    thread moves in between. *)

From S2P Require Import Prelude.

Inductive ThreadHelperState := kActive | kToIdle | kIdle | kInactive.

#[export] Instance ThreadHelperState_eq_dec : EqDecision ThreadHelperState.
Proof. solve_decision. Defined.

(** The thread of a joinable [std::thread]: in its loop, out of the loop, at
    the end of [MainLoop]. *)
Inductive Worker := Looping | Leaving | Ended.

(** Where the call under way is, if there is one. *)
Inductive Call :=
| NoCall
| RunSwitch | RunWait | RunJoin | RunJoined | RunCreate | RunActivate
| ExitSwitch | ExitChange
| WaitSwitch | WaitChange | WaitIdle | WaitJoin | WaitJoined.

#[export] Instance Call_eq_dec : EqDecision Call.
Proof. solve_decision. Defined.

Record ThreadHelper := mkThreadHelper { state_ : ThreadHelperState; thread_ : option Worker; call : Call }.

#[export] Instance settable_ThreadHelper : Settable ThreadHelper :=
  {| eta_expand := fun s => mkThreadHelper (state_ s) (thread_ s) (call s) |}.

Definition ThreadHelper_new : ThreadHelper := mkThreadHelper kInactive None NoCall.

(** A step ends in a state, or takes the process down: [std::terminate] when
    a joinable thread is assigned to, [std::system_error] when there is no
    thread to join. *)
Inductive Outcome := Goes (s : ThreadHelper) | Crashes.

Definition ChangeState (st : ThreadHelperState) (next : Call) (s : ThreadHelper) : option Outcome :=
  Some (Goes (s <| state_ := st |> <| call := next |>)).

Definition proceed (next : Call) (s : ThreadHelper) : option Outcome := Some (Goes (s <| call := next |>)).

(** [WaitState] goes on once the state is there. *)
Definition WaitState (st : ThreadHelperState) (next : Call) (s : ThreadHelper) : option Outcome :=
  if decide (state_ s = st) then proceed next s else None.

(** [std::thread::join] goes on once the thread has ended. *)
Definition join (next : Call) (s : ThreadHelper) : option Outcome :=
  match thread_ s with
  | None => Some Crashes
  | Some Ended => Some (Goes (s <| thread_ := None |> <| call := next |>))
  | Some _ => None
  end.

(** [created]: the operating system provides the thread. *)
Definition Run (created : bool) (s : ThreadHelper) : option Outcome :=
  match call s with
  | RunSwitch =>
      match state_ s with
      | kActive => proceed NoCall s
      | kToIdle => proceed RunWait s
      | kIdle => proceed RunJoin s
      | kInactive => proceed RunCreate s
      end
  | RunWait => WaitState kIdle RunJoin s
  | RunJoin => join RunJoined s
  | RunJoined => ChangeState kInactive RunCreate s
  | RunCreate =>
      if negb created then proceed NoCall s
      else
        match thread_ s with
        | Some _ => Some Crashes
        | None => Some (Goes (s <| thread_ := Some Looping |> <| call := RunActivate |>))
        end
  | RunActivate => ChangeState kActive NoCall s
  | _ => None
  end.

Definition RequestExit (s : ThreadHelper) : option Outcome :=
  match call s with
  | ExitSwitch => proceed (match state_ s with kActive => ExitChange | _ => NoCall end) s
  | ExitChange => ChangeState kToIdle NoCall s
  | _ => None
  end.

Definition RequestExitAndWait (s : ThreadHelper) : option Outcome :=
  match call s with
  | WaitSwitch =>
      match state_ s with
      | kActive => proceed WaitChange s
      | kToIdle => proceed WaitIdle s
      | kIdle => proceed WaitJoin s
      | kInactive => proceed NoCall s
      end
  | WaitChange => ChangeState kToIdle WaitJoin s
  | WaitIdle => WaitState kIdle WaitJoin s
  | WaitJoin => join WaitJoined s
  | WaitJoined => ChangeState kInactive NoCall s
  | _ => None
  end.

Definition ExitPending (s : ThreadHelper) : bool := bool_decide (state_ s = kToIdle).

(** [MainLoop]: the loop is left when [ThreadLoop] returns [false]; then the
    state changes and the thread ends. *)
Definition MainLoop (s : ThreadHelper) : option Outcome :=
  match thread_ s with
  | Some Looping => Some (Goes (s <| thread_ := Some Leaving |>))
  | Some Leaving => Some (Goes (s <| thread_ := Some Ended |> <| state_ := kIdle |>))
  | _ => None
  end.

Inductive Action :=
| CallRun | CallRequestExit | CallRequestExitAndWait
| Proceed (created : bool)
| Work.

Definition begin (c : Call) (s : ThreadHelper) : option Outcome :=
  if decide (call s = NoCall) then proceed c s else None.

Definition act (a : Action) (s : ThreadHelper) : option Outcome :=
  match a with
  | CallRun => begin RunSwitch s
  | CallRequestExit => begin ExitSwitch s
  | CallRequestExitAndWait => begin WaitSwitch s
  | Proceed created =>
      match call s with
      | RunSwitch | RunWait | RunJoin | RunJoined | RunCreate | RunActivate => Run created s
      | ExitSwitch | ExitChange => RequestExit s
      | _ => RequestExitAndWait s
      end
  | Work => MainLoop s
  end.

(** An interleaving: the actions that are possible one after the other. *)
Fixpoint schedule (acts : list Action) (s : ThreadHelper) : option Outcome :=
  match acts with
  | [] => Some (Goes s)
  | a :: acts' => match act a s with Some (Goes s') => schedule acts' s' | r => r end
  end.

(** ** The thread object is used correctly *)

(** The thread there is at each point of a call. *)
Definition consistent (s : ThreadHelper) : Prop :=
  match call s with
  | NoCall | RunSwitch | ExitSwitch | WaitSwitch => state_ s = kInactive <-> thread_ s = None
  | RunWait | RunJoin | ExitChange | WaitChange | WaitIdle | WaitJoin =>
      is_Some (thread_ s) /\ state_ s <> kInactive
  | RunJoined | WaitJoined => thread_ s = None
  | RunCreate => thread_ s = None /\ state_ s = kInactive
  | RunActivate => is_Some (thread_ s)
  end.

Lemma act_consistent a s : consistent s ->
  match act a s with Some (Goes s') => consistent s' | Some Crashes => False | None => True end.
Proof.
  destruct s as [st th c]. unfold consistent. destruct a as [| | |created|], c, st, th as [[]|]; simpl; try done;
    try destruct created; simpl; intuition (try done; try congruence).
Qed.

Lemma schedule_consistent acts : forall s, consistent s ->
  match schedule acts s with Some (Goes s') => consistent s' | Some Crashes => False | None => True end.
Proof.
  induction acts as [|a acts IH]; intros s Hs; simpl; [done|].
  pose proof (act_consistent a s Hs). destruct (act a s) as [[s'|]|]; [by apply IH|done..].
Qed.

(** C28. The thread object is used correctly in every interleaving.  Whatever
    calls are made and whenever the thread's loop ends, no thread is created
    over one that has not been joined, none is joined that is not there, and
    between the calls there is a thread exactly when the helper does not
    count as inactive. *)
Theorem thread_never_misused (acts : list Action) :
  match schedule acts ThreadHelper_new with
  | Some (Goes s) => call s = NoCall -> (state_ s = kInactive <-> thread_ s = None)
  | Some Crashes => False
  | None => True
  end.
Proof.
  pose proof (schedule_consistent acts ThreadHelper_new) as H.
  destruct (schedule acts ThreadHelper_new) as [[s|]|]; [|by apply H|done].
  intros Hc. assert (consistent s) as Hs by (by apply H). unfold consistent in Hs. by rewrite Hc in Hs.
Qed.

(** ** A loop that ends on request *)

(** The thread leaves its loop only when it has been asked to. *)
Definition heeds (a : Action) (s : ThreadHelper) : bool :=
  match a, thread_ s with Work, Some Looping => ExitPending s | _, _ => true end.

Fixpoint heeding (acts : list Action) (s : ThreadHelper) : Prop :=
  match acts with
  | [] => True
  | a :: acts' => heeds a s = true /\ match act a s with Some (Goes s') => heeding acts' s' | _ => True end
  end.

(** The state and the thread agree. *)
Definition agree (s : ThreadHelper) : Prop :=
  match call s, thread_ s with
  | (NoCall | RunSwitch | ExitSwitch | WaitSwitch), None => state_ s = kInactive
  | (NoCall | RunSwitch | ExitSwitch | WaitSwitch), Some Looping => state_ s = kActive \/ state_ s = kToIdle
  | (NoCall | RunSwitch | ExitSwitch | WaitSwitch), Some Leaving => state_ s = kToIdle
  | (NoCall | RunSwitch | ExitSwitch | WaitSwitch), Some Ended => state_ s = kIdle
  | (RunWait | WaitIdle | RunJoin | WaitJoin), Some Ended => state_ s = kIdle
  | (RunWait | WaitIdle | RunJoin | WaitJoin), Some _ => state_ s = kToIdle
  | (ExitChange | WaitChange), Some Looping => state_ s = kActive
  | (RunJoined | WaitJoined), None => state_ s = kIdle
  | RunCreate, None => state_ s = kInactive
  | RunActivate, Some Looping => state_ s = kInactive
  | _, _ => False
  end.

Lemma act_agree a s s' : agree s -> heeds a s = true -> act a s = Some (Goes s') -> agree s'.
Proof.
  destruct s as [st th c]. unfold agree, heeds, ExitPending.
  destruct a as [| | |created|], c, st, th as [[]|]; simpl; try done; try destruct created; simpl;
    intros Ha Hh E; try discriminate; try (injection E as <-); simpl; auto; try (by destruct Ha); congruence.
Qed.

(** What the call and the thread still have to do. *)
Definition call_left (c : Call) : nat :=
  match c with
  | NoCall => 0 | RunActivate => 1 | RunCreate => 2 | RunJoined => 3 | RunJoin => 4 | RunWait => 5
  | RunSwitch => 6 | ExitChange => 1 | ExitSwitch => 2 | WaitJoined => 1 | WaitJoin => 2
  | WaitIdle => 3 | WaitChange => 3 | WaitSwitch => 4
  end.

Definition thread_left (th : option Worker) : nat :=
  match th with Some Looping => 2 | Some Leaving => 1 | _ => 0 end.

(** A new thread has as much to do as the call that creates it counts. *)
Definition left (s : ThreadHelper) : nat := 4 * call_left (call s) + thread_left (thread_ s).

Definition progress (a : Action) : bool := match a with Proceed _ | Work => true | _ => false end.

Lemma act_decreases a s s' : progress a = true -> call s <> NoCall -> act a s = Some (Goes s') ->
  (left s' < left s)%nat.
Proof.
  destruct s as [st th c]. unfold left.
  destruct a as [| | |created|], c, st, th as [[]|]; simpl; try done; try destruct created; simpl;
    intros _ Hc E; try discriminate; try (injection E as <-); simpl; lia.
Qed.

Lemma agree_progress s : agree s -> call s <> NoCall ->
  exists a s', progress a = true /\ heeds a s = true /\ act a s = Some (Goes s').
Proof.
  destruct s as [st th c]. unfold agree, heeds, ExitPending.
  destruct c, st, th as [[]|]; simpl; intros Ha Hc; try done; try discriminate; try (by destruct Ha);
    first [exists (Proceed true); by eexists | exists Work; by eexists].
Qed.

Lemma heeding_app l1 : forall l2 s s1, heeding (l1 ++ l2) s -> schedule l1 s = Some (Goes s1) -> heeding l2 s1.
Proof.
  induction l1 as [|a l1 IH]; intros l2 s s1 Hh E; simpl in *; [by injection E as <-|].
  destruct Hh as [_ Hh]. destruct (act a s) as [[s'|]|]; try done. by apply (IH l2 s').
Qed.

Lemma heeding_agree acts : forall s s', agree s -> heeding acts s -> schedule acts s = Some (Goes s') -> agree s'.
Proof.
  induction acts as [|a acts IH]; intros s s' Hs Hh E; simpl in *; [by injection E as <-|].
  destruct Hh as [Ha Hh]. destruct (act a s) as [[s1|]|] eqn:E1; try done.
  apply (IH s1); [|done..]. by apply (act_agree a s).
Qed.

(** C29. Calls return when the loop ends on request.  If the thread leaves its
    loop only once it is asked to, and then does, no call is ever stuck: in
    every state the helper can get into, a call under way can go on, by itself
    or after the thread, and it returns within 26 steps of the two, in
    whatever order they come. *)
Theorem calls_return (acts : list Action) (s : ThreadHelper) :
  heeding acts ThreadHelper_new -> schedule acts ThreadHelper_new = Some (Goes s) -> call s <> NoCall ->
  (exists a s', progress a = true /\ heeds a s = true /\ act a s = Some (Goes s')) /\
  forall next s', Forall (fun a => progress a = true) next -> schedule next s = Some (Goes s') ->
    (26 < length next)%nat -> exists l1 l2 s1, next = l1 ++ l2 /\ schedule l1 s = Some (Goes s1) /\ call s1 = NoCall.
Proof.
  intros Hh E Hc. split; [apply agree_progress; [by apply (heeding_agree acts ThreadHelper_new)|done]|].
  assert (left s <= 26)%nat as Hl by (unfold left, thread_left; destruct s as [st [[]|] []]; simpl; lia).
  clear E Hh. intros next s' Hp E Hn. assert (left s < length next)%nat as Hb by lia. clear Hl Hn.
  revert s E Hc Hb. induction next as [|a next IH]; intros s E Hc Hb; [simpl in Hb; lia|].
  apply Forall_cons in Hp as [Ha Hp]. simpl in E. destruct (act a s) as [[s1|]|] eqn:E1; try done.
  destruct (decide (call s1 = NoCall)) as [Hn|Hn].
  - exists [a], next, s1. split; [done|]. split; [|done]. simpl. by rewrite E1.
  - pose proof (act_decreases a s s1 Ha Hc E1). simpl in Hb.
    destruct (IH Hp s1 E Hn ltac:(lia)) as (l1 & l2 & s2 & -> & Es & Hs2).
    exists (a :: l1), l2, s2. split; [done|]. split; [|done]. simpl. by rewrite E1.
Qed.

(** ** A loop that ends by itself *)

(** Nothing moves any more, whatever the thread and the call try. *)
Definition deadlocked (s : ThreadHelper) : Prop := call s <> NoCall /\ forall a, act a s = None.

(** A thread that ends by itself can block its owner.  [RequestExit] looks
    at the state and changes it in two steps: when the thread ends in between
    on its own, the state says that an exit is pending, and nothing will ever
    make it idle.  [RequestExitAndWait] and [Run] then wait for ever.  The
    same happens when the thread ends before [Run] has marked it active. *)
Theorem self_ended_thread_blocks (acts : list Action) (s : ThreadHelper) :
  schedule acts ThreadHelper_new = Some (Goes s) -> call s = NoCall -> state_ s = kActive ->
  (thread_ s = Some Looping -> exists s', schedule [CallRequestExit; Proceed true; Work; Work; Proceed true;
     CallRequestExitAndWait; Proceed true] s = Some (Goes s') /\ deadlocked s') /\
  (thread_ s = Some Ended -> exists s', schedule [CallRequestExit; Proceed true; Proceed true;
     CallRun; Proceed true] s = Some (Goes s') /\ deadlocked s').
Proof.
  intros _ Hc Hs. destruct s as [st th c]. simpl in *. subst.
  split; intros ->; (eexists; split; [vm_compute; reflexivity|]; split; [done|]; by intros []).
Qed.

(** ** Concrete interleavings *)

Lemma calls_return_witness :
  let acts := [CallRun; Proceed true; Proceed true; Proceed true; CallRequestExitAndWait; Proceed true] in
  match schedule acts ThreadHelper_new with
  | Some (Goes s) => call s = WaitChange /\ exists a s', progress a = true /\ act a s = Some (Goes s')
  | _ => False
  end.
Proof.
  intros acts. destruct (calls_return acts (mkThreadHelper kActive (Some Looping) WaitChange)) as [H _].
  - vm_compute. by split_and!.
  - vm_compute. reflexivity.
  - done.
  - change (schedule acts ThreadHelper_new) with (Some (Goes (mkThreadHelper kActive (Some Looping) WaitChange))).
    split; [done|]. destruct H as (a & s' & Hp & _ & E). by exists a, s'.
Defined.

Lemma self_ended_thread_blocks_witness :
  exists s, schedule [CallRun; Proceed true; Proceed true; Work; Work; Proceed true; CallRequestExit; Proceed true;
    Proceed true; CallRun; Proceed true] ThreadHelper_new = Some (Goes s) /\ deadlocked s.
Proof.
  destruct (self_ended_thread_blocks [CallRun; Proceed true; Proceed true; Work; Work; Proceed true]
    (mkThreadHelper kActive (Some Ended) NoCall) eq_refl eq_refl eq_refl) as [_ H].
  destruct (H eq_refl) as (s & E & Hd). exists s. split; [exact E|exact Hd].
Defined.
