(* ===== verification/BufferProducer.v ===== *)
(** * Producers and consumers of buffers

    Models [IBufferProducer], [IBufferConsumer], [BufferProducerImpl] and
    [BufferConsumerImpl] of recorder/src/service/qmmf_recorder_utils.h: a
    producer hands each buffer to all its consumers, counts the references,
    and gives the buffer back to its source when the last one returns it.

    A consumer is the address of its object.  An operation answers with the
    calls it makes out of the producer, in their order; a consumer returns a
    buffer in a later operation of the producer. *)

From S2P Require Import Prelude KeyedVector Monitor Memory Stream.

(** A call that leaves the producer: [OnFrameAvailable] of a consumer, or
    [NotifyBufferReturned] of the source. *)
Inductive Sent :=
| SentTo (consumer : Z) (b : StreamBuffer)
| SentBack (b : StreamBuffer).

Record BufferProducer := mkBufferProducer {
  buffers_ : gmap Z Z;
  buffer_consumers_ : kv unit
}.

#[export] Instance settable_BufferProducer : Settable BufferProducer :=
  {| eta_expand := fun p => mkBufferProducer (buffers_ p) (buffer_consumers_ p) |}.

Definition BufferProducer_new : BufferProducer := mkBufferProducer ∅ [].

Definition IsConnected (consumer : Z) (p : BufferProducer) : bool := kv_mem consumer (buffer_consumers_ p).

Definition GetNumConsumer (p : BufferProducer) : Z := u32 (Z.of_nat (length (buffer_consumers_ p))).

Definition NotifyBuffer (b : StreamBuffer) (p : BufferProducer) : list Sent * BufferProducer :=
  match buffer_consumers_ p with
  | [] => ([SentBack b], p)
  | cs =>
      (map (fun c => SentTo c b) (kv_keys cs),
       p <| buffers_ := <[sb_handle b := u32 (default 0 (buffers_ p !! sb_handle b)
                                                 + Z.of_nat (length cs))]> (buffers_ p) |>)
  end.

Definition NotifyBufferReturned (b : StreamBuffer) (p : BufferProducer) : list Sent * BufferProducer :=
  match buffers_ p !! sb_handle b with
  | None => ([], p)
  | Some r =>
      if 1 <? r then ([], p <| buffers_ := <[sb_handle b := r - 1]> (buffers_ p) |>)
      else ([SentBack b], p <| buffers_ := delete (sb_handle b) (buffers_ p) |>)
  end.

Definition AddConsumer (consumer : Z) (p : BufferProducer) : BufferProducer :=
  if IsConnected consumer p then p
  else p <| buffer_consumers_ := kv_add consumer tt (buffer_consumers_ p) |>.

Definition RemoveConsumer (consumer : Z) (p : BufferProducer) : BufferProducer :=
  if IsConnected consumer p then p <| buffer_consumers_ := kv_remove consumer (buffer_consumers_ p) |>
  else p.

(** Each wake-up of the wait: its result and what happened meanwhile.  [None]
    is a wait that goes on. *)
Fixpoint CheckAndWaitPendingBuffers (ws : list (BufferProducer -> Z * BufferProducer)) (p : BufferProducer)
    : option (Z * BufferProducer) :=
  if bool_decide (buffers_ p = ∅) then Some (0, p)
  else
    match ws with
    | [] => None
    | w :: ws' =>
        let '(r, p') := w p in
        if r =? 0 then CheckAndWaitPendingBuffers ws' p' else Some (- ETIMEDOUT, p')
    end.

(** ** Who has which buffer *)

Inductive ProducerOp :=
| Notify (b : StreamBuffer)
| Return (consumer : Z) (b : StreamBuffer)
| Connect (consumer : Z)
| Disconnect (consumer : Z).

Definition producer_step (op : ProducerOp) (p : BufferProducer) : list Sent * BufferProducer :=
  match op with
  | Notify b => NotifyBuffer b p
  | Return _ b => NotifyBufferReturned b p
  | Connect c => ([], AddConsumer c p)
  | Disconnect c => ([], RemoveConsumer c p)
  end.

(** The buffers with consumers, one entry per buffer a consumer has; and the
    buffers the source has given out and not got back. *)
Record Ledger := mkLedger { held : list (Z * Z); away : gset Z }.

Definition take_back (h : Z) (l : Ledger) : option Ledger :=
  if decide (h ∈ away l) then Some (mkLedger (held l) (away l ∖ {[h]})) else None.

(** The ledger after a call; [None] when the source gets a buffer it has. *)
Definition book_call (l : option Ledger) (s : Sent) : option Ledger :=
  match l, s with
  | None, _ => None
  | Some l, SentTo c b => Some (mkLedger (held l ++ [(c, sb_handle b)]) (away l))
  | Some l, SentBack b => take_back (sb_handle b) l
  end.

Fixpoint remove_one (x : Z * Z) (l : list (Z * Z)) : list (Z * Z) :=
  match l with
  | [] => []
  | y :: l' => if decide (x = y) then l' else y :: remove_one x l'
  end.

(** What an operation enters by itself. *)
Definition book_op (op : ProducerOp) (l : Ledger) : Ledger :=
  match op with
  | Notify b => mkLedger (held l) ({[sb_handle b]} ∪ away l)
  | Return c b => mkLedger (remove_one (c, sb_handle b) (held l)) (away l)
  | _ => l
  end.

(** The calls allowed: a consumer returns what it has, the source passes on a
    buffer that is out already only to consumers, and the references fit into
    their counter. *)
Definition allowed (op : ProducerOp) (p : BufferProducer) (l : Ledger) : bool :=
  match op with
  | Notify b => bool_decide (sb_handle b ∈ away l -> buffer_consumers_ p <> []) &&
      (Z.of_nat (length (held l) + length (buffer_consumers_ p)) <? UINT32_MOD)
  | Return c b => bool_decide ((c, sb_handle b) ∈ held l)
  | _ => true
  end.

Fixpoint producer_run (ops : list ProducerOp) (p : BufferProducer) (l : Ledger)
    : BufferProducer * option Ledger :=
  match ops with
  | [] => (p, Some l)
  | op :: ops' =>
      let '(calls, p') := producer_step op p in
      match fold_left book_call calls (Some (book_op op l)) with
      | None => (p', None)
      | Some l' => producer_run ops' p' l'
      end
  end.

Fixpoint producer_allowed (ops : list ProducerOp) (p : BufferProducer) (l : Ledger) : bool :=
  match ops with
  | [] => true
  | op :: ops' =>
      allowed op p l &&
      let '(calls, p') := producer_step op p in
      match fold_left book_call calls (Some (book_op op l)) with
      | None => true
      | Some l' => producer_allowed ops' p' l'
      end
  end.

(** ** The counters agree with the consumers *)

(** How many consumers have the buffer [h]. *)
Fixpoint holders (h : Z) (l : list (Z * Z)) : Z :=
  match l with
  | [] => 0
  | (_, h') :: l' => (if h' =? h then 1 else 0) + holders h l'
  end.

Definition counted (n : Z) : option Z := if n =? 0 then None else Some n.

Record agrees (p : BufferProducer) (l : Ledger) : Prop := {
  agrees_count : forall h, buffers_ p !! h = counted (holders h (held l));
  agrees_away : forall h, h ∈ away l <-> 0 < holders h (held l);
  agrees_size : Z.of_nat (length (held l)) < UINT32_MOD
}.

Lemma notify_consumers b p : buffer_consumers_ p <> [] ->
  NotifyBuffer b p = (map (fun c => SentTo c b) (kv_keys (buffer_consumers_ p)),
    p <| buffers_ := <[sb_handle b := u32 (default 0 (buffers_ p !! sb_handle b)
                                             + Z.of_nat (length (buffer_consumers_ p)))]> (buffers_ p) |>).
Proof. intros Hne. unfold NotifyBuffer. by destruct (buffer_consumers_ p). Qed.

Lemma holders_bound h l : 0 <= holders h l <= Z.of_nat (length l).
Proof. induction l as [|[c h'] l IH]; simpl; [lia|]. case_goal; lia. Qed.

Lemma holders_app h l1 l2 : holders h (l1 ++ l2) = holders h l1 + holders h l2.
Proof. induction l1 as [|[c h'] l1 IH]; simpl; [done|]. rewrite IH. lia. Qed.

Lemma holders_all h h' cs : holders h (map (fun c => (c, h')) cs) = if h' =? h then Z.of_nat (length cs) else 0.
Proof. induction cs as [|c cs IH]; simpl; [by case_goal|]. rewrite IH. case_goal; lia. Qed.

Lemma holders_remove h c h' l : (c, h') ∈ l ->
  holders h (remove_one (c, h') l) = holders h l - (if h' =? h then 1 else 0).
Proof.
  induction l as [|[d g] l IH]; intros Hin; [by apply not_elem_of_nil in Hin|].
  apply elem_of_cons in Hin. simpl. case_decide as Hd.
  - injection Hd as <- <-. lia.
  - destruct Hin as [Hin|Hin]; [done|]. simpl. rewrite IH by done. lia.
Qed.

Lemma holders_in c h l : (c, h) ∈ l -> 0 < holders h l.
Proof.
  induction l as [|[d g] l IH]; intros Hin; [by apply not_elem_of_nil in Hin|].
  simpl. pose proof (holders_bound h l). apply elem_of_cons in Hin as [Hin|Hin].
  - injection Hin as <- <-. rewrite Z.eqb_refl. lia.
  - apply IH in Hin. case_goal; lia.
Qed.

Lemma holders_some h l : 0 < holders h l -> exists c, (c, h) ∈ l.
Proof.
  induction l as [|[d g] l IH]; simpl; [lia|]. destruct (Z.eqb_spec g h) as [->|_]; intros Hp.
  - exists d. by left.
  - destruct IH as [c Hc]; [lia|]. exists c. by right.
Qed.

Lemma remove_one_length x l : (length (remove_one x l) <= length l)%nat.
Proof. induction l as [|y l IH]; simpl; [done|]. case_decide; simpl; lia. Qed.

Lemma book_deliveries b cs : forall l,
  fold_left book_call (map (fun c => SentTo c b) cs) (Some l)
  = Some (mkLedger (held l ++ map (fun c => (c, sb_handle b)) cs) (away l)).
Proof.
  induction cs as [|c cs IH]; intros [hl aw]; simpl; [by rewrite app_nil_r|].
  rewrite IH. simpl. by rewrite <- app_assoc.
Qed.

Lemma counted_default n : default 0 (counted n) = n.
Proof. unfold counted. by destruct (Z.eqb_spec n 0) as [->|]. Qed.

Lemma counted_pos n : n <> 0 -> counted n = Some n.
Proof. intros Hn. unfold counted. by rewrite (proj2 (Z.eqb_neq _ _)). Qed.

Lemma agrees_notify b p l : agrees p l -> allowed (Notify b) p l = true -> exists l',
  fold_left book_call (fst (NotifyBuffer b p)) (Some (book_op (Notify b) l)) = Some l' /\
  agrees (snd (NotifyBuffer b p)) l'.
Proof.
  intros [Hc Ha Hs] Hok. simpl in Hok. bool_hyps. rename H into Hout, H0 into Hfit. unfold NotifyBuffer. set (h := sb_handle b) in *.
  destruct (buffer_consumers_ p) as [|c0 cs] eqn:Ecs.
  - simpl. unfold take_back. simpl. fold h. rewrite decide_True by set_solver. eexists. split; [done|].
    split; [done| |done]. intros g. simpl. rewrite <- Ha. split; [set_solver|]. intros Hg.
    assert (g <> h) by (intros ->; by apply Hout in Hg). set_solver.
  - rewrite <- Ecs in *. simpl fst. rewrite book_deliveries. eexists. split; [done|]. simpl.
    pose proof (holders_bound h (held l)).
    assert (Hn : 0 < Z.of_nat (length (buffer_consumers_ p))) by (rewrite Ecs; simpl; lia).
    split; simpl; fold h.
    + intros g. rewrite holders_app, holders_all, (Hc h), counted_default. unfold kv_keys. rewrite length_map.
      destruct (Z.eqb_spec h g) as [<-|Hne].
      * rewrite lookup_insert_eq, u32_small by (split; lia). rewrite counted_pos by lia. done.
      * by rewrite lookup_insert_ne, Z.add_0_r by done.
    + intros g. rewrite holders_app, holders_all. unfold kv_keys. rewrite length_map, elem_of_union, elem_of_singleton, Ha.
      pose proof (holders_bound g (held l)). destruct (Z.eqb_spec h g) as [<-|Hne]; [|rewrite Z.add_0_r].
      * split; [lia|by left].
      * split; [intros [->|]; [done|lia]|by right].
    + rewrite length_app, !length_map. unfold kv_keys. rewrite length_map. lia.
Qed.

Lemma agrees_return c b p l : agrees p l -> allowed (Return c b) p l = true -> exists l',
  fold_left book_call (fst (NotifyBufferReturned b p)) (Some (book_op (Return c b) l)) = Some l' /\
  agrees (snd (NotifyBufferReturned b p)) l'.
Proof.
  intros [Hc Ha Hs] Hin. simpl in Hin. bool_hyps. unfold NotifyBufferReturned. set (h := sb_handle b) in *.
  pose proof (holders_in c h (held l) Hin) as Hpos. rewrite Hc, counted_pos by lia.
  pose proof (remove_one_length (c, h) (held l)) as Hlen.
  destruct (Z.ltb_spec 1 (holders h (held l))) as [Hm|Hm].
  - eexists. split; [done|]. split; simpl; fold h; [| |lia].
    + intros g. rewrite holders_remove by done. destruct (Z.eqb_spec h g) as [<-|Hne].
      * rewrite lookup_insert_eq, counted_pos by lia. done.
      * by rewrite lookup_insert_ne, Z.sub_0_r by done.
    + intros g. rewrite holders_remove, Ha by done. destruct (Z.eqb_spec h g) as [<-|_]; lia.
  - simpl. unfold take_back. simpl. fold h. rewrite decide_True by (by apply Ha). eexists. split; [done|].
    split; simpl; [| |lia].
    + intros g. rewrite holders_remove by done. destruct (Z.eqb_spec h g) as [<-|Hne].
      * rewrite lookup_delete_eq. by replace (holders h (held l) - 1) with 0 by lia.
      * by rewrite lookup_delete_ne, Z.sub_0_r by done.
    + intros g. rewrite holders_remove by done. rewrite elem_of_difference, elem_of_singleton, Ha.
      destruct (Z.eqb_spec h g) as [<-|Hne]; [split; [by intros [? []]|lia]|]. split; [lia|]. split; [lia|congruence].
Qed.

Lemma agrees_step op p l : agrees p l -> allowed op p l = true -> exists l',
  fold_left book_call (fst (producer_step op p)) (Some (book_op op l)) = Some l' /\
  agrees (snd (producer_step op p)) l'.
Proof.
  destruct op as [b|c b|c|c]; [apply agrees_notify|apply agrees_return| |]; intros [Hc Ha Hs] _;
    exists l; (split; [done|]); simpl; unfold AddConsumer, RemoveConsumer; case_goal; by split.
Qed.

Lemma agrees_run ops : forall p l, agrees p l -> producer_allowed ops p l = true ->
  exists p' l', producer_run ops p l = (p', Some l') /\ agrees p' l'.
Proof.
  induction ops as [|op ops IH]; intros p l Hp Hok; simpl; [by exists p, l|].
  apply andb_true_iff in Hok as [Ha Hok]. destruct (agrees_step op p l Hp Ha) as (l' & E & Hp').
  destruct (producer_step op p) as [calls p']. simpl in *. rewrite E in Hok |- *. by apply IH.
Qed.

(** C20. A buffer goes back to the source exactly when its last consumer has
    returned it.  Over every sequence of deliveries, returns and changes of
    the consumers in which consumers return only what they have, the count of
    each buffer is how many times consumers have it, and a buffer that none
    has is not counted; the source never gets back a buffer it already has;
    the buffers it has not got back are those some consumer still has; and
    nothing is pending for [CheckAndWaitPendingBuffers] exactly when no
    consumer has a buffer. *)
Theorem producer_conserves_buffers (ops : list ProducerOp) :
  producer_allowed ops BufferProducer_new (mkLedger [] ∅) = true ->
  exists p l, producer_run ops BufferProducer_new (mkLedger [] ∅) = (p, Some l) /\
    (forall h, buffers_ p !! h = if holders h (held l) =? 0 then None else Some (holders h (held l))) /\
    (forall h, h ∈ away l <-> exists c, (c, h) ∈ held l) /\
    (forall ws, (CheckAndWaitPendingBuffers ws p = Some (0, p) /\ held l = []) \/
      (held l <> [] /\ CheckAndWaitPendingBuffers [] p = None)).
Proof.
  intros Hok. destruct (agrees_run ops BufferProducer_new (mkLedger [] ∅)) as (p & l & E & [Hc Ha Hs]); [|done|].
  { split; [done| |done]. intros h. simpl. split; [by intros ?%elem_of_empty|lia]. }
  exists p, l. split; [done|]. split; [exact Hc|]. split.
  - intros h. rewrite Ha. split; [apply holders_some|]. intros [c Hin]. by apply (holders_in c).
  - intros ws. destruct (held l) as [|[c h] hs] eqn:El.
    + left. split; [|done]. assert (buffers_ p = ∅) as Hem by (apply map_eq; intros h; by rewrite Hc, lookup_empty).
      destruct ws; simpl; by rewrite bool_decide_eq_true_2.
    + right. split; [done|]. simpl. rewrite bool_decide_eq_false_2; [done|]. intros Hem.
      pose proof (Hc h) as Hx. rewrite Hem, lookup_empty, counted_pos in Hx; [done|].
      pose proof (holders_bound h hs). simpl. rewrite Z.eqb_refl. lia.
Qed.

(** ** Two consumers *)

Definition demo_buffer (h ts : Z) : StreamBuffer := mkStreamBuffer None ts 0 0 0 h (-1) 0 None.

Definition demo_ops : list ProducerOp :=
  [Connect 1; Connect 2; Notify (demo_buffer 100 0); Return 2 (demo_buffer 100 0); Disconnect 2;
   Notify (demo_buffer 101 1); Return 1 (demo_buffer 100 0)].

Lemma producer_conserves_buffers_witness :
  exists p l, producer_run demo_ops BufferProducer_new (mkLedger [] ∅) = (p, Some l) /\
    held l = [(1, 101)] /\ forall h, h ∈ away l <-> exists c, (c, h) ∈ held l.
Proof.
  destruct (producer_conserves_buffers demo_ops) as (p & l & E & _ & Ha & _).
  - vm_compute. reflexivity.
  - exists p, l. split; [exact E|]. split; [|exact Ha]. vm_compute in E. injection E as _ <-. reflexivity.
Defined.
