(* ===== verification/FrameRate.v ===== *)
(** * The frame rate controller

    Models [FrameRateController] of recorder/src/service/qmmf_camera_frc.h
    and recorder/src/service/qmmf_camera_frc.cc: between the camera and its
    consumers it drops frames that come too early for the output rate or, when
    asked to, repeats frames that come too late.

    The controller is a consumer of the camera's stream: [SentBack] is the
    return of a buffer to the camera, of its own accord or because its
    [BufferProducerImpl] calls its [NotifyBufferReturned].  Time stamps are in
    nanoseconds and far from the limits of [int64_t]; the measured rates are
    only logged, and what they are computed from is kept. *)

From S2P Require Import Prelude KeyedVector Floats Monitor Memory Stream BufferProducer.
From Stdlib Require Import SpecFloat.

Definition FRC_FPS_MEASUREMENT_INTERVAL : Z := 3000000000.

Record FrameRateController := mkFrc {
  active_ : bool;
  frame_repeat_enabled_ : bool;
  input_frame_count_ : Z;
  output_frame_count_ : Z;
  measurement_interval_ : Z;
  output_frame_interval_ : Z;
  expected_output_ts_ : Z;
  input_frame_interval_ : Z;
  previous_input_ts_ : Z;
  buffer_producer_ : BufferProducer
}.

#[export] Instance settable_FrameRateController : Settable FrameRateController :=
  {| eta_expand := fun s => mkFrc (active_ s) (frame_repeat_enabled_ s) (input_frame_count_ s)
       (output_frame_count_ s) (measurement_interval_ s) (output_frame_interval_ s)
       (expected_output_ts_ s) (input_frame_interval_ s) (previous_input_ts_ s) (buffer_producer_ s) |}.

Definition FrameRateController_new : FrameRateController :=
  mkFrc false false 0 0 0 0 0 0 0 BufferProducer_new.

(** 1000000000.0f / fps, rounded; undefined when the quotient is not finite. *)
Definition SetFrameRate (fps : float32) (s : FrameRateController) : option (Z * FrameRateController) :=
  match fps with
  | S754_zero _ => Some (- EINVAL, s)
  | _ =>
      match f32_llround (f32_div (f32_of_Z 1000000000) fps) with
      | None => None
      | Some i => Some (0, s <| output_frame_interval_ := i |>)
      end
  end.

Definition EnableFrameRepeat (enable : bool) (s : FrameRateController) : FrameRateController :=
  s <| frame_repeat_enabled_ := enable |>.

Definition reset_frames (s : FrameRateController) : FrameRateController :=
  s <| input_frame_count_ := 0 |> <| output_frame_count_ := 0 |> <| measurement_interval_ := 0 |>
    <| expected_output_ts_ := 0 |> <| previous_input_ts_ := 0 |>.

Definition Start (s : FrameRateController) : Z * FrameRateController :=
  if active_ s then (- EALREADY, s) else (0, reset_frames (s <| active_ := true |>)).

(** [ws]: the wake-ups of the wait for the buffers the consumers have. *)
Definition Stop (ws : list (BufferProducer -> Z * BufferProducer)) (s : FrameRateController)
    : option (Z * FrameRateController) :=
  if negb (active_ s) then Some (- EALREADY, s)
  else
    match CheckAndWaitPendingBuffers ws (buffer_producer_ s) with
    | None => None
    | Some (r, p) =>
        Some (if r =? - ETIMEDOUT then r else 0,
              reset_frames (s <| active_ := false |>) <| buffer_producer_ := p |>)
    end.

(** A consumer is the address of its object, 0 for none. *)
Definition frc_AddConsumer (consumer : Z) (s : FrameRateController) : Z * FrameRateController :=
  if active_ s then (- EBUSY, s)
  else if consumer =? 0 then (- EINVAL, s)
  else if IsConnected consumer (buffer_producer_ s) then (- EEXIST, s)
  else (0, s <| buffer_producer_ := AddConsumer consumer (buffer_producer_ s) |>).

Definition frc_RemoveConsumer (consumer : Z) (s : FrameRateController) : Z * FrameRateController :=
  if active_ s then (- EBUSY, s)
  else if consumer =? 0 then (- EINVAL, s)
  else if negb (IsConnected consumer (buffer_producer_ s)) then (- ENOENT, s)
  else (0, s <| buffer_producer_ := RemoveConsumer consumer (buffer_producer_ s) |>).

(** [std::llround] of a factor times an interval. *)
Definition part_of (factor : float32) (interval : Z) : Z :=
  default 0 (f32_llround (f32_mul factor (f32_of_Z interval))).

Definition SkipFrame (b : StreamBuffer) (s : FrameRateController) : bool :=
  let timestamp_delta := expected_output_ts_ s - sb_timestamp b in
  let max_delta := part_of f32_half (output_frame_interval_ s) in
  (0 <? timestamp_delta) && (max_delta <=? timestamp_delta).

Definition RepeatFrame (b : StreamBuffer) (s : FrameRateController) : bool :=
  let timestamp_delta := Z.abs (expected_output_ts_ s - sb_timestamp b) in
  let tshold := f64_div (f64_of_Z timestamp_delta) (f64_of_Z (output_frame_interval_ s)) in
  negb (input_frame_interval_ s =? 0) && f64_ge_half tshold.

(** What is known of the stream once the time stamp of a frame is. *)
Definition take_timestamp (ts : Z) (s : FrameRateController) : FrameRateController :=
  let interval := if previous_input_ts_ s =? 0 then 0 else ts - previous_input_ts_ s in
  s <| input_frame_interval_ := interval |>
    <| measurement_interval_ := measurement_interval_ s + interval |>
    <| input_frame_count_ := input_frame_count_ s + 1 |>
    <| previous_input_ts_ := ts |>
    <| expected_output_ts_ := if expected_output_ts_ s =? 0 then ts else expected_output_ts_ s |>.

(** The time of the next frame, and the measurements. *)
Definition schedule_next (ts : Z) (s : FrameRateController) : FrameRateController :=
  let timestamp_delta := expected_output_ts_ s - ts in
  let early := (0 <? timestamp_delta) &&
               (timestamp_delta <? part_of f32_hundredth (output_frame_interval_ s)) in
  let expected := if early then expected_output_ts_ s - timestamp_delta else expected_output_ts_ s in
  let s1 := s <| expected_output_ts_ := expected + output_frame_interval_ s |>
              <| output_frame_count_ := output_frame_count_ s + 1 |> in
  if FRC_FPS_MEASUREMENT_INTERVAL <=? measurement_interval_ s1
  then s1 <| input_frame_count_ := 0 |> <| output_frame_count_ := 0 |> <| measurement_interval_ := 0 |>
  else s1.

(** The buffers that consumers return one after the other. *)
Fixpoint returned (bs : list StreamBuffer) (p : BufferProducer) : list Sent * BufferProducer :=
  match bs with
  | [] => ([], p)
  | b :: bs' =>
      let '(c1, p1) := NotifyBufferReturned b p in
      let '(c2, p2) := returned bs' p1 in (c1 ++ c2, p2)
  end.

(** The loop that repeats a frame.  [back]: what the consumers return after
    each delivery, before the next. *)
Fixpoint repeat_frames (fuel : nat) (back : list (list StreamBuffer)) (b : StreamBuffer)
    (s : FrameRateController) : option (list Sent * FrameRateController) :=
  if RepeatFrame b s then
    match fuel with
    | O => None
    | S fuel' =>
        let '(c1, p1) := NotifyBuffer b (buffer_producer_ s) in
        let '(c2, p2) := returned (default [] (head back)) p1 in
        let s1 := s <| buffer_producer_ := p2 |>
                    <| expected_output_ts_ := expected_output_ts_ s + output_frame_interval_ s |>
                    <| output_frame_count_ := output_frame_count_ s + 1 |> in
        match repeat_frames fuel' (tail back) b s1 with
        | None => None
        | Some (c3, s2) => Some (c1 ++ c2 ++ c3, s2)
        end
    end
  else Some ([], s).

(** The frame goes to the consumers. *)
Definition deliver (b : StreamBuffer) (s : FrameRateController) : list Sent * FrameRateController :=
  let s1 := schedule_next (sb_timestamp b) s in
  let '(c, p) := NotifyBuffer b (buffer_producer_ s1) in (c, s1 <| buffer_producer_ := p |>).

(** [None]: the loop has not ended with the fuel. *)
Definition OnFrameAvailable (fuel : nat) (back : list (list StreamBuffer)) (b : StreamBuffer)
    (s : FrameRateController) : option (list Sent * FrameRateController) :=
  if negb (active_ s) then Some ([SentBack b], s)
  else
    let s1 := take_timestamp (sb_timestamp b) s in
    if frame_repeat_enabled_ s1 then
      match repeat_frames fuel back b s1 with
      | None => None
      | Some (c1, s2) => let '(c2, s3) := deliver b s2 in Some (c1 ++ c2, s3)
      end
    else if SkipFrame b s1 then Some ([SentBack b], s1)
    else Some (deliver b s1).

(** [NotifyBufferReturned]: on to the camera. *)
Definition frc_NotifyBufferReturned (b : StreamBuffer) : list Sent := [SentBack b].

(** ** The output rate *)

(** Frames in skip mode: which of them go to the consumers. *)
Definition passes (b : StreamBuffer) (s : FrameRateController) : bool :=
  negb (SkipFrame b (take_timestamp (sb_timestamp b) s)).

Fixpoint run_frames (bs : list StreamBuffer) (s : FrameRateController) : option (list bool * FrameRateController) :=
  match bs with
  | [] => Some ([], s)
  | b :: bs' =>
      match OnFrameAvailable 0 [] b s with
      | None => None
      | Some (_, s') =>
          match run_frames bs' s' with Some (ds, s'') => Some (passes b s :: ds, s'') | None => None end
      end
  end.

Definition passed (ds : list bool) : Z := Z.of_nat (length (List.filter id ds)).

Definition half_interval (s : FrameRateController) : Z := part_of f32_half (output_frame_interval_ s).
Definition tolerance (s : FrameRateController) : Z := part_of f32_hundredth (output_frame_interval_ s).

(** Where the expected time stamp is after [k] frames have passed since the
    one at [t0]. *)
Record on_schedule (t0 k : Z) (s0 s : FrameRateController) : Prop := {
  sched_active : active_ s = true;
  sched_skip : frame_repeat_enabled_ s = false;
  sched_interval : output_frame_interval_ s = output_frame_interval_ s0;
  sched_low : t0 + k * (output_frame_interval_ s0 - tolerance s0) <= expected_output_ts_ s;
  sched_high : expected_output_ts_ s <= t0 + k * output_frame_interval_ s0
}.

Lemma part_same f s s0 : output_frame_interval_ s = output_frame_interval_ s0 ->
  part_of f (output_frame_interval_ s) = part_of f (output_frame_interval_ s0).
Proof. by intros ->. Qed.

Lemma deliver_fields b s :
  active_ (snd (deliver b s)) = active_ s /\
  frame_repeat_enabled_ (snd (deliver b s)) = frame_repeat_enabled_ s /\
  output_frame_interval_ (snd (deliver b s)) = output_frame_interval_ s /\
  expected_output_ts_ (snd (deliver b s)) =
    (if (0 <? expected_output_ts_ s - sb_timestamp b) &&
        (expected_output_ts_ s - sb_timestamp b <? tolerance s)
     then sb_timestamp b else expected_output_ts_ s) + output_frame_interval_ s.
Proof.
  unfold deliver. destruct (NotifyBuffer b _) as [c p]. unfold schedule_next. fold (tolerance s).
  case_goal; case_goal; simpl; split_and!; try done; lia.
Qed.

Lemma frame_step t0 k s0 s b :
  on_schedule t0 k s0 s -> 0 < t0 -> 0 <= k -> 0 < sb_timestamp b -> expected_output_ts_ s <> 0 ->
  0 < half_interval s0 -> 0 <= tolerance s0 <= output_frame_interval_ s0 ->
  exists c s', OnFrameAvailable 0 [] b s = Some (c, s') /\
    (if passes b s
     then k * (output_frame_interval_ s0 - tolerance s0) < sb_timestamp b - t0 + half_interval s0 /\
          on_schedule t0 (k + 1) s0 s'
     else sb_timestamp b - t0 + half_interval s0 <= k * output_frame_interval_ s0 /\ on_schedule t0 k s0 s').
Proof.
  intros [Ha Hr Hi Hlo Hhi] Ht0 Hk Hts Hne Hh Htol. unfold OnFrameAvailable. rewrite Ha. cbn [negb].
  set (s1 := take_timestamp (sb_timestamp b) s).
  assert (expected_output_ts_ s1 = expected_output_ts_ s) as He1
    by (unfold s1, take_timestamp; simpl; by rewrite (proj2 (Z.eqb_neq _ _))).
  change (frame_repeat_enabled_ s1) with (frame_repeat_enabled_ s). rewrite Hr.
  unfold passes. fold s1. destruct (SkipFrame b s1) eqn:Esk; unfold SkipFrame in Esk; rewrite He1 in Esk;
    change (output_frame_interval_ s1) with (output_frame_interval_ s) in Esk;
    rewrite (part_same _ s s0 Hi) in Esk; fold (half_interval s0) in Esk.
  - eexists _, s1. split; [done|]. cbn [negb]. apply andb_true_iff in Esk as [E1 E2]. apply Z.leb_le in E2.
    split; [lia|]. split; try done; by rewrite He1.
  - destruct (deliver b s1) as [c s'] eqn:Ed. exists c, s'. split; [done|]. cbn [negb].
    destruct (deliver_fields b s1) as (F1 & F2 & F3 & F4). rewrite Ed in F1, F2, F3, F4. cbn [snd] in *.
    rewrite He1 in F4. unfold tolerance in F4.
    change (output_frame_interval_ s1) with (output_frame_interval_ s) in F3, F4.
    change (active_ s1) with (active_ s) in F1. change (frame_repeat_enabled_ s1) with (frame_repeat_enabled_ s) in F2.
    rewrite (part_same _ s s0 Hi) in F4. fold (tolerance s0) in F4.
    split; [apply andb_false_iff in Esk as [E1|E2]; [apply Z.ltb_ge in E1|apply Z.leb_gt in E2]; lia|].
    split; [congruence..| |]; rewrite F4, Hi.
    + case_goal; bool_hyps; lia.
    + case_goal; bool_hyps; lia.
Qed.

Lemma run_on_schedule bs : forall t0 k s0 s,
  on_schedule t0 k s0 s -> 0 < t0 -> 0 <= k -> Forall (fun b => 0 < sb_timestamp b) bs ->
  0 < half_interval s0 -> 0 <= tolerance s0 <= output_frame_interval_ s0 ->
  exists ds s', run_frames bs s = Some (ds, s') /\
    forall (i : nat) b (d : bool), bs !! i = Some b -> ds !! i = Some d ->
      let n := k + passed (take i ds) in
      if d then n * (output_frame_interval_ s0 - tolerance s0) < sb_timestamp b - t0 + half_interval s0
      else sb_timestamp b - t0 + half_interval s0 <= n * output_frame_interval_ s0.
Proof.
  induction bs as [|b bs IH]; intros t0 k s0 s Hs Ht0 Hk Hbs Hh Htol; [by exists (@nil bool), s|].
  apply Forall_cons in Hbs as [Hb Hbs].
  assert (expected_output_ts_ s <> 0) as Hne by (destruct Hs; nia).
  destruct (frame_step t0 k s0 s b Hs Ht0 Hk Hb Hne Hh Htol) as (c & s1 & E & Hstep).
  cbn [run_frames]. rewrite E. set (d0 := passes b s) in *.
  assert (exists k1, k1 = (if d0 then k + 1 else k) /\ on_schedule t0 k1 s0 s1 /\ 0 <= k1) as (k1 & Ek1 & Hs1 & Hk1).
  { eexists. split; [done|]. destruct d0; (split; [apply Hstep|lia]). }
  destruct (IH t0 k1 s0 s1 Hs1 Ht0 Hk1 Hbs Hh Htol) as (ds & s2 & -> & Hd). eexists _, s2. split; [done|].
  intros [|i] b' d Hi Hdi; cbn in Hi, Hdi.
  - injection Hi as <-. injection Hdi as <-. change (passed (take 0 (d0 :: ds))) with 0. rewrite Z.add_0_r.
    destruct d0; apply Hstep.
  - specialize (Hd i b' d Hi Hdi). cbv zeta in Hd |- *.
    assert (k1 + passed (take i ds) = k + passed (take (S i) (d0 :: ds))) as <-; [|done].
    unfold passed. simpl. destruct d0; simpl; lia.
Qed.

(** C27. Skipping frames keeps the rate. From the start of a stream in skip
    mode, with positive time stamps and where [I] is the interval of the
    output rate, a frame is passed on only if that leaves the output at most
    half an interval ahead of the rate (give or take the tolerated one
    percent), and dropped only if the output is half an interval ahead of it;
    so of a source that is not faster than the output no frame is dropped. *)
Theorem skip_mode_keeps_rate (s : FrameRateController) (b0 : StreamBuffer) (bs : list StreamBuffer) :
  let I := output_frame_interval_ s in
  active_ s = true -> frame_repeat_enabled_ s = false -> expected_output_ts_ s = 0 ->
  Forall (fun b => 0 < sb_timestamp b) (b0 :: bs) ->
  0 < half_interval s -> 0 <= tolerance s <= I ->
  exists ds s', run_frames (b0 :: bs) s = Some (ds, s') /\
    forall (i : nat) b (d : bool), (b0 :: bs) !! i = Some b -> ds !! i = Some d ->
      let n := passed (take i ds) in
      let t := sb_timestamp b - sb_timestamp b0 in
      (d = true -> n * (I - tolerance s) < t + half_interval s) /\
      (d = false -> t + half_interval s <= n * I) /\
      (Z.of_nat i * I <= t -> d = true).
Proof.
  intros I Ha Hr He Hbs Hh Htol. apply Forall_cons in Hbs as [Hb Hbs].
  assert (exists c s1, OnFrameAvailable 0 [] b0 s = Some (c, s1) /\ passes b0 s = true /\
    on_schedule (sb_timestamp b0) 1 s s1) as (c & s1 & E & Hp & Hs1).
  { unfold OnFrameAvailable, passes. rewrite Ha. cbn [negb]. set (s1 := take_timestamp _ s).
    assert (expected_output_ts_ s1 = sb_timestamp b0) as He1 by (unfold s1, take_timestamp; simpl; by rewrite He).
    change (frame_repeat_enabled_ s1) with (frame_repeat_enabled_ s). rewrite Hr.
    unfold SkipFrame. rewrite He1, Z.sub_diag. cbn [Z.ltb Z.compare andb].
    destruct (deliver b0 s1) as [c s2] eqn:Ed. exists c, s2. split_and!; try done.
    destruct (deliver_fields b0 s1) as (F1 & F2 & F3 & F4). rewrite Ed in F1, F2, F3, F4. cbn [snd] in *.
    rewrite He1, Z.sub_diag in F4. cbn [Z.ltb Z.compare andb] in F4.
    change (output_frame_interval_ s1) with I in F3, F4. fold I.
    split; [by rewrite F1|by rewrite F2|done|rewrite F4; fold I; lia|rewrite F4; fold I; lia]. }
  destruct (run_on_schedule bs _ 1 s s1 Hs1 Hb ltac:(lia) Hbs Hh Htol) as (ds & s2 & E2 & Hd).
  exists (true :: ds), s2. cbn [run_frames]. rewrite E, E2, Hp. split; [done|].
  assert (0 <= I) as HI by lia.
  intros i b d Hi Hdi. cbv zeta. destruct i as [|i]; cbn in Hi, Hdi.
  - injection Hi as <-. injection Hdi as <-. split_and!; [|done|done]. intros _. rewrite Z.sub_diag. unfold passed. simpl. lia.
  - specialize (Hd i b d Hi Hdi). cbv zeta in Hd. fold I in Hd.
    assert (1 + passed (take i ds) = passed (take (S i) (true :: ds))) as Ep by (unfold passed; simpl; lia).
    rewrite Ep in Hd. split_and!; [by intros ->|by intros ->|].
    destruct d; [done|]. intros Hslow. exfalso.
    assert (passed (take (S i) (true :: ds)) <= Z.of_nat (S i)) as Hle.
    { unfold passed. pose proof (List.filter_length_le id (take (S i) (true :: ds))) as Hf.
      rewrite length_take in Hf. lia. }
    nia.
Qed.

(** ** Repeating frames *)

Lemma RepeatFrame_exact b s : let I := output_frame_interval_ s in
  let late := sb_timestamp b - expected_output_ts_ s in
  0 < I < 2 ^ 53 -> Z.abs late < 2 ^ 53 -> input_frame_interval_ s <> 0 ->
  RepeatFrame b s = (I <=? 2 * Z.abs late).
Proof.
  intros I late HI Hl Hn. unfold RepeatFrame. rewrite (proj2 (Z.eqb_neq _ _)) by done.
  replace (Z.abs (expected_output_ts_ s - sb_timestamp b)) with (Z.abs late) by lia.
  by apply half_quotient; [lia|].
Qed.

(** A frame that is neither early by half an interval nor late by half an
    interval beside whole ones. *)
Definition repeat_ends (interval late : Z) : Prop :=
  - interval < 2 * late /\ (2 * late) mod (2 * interval) <> interval.

Lemma repeat_frames_end n : forall back b s, let I := output_frame_interval_ s in
  let late := sb_timestamp b - expected_output_ts_ s in
  0 < I < 2 ^ 53 -> Z.abs late < 2 ^ 52 -> input_frame_interval_ s <> 0 ->
  repeat_ends I late -> 2 * late < (2 * Z.of_nat n + 1) * I ->
  exists calls s', repeat_frames n back b s = Some (calls, s') /\
    2 * Z.abs (expected_output_ts_ s' - sb_timestamp b) < I /\ output_frame_interval_ s' = I.
Proof.
  induction n as [|n IH]; intros back b s I late HI Hl Hi [Hlow Hmod] Hn; cbn [repeat_frames];
    rewrite RepeatFrame_exact by (try done; fold late; lia); fold I late.
  - rewrite (proj2 (Z.leb_gt _ _)) by lia. eexists _, s. split; [done|]. split; [lia|done].
  - destruct (Z.leb_spec I (2 * Z.abs late)) as [Hge|Hlt]; [|eexists _, s; split_and!; [done|lia|done]].
    destruct (NotifyBuffer b _) as [c1 p1]. destruct (returned _ p1) as [c2 p2].
    set (s1 := s <| buffer_producer_ := p2 |> <| expected_output_ts_ := _ |> <| output_frame_count_ := _ |>).
    assert (2 * late <> I) as Hne by (intros E; apply Hmod; rewrite E; apply Z.mod_small; lia).
    assert (sb_timestamp b - expected_output_ts_ s1 = late - I) as El by (unfold s1, late, I; simpl; lia).
    destruct (IH (tail back) b s1) as (c3 & s' & -> & Hs'); try done.
    + rewrite El. change (output_frame_interval_ s1) with I in *. lia.
    + rewrite El. change (output_frame_interval_ s1) with I. split; [lia|].
      replace (2 * (late - I)) with (2 * late + (-1) * (2 * I)) by lia. by rewrite Z_mod_plus_full.
    + rewrite El. change (output_frame_interval_ s1) with I. lia.
    + eexists _, s'. by split.
Qed.

Lemma not_near interval late : 0 < interval ->
  2 * late <= - interval \/ (2 * late) mod (2 * interval) = interval -> interval <= 2 * Z.abs late.
Proof.
  intros Hi [Hc|Hc]; [lia|]. pose proof (Z.div_mod (2 * late) (2 * interval) ltac:(lia)) as E.
  rewrite Hc in E. destruct (Z.le_gt_cases 0 (2 * late / (2 * interval))); nia.
Qed.

Lemma repeat_frames_never n : forall back b s, let I := output_frame_interval_ s in
  let late := sb_timestamp b - expected_output_ts_ s in
  0 < I -> input_frame_interval_ s <> 0 ->
  2 * late <= - I \/ (2 * late) mod (2 * I) = I -> Z.abs late + (Z.of_nat n + 1) * I < 2 ^ 53 ->
  repeat_frames n back b s = None.
Proof.
  induction n as [|n IH]; intros back b s I late HI Hi Hc Hn; cbn [repeat_frames];
    rewrite RepeatFrame_exact by (try done; fold late I; lia); fold I late.
  all: assert (I <= 2 * Z.abs late) as Hge by (by apply not_near).
  all: rewrite (proj2 (Z.leb_le _ _)) by done.
  1: done.
  destruct (NotifyBuffer b _) as [c1 p1]. destruct (returned _ p1) as [c2 p2].
  set (s1 := s <| buffer_producer_ := p2 |> <| expected_output_ts_ := _ |> <| output_frame_count_ := _ |>).
  assert (sb_timestamp b - expected_output_ts_ s1 = late - I) as El by (unfold s1, late, I; simpl; lia).
  rewrite (IH (tail back) b s1); try done; rewrite ?El; change (output_frame_interval_ s1) with I; [|lia].
  destruct Hc as [Hc|Hc]; [left; lia|right].
  replace (2 * (late - I)) with (2 * late + (-1) * (2 * I)) by lia. by rewrite Z_mod_plus_full.
Qed.

(** When repeating a frame ends.  Let the frame be [late] by so much, or
    early where that is negative, and [I] the interval of the output rate.
    Unless the frame is early by half an interval or more, or late by exactly
    a half and some whole intervals, the loop delivers it once for each
    interval it is late and leaves the expected time stamp within half an
    interval.  In the other cases the loop does not end: it delivers the
    frame as many times as the numbers in use allow, and the frame's own
    delivery is never reached. *)
Theorem repeat_ends_unless_early (fuel : nat) (back : list (list StreamBuffer)) (b : StreamBuffer)
    (s : FrameRateController) :
  let I := output_frame_interval_ s in
  let late := sb_timestamp b - expected_output_ts_ s in
  active_ s = true -> frame_repeat_enabled_ s = true ->
  previous_input_ts_ s <> 0 -> previous_input_ts_ s <> sb_timestamp b -> expected_output_ts_ s <> 0 ->
  0 < I < 2 ^ 52 -> Z.abs late < 2 ^ 52 ->
  (repeat_ends I late -> late <= Z.of_nat fuel * I ->
   exists calls s', OnFrameAvailable fuel back b s = Some (calls, s') /\
     2 * Z.abs (expected_output_ts_ s' - (sb_timestamp b + I)) < I) /\
  (~ repeat_ends I late -> Z.abs late + (Z.of_nat fuel + 1) * I < 2 ^ 53 ->
   OnFrameAvailable fuel back b s = None).
Proof.
  intros I late Ha Hr Hp Hpb He HI Hl. unfold OnFrameAvailable. rewrite Ha. cbn [negb].
  set (s1 := take_timestamp (sb_timestamp b) s).
  assert (expected_output_ts_ s1 = expected_output_ts_ s) as He1
    by (unfold s1, take_timestamp; simpl; by rewrite (proj2 (Z.eqb_neq _ _))).
  assert (input_frame_interval_ s1 <> 0) as Hi1
    by (unfold s1, take_timestamp; simpl; rewrite (proj2 (Z.eqb_neq _ _)) by done; lia).
  change (frame_repeat_enabled_ s1) with (frame_repeat_enabled_ s). rewrite Hr. split; intros Hends Hf.
  - destruct (repeat_frames_end fuel back b s1) as (c & s2 & -> & Hs2 & Hi2); rewrite ?He1; fold late;
      change (output_frame_interval_ s1) with I in *; try done; [lia|lia|].
    destruct (deliver b s2) as [c2 s3] eqn:Ed. eexists _, s3. split; [done|].
    destruct (deliver_fields b s2) as (_ & _ & _ & F). rewrite Ed in F. cbn [snd] in F. rewrite F, Hi2.
    case_goal; lia.
  - rewrite (repeat_frames_never fuel back b s1); rewrite ?He1; fold late;
      change (output_frame_interval_ s1) with I; try done; [lia|].
    destruct (Z.le_gt_cases (2 * late) (- I)) as [|Hgt]; [by left|right].
    destruct (decide ((2 * late) mod (2 * I) = I)) as [|Hm]; [done|]. by destruct Hends.
Qed.

(** ** Every buffer returns to the camera *)

Inductive FrcOp :=
| FrcFrame (b : StreamBuffer)
| FrcReturn (consumer : Z) (b : StreamBuffer)
| FrcConnect (consumer : Z)
| FrcDisconnect (consumer : Z)
| FrcSetFrameRate (fps : float32)
| FrcStart
| FrcStop.

(** [FrcStop]: its wait for buffers ends at once or times out. *)
Definition frc_step (op : FrcOp) (s : FrameRateController) : option (list Sent * FrameRateController) :=
  match op with
  | FrcFrame b => OnFrameAvailable 0 [] b s
  | FrcReturn _ b =>
      let '(c, p) := NotifyBufferReturned b (buffer_producer_ s) in Some (c, s <| buffer_producer_ := p |>)
  | FrcConnect c => Some ([], snd (frc_AddConsumer c s))
  | FrcDisconnect c => Some ([], snd (frc_RemoveConsumer c s))
  | FrcSetFrameRate fps => match SetFrameRate fps s with Some (_, s') => Some ([], s') | None => None end
  | FrcStart => Some ([], snd (Start s))
  | FrcStop => match Stop [fun p => (- ETIMEDOUT, p)] s with Some (_, s') => Some ([], s') | None => None end
  end.

(** The operation as one of the producer: a frame is lent by the camera. *)
Definition frc_books (op : FrcOp) : ProducerOp :=
  match op with
  | FrcFrame b => Notify b
  | FrcReturn c b => Return c b
  | FrcConnect c => Connect c
  | _ => Disconnect 0
  end.

(** The camera lends a buffer it has, and consumers return what they have. *)
Definition frc_allowed (op : FrcOp) (s : FrameRateController) (l : Ledger) : bool :=
  allowed (frc_books op) (buffer_producer_ s) l &&
  match op with FrcFrame b => negb (bool_decide (sb_handle b ∈ away l)) | _ => true end.

Fixpoint frc_run (ops : list FrcOp) (s : FrameRateController) (l : Ledger)
    : option (FrameRateController * option Ledger) :=
  match ops with
  | [] => Some (s, Some l)
  | op :: ops' =>
      match frc_step op s with
      | None => None
      | Some (calls, s') =>
          match fold_left book_call calls (Some (book_op (frc_books op) l)) with
          | None => Some (s', None)
          | Some l' => frc_run ops' s' l'
          end
      end
  end.

Fixpoint frc_all_allowed (ops : list FrcOp) (s : FrameRateController) (l : Ledger) : bool :=
  match ops with
  | [] => true
  | op :: ops' =>
      frc_allowed op s l &&
      match frc_step op s with
      | None => false
      | Some (calls, s') =>
          match fold_left book_call calls (Some (book_op (frc_books op) l)) with
          | None => true
          | Some l' => frc_all_allowed ops' s' l'
          end
      end
  end.

Lemma schedule_producer ts s : buffer_producer_ (schedule_next ts s) = buffer_producer_ s.
Proof. unfold schedule_next. by case_goal. Qed.

Lemma deliver_calls b s : deliver b s = (fst (NotifyBuffer b (buffer_producer_ s)), snd (deliver b s)) /\
  buffer_producer_ (snd (deliver b s)) = snd (NotifyBuffer b (buffer_producer_ s)) /\
  frame_repeat_enabled_ (snd (deliver b s)) = frame_repeat_enabled_ s.
Proof.
  pose proof (deliver_fields b s) as (_ & Hr & _). revert Hr. unfold deliver. rewrite schedule_producer.
  destruct (NotifyBuffer b _) as [c p]. by intros.
Qed.

Lemma lent_and_back b p l calls : agrees p l -> sb_handle b ∉ away l -> calls = [SentBack b] ->
  exists l', fold_left book_call calls (Some (book_op (Notify b) l)) = Some l' /\ agrees p l'.
Proof.
  intros [Hc Ha Hs] Hb ->. simpl. unfold take_back. simpl. rewrite decide_True by set_solver.
  eexists. split; [done|]. split; [done| |done]. intros h. simpl. rewrite <- Ha. set_solver.
Qed.

Lemma frc_step_agrees op s l calls s' :
  agrees (buffer_producer_ s) l -> frame_repeat_enabled_ s = false -> frc_allowed op s l = true ->
  frc_step op s = Some (calls, s') ->
  exists l', fold_left book_call calls (Some (book_op (frc_books op) l)) = Some l' /\
    agrees (buffer_producer_ s') l' /\ frame_repeat_enabled_ s' = false.
Proof.
  intros Hp Hr Hok E. apply andb_true_iff in Hok as [Hok Hb].
  assert (forall c q, q = buffer_producer_ s \/ q = AddConsumer c (buffer_producer_ s) \/
    q = RemoveConsumer c (buffer_producer_ s) -> agrees q l) as Hsame.
  { destruct Hp. intros c q [->|[->| ->]]; unfold AddConsumer, RemoveConsumer; try case_goal; by split. }
  destruct op as [b|c b|c|c|fps| |]; simpl in E; cbn [frc_books] in *.
  - apply negb_true_iff, bool_decide_eq_false in Hb. unfold OnFrameAvailable in E. case_hyp E.
    + injection E as <- <-. destruct (lent_and_back b _ l _ Hp Hb eq_refl) as (l' & -> & ?). by exists l'.
    + rename E0 into Eact. change (frame_repeat_enabled_ (take_timestamp (sb_timestamp b) s)) with (frame_repeat_enabled_ s) in E.
      rewrite Hr in E. set (s1 := take_timestamp _ s) in *. case_hyp E.
      * injection E as <- <-. destruct (lent_and_back b _ l _ Hp Hb eq_refl) as (l' & -> & ?). by exists l'.
      * destruct (deliver_calls b s1) as (Ed & Ep & Er). rewrite Ed in E. injection E as <- <-.
        change (buffer_producer_ s1) with (buffer_producer_ s) in *.
        destruct (agrees_notify b _ l Hp Hok) as (l' & -> & Hl'). exists l'. rewrite Ep, Er. by split_and!.
  - destruct (agrees_return c b _ l Hp Hok) as (l' & E' & Hl').
    destruct (NotifyBufferReturned b _) as [cs p]. injection E as <- <-. by exists l'.
  - injection E as <- <-. exists l. split; [done|]. unfold frc_AddConsumer.
    repeat case_goal; simpl; split; try done; apply (Hsame c); auto.
  - injection E as <- <-. exists l. split; [done|]. unfold frc_RemoveConsumer.
    repeat case_goal; simpl; split; try done; apply (Hsame c); auto.
  - exists l. assert (buffer_producer_ s' = buffer_producer_ s /\ frame_repeat_enabled_ s' = frame_repeat_enabled_ s /\ calls = []) as (-> & -> & ->).
    { unfold SetFrameRate in E. destruct fps; try destruct (f32_llround _); by simplify_eq. }
    done.
  - injection E as <- <-. exists l. unfold Start. by case_goal.
  - exists l. assert (buffer_producer_ s' = buffer_producer_ s /\ frame_repeat_enabled_ s' = frame_repeat_enabled_ s /\ calls = []) as (-> & -> & ->).
    { unfold Stop in E. simpl in E. destruct (active_ s); simpl in E; [destruct (bool_decide _)|]; by simplify_eq. }
    done.
Qed.

(** Every buffer of the camera comes back to it once.  While frames are
    skipped and not repeated, whatever the order of frames, returns, changes
    of the rate and of the consumers, starts and stops: the camera never gets
    back a buffer it has, and the buffers it is missing are those some
    consumer still has. *)
Theorem skip_mode_returns_buffers (ops : list FrcOp) :
  frc_all_allowed ops FrameRateController_new (mkLedger [] ∅) = true ->
  exists s l, frc_run ops FrameRateController_new (mkLedger [] ∅) = Some (s, Some l) /\
    forall h, h ∈ away l <-> exists c, (c, h) ∈ held l.
Proof.
  intros Hok. assert (agrees (buffer_producer_ FrameRateController_new) (mkLedger [] ∅)) as Hp.
  { split; [done| |done]. intros h. simpl. split; [by intros ?%elem_of_empty|lia]. }
  assert (frame_repeat_enabled_ FrameRateController_new = false) as Hr by done.
  revert Hok Hp Hr. generalize FrameRateController_new, (mkLedger [] ∅).
  induction ops as [|op ops IH]; intros s l Hok Hp Hr; simpl in *.
  - exists s, l. split; [done|]. intros h. destruct Hp as [_ Ha _]. rewrite Ha.
    split; [apply holders_some|]. intros [c Hin]. by apply (holders_in c).
  - apply andb_true_iff in Hok as [Ha Hok]. destruct (frc_step op s) as [[calls s']|] eqn:E; [|done].
    destruct (frc_step_agrees op s l calls s' Hp Hr Ha E) as (l' & El & Hp' & Hr'). rewrite El in Hok |- *. by apply IH.
Qed.

Lemma last_return b p : buffers_ p !! sb_handle b = Some 1 ->
  NotifyBufferReturned b p = ([SentBack b], p <| buffers_ := delete (sb_handle b) (buffers_ p) |>).
Proof. intros H. unfold NotifyBufferReturned. by rewrite H. Qed.

(** A repeated buffer can come back twice.  When the only consumer
    returns the buffer between two deliveries of a repeated frame, the camera
    has it back before the second delivery, and gets it once more when the
    consumer returns that. *)
Theorem repeated_buffer_returned_twice (c : Z) (b : StreamBuffer) (s : FrameRateController) :
  let I := output_frame_interval_ s in
  let late := sb_timestamp b - expected_output_ts_ s in
  active_ s = true -> frame_repeat_enabled_ s = true ->
  previous_input_ts_ s <> 0 -> previous_input_ts_ s <> sb_timestamp b -> expected_output_ts_ s <> 0 ->
  0 < I < 2 ^ 52 -> I < 2 * late < 3 * I -> late < 2 ^ 52 ->
  buffer_consumers_ (buffer_producer_ s) = [(c, tt)] -> buffers_ (buffer_producer_ s) !! sb_handle b = None ->
  exists s', OnFrameAvailable 1 [[b]] b s = Some ([SentTo c b; SentBack b; SentTo c b], s') /\
    fst (NotifyBufferReturned b (buffer_producer_ s')) = [SentBack b].
Proof.
  intros I late Ha Hr Hp Hpb He HI Hl Hl52 Hc Hb. unfold OnFrameAvailable. rewrite Ha. cbn [negb].
  set (s1 := take_timestamp (sb_timestamp b) s).
  assert (expected_output_ts_ s1 = expected_output_ts_ s) as He1
    by (unfold s1, take_timestamp; simpl; by rewrite (proj2 (Z.eqb_neq _ _))).
  assert (input_frame_interval_ s1 <> 0) as Hi1
    by (unfold s1, take_timestamp; simpl; rewrite (proj2 (Z.eqb_neq _ _)) by done; lia).
  change (frame_repeat_enabled_ s1) with (frame_repeat_enabled_ s). rewrite Hr. cbn [repeat_frames].
  rewrite RepeatFrame_exact; rewrite ?He1; fold late; change (output_frame_interval_ s1) with I; try done; try lia.
  rewrite (proj2 (Z.leb_le _ _)) by lia. change (buffer_producer_ s1) with (buffer_producer_ s).
  unfold NotifyBuffer at 1. rewrite Hc, Hb. change (default [] (head [[b]])) with [b]. cbn [kv_keys map fst length].
  set (p1 := (buffer_producer_ s) <| buffers_ := _ |>). cbn [returned].
  rewrite (last_return b p1) by (unfold p1; simpl; by rewrite lookup_insert_eq). cbn [app].
  set (p2 := p1 <| buffers_ := _ |>).
  set (s2 := s1 <| buffer_producer_ := p2 |> <| expected_output_ts_ := _ |> <| output_frame_count_ := _ |>).
  rewrite RepeatFrame_exact; change (output_frame_interval_ s2) with I; change (input_frame_interval_ s2) with (input_frame_interval_ s1);
    change (expected_output_ts_ s2) with (expected_output_ts_ s + I); try done; try lia.
  rewrite (proj2 (Z.leb_gt _ _)) by lia.
  destruct (deliver_calls b s2) as (-> & Ep & _). change (buffer_producer_ s2) with p2 in *.
  eexists. split; [|rewrite Ep]; unfold NotifyBuffer; change (buffer_consumers_ p2) with (buffer_consumers_ (buffer_producer_ s));
    rewrite Hc; [done|].
  cbn [snd kv_keys map fst length]. rewrite last_return; [done|]. simpl. by rewrite lookup_insert_eq, lookup_delete_eq.
Qed.

(** ** At 30 and at 25 frames per second *)

Definition demo_controller (fps : Z) (repeat : bool) : FrameRateController :=
  let s := default FrameRateController_new (snd <$> SetFrameRate (f32_of_Z fps) FrameRateController_new) in
  snd (Start (EnableFrameRepeat repeat (snd (frc_AddConsumer 1 s)))).

Definition demo_frames : list StreamBuffer :=
  map (fun i => demo_buffer (1 + Z.of_nat i) (1000000 + 16666667 * Z.of_nat i)) (seq 0 8).

(** A source of 60 frames per second: every other frame is dropped. *)
Lemma skip_mode_keeps_rate_witness :
  exists s', run_frames demo_frames (demo_controller 30 false)
    = Some ([true; false; true; false; true; false; true; false], s').
Proof.
  destruct (skip_mode_keeps_rate (demo_controller 30 false) (demo_buffer 1 1000000) (tail demo_frames))
    as (ds & s' & E & _); try (vm_compute; reflexivity).
  - repeat constructor.
  - split; vm_compute; discriminate.
  - exists s'. change (demo_buffer 1 1000000 :: tail demo_frames) with demo_frames in E.
    assert (ds = [true; false; true; false; true; false; true; false]) as <-; [|exact E].
    vm_compute in E. by injection E as <- _.
Defined.

Definition demo_repeating (fps : Z) : FrameRateController :=
  match OnFrameAvailable 0 [] (demo_buffer 1 1000000) (demo_controller fps true) with
  | Some (_, s) => s | None => FrameRateController_new
  end.

(** At 25 frames per second, after a frame that comes 60 milliseconds later. *)
Lemma repeat_ends_unless_early_witness :
  OnFrameAvailable 1000 [] (demo_buffer 2 61000000) (demo_repeating 25) = None /\
  exists calls s', OnFrameAvailable 2 [] (demo_buffer 2 111000000) (demo_repeating 25) = Some (calls, s').
Proof.
  split.
  - apply (repeat_ends_unless_early 1000 [] (demo_buffer 2 61000000) (demo_repeating 25));
      try (vm_compute; reflexivity); try (vm_compute; split; reflexivity); try (vm_compute; discriminate).
    intros [_ H]. apply H. vm_compute. reflexivity.
  - destruct (repeat_ends_unless_early 2 [] (demo_buffer 2 111000000) (demo_repeating 25)) as [H _];
      try (vm_compute; reflexivity); try (vm_compute; split; reflexivity); try (vm_compute; discriminate).
    destruct H as (calls & s' & E & _); [split; vm_compute; [reflexivity|discriminate]|vm_compute; discriminate|].
    exists calls, s'. exact E.
Defined.

Definition demo_frc_ops : list FrcOp :=
  [FrcSetFrameRate (f32_of_Z 30); FrcConnect 1; FrcConnect 2; FrcStart; FrcFrame (demo_buffer 1 1000000);
   FrcReturn 2 (demo_buffer 1 1000000); FrcFrame (demo_buffer 2 17666667); FrcFrame (demo_buffer 3 34333334);
   FrcReturn 1 (demo_buffer 1 1000000); FrcStop; FrcFrame (demo_buffer 4 51000000)].

Lemma skip_mode_returns_buffers_witness :
  exists s l, frc_run demo_frc_ops FrameRateController_new (mkLedger [] ∅) = Some (s, Some l) /\
    held l = [(1, 3); (2, 3)] /\ forall h, h ∈ away l <-> exists c, (c, h) ∈ held l.
Proof.
  destruct (skip_mode_returns_buffers demo_frc_ops) as (s & l & E & Ha); [vm_compute; reflexivity|].
  exists s, l. split; [exact E|]. split; [|exact Ha]. vm_compute in E. injection E as _ <-. reflexivity.
Defined.

Lemma repeated_buffer_returned_twice_witness :
  exists s', OnFrameAvailable 1 [[demo_buffer 2 71000000]] (demo_buffer 2 71000000) (demo_repeating 25)
    = Some ([SentTo 1 (demo_buffer 2 71000000); SentBack (demo_buffer 2 71000000);
             SentTo 1 (demo_buffer 2 71000000)], s').
Proof.
  destruct (repeated_buffer_returned_twice 1 (demo_buffer 2 71000000) (demo_repeating 25)
    eq_refl eq_refl) as (s' & E & _);
    [vm_compute; discriminate|vm_compute; discriminate|vm_compute; discriminate
    |vm_compute; split; reflexivity|vm_compute; split; reflexivity|vm_compute; reflexivity
    |vm_compute; reflexivity|vm_compute; reflexivity|exists s'; exact E].
Defined.
