(* ===== verification/Rescaler.v ===== *)
(** * The rescaler

    Models recorder/src/service/qmmf_camera_rescaler.h and
    recorder/src/service/qmmf_camera_rescaler.cc: [CameraRescalerMemPool], the
    pool of output buffers, [CameraRescalerBase], whose thread draws each
    frame of the camera into one of them, [CameraRescalerThread], and
    [CameraRescaler], which ties them to a producer and a consumer.

    What the drawing engine does to the pixels is not modelled, nor the
    colour space set on a new buffer; [mmap] answers as its argument says.
    The calls out of the rescaler are recorded in their order. *)

From S2P Require Import Prelude KeyedVector Monitor Memory Stream BufferProducer ExtraParam.

(** Result codes of Android's Errors.h. *)
Definition NO_ERROR : Z := 0.
Definition BAD_VALUE : Z := - EINVAL.
Definition INVALID_OPERATION : Z := - ENOSYS.
Definition NO_MEMORY : Z := - ENOMEM.
Definition NAME_NOT_FOUND : Z := - ENOENT.

Definition RESCALER_BUFFERS_CNT : Z := 13.

(** Tags of qmmf_recorder_extra_param_tags.h. *)
Definition QMMF_EIS : Z := 65536 + 11.
Definition QMMF_LDC : Z := 65536 + 16.

Class RgbPlatform := { HAL_PIXEL_FORMAT_RGB_888 : Z }.

Record RescalerMemPoolParams := mkPoolParams { init_width : Z; init_height : Z; init_format : Z }.

(** [mem_alloc_slots_]: [None] before [Initialize] allocates it. *)
Record CameraRescalerMemPool := mkPool {
  mem_alloc_slots_ : option (list Z);
  buffers_allocated_ : Z;
  pending_buffer_count_ : Z;
  mem_alloc_buffers_ : kv bool;
  init_params_ : RescalerMemPoolParams;
  is_eis_on_ : bool;
  is_ldc_on_ : bool
}.

#[export] Instance settable_CameraRescalerMemPool : Settable CameraRescalerMemPool :=
  {| eta_expand := fun p => mkPool (mem_alloc_slots_ p) (buffers_allocated_ p) (pending_buffer_count_ p)
       (mem_alloc_buffers_ p) (init_params_ p) (is_eis_on_ p) (is_ldc_on_ p) |}.

Definition CameraRescalerMemPool_new : CameraRescalerMemPool :=
  mkPool None 0 0 [] (mkPoolParams 0 0 0) false false.

(** The calls out of the rescaler. *)
Inductive RescalerCall :=
| ToCamera (b : StreamBuffer)
| ToConsumer (consumer : Z) (b : StreamBuffer)
| Drawn (source target : StreamBuffer).

Section Rescaler.
Context {D : Type} `{AllocDevice D} `{AllocUsage} `{HalPlatform} `{RgbPlatform}.

Record CameraRescaler := mkRescaler {
  pool : CameraRescalerMemPool;
  device : D;
  mapped_buffs_ : gmap Z Z;
  bufs_list_ : list StreamBuffer;
  abort_ : bool;
  running_ : bool;
  thread_ : bool;
  is_stop_ : bool;
  buffer_producer_impl_ : BufferProducer;
  calls : list RescalerCall
}.

#[export] Instance settable_CameraRescaler : Settable CameraRescaler :=
  {| eta_expand := fun r => mkRescaler (pool r) (device r) (mapped_buffs_ r) (bufs_list_ r) (abort_ r)
       (running_ r) (thread_ r) (is_stop_ r) (buffer_producer_impl_ r) (calls r) |}.

Definition CameraRescaler_new (d : D) : CameraRescaler :=
  mkRescaler CameraRescalerMemPool_new d ∅ [] false false false false BufferProducer_new [].

Definition set_pool (f : CameraRescalerMemPool -> CameraRescalerMemPool) : ST CameraRescaler unit :=
  modify (fun r => r <| pool := f (pool r) |>).

Definition call_out (c : RescalerCall) : ST CameraRescaler unit :=
  modify (fun r => r <| calls := calls r ++ [c] |>).

(** ** The pool *)

(** Whether a feature is on: the structure of its tag, whose [enable] is the
    byte behind the tag.  An error when the tag has not exactly one entry;
    [None] where reading the structure is undefined. *)
Definition feature_on (tag : Z) (x : ExtraParam) : option (Z + bool) :=
  if Exists tag x then
    if EntryCount tag x =? 1 then
      match Fetch tag (bytes32 tag ++ [0; 0; 0; 0]) 0 x with
      | Some (Fetched data) => Some (inr (negb (nth 4 data 0 =? 0)))
      | Some (NotFetched _) => Some (inr false)
      | _ => None
      end
    else Some (inl BAD_VALUE)
  else Some (inr false).

(** [allocator]: the device could be created. *)
Definition Initialize (allocator : bool) (width height format : Z) (x : ExtraParam) : ST CameraRescaler Z :=
  do* set_pool (fun p => p <| init_params_ := mkPoolParams width height format |>) in
  match feature_on QMMF_EIS x with
  | None => undefined
  | Some (inl e) => ret e
  | Some (inr eis) =>
      do* set_pool (fun p => p <| is_eis_on_ := is_eis_on_ p || eis |>) in
      match feature_on QMMF_LDC x with
      | None => undefined
      | Some (inl e) => ret e
      | Some (inr ldc) =>
          do* set_pool (fun p => p <| is_ldc_on_ := is_ldc_on_ p || ldc |>) in
          if negb allocator then ret (-1)
          else
            do* set_pool (fun p => p <| mem_alloc_slots_ :=
                                          Some (replicate (Z.to_nat RESCALER_BUFFERS_CNT) 0) |>) in
            ret NO_ERROR
      end
  end.

Definition ReturnBufferLocked (b : StreamBuffer) : ST CameraRescaler Z :=
  let* p := gets pool in
  if pending_buffer_count_ p =? 0 then ret INVALID_OPERATION
  else if negb (kv_mem (sb_handle b) (mem_alloc_buffers_ p)) then ret BAD_VALUE
  else
    do* set_pool (fun p => p <| mem_alloc_buffers_ := kv_replace (sb_handle b) true (mem_alloc_buffers_ p) |>
                             <| pending_buffer_count_ := u32 (pending_buffer_count_ p - 1) |>) in
    ret NO_ERROR.

Definition rescaler_layout (handle : Z) (p : RescalerMemPoolParams) (d : D) : Z * option CameraBufferMetaData :=
  match Perform handle GetAlignedHeight d, Perform handle GetAlignedWidth d with
  | Some alignedH, Some alignedW =>
      let f := GetFormat handle d in
      let w := init_width p in
      let h := init_height p in
      if (f =? HAL_PIXEL_FORMAT_YCbCr_420_888) || (f =? HAL_PIXEL_FORMAT_IMPLEMENTATION_DEFINED)
         || (f =? HAL_PIXEL_FORMAT_YCbCr_420_SP_VENUS) || (f =? HAL_PIXEL_FORMAT_NV12_ENCODEABLE)
      then (NO_ERROR, Some (semi_planar kNV12 w h alignedW alignedH))
      else if f =? HAL_PIXEL_FORMAT_YCbCr_420_SP_VENUS_UBWC
      then (NO_ERROR, Some (semi_planar kNV12UBWC w h alignedW alignedH))
      else if f =? HAL_PIXEL_FORMAT_RGB_888
      then (NO_ERROR, Some (one_plane kRGB w h alignedW alignedH 0))
      else if f =? HAL_PIXEL_FORMAT_NV21_ZSL
      then (NO_ERROR, Some (semi_planar kNV21 w h alignedW alignedH))
      else if f =? HAL_PIXEL_FORMAT_YCbCr_422_888 then
        (NO_ERROR, Some (mkMeta kNV16 2
           [mkPlane alignedW alignedH w h (u32 (alignedW * alignedH)) 0;
            mkPlane alignedW alignedH w h (u32 (alignedW * alignedH)) (u32 (alignedW * alignedH))]))
      else (NAME_NOT_FOUND, None)
  | _, _ => (BAD_VALUE, None)
  end.

Definition rescaler_usage (eis ldc : bool) : Z :=
  let flags := Z.lor (Z.lor (Z.lor kSwWriteOften kSwReadOften) (Z.lor kHwFb kVideoEncoder)) kPrivateAllocUbwc in
  if eis || ldc then Z.land flags (Z.lnot kPrivateAllocUbwc)
  else Z.land flags (Z.lnot (Z.lor kSwWriteOften kSwReadOften)).

(** The handle of a new buffer; [None] when the allocator fails. *)
Definition AllocHWMemBuffer : ST CameraRescaler (option Z) := fun r =>
  let p := init_params_ (pool r) in
  let none := (init_width p =? 0) || (init_height p =? 0) in
  let w := if none then 1 else init_width p in
  let h := if none then 1 else init_height p in
  match AllocBuffer (i32 w) (i32 h) (init_format p)
          (rescaler_usage (is_eis_on_ (pool r)) (is_ldc_on_ (pool r))) (device r) with
  | (None, d) => Some (None, r <| device := d |>)
  | (Some (b, _), d) => Some (Some b, r <| device := d |>)
  end.

(** A buffer that is free, or a new one: its slot and handle. *)
Definition pick_output : ST CameraRescaler (Z + Z * Z) :=
  let* p := gets pool in
  match first_free (mem_alloc_buffers_ p) with
  | Some h =>
      do* set_pool (fun p => p <| mem_alloc_buffers_ := kv_replace h false (mem_alloc_buffers_ p) |>) in
      ret (inr (slot_index 0 (buffers_allocated_ p) h (default [] (mem_alloc_slots_ p)), h))
  | None =>
      if buffers_allocated_ p <? RESCALER_BUFFERS_CNT then
        let* new := AllocHWMemBuffer in
        match new with
        | None => ret (inl NO_MEMORY)
        | Some h =>
            let idx := i32 (buffers_allocated_ p) in
            do* set_pool (fun p => p
                  <| mem_alloc_slots_ := (fun l => <[Z.to_nat idx := h]> l) <$> mem_alloc_slots_ p |>
                  <| mem_alloc_buffers_ := kv_add h false (mem_alloc_buffers_ p) |>
                  <| buffers_allocated_ := u32 (buffers_allocated_ p + 1) |>) in
            ret (inr (idx, h))
        end
      else ret (inr (-1, 0))
  end.

(** [GetBufferLocked] of a buffer that is given: the result and the buffer
    it leaves, of which only what it fills in is known. *)
Definition blank : StreamBuffer := mkStreamBuffer None 0 0 0 0 0 (-1) 0 None.

Definition fill_output (picked : Z + Z * Z) : ST CameraRescaler (Z * StreamBuffer) :=
  match picked with
  | inl e => ret (e, blank)
  | inr (idx, h) =>
      if (h =? 0) || (idx <? 0) then ret (INVALID_OPERATION, blank)
      else
        let* r := gets (fun r => r) in
        let slot := nth (Z.to_nat idx) (default [] (mem_alloc_slots_ (pool r))) 0 in
        match rescaler_layout slot (init_params_ (pool r)) (device r) with
        | (_, Some info) =>
            do* set_pool (fun p => p <| pending_buffer_count_ := u32 (pending_buffer_count_ p + 1) |>) in
            ret (NO_ERROR, mkStreamBuffer (Some info) 0 0 0 0 slot (GetFD slot (device r))
                             (GetSize slot (device r)) (Perform slot GetMetaFd (device r)))
        | (e, None) => ret (e, mkStreamBuffer None 0 0 0 0 slot (-1) 0 None)
        end
  end.

Definition GetBufferLocked : ST CameraRescaler (Z * StreamBuffer) :=
  let* picked := pick_output in fill_output picked.

(** [ws]: what happens during the waits for a buffer, each of which ends with
    a signal or times out, and is begun again all the same. *)
Fixpoint GetFreeOutputBuffer (ws : list (CameraRescaler -> CameraRescaler)) : ST CameraRescaler (Z * StreamBuffer) := fun r =>
  match mem_alloc_slots_ (pool r) with
  | None => Some ((NO_ERROR, blank), r)
  | Some _ =>
      if pending_buffer_count_ (pool r) =? RESCALER_BUFFERS_CNT then
        match ws with [] => None | w :: ws' => GetFreeOutputBuffer ws' (w r) end
      else GetBufferLocked r
  end.

(** The destructor frees what the pool has allocated. *)
Definition CameraRescalerMemPool_delete (r : CameraRescaler) : CameraRescaler :=
  r <| device := free_all (kv_keys (mem_alloc_buffers_ (pool r))) (device r) |>
    <| pool := (pool r) <| mem_alloc_buffers_ := [] |> <| mem_alloc_slots_ := None |> |>.

(** ** The thread *)

Definition ReturnBufferToBufferPool (b : StreamBuffer) : ST CameraRescaler Z := ReturnBufferLocked b.

(** [NotifyBufferReturned]: the producer gives an output buffer back. *)
Definition NotifyBufferReturned (b : StreamBuffer) : ST CameraRescaler unit :=
  let* res := ReturnBufferToBufferPool b in ret tt.

Definition AddBuf (b : StreamBuffer) : ST CameraRescaler unit :=
  modify (fun r => r <| bufs_list_ := bufs_list_ r ++ [b] |>).

(** [address]: what [mmap] answers, [None] for [MAP_FAILED]. *)
Definition MapBuf (address : option Z) (b : StreamBuffer) : ST CameraRescaler Z :=
  if sb_fd b =? -1 then ret BAD_VALUE
  else
    let* m := gets mapped_buffs_ in
    match m !! u32 (sb_fd b) with
    | Some _ => ret NO_ERROR
    | None =>
        match address with
        | None => ret BAD_VALUE
        | Some a =>
            do* modify (fun r => r <| mapped_buffs_ := <[u32 (sb_fd b) := a]> (mapped_buffs_ r) |>) in
            ret NO_ERROR
        end
    end.

Definition UnMapBufs : ST CameraRescaler unit := modify (fun r => r <| mapped_buffs_ := ∅ |>).

Definition ReturnBufferToProducer (b : StreamBuffer) : ST CameraRescaler unit := call_out (ToCamera b).

(** The calls of the producer: a buffer it gives back returns to the pool. *)
Definition pass_on (s : Sent) : ST CameraRescaler unit :=
  match s with
  | SentTo c b => call_out (ToConsumer c b)
  | SentBack b => NotifyBufferReturned b
  end.

Definition producer_do (f : BufferProducer -> list Sent * BufferProducer) : ST CameraRescaler unit :=
  let* p := gets buffer_producer_impl_ in
  let '(out, p') := f p in
  do* modify (fun r => r <| buffer_producer_impl_ := p' |>) in
  for_each out pass_on.

Definition NotifyBufferToClient (b : StreamBuffer) : ST CameraRescaler Z :=
  let* p := gets buffer_producer_impl_ in
  if 0 <? GetNumConsumer p then do* producer_do (NotifyBuffer b) in ret NO_ERROR
  else ReturnBufferToBufferPool b.

(** The next frame of the list.  [ws]: the wake-ups of the wait for one. *)
Fixpoint take_frame (ws : list (CameraRescaler -> Z * CameraRescaler)) : ST CameraRescaler (option StreamBuffer) := fun r =>
  match bufs_list_ r with
  | b :: bs => Some (Some b, r <| bufs_list_ := bs |>)
  | [] =>
      match ws with
      | [] => None
      | w :: ws' => let '(res, r') := w r in if res =? 0 then take_frame ws' r' else Some (None, r')
      end
  end.

(** The marks of a frame on the buffer it is drawn into. *)
Definition stamped (source target : StreamBuffer) : StreamBuffer :=
  mkStreamBuffer (sb_info target) (sb_timestamp source) (sb_frame_number source) 0x55aa
    (sb_data_space target) (sb_handle target) (sb_fd target) (sb_size target) (sb_metafd target).

(** What the others do between the sections of a pass, when the thread holds
    no lock: before it looks for an output, before it maps it, while it draws,
    and before the last call. *)
Record PassGaps := mkPassGaps {
  gap_taken : CameraRescaler -> CameraRescaler; gap_got : CameraRescaler -> CameraRescaler;
  gap_drawing : CameraRescaler -> CameraRescaler; gap_last : CameraRescaler -> CameraRescaler
}.

Definition ThreadLoop (address : option Z) (ws1 : list (CameraRescaler -> Z * CameraRescaler))
    (ws2 : list (CameraRescaler -> CameraRescaler)) (g : PassGaps) : ST CameraRescaler bool :=
  let* frame := take_frame ws1 in
  match frame with
  | None => ret true
  | Some in_buffer =>
      do* modify (gap_taken g) in
      let* got := GetFreeOutputBuffer ws2 in
      let out_buffer := stamped in_buffer (snd got) in
      do* modify (gap_got g) in
      let* res := MapBuf address out_buffer in
      if negb (res =? NO_ERROR) then
        let* r := ReturnBufferToBufferPool out_buffer in
        do* modify (gap_last g) in
        do* ReturnBufferToProducer in_buffer in
        ret true
      else
        do* call_out (Drawn in_buffer out_buffer) in
        do* modify (gap_drawing g) in
        do* ReturnBufferToProducer in_buffer in
        do* modify (gap_last g) in
        let* r := NotifyBufferToClient out_buffer in
        ret true
  end.

(** The sections of a pass, by where the thread is and what it has: a frame,
    an output, a frame whose output could not be mapped, both while it draws,
    and the output that is left for the consumers. *)
Inductive ThreadPc :=
| Waiting
| Taken (f : StreamBuffer)
| Got (f out : StreamBuffer)
| Unmapped (f : StreamBuffer)
| Drawing (f out : StreamBuffer)
| Passing (out : StreamBuffer).

Definition thread_section (address : option Z) (pc : ThreadPc) : ST CameraRescaler ThreadPc :=
  match pc with
  | Waiting => let* frame := take_frame [] in ret (match frame with None => Waiting | Some f => Taken f end)
  | Taken f => let* got := GetFreeOutputBuffer [] in ret (Got f (stamped f (snd got)))
  | Got f out =>
      let* res := MapBuf address out in
      if negb (res =? NO_ERROR) then let* r := ReturnBufferToBufferPool out in ret (Unmapped f)
      else do* call_out (Drawn f out) in ret (Drawing f out)
  | Unmapped f => do* ReturnBufferToProducer f in ret Waiting
  | Drawing f out => do* ReturnBufferToProducer f in ret (Passing out)
  | Passing out => let* r := NotifyBufferToClient out in ret Waiting
  end.

(** A pass of the thread is its sections, with the others between them. *)
Lemma pass_is_sections a g r : ThreadLoop a [] [] g r =
  (let* pc := thread_section a Waiting in
   match pc with
   | Taken _ =>
       do* modify (gap_taken g) in
       let* pc := thread_section a pc in
       do* modify (gap_got g) in
       let* pc := thread_section a pc in
       match pc with
       | Drawing _ _ =>
           do* modify (gap_drawing g) in
           let* pc := thread_section a pc in
           do* modify (gap_last g) in
           let* pc := thread_section a pc in ret true
       | _ => do* modify (gap_last g) in let* pc := thread_section a pc in ret true
       end
   | _ => ret true
   end) r.
Proof.
  unfold ThreadLoop, thread_section, bind, modify, ret. destruct (take_frame [] r) as [[[f|] r1]|]; [|done..].
  destruct (GetFreeOutputBuffer [] _) as [[got r2]|]; [|done]. destruct (MapBuf _ _ _) as [[res r3]|]; [|done].
  destruct (negb (res =? NO_ERROR)).
  - destruct (ReturnBufferToBufferPool _ _) as [[x r4]|]; [|done]. by destruct (ReturnBufferToProducer _ _) as [[[] r5]|].
  - destruct (call_out _ _) as [[[] r4]|]; [|done]. destruct (ReturnBufferToProducer _ _) as [[[] r5]|]; [|done].
    by destruct (NotifyBufferToClient _ _) as [[x r6]|].
Qed.

(** [CameraRescalerThread]; [created]: the thread could be created, which
    [Run] takes for granted. *)
Definition Run : ST CameraRescaler Z :=
  let* r := gets id in
  if running_ r then ret (- ENOSYS)
  else do* modify (fun r => r <| abort_ := false |> <| running_ := true |> <| thread_ := true |>) in ret 0.

Definition RequestExit : ST CameraRescaler unit :=
  modify (fun r => if negb (thread_ r) || negb (running_ r) then r else r <| abort_ := true |>).

(** [during]: what the thread and the others do before the join. *)
Definition RequestExitAndWait (during : CameraRescaler -> CameraRescaler) : ST CameraRescaler unit :=
  let* r := gets id in
  if negb (thread_ r) then ret tt
  else
    do* modify (fun r => r <| abort_ := true |>) in
    do* modify during in
    modify (fun r => r <| running_ := false |> <| thread_ := false |>).

Definition ExitPending (r : CameraRescaler) : bool := negb (abort_ r && running_ r).

(** ** The rescaler and its neighbours *)

Definition AddConsumer (consumer : Z) : ST CameraRescaler Z :=
  if consumer =? 0 then ret BAD_VALUE
  else
    do* modify (fun r => r <| buffer_producer_impl_ :=
                               BufferProducer.AddConsumer consumer (buffer_producer_impl_ r) |>) in
    ret NO_ERROR.

Definition RemoveConsumer (consumer : Z) : ST CameraRescaler Z :=
  let* p := gets buffer_producer_impl_ in
  if GetNumConsumer p =? 0 then ret INVALID_OPERATION
  else
    do* modify (fun r => r <| buffer_producer_impl_ :=
                               BufferProducer.RemoveConsumer consumer (buffer_producer_impl_ r) |>) in
    ret NO_ERROR.

Definition OnFrameAvailable (b : StreamBuffer) : ST CameraRescaler unit :=
  let* stop := gets is_stop_ in
  if stop then ReturnBufferToProducer b else AddBuf b.

Definition Start : ST CameraRescaler Z :=
  do* modify (fun r => r <| is_stop_ := false |>) in
  let* res := Run in ret NO_ERROR.

Definition Stop (during : CameraRescaler -> CameraRescaler) : ST CameraRescaler Z :=
  do* modify (fun r => r <| is_stop_ := true |>) in
  do* RequestExitAndWait during in
  do* UnMapBufs in
  ret NO_ERROR.

(** [FromQmmfToHalFormat] of qmmf_common_utils.h. *)
Definition FromQmmfToHalFormat (f : BufferFormat) : Z :=
  match f with
  | kRGB => HAL_PIXEL_FORMAT_RGB_888
  | kBLOB => HAL_PIXEL_FORMAT_BLOB
  | kNV12UBWC | kNV12 | kNV12Encodable => HAL_PIXEL_FORMAT_IMPLEMENTATION_DEFINED
  | kNV21 => HAL_PIXEL_FORMAT_YCbCr_420_888
  | kNV16 => HAL_PIXEL_FORMAT_YCbCr_422_888
  | kRAW8 => HAL_PIXEL_FORMAT_RAW8
  | kRAW10 => HAL_PIXEL_FORMAT_RAW10
  | kRAW12 => HAL_PIXEL_FORMAT_RAW12
  | kRAW16 => HAL_PIXEL_FORMAT_RAW16
  | kUnsupported => -1
  end.

(** [valid]: what the engine's [ValidateOutput] says of the parameters. *)
Definition Init (valid allocator : bool) (width height : Z) (fmt : BufferFormat) (x : ExtraParam)
    : ST CameraRescaler Z :=
  if (width =? 0) || (height =? 0) then ret BAD_VALUE
  else if negb valid then ret BAD_VALUE
  else Initialize allocator width height (FromQmmfToHalFormat fmt) x.

(** ** Sequences of operations *)

(** [RescalerThread]: one section of the thread that does not block, so that
    the other operations come between any two of them; [RescalerStop] finds
    the thread waiting for a frame. *)
Inductive RescalerOp :=
| RescalerFrame (b : StreamBuffer)
| RescalerReturn (consumer : Z) (b : StreamBuffer)
| RescalerThread (address : option Z)
| RescalerStart
| RescalerStop
| RescalerAdd (consumer : Z)
| RescalerRemove (consumer : Z).

Definition status {A} (m : ST CameraRescaler A) : ST CameraRescaler unit := let* x := m in ret tt.

(** The thread goes on from [pc]. *)
Definition rescaler_step (op : RescalerOp) (pc : ThreadPc) : ST CameraRescaler ThreadPc :=
  let stay {A} (m : ST CameraRescaler A) := do* status m in ret pc in
  match op with
  | RescalerFrame b => stay (OnFrameAvailable b)
  | RescalerReturn _ b => stay (producer_do (BufferProducer.NotifyBufferReturned b))
  | RescalerThread a =>
      let* r := gets id in
      match pc with
      | Waiting => if thread_ r && negb (abort_ r) then thread_section a pc else undefined
      | _ => thread_section a pc
      end
  | RescalerStart => stay Start
  | RescalerStop => match pc with Waiting => stay (Stop id) | _ => undefined end
  | RescalerAdd c => stay (AddConsumer c)
  | RescalerRemove c => stay (RemoveConsumer c)
  end.

(** The buffers with consumers after a call; [None] when a buffer is drawn
    into that a consumer has. *)
Definition book_rescaler (l : option (list (Z * Z))) (c : RescalerCall) : option (list (Z * Z)) :=
  match l, c with
  | None, _ => None
  | Some l, ToCamera _ => Some l
  | Some l, ToConsumer k b => Some (l ++ [(k, sb_handle b)])
  | Some l, Drawn _ t => if holders (sb_handle t) l =? 0 then Some l else None
  end.

Definition book_return (op : RescalerOp) (l : list (Z * Z)) : list (Z * Z) :=
  match op with RescalerReturn c b => remove_one (c, sb_handle b) l | _ => l end.

(** Consumers return what they have; the references fit into their counters. *)
Definition rescaler_allowed (op : RescalerOp) (r : CameraRescaler) (l : list (Z * Z)) : bool :=
  match op with
  | RescalerReturn c b => bool_decide ((c, sb_handle b) ∈ l)
  | _ => Z.of_nat (length l + length (buffer_consumers_ (buffer_producer_impl_ r))) <? UINT32_MOD
  end.

(** A run; operations that are not possible do not happen. *)
Fixpoint rescaler_run (ops : list RescalerOp) (pc : ThreadPc) (r : CameraRescaler) (l : list (Z * Z))
    : option (ThreadPc * CameraRescaler * option (list (Z * Z))) :=
  match ops with
  | [] => Some (pc, r, Some l)
  | op :: ops' =>
      if rescaler_allowed op r l then
        match rescaler_step op pc r with
        | None => None
        | Some (pc', r') =>
            match fold_left book_rescaler (drop (length (calls r)) (calls r')) (Some (book_return op l)) with
            | None => Some (pc', r', None)
            | Some l' => rescaler_run ops' pc' r' l'
            end
        end
      else None
  end.

(** The frame and the output that the thread has. *)
Definition thread_frame (pc : ThreadPc) : list StreamBuffer :=
  match pc with Taken f | Got f _ | Unmapped f | Drawing f _ => [f] | _ => [] end.

(** The output of a full pool has no handle. *)
Definition thread_output (pc : ThreadPc) : list Z :=
  match pc with
  | Got _ o | Drawing _ o | Passing o => if sb_handle o =? 0 then [] else [sb_handle o]
  | _ => []
  end.

(** The frames of the camera, and those it got back. *)
Definition frames_of (ops : list RescalerOp) : list StreamBuffer :=
  concat (map (fun op => match op with RescalerFrame b => [b] | _ => [] end) ops).

Definition back_to_camera (cs : list RescalerCall) : list StreamBuffer :=
  concat (map (fun c => match c with ToCamera b => [b] | _ => [] end) cs).

(** ** The camera gets its frames back *)

(** The frames waiting are [q], those the camera has back are [cs]. *)
Definition keeps (q cs : list StreamBuffer) (r : CameraRescaler) : Prop :=
  bufs_list_ r = q /\ back_to_camera (calls r) = cs.

Lemma back_app c1 c2 : back_to_camera (c1 ++ c2) = back_to_camera c1 ++ back_to_camera c2.
Proof. unfold back_to_camera. by rewrite map_app, concat_app. Qed.

Lemma frames_app o1 o2 : frames_of (o1 ++ o2) = frames_of o1 ++ frames_of o2.
Proof. unfold frames_of. by rewrite map_app, concat_app. Qed.

Lemma keeps_return q cs b : preserves (keeps q cs) (ReturnBufferLocked b).
Proof. unfold ReturnBufferLocked, set_pool. repeat preserve_step; try done. by apply preserves_modify. Qed.

Lemma keeps_pass_on q cs s : preserves (keeps q cs) (pass_on s).
Proof.
  destruct s as [c b|b]; simpl.
  - apply preserves_modify. intros r [Hq Hc]. split; [done|]. simpl. by rewrite back_app, app_nil_r.
  - unfold NotifyBufferReturned. preserve_step; [apply keeps_return|preserve_step].
Qed.

Lemma keeps_producer q cs f : preserves (keeps q cs) (producer_do f).
Proof.
  unfold producer_do. preserve_step; [preserve_step|]. destruct (f a) as [out p].
  preserve_step; [by apply preserves_modify|]. preserve_step. apply keeps_pass_on.
Qed.

Lemma keeps_notify q cs b : preserves (keeps q cs) (NotifyBufferToClient b).
Proof.
  unfold NotifyBufferToClient. preserve_step; [preserve_step|]. case_goal.
  - preserve_step; [apply keeps_producer|preserve_step].
  - apply keeps_return.
Qed.

Lemma keeps_map q cs a b : preserves (keeps q cs) (MapBuf a b).
Proof. unfold MapBuf. repeat preserve_step. by apply preserves_modify. Qed.

Lemma keeps_get q cs : preserves (keeps q cs) (GetFreeOutputBuffer []).
Proof.
  intros r Hr. simpl. destruct (mem_alloc_slots_ (pool r)); [|done]. case_goal; [done|].
  revert r Hr E. assert (preserves (keeps q cs) GetBufferLocked) as Hg; [|intros r Hr _; by apply Hg].
  unfold GetBufferLocked, pick_output, fill_output, set_pool.
  assert (preserves (keeps q cs) AllocHWMemBuffer) as Ha.
  { intros r Hr. unfold AllocHWMemBuffer. by destruct (AllocBuffer _ _ _ _ _) as [[[b st]|] d]. }
  repeat (first [apply Ha | preserve_step]); by apply preserves_modify.
Qed.

(** The thread takes the frame at the head of the list and gives it to the
    camera. *)
Lemma section_returns a pc pc' q cs r r' : keeps q cs r -> thread_section a pc r = Some (pc', r') ->
  exists q' cs', keeps q' cs' r' /\ q ++ thread_frame pc ++ cs ≡ₚ q' ++ thread_frame pc' ++ cs'.
Proof.
  intros Hr. assert (forall (m : ST CameraRescaler ThreadPc) P, hoare (keeps q cs) m P -> m r = Some (pc', r') -> P pc' r') as Hrun.
  { intros m P Hm Hs. specialize (Hm r Hr). by rewrite Hs in Hm. }
  destruct pc as [|f|f o|f|f o|o]; intros Hs.
  - destruct Hr as [Hq Hc]. unfold thread_section, bind in Hs. destruct q as [|f q]; simpl in Hs; rewrite Hq in Hs; [done|].
    injection Hs as <- <-. exists q, cs. split; [done|]. simpl. solve_Permutation.
  - apply (Hrun _ (fun pc r => (exists o, pc = Got f o) /\ keeps q cs r)) in Hs as [[o ->] Hk]; [by exists q, cs|].
    apply (hoare_bind _ _ _ _ (fun _ => keeps q cs)); [apply keeps_get|]. intros got r0 Hr0. split; [by eexists|done].
  - apply (Hrun _ (fun pc r => thread_frame pc = [f] /\ keeps q cs r)) in Hs as [Hf Hk]; [exists q, cs; by rewrite Hf|].
    apply (hoare_bind _ _ _ _ (fun _ => keeps q cs)); [apply keeps_map|]. intros res. case_goal.
    + apply (hoare_bind _ _ _ _ (fun _ => keeps q cs)); [apply keeps_return|]. by intros x r0 Hr0.
    + apply (hoare_bind _ _ _ _ (fun _ => keeps q cs)); [|by intros x r0 Hr0].
      apply preserves_modify. intros r0 [Hq Hc]. split; [done|]. simpl. by rewrite back_app, app_nil_r.
  - injection Hs as <- <-. destruct Hr as [Hq Hc]. exists q, (cs ++ [f]). split; [|simpl; solve_Permutation].
    split; [done|]. simpl. by rewrite back_app, Hc.
  - injection Hs as <- <-. destruct Hr as [Hq Hc]. exists q, (cs ++ [f]). split; [|simpl; solve_Permutation].
    split; [done|]. simpl. by rewrite back_app, Hc.
  - apply (Hrun _ (fun pc r => pc = Waiting /\ keeps q cs r)) in Hs as [-> Hk]; [by exists q, cs|].
    apply (hoare_bind _ _ _ _ (fun _ => keeps q cs)); [apply keeps_notify|]. by intros x r0 Hr0.
Qed.

Lemma step_returns op pc pc' r r' : rescaler_step op pc r = Some (pc', r') ->
  bufs_list_ r ++ thread_frame pc ++ back_to_camera (calls r) ++ frames_of [op] ≡ₚ
  bufs_list_ r' ++ thread_frame pc' ++ back_to_camera (calls r').
Proof.
  intros E. set (q := bufs_list_ r). set (cs := back_to_camera (calls r)).
  assert (keeps q cs r) as Hr by done.
  assert (forall A (m : ST CameraRescaler A), preserves (keeps q cs) m -> (do* status m in ret pc) r = Some (pc', r') ->
    frames_of [op] = [] -> q ++ thread_frame pc ++ cs ++ frames_of [op] ≡ₚ bufs_list_ r' ++ thread_frame pc' ++ back_to_camera (calls r')) as Hsame.
  { intros A m Hm Hs ->. rewrite app_nil_r. unfold status, bind, ret in Hs. specialize (Hm r Hr). destruct (m r) as [[x r1]|]; [|done].
    injection Hs as <- <-. by destruct Hm as [-> ->]. }
  destruct op as [b|c b|a| | |c|c].
  - unfold rescaler_step, status, OnFrameAvailable, bind, gets in E. unfold frames_of. simpl.
    destruct (is_stop_ r); injection E as <- <-; simpl; fold q cs; rewrite ?back_app; fold cs; simpl; solve_Permutation.
  - apply (Hsame _ _ (keeps_producer q cs _) E eq_refl).
  - assert (thread_section a pc r = Some (pc', r')) as Hs.
    { unfold rescaler_step, bind, gets, id in E. destruct pc; try exact E. by destruct (thread_ r && negb (abort_ r)). }
    destruct (section_returns a pc pc' q cs r r' Hr Hs) as (q' & cs' & [-> ->] & Hp).
    change (frames_of [RescalerThread a]) with (@nil StreamBuffer). by rewrite app_nil_r.
  - refine (Hsame _ Start _ E eq_refl). unfold Start, Run. repeat preserve_step; by apply preserves_modify.
  - unfold rescaler_step in E. destruct pc; try done. refine (Hsame _ (Stop id) _ E eq_refl).
    unfold Stop, RequestExitAndWait, UnMapBufs. repeat preserve_step; by apply preserves_modify.
  - refine (Hsame _ (AddConsumer c) _ E eq_refl). unfold AddConsumer. repeat preserve_step; by apply preserves_modify.
  - refine (Hsame _ (RemoveConsumer c) _ E eq_refl). unfold RemoveConsumer. repeat preserve_step; by apply preserves_modify.
Qed.

(** Every frame goes back to the camera once.  Over any sequence of
    frames, sections of the thread, returns, starts, stops and changes of the
    consumers, whether buffers could be had and mapped or not, the frames the
    rescaler was given are those it has returned, those still waiting and the
    one that the thread has. *)
Theorem rescaler_returns_frames (ops : list RescalerOp) (pc' : ThreadPc) (r r' : CameraRescaler) (l l' : list (Z * Z)) :
  bufs_list_ r = [] -> calls r = [] -> rescaler_run ops Waiting r l = Some (pc', r', Some l') ->
  frames_of ops ≡ₚ bufs_list_ r' ++ thread_frame pc' ++ back_to_camera (calls r').
Proof.
  intros Hq Hc. enough (forall o pc, rescaler_run o pc r l = Some (pc', r', Some l') ->
    bufs_list_ r ++ thread_frame pc ++ back_to_camera (calls r) ++ frames_of o ≡ₚ
    bufs_list_ r' ++ thread_frame pc' ++ back_to_camera (calls r')) as He.
  { intros E. apply He in E. by rewrite Hq, Hc in E. }
  clear Hq Hc ops. intros ops. revert r l. induction ops as [|op ops IH]; intros r l pc E; simpl in E.
  - injection E as -> -> ->. by rewrite app_nil_r.
  - destruct (rescaler_allowed op r l); [|done]. destruct (rescaler_step op pc r) as [[pc1 r1]|] eqn:E1; [|done].
    destruct (fold_left _ _ _) as [l1|]; [|done]. rewrite <- (IH r1 l1 pc1 E).
    rewrite (frames_app [op] ops : frames_of (op :: ops) = _), !app_assoc. f_equiv. rewrite <- !app_assoc.
    by apply step_returns.
Qed.

(** ** The buffers of the pool *)

Section Pool.
Context `{!AllocDeviceLaws D}.

(** The layout of the buffers the allocator makes is known. *)
Context (layout_known : forall h p d, h ∈ allocated d -> is_Some (snd (rescaler_layout h p d))).

(** The consumers have [l], the buffers [x] are on their way, with the
    thread or back to the pool, and all others are free. *)
Record pool_ok (x : list Z) (l : list (Z * Z)) (r : CameraRescaler) : Prop := {
  po_ordered : kv_ordered (mem_alloc_buffers_ (pool r));
  po_length : Z.of_nat (length (mem_alloc_buffers_ (pool r))) = buffers_allocated_ (pool r);
  po_bound : buffers_allocated_ (pool r) <= RESCALER_BUFFERS_CNT;
  po_slots : exists ss, mem_alloc_slots_ (pool r) = Some ss /\ length ss = 13%nat /\
    forall h, h ∈ take (Z.to_nat (buffers_allocated_ (pool r))) ss <-> h ∈ kv_keys (mem_alloc_buffers_ (pool r));
  po_alloc : forall h, h ∈ kv_keys (mem_alloc_buffers_ (pool r)) -> h ∈ allocated (device r) /\ h <> 0;
  po_free : forall h f, kv_lookup h (mem_alloc_buffers_ (pool r)) = Some f ->
    f = bool_decide (holders h l = 0 /\ h ∉ x);
  po_held : forall h, 0 < holders h l \/ h ∈ x -> h ∈ kv_keys (mem_alloc_buffers_ (pool r));
  po_thread : forall h, h ∈ x -> holders h l = 0;
  po_pending : pending_buffer_count_ (pool r) = kv_count negb (mem_alloc_buffers_ (pool r));
  po_count : forall h, buffers_ (buffer_producer_impl_ r) !! h = counted (holders h l)
}.

(** A state that differs in what the pool does not look at. *)
Lemma pool_ok_same x l r r' : pool_ok x l r -> pool r' = pool r -> device r' = device r ->
  buffers_ (buffer_producer_impl_ r') = buffers_ (buffer_producer_impl_ r) -> pool_ok x l r'.
Proof. intros [] Hp Hd Hb. split; rewrite ?Hp, ?Hd, ?Hb; done. Qed.

Definition hand_back (h : Z) (r : CameraRescaler) : CameraRescaler :=
  r <| pool := (pool r) <| mem_alloc_buffers_ := kv_replace h true (mem_alloc_buffers_ (pool r)) |>
                        <| pending_buffer_count_ := u32 (pending_buffer_count_ (pool r) - 1) |> |>.

(** A buffer on its way goes back to the pool. *)
Lemma return_ok x l r b h : pool_ok (h :: x) l r -> h ∉ x -> sb_handle b = h ->
  ReturnBufferLocked b r = Some (NO_ERROR, hand_back h r) /\ pool_ok x l (hand_back h r).
Proof.
  intros Hr Hx Hb. pose proof (po_held _ _ _ Hr h (or_intror (list_elem_of_here _ _))) as Hin.
  apply kv_lookup_keys in Hin as [f Hf]. pose proof (po_free _ _ _ Hr h f Hf) as Ef.
  rewrite bool_decide_eq_false_2 in Ef by (intros [_ Hn]; apply Hn; by left). subst f.
  pose proof (kv_count_replace negb h true false _ Hf) as Hc. simpl in Hc.
  pose proof (kv_count_bound negb (kv_replace h true (mem_alloc_buffers_ (pool r)))) as Hbd.
  pose proof (kv_count_bound negb (mem_alloc_buffers_ (pool r))) as Hbd2.
  destruct Hr as [R1 R2 R3 R4 R5 R6 R7 R8 R9 R10]. unfold RESCALER_BUFFERS_CNT in *. split.
  - unfold ReturnBufferLocked, bind, gets. rewrite R9, (proj2 (Z.eqb_neq _ _)) by lia.
    rewrite Hb, (proj2 (kv_mem_keys h _)) by (apply kv_lookup_keys; by eexists). cbn [negb]. done.
  - split; simpl; rewrite ?kv_keys_replace, ?kv_replace_length; try done.
    + by apply kv_replace_ordered.
    + intros g f Hg. destruct (decide (g = h)) as [->|Hne].
      * rewrite (kv_lookup_replaced h true false) in Hg by done. injection Hg as <-.
        rewrite bool_decide_eq_true_2; [done|]. split; [apply R8; by left|done].
      * rewrite kv_lookup_replace, (proj2 (Z.eqb_neq g h)) in Hg by done. simpl in Hg. rewrite (R6 g f Hg).
        apply bool_decide_ext. rewrite not_elem_of_cons. tauto.
    + intros g [Hg|Hg]; apply R7; [by left|right; by right].
    + intros g Hg. apply R8. by right.
    + rewrite R9, u32_small by (unfold is_u32, UINT32_MOD; lia). lia.
Qed.

(** What [GetBufferLocked] leaves. *)
Definition got_output (x : list Z) (l : list (Z * Z)) (r : CameraRescaler) (out : Z * StreamBuffer) (r' : CameraRescaler) : Prop :=
  calls r' = calls r /\ buffer_producer_impl_ r' = buffer_producer_impl_ r /\
  ((sb_handle (snd out) <> 0 /\ (sb_handle (snd out) ∉ x) /\ pool_ok (sb_handle (snd out) :: x) l r') \/
   (out = (fst out, blank) /\ pool_ok x l r')).

Lemma taken_count h m : kv_lookup h m = Some true -> kv_count negb (kv_replace h false m) = kv_count negb m + 1.
Proof. intros Hf. rewrite (kv_count_replace negb h false true) by done. simpl. lia. Qed.

Lemma i32_bound z : 0 <= z <= RESCALER_BUFFERS_CNT -> i32 z = z.
Proof. unfold RESCALER_BUFFERS_CNT. intros Hz. apply i32_small. unfold is_i32, INT32_HALF. lia. Qed.

(** A free buffer of the pool. *)
Lemma pick_free x l r h : pool_ok x l r -> first_free (mem_alloc_buffers_ (pool r)) = Some h ->
  exists idx, pick_output r = Some (inr (idx, h),
      r <| pool := (pool r) <| mem_alloc_buffers_ := kv_replace h false (mem_alloc_buffers_ (pool r)) |> |>) /\
    0 <= idx /\ nth (Z.to_nat idx) (default [] (mem_alloc_slots_ (pool r))) 0 = h /\ h <> 0 /\ (h ∉ x) /\
    pool_ok (h :: x) l (r <| pool := (pool r) <| mem_alloc_buffers_ := kv_replace h false (mem_alloc_buffers_ (pool r)) |>
                                   <| pending_buffer_count_ := u32 (pending_buffer_count_ (pool r) + 1) |> |>).
Proof.
  intros Hr Hf. pose proof Hr as [R1 R2 R3 R4 R5 R6 R7 R8 R9 R10].
  apply first_free_some in Hf as Hl; [|done].
  assert (h ∈ kv_keys (mem_alloc_buffers_ (pool r))) as Hin by (apply kv_lookup_keys; by eexists).
  destruct R4 as (ss & Hss & Hlen & Hkeys). pose proof (R5 h Hin) as [Hal Hne].
  destruct (slot_index_take h (buffers_allocated_ (pool r)) ss 0) as (j & Ej & Hj & Hsj);
    [lia|unfold RESCALER_BUFFERS_CNT, INT32_HALF in *; lia|by rewrite Z.sub_0_r; apply Hkeys|].
  exists (Z.of_nat j). pose proof (kv_count_bound negb (kv_replace h false (mem_alloc_buffers_ (pool r)))) as Hbd.
  pose proof (kv_count_bound negb (mem_alloc_buffers_ (pool r))) as Hbd2.
  pose proof (taken_count h _ Hl) as Hc. unfold RESCALER_BUFFERS_CNT in *.
  pose proof (R6 h true Hl) as Hfree. symmetry in Hfree. apply bool_decide_eq_true in Hfree as [Hfree Hnx].
  split_and!; [|lia| |done|done|].
  - unfold pick_output, bind, gets, set_pool, modify, ret. rewrite Hf, Hss. simpl. by rewrite Ej, Z.add_0_l.
  - rewrite Hss, Nat2Z.id. simpl. by apply nth_lookup_Some.
  - split; simpl; rewrite ?kv_keys_replace, ?kv_replace_length; try done.
    + by apply kv_replace_ordered.
    + by exists ss.
    + intros g f Hg. destruct (decide (g = h)) as [->|Hgh].
      * rewrite (kv_lookup_replaced h false true) in Hg by done. injection Hg as <-.
        rewrite bool_decide_eq_false_2; [done|]. intros [_ Hn]. apply Hn. by left.
      * rewrite kv_lookup_replace, (proj2 (Z.eqb_neq g h)) in Hg by done. simpl in Hg. rewrite (R6 g f Hg).
        apply bool_decide_ext. rewrite not_elem_of_cons. tauto.
    + intros g [Hg|[->|Hg]%elem_of_cons]; [apply R7; by left|done|apply R7; by right].
    + intros g [->|Hg]%elem_of_cons; [done|by apply R8].
    + rewrite R9, u32_small by (unfold is_u32, UINT32_MOD; lia). lia.
Qed.

(** A new buffer of the pool. *)
Lemma pick_new x l r : pool_ok x l r -> first_free (mem_alloc_buffers_ (pool r)) = None ->
  exists picked r1, pick_output r = Some (picked, r1) /\ calls r1 = calls r /\
    buffer_producer_impl_ r1 = buffer_producer_impl_ r /\
    ((exists idx h, picked = inr (idx, h) /\ 0 <= idx /\ nth (Z.to_nat idx) (default [] (mem_alloc_slots_ (pool r1))) 0 = h /\
        h <> 0 /\ (h ∉ x) /\ pool_ok (h :: x) l (r1 <| pool := (pool r1)
          <| pending_buffer_count_ := u32 (pending_buffer_count_ (pool r1) + 1) |> |>)) \/
     ((picked = inl NO_MEMORY \/ picked = inr (-1, 0)) /\ pool_ok x l r1)).
Proof.
  intros Hr Hf. pose proof Hr as [R1 R2 R3 R4 R5 R6 R7 R8 R9 R10]. unfold pick_output, bind, gets. rewrite Hf.
  destruct (Z.ltb_spec (buffers_allocated_ (pool r)) RESCALER_BUFFERS_CNT) as [Hlt|Hge];
    [|exists (inr (-1, 0) : Z + Z * Z), r; split_and!; try done; right; by split; [right|]].
  unfold AllocHWMemBuffer. destruct (AllocBuffer _ _ _ _ (device r)) as [[[b st]|] d] eqn:Ea.
  2: { eexists _, _. split; [done|]. split_and!; try done. right. split; [by left|].
       pose proof (alloc_fail _ _ _ _ _ _ Ea) as Hsame. by split; simpl; rewrite ?Hsame. }
  destruct (alloc_ok _ _ _ _ _ _ _ _ Ea) as (Hb0 & Hnew & Hal).
  assert (b ∉ kv_keys (mem_alloc_buffers_ (pool r))) as Hkey by (intros Hin; by apply R5 in Hin as [? _]).
  assert (kv_lookup b (mem_alloc_buffers_ (pool r)) = None) as Hnone.
  { destruct (kv_lookup b _) eqn:E; [|done]. destruct Hkey. apply kv_lookup_keys. by eexists. }
  assert (holders b l = 0) as Hh0.
  { pose proof (holders_bound b l). destruct (Z.eq_dec (holders b l) 0) as [|Hne]; [done|].
    destruct Hkey. apply R7. left. lia. }
  assert (b ∉ x) as Hbx by (intros Hin; apply Hkey, R7; by right).
  destruct R4 as (ss & Hss & Hlen & Hkeys). unfold RESCALER_BUFFERS_CNT in *.
  assert (0 <= buffers_allocated_ (pool r)) as Hpos by lia.
  pose proof (kv_count_bound negb (mem_alloc_buffers_ (pool r))) as Hbd.
  rewrite !(i32_bound (buffers_allocated_ (pool r))) by (unfold RESCALER_BUFFERS_CNT; lia).
  eexists _, _. split; [done|]. split_and!; try done. left. eexists _, b. split_and!; [done|lia| |done|done|].
  - simpl. rewrite Hss. simpl. apply nth_lookup_Some, list_lookup_insert_eq. lia.
  - pose proof (kv_add_length b false (mem_alloc_buffers_ (pool r)) Hnone) as Hlen2.
    pose proof (kv_keys_add b false (mem_alloc_buffers_ (pool r)) Hnone) as Hkadd.
    assert (forall n, n = buffers_allocated_ (pool r) -> u32 (n + 1) = n + 1) as Hu
      by (intros n ->; apply u32_small; unfold is_u32, UINT32_MOD; lia).
    split; simpl; rewrite ?Hu by done.
    + by apply kv_add_ordered.
    + rewrite Hlen2. lia.
    + unfold RESCALER_BUFFERS_CNT; lia.
    + rewrite Hss. exists (<[Z.to_nat (buffers_allocated_ (pool r)) := b]> ss). simpl. split; [done|].
      split; [by rewrite length_insert|]. intros g. rewrite Z2Nat.inj_add, Nat.add_1_r by lia.
      rewrite (take_S_r _ _ b) by (apply list_lookup_insert_eq; lia).
      rewrite take_insert_ge, Hkadd, elem_of_app, list_elem_of_singleton, elem_of_cons, Hkeys by lia. tauto.
    + intros g Hg. rewrite Hkadd, elem_of_cons in Hg. rewrite Hal, elem_of_union, elem_of_singleton.
      destruct Hg as [->|Hg]; [by split; [left|]|]. apply R5 in Hg as [? ?]. split; [by right|done].
    + intros g f Hg. rewrite kv_lookup_add in Hg. destruct (Z.eqb_spec g b) as [->|Hne].
      * injection Hg as <-. rewrite bool_decide_eq_false_2; [done|]. intros [_ Hn]. apply Hn. by left.
      * rewrite (R6 g f Hg). apply bool_decide_ext. rewrite not_elem_of_cons. tauto.
    + intros g Hg. rewrite Hkadd, elem_of_cons. destruct Hg as [Hg|[->|Hg]%elem_of_cons]; [right; apply R7; by left|by left|].
      right. apply R7. by right.
    + intros g [->|Hg]%elem_of_cons; [done|by apply R8].
    + rewrite (kv_count_add negb b false _ Hnone). simpl. rewrite R9, u32_small by (unfold is_u32, UINT32_MOD; lia). lia.
    + done.
Qed.

Lemma fill_ok x l r r1 idx h :
  calls r1 = calls r -> buffer_producer_impl_ r1 = buffer_producer_impl_ r -> 0 <= idx -> h <> 0 -> h ∉ x ->
  nth (Z.to_nat idx) (default [] (mem_alloc_slots_ (pool r1))) 0 = h ->
  pool_ok (h :: x) l (r1 <| pool := (pool r1) <| pending_buffer_count_ := u32 (pending_buffer_count_ (pool r1) + 1) |> |>) ->
  wp (fill_output (inr (idx, h))) (got_output x l r) r1.
Proof.
  intros Hc Hp Hi Hh Hx Hn Hok. unfold fill_output. rewrite (proj2 (Z.eqb_neq h 0)), (proj2 (Z.ltb_ge idx 0)) by done.
  cbn [orb]. apply wp_bind, wp_gets. cbv beta. rewrite Hn.
  assert (h ∈ allocated (device r1)) as Hal
    by (apply (po_alloc _ _ _ Hok), (po_held _ _ _ Hok); right; by left).
  destruct (layout_known h (init_params_ (pool r1)) (device r1) Hal) as [info Hinfo].
  destruct (rescaler_layout h (init_params_ (pool r1)) (device r1)) as [e o]. simpl in Hinfo. subst o.
  split_and!; try done. left. by split_and!.
Qed.

Lemma get_output x l r : pool_ok x l r -> wp GetBufferLocked (got_output x l r) r.
Proof.
  intros Hr. unfold GetBufferLocked. apply wp_bind.
  destruct (first_free (mem_alloc_buffers_ (pool r))) as [h|] eqn:Ef.
  - destruct (pick_free x l r h Hr Ef) as (idx & E & Hi & Hn & Hh & Hx & Hok). unfold wp at 1. rewrite E.
    by apply fill_ok.
  - destruct (pick_new x l r Hr Ef) as (picked & r1 & E & Hc & Hp & Hcase). unfold wp at 1. rewrite E.
    destruct Hcase as [(idx & h & -> & Hi & Hn & Hh & Hx & Hok)|[[-> | ->] Hok]]; [by apply fill_ok|..];
      (split_and!; [done|done|by right]).
Qed.

(** *** The consumers *)

Lemma deliver_all b cs : forall r, for_each (map (fun c => SentTo c b) cs) pass_on r
  = Some (tt, r <| calls := calls r ++ map (fun c => ToConsumer c b) cs |>).
Proof.
  induction cs as [|c cs IH]; intros r; simpl.
  - rewrite app_nil_r. unfold ret. by destruct r.
  - unfold bind, call_out, modify. rewrite IH. simpl. by rewrite <- app_assoc.
Qed.

Lemma book_consumers b cs : forall l, fold_left book_rescaler (map (fun c => ToConsumer c b) cs) (Some l)
  = Some (l ++ map (fun c => (c, sb_handle b)) cs).
Proof.
  induction cs as [|c cs IH]; intros l; simpl; [by rewrite app_nil_r|].
  rewrite IH. simpl. by rewrite <- app_assoc.
Qed.

(** The calls of a step, and what they book. *)
Definition booked (l0 : list (Z * Z)) (r0 : CameraRescaler) (l : list (Z * Z)) (r : CameraRescaler) : Prop :=
  exists new, calls r = calls r0 ++ new /\ fold_left book_rescaler new (Some l0) = Some l.

Lemma booked_same l r r' : calls r' = calls r -> booked l r l r'.
Proof. intros E. exists []. by rewrite app_nil_r. Qed.

Lemma booked_trans l0 r0 l1 r1 l2 r2 : booked l0 r0 l1 r1 -> booked l1 r1 l2 r2 -> booked l0 r0 l2 r2.
Proof.
  intros (n1 & E1 & F1) (n2 & E2 & F2). exists (n1 ++ n2). split; [by rewrite E2, E1, app_assoc|].
  by rewrite fold_left_app, F1.
Qed.

Lemma consumer_count p : Z.of_nat (length (buffer_consumers_ p)) < UINT32_MOD ->
  GetNumConsumer p = Z.of_nat (length (buffer_consumers_ p)).
Proof. intros Hp. apply u32_small. unfold is_u32. lia. Qed.

(** The thread's buffer goes to the consumers, or back when there are none. *)
Lemma notify_ok x l r b : pool_ok (sb_handle b :: x) l r -> sb_handle b ∉ x ->
  Z.of_nat (length l + length (buffer_consumers_ (buffer_producer_impl_ r))) < UINT32_MOD ->
  exists res r' l', NotifyBufferToClient b r = Some (res, r') /\ booked l r l' r' /\ pool_ok x l' r'.
Proof.
  intros Hr Hbx Hfit. set (p := buffer_producer_impl_ r). unfold NotifyBufferToClient, bind, gets. fold p.
  rewrite consumer_count by (fold p in Hfit; lia). destruct (buffer_consumers_ p) as [|k ks] eqn:Ek.
  - simpl. destruct (return_ok x l r b (sb_handle b) Hr Hbx eq_refl) as [E Hok].
    eexists _, _, l. split; [exact E|]. split; [by apply booked_same|done].
  - rewrite <- Ek in *. rewrite (proj2 (Z.ltb_lt _ _)) by (rewrite Ek; simpl; lia).
    unfold producer_do, bind, gets. fold p. rewrite notify_consumers by (by rewrite Ek). unfold modify at 1.
    rewrite deliver_all. eexists _, _, _. split; [done|]. split.
    { eexists. split; [done|]. apply book_consumers. }
    destruct Hr as [R1 R2 R3 R4 R5 R6 R7 R8 R9 R10].
    pose proof (R8 (sb_handle b) (list_elem_of_here _ _)) as Hh0.
    assert (0 < Z.of_nat (length (buffer_consumers_ p))) as Hn by (rewrite Ek; simpl; lia).
    assert (forall g, holders g (l ++ map (fun c => (c, sb_handle b)) (kv_keys (buffer_consumers_ p)))
      = holders g l + if sb_handle b =? g then Z.of_nat (length (buffer_consumers_ p)) else 0) as Hhold.
    { intros g. rewrite holders_app, holders_all. unfold kv_keys. by rewrite length_map. }
    split; simpl; try done.
    + intros g f Hg. rewrite (R6 g f Hg), Hhold. pose proof (holders_bound g l).
      apply bool_decide_ext. destruct (Z.eqb_spec (sb_handle b) g) as [<-|Hne].
      * split; [intros [_ Hn']; destruct Hn'; by left|intros [? _]; lia].
      * rewrite Z.add_0_r, not_elem_of_cons. split; [tauto|]. intros [? ?]. split_and!; [done|congruence|done].
    + intros g [Hg|Hg]; [|apply R7; right; by right]. destruct (decide (sb_handle b = g)) as [<-|Hne].
      * apply R7. right. by left.
      * apply R7. left. by rewrite Hhold, (proj2 (Z.eqb_neq _ _)), Z.add_0_r in Hg.
    + intros g Hg. rewrite Hhold, (proj2 (Z.eqb_neq (sb_handle b) g)), Z.add_0_r by (intros <-; done). apply R8. by right.
    + intros g. rewrite Hhold. fold p. destruct (Z.eqb_spec (sb_handle b) g) as [<-|Hne].
      * rewrite lookup_insert_eq. unfold p in *. rewrite R10, Hh0. simpl. rewrite Z.add_0_l, u32_small by (unfold is_u32; lia).
        by rewrite counted_pos by lia.
      * rewrite lookup_insert_ne, Z.add_0_r by done. apply R10.
Qed.

(** A consumer returns a buffer. *)
Lemma give_back_ok x l r c b : pool_ok x l r -> (c, sb_handle b) ∈ l ->
  exists r' l', producer_do (BufferProducer.NotifyBufferReturned b) r = Some (tt, r') /\
    booked (remove_one (c, sb_handle b) l) r l' r' /\ pool_ok x l' r'.
Proof.
  intros Hr Hin. pose proof (holders_in _ _ _ Hin) as Hpos. set (h := sb_handle b) in *.
  pose proof Hr as [R1 R2 R3 R4 R5 R6 R7 R8 R9 R10].
  assert (forall g, holders g (remove_one (c, h) l) = holders g l - if h =? g then 1 else 0) as Hhold
    by (intros g; by apply holders_remove).
  unfold producer_do, bind, gets, BufferProducer.NotifyBufferReturned. fold h. rewrite R10, counted_pos by lia.
  destruct (Z.ltb_spec 1 (holders h l)) as [Hm|Hm].
  - eexists _, _. split; [done|]. split; [by apply booked_same|]. split; simpl; try done.
    + intros g f Hg. rewrite (R6 g f Hg), Hhold. apply bool_decide_ext. destruct (Z.eqb_spec h g) as [<-|Hne];
        [|by rewrite Z.sub_0_r]. split; intros [? _]; lia.
    + intros g [Hg|Hg]; apply R7; [left; rewrite Hhold in Hg; case_hyp Hg; lia|by right].
    + intros g Hg. rewrite Hhold, (R8 g Hg). destruct (Z.eqb_spec h g) as [<-|]; [|done]. rewrite (R8 h Hg) in Hpos. lia.
    + intros g. rewrite Hhold. destruct (Z.eqb_spec h g) as [<-|Hne].
      * rewrite lookup_insert_eq, counted_pos by lia. done.
      * by rewrite lookup_insert_ne, Z.sub_0_r by done.
  - set (r1 := r <| buffer_producer_impl_ := (buffer_producer_impl_ r)
      <| buffers_ := delete h (buffers_ (buffer_producer_impl_ r)) |> |>).
    assert (h ∉ x) as Hhx by (intros Hx; rewrite (R8 h Hx) in Hpos; lia).
    assert (pool_ok (h :: x) (remove_one (c, h) l) r1) as Hr1.
    { split; simpl; try done.
      - intros g f Hg. rewrite (R6 g f Hg), Hhold. apply bool_decide_ext. destruct (Z.eqb_spec h g) as [<-|Hne].
        + split; [intros [? _]; lia|intros [_ Hn]; destruct Hn; by left].
        + rewrite Z.sub_0_r, not_elem_of_cons. split; [intros [? ?]; split_and!; [done|congruence|done]|tauto].
      - intros g [Hg|[->|Hg]%elem_of_cons]; apply R7; [left; rewrite Hhold in Hg; case_hyp Hg; lia|by left|by right].
      - intros g [->|Hg]%elem_of_cons; rewrite Hhold; [rewrite Z.eqb_refl; lia|].
        rewrite (proj2 (Z.eqb_neq h g)), Z.sub_0_r by (intros ->; done). by apply R8.
      - intros g. rewrite Hhold. destruct (Z.eqb_spec h g) as [<-|Hne].
        + rewrite lookup_delete_eq. by replace (holders h l - 1) with 0 by lia.
        + by rewrite lookup_delete_ne, Z.sub_0_r by done. }
    destruct (return_ok x _ r1 b h Hr1 Hhx eq_refl) as [E Hok].
    unfold modify at 1. cbn [for_each pass_on]. fold r1. unfold NotifyBufferReturned, ReturnBufferToBufferPool, bind.
    rewrite E.
    eexists _, _. split; [done|]. split; [by apply booked_same|done].
Qed.

(** *** The operations *)

Lemma map_aside a b r : exists res r', MapBuf a b r = Some (res, r') /\ pool r' = pool r /\ device r' = device r /\
  buffer_producer_impl_ r' = buffer_producer_impl_ r /\ calls r' = calls r /\ (sb_fd b = -1 -> res = BAD_VALUE).
Proof.
  unfold MapBuf, bind, gets, modify, ret. destruct (Z.eqb_spec (sb_fd b) (-1)); [by eexists _, _|].
  destruct (mapped_buffs_ r !! u32 (sb_fd b)); [by eexists _, _|]. destruct a; by eexists _, _.
Qed.

(** An output without a handle cannot be mapped. *)
Definition pc_ok (pc : ThreadPc) : Prop :=
  match pc with
  | Got _ o => sb_handle o = 0 -> sb_fd o = -1
  | Drawing _ o | Passing o => sb_handle o <> 0
  | _ => True
  end.

(** The thread has its output, the consumers have theirs. *)
Definition rescaler_ok (l : list (Z * Z)) (pc : ThreadPc) (r : CameraRescaler) : Prop :=
  pool_ok (thread_output pc) l r /\ pc_ok pc.

Lemma pool_ok_handle h l r : h <> 0 -> pool_ok (if h =? 0 then [] else [h]) l r -> pool_ok [h] l r.
Proof. intros Hh. by rewrite (proj2 (Z.eqb_neq h 0)). Qed.

(** An output without a handle is refused by the pool. *)
Lemma no_return l r b : pool_ok [] l r -> sb_handle b = 0 -> exists e, ReturnBufferLocked b r = Some (e, r).
Proof.
  intros Hr Hb. unfold ReturnBufferLocked, bind, gets, ret. case_goal; [by eexists|]. rewrite Hb.
  destruct (kv_mem 0 _) eqn:Em; [|by eexists]. apply kv_mem_keys, (po_alloc _ _ _ Hr) in Em. by destruct Em.
Qed.

(** A section of the thread that leads from [pc]. *)
Definition section_ok (pc : ThreadPc) (a : option Z) (l : list (Z * Z)) (r : CameraRescaler) : Prop :=
  wp (thread_section a pc) (fun pc' r' => exists l', booked l r l' r' /\ rescaler_ok l' pc' r') r.

Lemma taken_section f a l r : rescaler_ok l (Taken f) r -> pending_buffer_count_ (pool r) <> RESCALER_BUFFERS_CNT -> section_ok (Taken f) a l r.
Proof.
  intros [Hr _] Hp. unfold section_ok, thread_section. apply wp_bind. destruct (po_slots _ _ _ Hr) as (ss & E & _).
  unfold wp at 1, GetFreeOutputBuffer. rewrite E, (proj2 (Z.eqb_neq _ _)) by done.
  destruct (wp_some _ _ _ (get_output [] l r Hr)) as (out & r2 & -> & Hc & Hbp & Hout). exists l.
  split; [by apply booked_same|]. destruct Hout as [(Hh & _ & Hok)|[-> Hok]]; split; simpl.
  - by rewrite (proj2 (Z.eqb_neq _ _)).
  - intros Hz. by destruct (Hh Hz).
  - exact Hok.
  - done.
Qed.

Lemma got_section f o a l r : rescaler_ok l (Got f o) r -> section_ok (Got f o) a l r.
Proof.
  intros [Hr Ho]. unfold section_ok, thread_section. simpl in Hr, Ho. apply wp_bind.
  destruct (map_aside a o r) as (res & r3 & Em & Hp3 & Hd3 & Hbp3 & Hc3 & Hfd). unfold wp at 1. rewrite Em. clear Em.
  apply (pool_ok_same _ _ _ r3) in Hr; [|done|done|by rewrite Hbp3].
  destruct (Z.eqb_spec (sb_handle o) 0) as [Hz|Hz].
  - rewrite Hfd by (by apply Ho). destruct (no_return l r3 o Hr Hz) as [e Er]. unfold wp, bind, ReturnBufferToBufferPool. simpl. rewrite Er.
    exists l. split; [by apply booked_same|]. by split.
  - case_goal.
    + destruct (return_ok [] l r3 o (sb_handle o) Hr ltac:(apply not_elem_of_nil) eq_refl) as [Er Hok].
      unfold wp, bind, ReturnBufferToBufferPool. rewrite Er. exists l. split; [by apply booked_same|]. by split.
    + exists l. split.
      * exists [Drawn f o]. split; [by simpl; rewrite Hc3|]. simpl. by rewrite (po_thread _ _ _ Hr _ (list_elem_of_here _ _)).
      * split; [|done]. simpl. rewrite (proj2 (Z.eqb_neq _ _)) by done. by apply (pool_ok_same _ _ r3).
Qed.

Lemma thread_ok pc a l r : rescaler_ok l pc r ->
  Z.of_nat (length l + length (buffer_consumers_ (buffer_producer_impl_ r))) < UINT32_MOD ->
  hoare (fun s => s = r) (thread_section a pc) (fun pc' r' => exists l', booked l r l' r' /\ rescaler_ok l' pc' r').
Proof.
  intros Hr Hfit ? ->. destruct pc as [|f|f o|f|f o|o].
  - unfold thread_section, bind. simpl. destruct Hr as [Hr _]. destruct (bufs_list_ r) as [|f bs]; [done|]. exists l.
    split; [by apply booked_same|]. split; [by apply (pool_ok_same _ _ r)|done].
  - destruct (Z.eq_dec (pending_buffer_count_ (pool r)) RESCALER_BUFFERS_CNT) as [Hp|Hp].
    + destruct Hr as [Hr _]. destruct (po_slots _ _ _ Hr) as (ss & E & _). unfold thread_section, bind, GetFreeOutputBuffer.
      by rewrite E, Hp, Z.eqb_refl.
    + pose proof (taken_section f a l r Hr Hp) as Hs. unfold section_ok, wp in Hs. by destruct (thread_section a (Taken f) r) as [[pc' r']|].
  - pose proof (got_section f o a l r Hr) as Hs. unfold section_ok, wp in Hs. by destruct (thread_section a (Got f o) r) as [[pc' r']|].
  - destruct Hr as [Hr _]. exists l. split; [by exists [ToCamera f]|]. split; [by apply (pool_ok_same _ _ r)|done].
  - destruct Hr as [Hr Ho]. exists l. split; [by exists [ToCamera f]|]. split; [by apply (pool_ok_same _ _ r)|done].
  - destruct Hr as [Hr Ho]. apply pool_ok_handle in Hr; [|done].
    destruct (notify_ok [] l r o Hr ltac:(apply not_elem_of_nil) Hfit) as (res & r' & l' & E & Hb & Hok).
    unfold thread_section, bind. rewrite E. exists l'. split; [done|]. by split.
Qed.

(** What an operation books, and that it leaves the pool in order. *)
Lemma step_ok op pc l r : rescaler_ok l pc r -> rescaler_allowed op r l = true ->
  hoare (fun s => s = r) (rescaler_step op pc)
    (fun pc' r' => exists l', booked (book_return op l) r l' r' /\ rescaler_ok l' pc' r').
Proof.
  intros Hr Ha s ->. assert (forall r', calls r' = calls r -> pool r' = pool r -> device r' = device r ->
    buffers_ (buffer_producer_impl_ r') = buffers_ (buffer_producer_impl_ r) ->
    exists l', booked l r l' r' /\ rescaler_ok l' pc r') as Hsame.
  { intros r' Hc Hp Hd Hb. exists l. split; [by apply booked_same|]. destruct Hr as [Hr Hpc].
    split; [by apply (pool_ok_same _ _ r)|done]. }
  destruct op as [b|c b|a| | |c|c]; simpl in Ha.
  - unfold rescaler_step, status, OnFrameAvailable, bind, gets. destruct (is_stop_ r); simpl; [|by apply Hsame].
    exists l. split; [by exists [ToCamera b]|]. destruct Hr as [Hr Hpc]. split; [by apply (pool_ok_same _ _ r)|done].
  - apply bool_decide_eq_true in Ha. destruct Hr as [Hr Hpc]. destruct (give_back_ok _ l r c b Hr Ha) as (r' & l' & E & Hb & Hok).
    unfold rescaler_step, status, bind. rewrite E. exists l'. split; [done|]. by split.
  - apply Z.ltb_lt in Ha. pose proof (thread_ok pc a l r Hr ltac:(lia) r eq_refl) as Ht.
    unfold rescaler_step, bind, gets, id. destruct pc; try exact Ht. destruct (thread_ r && negb (abort_ r)); [exact Ht|done].
  - unfold rescaler_step, status, Start, Run, bind, modify, gets, id. simpl. destruct (running_ r); simpl; by apply Hsame.
  - unfold rescaler_step, status, Stop, RequestExitAndWait, bind, modify, gets, id. destruct pc; try done. simpl.
    destruct (thread_ r); simpl; by apply Hsame.
  - unfold rescaler_step, status, AddConsumer, bind, modify, ret. destruct (c =? 0); simpl; apply Hsame; try done. simpl.
    unfold BufferProducer.AddConsumer, BufferProducer.RemoveConsumer. by case_match.
  - unfold rescaler_step, status, RemoveConsumer, bind, modify, gets, ret. case_goal; simpl; apply Hsame; try done. simpl.
    unfold BufferProducer.AddConsumer, BufferProducer.RemoveConsumer. by case_match.
Qed.

Lemma run_ok ops : forall pc l r pc' r' ol, rescaler_ok l pc r -> rescaler_run ops pc r l = Some (pc', r', ol) ->
  exists l', ol = Some l' /\ rescaler_ok l' pc' r'.
Proof.
  induction ops as [|op ops IH]; intros pc l r pc' r' ol Hr E; simpl in E; [injection E as <- <- <-; by exists l|].
  destruct (rescaler_allowed op r l) eqn:Ea; [|done]. pose proof (step_ok op pc l r Hr Ea r eq_refl) as Hs.
  destruct (rescaler_step op pc r) as [[pc1 r1]|]; [|done]. destruct Hs as (l1 & (new & Ec & Eb) & Hok).
  rewrite Ec, drop_app_length, Eb in E. by apply (IH pc1 l1 r1).
Qed.

Lemma feature_error tag x e : feature_on tag x = Some (inl e) -> e = BAD_VALUE.
Proof. unfold feature_on. intros E. repeat case_match; congruence. Qed.

Lemma init_ok valid allocator w h fmt x (d : D) r :
  Init valid allocator w h fmt x (CameraRescaler_new d) = Some (NO_ERROR, r) -> pool_ok [] [] r.
Proof.
  unfold Init. case_match; [done|]. case_match; [done|]. unfold Initialize, bind, set_pool, modify.
  destruct (feature_on QMMF_EIS x) as [[e|eis]|] eqn:E1; [apply feature_error in E1 as ->; done| |done].
  destruct (feature_on QMMF_LDC x) as [[e|ldc]|] eqn:E2; [apply feature_error in E2 as ->; done| |done].
  case_match; [done|]. unfold ret. intros [= <-]. split; simpl; try done.
  - exists (replicate 13 0). split_and!; [done..|]. intros g. by rewrite !elem_of_nil.
  - intros g Hg. by apply not_elem_of_nil in Hg.
  - intros g [Hg|Hg]; [done|by apply not_elem_of_nil in Hg].
Qed.

(** C17. A frame is never drawn into a buffer a consumer has.  Over any
    sequence of frames, sections of the thread, starts, stops and changes of
    the consumers, in which consumers return what they were given and others
    go on whenever the thread holds no lock: no buffer is drawn into while a
    consumer holds it, from the moment the thread gets it until it passes it
    on; a buffer of the pool is free exactly when neither a consumer nor the
    thread holds it, the count of those in use is theirs, and there are never
    more than thirteen. *)
Theorem outputs_never_shared (valid allocator : bool) (w h : Z) (fmt : BufferFormat) (x : ExtraParam) (d : D)
    (ops : list RescalerOp) (pc : ThreadPc) (r r' : CameraRescaler) (ol : option (list (Z * Z))) :
  Init valid allocator w h fmt x (CameraRescaler_new d) = Some (NO_ERROR, r) ->
  rescaler_run ops Waiting r [] = Some (pc, r', ol) ->
  exists l, ol = Some l /\
    (forall g, g ∈ thread_output pc -> holders g l = 0) /\
    (forall g f, kv_lookup g (mem_alloc_buffers_ (pool r')) = Some f -> f = bool_decide (holders g l = 0 /\ g ∉ thread_output pc)) /\
    (forall g, 0 < holders g l \/ g ∈ thread_output pc -> g ∈ kv_keys (mem_alloc_buffers_ (pool r'))) /\
    pending_buffer_count_ (pool r') = kv_count negb (mem_alloc_buffers_ (pool r')) /\
    Z.of_nat (length (mem_alloc_buffers_ (pool r'))) <= RESCALER_BUFFERS_CNT.
Proof.
  intros Hi E. apply init_ok in Hi. destruct (run_ok _ Waiting [] r _ _ _ (conj Hi I) E) as (l & -> & [Hok _]). exists l.
  split_and!; [done|apply Hok..|].
  rewrite (po_length _ _ _ Hok). apply (po_bound _ _ _ Hok).
Qed.
End Pool.
End Rescaler.

Arguments CameraRescaler D : clear implicits.

(** ** A run *)

#[export] Instance demo_rgb : RgbPlatform := {| HAL_PIXEL_FORMAT_RGB_888 := 3 |}.

(** The second frame is drawn while a consumer of the first one returns it. *)
Definition demo_rescaler_ops : list RescalerOp :=
  [RescalerStart; RescalerAdd 1; RescalerAdd 2; RescalerFrame (demo_buffer 100 7)] ++
  replicate 5 (RescalerThread (Some 0x7000)) ++
  [RescalerFrame (demo_buffer 101 8); RescalerThread None; RescalerThread None; RescalerThread (Some 0x8000);
   RescalerReturn 2 (demo_buffer 1 7); RescalerThread None; RescalerReturn 1 (demo_buffer 1 7); RescalerThread None;
   RescalerFrame (demo_buffer 102 9)] ++
  replicate 5 (RescalerThread None) ++ [RescalerFrame (demo_buffer 103 10); RescalerStop].

Definition demo_rescaler : CameraRescaler ListDevice :=
  match Init true true 640 480 kNV12 ExtraParam_new (CameraRescaler_new ([] : ListDevice)) with
  | Some (_, r) => r
  | None => CameraRescaler_new []
  end.

Definition demo_rescaled : CameraRescaler ListDevice :=
  match rescaler_run demo_rescaler_ops Waiting demo_rescaler [] with
  | Some (_, r, _) => r
  | None => CameraRescaler_new []
  end.

Definition demo_rescaled_held : list (Z * Z) := [(1, 2); (2, 2); (1, 1); (2, 1)].

Lemma demo_layout_known h p (d : ListDevice) : h ∈ allocated d -> is_Some (snd (rescaler_layout h p d)).
Proof. intros _. vm_compute. by eexists. Qed.

Lemma rescaler_returns_frames_witness :
  back_to_camera (calls demo_rescaled) = [demo_buffer 100 7; demo_buffer 101 8; demo_buffer 102 9] /\
  bufs_list_ demo_rescaled = [demo_buffer 103 10] /\
  frames_of demo_rescaler_ops ≡ₚ bufs_list_ demo_rescaled ++ [] ++ back_to_camera (calls demo_rescaled).
Proof.
  split; [vm_compute; reflexivity|]. split; [vm_compute; reflexivity|].
  apply (rescaler_returns_frames demo_rescaler_ops Waiting demo_rescaler demo_rescaled [] demo_rescaled_held);
    vm_compute; reflexivity.
Defined.

Lemma outputs_never_shared_witness :
  exists l, rescaler_run demo_rescaler_ops Waiting demo_rescaler [] = Some (Waiting, demo_rescaled, Some l) /\
    l = demo_rescaled_held /\ pending_buffer_count_ (pool demo_rescaled) = 2 /\
    pending_buffer_count_ (pool demo_rescaled) = kv_count negb (mem_alloc_buffers_ (pool demo_rescaled)).
Proof.
  destruct (outputs_never_shared demo_layout_known true true 640 480 kNV12 ExtraParam_new ([] : ListDevice)
    demo_rescaler_ops Waiting demo_rescaler demo_rescaled (Some demo_rescaled_held))
    as (l & E & _ & _ & _ & Hc & _); [vm_compute; reflexivity|vm_compute; reflexivity|].
  injection E as <-. exists demo_rescaled_held. split; [vm_compute; reflexivity|].
  split; [reflexivity|]. split; [vm_compute; reflexivity|exact Hc].
Defined.
