(* ===== verification/Track.v ===== *)
(** * The source of a video track

    Models the frame flow of [TrackSource],
    recorder/src/service/qmmf_camera_source.{h,cc}: a frame of the camera
    goes to the client or to the encoder, and to the tracks that copy this
    one; the buffer goes back to its producer when all have returned it.  How
    a track is wired to its camera is in [CameraSource].

    [CalculateEncodesPerFrame] computes, when frames are to be repeated, with
    [input_frame_rate_] and [input_frame_interval_], which nothing sets: its
    result is an argument.  The calls out of the track are recorded in their
    order. *)

From S2P Require Import Prelude KeyedVector Monitor Memory Stream BufferProducer.

(** [VideoFormat] of qmmf_codec.h. *)
Module Video.
Inductive VideoFormat := kRGB | kHEVC | kAVC | kNV12 | kNV12UBWC | kJPEG | kBayerRDI8BIT | kBayerRDI10BIT
  | kBayerRDI12BIT | kBayerRDI16BIT | kBayerIdeal.
End Video.
Abbreviation VideoFormat := Video.VideoFormat.

#[export] Instance VideoFormat_eq : EqDecision VideoFormat.
Proof. solve_decision. Defined.

(** A frame with the fields of [StreamBuffer] that only tracks use. *)
Record Frame := mkFrame {
  frame : StreamBuffer; pending_encodes_per_frame : Z; encodes_per_frame_count : Z; needs_return : bool
}.

#[export] Instance settable_Frame : Settable Frame :=
  {| eta_expand := fun f => mkFrame (frame f) (pending_encodes_per_frame f) (encodes_per_frame_count f) (needs_return f) |}.

Definition handle_of (f : Frame) : Z := sb_handle (frame f).

(** The calls out of a track: [NotifyBufferReturned] of its producer,
    [OnFrameAvailable] of a consumer, [data_cb] of the client. *)
Inductive TrackCall :=
| ToProducer (b : StreamBuffer)
| ToCopy (consumer : Z) (b : StreamBuffer)
| ToClient (b : StreamBuffer).

Record TrackSource := mkTrackSource {
  format_type : VideoFormat;
  is_stop_ : bool;
  is_paused_ : bool;
  eos_acked_ : bool;
  is_idle_ : bool;
  buffer_list_ : kv StreamBuffer;
  buffers_map_ : gmap Z Z;
  frames_received_ : list Frame;
  frames_being_encoded_ : list Frame;
  frame_repeat_ts_prev_ : Z;
  frame_repeat_ts_curr_ : Z;
  enable_frame_repeat_ : bool;
  rescaler_ : bool;
  buffer_producer_impl_ : BufferProducer;
  buffer_map_ : kv Z;
  stream_buffer_map_ : kv StreamBuffer;
  time_lapse_mode_ : bool;
  time_lapse_interval_ : Z;
  time_stamp_ : Z;
  num_consumers_ : Z;
  track_calls : list TrackCall
}.

#[export] Instance settable_TrackSource : Settable TrackSource :=
  {| eta_expand := fun s => mkTrackSource (format_type s) (is_stop_ s) (is_paused_ s) (eos_acked_ s) (is_idle_ s)
       (buffer_list_ s) (buffers_map_ s) (frames_received_ s) (frames_being_encoded_ s) (frame_repeat_ts_prev_ s)
       (frame_repeat_ts_curr_ s) (enable_frame_repeat_ s) (rescaler_ s) (buffer_producer_impl_ s) (buffer_map_ s)
       (stream_buffer_map_ s) (time_lapse_mode_ s) (time_lapse_interval_ s) (time_stamp_ s) (num_consumers_ s)
       (track_calls s) |}.

(** [timelapse]: the interval the client asks for, if it does. *)
Definition TrackSource_new (fmt : VideoFormat) (timelapse : option Z) : TrackSource :=
  mkTrackSource fmt false false false true [] ∅ [] [] 0 0 false false BufferProducer_new [] []
    (match timelapse with Some _ => true | None => false end) (default 0 timelapse) 0 0 [].

Definition track_call (c : TrackCall) : ST TrackSource unit :=
  modify (fun s => s <| track_calls := track_calls s ++ [c] |>).

(** Frames that bypass the encoder. *)
Definition is_raw (fmt : VideoFormat) : bool :=
  match fmt with Video.kHEVC | Video.kAVC | Video.kJPEG => false | _ => true end.

Definition u64 (z : Z) : Z := z mod 2 ^ 64.

(** [buffer_map_] counts the track itself and, as one, its consumers. *)
Definition ReturnBufferToProducer (b : StreamBuffer) : ST TrackSource unit :=
  let h := sb_handle b in
  let* s := gets id in
  match kv_lookup h (buffer_map_ s) with
  | None => ret tt
  | Some n =>
      if n =? 1 then
        do* modify (fun s => s <| buffer_map_ := kv_remove h (buffer_map_ s) |>
                               <| stream_buffer_map_ := kv_remove h (stream_buffer_map_ s) |>) in
        track_call (ToProducer b)
      else
        do* modify (fun s => s <| buffer_map_ := kv_replace h (u32 (n - 1)) (buffer_map_ s) |>) in
        if (num_consumers_ s =? 0) && rescaler_ s then
          do* modify (fun s => s <| stream_buffer_map_ := kv_remove h (stream_buffer_map_ s) |>) in
          do* track_call (ToProducer b) in
          modify (fun s => s <| buffer_map_ := kv_remove h (buffer_map_ s) |>)
        else ret tt
  end.

(** ** The consumers of the track *)

Definition NotifyBufferReturned (b : StreamBuffer) : ST TrackSource unit := ReturnBufferToProducer b.

Definition pass_on (x : Sent) : ST TrackSource unit :=
  match x with
  | SentTo c b => track_call (ToCopy c b)
  | SentBack b => NotifyBufferReturned b
  end.

Definition producer_do (f : BufferProducer -> list Sent * BufferProducer) : ST TrackSource unit :=
  let* p := gets buffer_producer_impl_ in
  let '(out, p') := f p in
  do* modify (fun s => s <| buffer_producer_impl_ := p' |>) in
  for_each out pass_on.

Definition AddConsumer (consumer : Z) : ST TrackSource Z :=
  if consumer =? 0 then ret (- EINVAL)
  else
    do* modify (fun s =>
          let p := BufferProducer.AddConsumer consumer (buffer_producer_impl_ s) in
          s <| buffer_producer_impl_ := p |> <| num_consumers_ := GetNumConsumer p |>) in
    ret 0.

Definition RemoveConsumer (consumer : Z) : ST TrackSource Z :=
  let* s := gets id in
  if GetNumConsumer (buffer_producer_impl_ s) =? 0 then ret (- ENOSYS)
  else
    do* modify (fun s =>
          let p := BufferProducer.RemoveConsumer consumer (buffer_producer_impl_ s) in
          s <| buffer_producer_impl_ := p |> <| num_consumers_ := GetNumConsumer p |>) in
    ret 0.

(** ** Frames *)

Definition remember (b : StreamBuffer) (s : TrackSource) : TrackSource :=
  let h := sb_handle b in
  s <| buffer_map_ := if kv_mem h (buffer_map_ s) then buffer_map_ s else kv_add h 1 (buffer_map_ s) |>
    <| stream_buffer_map_ := if kv_mem h (stream_buffer_map_ s) then stream_buffer_map_ s
                             else kv_add h b (stream_buffer_map_ s) |>.

(** [calculated]: see above. *)
Definition CalculateEncodesPerFrame (calculated : Z) (s : TrackSource) : Z :=
  if negb (enable_frame_repeat_ s) then 1 else calculated.

(** The consumers get the frame; [back]: what they return at once. *)
Definition feed_copies (back : list StreamBuffer) (b : StreamBuffer) : ST TrackSource unit :=
  let h := sb_handle b in
  let* s := gets id in
  if 0 <? num_consumers_ s then
    match kv_lookup h (buffer_map_ s) with
    | None => undefined
    | Some n =>
        do* modify (fun s => s <| buffer_map_ := kv_replace h (u32 (n + 1)) (buffer_map_ s) |>) in
        do* producer_do (NotifyBuffer b) in
        for_each back (fun b' => producer_do (BufferProducer.NotifyBufferReturned b'))
    end
  else ret tt.

Definition PushFrameToQueue (f : Frame) : ST TrackSource unit :=
  modify (fun s => s <| frames_received_ := frames_received_ s ++ [f] |>).

Definition OnFrameAvailable (calculated : Z) (back : list StreamBuffer) (b : StreamBuffer) : ST TrackSource unit :=
  do* modify (remember b) in
  let* s := gets id in
  if eos_acked_ s && is_stop_ s && negb (is_raw (format_type s)) then ReturnBufferToProducer b
  else
    let n := if time_lapse_mode_ s then 0 else CalculateEncodesPerFrame calculated s in
    do* feed_copies back b in
    if is_paused_ s then ReturnBufferToProducer b
    else if is_raw (format_type s) then
      if is_stop_ s then ReturnBufferToProducer b
      else
        do* modify (fun s => s <| buffer_list_ := if kv_mem (u32 (sb_fd b)) (buffer_list_ s) then buffer_list_ s
                                                  else kv_add (u32 (sb_fd b)) b (buffer_list_ s) |>
                               <| is_idle_ := false |>) in
        track_call (ToClient b)
    else PushFrameToQueue (mkFrame b n n false).

(** The client returns the buffers with the descriptors [fds]; one that it
    does not have fails an assertion. *)
Definition ReturnTrackBuffer (fds : list Z) : ST TrackSource Z :=
  match fds with
  | [] => undefined
  | _ =>
      do* for_each fds (fun fd =>
            let* s := gets id in
            match kv_lookup (u32 fd) (buffer_list_ s) with
            | None => undefined
            | Some b =>
                do* ReturnBufferToProducer b in
                modify (fun s => s <| buffer_list_ := kv_remove (u32 fd) (buffer_list_ s) |>)
            end) in
      do* modify (fun s => match buffer_list_ s with [] => s <| is_idle_ := true |> | _ => s end) in
      ret 0
  end.

Definition ClearInputQueue : ST TrackSource unit :=
  let* s := gets id in
  do* for_each (frames_received_ s) (fun f => ReturnBufferToProducer (frame f)) in
  modify (fun s => s <| frames_received_ := [] |>).

(** [Flush]: all raw formats but the 16 bit one. *)
Definition Flush : ST TrackSource Z :=
  let* s := gets id in
  if is_raw (format_type s) && negb (bool_decide (format_type s = Video.kBayerRDI16BIT)) then
    do* for_each (kv_values (buffer_list_ s)) ReturnBufferToProducer in
    do* modify (fun s => s <| buffer_list_ := [] |> <| is_idle_ := true |>) in
    ret 0
  else ret 0.

Definition EnableFrameRepeat (enable : bool) : ST TrackSource unit :=
  modify (fun s => s <| enable_frame_repeat_ := enable |>).

(** ** The encoder *)

Section Encoder.
(** [GetAllocBufferHandle], the native handle behind a buffer. *)
Context (native : Z -> Z).

Definition kTsFactor : Z := 10000000.

Record BufferDescriptor := mkDescriptor { bd_data : Z; bd_fd : Z; bd_size : Z; bd_timestamp : Z }.

(** The frame at the head of the queue goes to the encoder, under the time
    stamp that is its second component. *)
Definition encode_head (f : Frame) (rest : list Frame) (s : TrackSource) : option (Z * TrackSource) :=
  if time_lapse_mode_ s then
    let ts := u64 (time_stamp_ s + u32 (time_lapse_interval_ s * 1000000)) in
    Some (ts, s <| frames_being_encoded_ := frames_being_encoded_ s ++ [f <| needs_return := true |>] |>
                <| frames_received_ := rest |> <| time_stamp_ := ts |>)
  else if encodes_per_frame_count f =? 0 then None
  else
    let t := sb_timestamp (frame f) in
    let ts_factor := u64 (u64 (t - frame_repeat_ts_prev_ s) / encodes_per_frame_count f - kTsFactor) in
    let ts := if encodes_per_frame_count f =? pending_encodes_per_frame f then t
              else u64 (frame_repeat_ts_curr_ s + ts_factor) in
    let pending := u32 (pending_encodes_per_frame f - 1) in
    let last := pending =? 0 in
    let f' := f <| pending_encodes_per_frame := pending |> <| needs_return := last || needs_return f |> in
    Some (ts, s <| frame_repeat_ts_curr_ := ts |>
                <| frame_repeat_ts_prev_ := if last then t else frame_repeat_ts_prev_ s |>
                <| frames_being_encoded_ := frames_being_encoded_ s ++ [f'] |>
                <| frames_received_ := if last then rest else f' :: rest |>).

(** [ws]: the wake-ups of the wait for a frame, with their results.  A wait
    that times out fails an assertion unless the track is paused. *)
Fixpoint GetBuffer (ws : list (TrackSource -> Z * TrackSource)) : ST TrackSource (Z * BufferDescriptor) := fun s =>
  match frames_received_ s with
  | f :: rest =>
      let data := native (handle_of f) in
      let s1 := s <| buffers_map_ := <[data := handle_of f]> (buffers_map_ s) |> in
      match encode_head f rest s1 with
      | None => None
      | Some (ts, s2) =>
          Some ((if is_stop_ s2 then -1 else 0, mkDescriptor data (sb_fd (frame f)) (sb_size (frame f)) ts), s2)
      end
  | [] =>
      match ws with
      | [] => None
      | w :: ws' =>
          let '(r, s') := w s in
          if (r =? 0) || is_paused_ s' then GetBuffer ws' s' else None
      end
  end.

(** The first frame with the encoder whose handle is [h], and the others. *)
Fixpoint take_encoded (h : Z) (fs : list Frame) : option (Frame * list Frame) :=
  match fs with
  | [] => None
  | f :: fs' =>
      if handle_of f =? h then Some (f, fs')
      else match take_encoded h fs' with Some (g, r) => Some (g, f :: r) | None => None end
  end.

(** The encoder returns a frame; one that it does not have fails an
    assertion. *)
Definition ReturnBuffer (data : Z) : ST TrackSource Z :=
  let* s := gets id in
  match buffers_map_ s !! data with
  | None => undefined
  | Some h =>
      match take_encoded h (frames_being_encoded_ s) with
      | None => undefined
      | Some (f, rest) =>
          do* (if needs_return f then ReturnBufferToProducer (frame f) else ret tt) in
          do* modify (fun s => s <| frames_being_encoded_ := rest |>
                                 <| buffers_map_ := delete data (buffers_map_ s) |>) in
          ret 0
      end
  end.
End Encoder.

(** [NotifyPortEvent] for a port that has started or has taken the end of
    the stream, and what it does with the frames when the port is idle. *)
Definition port_started : ST TrackSource unit := modify (fun s => s <| is_idle_ := false |>).

Definition port_stopped : ST TrackSource unit :=
  do* ClearInputQueue in modify (fun s => s <| eos_acked_ := true |>).

Definition port_idle_frames : ST TrackSource unit :=
  do* ClearInputQueue in
  let* s := gets id in
  for_each (kv_keys (buffer_map_ s)) (fun h =>
    match kv_lookup h (stream_buffer_map_ s) with
    | Some b => track_call (ToProducer b)
    | None => ret tt
    end).

Definition port_idle_end : ST TrackSource unit :=
  let* s := gets id in
  match frames_being_encoded_ s with
  | [] => modify (fun s => s <| is_idle_ := true |>)
  | _ => undefined
  end.
