(* ===== verification/TrackFlow.v ===== *)
(** * The buffers of a video track

    Theorems about [Track]: each buffer the producer hands to a track comes
    back once, when the track, its client or encoder, and the tracks that
    copy it are done with it; and what happens to frames that are repeated. *)

From S2P Require Import Prelude KeyedVector Monitor Memory Stream BufferProducer Track.

(** ** Runs

    The operations of the track's neighbours, one after the other; frames are
    not repeated.  A step that is not possible ends the run. *)

Inductive TrackOp :=
| TrackFrame (back : list StreamBuffer) (b : StreamBuffer)
| TrackGet
| TrackEncoded (data : Z)
| TrackReturn (fds : list Z)
| TrackCopied (b : StreamBuffer)
| TrackAdd (consumer : Z)
| TrackRemove (consumer : Z)
| TrackClear
| TrackFlush
| TrackPause (paused : bool)
| TrackStop (stop : bool)
| TrackPortStart
| TrackPortStop.

(** The buffers the producer has got back. *)
Definition given_back (cs : list TrackCall) : list Z :=
  concat (map (fun c => match c with ToProducer b => [sb_handle b] | _ => [] end) cs).

(** A frame of the producer is in a buffer the track does not have. *)
Definition track_allowed (op : TrackOp) (s : TrackSource) : bool :=
  match op with
  | TrackFrame _ b => negb (kv_mem (sb_handle b) (buffer_map_ s)) && negb (kv_mem (u32 (sb_fd b)) (buffer_list_ s))
  | _ => true
  end.

Definition done_with {A} (m : ST TrackSource A) : ST TrackSource unit := let* x := m in ret tt.

Definition delivered (ops : list TrackOp) : list Z :=
  concat (map (fun op => match op with TrackFrame _ b => [sb_handle b] | _ => [] end) ops).

(** The buffers the track, its client or its encoder has. *)
Definition in_use (s : TrackSource) : list Z :=
  map handle_of (frames_received_ s) ++ map handle_of (frames_being_encoded_ s)
  ++ map sb_handle (kv_values (buffer_list_ s)).

Section Run.
Context (native : Z -> Z).

Definition track_step (op : TrackOp) : ST TrackSource unit :=
  match op with
  | TrackFrame back b => OnFrameAvailable 1 back b
  | TrackGet => done_with (GetBuffer native [])
  | TrackEncoded data => done_with (ReturnBuffer data)
  | TrackReturn fds => done_with (ReturnTrackBuffer fds)
  | TrackCopied b => producer_do (BufferProducer.NotifyBufferReturned b)
  | TrackAdd c => done_with (AddConsumer c)
  | TrackRemove c => done_with (RemoveConsumer c)
  | TrackClear => ClearInputQueue
  | TrackFlush => done_with Flush
  | TrackPause p => modify (fun s => s <| is_paused_ := p |>)
  | TrackStop p => modify (fun s => s <| is_stop_ := p |>)
  | TrackPortStart => port_started
  | TrackPortStop => port_stopped
  end.

Fixpoint track_run (ops : list TrackOp) (s : TrackSource) : option TrackSource :=
  match ops with
  | [] => Some s
  | op :: ops' =>
      if track_allowed op s then
        match track_step op s with
        | Some (_, s') => track_run ops' s'
        | None => None
        end
      else None
  end.
End Run.

(** ** Counting the users of a buffer *)

Definition one (P : Prop) `{Decision P} : Z := if decide P then 1 else 0.

(** The buffers [hs] are with the track, its client or its encoder; one use
    of [x] is about to end; [ds] were delivered. *)
Record counts (ds : list Z) (hs : gset Z) (x : option Z) (s : TrackSource) : Prop := {
  ct_fixed : rescaler_ s = false /\ enable_frame_repeat_ s = false;
  ct_consumers : num_consumers_ s = GetNumConsumer (buffer_producer_impl_ s);
  ct_ordered : kv_ordered (buffer_map_ s);
  ct_count : forall h, kv_lookup h (buffer_map_ s) =
    counted (one (h ∈ hs) + one (is_Some (buffers_ (buffer_producer_impl_ s) !! h)) + one (x = Some h));
  ct_back : ds ≡ₚ given_back (track_calls s) ++ kv_keys (buffer_map_ s)
}.

(** What the return of a buffer does not change. *)
Definition rest_of (s : TrackSource) : TrackSource :=
  s <| buffer_map_ := [] |> <| stream_buffer_map_ := [] |> <| track_calls := [] |>
    <| buffer_producer_impl_ := BufferProducer_new |>.

Definition quiet (s s' : TrackSource) : Prop := rest_of s' = rest_of s.

Lemma one_bound P `{Decision P} : 0 <= one P <= 1.
Proof. unfold one. case_decide; lia. Qed.

Lemma one_true P `{Decision P} : P -> one P = 1.
Proof. intros HP. unfold one. by rewrite decide_True. Qed.

Lemma one_false P `{Decision P} : ~ P -> one P = 0.
Proof. intros HP. unfold one. by rewrite decide_False. Qed.

Lemma one_ext P Q `{Decision P} `{Decision Q} : (P <-> Q) -> one P = one Q.
Proof. intros HPQ. unfold one. do 2 case_decide; tauto. Qed.

(** The bounds of the counts in a hypothesis. *)
Ltac one_bounds H :=
  repeat match type of H with
    | context [@one ?P ?D] =>
        let x := fresh "x" in pose proof (@one_bound P D); set (x := @one P D) in *; clearbody x
    end.

Lemma given_back_app c1 c2 : given_back (c1 ++ c2) = given_back c1 ++ given_back c2.
Proof. unfold given_back. by rewrite map_app, concat_app. Qed.

Lemma track_keys_remove {V} h (m : kv V) : kv_ordered m -> kv_mem h m = true -> kv_keys m ≡ₚ h :: kv_keys (kv_remove h m).
Proof.
  induction m as [|[k v] m IH]; simpl; [done|]. intros [Hb Ho]. unfold kv_mem. simpl.
  destruct (Z.eqb_spec h k) as [->|Hne]; [by intros _|]. intros Hm. simpl. rewrite (IH Ho Hm). constructor.
Qed.

(** A use of a buffer ends: it goes back when it was the last. *)
Lemma track_return_ok ds hs s b : counts ds hs (Some (sb_handle b)) s ->
  wp (ReturnBufferToProducer b) (fun _ s' => counts ds hs None s' /\ quiet s s') s.
Proof.
  intros [Hf Hc Ho Hn Hb]. set (h := sb_handle b) in *. pose proof (Hn h) as Hh.
  rewrite (one_true (Some h = Some h)) in Hh by done. unfold ReturnBufferToProducer. fold h.
  pose proof (one_bound (h ∈ hs)) as B1. pose proof (one_bound (is_Some (buffers_ (buffer_producer_impl_ s) !! h))) as B2.
  rewrite counted_pos in Hh by lia. apply wp_bind, wp_gets. unfold id. rewrite Hh.
  assert (forall g, g <> h -> one (Some h = Some g) = one (None = Some g)) as Hx
    by (intros g Hg; apply one_ext; split; congruence).
  case_goal.
  - apply Z.eqb_eq in E. apply wp_bind, wp_modify, wp_modify. split; [split|]; simpl; try done.
    + by apply kv_remove_ordered.
    + intros g. rewrite kv_lookup_remove by done. destruct (Z.eqb_spec g h) as [->|Hg]; [|by rewrite Hn, Hx].
      rewrite (one_false (None = Some h)) by done. by replace (_ + _ + 0) with 0 by lia.
    + rewrite given_back_app. simpl. rewrite <- app_assoc. rewrite Hb. f_equiv.
      apply track_keys_remove; [done|]. unfold kv_mem. by rewrite Hh.
  - apply Z.eqb_neq in E. apply wp_bind, wp_modify. rewrite (proj1 Hf), andb_false_r.
    split; [split|]; simpl; try done.
    + by apply kv_replace_ordered.
    + intros g. rewrite kv_lookup_replace. destruct (Z.eqb_spec g h) as [->|Hg]; simpl; [|by rewrite Hn, Hx].
      unfold kv_mem. rewrite Hh, (one_false (None = Some h)), counted_pos by (done || lia).
      rewrite u32_small by (unfold is_u32, UINT32_MOD; lia). f_equal. lia.
    + by rewrite kv_keys_replace.
Qed.

(** The track, its client or its encoder is done with a buffer. *)
Lemma end_use ds hs s h : counts ds hs None s -> h ∈ hs -> counts ds (hs ∖ {[h]}) (Some h) s.
Proof.
  intros [Hf Hc Ho Hn Hb] Hh. split; try done. intros g. rewrite Hn. f_equal.
  destruct (decide (g = h)) as [->|Hg].
  - rewrite (one_true (h ∈ hs)), (one_false (None = Some h)), (one_true (Some h = Some h)) by done.
    rewrite (one_false (h ∈ hs ∖ {[h]})) by set_solver. lia.
  - rewrite (one_ext (g ∈ hs) (g ∈ hs ∖ {[h]})) by set_solver.
    by rewrite (one_false (None = Some g)), (one_false (Some h = Some g)) by congruence.
Qed.

Lemma own_return ds hs s b : counts ds hs None s -> sb_handle b ∈ hs ->
  wp (ReturnBufferToProducer b) (fun _ s' => counts ds (hs ∖ {[sb_handle b]}) None s' /\ quiet s s') s.
Proof. intros Hc Hh. by apply track_return_ok, end_use. Qed.

(** A consumer returns any buffer. *)
Lemma copied_ok ds hs s b : counts ds hs None s ->
  wp (producer_do (BufferProducer.NotifyBufferReturned b)) (fun _ s' => counts ds hs None s' /\ quiet s s') s.
Proof.
  intros [Hf Hc Ho Hn Hb]. unfold producer_do. apply wp_bind, wp_gets. cbv beta.
  unfold BufferProducer.NotifyBufferReturned. set (h := sb_handle b). set (p := buffer_producer_impl_ s) in *.
  destruct (buffers_ p !! h) as [r|] eqn:Er; [destruct (1 <? r)|]; apply wp_bind, wp_modify; simpl.
  - split; [split|]; simpl; try done. intros g. rewrite Hn. f_equal. f_equal. f_equal. apply one_ext.
    destruct (decide (g = h)) as [->|Hg]; [rewrite lookup_insert_eq, Er; split; by eexists|by rewrite lookup_insert_ne].
  - apply wp_bind. set (s1 := s <| buffer_producer_impl_ := p <| buffers_ := delete h (buffers_ p) |> |>).
    apply (wp_mono _ (fun _ s' => counts ds hs None s' /\ quiet s1 s')); [|by intros [] s' [? ?]; apply wp_ret].
    apply track_return_ok. split; simpl; try done. fold h. intros g. rewrite Hn. f_equal.
    destruct (decide (g = h)) as [->|Hg].
    + rewrite lookup_delete_eq, Er, (one_true (is_Some (Some r))), (one_false (is_Some None)),
        (one_false (None = Some h)), (one_true (Some h = Some h)) by (done || (by eexists) || apply is_Some_None). lia.
    + rewrite lookup_delete_ne by done. rewrite (one_ext (Some h = Some g) (None = Some g)) by (split; congruence). done.
  - split; [split|]; simpl; try done.
Qed.

Lemma quiet_frames s s' : quiet s s' ->
  frames_received_ s' = frames_received_ s /\ frames_being_encoded_ s' = frames_being_encoded_ s /\
  buffer_list_ s' = buffer_list_ s /\ buffers_map_ s' = buffers_map_ s /\ time_lapse_mode_ s' = time_lapse_mode_ s /\
  is_paused_ s' = is_paused_ s /\ is_stop_ s' = is_stop_ s /\ format_type s' = format_type s.
Proof.
  intros Hq. pose proof (f_equal frames_received_ Hq). pose proof (f_equal frames_being_encoded_ Hq).
  pose proof (f_equal buffer_list_ Hq). pose proof (f_equal buffers_map_ Hq). pose proof (f_equal time_lapse_mode_ Hq).
  pose proof (f_equal is_paused_ Hq). pose proof (f_equal is_stop_ Hq). pose proof (f_equal format_type Hq). done.
Qed.

Lemma pass_copies b cs : forall s, for_each (map (fun c => SentTo c b) cs) pass_on s
  = Some (tt, s <| track_calls := track_calls s ++ map (fun c => ToCopy c b) cs |>).
Proof.
  induction cs as [|c cs IH]; intros s; simpl; [rewrite app_nil_r; by destruct s|].
  unfold bind, track_call, modify. rewrite IH. simpl. by rewrite <- app_assoc.
Qed.

Lemma given_back_copies b cs : given_back (map (fun c => ToCopy c b) cs) = [].
Proof. by induction cs. Qed.

Lemma feed_ok ds hs s back b : counts ds hs None s -> sb_handle b ∈ hs ->
  buffers_ (buffer_producer_impl_ s) !! sb_handle b = None ->
  wp (feed_copies back b) (fun _ s' => counts ds hs None s' /\ quiet s s') s.
Proof.
  intros [Hf Hc Ho Hn Hb] Hin Hnew. set (h := sb_handle b) in *. unfold feed_copies. apply wp_bind, wp_gets. unfold id. fold h.
  destruct (Z.ltb_spec 0 (num_consumers_ s)) as [Hpos|]; [|by split; [split|]].
  pose proof (Hn h) as Hh. rewrite Hnew, (one_true (h ∈ hs)), (one_false (is_Some None)), (one_false (None = Some h)) in Hh
    by (done || apply is_Some_None). change (counted (1 + 0 + 0)) with (Some 1) in Hh. rewrite Hh.
  apply wp_bind, wp_modify. apply wp_bind. unfold producer_do. apply wp_bind, wp_gets. simpl.
  set (p := buffer_producer_impl_ s) in *. assert (buffer_consumers_ p <> []) as Hne.
  { intros E. rewrite Hc in Hpos. unfold GetNumConsumer in Hpos. rewrite E in Hpos. done. }
  rewrite notify_consumers by done. apply wp_bind, wp_modify. unfold wp at 1. rewrite pass_copies.
  set (s1 := _ <| track_calls := _ |>). assert (counts ds hs None s1) as H1.
  { split; simpl; try done.
    - by apply kv_replace_ordered.
    - intros g. rewrite kv_lookup_replace. destruct (Z.eqb_spec g h) as [->|Hg]; simpl.
      + unfold kv_mem. rewrite Hh, lookup_insert_eq, (one_true (h ∈ hs)), (one_true (is_Some _)), (one_false (None = Some h))
          by (done || by eexists). done.
      + by rewrite Hn, lookup_insert_ne.
    - rewrite given_back_app, given_back_copies, app_nil_r, kv_keys_replace. done. }
  assert (quiet s s1) as Q1 by done. clearbody s1. revert s1 H1 Q1.
  induction back as [|b' back IH]; intros s1 H1 Q1; simpl; [by split|].
  apply wp_bind. apply (wp_mono _ _ _ _ (copied_ok ds hs s1 b' H1)). intros [] s2 [H2 Q2]. apply IH; [done|].
  unfold quiet in *. congruence.
Qed.

Lemma return_all ds bs : forall hs s, counts ds hs None s -> NoDup (map sb_handle bs) ->
  (forall b, b ∈ bs -> sb_handle b ∈ hs) ->
  wp (for_each bs ReturnBufferToProducer)
    (fun _ s' => counts ds (hs ∖ list_to_set (map sb_handle bs)) None s' /\ quiet s s') s.
Proof.
  induction bs as [|b bs IH]; intros hs s Hc Hnd Hin; simpl.
  - split; [|done]. by replace (hs ∖ ∅) with hs by set_solver.
  - apply NoDup_cons in Hnd as [Hb Hnd]. apply wp_bind.
    apply (wp_mono _ _ _ _ (own_return ds hs s b Hc (Hin b ltac:(by left)))). intros [] s1 [H1 Q1].
    assert (forall c, c ∈ bs -> sb_handle c ∈ hs ∖ {[sb_handle b]}) as Hin1.
    { intros c Hcin. apply elem_of_difference. split; [apply Hin; by right|]. rewrite elem_of_singleton. intros E.
      apply Hb. rewrite <- E. by apply list_elem_of_fmap_2. }
    apply (wp_mono _ _ _ _ (IH _ s1 H1 Hnd Hin1)). intros _ s2 [H2 Q2]. split; [|unfold quiet in *; congruence].
    by replace (hs ∖ ({[sb_handle b]} ∪ list_to_set (map sb_handle bs)))
      with (hs ∖ {[sb_handle b]} ∖ list_to_set (map sb_handle bs)) by set_solver.
Qed.

Lemma for_each_map {A B} (g : A -> B) (body : B -> ST TrackSource unit) l :
  for_each (map g l) body = for_each l (fun a => body (g a)).
Proof. induction l as [|a l IH]; simpl; [done|]. by rewrite IH. Qed.

Lemma kv_values_add {V} k (v : V) m : kv_lookup k m = None -> kv_values (kv_add k v m) ≡ₚ v :: kv_values m.
Proof.
  induction m as [|[k0 v0] m IH]; simpl; [done|]. destruct (Z.eqb_spec k k0) as [->|Hne]; [done|]. intros Hn.
  case_goal; simpl; [done|]. rewrite (IH Hn). constructor.
Qed.

Lemma kv_values_remove {V} k (v : V) m : kv_lookup k m = Some v -> kv_values m ≡ₚ v :: kv_values (kv_remove k m).
Proof.
  induction m as [|[k0 v0] m IH]; simpl; [done|]. destruct (Z.eqb_spec k k0) as [->|Hne]; [by intros [= ->]|].
  intros Hk. simpl. rewrite (IH Hk). constructor.
Qed.

Lemma take_encoded_some h fs f rest : take_encoded h fs = Some (f, rest) -> handle_of f = h /\ fs ≡ₚ f :: rest.
Proof.
  revert f rest. induction fs as [|g fs IH]; intros f rest; simpl; [done|].
  destruct (Z.eqb_spec (handle_of g) h) as [Hg|Hg]; [by intros [= <- <-]|].
  destruct (take_encoded h fs) as [[f' r]|] eqn:E; [|done]. intros [= <- <-].
  destruct (IH f' r eq_refl) as [Hh Hp]. split; [done|]. rewrite Hp. constructor.
Qed.

(** ** The invariant of a track *)

Section Flow.
Context (native : Z -> Z) (native_apart : forall h1 h2, native h1 = native h2 -> h1 = h2).

Record track_ok (ds : list Z) (s : TrackSource) : Prop := {
  tk_counts : counts ds (list_to_set (in_use s)) None s;
  tk_apart : NoDup (in_use s);
  tk_ordered : kv_ordered (buffer_list_ s);
  tk_received : forall f, f ∈ frames_received_ s ->
    time_lapse_mode_ s = true \/ (pending_encodes_per_frame f = 1 /\ encodes_per_frame_count f = 1);
  tk_encoded : forall f, f ∈ frames_being_encoded_ s ->
    needs_return f = true /\ buffers_map_ s !! native (handle_of f) = Some (handle_of f);
  tk_native : forall d h, buffers_map_ s !! d = Some h -> d = native h
}.

(** A state with other counts only. *)
Lemma track_ok_quiet ds ds' s s' : track_ok ds s -> quiet s s' ->
  counts ds' (list_to_set (in_use s)) None s' -> track_ok ds' s'.
Proof.
  intros [] Hq Hc. destruct (quiet_frames s s' Hq) as (E1 & E2 & E3 & E4 & E5 & _).
  assert (in_use s' = in_use s) as Eu by (unfold in_use; by rewrite E1, E2, E3).
  split; rewrite ?Eu, ?E1, ?E2, ?E3, ?E4, ?E5; done.
Qed.

(** A state whose frames have moved. *)
Lemma counts_move ds hs hs' x s s' : counts ds hs x s -> hs = hs' ->   rescaler_ s' = rescaler_ s -> enable_frame_repeat_ s' = enable_frame_repeat_ s ->
  num_consumers_ s' = num_consumers_ s -> buffer_producer_impl_ s' = buffer_producer_impl_ s ->
  buffer_map_ s' = buffer_map_ s -> track_calls s' = track_calls s -> counts ds hs' x s'.
Proof. intros [] <- E1 E2 E3 E4 E5 E6. split; rewrite ?E1, ?E2, ?E3, ?E4, ?E5, ?E6; done. Qed.

Lemma in_use_new ds s h : track_ok ds s -> kv_mem h (buffer_map_ s) = false ->
  (h ∉ in_use s) /\ buffers_ (buffer_producer_impl_ s) !! h = None.
Proof.
  intros Hok Hm. pose proof (ct_count _ _ _ _ (tk_counts _ _ Hok) h) as Hn. unfold kv_mem in Hm.
  destruct (kv_lookup h (buffer_map_ s)); [done|]. unfold counted in Hn. case_hyp Hn; [|done]. apply Z.eqb_eq in E.
  split.
  - intros Hin. rewrite one_true in E by (by apply elem_of_list_to_set). one_bounds E. lia.
  - destruct (buffers_ _ !! h) eqn:Eb; [|done]. rewrite (one_true (is_Some _)) in E by (by eexists). one_bounds E. lia.
Qed.

Lemma remember_ok ds s b : track_ok ds s -> kv_mem (sb_handle b) (buffer_map_ s) = false ->
  counts (sb_handle b :: ds) ({[sb_handle b]} ∪ list_to_set (in_use s)) None (remember b s).
Proof.
  intros Hok Hm. destruct (in_use_new ds s _ Hok Hm) as [Hu Hb]. destruct (tk_counts _ _ Hok) as [Hf Hc Ho Hn Hp].
  assert (kv_lookup (sb_handle b) (buffer_map_ s) = None) as Hl
    by (unfold kv_mem in Hm; by destruct (kv_lookup _ (buffer_map_ s))).
  split; simpl; rewrite ?Hm; try done.
  - by apply kv_add_ordered.
  - intros g. rewrite kv_lookup_add. destruct (Z.eqb_spec g (sb_handle b)) as [->|Hg].
    + rewrite Hb, one_true, (one_false (is_Some None)), (one_false (None = _)) by (set_solver || apply is_Some_None || done). done.
    + rewrite Hn. f_equal. f_equal. f_equal. apply one_ext. set_solver.
  - rewrite Hp, kv_keys_add by done. by rewrite Permutation_middle.
Qed.

(** A new frame. *)
Lemma frame_ok ds s back b : track_ok ds s -> track_allowed (TrackFrame back b) s = true ->
  wp (OnFrameAvailable 1 back b) (fun _ s' => track_ok (sb_handle b :: ds) s') s.
Proof.
  intros Hok Ha. simpl in Ha. bool_hyps. rename H into Hm, H0 into Hfd. set (h := sb_handle b) in *.
  destruct (in_use_new ds s h Hok Hm) as [Hu Hb]. pose proof (remember_ok ds s b Hok Hm) as H1. fold h in H1.
  set (s1 := remember b s) in *. assert (quiet s s1) as Q1 by done.
  assert (forall s2, counts (h :: ds) ({[h]} ∪ list_to_set (in_use s)) None s2 -> quiet s s2 ->
    wp (ReturnBufferToProducer b) (fun _ s' => track_ok (h :: ds) s') s2) as Hret.
  { intros s2 H2 Q2. apply (wp_mono _ _ _ _ (own_return _ _ s2 b H2 ltac:(fold h; set_solver))).
    intros [] s3 [H3 Q3]. apply (track_ok_quiet ds _ s); [done|unfold quiet in *; congruence|].
    fold h in H3. replace (list_to_set (in_use s) : gset Z) with (({[h]} ∪ list_to_set (in_use s)) ∖ {[h]} : gset Z) by set_solver.
    done. }
  unfold OnFrameAvailable. apply wp_bind, wp_modify. fold s1. apply wp_bind, wp_gets. unfold id.
  destruct (_ && negb (is_raw (format_type s1))); [by apply Hret|].
  apply wp_bind. apply (wp_mono _ _ _ _ (feed_ok _ _ s1 back b H1 ltac:(fold h; set_solver) Hb)). intros [] s2 [H2 Q2].
  assert (quiet s s2) as Q by (unfold quiet in *; congruence).
  destruct (quiet_frames s s2 Q) as (F1 & F2 & F3 & F4 & F5 & _).
  destruct (is_paused_ s1); [by apply Hret|]. destruct (is_raw (format_type s1)).
  - destruct (is_stop_ s1); [by apply Hret|]. rewrite <- F3 in Hfd. apply wp_bind, wp_modify. rewrite Hfd.
    assert (kv_lookup (u32 (sb_fd b)) (buffer_list_ s2) = None) as Hl
      by (unfold kv_mem in Hfd; by destruct (kv_lookup _ (buffer_list_ s2))).
    apply wp_modify. set (s3 := _ <| track_calls := _ |>).
    assert (in_use s3 ≡ₚ h :: in_use s) as Hin.
    { unfold in_use. simpl. rewrite F1, F2, (kv_values_add _ _ _ Hl), F3. simpl. fold h. by rewrite <- !Permutation_middle. }
    split; simpl; rewrite ?F1, ?F2, ?F4, ?F5; try apply Hok.
    + destruct H2. split; simpl; try done.
      * intros g. rewrite ct_count0. f_equal. f_equal. f_equal. apply one_ext.
        rewrite elem_of_list_to_set, Hin, elem_of_cons. set_solver.
      * by rewrite given_back_app, app_nil_r.
    + rewrite Hin. constructor; [done|apply Hok].
    + apply kv_add_ordered. rewrite F3. apply Hok.
  - apply wp_modify. set (s3 := _ <| frames_received_ := _ |>).
    assert (in_use s3 ≡ₚ h :: in_use s) as Hin.
    { unfold in_use. simpl. rewrite map_app, F1, F2, F3. simpl. fold h. rewrite <- app_assoc. simpl. by rewrite <- Permutation_middle. }
    split; simpl; rewrite ?F1, ?F2, ?F3, ?F4, ?F5; try apply Hok.
    + apply (counts_move _ ({[h]} ∪ list_to_set (in_use s)) _ _ s2); try done.
      apply leibniz_equiv. intros g. rewrite elem_of_list_to_set, Hin, elem_of_cons. set_solver.
    + rewrite Hin. constructor; [done|apply Hok].
    + intros f Hf. apply elem_of_app in Hf as [Hf|Hf]; [by apply Hok|]. apply list_elem_of_singleton in Hf as ->.
      change (time_lapse_mode_ s1) with (time_lapse_mode_ s). destruct (time_lapse_mode_ s); [by left|right].
      unfold CalculateEncodesPerFrame. rewrite (proj2 (ct_fixed _ _ _ _ H1)). done.
Qed.

(** The encoder takes a frame. *)
Lemma get_ok ds s : track_ok ds s ->
  match GetBuffer native [] s with Some (_, s') => track_ok ds s' | None => frames_received_ s = [] end.
Proof.
  intros Hok. unfold GetBuffer. destruct (frames_received_ s) as [|f rest] eqn:Er; [done|].
  set (h := handle_of f). set (s1 := s <| buffers_map_ := _ |>).
  assert (exists ts s2 f', encode_head f rest s1 = Some (ts, s2) /\ frames_received_ s2 = rest /\
    frames_being_encoded_ s2 = frames_being_encoded_ s ++ [f'] /\ handle_of f' = h /\ needs_return f' = true /\
    rest_of (s2 <| frames_received_ := [] |> <| frames_being_encoded_ := [] |> <| time_stamp_ := 0 |>
                <| frame_repeat_ts_curr_ := 0 |> <| frame_repeat_ts_prev_ := 0 |>)
    = rest_of (s1 <| frames_received_ := [] |> <| frames_being_encoded_ := [] |> <| time_stamp_ := 0 |>
                <| frame_repeat_ts_curr_ := 0 |> <| frame_repeat_ts_prev_ := 0 |>) /\
    buffer_map_ s2 = buffer_map_ s /\ track_calls s2 = track_calls s /\
    buffer_producer_impl_ s2 = buffer_producer_impl_ s)
    as (ts & s2 & f' & E & E1 & E2 & Eh & En & Eq & E3 & E4 & E5).
  { unfold encode_head. change (time_lapse_mode_ s1) with (time_lapse_mode_ s).
    destruct (time_lapse_mode_ s) eqn:Et; [by eexists _, _, _|].
    destruct (tk_received _ _ Hok f) as [|[Hp Hc]]; [rewrite Er; by left|congruence|]. rewrite Hp, Hc. simpl.
    by eexists _, _, _. }
  rewrite E. pose proof (f_equal buffers_map_ Eq) as Em. pose proof (f_equal buffer_list_ Eq) as El.
  pose proof (f_equal time_lapse_mode_ Eq) as Et. pose proof (f_equal rescaler_ Eq) as Ers.
  pose proof (f_equal enable_frame_repeat_ Eq) as Een. pose proof (f_equal num_consumers_ Eq) as Enc.
  simpl in Em, El, Et, Ers, Een, Enc. clear Eq E.
  assert (in_use s2 ≡ₚ in_use s) as Hin.
  { unfold in_use. rewrite E1, E2, El, Er, map_app. simpl. rewrite Eh. fold h. rewrite <- app_assoc. simpl.
    by rewrite <- !Permutation_middle. }
  assert (h ∉ map handle_of (frames_being_encoded_ s)) as Hnew.
  { pose proof (tk_apart _ _ Hok) as Hnd. unfold in_use in Hnd. rewrite Er in Hnd. simpl in Hnd. apply NoDup_cons in Hnd as [Hn _].
    intros Hc. apply Hn. apply elem_of_app. right. apply elem_of_app. by left. }
  split; rewrite ?E1, ?E2, ?El, ?Et.
  - apply (counts_move _ (list_to_set (in_use s)) _ _ s); try done; [apply Hok|].
    apply leibniz_equiv. intros g. by rewrite !elem_of_list_to_set, Hin.
  - rewrite Hin. apply Hok.
  - apply Hok.
  - intros g Hg. apply (tk_received _ _ Hok). rewrite Er. by right.
  - intros g Hg. rewrite Em. apply elem_of_app in Hg as [Hg|Hg].
    + destruct (tk_encoded _ _ Hok g Hg) as [Hr Hl]. split; [done|]. rewrite lookup_insert_ne; [done|].
      intros Hx%native_apart. apply Hnew. fold h in Hx. rewrite Hx. by apply list_elem_of_fmap_2.
    + apply list_elem_of_singleton in Hg as ->. rewrite Eh, lookup_insert_eq. done.
  - intros d g. rewrite Em. destruct (decide (native h = d)) as [<-|Hd].
    + rewrite lookup_insert_eq. by intros [= <-].
    + rewrite lookup_insert_ne by done. apply Hok.
Qed.

(** The encoder returns a frame. *)
Lemma encoded_ok ds s data : track_ok ds s ->
  match ReturnBuffer data s with
  | Some (_, s') => track_ok ds s'
  | None => forall f, f ∈ frames_being_encoded_ s -> data <> native (handle_of f)
  end.
Proof.
  intros Hok. unfold ReturnBuffer, bind at 1, gets, id. destruct (buffers_map_ s !! data) as [h|] eqn:Em.
  2: { intros f Hf ->. destruct (tk_encoded _ _ Hok f Hf) as [_ Hl]. unfold undefined. congruence. }
  pose proof (tk_native _ _ Hok _ _ Em) as ->.
  destruct (take_encoded h (frames_being_encoded_ s)) as [[f rest]|] eqn:Et.
  2: { intros f Hf Hx%native_apart. revert Et. clear -Hf Hx. subst h. induction (frames_being_encoded_ s) as [|g fs IH]; simpl.
       - by apply not_elem_of_nil in Hf.
       - case_goal; [done|]. apply elem_of_cons in Hf as [->|Hf]; [by rewrite Z.eqb_refl in E|].
         destruct (take_encoded _ fs) as [[]|]; [done|]. by intros _; apply IH. }
  apply take_encoded_some in Et as [Hfh Hp]. destruct (tk_encoded _ _ Hok f) as [Hr _]; [rewrite Hp; by left|].
  rewrite Hr. assert (in_use s ≡ₚ h :: map handle_of (frames_received_ s) ++ map handle_of rest
    ++ map sb_handle (kv_values (buffer_list_ s))) as Hin.
  { unfold in_use. rewrite Hp. simpl. rewrite Hfh. by rewrite <- Permutation_middle. }
  pose proof (tk_apart _ _ Hok) as Hnd. rewrite Hin in Hnd. apply NoDup_cons in Hnd as [Hh Hnd].
  destruct (wp_some _ _ _ (own_return _ _ s (frame f) (tk_counts _ _ Hok)
    ltac:(rewrite elem_of_list_to_set, Hin, elem_of_cons; left; exact Hfh))) as (x & s1 & E & Hc & Hq).
  unfold bind at 1. rewrite E. unfold bind, modify, ret. destruct (quiet_frames s s1 Hq) as (F1 & F2 & F3 & F4 & F5 & _).
  split; unfold in_use; simpl; rewrite ?F1, ?F3, ?F4, ?F5; try apply Hok; [|done| |].
  - apply (counts_move _ (list_to_set (in_use s) ∖ {[sb_handle (frame f)]}) _ _ s1); try done.
    apply leibniz_equiv. intros g. rewrite elem_of_difference, elem_of_singleton, !elem_of_list_to_set, Hin, elem_of_cons.
    change (sb_handle (frame f)) with (handle_of f). rewrite Hfh. split; [by intros [[->|] ?]|]. intros Hg. split; [by right|].
    by intros ->.
  - intros g Hg. destruct (tk_encoded _ _ Hok g) as [Hgr Hgl]; [rewrite Hp; by right|]. split; [done|].
    rewrite lookup_delete_ne; [done|]. intros Hx%native_apart. apply Hh. rewrite Hx. apply elem_of_app. right.
    apply elem_of_app. left. by apply list_elem_of_fmap_2.
  - intros d g Hg. apply lookup_delete_Some in Hg as [_ Hg]. by apply Hok.
Qed.

(** A state that differs in its flags. *)
Ltac other_flags := match goal with H : track_ok _ _ |- _ => destruct H as [[] ]; split; try done; by split end.

(** The client returns a buffer. *)
Lemma client_ok ds fd : preserves (track_ok ds) (fun s =>
  match kv_lookup (u32 fd) (buffer_list_ s) with
  | None => None
  | Some b => (do* ReturnBufferToProducer b in
               modify (fun s => s <| buffer_list_ := kv_remove (u32 fd) (buffer_list_ s) |>)) s
  end).
Proof.
  intros s Hok. destruct (kv_lookup (u32 fd) (buffer_list_ s)) as [b|] eqn:El; [|done].
  pose proof (kv_values_remove _ _ _ El) as Hv.
  assert (in_use s ≡ₚ sb_handle b :: map handle_of (frames_received_ s) ++ map handle_of (frames_being_encoded_ s)
    ++ map sb_handle (kv_values (kv_remove (u32 fd) (buffer_list_ s)))) as Hin.
  { unfold in_use. rewrite Hv. simpl. by rewrite <- !Permutation_middle. }
  pose proof (tk_apart _ _ Hok) as Hnd. rewrite Hin in Hnd. apply NoDup_cons in Hnd as [Hh Hnd].
  destruct (wp_some _ _ _ (own_return _ _ s b (tk_counts _ _ Hok)
    ltac:(rewrite elem_of_list_to_set, Hin, elem_of_cons; by left))) as (x & s1 & E & Hc & Hq).
  unfold bind. rewrite E. unfold modify. destruct (quiet_frames s s1 Hq) as (F1 & F2 & F3 & F4 & F5 & _).
  split; unfold in_use; simpl; rewrite ?F1, ?F2, ?F3, ?F4, ?F5; try apply Hok; [|done|].
  - apply (counts_move _ (list_to_set (in_use s) ∖ {[sb_handle b]}) _ _ s1); try done.
    apply leibniz_equiv. intros g. rewrite elem_of_difference, elem_of_singleton, !elem_of_list_to_set, Hin, elem_of_cons.
    split; [by intros [[->|] ?]|]. intros Hg. split; [by right|]. by intros ->.
  - apply kv_remove_ordered. apply Hok.
Qed.

Lemma client_all_ok ds fds : preserves (track_ok ds) (ReturnTrackBuffer fds).
Proof.
  unfold ReturnTrackBuffer. destruct fds as [|fd fds]; [done|].
  apply preserves_bind.
  - apply preserves_for_each. intros g _ s Hs. pose proof (client_ok ds g s Hs) as Hc. unfold bind at 1, gets, id.
    cbv beta in Hc. destruct (kv_lookup (u32 g) (buffer_list_ s)); exact Hc.
  - intros _. apply preserves_bind; [|intros _; apply preserves_ret]. apply preserves_modify. intros s Hs.
    destruct (buffer_list_ s) eqn:El; [|done]. other_flags.
Qed.

(** The waiting frames, or those with the client, go back. *)
Lemma drop_ok ds s s1 bs use : track_ok ds s -> counts ds (list_to_set (in_use s) ∖ list_to_set (map sb_handle bs)) None s1 ->
  in_use s ≡ₚ map sb_handle bs ++ use -> counts ds (list_to_set use) None s1 /\ NoDup use.
Proof.
  intros Hok Hc Hp. pose proof (tk_apart _ _ Hok) as Hnd. rewrite Hp in Hnd. apply NoDup_app in Hnd as (_ & Hd & Hnd).
  split; [|done]. replace (list_to_set use : gset Z) with (list_to_set (in_use s) ∖ list_to_set (map sb_handle bs) : gset Z); [done|].
  apply leibniz_equiv. intros g. rewrite elem_of_difference, !elem_of_list_to_set, Hp, elem_of_app.
  split; [by intros [[|] ?]|]. intros Hg. split; [by right|]. intros Hm. by apply (Hd g).
Qed.

Lemma clear_ok ds s : track_ok ds s -> wp ClearInputQueue (fun _ s' => track_ok ds s' /\ frames_received_ s' = []) s.
Proof.
  intros Hok. unfold ClearInputQueue. apply wp_bind, wp_gets. unfold id. apply wp_bind.
  rewrite <- (for_each_map frame ReturnBufferToProducer).
  assert (map handle_of (frames_received_ s) = map sb_handle (map frame (frames_received_ s))) as Em by (by rewrite map_map).
  pose proof (tk_apart _ _ Hok) as Hnd. unfold in_use in Hnd. rewrite Em in Hnd. apply NoDup_app in Hnd as (Hnd & _ & _).
  apply (wp_mono _ _ _ _ (return_all ds (map frame (frames_received_ s)) _ s (tk_counts _ _ Hok) Hnd
    ltac:(intros b Hb; rewrite elem_of_list_to_set; apply elem_of_app; left; rewrite Em; by apply list_elem_of_fmap_2))).
  intros [] s1 [Hc Hq]. apply wp_modify. destruct (quiet_frames s s1 Hq) as (F1 & F2 & F3 & F4 & F5 & _).
  destruct (drop_ok ds s s1 (map frame (frames_received_ s)) (map handle_of (frames_being_encoded_ s)
    ++ map sb_handle (kv_values (buffer_list_ s))) Hok Hc) as [Hc' Hnd']; [by unfold in_use; rewrite Em|].
  split; [|done]. split; unfold in_use; simpl; rewrite ?F2, ?F3, ?F4, ?F5; try apply Hok; [|done|].
  - by apply (counts_move _ (list_to_set (map handle_of (frames_being_encoded_ s)
      ++ map sb_handle (kv_values (buffer_list_ s)))) _ _ s1).
  - intros f Hf. by apply not_elem_of_nil in Hf.
Qed.

Lemma flush_ok ds s : track_ok ds s -> wp Flush (fun _ s' => track_ok ds s') s.
Proof.
  intros Hok. unfold Flush. apply wp_bind, wp_gets. unfold id. case_goal; [|done]. apply wp_bind.
  pose proof (tk_apart _ _ Hok) as Hnd. unfold in_use in Hnd. rewrite app_assoc in Hnd. apply NoDup_app in Hnd as (_ & _ & Hnd).
  apply (wp_mono _ _ _ _ (return_all ds (kv_values (buffer_list_ s)) _ s (tk_counts _ _ Hok) Hnd
    ltac:(intros b Hb; rewrite elem_of_list_to_set; unfold in_use; rewrite !elem_of_app; do 2 right; by apply list_elem_of_fmap_2))).
  intros [] s1 [Hc Hq]. apply wp_bind, wp_modify, wp_ret. destruct (quiet_frames s s1 Hq) as (F1 & F2 & F3 & F4 & F5 & _).
  destruct (drop_ok ds s s1 (kv_values (buffer_list_ s)) (map handle_of (frames_received_ s)
    ++ map handle_of (frames_being_encoded_ s)) Hok Hc) as [Hc' Hnd'].
  { unfold in_use. by rewrite app_assoc, Permutation_app_comm. }
  split; unfold in_use; simpl; rewrite ?F1, ?F2, ?F4, ?F5, ?app_nil_r; try apply Hok; [|done|done].
  by apply (counts_move _ (list_to_set (map handle_of (frames_received_ s)
      ++ map handle_of (frames_being_encoded_ s))) _ _ s1).
Qed.

Lemma consumers_ok ds s f : track_ok ds s -> (forall p, buffers_ (f p) = buffers_ p) ->
  track_ok ds (s <| buffer_producer_impl_ := f (buffer_producer_impl_ s) |>
                 <| num_consumers_ := GetNumConsumer (f (buffer_producer_impl_ s)) |>).
Proof.
  intros [[] ] Hf. split; try done. split; try done. intros h. simpl. by rewrite Hf.
Qed.

Lemma done_hoare {A} (I : TrackSource -> Prop) (m : ST TrackSource A) : preserves I m -> preserves I (done_with m).
Proof. intros Hm. unfold done_with. apply preserves_bind; [done|]. intros _. apply preserves_ret. Qed.

Lemma track_step_ok op ds s : track_ok ds s -> track_allowed op s = true ->
  match track_step native op s with Some (_, s') => track_ok (delivered [op] ++ ds) s' | None => True end.
Proof.
  intros Hok Ha. destruct op as [back b| |data|fds|b|c|c| | |p|p| |]; unfold track_step; simpl app.
  - pose proof (frame_ok ds s back b Hok Ha) as Hw. unfold wp in Hw. by destruct (OnFrameAvailable 1 back b s) as [[]|].
  - pose proof (get_ok ds s Hok) as Hg. unfold done_with, bind. by destruct (GetBuffer native [] s) as [[]|].
  - pose proof (encoded_ok ds s data Hok) as Hg. unfold done_with, bind. by destruct (ReturnBuffer data s) as [[]|].
  - by apply (done_hoare (track_ok ds) (ReturnTrackBuffer fds) (client_all_ok ds fds)).
  - destruct (wp_some _ _ _ (copied_ok ds _ s b (tk_counts _ _ Hok))) as (x & s1 & -> & Hc & Hq).
    by apply (track_ok_quiet ds ds s).
  - unfold done_with, AddConsumer, bind, modify, ret. destruct (c =? 0); [done|].
    apply (consumers_ok ds s (BufferProducer.AddConsumer c)); [done|]. intros p. unfold BufferProducer.AddConsumer. by case_match.
  - unfold done_with, RemoveConsumer, bind, modify, ret, gets, id. case_goal; [done|].
    apply (consumers_ok ds s (BufferProducer.RemoveConsumer c)); [done|]. intros p. unfold BufferProducer.RemoveConsumer. by case_match.
  - destruct (wp_some _ _ _ (clear_ok ds s Hok)) as (x & s1 & -> & Hc & _). done.
  - unfold done_with, bind. destruct (wp_some _ _ _ (flush_ok ds s Hok)) as (x & s1 & -> & Hc). done.
  - unfold modify. other_flags.
  - unfold modify. other_flags.
  - unfold port_started, modify. other_flags.
  - unfold port_stopped, bind. destruct (wp_some _ _ _ (clear_ok ds s Hok)) as (x & s1 & -> & Hc & _). clear Hok.
    unfold modify. other_flags.
Qed.

Lemma track_ok_perm ds ds' s : ds ≡ₚ ds' -> track_ok ds s -> track_ok ds' s.
Proof. intros Hp [[] ]. split; try done. split; try done. by rewrite <- Hp. Qed.

Lemma track_run_ok ops : forall ds s s', track_ok ds s -> track_run native ops s = Some s' ->
  track_ok (delivered ops ++ ds) s'.
Proof.
  induction ops as [|op ops IH]; intros ds s s' Hok E; simpl in E; [by injection E as <-|].
  destruct (track_allowed op s) eqn:Ea; [|done]. pose proof (track_step_ok op ds s Hok Ea) as Hs.
  destruct (track_step native op s) as [[x s1]|]; [|done]. apply (track_ok_perm (delivered ops ++ delivered [op] ++ ds)).
  - rewrite app_assoc, (Permutation_app_comm (delivered ops)). f_equiv.
    unfold delivered. simpl. by rewrite app_nil_r.
  - by apply (IH _ s1).
Qed.

Lemma new_ok fmt tl : track_ok [] (TrackSource_new fmt tl).
Proof.
  assert (forall f : Frame, f ∈ ([] : list Frame) -> False) as Hnil by (intros f; apply not_elem_of_nil).
  split; simpl; [|constructor|done|by intros f ?%Hnil|by intros f ?%Hnil|done].
  by split.
Qed.

(** C7. A track gives each buffer back once, when everyone is done with it.
    For a track without rescaler and without frame repetition, over every
    sequence of frames, encoder and client calls, changes and returns of the
    tracks that copy this one, pauses, stops, and starts and ends of the
    stream at the encoder's port, in which each frame comes in a buffer that
    the track does not have at that time: the buffers delivered are those
    given back and those the track still counts; it counts exactly the buffers
    that wait, that the encoder or the client has, or that a copy has; and the
    encoder can always take a waiting frame and return one it has. The event
    of an idle port is not among the steps: it gives back what copies still
    have. For a frame that comes again before it went back:
    [repeated_frame_is_lost]. *)
Theorem track_returns_each_buffer (fmt : VideoFormat) (timelapse : option Z) (ops : list TrackOp) (s : TrackSource) :
  track_run native ops (TrackSource_new fmt timelapse) = Some s ->
  delivered ops ≡ₚ given_back (track_calls s) ++ kv_keys (buffer_map_ s) /\
  (forall h, h ∈ kv_keys (buffer_map_ s) <-> h ∈ in_use s \/ is_Some (buffers_ (buffer_producer_impl_ s) !! h)) /\
  (forall f, f ∈ frames_being_encoded_ s -> is_Some (ReturnBuffer (native (handle_of f)) s)) /\
  (frames_received_ s <> [] -> is_Some (GetBuffer native [] s)).
Proof.
  intros E. pose proof (track_run_ok ops [] _ s (new_ok fmt timelapse) E) as Hok. rewrite app_nil_r in Hok.
  split_and!; [apply (ct_back _ _ _ _ (tk_counts _ _ Hok))| | |].
  - intros h. rewrite <- kv_lookup_keys, (ct_count _ _ _ _ (tk_counts _ _ Hok)), <- (elem_of_list_to_set (C := gset Z)).
    rewrite (one_false (None = Some h)) by done. unfold counted, one. do 2 case_decide; simpl.
    all: split; [intros Hx|intros Hx]; tauto || (by eexists) || (by destruct Hx).
  - intros f Hf. pose proof (encoded_ok _ s (native (handle_of f)) Hok) as He.
    destruct (ReturnBuffer (native (handle_of f)) s); [by eexists|]. by destruct (He f Hf).
  - intros Hr. pose proof (get_ok _ s Hok) as Hg. destruct (GetBuffer native [] s); [by eexists|done].
Qed.
End Flow.

(** ** Frames that are repeated *)

(** A frame of a track whose client takes raw frames and that is not
    copied. *)
Lemma raw_frame b s : is_raw (format_type s) = true -> is_stop_ s = false -> is_paused_ s = false -> num_consumers_ s = 0 ->
  exists s', OnFrameAvailable 1 [] b s = Some (tt, s') /\
    buffer_map_ s' = (if kv_mem (sb_handle b) (buffer_map_ s) then buffer_map_ s else kv_add (sb_handle b) 1 (buffer_map_ s)) /\
    buffer_list_ s' = (if kv_mem (u32 (sb_fd b)) (buffer_list_ s) then buffer_list_ s
                       else kv_add (u32 (sb_fd b)) b (buffer_list_ s)) /\
    track_calls s' = track_calls s ++ [ToClient b] /\
    is_raw (format_type s') = true /\ is_stop_ s' = false /\ is_paused_ s' = false /\ num_consumers_ s' = 0.
Proof.
  intros Hraw Hstop Hpause Hnum. unfold OnFrameAvailable, feed_copies, bind, modify, gets, id, ret. set (s1 := remember b s).
  assert (format_type s1 = format_type s /\ is_stop_ s1 = is_stop_ s /\ is_paused_ s1 = is_paused_ s /\
    num_consumers_ s1 = num_consumers_ s /\ buffer_list_ s1 = buffer_list_ s /\ track_calls s1 = track_calls s)
    as (F1 & F2 & F3 & F4 & F5 & F6) by done.
  rewrite F1, F2, Hstop, andb_false_r, andb_false_l. cbv beta iota.
  rewrite F4, Hnum. change (0 <? 0) with false. cbv beta iota.
  rewrite F3, Hpause, Hraw. cbv beta iota zeta. unfold track_call, modify. eexists. split; [reflexivity|]. by split_and!.
Qed.

(** The client returns a buffer that the track counts once. *)
Lemma raw_return b s : kv_lookup (u32 (sb_fd b)) (buffer_list_ s) = Some b -> kv_lookup (sb_handle b) (buffer_map_ s) = Some 1 ->
  exists s', ReturnTrackBuffer [sb_fd b] s = Some (0, s') /\
    buffer_list_ s' = kv_remove (u32 (sb_fd b)) (buffer_list_ s) /\ track_calls s' = track_calls s ++ [ToProducer b].
Proof.
  intros Hl Hm. unfold ReturnTrackBuffer, for_each, ReturnBufferToProducer, track_call, bind, modify, gets, id, ret.
  rewrite Hl, Hm. change (1 =? 1) with true. cbv beta iota. eexists. split; [reflexivity|].
  simpl buffer_list_. by destruct (kv_remove (u32 (sb_fd b)) (buffer_list_ s)).
Qed.

(** A frame that the frame rate controller repeats is lost with a client
    that takes raw frames: the controller's producer counts the buffer once
    for each delivery, the track counts it once.  The client gets the buffer
    twice and the first return gives it back to the producer, which waits for
    the second; the second return of the client fails an assertion, so the
    camera does not get the buffer. *)
Theorem repeated_frame_is_lost (c : Z) (b : StreamBuffer) (p : BufferProducer) (s : TrackSource) :
  buffer_consumers_ p = [(c, tt)] -> buffers_ p !! sb_handle b = None ->
  is_raw (format_type s) = true -> is_stop_ s = false -> is_paused_ s = false -> num_consumers_ s = 0 ->
  kv_ordered (buffer_list_ s) ->
  kv_mem (sb_handle b) (buffer_map_ s) = false -> kv_mem (u32 (sb_fd b)) (buffer_list_ s) = false ->
  exists p1 p2 p3 s1 s2 s3,
    NotifyBuffer b p = ([SentTo c b], p1) /\ OnFrameAvailable 1 [] b s = Some (tt, s1) /\
    NotifyBuffer b p1 = ([SentTo c b], p2) /\ OnFrameAvailable 1 [] b s1 = Some (tt, s2) /\
    ReturnTrackBuffer [sb_fd b] s2 = Some (0, s3) /\
    track_calls s3 = track_calls s ++ [ToClient b; ToClient b; ToProducer b] /\
    BufferProducer.NotifyBufferReturned b p2 = ([], p3) /\ buffers_ p3 !! sb_handle b = Some 1 /\
    ReturnTrackBuffer [sb_fd b] s3 = None.
Proof.
  intros Hc Hb Hraw Hstop Hpause Hnum Hol Hm Hl.
  destruct (raw_frame b s) as (s1 & E1 & M1 & L1 & C1 & Hraw1 & Hstop1 & Hpause1 & Hnum1); [done..|].
  destruct (raw_frame b s1) as (s2 & E2 & M2 & L2 & C2 & _); [done..|].
  rewrite Hm in M1. rewrite Hl in L1. unfold kv_mem in M2, L2. rewrite M1, kv_lookup_add, Z.eqb_refl in M2.
  rewrite L1, kv_lookup_add, Z.eqb_refl in L2.
  destruct (raw_return b s2) as (s3 & E3 & L3 & C3); [rewrite L2; by rewrite kv_lookup_add, Z.eqb_refl..| |].
  { by rewrite M2, kv_lookup_add, Z.eqb_refl. }
  do 3 eexists. exists s1, s2, s3.
  split; [unfold NotifyBuffer; by rewrite Hc|]. split; [done|].
  split; [unfold NotifyBuffer; simpl; by rewrite Hc|]. split; [done|]. split; [done|]. split.
  { by rewrite C3, C2, C1, <- !app_assoc. }
  unfold BufferProducer.NotifyBufferReturned. simpl buffers_. rewrite lookup_insert_eq, Hb. simpl. rewrite lookup_insert_eq.
  change (1 <? u32 _) with true. cbv iota. split; [reflexivity|]. split; [simpl; by rewrite lookup_insert_eq|].
  unfold ReturnTrackBuffer, for_each, bind, gets, id. rewrite L3, L2.
  rewrite kv_lookup_remove, Z.eqb_refl; [done|]. by apply kv_add_ordered.
Qed.

Lemma repeated_frame_is_lost_witness : exists s3,
  track_calls s3 = [ToClient (demo_buffer 1 10); ToClient (demo_buffer 1 10); ToProducer (demo_buffer 1 10)] /\
  ReturnTrackBuffer [-1] s3 = None.
Proof.
  destruct (repeated_frame_is_lost 7 (demo_buffer 1 10) (BufferProducer.AddConsumer 7 BufferProducer_new)
    (TrackSource_new Video.kNV12 None)) as (p1 & p2 & p3 & s1 & s2 & s3 & _ & _ & _ & _ & _ & H1 & _ & _ & H2);
    try reflexivity.
  exists s3. split; [exact H1|exact H2].
Defined.

Definition demo_native (h : Z) : Z := h + 4096.

Definition demo_track_ops : list TrackOp :=
  [TrackPortStart; TrackFrame [] (demo_buffer 1 10); TrackAdd 5; TrackFrame [] (demo_buffer 2 20); TrackGet; TrackGet;
   TrackEncoded (demo_native 2); TrackFrame [] (demo_buffer 3 30); TrackCopied (demo_buffer 2 20); TrackPause true;
   TrackFrame [demo_buffer 4 40] (demo_buffer 4 40); TrackPause false; TrackCopied (demo_buffer 3 30); TrackRemove 5].

Definition demo_track : TrackSource :=
  match track_run demo_native demo_track_ops (TrackSource_new Video.kAVC None) with
  | Some s => s | None => TrackSource_new Video.kAVC None
  end.

Lemma demo_native_apart h1 h2 : demo_native h1 = demo_native h2 -> h1 = h2.
Proof. unfold demo_native. lia. Qed.

Lemma track_returns_each_buffer_witness :
  delivered demo_track_ops = [1; 2; 3; 4] /\ given_back (track_calls demo_track) = [2; 4] /\
  (forall h, h ∈ kv_keys (buffer_map_ demo_track) <->
     h ∈ [3; 1] \/ is_Some (buffers_ (buffer_producer_impl_ demo_track) !! h)).
Proof.
  split; [vm_compute; reflexivity|]. split; [vm_compute; reflexivity|].
  destruct (track_returns_each_buffer demo_native demo_native_apart Video.kAVC None demo_track_ops demo_track)
    as (_ & H & _); [vm_compute; reflexivity|].
  exact H.
Defined.
