(* ===== verification/RecorderTypes.v ===== *)
(** * What the recorder's parts tell each other

    Data of include/qmmf-sdk/qmmf_recorder_params.h,
    include/qmmf-sdk/qmmf_recorder_extra_param_tags.h,
    recorder/src/service/qmmf_recorder_common.h and
    recorder/src/client/qmmf_recorder_service_intf.h, and the interfaces under
    which [RecorderImpl] uses [CameraSource] and [EncoderCore], as classes of
    operations on the state of each; [None] is an assertion that fails. *)

From S2P Require Import Prelude KeyedVector Floats Monitor Memory Stream ExtraParam Track.
From Stdlib Require Import SpecFloat.

Definition NO_ERROR : Z := 0.
Definition BAD_VALUE : Z := - EINVAL.
Definition INVALID_OPERATION : Z := - ENOSYS.
Definition NAME_NOT_FOUND : Z := - ENOENT.
Definition NO_INIT : Z := - ENODEV.
Definition TIMED_OUT : Z := - ETIMEDOUT.

(** An assertion that a result is [NO_ERROR]. *)
Definition assert_ok {S} (m : ST S Z) : ST S Z := let* r := m in if r =? NO_ERROR then ret NO_ERROR else undefined.

(** ** Extra parameters *)

Definition QMMF_SOURCE_VIDEO_TRACK_ID : Z := 65536 + 1.
Definition QMMF_VIDEO_TIMELAPSE_INTERVAL : Z := 65536 + 2.
Definition QMMF_VIDEO_WAIT_AEC_MODE : Z := 65536 + 5.
Definition QMMF_VIDEO_ROTATE : Z := 65536 + 6.
Definition QMMF_TRACK_CROP : Z := 65536 + 9.
Definition QMMF_CAMERA_SLAVE_MODE : Z := 65536 + 13.
Definition QMMF_CPU_CACHE : Z := 65536 + 14.
Definition QMMF_USE_LINKED_TRACK_IN_SLAVE_MODE : Z := 65536 + 15.

(** The bytes of a structure behind its tag: those of entry 0, or those it is
    constructed with when it cannot be fetched. *)
Definition fetch_struct (tag : Z) (init : list Z) (x : ExtraParam) : option (list Z) :=
  match Fetch tag (bytes32 tag ++ init) 0 x with
  | Some (Fetched data) => Some (drop 4 data)
  | Some (NotFetched _) => Some init
  | _ => None
  end.

(** A structure with one 32 bit number. *)
Definition fetch_word (tag init : Z) (x : ExtraParam) : option Z :=
  match fetch_struct tag (bytes32 init) x with Some d => load32 d 0 | None => None end.

(** A structure with one flag, and three bytes of padding. *)
Definition fetch_flag (tag : Z) (init : bool) (x : ExtraParam) : option bool :=
  match fetch_struct tag [if init then 1 else 0; 0; 0; 0] x with
  | Some d => Some (negb (nth 0 d 0 =? 0)) | None => None
  end.

(** [SlaveMode]. *)
Definition kSlave : Z := 2.

(** [operator=] on an object that has just been constructed. *)
Definition extra_copy (x : ExtraParam) : option ExtraParam := fst <$> ExtraParam_assign false ExtraParam_new x.

(** ** Parameters of tracks and images *)

(** Of the parameters of the codec only [codec_param.avc.slice_enabled]. *)
Record VideoTrackCreateParam := mkVideoParam {
  vt_camera_id : Z; vt_width : Z; vt_height : Z; vt_frame_rate : float32; vt_format_type : VideoFormat;
  vt_slice_enabled : bool
}.

(** [data_cb] is known by the client, the session and the client's track that
    it captures. *)
Record VideoTrackParams := mkVideoTrack {
  params : VideoTrackCreateParam; extra_param : ExtraParam; track_id : Z; data_cb : Z * Z * Z
}.

#[export] Instance settable_VideoTrackParams : Settable VideoTrackParams :=
  {| eta_expand := fun p => mkVideoTrack (params p) (extra_param p) (track_id p) (data_cb p) |}.

Module Audio.
Inductive AudioFormat := kPCM | kAAC | kAMR | kG711 | kMP3 | kMPEGH.
End Audio.
Abbreviation AudioFormat := Audio.AudioFormat.

Record AudioTrackCreateParam := mkAudioParam {
  at_sample_rate : Z; at_channels : Z; at_format : AudioFormat; at_mpegh_bit_rate : Z
}.

Module Image.
Inductive ImageFormat := kJPEG | kNV12 | kNV21 | kBayerIdeal | kBayerRDI8BIT | kBayerRDI10BIT | kBayerRDI12BIT
  | kBayerRDI16BIT | kNV12Encodable.
End Image.
Abbreviation ImageFormat := Image.ImageFormat.

Record ImageParam := mkImageParam {
  img_width : Z; img_height : Z; image_quality : Z; image_format : ImageFormat
}.

Record BnBuffer := mkBnBuffer {
  ion_fd : Z; ion_meta_fd : Z; bn_size : Z; bn_timestamp : Z; bn_width : Z; bn_height : Z; buffer_id : Z; bn_flag : Z;
  capacity : Z
}.

(** The parameters of an encoder: a [CodecParamType] with its value. *)
Inductive CodecParam :=
| kFrameRateType (fps : float32)
| kEnableFrameRepeat (enable : bool)
| OtherParam (type : Z) (param : list Z).

(** Formats that the encoder takes part in. *)
Definition is_encoded (f : VideoFormat) : bool := negb (is_raw f).

(** ** The interfaces *)

Class CameraSourceOps (M C : Type) := {
  cs_new : C;
  cs_StartCamera : Z -> float32 -> ExtraParam -> bool -> ST C Z;
  cs_StopCamera : Z -> ST C Z;
  cs_SetFlushCb : Z -> ST C Z;
  cs_FlushTrack : Z -> ST C Z;
  cs_CaptureImage : Z -> Z -> list M -> Z -> ST C Z;
  cs_ConfigImageCapture : Z -> ImageParam -> ExtraParam -> ST C Z;
  cs_CancelCaptureImage : Z -> ST C Z;
  cs_ReturnAllImageCaptureBuffers : Z -> ST C Z;
  cs_ReturnImageCaptureBuffer : Z -> Z -> ST C Z;
  cs_CreateTrackSource : Z -> VideoTrackParams -> ST C Z;
  cs_DeleteTrackSource : Z -> ST C Z;
  cs_StartTrackSource : Z -> ST C Z;
  cs_FlushTrackSource : Z -> ST C Z;
  cs_StopTrackSource : Z -> ST C Z;
  cs_PauseTrackSource : Z -> ST C Z;
  cs_ResumeTrackSource : Z -> ST C Z;
  cs_ReturnTrackBuffer : Z -> list BnBuffer -> ST C Z;
  cs_SetCameraParam : Z -> M -> ST C Z;
  cs_GetCameraParam : Z -> M -> ST C (Z * M);
  cs_GetDefaultCaptureParam : Z -> M -> ST C (Z * M);
  cs_GetCameraCharacteristics : Z -> M -> ST C (Z * M);
  cs_UpdateTrackFrameRate : Z -> float32 -> ST C Z;
  cs_EnableFrameRepeat : Z -> bool -> ST C Z;
  (** [GetTrackSource] and its [getParams]. *)
  cs_GetTrackSource : Z -> C -> option VideoTrackParams
}.

Class EncoderCoreOps (E : Type) := {
  ec_new : E;
  ec_AddSource : Z -> VideoTrackParams -> ST E Z;
  ec_StartTrackEncoder : Z -> ST E Z;
  ec_StopTrackEncoder : Z -> bool -> ST E Z;
  ec_SetTrackEncoderParams : Z -> CodecParam -> ST E Z;
  ec_DeleteTrackEncoder : Z -> ST E Z;
  ec_ReturnTrackBuffer : Z -> list BnBuffer -> ST E Z;
  ec_FlushTrack : Z -> ST E Z
}.

(** ** What the recorder relies on *)

(** The cameras that are open.  A camera is opened and closed only by the
    operations for that. *)
Class CameraSourceLaws (M C : Type) `{CameraSourceOps M C} := {
  opened : C -> gset Z;
  opened_new : opened cs_new = ∅;
  opened_StartCamera cam fps x results c r c' : cs_StartCamera cam fps x results c = Some (r, c') ->
    (r = NO_ERROR /\ (cam ∉ opened c) /\ opened c' = {[cam]} ∪ opened c) \/ (r <> NO_ERROR /\ opened c' = opened c);
  opened_StopCamera cam c r c' : cs_StopCamera cam c = Some (r, c') ->
    (r = NO_ERROR /\ opened c' = (opened c ∖ {[cam]})) \/ (r <> NO_ERROR /\ opened c' = opened c);
  opened_SetFlushCb cam c r c' : cs_SetFlushCb cam c = Some (r, c') ->
    opened c' = opened c /\ (cam ∈ opened c -> r = NO_ERROR);
  opened_tracks t c r c' :
    cs_FlushTrack t c = Some (r, c') \/ cs_DeleteTrackSource t c = Some (r, c') \/ cs_StartTrackSource t c = Some (r, c') \/
    cs_FlushTrackSource t c = Some (r, c') \/ cs_StopTrackSource t c = Some (r, c') \/
    cs_PauseTrackSource t c = Some (r, c') \/ cs_ResumeTrackSource t c = Some (r, c') ->
    opened c' = opened c;
  opened_CreateTrackSource t vp c r c' : cs_CreateTrackSource t vp c = Some (r, c') -> opened c' = opened c;
  opened_ReturnTrackBuffer t bs c r c' : cs_ReturnTrackBuffer t bs c = Some (r, c') -> opened c' = opened c;
  opened_UpdateTrackFrameRate t fps c r c' : cs_UpdateTrackFrameRate t fps c = Some (r, c') -> opened c' = opened c;
  opened_EnableFrameRepeat t b c r c' : cs_EnableFrameRepeat t b c = Some (r, c') -> opened c' = opened c;
  opened_CaptureImage cam n meta client c r c' : cs_CaptureImage cam n meta client c = Some (r, c') -> opened c' = opened c;
  opened_ConfigImageCapture cam p x c r c' : cs_ConfigImageCapture cam p x c = Some (r, c') -> opened c' = opened c;
  opened_ReturnImageCaptureBuffer cam k c r c' : cs_ReturnImageCaptureBuffer cam k c = Some (r, c') -> opened c' = opened c;
  opened_images cam c r c' :
    cs_CancelCaptureImage cam c = Some (r, c') \/ cs_ReturnAllImageCaptureBuffers cam c = Some (r, c') ->
    opened c' = opened c;
  opened_SetCameraParam cam m c r c' : cs_SetCameraParam cam m c = Some (r, c') -> opened c' = opened c;
  opened_metadata cam m c a c' :
    cs_GetCameraParam cam m c = Some (a, c') \/ cs_GetDefaultCaptureParam cam m c = Some (a, c') \/
    cs_GetCameraCharacteristics cam m c = Some (a, c') -> opened c' = opened c
}.
