(* ===== verification/EncoderCore.v ===== *)
(** * The encoder core

    Models recorder/src/service/qmmf_encoder_core.cc, built with
    TARGET_ION_ABI_VERSION and without DUMP_BITSTREAM, DONT_NOTIFY and
    DISABLE_PP_JPEG: [TrackEncoder], which owns the buffers that an encoder
    writes and passes each filled one to the client, and [EncoderCore], the
    encoders by track.  The codec behind [IAVCodec]
    (include/qmmf-sdk/qmmf_avcodec.h) is a class of operations on its state;
    libion with [mmap] is one on the state of the device.  An assertion that
    fails is [None].  Not modelled: the log of the frame rate. *)

From Stdlib Require Import SpecFloat.
From S2P Require Import Prelude KeyedVector Floats Monitor Memory Stream Track RecorderTypes.

(** ** Data of the codec *)

Definition kPortIndexInput : Z := 0.
Definition kPortIndexOutput : Z := 1.
Definition AVCODEC_OUT_BUF_COUNT : Z := 6.

Inductive CodecMimeType := kMimeTypeVideoEncAVC | kMimeTypeJPEG.

(** [BufferFlags] *)
Definition kFlagEOS : Z := Z.shiftl 1 1.
Definition kFlagIDRFrame : Z := Z.shiftl 1 3.
Definition kFlagIFrame : Z := Z.shiftl 1 4.
Definition kFlagPFrame : Z := Z.shiftl 1 5.
Definition kFlagBFrame : Z := Z.shiftl 1 6.

Module Buffer.
Record BufferDescriptor := mkDescriptor {
  data : Z; fd : Z; size : Z; capacity : Z; timestamp : Z; flag : Z
}.

#[export] Instance settable_BufferDescriptor : Settable BufferDescriptor :=
  {| eta_expand := fun b => mkDescriptor (data b) (fd b) (size b) (capacity b) (timestamp b) (flag b) |}.

#[export] Instance descriptor_eq : EqDecision BufferDescriptor.
Proof. solve_decision. Defined.
End Buffer.
Abbreviation Descriptor := Buffer.BufferDescriptor.

(** What a client is told with a bitstream buffer: the meta data hold the
    type of the frame. *)
Record TrackData := mkTrackData { td_buffer : BnBuffer; video_frame_type_info : Z }.

(** [IAVCodec]; [V] is the state of a codec.  The sources of its ports are
    the track's, named by its number; [av_holds_output] tells whether it holds
    the source of the output port, which is the encoder that owns it. *)
Class IAVCodec (V : Type) := {
  new_AVCodec : V;
  new_JPEGEncoder : V;
  av_ConfigureCodec : CodecMimeType -> VideoTrackCreateParam -> ST V Z;
  av_GetBufferRequirements : Z -> ST V (Z * (Z * Z));
  av_AllocateBuffer : Z -> Z -> ST V Z;
  av_RegisterOutputBuffers : list Descriptor -> ST V Z;
  av_ReleaseBuffer : ST V Z;
  av_SetParameters : CodecParam -> ST V Z;
  av_StartCodec : bool -> ST V Z;
  av_StopCodec : bool -> ST V Z;
  av_FlushCodec : Z -> ST V Z;
  av_holds_output : V -> bool
}.

(** The ION device with [mmap], [munmap] and [close]; allocations give a
    result and a descriptor or handle, [ion_mmap] an address unless it
    fails. *)
Class IonDevice (I : Type) := {
  ion_is_legacy : bool;
  ion_open : I -> Z * I;
  ion_alloc_fd : Z -> I -> (Z * Z) * I;
  ion_alloc : Z -> I -> (Z * Z) * I;
  ion_share : Z -> I -> (Z * Z) * I;
  ion_free : Z -> I -> I;
  ion_mmap : Z -> Z -> I -> option Z * I;
  ion_munmap : Z -> Z -> I -> I;
  ion_close_fd : Z -> I -> I;
  ion_close_device : Z -> I -> I;
  errno : I -> Z
}.

Section EncoderCore.
Context {V I : Type} `{IAVCodec V} `{IonDevice I}.

(** ** A track's encoder *)

Record TrackEncoder := mkTrackEncoder {
  te_params : VideoTrackParams;
  avcodec_ : option V;
  output_buffer_list_ : list Descriptor;
  output_free_buffer_queue_ : list Descriptor;
  output_occupy_buffer_queue_ : list Descriptor;
  fd_ion_handle_map_ : gmap Z Z;
  eos_atoutput_ : bool;
  is_force_cleanup_ : bool;
  wait_duration_ : Z;
  (** the calls of [data_cb], latest last *)
  data_cbs : list TrackData
}.

#[export] Instance settable_TrackEncoder : Settable TrackEncoder :=
  {| eta_expand := fun e => mkTrackEncoder (te_params e) (avcodec_ e) (output_buffer_list_ e) (output_free_buffer_queue_ e)
       (output_occupy_buffer_queue_ e) (fd_ion_handle_map_ e) (eos_atoutput_ e) (is_force_cleanup_ e) (wait_duration_ e)
       (data_cbs e) |}.

Definition kWaitNumFrames_ : Z := 5.
Definition kBufferWaitDuration : Z := 5000000000.

(** The constructor, with the parameters that [Init] stores. *)
Definition TrackEncoder_new (p : VideoTrackParams) : TrackEncoder :=
  mkTrackEncoder p None [] [] [] ∅ false false kBufferWaitDuration [].

(** The time of five frames, but at least five seconds; undefined where the
    quotient does not fit. *)
Definition wait_for (fps : float32) : option Z :=
  let output_frame_interval := f64_div (f64_of_Z 1000000) (f64_of_f32 fps) in
  let wait := f64_mul (f64_mul output_frame_interval (f64_of_Z 1000)) (f64_of_Z kWaitNumFrames_) in
  f64_to_u64 (if SFltb wait (f64_of_Z kBufferWaitDuration) then f64_of_Z kBufferWaitDuration else wait).

(** A method of the codec; without one the pointer is null. *)
Definition codec {A} (m : ST V A) : ST TrackEncoder A := fun e =>
  match avcodec_ e with
  | None => None
  | Some v => match m v with Some (a, v') => Some (a, e <| avcodec_ := Some v' |>) | None => None end
  end.

(** *** The output buffers *)

Definition page_align (size : Z) : Z := Z.land (u32 (size + 4095)) (Z.lnot 4095).

(** One buffer: its descriptor, address and handle, or the error. *)
Definition alloc_output (size : Z) (i : I) : (Z + Descriptor * option Z) * I :=
  let '(got, i) :=
    if negb ion_is_legacy then
      let '((r, fd), i) := ion_alloc_fd size i in
      (if r =? 0 then inr (fd, None) else inl (errno i), i)
    else
      let '((r, handle), i) := ion_alloc size i in
      if negb (r =? 0) then (inl (errno i), i)
      else
        let '((r, fd), i) := ion_share handle i in
        (if r =? 0 then inr (fd, Some handle) else inl (errno i), i) in
  match got with
  | inl e => (inl e, i)
  | inr (fd, handle) =>
      let '(addr, i) := ion_mmap fd size i in
      match addr with
      | Some a => (inr (Buffer.mkDescriptor a fd 0 size 0 0, handle), i)
      | None => let i := ion_close_fd fd i in (inl (errno i), i)
      end
  end.

(** [insert] keeps a handle that is there. *)
Definition keep_handle (b : Descriptor) (handle : option Z) (m : gmap Z Z) : gmap Z Z :=
  match handle with
  | Some h => if bool_decide (is_Some (m !! Buffer.fd b)) then m else <[Buffer.fd b := h]> m
  | None => m
  end.

Fixpoint alloc_outputs (n : nat) (size : Z) (e : TrackEncoder) (i : I) : Z * TrackEncoder * I :=
  match n with
  | O => (NO_ERROR, e, i)
  | S n' =>
      match alloc_output size i with
      | (inl err, i) => (err, e, i)
      | (inr (b, handle), i) =>
          alloc_outputs n' size (e <| fd_ion_handle_map_ := keep_handle b handle (fd_ion_handle_map_ e) |>
                                   <| output_buffer_list_ := output_buffer_list_ e ++ [b] |>) i
      end
  end.

(** The codec's own count is used for AVC in slices only. *)
Definition output_count (p : VideoTrackCreateParam) (count : Z) : Z :=
  if bool_decide (vt_format_type p = Video.kAVC) && vt_slice_enabled p then count else AVCODEC_OUT_BUF_COUNT.

Definition AllocOutputPortBufs (i : I) : ST TrackEncoder (Z * I) :=
  let* req := codec (av_GetBufferRequirements kPortIndexOutput) in
  let '(r, (count, size)) := req in
  if negb (r =? NO_ERROR) then undefined
  else fun e =>
    let '(r, e', i') := alloc_outputs (Z.to_nat (output_count (params (te_params e)) count)) (page_align size) e i in
    Some ((r, i'), e').

(** The destructor releases the buffers.  It is given the device. *)
Definition release_output (handles : gmap Z Z) (i : I) (b : Descriptor) : I :=
  let i := if Buffer.data b =? 0 then i else ion_munmap (Buffer.data b) (Buffer.capacity b) i in
  if Buffer.fd b =? 0 then i
  else
    let i := if ion_is_legacy then ion_free (default 0 (handles !! Buffer.fd b)) i else i in
    ion_close_fd (Buffer.fd b) i.

Definition TrackEncoder_delete (e : TrackEncoder) (i : I) : I :=
  fold_left (release_output (fd_ion_handle_map_ e)) (output_buffer_list_ e) i.

(** The last reference of the map is dropped: the encoder lives on while its
    codec holds it. *)
Definition drop_encoder (e : TrackEncoder) (i : I) : I :=
  if match avcodec_ e with Some v => av_holds_output v | None => false end then i else TrackEncoder_delete e i.

(** *** The methods *)

Definition is_jpeg (p : VideoTrackCreateParam) : bool := bool_decide (vt_format_type p = Video.kJPEG).

(** On a new encoder.  Whether registering and handing over the ports failed
    is answered, everything else is asserted. *)
Definition TrackEncoder_Init (i : I) : ST TrackEncoder (Z * I) :=
  let* e := gets id in
  let p := params (te_params e) in
  do* modify (fun e => e <| avcodec_ := Some (if is_jpeg p then new_JPEGEncoder else new_AVCodec) |>) in
  do* assert_ok (codec (av_ConfigureCodec (if is_jpeg p then kMimeTypeJPEG else kMimeTypeVideoEncAVC) p)) in
  do* assert_ok (codec (av_AllocateBuffer kPortIndexInput (track_id (te_params e)))) in
  let* ri := AllocOutputPortBufs i in
  let '(r, i) := ri in
  if negb (r =? NO_ERROR) then undefined
  else
    let* e := gets id in
    let* r := codec (av_RegisterOutputBuffers (output_buffer_list_ e)) in
    if negb (r =? NO_ERROR) then ret (r, i)
    else
      let* r := codec (av_AllocateBuffer kPortIndexOutput (track_id (te_params e))) in
      if negb (r =? NO_ERROR) then ret (r, i)
      else
        match wait_for (vt_frame_rate p) with
        | None => undefined
        | Some w =>
            do* modify (fun e => e <| output_free_buffer_queue_ := output_free_buffer_queue_ e ++ output_buffer_list_ e |>
                                   <| wait_duration_ := w |>) in
            ret (r, i)
        end.

Definition TrackEncoder_Start : ST TrackEncoder Z :=
  do* assert_ok (codec (av_StartCodec true)) in
  do* modify (fun e => e <| eos_atoutput_ := false |>) in
  ret NO_ERROR.

(** The buffers that are out, with the codec or with the client, count as
    free. *)
Definition take_back (e : TrackEncoder) : TrackEncoder :=
  e <| is_force_cleanup_ := true |>
    <| output_free_buffer_queue_ := output_free_buffer_queue_ e ++ output_occupy_buffer_queue_ e |>
    <| output_occupy_buffer_queue_ := [] |>.

(** The codec waits for its threads: [during] is what they and others do
    meanwhile. *)
Definition TrackEncoder_Stop (during : TrackEncoder -> TrackEncoder) (is_force_cleanup : bool) : ST TrackEncoder Z :=
  do* modify (fun e => if is_force_cleanup then take_back e else e) in
  do* modify during in
  assert_ok (codec (av_StopCodec true)).

Definition TrackEncoder_SetParams (p : CodecParam) : ST TrackEncoder Z :=
  let* r := codec (av_SetParameters p) in
  match p with
  | kFrameRateType fps =>
      match wait_for fps with
      | None => undefined
      | Some w => do* modify (fun e => e <| wait_duration_ := w |>) in ret r
      end
  | _ => ret r
  end.

Definition ReleaseHeaders : ST TrackEncoder Z := codec av_ReleaseBuffer.

Definition TrackEncoder_Flush : ST TrackEncoder Z := fun e =>
  match avcodec_ e with None => Some (NO_INIT, e) | Some _ => codec (av_FlushCodec kPortIndexInput) e end.

(** *** The codec's output thread *)

(** A free buffer, once there is one; [ws] are the wake-ups of the wait with
    their results. *)
Fixpoint TrackEncoder_GetBuffer (ws : list (TrackEncoder -> Z * TrackEncoder)) : ST TrackEncoder (Z + Z * Z) := fun e =>
  match output_free_buffer_queue_ e with
  | b :: rest =>
      Some (inr (Buffer.fd b, Buffer.data b),
            e <| output_occupy_buffer_queue_ := output_occupy_buffer_queue_ e ++ [b] |>
              <| output_free_buffer_queue_ := rest |>)
  | [] =>
      match ws with
      | [] => None
      | w :: ws' => let '(r, e') := w e in if r =? 0 then TrackEncoder_GetBuffer ws' e' else Some (inl TIMED_OUT, e')
      end
  end.

(** The first buffer for which [p], and the others. *)
Fixpoint take_first (p : Descriptor -> bool) (bs : list Descriptor) : option (Descriptor * list Descriptor) :=
  match bs with
  | [] => None
  | b :: bs' => if p b then Some (b, bs') else match take_first p bs' with Some (c, r) => Some (c, b :: r) | None => None end
  end.

(** From the occupied buffers to the end of the free ones. *)
Definition to_free (p : Descriptor -> bool) (e : TrackEncoder) : option TrackEncoder :=
  match take_first p (output_occupy_buffer_queue_ e) with
  | None => None
  | Some (b, rest) => Some (e <| output_free_buffer_queue_ := output_free_buffer_queue_ e ++ [b] |>
                              <| output_occupy_buffer_queue_ := rest |>)
  end.

Definition has_flag (flags f : Z) : bool := negb (Z.land flags f =? 0).

(** I and IDR frames are joined; P and B frames replace what is there. *)
Definition frame_type (flags : Z) : Z :=
  let t := if has_flag flags kFlagIDRFrame then kFlagIDRFrame else 0 in
  let t := if has_flag flags kFlagIFrame then Z.lor t kFlagIFrame else t in
  let t := if has_flag flags kFlagPFrame then kFlagPFrame else t in
  if has_flag flags kFlagBFrame then kFlagBFrame else t.

(** What the client gets for buffer [b] with the content that [c] tells. *)
Definition client_buffer (b c : Descriptor) : BnBuffer :=
  mkBnBuffer (Buffer.fd b) (-1) (Buffer.size c) (Buffer.timestamp c) (u32 (-1)) (u32 (-1)) (u32 (Buffer.fd b)) (Buffer.flag c)
    (Buffer.capacity b).

Definition same_data (c b : Descriptor) : bool := Buffer.data b =? Buffer.data c.

Definition NotifyBufferToClient (c : Descriptor) : ST TrackEncoder unit :=
  do* (if has_flag (Buffer.flag c) kFlagEOS then modify (fun e => e <| eos_atoutput_ := true |>) else ret tt) in
  let* e := gets id in
  if is_force_cleanup_ e then ret tt
  else
    match find (same_data c) (output_occupy_buffer_queue_ e) with
    | None => undefined
    | Some b => modify (fun e => e <| data_cbs := data_cbs e ++ [mkTrackData (client_buffer b c) (frame_type (Buffer.flag c))] |>)
    end.

(** Buffers without content, and all after the end of the stream, are free
    again; the others go to the client. *)
Definition TrackEncoder_ReturnBuffer (c : Descriptor) : ST TrackEncoder Z :=
  if Buffer.data c =? 0 then undefined
  else
    let* e := gets id in
    do* (if eos_atoutput_ e || (Buffer.size c =? 0) then modify (fun e => default e (to_free (same_data c) e))
         else NotifyBufferToClient c) in
    ret NO_ERROR.

(** *** The client *)

Definition FAILED_TRANSACTION : Z := -2147483646.

Definition has_id (bn : BnBuffer) (b : Descriptor) : bool := Buffer.fd b =? i32 (buffer_id bn).

Fixpoint take_returned (bns : list BnBuffer) (e : TrackEncoder) : Z * TrackEncoder :=
  match bns with
  | [] => (NO_ERROR, e)
  | bn :: bns' =>
      match to_free (has_id bn) e with None => (FAILED_TRANSACTION, e) | Some e' => take_returned bns' e' end
  end.

Definition OnBufferReturnFromClient (bns : list BnBuffer) (e : TrackEncoder) : Z * TrackEncoder :=
  if is_force_cleanup_ e then (NO_ERROR, e) else take_returned bns e.

(** ** The encoders of all tracks *)

Record EncoderCore := mkEncoderCore { track_encoders_ : gmap Z TrackEncoder; ion_device_ : Z; ion : I }.

#[export] Instance settable_EncoderCore : Settable EncoderCore :=
  {| eta_expand := fun c => mkEncoderCore (track_encoders_ c) (ion_device_ c) (ion c) |}.

Definition EncoderCore_new (i : I) : EncoderCore := mkEncoderCore ∅ (-1) i.

(** Destroying the core closes the device, unless its number is 0. *)
Definition EncoderCore_delete (c : EncoderCore) : I :=
  let i := map_fold (fun _ e i => drop_encoder e i) (ion c) (track_encoders_ c) in
  if 0 <? ion_device_ c then ion_close_device (ion_device_ c) i else i.

Definition open_ion (c : EncoderCore) : EncoderCore :=
  if ion_device_ c <? 0 then let '(fd, i) := ion_open (ion c) in c <| ion_device_ := fd |> <| ion := i |> else c.

(** [emplace]: the new encoder of a track that has one is dropped. *)
Definition AddSource (track : Z) (p : VideoTrackParams) : ST EncoderCore Z :=
  do* modify open_ion in
  let* c := gets id in
  if ion_device_ c <? 0 then undefined
  else
    match TrackEncoder_Init (ion c) (TrackEncoder_new p) with
    | None => undefined
    | Some ((r, i), e) =>
        if negb (r =? NO_ERROR) then
          do* modify (fun c => c <| ion := drop_encoder e i |>) in ret BAD_VALUE
        else
          do* modify (fun c =>
            if bool_decide (is_Some (track_encoders_ c !! track_id p)) then c <| ion := drop_encoder e i |>
            else c <| ion := i |> <| track_encoders_ := <[track_id p := e]> (track_encoders_ c) |>) in
          ret r
    end.

Definition isTrackValid (track : Z) (c : EncoderCore) : bool := bool_decide (is_Some (track_encoders_ c !! track)).

(** A method of the track's encoder; [fail] when there is none. *)
Definition on_encoder (track fail : Z) (m : ST TrackEncoder Z) : ST EncoderCore Z := fun c =>
  match track_encoders_ c !! track with
  | None => Some (fail, c)
  | Some e =>
      match m e with Some (r, e') => Some (r, c <| track_encoders_ := <[track := e']> (track_encoders_ c) |>) | None => None end
  end.

Definition StartTrackEncoder (track : Z) : ST EncoderCore Z := on_encoder track BAD_VALUE (assert_ok TrackEncoder_Start).

Definition StopTrackEncoder (during : TrackEncoder -> TrackEncoder) (track : Z) (is_force_cleanup : bool) : ST EncoderCore Z :=
  on_encoder track BAD_VALUE (assert_ok (TrackEncoder_Stop during is_force_cleanup)).

Definition SetTrackEncoderParams (track : Z) (p : CodecParam) : ST EncoderCore Z :=
  on_encoder track BAD_VALUE (assert_ok (TrackEncoder_SetParams p)).

Definition DeleteTrackEncoder (track : Z) : ST EncoderCore Z :=
  let* c := gets id in
  if negb (isTrackValid track c) then ret BAD_VALUE
  else
    do* on_encoder track BAD_VALUE (assert_ok ReleaseHeaders) in
    do* modify (fun c =>
      match track_encoders_ c !! track with
      | Some e => c <| ion := drop_encoder e (ion c) |> <| track_encoders_ := delete track (track_encoders_ c) |>
      | None => c
      end) in
    ret NO_ERROR.

Definition ReturnTrackBuffer (track : Z) (buffers : list BnBuffer) : ST EncoderCore Z :=
  on_encoder track BAD_VALUE (pure_step (OnBufferReturnFromClient buffers)).

Definition FlushTrack (track : Z) : ST EncoderCore Z := on_encoder track NAME_NOT_FOUND TrackEncoder_Flush.
End EncoderCore.
