(* ===== verification/EncoderFacts.v ===== *)
(** * The buffers of an encoder

    Theorems about [EncoderCore]: the output buffers of an encoder are either
    free or with the codec or the client, a filled buffer goes to the client
    once and comes back, nothing is sent after the end of a stream, and the
    memory of an encoder is released with it. *)

From stdpp Require Import sorting.
From S2P Require Import Prelude KeyedVector Floats Monitor Memory Stream Track RecorderTypes EncoderCore.

Section Facts.
Context {V I : Type} `{IAVCodec V} `{IonDevice I}.

Abbreviation Encoder := (TrackEncoder (V := V)).

(** ** Steps

    What holds a lock throughout is one step; a stop is two, for its call of
    the codec goes on while the codec's threads take and return buffers. *)
Inductive EncoderStep :=
| EStart
| ETakeBack
| EStopCodec
| ESetParams (p : CodecParam)
| EReleaseHeaders
| EFlush
| EGetBuffer
| EReturnBuffer (c : Descriptor)
| EClientReturns (bns : list BnBuffer).

Definition state_of {A} (r : option (A * Encoder)) : option Encoder := snd <$> r.

Definition encoder_step (e : Encoder) (st : EncoderStep) : option Encoder :=
  match st with
  | EStart => state_of (TrackEncoder_Start e)
  | ETakeBack => Some (take_back e)
  | EStopCodec => state_of (assert_ok (codec (av_StopCodec true)) e)
  | ESetParams p => state_of (TrackEncoder_SetParams p e)
  | EReleaseHeaders => state_of (ReleaseHeaders e)
  | EFlush => state_of (TrackEncoder_Flush e)
  | EGetBuffer => state_of (TrackEncoder_GetBuffer [] e)
  | EReturnBuffer c => state_of (TrackEncoder_ReturnBuffer c e)
  | EClientReturns bns => Some (snd (OnBufferReturnFromClient bns e))
  end.

Fixpoint encoder_run (steps : list EncoderStep) (e : Encoder) : option Encoder :=
  match steps with
  | [] => Some e
  | st :: steps' => match encoder_step e st with Some e' => encoder_run steps' e' | None => None end
  end.

Lemma encoder_run_app s1 s2 e : encoder_run (s1 ++ s2) e = match encoder_run s1 e with Some e' => encoder_run s2 e' | None => None end.
Proof. revert e. induction s1 as [|st s1 IH]; intros e; simpl; [done|]. destruct (encoder_step e st); [apply IH|done]. Qed.

(** A stop is the steps it is made of, with those of others between. *)
Lemma stop_is_steps (between : list EncoderStep) (force : bool) (e e1 : Encoder) :
  encoder_run between (if force then take_back e else e) = Some e1 ->
  state_of (TrackEncoder_Stop (fun e => default e (encoder_run between e)) force e) =
  encoder_run ((if force then [ETakeBack] else []) ++ between ++ [EStopCodec]) e.
Proof.
  intros Hb. unfold TrackEncoder_Stop, bind at 1 2, modify. rewrite Hb. simpl.
  assert (encoder_run (between ++ [EStopCodec]) (if force then take_back e else e) = encoder_step e1 EStopCodec) as Hr.
  { rewrite encoder_run_app, Hb. simpl. by destruct (state_of _). }
  by destruct force.
Qed.

(** ** Where the buffers are *)

Lemma take_first_spec p (bs : list Descriptor) b rest : take_first p bs = Some (b, rest) ->
  exists l1 l2, bs = l1 ++ b :: l2 /\ rest = l1 ++ l2 /\ p b = true /\ Forall (fun x => p x = false) l1.
Proof.
  revert b rest. induction bs as [|x bs IH]; intros b rest; simpl; [done|]. destruct (p x) eqn:Ep.
  - intros [= <- <-]. by exists [], bs.
  - destruct (take_first p bs) as [[y r]|]; [|done]. intros [= <- <-]. destruct (IH y r eq_refl) as (l1 & l2 & -> & -> & Hp & Hl).
    exists (x :: l1), l2. split_and!; try done. by constructor.
Qed.

Lemma take_first_is p (bs : list Descriptor) l1 b l2 : bs = l1 ++ b :: l2 -> p b = true -> Forall (fun x => p x = false) l1 ->
  take_first p bs = Some (b, l1 ++ l2).
Proof.
  intros -> Hb. induction 1 as [|x l1 Hx _ IH]; simpl; [by rewrite Hb|]. by rewrite Hx, IH.
Qed.

(** The encoder owns the buffers [l]: each is free, or with the codec or the
    client. *)
Definition owns_buffers (l : list Descriptor) (e : Encoder) : Prop :=
  output_buffer_list_ e = l /\ output_free_buffer_queue_ e ++ output_occupy_buffer_queue_ e ≡ₚ l.

(** The parts of the state that only the queues' operations change. *)
Definition same_buffers (e e' : Encoder) : Prop :=
  output_buffer_list_ e' = output_buffer_list_ e /\ output_free_buffer_queue_ e' = output_free_buffer_queue_ e /\
  output_occupy_buffer_queue_ e' = output_occupy_buffer_queue_ e.

Lemma same_owns l e e' : same_buffers e e' -> owns_buffers l e -> owns_buffers l e'.
Proof. intros (Hl & Hf & Ho) [H1l Hp]. unfold owns_buffers. by rewrite Hl, Hf, Ho. Qed.

Lemma to_free_owns p l e e' : to_free p e = Some e' -> owns_buffers l e -> owns_buffers l e'.
Proof.
  unfold to_free. destruct (take_first p _) as [[b rest]|] eqn:Et; [|done]. intros [= <-] [Hl Hp].
  destruct (take_first_spec _ _ _ _ Et) as (l1 & l2 & Ho & -> & _). split; [done|]. simpl. rewrite <- Hp, Ho. solve_Permutation.
Qed.

Lemma take_returned_owns l bns e : owns_buffers l e -> owns_buffers l (snd (take_returned bns e)).
Proof.
  revert e. induction bns as [|bn bns IH]; intros e He; simpl; [done|]. destruct (to_free (has_id bn) e) as [e'|] eqn:Et; [|done].
  apply IH. by apply (to_free_owns _ _ _ _ Et).
Qed.

(** A call of the codec leaves the rest of the encoder alone. *)
Definition only_codec (e e' : Encoder) : Prop := exists v, e' = e <| avcodec_ := v |>.

Lemma codec_only {A} (m : ST V A) e a e' : codec m e = Some (a, e') -> only_codec e e'.
Proof. unfold codec. destruct (avcodec_ e) as [v|]; [|done]. destruct (m v) as [[b v']|]; [|done]. intros [= <- <-]. by exists (Some v'). Qed.

Lemma only_same e e' : only_codec e e' -> same_buffers e e'.
Proof. by intros [v ->]. Qed.

Lemma assert_codec m e a e' : assert_ok (codec m) e = Some (a, e') -> a = NO_ERROR /\ only_codec e e'.
Proof.
  intros Ha. destruct (bind_some _ _ _ _ _ Ha) as (r & e1 & Hm & Hr). pose proof (codec_only _ _ _ _ Hm) as Hc.
  destruct (r =? NO_ERROR); [|done]. by injection Hr as <- <-.
Qed.

(** What each step does to the buffers: [None] for nothing. *)
Lemma step_buffers e st e' : encoder_step e st = Some e' ->
  match st with
  | ETakeBack => e' = take_back e
  | EGetBuffer => exists b rest, output_free_buffer_queue_ e = b :: rest /\
      e' = e <| output_occupy_buffer_queue_ := output_occupy_buffer_queue_ e ++ [b] |> <| output_free_buffer_queue_ := rest |>
  | EReturnBuffer c => same_buffers e e' \/ to_free (same_data c) e = Some e'
  | EClientReturns bns => e' = e \/ e' = snd (take_returned bns e)
  | _ => same_buffers e e'
  end.
Proof.
  destruct st; simpl; unfold state_of.
  - destruct (TrackEncoder_Start e) as [[r e1]|] eqn:Es; [|done]. intros [= <-]. destruct (bind_some _ _ _ _ _ Es) as (r1 & e2 & Hs & Hr).
    destruct (assert_codec _ _ _ _ Hs) as [_ [v ->]]. by injection Hr as <- <-.
  - by intros [= <-].
  - destruct (assert_ok _ e) as [[r e1]|] eqn:Es; [|done]. intros [= <-]. destruct (assert_codec _ _ _ _ Es) as [_ Hc]. by apply only_same.
  - destruct (TrackEncoder_SetParams p e) as [[r e1]|] eqn:Es; [|done]. intros [= <-].
    destruct (bind_some _ _ _ _ _ Es) as (r1 & e2 & Hs & Hr). destruct (codec_only _ _ _ _ Hs) as [v ->].
    destruct p; [|by injection Hr as <- <-..]. destruct (wait_for fps); [|done]. by injection Hr as <- <-.
  - destruct (ReleaseHeaders e) as [[r e1]|] eqn:Es; [|done]. intros [= <-]. by apply only_same, (codec_only _ _ _ _ Es).
  - destruct (TrackEncoder_Flush e) as [[r e1]|] eqn:Es; [|done]. intros [= <-]. unfold TrackEncoder_Flush in Es.
    destruct (avcodec_ e) eqn:Ea; [|by injection Es as <- <-]. by apply only_same, (codec_only _ _ _ _ Es).
  - destruct (output_free_buffer_queue_ e) as [|b rest]; [done|]. intros [= <-]. by exists b, rest.
  - unfold TrackEncoder_ReturnBuffer. destruct (Buffer.data c =? 0); [done|]. rewrite bind_gets. unfold id.
    destruct (eos_atoutput_ e || _).
    + intros [= <-]. destruct (to_free _ e) eqn:Et; simpl; [by right|by left].
    + unfold NotifyBufferToClient. destruct (has_flag _ _); unfold bind, modify, gets, id, ret; simpl;
        (destruct (is_force_cleanup_ e); [intros [= <-]; by left|]); (destruct (find _ _); [|done]); intros [= <-]; by left.
  - unfold OnBufferReturnFromClient. destruct (is_force_cleanup_ e); intros [= <-]; [by left|by right].
Qed.

Lemma step_owns l e st e' : encoder_step e st = Some e' -> owns_buffers l e -> owns_buffers l e'.
Proof.
  intros Hs Ho. pose proof (step_buffers e st e' Hs) as He. destruct st; try by apply (same_owns l e e').
  - destruct Ho as [Hl Hp]. subst e'. split; [done|]. simpl. by rewrite app_nil_r.
  - destruct He as (b & rest & Hf & ->). destruct Ho as [Hl Hp]. split; [done|]. simpl. rewrite <- Hp, Hf. solve_Permutation.
  - destruct He as [He|He]; [by apply (same_owns l e e')|by apply (to_free_owns _ _ _ _ He)].
  - destruct He as [->| ->]; [done|by apply take_returned_owns].
Qed.

Lemma run_owns l steps e e' : encoder_run steps e = Some e' -> owns_buffers l e -> owns_buffers l e'.
Proof.
  revert e. induction steps as [|st steps IH]; intros e; simpl; [by intros [= <-]|].
  destruct (encoder_step e st) as [e1|] eqn:Es; [|done]. intros Hr Ho. apply (IH e1); [done|]. by apply (step_owns l e st).
Qed.

Lemma alloc_outputs_free n size (e e' : Encoder) i r i' : alloc_outputs n size e i = (r, e', i') ->
  output_free_buffer_queue_ e' = output_free_buffer_queue_ e /\ output_occupy_buffer_queue_ e' = output_occupy_buffer_queue_ e.
Proof.
  revert e i. induction n as [|n IH]; intros e i; simpl; [by intros [= <- <- <-]|]. destruct (alloc_output size i) as [[err|[b h]] i1].
  - by intros [= <- <- <-].
  - intros Hs. by destruct (IH _ _ Hs).
Qed.

(** The state of an encoder that is ready for the first time. *)
Definition fresh_queues (e : Encoder) : Prop :=
  output_free_buffer_queue_ e = [] /\ output_occupy_buffer_queue_ e = [] /\ is_force_cleanup_ e = false /\
  eos_atoutput_ e = false /\ data_cbs e = [].

Lemma only_fresh e e' : only_codec e e' -> fresh_queues e -> fresh_queues e'.
Proof. by intros [v ->]. Qed.

Lemma alloc_outputs_fresh n size (e e' : Encoder) i r i' : alloc_outputs n size e i = (r, e', i') ->
  fresh_queues e -> fresh_queues e'.
Proof.
  revert e i. induction n as [|n IH]; intros e i; simpl; [by intros [= <- <- <-]|]. destruct (alloc_output size i) as [[err|[b h]] i1].
  - by intros [= <- <- <-].
  - intros Hs Hf. by apply (IH _ _ Hs).
Qed.

Lemma alloc_port_fresh i (e e' : Encoder) r i' : AllocOutputPortBufs i e = Some ((r, i'), e') -> fresh_queues e -> fresh_queues e'.
Proof.
  intros Ha Hf. destruct (bind_some _ _ _ _ _ Ha) as ([r1 [c sz]] & e1 & Hc & Hr).
  pose proof (only_fresh _ _ (codec_only _ _ _ _ Hc) Hf) as Hf1. destruct (negb (r1 =? NO_ERROR)); [done|].
  destruct (alloc_outputs _ _ e1 i) as [[r2 e2] i2] eqn:Eo. injection Hr as <- <- <-. by apply (alloc_outputs_fresh _ _ _ _ _ _ _ Eo).
Qed.

(** A new encoder that is ready has all its buffers free. *)
Lemma init_ready p i i' (e : Encoder) : TrackEncoder_Init i (TrackEncoder_new p) = Some ((NO_ERROR, i'), e) ->
  output_free_buffer_queue_ e = output_buffer_list_ e /\ output_occupy_buffer_queue_ e = [] /\ is_force_cleanup_ e = false /\
  eos_atoutput_ e = false /\ data_cbs e = [].
Proof.
  intros Hi. unfold TrackEncoder_Init in Hi. rewrite bind_gets in Hi. unfold id in Hi.
  destruct (bind_some _ _ _ _ _ Hi) as ([] & e1 & Hm & Hi1). assert (fresh_queues e1) as Hf1 by by injection Hm as <-.
  destruct (bind_some _ _ _ _ _ Hi1) as (r2 & e2 & Hc & Hi2). destruct (assert_codec _ _ _ _ Hc) as [_ Ho].
  pose proof (only_fresh _ _ Ho Hf1) as Hf2.
  destruct (bind_some _ _ _ _ _ Hi2) as (r3 & e3 & Hc3 & Hi3). destruct (assert_codec _ _ _ _ Hc3) as [_ Ho3].
  pose proof (only_fresh _ _ Ho3 Hf2) as Hf3.
  destruct (bind_some _ _ _ _ _ Hi3) as ([r4 i4] & e4 & Ha & Hi4). pose proof (alloc_port_fresh _ _ _ _ _ Ha Hf3) as Hf4.
  destruct (negb (r4 =? NO_ERROR)); [done|]. rewrite bind_gets in Hi4. unfold id in Hi4.
  destruct (bind_some _ _ _ _ _ Hi4) as (r5 & e5 & Hc5 & Hi5). pose proof (only_fresh _ _ (codec_only _ _ _ _ Hc5) Hf4) as Hf5.
  destruct (Z.eqb_spec r5 NO_ERROR) as [->|Hne]; simpl in Hi5; [|by injection Hi5].
  destruct (bind_some _ _ _ _ _ Hi5) as (r6 & e6 & Hc6 & Hi6). pose proof (only_fresh _ _ (codec_only _ _ _ _ Hc6) Hf5) as Hf6.
  destruct (Z.eqb_spec r6 NO_ERROR) as [->|Hne]; simpl in Hi6; [|by injection Hi6].
  destruct (wait_for _); [|done]. injection Hi6 as _ <-. destruct Hf6 as (Hq & Hrest). split; [|done]. simpl. by rewrite Hq.
Qed.

(** An encoder that has been set up, after any steps. *)
Definition reached (l : list Descriptor) (e : Encoder) : Prop :=
  exists p i i' e0 steps, TrackEncoder_Init i (TrackEncoder_new p) = Some ((NO_ERROR, i'), e0) /\ output_buffer_list_ e0 = l /\
    encoder_run steps e0 = Some e.

Lemma reached_owns l e : reached l e -> owns_buffers l e.
Proof.
  intros (p & i & i' & e0 & steps & Hi & Hl & Hr). apply (run_owns l steps e0 e Hr). destruct (init_ready _ _ _ _ Hi) as (Hf & Ho & _).
  split; [done|]. by rewrite Hf, Ho, app_nil_r, Hl.
Qed.
(** ** Filled buffers *)

(** In a list whose keys differ, what has the key of a member is it. *)
Lemma found_by_key (f : Descriptor -> Z) (l : list Descriptor) b k : NoDup (f <$> l) -> b ∈ l -> f b = k ->
  exists l1 l2, l = l1 ++ b :: l2 /\ Forall (fun x => (f x =? k) = false) l1.
Proof.
  intros Hnd Hb <-. destruct (list_elem_of_split _ _ Hb) as (l1 & l2 & ->). exists l1, l2. split; [done|].
  apply Forall_forall. intros x Hx. apply Z.eqb_neq. intros He. rewrite fmap_app, fmap_cons in Hnd.
  apply NoDup_app in Hnd as (_ & Hd & _). apply (Hd (f x)); [by apply list_elem_of_fmap_2|]. rewrite He. by left.
Qed.

Lemma NoDup_occupied (f : Descriptor -> Z) l e : owns_buffers l e -> NoDup (f <$> l) -> NoDup (f <$> output_occupy_buffer_queue_ e).
Proof. intros [_ Hp] Hnd. rewrite <- Hp, fmap_app in Hnd. by apply NoDup_app in Hnd as (_ & _ & ?). Qed.

Lemma find_split (p : Descriptor -> bool) l1 b l2 : Forall (fun x => p x = false) l1 -> p b = true -> find p (l1 ++ b :: l2) = Some b.
Proof. intros Hl Hb. induction Hl as [|x l1 Hx _ IH]; simpl; [by rewrite Hb|]. by rewrite Hx. Qed.

Lemma filled_is_sent l e b c : owns_buffers l e -> NoDup (Buffer.data <$> l) -> b ∈ output_occupy_buffer_queue_ e ->
  eos_atoutput_ e = false -> is_force_cleanup_ e = false -> Buffer.data c = Buffer.data b -> Buffer.data c <> 0 -> Buffer.size c <> 0 ->
  exists e1, TrackEncoder_ReturnBuffer c e = Some (NO_ERROR, e1) /\ same_buffers e e1 /\
    is_force_cleanup_ e1 = false /\ eos_atoutput_ e1 = has_flag (Buffer.flag c) kFlagEOS /\
    data_cbs e1 = data_cbs e ++ [mkTrackData (client_buffer b c) (frame_type (Buffer.flag c))].
Proof.
  intros Ho Hnd Hb Heos Hf Hd Hd0 Hs0. pose proof (NoDup_occupied _ _ _ Ho Hnd) as Hno.
  destruct (found_by_key _ _ b (Buffer.data c) Hno Hb (eq_sym Hd)) as (l1 & l2 & Hl & Hl1).
  assert (find (same_data c) (output_occupy_buffer_queue_ e) = Some b) as Hfind.
  { rewrite Hl. apply find_split; [done|]. apply Z.eqb_eq. by rewrite Hd. }
  unfold TrackEncoder_ReturnBuffer, NotifyBufferToClient. apply Z.eqb_neq in Hd0, Hs0. rewrite Hd0, Hs0.
  destruct (has_flag (Buffer.flag c) kFlagEOS) eqn:He; unfold bind, gets, modify, ret, id; simpl; rewrite Heos; simpl;
    rewrite Hf; simpl; rewrite Hfind; eexists; by split_and!.
Qed.

(** A filled buffer goes to the client once, with the size, time stamp,
    flags and frame type that the codec gave it; when the client returns it,
    at any later time at which it is still out, it is the last of the free
    buffers. *)
Theorem filled_buffer_round_trip (l : list Descriptor) (e : Encoder) (b c : Descriptor) : reached l e ->
  NoDup (Buffer.data <$> l) -> NoDup (Buffer.fd <$> l) -> is_i32 (Buffer.fd b) ->
  b ∈ output_occupy_buffer_queue_ e -> eos_atoutput_ e = false -> is_force_cleanup_ e = false ->
  Buffer.data c = Buffer.data b -> Buffer.data c <> 0 -> Buffer.size c <> 0 ->
  exists e1, TrackEncoder_ReturnBuffer c e = Some (NO_ERROR, e1) /\
    data_cbs e1 = data_cbs e ++ [mkTrackData (client_buffer b c) (frame_type (Buffer.flag c))] /\
    output_occupy_buffer_queue_ e1 = output_occupy_buffer_queue_ e /\
    forall steps e2, encoder_run steps e1 = Some e2 -> b ∈ output_occupy_buffer_queue_ e2 -> is_force_cleanup_ e2 = false ->
      exists e3, OnBufferReturnFromClient [client_buffer b c] e2 = (NO_ERROR, e3) /\
        output_free_buffer_queue_ e3 = output_free_buffer_queue_ e2 ++ [b] /\
        output_occupy_buffer_queue_ e2 ≡ₚ b :: output_occupy_buffer_queue_ e3.
Proof.
  intros Hr Hnd Hnf Hi Hb Heos Hf Hd Hd0 Hs0. pose proof (reached_owns _ _ Hr) as Ho.
  destruct (filled_is_sent l e b c Ho Hnd Hb Heos Hf Hd Hd0 Hs0) as (e1 & He1 & Hsame & _ & _ & Hcb).
  exists e1. split_and!; [done|done|apply Hsame|]. intros steps e2 Hr2 Hb2 Hf2.
  pose proof (run_owns l steps e1 e2 Hr2 (same_owns _ _ _ Hsame Ho)) as Ho2.
  assert (i32 (u32 (Buffer.fd b)) = Buffer.fd b) as Hid by (by rewrite i32_u32, i32_small).
  destruct (found_by_key Buffer.fd _ b _ (NoDup_occupied _ _ _ Ho2 Hnf) Hb2 eq_refl) as (l1 & l2 & Hl & Hl1).
  assert (take_first (has_id (client_buffer b c)) (output_occupy_buffer_queue_ e2) = Some (b, l1 ++ l2)) as Ht.
  { apply (take_first_is _ _ l1 b l2 Hl); unfold has_id; simpl; rewrite Hid; [apply Z.eqb_refl|done]. }
  unfold OnBufferReturnFromClient. rewrite Hf2. simpl. unfold to_free. rewrite Ht. eexists. split_and!; [done|done|].
  rewrite Hl. solve_Permutation.
Qed.

(** ** Who has the buffers that are out *)

(** The addresses that the codec has been given and not returned, and the
    descriptors that the client has been told of and not returned. *)
Record Holders := mkHolders { codec_has : list Z; client_has : list Z }.

(** [x] leaves the list; [None] when it is not there. *)
Fixpoint drop_one (x : Z) (l : list Z) : option (list Z) :=
  match l with [] => None | y :: l' => if x =? y then Some l' else cons y <$> drop_one x l' end.

Fixpoint drop_all (xs l : list Z) : option (list Z) :=
  match xs with [] => Some l | x :: xs' => match drop_one x l with Some l' => drop_all xs' l' | None => None end end.

(** The descriptors of the calls of [data_cb] from [e] to [e']. *)
Definition told (e e' : Encoder) : list Z :=
  map (fun d => ion_fd (td_buffer d)) (drop (length (data_cbs e)) (data_cbs e')).

(** What a step that leads from [e] to [e'] moves between the holders.
    [None] when codec or client return what they do not have, and for a
    forced stop, which asks neither of them. *)
Definition move_buffers (e : Encoder) (st : EncoderStep) (e' : Encoder) (h : Holders) : option Holders :=
  match st with
  | EGetBuffer =>
      match TrackEncoder_GetBuffer [] e with
      | Some (inr (_, d), _) => Some (mkHolders (codec_has h ++ [d]) (client_has h))
      | _ => Some h
      end
  | EReturnBuffer c =>
      match drop_one (Buffer.data c) (codec_has h) with
      | Some l => Some (mkHolders l (client_has h ++ told e e'))
      | None => None
      end
  | EClientReturns bns =>
      match drop_all (map (fun bn => i32 (buffer_id bn)) bns) (client_has h) with
      | Some l => Some (mkHolders (codec_has h) l)
      | None => None
      end
  | ETakeBack => None
  | _ => Some h
  end.

Fixpoint held_run (steps : list EncoderStep) (e : Encoder) (h : Holders) : option (Encoder * Holders) :=
  match steps with
  | [] => Some (e, h)
  | st :: steps' =>
      match encoder_step e st with
      | None => None
      | Some e' => match move_buffers e st e' h with Some h' => held_run steps' e' h' | None => None end
      end
  end.

Lemma drop_one_perm x l l' : drop_one x l = Some l' -> l ≡ₚ x :: l'.
Proof.
  revert l'. induction l as [|y l IH]; intros l'; simpl; [done|]. destruct (Z.eqb_spec x y) as [->|]; [by intros [= <-]|].
  destruct (drop_one x l) as [r|]; [|done]. intros [= <-]. rewrite (IH r eq_refl). apply Permutation_swap.
Qed.

(** The buffers [oc] are with the codec and the buffers [ol] with the
    client, and the others are free. *)
Definition shared_out (l : list Descriptor) (e : Encoder) (h : Holders) (oc ol : list Descriptor) : Prop :=
  output_free_buffer_queue_ e ++ oc ++ ol ≡ₚ l /\ oc ++ ol ≡ₚ output_occupy_buffer_queue_ e /\
  Buffer.data <$> oc ≡ₚ codec_has h /\ Buffer.fd <$> ol ≡ₚ client_has h.

Definition sharing (l : list Descriptor) (e : Encoder) (h : Holders) : Prop :=
  is_force_cleanup_ e = false /\ exists oc ol, shared_out l e h oc ol.

Lemma same_sharing l h e e' : same_buffers e e' -> is_force_cleanup_ e' = is_force_cleanup_ e -> sharing l e h -> sharing l e' h.
Proof. intros (_ & Hf & Ho) Hc [Hz Hs]. unfold sharing, shared_out. by rewrite Hf, Ho, Hc. Qed.

(** Taking the buffer [b] out of the occupied ones. *)
Lemma taken_unique (f : Descriptor -> Z) (l occ : list Descriptor) b p : NoDup (f <$> occ) -> b ∈ occ ->
  (forall x, p x = (f x =? f b)) -> exists r, take_first p occ = Some (b, r) /\ occ ≡ₚ b :: r.
Proof.
  intros Hn Hb Hp. destruct (found_by_key f occ b (f b) Hn Hb eq_refl) as (l1 & l2 & -> & Hl1). exists (l1 ++ l2). split.
  - apply (take_first_is p _ l1 b l2 eq_refl); [by rewrite Hp, Z.eqb_refl|]. eapply Forall_impl; [exact Hl1|]. intros x. by rewrite Hp.
  - solve_Permutation.
Qed.
Lemma pick (f : Descriptor -> Z) (bs : list Descriptor) x keys : f <$> bs ≡ₚ x :: keys ->
  exists b bs', bs ≡ₚ b :: bs' /\ f b = x /\ f <$> bs' ≡ₚ keys.
Proof.
  intros Hp. assert (x ∈ f <$> bs) as Hx by (rewrite Hp; by left). apply list_elem_of_fmap in Hx as (b & -> & Hb).
  destruct (list_elem_of_split _ _ Hb) as (l1 & l2 & ->). exists b, (l1 ++ l2). split; [solve_Permutation|]. split; [done|].
  apply (Permutation_cons_inv (a := f b)). rewrite <- Hp, !fmap_app, fmap_cons. solve_Permutation.
Qed.

Section Sharing.
Context (l : list Descriptor) (data_differ : NoDup (Buffer.data <$> l)) (fds_differ : NoDup (Buffer.fd <$> l)).

Lemma shared_unique (f : Descriptor -> Z) e h oc ol : NoDup (f <$> l) -> shared_out l e h oc ol ->
  NoDup (f <$> output_occupy_buffer_queue_ e).
Proof. intros Hn (Hp & Ho & _). rewrite <- Ho. rewrite <- Hp, fmap_app in Hn. by apply NoDup_app in Hn as (_ & _ & ?). Qed.

(** The client returns one buffer. *)
Lemma return_sharing e h bn ids : sharing l e h -> drop_one (i32 (buffer_id bn)) (client_has h) = Some ids ->
  exists e', to_free (has_id bn) e = Some e' /\ sharing l e' (mkHolders (codec_has h) ids) /\ data_cbs e' = data_cbs e.
Proof.
  intros (Hz & oc & ol & Hs) Hd%drop_one_perm. pose proof (shared_unique _ _ _ _ _ fds_differ Hs) as Hn.
  destruct Hs as (Hp & Ho & Hc & Hl). rewrite Hd in Hl. destruct (pick _ _ _ _ Hl) as (b & ol' & Hol & Hb & Hl').
  assert (b ∈ output_occupy_buffer_queue_ e) as Hin by (rewrite <- Ho, Hol; apply elem_of_app; right; by left).
  destruct (taken_unique Buffer.fd l _ b (has_id bn) Hn Hin) as (r & Ht & Hr); [intros x; unfold has_id; by rewrite <- Hb|].
  unfold to_free. rewrite Ht. eexists. split; [done|]. split; [|done]. split; [done|]. exists oc, ol'. unfold shared_out. simpl. split_and!.
  - rewrite <- Hp, Hol. solve_Permutation.
  - apply (Permutation_cons_inv (a := b)). rewrite <- Hr, <- Ho, Hol. solve_Permutation.
  - done.
  - done.
Qed.

Lemma returns_sharing bns : forall e h ids, sharing l e h -> drop_all (map (fun bn => i32 (buffer_id bn)) bns) (client_has h) = Some ids ->
  sharing l (snd (take_returned bns e)) (mkHolders (codec_has h) ids).
Proof.
  induction bns as [|bn bns IH]; intros e h ids Hs; simpl; [intros [= <-]; by destruct h|].
  destruct (drop_one (i32 (buffer_id bn)) (client_has h)) as [ids1|] eqn:Ed; [|done]. intros Hd.
  destruct (return_sharing e h bn ids1 Hs Ed) as (e1 & -> & Hs1 & _). by apply (IH e1 (mkHolders (codec_has h) ids1)).
Qed.

(** The codec returns one. *)
Lemma filled_sharing e h c r e' ids : sharing l e h -> drop_one (Buffer.data c) (codec_has h) = Some ids ->
  TrackEncoder_ReturnBuffer c e = Some (r, e') -> sharing l e' (mkHolders ids (client_has h ++ told e e')).
Proof.
  intros (Hz & oc & ol & Hs) Hd%drop_one_perm. pose proof (shared_unique _ _ _ _ _ data_differ Hs) as Hn.
  destruct Hs as (Hp & Ho & Hc & Hl). rewrite Hd in Hc. destruct (pick _ _ _ _ Hc) as (b & oc' & Hoc & Hb & Hc').
  assert (b ∈ output_occupy_buffer_queue_ e) as Hin by (rewrite <- Ho, Hoc; by left).
  destruct (found_by_key _ _ b (Buffer.data c) Hn Hin Hb) as (l1 & l2 & Hsp & Hl1).
  assert (find (same_data c) (output_occupy_buffer_queue_ e) = Some b) as Hfind.
  { rewrite Hsp. apply find_split; [done|]. apply Z.eqb_eq. by rewrite Hb. }
  destruct (taken_unique Buffer.data l _ b (same_data c) Hn Hin) as (rest & Ht & Hr); [intros x; unfold same_data; by rewrite <- Hb|].
  unfold TrackEncoder_ReturnBuffer. destruct (Buffer.data c =? 0); [done|]. rewrite bind_gets. unfold id.
  destruct (eos_atoutput_ e || _).
  - unfold bind, modify, ret, to_free. rewrite Ht. intros [= _ <-]. unfold told. simpl. rewrite drop_ge by done. rewrite app_nil_r. split; [done|].
    exists oc', ol. unfold shared_out. simpl. split_and!; try done.
    + rewrite <- Hp, Hoc. solve_Permutation.
    + apply (Permutation_cons_inv (a := b)). by rewrite <- Hr, <- Ho, Hoc.
  - unfold NotifyBufferToClient. intros Hrun.
    assert (exists x, e' = e <| eos_atoutput_ := x |> <| data_cbs := data_cbs e ++ [mkTrackData (client_buffer b c) (frame_type (Buffer.flag c))] |>) as [x ->].
    { revert Hrun. destruct (has_flag _ _); unfold bind, modify, gets, id, ret; simpl; rewrite Hz, Hfind; intros [= _ <-];
        eexists; simpl; f_equal; congruence. }
    unfold told. simpl. rewrite drop_app_length. simpl. split; [done|]. exists oc', (ol ++ [b]). unfold shared_out. simpl. split_and!.
    + rewrite <- Hp, Hoc. solve_Permutation.
    + rewrite <- Ho, Hoc. solve_Permutation.
    + done.
    + rewrite fmap_app, Hl. done.
Qed.

Lemma step_sharing e st e' h h' : sharing l e h -> encoder_step e st = Some e' -> move_buffers e st e' h = Some h' -> sharing l e' h'.
Proof.
  intros Hs Hst. destruct st; cbn [move_buffers]; simpl in Hst; unfold state_of in Hst.
  - destruct (TrackEncoder_Start e) as [[r e1]|] eqn:Es; [|done]. injection Hst as <-. intros [= <-].
    destruct (bind_some _ _ _ _ _ Es) as (r1 & e2 & Hc & Hr). destruct (assert_codec _ _ _ _ Hc) as [_ [v ->]]. injection Hr as <- <-.
    by apply (same_sharing l h e).
  - done.
  - destruct (assert_ok _ e) as [[r e1]|] eqn:Es; [|done]. injection Hst as <-. intros [= <-].
    destruct (assert_codec _ _ _ _ Es) as [_ [v ->]]. by apply (same_sharing l h e).
  - destruct (TrackEncoder_SetParams p e) as [[r e1]|] eqn:Es; [|done]. injection Hst as <-. intros [= <-].
    destruct (bind_some _ _ _ _ _ Es) as (r1 & e2 & Hc & Hr). destruct (codec_only _ _ _ _ Hc) as [v ->].
    destruct p; [|injection Hr as <- <-; by apply (same_sharing l h e)..]. destruct (wait_for fps); [|done]. injection Hr as <- <-.
    by apply (same_sharing l h e).
  - destruct (ReleaseHeaders e) as [[r e1]|] eqn:Es; [|done]. injection Hst as <-. intros [= <-].
    destruct (codec_only _ _ _ _ Es) as [v ->]. by apply (same_sharing l h e).
  - destruct (TrackEncoder_Flush e) as [[r e1]|] eqn:Es; [|done]. injection Hst as <-. intros [= <-]. unfold TrackEncoder_Flush in Es.
    destruct (avcodec_ e) eqn:Ea; [|by injection Es as <- <-]. destruct (codec_only _ _ _ _ Es) as [v' ->]. by apply (same_sharing l h e).
  - destruct Hs as (Hz & oc & ol & Hp & Ho & Hc & Hl). destruct (output_free_buffer_queue_ e) as [|b rest] eqn:Ef; [done|].
    injection Hst as <-. unfold TrackEncoder_GetBuffer. rewrite Ef. intros [= <-]. split; [done|]. exists (oc ++ [b]), ol. unfold shared_out. simpl. split_and!.
    + rewrite <- Hp. solve_Permutation.
    + rewrite <- Ho. solve_Permutation.
    + by rewrite fmap_app, Hc.
    + done.
  - destruct (TrackEncoder_ReturnBuffer c e) as [[r e1]|] eqn:Es; [|done]. injection Hst as <-.
    destruct (drop_one _ _) as [ids|] eqn:Ed; [|done]. intros [= <-]. by apply (filled_sharing e h c r e1 ids).
  - injection Hst as <-. destruct (drop_all _ _) as [ids|] eqn:Ed; [|done]. intros [= <-]. unfold OnBufferReturnFromClient.
    rewrite (proj1 Hs). by apply returns_sharing.
Qed.

Lemma run_sharing steps : forall e h e' h', sharing l e h -> held_run steps e h = Some (e', h') -> sharing l e' h'.
Proof.
  induction steps as [|st steps IH]; intros e h e' h' Hs; simpl; [by intros [= <- <-]|].
  destruct (encoder_step e st) as [e1|] eqn:Es; [|done]. destruct (move_buffers e st e1 h) as [h1|] eqn:Em; [|done].
  apply IH. by apply (step_sharing e st e1 h h1).
Qed.
End Sharing.

(** C35. Each output buffer of an encoder is in one place.  From the time
    the encoder is set up, over any steps of the codec, the client and the
    service in which both return only what they have and no stop is forced,
    the buffers are the free ones, those whose addresses the codec has been
    given and not returned, and those whose descriptors the client has been
    told of and not returned, each buffer once.  A buffer that the codec is
    given next is one of them that neither of the two has.  The addresses and
    the descriptors of the buffers are different ones. *)
Theorem encoder_buffers_conserved (p : VideoTrackParams) (i i' : I) (e0 e : Encoder) (steps : list EncoderStep) (h : Holders) :
  let l := output_buffer_list_ e0 in
  TrackEncoder_Init i (TrackEncoder_new p) = Some ((NO_ERROR, i'), e0) ->
  NoDup (Buffer.data <$> l) -> NoDup (Buffer.fd <$> l) ->
  held_run steps e0 (mkHolders [] []) = Some (e, h) ->
  exists oc ol,
    output_free_buffer_queue_ e ++ oc ++ ol ≡ₚ l /\ oc ++ ol ≡ₚ output_occupy_buffer_queue_ e /\
    Buffer.data <$> oc ≡ₚ codec_has h /\ Buffer.fd <$> ol ≡ₚ client_has h /\
    forall fd data e', TrackEncoder_GetBuffer [] e = Some (inr (fd, data), e') ->
      (exists b, b ∈ l /\ Buffer.fd b = fd /\ Buffer.data b = data) /\ (data ∉ codec_has h) /\ (fd ∉ client_has h).
Proof.
  intros l Hi Hd Hf Hr. destruct (init_ready _ _ _ _ Hi) as (Hfree & Hocc & Hz & _).
  assert (sharing l e0 (mkHolders [] [])) as Hs0.
  { split; [done|]. exists [], []. unfold shared_out. rewrite Hfree, Hocc. simpl. by rewrite app_nil_r. }
  destruct (run_sharing l Hd Hf steps e0 _ e h Hs0 Hr) as (_ & oc & ol & Hp & Ho & Hc & Hl). exists oc, ol. split_and!; try done.
  intros fd data e'. unfold TrackEncoder_GetBuffer. destruct (output_free_buffer_queue_ e) as [|b rest] eqn:Ef; [done|]. intros [= <- <- _].
  split; [exists b; split_and!; [rewrite <- Hp; by left|done..]|].
  rewrite <- Hp in Hd, Hf. simpl in Hd, Hf. apply NoDup_cons in Hd as [Hd _], Hf as [Hf _]. rewrite !fmap_app, !elem_of_app in Hd, Hf.
  rewrite <- Hc, <- Hl. tauto.
Qed.

(** ** The end of the stream *)

(** What has been sent, and whether the stream has ended. *)
Definition quiet_state (cbs : list TrackData) (e : Encoder) : Prop := eos_atoutput_ e = true /\ data_cbs e = cbs.

Lemma only_quiet cbs e e' : only_codec e e' -> quiet_state cbs e -> quiet_state cbs e'.
Proof. by intros [v ->]. Qed.

Lemma to_free_quiet p cbs e e' : to_free p e = Some e' -> quiet_state cbs e -> quiet_state cbs e'.
Proof. unfold to_free. destruct (take_first p _) as [[b rest]|]; [|done]. by intros [= <-]. Qed.

Lemma take_returned_quiet cbs bns e : quiet_state cbs e -> quiet_state cbs (snd (take_returned bns e)).
Proof.
  revert e. induction bns as [|bn bns IH]; intros e He; simpl; [done|]. destruct (to_free (has_id bn) e) as [e'|] eqn:Et; [|done].
  apply IH. by apply (to_free_quiet _ _ _ _ Et).
Qed.

Lemma step_quiet cbs e st e' : st <> EStart -> encoder_step e st = Some e' -> quiet_state cbs e -> quiet_state cbs e'.
Proof.
  intros Hst Hs Hq. destruct st; simpl in Hs; unfold state_of in Hs; [done|..].
  - by injection Hs as <-.
  - destruct (assert_ok _ e) as [[r e1]|] eqn:Es; [|done]. injection Hs as <-. destruct (assert_codec _ _ _ _ Es) as [_ Hc]. by apply (only_quiet _ _ _ Hc).
  - destruct (TrackEncoder_SetParams p e) as [[r e1]|] eqn:Es; [|done]. injection Hs as <-.
    destruct (bind_some _ _ _ _ _ Es) as (r1 & e2 & Hc & Hr). apply codec_only in Hc. apply (only_quiet _ _ _ Hc) in Hq.
    destruct p; [|by injection Hr as <- <-..]. destruct (wait_for fps); [|done]. by injection Hr as <- <-.
  - destruct (ReleaseHeaders e) as [[r e1]|] eqn:Es; [|done]. injection Hs as <-. by apply (only_quiet _ _ _ (codec_only _ _ _ _ Es)).
  - destruct (TrackEncoder_Flush e) as [[r e1]|] eqn:Es; [|done]. injection Hs as <-. unfold TrackEncoder_Flush in Es.
    destruct (avcodec_ e) eqn:Ea; [|by injection Es as <- <-]. by apply (only_quiet _ _ _ (codec_only _ _ _ _ Es)).
  - destruct (output_free_buffer_queue_ e) as [|b rest]; [done|]. by injection Hs as <-.
  - unfold TrackEncoder_ReturnBuffer in Hs. destruct (Buffer.data c =? 0); [done|]. rewrite bind_gets in Hs. unfold id in Hs.
    destruct Hq as [He Hc]. rewrite He in Hs. injection Hs as <-. destruct (to_free _ e) eqn:Et; [|done].
    by apply (to_free_quiet _ _ _ _ Et).
  - unfold OnBufferReturnFromClient in Hs. destruct (is_force_cleanup_ e); injection Hs as <-; [done|by apply take_returned_quiet].
Qed.

(** After the buffer with the end of the stream nothing is sent to the
    client until the encoder is started again, whatever the codec still
    returns. *)
Theorem quiet_after_eos (steps : list EncoderStep) (e e' : Encoder) : EStart ∉ steps -> eos_atoutput_ e = true ->
  encoder_run steps e = Some e' -> data_cbs e' = data_cbs e.
Proof.
  intros Hn He Hr. enough (quiet_state (data_cbs e) e') as [_ Hq] by done. assert (quiet_state (data_cbs e) e) as Hq by done.
  revert Hq Hr. generalize (data_cbs e). intros cbs. clear He. revert e. induction steps as [|st steps IH]; intros e; simpl.
  - by intros Hq [= <-].
  - apply not_elem_of_cons in Hn as [Hst Hn]. destruct (encoder_step e st) as [e1|] eqn:Es; [|done]. intros Hq.
    apply (IH Hn). by apply (step_quiet cbs e st).
Qed.

(** ** The memory of an encoder *)

(** What is held of the device: descriptors, handles and mappings.  A failed
    call holds nothing and leaves an error behind; a mapping is never at
    address 0. *)
Class IonLaws := {
  held : I -> gset Z * gset Z * gset Z;
  alloc_fd_law size i r fd i' : ion_alloc_fd size i = ((r, fd), i') -> let '(fds, hs, ms) := held i in
    if r =? 0 then 0 <= fd /\ (fd ∉ fds) /\ held i' = ({[fd]} ∪ fds, hs, ms) else errno i' <> 0 /\ held i' = held i;
  alloc_law size i r h i' : ion_alloc size i = ((r, h), i') -> let '(fds, hs, ms) := held i in
    if r =? 0 then (h ∉ hs) /\ held i' = (fds, {[h]} ∪ hs, ms) else errno i' <> 0 /\ held i' = held i;
  share_law h i r fd i' : ion_share h i = ((r, fd), i') -> let '(fds, hs, ms) := held i in
    if r =? 0 then 0 <= fd /\ (fd ∉ fds) /\ held i' = ({[fd]} ∪ fds, hs, ms) else errno i' <> 0;
  mmap_law fd size i a i' : ion_mmap fd size i = (a, i') -> let '(fds, hs, ms) := held i in
    match a with
    | Some p => 0 < p /\ (p ∉ ms) /\ held i' = (fds, hs, {[p]} ∪ ms)
    | None => errno (ion_close_fd fd i') <> 0
    end;
  free_law h i : let '(fds, hs, ms) := held i in held (ion_free h i) = (fds, hs ∖ {[h]}, ms);
  munmap_law p size i : let '(fds, hs, ms) := held i in held (ion_munmap p size i) = (fds, hs, ms ∖ {[p]});
  close_law fd i : let '(fds, hs, ms) := held i in held (ion_close_fd fd i) = (fds ∖ {[fd]}, hs, ms)
}.

Context {laws : IonLaws}.

Definition handle_in (m : gmap Z Z) (b : Descriptor) : Z := default 0 (m !! Buffer.fd b).

Definition fds_of (bs : list Descriptor) : gset Z := list_to_set (Buffer.fd <$> bs).
Definition maps_of (bs : list Descriptor) : gset Z := list_to_set (Buffer.data <$> bs).
Definition handles_of (m : gmap Z Z) (bs : list Descriptor) : gset Z :=
  if ion_is_legacy then list_to_set (handle_in m <$> bs) else ∅.

(** The destructor passes over descriptor 0. *)
Definition closed (bs : list Descriptor) : list Descriptor := filter (fun b => Buffer.fd b <> 0) bs.
Definition kept (bs : list Descriptor) : list Descriptor := filter (fun b => Buffer.fd b = 0) bs.

Lemma release_all m bs i fds hs ms : Forall (fun b => 0 <= Buffer.fd b /\ 0 < Buffer.data b) bs -> held i = (fds, hs, ms) ->
  held (fold_left (release_output m) bs i) = (fds ∖ fds_of (closed bs), hs ∖ handles_of m (closed bs), ms ∖ maps_of bs).
Proof.
  intros Hb. revert i fds hs ms. induction Hb as [|b bs [Hf Hd] Hb IH]; intros i fds hs ms Hi; simpl.
  - unfold fds_of, maps_of, handles_of. simpl. rewrite !difference_empty_L. destruct ion_is_legacy; by rewrite ?difference_empty_L.
  - pose proof (munmap_law (Buffer.data b) (Buffer.capacity b) i) as Hm. rewrite Hi in Hm.
    assert (maps_of (b :: bs) = {[Buffer.data b]} ∪ maps_of bs) as -> by done. unfold closed. rewrite filter_cons.
    unfold release_output at 2. rewrite (proj2 (Z.eqb_neq (Buffer.data b) 0)) by lia.
    destruct (Z.eqb_spec (Buffer.fd b) 0) as [Hz|Hz].
    + rewrite decide_False by (by intros ?). fold (closed bs). rewrite (IH _ _ _ _ Hm). f_equal. set_solver.
    + rewrite decide_True by done. fold (closed bs).
      assert (fds_of (b :: closed bs) = {[Buffer.fd b]} ∪ fds_of (closed bs)) as -> by done. unfold handles_of. destruct ion_is_legacy eqn:El.
      * pose proof (free_law (handle_in m b) (ion_munmap (Buffer.data b) (Buffer.capacity b) i)) as Hfr. rewrite Hm in Hfr.
        pose proof (close_law (Buffer.fd b) (ion_free (handle_in m b) (ion_munmap (Buffer.data b) (Buffer.capacity b) i))) as Hc.
        rewrite Hfr in Hc. fold (handle_in m b). rewrite (IH _ _ _ _ Hc). unfold handles_of. rewrite El.
        f_equal; [f_equal|]; simpl; set_solver.
      * pose proof (close_law (Buffer.fd b) (ion_munmap (Buffer.data b) (Buffer.capacity b) i)) as Hc. rewrite Hm in Hc.
        rewrite (IH _ _ _ _ Hc). unfold handles_of. rewrite El. f_equal; [f_equal|]; set_solver.
Qed.

(** The encoder holds its buffers, each with a handle of its own, and what
    was held before is untouched. *)
Definition holds (i0 : I) (e : Encoder) (i : I) : Prop :=
  let '(fds, hs, ms) := held i0 in let bs := output_buffer_list_ e in let m := fd_ion_handle_map_ e in
  held i = (fds ∪ fds_of bs, hs ∪ handles_of m bs, ms ∪ maps_of bs) /\
  Forall (fun b => 0 <= Buffer.fd b /\ 0 < Buffer.data b) bs /\ fds ## fds_of bs /\ hs ## handles_of m bs /\ ms ## maps_of bs /\
  dom m ⊆ fds_of bs /\ (ion_is_legacy = true -> NoDup (handle_in m <$> bs)).

Lemma fds_of_cons b bs : fds_of (b :: bs) = {[Buffer.fd b]} ∪ fds_of bs.
Proof. done. Qed.

Lemma fds_kept bs : fds_of bs = fds_of (closed bs) ∪ fds_of (kept bs).
Proof.
  induction bs as [|b bs IH]; [done|]. unfold closed, kept. rewrite !filter_cons. fold (closed bs) (kept bs).
  destruct (decide (Buffer.fd b = 0)) as [Hz|Hz]; [rewrite (decide_False (P := Buffer.fd b <> 0)) by tauto|
    rewrite (decide_True (P := Buffer.fd b <> 0)) by done]; rewrite !fds_of_cons, IH; set_solver.
Qed.

Lemma fds_apart bs : fds_of (closed bs) ## fds_of (kept bs).
Proof.
  unfold fds_of, closed, kept. intros x. rewrite !elem_of_list_to_set, !list_elem_of_fmap.
  intros (b & -> & Hb) (b' & Heq & Hb'). apply list_elem_of_filter in Hb as [Hb _], Hb' as [Hb' _]. congruence.
Qed.

Lemma handles_kept m bs : handles_of m bs = handles_of m (closed bs) ∪ handles_of m (kept bs).
Proof.
  unfold handles_of. destruct ion_is_legacy; [|by rewrite union_empty_l_L].
  induction bs as [|b bs IH]; [done|]. unfold closed, kept. rewrite !filter_cons. fold (closed bs) (kept bs).
  destruct (decide (Buffer.fd b = 0)) as [Hz|Hz]; [rewrite (decide_False (P := Buffer.fd b <> 0)) by tauto|
    rewrite (decide_True (P := Buffer.fd b <> 0)) by done]; rewrite !fmap_cons, !list_to_set_cons, IH; set_solver.
Qed.

Lemma handles_apart m bs : (ion_is_legacy = true -> NoDup (handle_in m <$> bs)) -> handles_of m (closed bs) ## handles_of m (kept bs).
Proof.
  unfold handles_of. destruct ion_is_legacy; [|intros _; set_solver]. intros Hn. specialize (Hn eq_refl). intros x.
  rewrite !elem_of_list_to_set, !list_elem_of_fmap. intros (b & -> & Hb) (b' & Heq & Hb').
  apply list_elem_of_filter in Hb as [Hz Hb], Hb' as [Hz' Hb'].
  apply list_elem_of_lookup in Hb as [j Hj], Hb' as [j' Hj'].
  assert (j = j') as -> by (apply (NoDup_lookup _ j j' (handle_in m b) Hn); rewrite list_lookup_fmap, ?Hj, ?Hj'; simpl; congruence).
  congruence.
Qed.

Lemma holds_released i0 e i : holds i0 e i -> let '(fds, hs, ms) := held i0 in let left := kept (output_buffer_list_ e) in
  held (TrackEncoder_delete e i) = (fds ∪ fds_of left, hs ∪ handles_of (fd_ion_handle_map_ e) left, ms).
Proof.
  unfold holds. destruct (held i0) as [[fds hs] ms]. intros (Hi & Hb & Hf & Hh & Hm & _ & Hn). unfold TrackEncoder_delete.
  rewrite (release_all _ _ _ _ _ _ Hb Hi). pose proof (fds_apart (output_buffer_list_ e)) as Ha.
  pose proof (handles_apart _ _ Hn) as Hha. rewrite (fds_kept (output_buffer_list_ e)) in Hf |- *.
  rewrite (handles_kept (fd_ion_handle_map_ e) (output_buffer_list_ e)) in Hh |- *.
  f_equal; [f_equal|]; [clear -Hf Ha|clear -Hh Hha|clear -Hm]; set_solver.
Qed.

Lemma alloc_output_law size i0 i b h fds hs ms : alloc_output size i0 = (inr (b, h), i) -> held i0 = (fds, hs, ms) ->
  0 <= Buffer.fd b /\ 0 < Buffer.data b /\ (Buffer.fd b ∉ fds) /\ (Buffer.data b ∉ ms) /\
  (if ion_is_legacy then exists k, h = Some k /\ (k ∉ hs) /\
     held i = ({[Buffer.fd b]} ∪ fds, {[k]} ∪ hs, {[Buffer.data b]} ∪ ms)
   else h = None /\ held i = ({[Buffer.fd b]} ∪ fds, hs, {[Buffer.data b]} ∪ ms)).
Proof.
  intros Ha Hi. unfold alloc_output in Ha. destruct ion_is_legacy; simpl in Ha.
  - destruct (ion_alloc size i0) as [[r k] i1] eqn:Eal. pose proof (alloc_law _ _ _ _ _ Eal) as Hal. rewrite Hi in Hal.
    destruct (r =? 0); simpl in Ha; [|done]. destruct Hal as [Hk Hal].
    destruct (ion_share k i1) as [[r2 fd] i2] eqn:Esh. pose proof (share_law _ _ _ _ _ Esh) as Hsh. rewrite Hal in Hsh.
    destruct (r2 =? 0); simpl in Ha; [|done]. destruct Hsh as (Hp & Hfd & Hsh).
    destruct (ion_mmap fd size i2) as [[a|] i3] eqn:Emm; [|done]. pose proof (mmap_law _ _ _ _ _ Emm) as Hmm. rewrite Hsh in Hmm.
    injection Ha as <- <- <-. destruct Hmm as (Hp2 & Hm & Hmm). simpl. split_and!; try done. by exists k.
  - destruct (ion_alloc_fd size i0) as [[r fd] i1] eqn:Eal. pose proof (alloc_fd_law _ _ _ _ _ Eal) as Hal. rewrite Hi in Hal.
    destruct (r =? 0); simpl in Ha; [|done]. destruct Hal as (Hp & Hfd & Hal).
    destruct (ion_mmap fd size i1) as [[a|] i3] eqn:Emm; [|done]. pose proof (mmap_law _ _ _ _ _ Emm) as Hmm. rewrite Hal in Hmm.
    injection Ha as <- <- <-. destruct Hmm as (Hp2 & Hm & Hmm). simpl. by split_and!.
Qed.

Lemma alloc_output_error size i0 i err : alloc_output size i0 = (inl err, i) -> err <> 0.
Proof.
  unfold alloc_output. destruct (held i0) as [[fds hs] ms] eqn:Hi. destruct ion_is_legacy; simpl.
  - destruct (ion_alloc size i0) as [[r k] i1] eqn:Eal. pose proof (alloc_law _ _ _ _ _ Eal) as Hal. rewrite Hi in Hal.
    destruct (r =? 0); simpl; [|by intros [= <- _]; apply Hal]. destruct Hal as [Hk Hal].
    destruct (ion_share k i1) as [[r2 fd] i2] eqn:Esh. pose proof (share_law _ _ _ _ _ Esh) as Hsh. rewrite Hal in Hsh.
    destruct (r2 =? 0); simpl; [|by intros [= <- _]]. destruct Hsh as (Hp & Hfd & Hsh).
    destruct (ion_mmap fd size i2) as [[a|] i3] eqn:Emm; [done|]. pose proof (mmap_law _ _ _ _ _ Emm) as Hmm. rewrite Hsh in Hmm.
    by intros [= <- _].
  - destruct (ion_alloc_fd size i0) as [[r fd] i1] eqn:Eal. pose proof (alloc_fd_law _ _ _ _ _ Eal) as Hal. rewrite Hi in Hal.
    destruct (r =? 0); simpl; [|by intros [= <- _]; apply Hal]. destruct Hal as (Hp & Hfd & Hal).
    destruct (ion_mmap fd size i1) as [[a|] i3] eqn:Emm; [done|]. pose proof (mmap_law _ _ _ _ _ Emm) as Hmm. rewrite Hal in Hmm.
    by intros [= <- _].
Qed.

(** One more buffer. *)
Lemma holds_more size i0 e i b h i' : holds i0 e i -> alloc_output size i = (inr (b, h), i') ->
  holds i0 (e <| fd_ion_handle_map_ := keep_handle b h (fd_ion_handle_map_ e) |> <| output_buffer_list_ := output_buffer_list_ e ++ [b] |>) i'.
Proof.
  unfold holds. destruct (held i0) as [[fds hs] ms]. intros (Hi & Hb & Hf & Hh & Hm & Hd & Hn) Ha.
  destruct (alloc_output_law _ _ _ _ _ _ _ _ Ha Hi) as (Hpf & Hpd & Hnf & Hnd & Hl). simpl.
  assert (fds_of (output_buffer_list_ e ++ [b]) = {[Buffer.fd b]} ∪ fds_of (output_buffer_list_ e)) as -> by
    (unfold fds_of; rewrite fmap_app, list_to_set_app_L; simpl; set_solver).
  assert (maps_of (output_buffer_list_ e ++ [b]) = {[Buffer.data b]} ∪ maps_of (output_buffer_list_ e)) as -> by
    (unfold maps_of; rewrite fmap_app, list_to_set_app_L; simpl; set_solver).
  assert (fd_ion_handle_map_ e !! Buffer.fd b = None) as Hno by (apply not_elem_of_dom; set_solver).
  assert (Forall (fun b => 0 <= Buffer.fd b /\ 0 < Buffer.data b) (output_buffer_list_ e ++ [b])) as Hall by
    (apply Forall_app; split; [done|by constructor]).
  unfold handles_of in *. destruct ion_is_legacy.
  - destruct Hl as (k & -> & Hk & Hi'). unfold keep_handle. rewrite Hno, bool_decide_eq_false_2 by by intros [? ?].
    assert (handle_in (<[Buffer.fd b:=k]> (fd_ion_handle_map_ e)) <$> output_buffer_list_ e = handle_in (fd_ion_handle_map_ e) <$> output_buffer_list_ e) as He.
    { apply list_fmap_ext. intros j x Hx. unfold handle_in. rewrite lookup_insert_ne; [done|]. intros Heq. apply Hnf. rewrite Heq.
      apply elem_of_union_r. unfold fds_of. rewrite elem_of_list_to_set. apply list_elem_of_fmap_2. by apply (list_elem_of_lookup_2 _ j). }
    assert (true = true -> NoDup ((handle_in (fd_ion_handle_map_ e) <$> output_buffer_list_ e) ++ [handle_in (<[Buffer.fd b:=k]> (fd_ion_handle_map_ e)) b])) as Hnew.
    { intros _. apply NoDup_app. split; [by apply Hn|]. split; [|apply NoDup_singleton].
      intros x Hx ->%list_elem_of_singleton. apply Hk, elem_of_union_r, elem_of_list_to_set. 
      assert (handle_in (<[Buffer.fd b:=k]> (fd_ion_handle_map_ e)) b = k) as Hbk by (unfold handle_in; by rewrite lookup_insert_eq). by rewrite Hbk in Hx. }
    clear Hn. rewrite fmap_app, list_to_set_app_L, He. simpl. unfold handle_in at 2 4. rewrite lookup_insert. rewrite decide_True by done. simpl.
    rewrite dom_insert_L. clear He Hno. revert Hi' Hf Hh Hm Hd Hnf Hnd Hk. generalize (list_to_set (C := gset Z) (handle_in (fd_ion_handle_map_ e) <$> output_buffer_list_ e)).
    generalize (fds_of (output_buffer_list_ e)), (maps_of (output_buffer_list_ e)), (dom (fd_ion_handle_map_ e)).
    intros F P D Q Hi' Hf Hh Hm Hd Hnf Hnd Hk. rewrite Hi'. clear Hi' H H0 laws Ha Hi Hb.
    split_and!; [f_equal; [f_equal|]; clear; set_solver|exact Hall|clear -Hf Hnf; set_solver|clear -Hh Hk; set_solver|clear -Hm Hnd; set_solver|
      clear -Hd; set_solver|exact Hnew].
  - destruct Hl as [-> Hi']. simpl. rewrite Hi'. clear Hno Hi Hi'. revert Hf Hm Hd Hnf Hnd.
    generalize (fds_of (output_buffer_list_ e)), (maps_of (output_buffer_list_ e)). intros F P Hf Hm Hd Hnf Hnd.
    split_and!; [f_equal; [f_equal|]; clear; set_solver|exact Hall|clear -Hf Hnf; set_solver|exact Hh|clear -Hm Hnd; set_solver|
      clear -Hd; set_solver|done].
Qed.

Lemma holds_outputs n size i0 (e e' : Encoder) i i' : alloc_outputs n size e i = (NO_ERROR, e', i') -> holds i0 e i -> holds i0 e' i'.
Proof.
  revert e i. induction n as [|n IH]; intros e i; simpl; [by intros [= <- <-]|].
  destruct (alloc_output size i) as [[err|[b h]] i1] eqn:Ea.
  - intros [= -> <- <-]. by destruct (alloc_output_error _ _ _ _ Ea).
  - intros Hs Hh. apply (IH _ _ Hs). by apply (holds_more size i0 e i).
Qed.

Lemma only_holds i0 i e e' : only_codec e e' -> holds i0 e i -> holds i0 e' i.
Proof. by intros [v ->]. Qed.

Lemma init_holds p i r i' (e : Encoder) : TrackEncoder_Init i (TrackEncoder_new p) = Some ((r, i'), e) -> holds i e i'.
Proof.
  intros Hi. unfold TrackEncoder_Init in Hi. rewrite bind_gets in Hi. unfold id in Hi.
  destruct (bind_some _ _ _ _ _ Hi) as ([] & e1 & Hm & Hi1). assert (holds i e1 i) as Hf1.
  { injection Hm as <-. unfold holds. destruct (held i) as [[fds hs] ms]. unfold fds_of, maps_of, handles_of. simpl.
    destruct ion_is_legacy; rewrite ?union_empty_r_L; split_and!; try done; try (intros _; constructor); set_solver. }
  destruct (bind_some _ _ _ _ _ Hi1) as (r2 & e2 & Hc & Hi2). destruct (assert_codec _ _ _ _ Hc) as [_ Ho].
  pose proof (only_holds _ _ _ _ Ho Hf1) as Hf2.
  destruct (bind_some _ _ _ _ _ Hi2) as (r3 & e3 & Hc3 & Hi3). destruct (assert_codec _ _ _ _ Hc3) as [_ Ho3].
  pose proof (only_holds _ _ _ _ Ho3 Hf2) as Hf3.
  destruct (bind_some _ _ _ _ _ Hi3) as ([r4 i4] & e4 & Ha & Hi4). destruct (Z.eqb_spec r4 NO_ERROR) as [->|Hne]; simpl in Hi4; [|done].
  assert (holds i e4 i4) as Hf4.
  { destruct (bind_some _ _ _ _ _ Ha) as ([r1 [c sz]] & e5 & Hc5 & Hr). pose proof (only_holds _ _ _ _ (codec_only _ _ _ _ Hc5) Hf3) as Hf5.
    destruct (negb (r1 =? NO_ERROR)); [done|]. destruct (alloc_outputs _ _ e5 i) as [[r2' e2'] i2'] eqn:Eo. injection Hr as -> <- <-.
    by apply (holds_outputs _ _ _ _ _ _ _ Eo). }
  rewrite bind_gets in Hi4. unfold id in Hi4.
  destruct (bind_some _ _ _ _ _ Hi4) as (r5 & e5 & Hc5 & Hi5). pose proof (only_holds _ _ _ _ (codec_only _ _ _ _ Hc5) Hf4) as Hf5.
  destruct (negb (r5 =? NO_ERROR)); [by injection Hi5 as <- <- <-|].
  destruct (bind_some _ _ _ _ _ Hi5) as (r6 & e6 & Hc6 & Hi6). pose proof (only_holds _ _ _ _ (codec_only _ _ _ _ Hc6) Hf5) as Hf6.
  destruct (negb (r6 =? NO_ERROR)); [by injection Hi6 as <- <- <-|].
  destruct (wait_for _); [|done]. by injection Hi6 as <- <- <-.
Qed.

(** No step allocates or releases memory. *)
Definition same_memory (e e' : Encoder) : Prop :=
  output_buffer_list_ e' = output_buffer_list_ e /\ fd_ion_handle_map_ e' = fd_ion_handle_map_ e.

Lemma to_free_memory p e e' : to_free p e = Some e' -> same_memory e e'.
Proof. unfold to_free. destruct (take_first p _) as [[b rest]|]; [|done]. by intros [= <-]. Qed.

Lemma take_returned_memory bns e : same_memory e (snd (take_returned bns e)).
Proof.
  revert e. induction bns as [|bn bns IH]; intros e; simpl; [done|]. destruct (to_free (has_id bn) e) as [e'|] eqn:Et; [|done].
  destruct (to_free_memory _ _ _ Et) as [Hl Hm]. destruct (IH e') as [Hl2 Hm2]. split; congruence.
Qed.

Lemma only_memory e e' : only_codec e e' -> same_memory e e'.
Proof. by intros [v ->]. Qed.

Lemma step_memory e st e' : encoder_step e st = Some e' -> same_memory e e'.
Proof.
  intros Hs. destruct st; simpl in Hs; unfold state_of in Hs.
  - destruct (TrackEncoder_Start e) as [[r e1]|] eqn:Es; [|done]. injection Hs as <-. destruct (bind_some _ _ _ _ _ Es) as (r1 & e2 & Hs & Hr).
    destruct (assert_codec _ _ _ _ Hs) as [_ [v ->]]. by injection Hr as <- <-.
  - by injection Hs as <-.
  - destruct (assert_ok _ e) as [[r e1]|] eqn:Es; [|done]. injection Hs as <-. destruct (assert_codec _ _ _ _ Es) as [_ Hc]. by apply only_memory.
  - destruct (TrackEncoder_SetParams p e) as [[r e1]|] eqn:Es; [|done]. injection Hs as <-.
    destruct (bind_some _ _ _ _ _ Es) as (r1 & e2 & Hc & Hr). destruct (codec_only _ _ _ _ Hc) as [v ->].
    destruct p; [|by injection Hr as <- <-..]. destruct (wait_for fps); [|done]. by injection Hr as <- <-.
  - destruct (ReleaseHeaders e) as [[r e1]|] eqn:Es; [|done]. injection Hs as <-. by apply only_memory, (codec_only _ _ _ _ Es).
  - destruct (TrackEncoder_Flush e) as [[r e1]|] eqn:Es; [|done]. injection Hs as <-. unfold TrackEncoder_Flush in Es.
    destruct (avcodec_ e) eqn:Ea; [|by injection Es as <- <-]. by apply only_memory, (codec_only _ _ _ _ Es).
  - destruct (output_free_buffer_queue_ e) as [|b rest]; [done|]. by injection Hs as <-.
  - unfold TrackEncoder_ReturnBuffer in Hs. destruct (Buffer.data c =? 0); [done|]. rewrite bind_gets in Hs. unfold id in Hs.
    destruct (eos_atoutput_ e || _).
    + injection Hs as <-. destruct (to_free _ e) eqn:Et; [by apply (to_free_memory _ _ _ Et)|done].
    + revert Hs. unfold NotifyBufferToClient. destruct (has_flag _ _); unfold bind, modify, gets, id, ret; simpl;
        (destruct (is_force_cleanup_ e); [by intros [= <-]|]); (destruct (find _ _); [|done]); by intros [= <-].
  - unfold OnBufferReturnFromClient in Hs. destruct (is_force_cleanup_ e); injection Hs as <-; [done|by apply take_returned_memory].
Qed.

Lemma run_holds i0 i steps (e e' : Encoder) : encoder_run steps e = Some e' -> holds i0 e i -> holds i0 e' i.
Proof.
  revert e. induction steps as [|st steps IH]; intros e; simpl; [by intros [= <-]|].
  destruct (encoder_step e st) as [e1|] eqn:Es; [|done]. intros Hr Hh. apply (IH e1 Hr).
  destruct (step_memory _ _ _ Es) as [Hl Hm]. unfold holds in *. by rewrite Hl, Hm.
Qed.

(** C36. The memory of an encoder that could or could not be set up is
    released when it is destroyed, whatever it has done before: descriptors,
    handles and mappings are what they were, but for a buffer that has got
    descriptor 0, whose descriptor and handle the destructor passes over. *)
Theorem encoder_memory_released (p : VideoTrackParams) (i i' : I) (r : Z) (e e' : Encoder) (steps : list EncoderStep) :
  TrackEncoder_Init i (TrackEncoder_new p) = Some ((r, i'), e) -> encoder_run steps e = Some e' ->
  let '(fds, hs, ms) := held i in let left := kept (output_buffer_list_ e') in
  held (TrackEncoder_delete e' i') = (fds ∪ fds_of left, hs ∪ handles_of (fd_ion_handle_map_ e') left, ms) /\
  (Forall (fun b => Buffer.fd b <> 0) (output_buffer_list_ e') -> held (TrackEncoder_delete e' i') = held i).
Proof.
  intros Hi Hr. pose proof (holds_released i e' i' (run_holds i i' steps e e' Hr (init_holds p i r i' e Hi))) as Hd.
  destruct (held i) as [[fds hs] ms]. split; [exact Hd|]. intros Hz. rewrite Hd.
  assert (kept (output_buffer_list_ e') = []) as ->.
  { clear -Hz. induction Hz as [|b bs Hb _ IH]; [done|]. unfold kept. rewrite filter_cons, decide_False by done. exact IH. }
  unfold fds_of, handles_of. destruct ion_is_legacy; simpl; by rewrite !union_empty_r_L.
Qed.
End Facts.

(** ** The interface to the recorder *)

(** [during] is what the codec's threads and the clients do while a codec
    stops; the device is the one that the service starts with. *)
#[export] Instance encoder_core_ops {V I : Type} `{IAVCodec V} `{IonDevice I} (start : I)
    (during : TrackEncoder (V := V) -> TrackEncoder (V := V)) : EncoderCoreOps (EncoderCore (V := V) (I := I)) := {
  ec_new := EncoderCore_new start;
  ec_AddSource := AddSource;
  ec_StartTrackEncoder := StartTrackEncoder;
  ec_StopTrackEncoder := StopTrackEncoder during;
  ec_SetTrackEncoderParams := SetTrackEncoderParams;
  ec_DeleteTrackEncoder := DeleteTrackEncoder;
  ec_ReturnTrackBuffer := EncoderCore.ReturnTrackBuffer;
  ec_FlushTrack := EncoderCore.FlushTrack
}.

(** ** A codec and a device to compute with *)

Module Demo.

(** A codec that knows whether it holds the source of its output port. *)
#[export] Instance demo_codec : IAVCodec bool := {
  new_AVCodec := false;
  new_JPEGEncoder := false;
  av_ConfigureCodec _ _ := ret NO_ERROR;
  av_GetBufferRequirements _ := ret (NO_ERROR, (9, 5000));
  av_AllocateBuffer port _ := let* b := gets id in do* modify (fun _ => b || (port =? kPortIndexOutput)) in ret NO_ERROR;
  av_RegisterOutputBuffers _ := ret NO_ERROR;
  av_ReleaseBuffer := do* modify (fun _ => false) in ret NO_ERROR;
  av_SetParameters _ := ret NO_ERROR;
  av_StartCodec _ := ret NO_ERROR;
  av_StopCodec _ := ret NO_ERROR;
  av_FlushCodec _ := ret NO_ERROR;
  av_holds_output b := b
}.

Record Device := mkDevice { next : Z; open_fds : gset Z; open_maps : gset Z }.

(** A new number from [least] on, unless it is taken. *)
Definition next_of (least : Z) (used : gset Z) (i : Device) : bool := (least <=? next i) && bool_decide (next i ∉ used).

#[export] Instance demo_ion : IonDevice Device := {
  ion_is_legacy := false;
  ion_open i := (0, i);
  ion_alloc_fd _ i := if next_of 0 (open_fds i) i then ((0, next i), mkDevice (next i + 1) ({[next i]} ∪ open_fds i) (open_maps i))
                      else ((-1, 0), i);
  ion_alloc _ i := ((-1, 0), i);
  ion_share _ i := ((-1, 0), i);
  ion_free _ i := i;
  ion_mmap _ _ i := if next_of 1 (open_maps i) i then (Some (next i), mkDevice (next i + 1) (open_fds i) ({[next i]} ∪ open_maps i))
                    else (None, i);
  ion_munmap a _ i := mkDevice (next i) (open_fds i) (open_maps i ∖ {[a]});
  ion_close_fd fd i := mkDevice (next i) (open_fds i ∖ {[fd]}) (open_maps i);
  ion_close_device _ i := i;
  errno _ := ENOMEM
}.

Lemma next_of_spec least used i : next_of least used i = true -> least <= next i /\ (next i ∉ used).
Proof. unfold next_of. intros Hn. bool_hyps. done. Qed.

#[export] Instance demo_ion_laws : IonLaws (I := Device).
Proof.
  refine {| held i := (open_fds i, ∅ : gset Z, open_maps i) |}; simpl.
  - intros _ i r fd i'. destruct (next_of _ _ i) eqn:En; intros [= <- <- <-]; simpl; [|done]. by destruct (next_of_spec _ _ _ En).
  - by intros _ i r h i' [= <- <- <-].
  - by intros _ i r fd i' [= <- <- <-].
  - intros fd _ i a i'. destruct (next_of _ _ i) eqn:En; intros [= <- <-]; simpl; [|done]. destruct (next_of_spec _ _ _ En). split; [lia|done].
  - intros h i. f_equal. f_equal. set_solver.
  - done.
  - done.
Defined.

Definition demo_params : VideoTrackParams :=
  mkVideoTrack (mkVideoParam 0 1920 1080 (f32_of_Z 30) Video.kAVC false) ExtraParam.ExtraParam_new 7 (1, 1, 1).

Definition demo_device : Device := mkDevice 3 {[1; 2]} ∅.

(** The encoder that [Init] makes. *)
Definition demo_encoder : TrackEncoder (V := bool) :=
  match TrackEncoder_Init demo_device (TrackEncoder_new demo_params) with Some (_, e) => e | None => TrackEncoder_new demo_params end.

Definition demo_steps : list EncoderStep := [EStart; EGetBuffer; EGetBuffer; ESetParams (kFrameRateType (f32_of_Z 1))].

Definition demo_running : TrackEncoder (V := bool) := default demo_encoder (encoder_run demo_steps demo_encoder).

Definition demo_buffers : list Descriptor := output_buffer_list_ demo_encoder.

Definition demo_first : Descriptor := Buffer.mkDescriptor 4 3 0 8192 0 0.

(** The codec has filled the first buffer. *)
Definition demo_filled : Descriptor := Buffer.mkDescriptor 4 3 1200 0 40 kFlagIFrame.

(** The device when the encoder is set up. *)
Definition demo_device' : Device :=
  match TrackEncoder_Init demo_device (TrackEncoder_new (V := bool) demo_params) with Some ((_, i), _) => i | None => demo_device end.

Lemma demo_init : TrackEncoder_Init demo_device (TrackEncoder_new demo_params) = Some ((NO_ERROR, demo_device'), demo_encoder).
Proof. vm_compute. reflexivity. Qed.

Lemma demo_run : encoder_run demo_steps demo_encoder = Some demo_running.
Proof. vm_compute. reflexivity. Qed.

Lemma demo_reached : reached demo_buffers demo_running.
Proof.
  exists demo_params, demo_device, demo_device', demo_encoder, demo_steps.
  split; [exact demo_init|]. split; [reflexivity|exact demo_run].
Qed.

Lemma demo_data_differ : NoDup (Buffer.data <$> demo_buffers).
Proof. apply (bool_decide_unpack _). vm_compute. exact Logic.I. Qed.

Lemma demo_fds_differ : NoDup (Buffer.fd <$> demo_buffers).
Proof. apply (bool_decide_unpack _). vm_compute. exact Logic.I. Qed.

(** The codec has two buffers and returns the first, which goes to the
    client. *)
Definition demo_moves : list EncoderStep := [EStart; EGetBuffer; EGetBuffer; EReturnBuffer demo_filled].

Lemma encoder_buffers_conserved_witness : exists e h,
  held_run demo_moves demo_encoder (mkHolders [] []) = Some (e, h) /\ codec_has h = [6] /\ client_has h = [3] /\
  exists oc ol, output_free_buffer_queue_ e ++ oc ++ ol ≡ₚ demo_buffers /\ Buffer.data <$> oc ≡ₚ [6] /\ Buffer.fd <$> ol ≡ₚ [3].
Proof.
  destruct (held_run demo_moves demo_encoder (mkHolders [] [])) as [[e h]|] eqn:Er; [|vm_compute in Er; discriminate Er].
  exists e, h. split; [reflexivity|].
  destruct (encoder_buffers_conserved demo_params demo_device demo_device' demo_encoder e demo_moves h demo_init demo_data_differ
    demo_fds_differ Er) as (oc & ol & Hp & _ & Hc & Hl & _).
  vm_compute in Er. injection Er as _ <-. split; [reflexivity|]. split; [reflexivity|]. exists oc, ol. split; [exact Hp|]. split; [exact Hc|exact Hl].
Defined.

(** A stop that is forced takes the buffers back without asking: the codec
    is given the one with address 4, which the client still has. *)
Example forced_stop_shares_buffer : exists e, encoder_run (demo_moves ++ [ETakeBack; EGetBuffer; EGetBuffer; EGetBuffer; EGetBuffer;
  EGetBuffer]) demo_encoder = Some e /\ Buffer.data <$> output_occupy_buffer_queue_ e = [8; 10; 12; 14; 4].
Proof. eexists. split; vm_compute; reflexivity. Qed.

Lemma filled_buffer_round_trip_witness : exists e1,
  TrackEncoder_ReturnBuffer demo_filled demo_running = Some (NO_ERROR, e1) /\
  data_cbs e1 = [mkTrackData (mkBnBuffer 3 (-1) 1200 40 4294967295 4294967295 3 16 8192) 16].
Proof.
  destruct (filled_buffer_round_trip demo_buffers demo_running demo_first demo_filled demo_reached demo_data_differ demo_fds_differ)
    as (e1 & He1 & Hc & _).
  - vm_compute. split; congruence.
  - apply list_elem_of_In. vm_compute. left. reflexivity.
  - vm_compute. reflexivity.
  - vm_compute. reflexivity.
  - reflexivity.
  - discriminate.
  - discriminate.
  - exists e1. split; [exact He1|]. rewrite Hc. vm_compute. reflexivity.
Defined.

(** After the end of the stream. *)
Definition demo_ended : TrackEncoder (V := bool) := demo_running <| eos_atoutput_ := true |>.

Lemma quiet_after_eos_witness : exists e', encoder_run [EReturnBuffer demo_filled; EGetBuffer] demo_ended = Some e' /\ data_cbs e' = [].
Proof.
  destruct (encoder_run [EReturnBuffer demo_filled; EGetBuffer] demo_ended) as [e'|] eqn:Er.
  - exists e'. split; [reflexivity|].
    assert (EStart ∉ [EReturnBuffer demo_filled; EGetBuffer]) as Hn by
      (intros Hin; apply list_elem_of_In in Hin; destruct Hin as [Hin|[Hin|[]]]; discriminate).
    assert (eos_atoutput_ demo_ended = true) as He by (vm_compute; reflexivity).
    pose proof (quiet_after_eos [EReturnBuffer demo_filled; EGetBuffer] demo_ended e' Hn He Er) as Hq.
    transitivity (data_cbs demo_ended); [exact Hq|vm_compute; reflexivity].
  - vm_compute in Er. discriminate.
Defined.

(** A device that gives out descriptor 0 first, and an encoder on it. *)
Definition zero_device : Device := mkDevice 0 ∅ ∅.

Definition zero_set_up : Device * TrackEncoder (V := bool) :=
  match TrackEncoder_Init zero_device (TrackEncoder_new demo_params) with
  | Some ((_, i), e) => (i, e)
  | None => (zero_device, TrackEncoder_new demo_params)
  end.

Lemma encoder_memory_released_witness :
  held (TrackEncoder_delete demo_running demo_device') = ({[1; 2]}, ∅, ∅) /\
  held (TrackEncoder_delete zero_set_up.2 zero_set_up.1) = ({[0]}, ∅, ∅).
Proof.
  split.
  - destruct (encoder_memory_released demo_params demo_device demo_device' NO_ERROR demo_encoder demo_running demo_steps demo_init demo_run)
      as [_ Hm].
    transitivity (held demo_device); [|reflexivity]. apply Hm.
    apply (bool_decide_unpack _). vm_compute. exact Logic.I.
  - assert (TrackEncoder_Init zero_device (TrackEncoder_new demo_params) = Some ((NO_ERROR, zero_set_up.1), zero_set_up.2)) as Hi
      by (vm_compute; reflexivity).
    destruct (encoder_memory_released demo_params zero_device zero_set_up.1 NO_ERROR zero_set_up.2 zero_set_up.2 [] Hi eq_refl) as [Hm _].
    transitivity ((∅ : gset Z) ∪ fds_of (kept (output_buffer_list_ zero_set_up.2)), (∅ : gset Z), (∅ : gset Z)).
    + rewrite Hm. vm_compute. reflexivity.
    + vm_compute. reflexivity.
Defined.
End Demo.
