(* ===== verification/SimpleSources.v ===== *)
(** * A camera source and an encoder to try the recorder with

    Instances of the interfaces of [RecorderTypes], small enough to compute
    with: cameras open and close, tracks are registered under their number,
    and nothing else fails.  The metadata is a number. *)

From S2P Require Import Prelude KeyedVector Floats Monitor Memory Stream ExtraParam Track RecorderTypes.
From Stdlib Require Import SpecFloat.

Record SimpleCamera := mkSimpleCamera { sc_opened : gset Z; sc_tracks : kv VideoTrackParams }.

#[export] Instance settable_SimpleCamera : Settable SimpleCamera :=
  {| eta_expand := fun c => mkSimpleCamera (sc_opened c) (sc_tracks c) |}.

Definition simple_track (t : Z) : ST SimpleCamera Z :=
  let* c := gets id in ret (if kv_mem t (sc_tracks c) then NO_ERROR else BAD_VALUE).

Definition simple_camera (cam : Z) : ST SimpleCamera Z :=
  let* c := gets id in ret (if bool_decide (cam ∈ sc_opened c) then NO_ERROR else BAD_VALUE).

Definition simple_open (cam : Z) : ST SimpleCamera Z :=
  let* c := gets id in
  if bool_decide (cam ∈ sc_opened c) then ret BAD_VALUE
  else do* modify (fun c => c <| sc_opened := {[cam]} ∪ sc_opened c |>) in ret NO_ERROR.

Definition simple_close (cam : Z) : ST SimpleCamera Z :=
  do* modify (fun c => c <| sc_opened := sc_opened c ∖ {[cam]} |>) in ret NO_ERROR.

Definition simple_create (t : Z) (p : VideoTrackParams) : ST SimpleCamera Z :=
  do* modify (fun c => c <| sc_tracks := kv_add t p (sc_tracks c) |>) in ret NO_ERROR.

Definition simple_delete (t : Z) : ST SimpleCamera Z :=
  do* modify (fun c => c <| sc_tracks := kv_remove t (sc_tracks c) |>) in ret NO_ERROR.

Definition simple_metadata (cam meta : Z) : ST SimpleCamera (Z * Z) := let* r := simple_camera cam in ret (r, meta).

#[export] Instance simple_camera_ops : CameraSourceOps Z SimpleCamera := {
  cs_new := mkSimpleCamera ∅ [];
  cs_StartCamera cam _ _ _ := simple_open cam;
  cs_StopCamera := simple_close;
  cs_SetFlushCb := simple_camera;
  cs_FlushTrack := simple_track;
  cs_CaptureImage cam _ _ _ := simple_camera cam;
  cs_ConfigImageCapture cam _ _ := simple_camera cam;
  cs_CancelCaptureImage := simple_camera;
  cs_ReturnAllImageCaptureBuffers := simple_camera;
  cs_ReturnImageCaptureBuffer cam _ := simple_camera cam;
  cs_CreateTrackSource := simple_create;
  cs_DeleteTrackSource := simple_delete;
  cs_StartTrackSource := simple_track;
  cs_FlushTrackSource := simple_track;
  cs_StopTrackSource := simple_track;
  cs_PauseTrackSource := simple_track;
  cs_ResumeTrackSource := simple_track;
  cs_ReturnTrackBuffer t _ := simple_track t;
  cs_SetCameraParam cam _ := simple_camera cam;
  cs_GetCameraParam := simple_metadata;
  cs_GetDefaultCaptureParam := simple_metadata;
  cs_GetCameraCharacteristics := simple_metadata;
  cs_UpdateTrackFrameRate t _ := simple_track t;
  cs_EnableFrameRepeat t _ := simple_track t;
  cs_GetTrackSource t c := kv_lookup t (sc_tracks c)
}.

Lemma simple_track_opened t c r c' : simple_track t c = Some (r, c') -> c' = c.
Proof. unfold simple_track, bind, gets, ret. by intros [= <- <-]. Qed.

Lemma simple_camera_opened cam c r c' : simple_camera cam c = Some (r, c') ->
  c' = c /\ (cam ∈ sc_opened c -> r = NO_ERROR).
Proof.
  unfold simple_camera, bind, gets, ret, id. intros [= <- <-]. split; [done|]. intros Hin. by rewrite bool_decide_true.
Qed.

#[export] Instance simple_camera_laws : CameraSourceLaws Z SimpleCamera.
Proof.
  refine {| opened := sc_opened |}; simpl; [done|..].
  - intros cam _ _ _ c r c'. unfold simple_open, bind, gets, ret, modify, id. case_bool_decide; intros [= <- <-].
    + by right.
    + by left.
  - intros cam c r c' [= <- <-]. by left.
  - intros cam c r c' [-> Hr]%simple_camera_opened. by split.
  - intros t c r c' Hs.
    destruct Hs as [Hs|[Hs|[Hs|[Hs|[Hs|[Hs|Hs]]]]]]; try by apply simple_track_opened in Hs as ->. by injection Hs as <- <-.
  - by intros t p c r c' [= <- <-].
  - by intros t bs c r c' ->%simple_track_opened.
  - by intros t fps c r c' ->%simple_track_opened.
  - by intros t b c r c' ->%simple_track_opened.
  - by intros cam n m k c r c' [-> _]%simple_camera_opened.
  - by intros cam p x c r c' [-> _]%simple_camera_opened.
  - by intros cam k c r c' [-> _]%simple_camera_opened.
  - by intros cam c r c' [[-> _]%simple_camera_opened|[-> _]%simple_camera_opened].
  - by intros cam m c r c' [-> _]%simple_camera_opened.
  - intros cam m c a c' Hs. assert (simple_metadata cam m c = Some (a, c')) as Hm by (by destruct Hs as [Hs|[Hs|Hs]]).
    unfold simple_metadata, bind in Hm. destruct (simple_camera cam c) as [[r c1]|] eqn:Ec; [|done].
    apply simple_camera_opened in Ec as [-> _]. by injection Hm as <- <-.
Qed.

(** The encoder knows the parameters of its tracks. *)
Definition SimpleEncoder : Type := kv VideoTrackParams.

Definition simple_encoder (t : Z) : ST SimpleEncoder Z :=
  let* e := gets id in ret (if kv_mem t e then NO_ERROR else BAD_VALUE).

#[export] Instance simple_encoder_ops : EncoderCoreOps SimpleEncoder := {
  ec_new := [];
  ec_AddSource t p := do* modify (kv_add t p) in ret NO_ERROR;
  ec_StartTrackEncoder := simple_encoder;
  ec_StopTrackEncoder t _ := simple_encoder t;
  ec_SetTrackEncoderParams t _ := simple_encoder t;
  ec_DeleteTrackEncoder t := do* modify (kv_remove t) in ret NO_ERROR;
  ec_ReturnTrackBuffer t _ := simple_encoder t;
  ec_FlushTrack := simple_encoder
}.

(** The parameter that asks for a camera as a slave. *)
Definition slave_param : ExtraParam :=
  match Update QMMF_CAMERA_SLAVE_MODE (bytes32 QMMF_CAMERA_SLAVE_MODE ++ bytes32 kSlave) 0 ExtraParam_new with
  | Some (_, x) => x
  | None => ExtraParam_new
  end.

Definition one_video : VideoTrackCreateParam := mkVideoParam 0 1920 1080 S754_nan Video.kAVC false.
