(* ===== verification/Thumbnail.v ===== *)
(** * The size of a JPEG image and its thumbnails

    Models [GetJpegSize] and [ParseThumb] of
    recorder/src/service/qmmf_camera_source.cc (without CAMERA_HAL1_SUPPORT):
    how the service reads, in the buffer of a snapshot, the size that the HAL
    has left behind the image, and where the thumbnails of its application
    segments are.  An image is the list of its bytes; a read outside it is
    undefined behaviour. *)

From S2P Require Import Prelude Monitor Memory Stream ExtraParam RecorderTypes.

(** The mark of [camera3_jpeg_blob], and how far from the end of the buffer
    the platform leaves it. *)
Class JpegPlatform := { CAMERA3_JPEG_BLOB_ID : Z; JPEG_BLOB_OFFSET : Z }.

(** [sizeof(camera3_jpeg_blob)]: 16 bits, padding, 32 bits. *)
Definition blob_size : Z := 8.

Definition byte_at (img : list Z) (i : Z) : option Z := img !! Z.to_nat i.

Section Jpeg.
Context `{JpegPlatform}.

Definition GetJpegSize (img : list Z) (size : Z) : option Z :=
  if blob_size <? size then
    let offset := u32 (size - blob_size - JPEG_BLOB_OFFSET) in
    match byte_at img offset, byte_at img (offset + 1), load32 img (offset + 4) with
    | Some lo, Some hi, Some jpeg_size => Some (if lo + 256 * hi =? CAMERA3_JPEG_BLOB_ID then jpeg_size else size)
    | _, _, _ => None
    end
  else Some size.
End Jpeg.

(** ** Thumbnails *)

Definition TAG : Z := 255.
Definition SOI : Z := 216.
Definition EOI : Z := 217.
Definition APP1 : Z := 225.
Definition APP2 : Z := 226.
Definition MAX_PLANE : nat := 8.

(** A plane: its offset and size. *)
Abbreviation Plane := (Z * Z)%type.

Inductive Parsed :=
| Planes (ps : list Plane)
| BadThumb
| OutOfBounds.

(** The length of the segment whose marker is at [i]. *)
Definition segment_length (img : list Z) (i : Z) : option Z :=
  match byte_at img (i + 2), byte_at img (i + 3) with Some a, Some b => Some (256 * a + b) | _, _ => None end.

Definition is_marker (img : list Z) (i m : Z) : option bool :=
  match byte_at img i with
  | None => None
  | Some a => if a =? TAG then match byte_at img (i + 1) with None => None | Some b => Some (b =? m) end else Some false
  end.

(** The pieces of a thumbnail, one per segment, from the one of [w_size]
    bytes at [i] on.  [room]: how many planes fit.  The answer is the index
    behind the thumbnail and the planes. *)
Fixpoint pieces (room : nat) (img : list Z) (size i w_size : Z) (ps : list Plane) : Parsed + Z * list Plane :=
  match room with
  | O => inl BadThumb
  | S room' =>
      let ps' := ps ++ [(i, w_size)] in
      let e := u32 (i + w_size) in
      match byte_at img (u32 (e - 2)) with
      | None => inl OutOfBounds
      | Some a =>
          match (if a =? TAG then option_map (Z.eqb EOI) (byte_at img (u32 (e - 1))) else Some false) with
          | None => inl OutOfBounds
          | Some true => inr (e, ps')
          | Some false =>
              if u32 (e + 4) <? size then
                match is_marker img e APP2 with
                | None => inl OutOfBounds
                | Some false => inl BadThumb
                | Some true =>
                    match segment_length img e with
                    | None => inl OutOfBounds
                    | Some len =>
                        let start := u32 (e + 2) in
                        let i' := u32 (start + 2) in
                        pieces room' img size i' (u32 (u32 (start + len) - i')) ps'
                    end
                end
              else inl BadThumb
          end
      end
  end.

(** The main image is what is behind the last thumbnail. *)
Definition main_image (size : Z) (ps : list Plane) : list Plane :=
  match ps with
  | _ :: (_ :: _) as rest =>
      let '(o, n) := List.last rest (0, 0) in
      let first := u32 (o + n) in
      (first, u32 (size - first)) :: rest
  | _ => ps
  end.

(** The loop over the image, at [i]: [block_size] and [block_end] are those
    of the last application segment.  [None]: the fuel is used up. *)
Fixpoint parse (fuel : nat) (img : list Z) (size i block_size block_end thumbs : Z) (ps : list Plane) : option Parsed :=
  if negb (i <? u32 (size - 1)) then Some (Planes (main_image size ps))
  else
    match fuel with
    | O => None
    | S fuel' =>
        match byte_at img i with
        | None => Some OutOfBounds
        | Some a =>
            if negb (a =? TAG) then parse fuel' img size (u32 (i + 1)) block_size block_end thumbs ps
            else
              match byte_at img (i + 1) with
              | None => Some OutOfBounds
              | Some b =>
                  if (b =? APP1) || (b =? APP2) then
                    if u32 (size - 4) <=? i then Some (Planes (main_image size ps))
                    else
                      match segment_length img i with
                      | None => Some OutOfBounds
                      | Some len => parse fuel' img size (u32 (i + 4)) len (u32 (i + 2 + len)) thumbs ps
                      end
                  else if (b =? SOI) && negb (block_size =? 0) then
                    let w_size := u32 (block_end - i) in
                    if size <? u32 (i + w_size) then Some (Planes (main_image size ps))
                    else
                      match pieces (MAX_PLANE - length ps) img size i w_size ps with
                      | inl p => Some p
                      | inr (e, ps') =>
                          if 1 <? thumbs + 1 then Some (Planes (main_image size ps'))
                          else parse fuel' img size e 0 0 (thumbs + 1) ps'
                      end
                  else parse fuel' img size (u32 (i + 1)) block_size block_end thumbs ps
              end
        end
    end.

(** Every turn of the loop moves on, except behind the first thumbnail.
    Without any bytes the last index wraps around, and the loop runs behind
    the image. *)
Definition ParseThumb (img : list Z) (size : Z) : option Parsed :=
  parse (Z.to_nat (2 * size + 2) + length img) img size 0 0 0 0 [(0, size)].
