(* ===== verification/ThumbnailFacts.v ===== *)
(** * Finding the thumbnail of an image

    Theorems about [ParseThumb]: the scan ends, it finds the thumbnail of a
    well-formed image and the main image behind it, and it trusts the length
    of the second segment of a thumbnail. *)

From S2P Require Import Prelude Monitor Memory Stream ExtraParam RecorderTypes Thumbnail.

(** ** The scan ends *)

Lemma u32_nonneg z : 0 <= u32 z.
Proof. unfold u32, UINT32_MOD. apply Z.mod_pos_bound. lia. Qed.

(** The test of the loop. *)
Lemma loop_on size i : i < size - 1 -> 0 < size < UINT32_MOD -> (i <? u32 (size - 1)) = true.
Proof. intros Hi Hs. rewrite u32_small by (unfold is_u32; lia). by apply Z.ltb_lt. Qed.

Lemma loop_over size i : size - 1 <= i -> 0 < size < UINT32_MOD -> (i <? u32 (size - 1)) = false.
Proof. intros Hi Hs. rewrite u32_small by (unfold is_u32; lia). by apply Z.ltb_ge. Qed.

(** What is left to scan, in turns of the loop. *)
Definition turns (size i thumbs : Z) : Z := Z.max 0 (size - i) + if thumbs =? 0 then size + 1 else 0.

Lemma segment_step size i : 0 <= i < size - 1 -> size < UINT32_MOD -> (u32 (size - 4) <=? i) = false -> u32 (i + 4) = i + 4.
Proof.
  intros Hi Hs Hlt. apply Z.leb_gt in Hlt. apply u32_small. unfold is_u32.
  destruct (Z.le_gt_cases 4 size); [|unfold UINT32_MOD in *; lia]. rewrite u32_small in Hlt by (unfold is_u32; lia). lia.
Qed.

Lemma parse_ends img size : 0 < size < UINT32_MOD -> forall fuel i bs be thumbs ps,
  0 <= i -> 0 <= thumbs -> turns size i thumbs <= Z.of_nat fuel -> parse fuel img size i bs be thumbs ps <> None.
Proof.
  intros Hsize fuel. induction fuel as [|fuel IH]; intros i bs be thumbs ps Hi Ht Hf.
  - simpl. rewrite (u32_small (size - 1)) by (unfold is_u32; lia). destruct (Z.ltb_spec i (size - 1)); [|done].
    unfold turns in Hf. case_match; lia.
  - simpl. rewrite (u32_small (size - 1)) by (unfold is_u32; lia). destruct (Z.ltb_spec i (size - 1)); [|done]. cbn [negb].
    assert (forall j bs' be' ps', i < j -> parse fuel img size j bs' be' thumbs ps' <> None) as Hnext.
    { intros j bs' be' ps' Hj. apply IH; [lia|done|]. unfold turns in *. lia. }
    assert (u32 (i + 1) = i + 1) as H1 by (apply u32_small; unfold is_u32; lia).
    destruct (byte_at img i) as [a|]; [|done]. destruct (a =? TAG); cbn [negb]; [|apply Hnext; lia].
    destruct (byte_at img (i + 1)) as [b|]; [|done]. destruct ((b =? APP1) || (b =? APP2)).
    { destruct (u32 (size - 4) <=? i) eqn:E4; [done|]. destruct (segment_length img i); [|done].
      apply Hnext. rewrite (segment_step size i) by (lia || done). lia. }
    destruct ((b =? SOI) && negb (bs =? 0)); [|apply Hnext; lia].
    destruct (size <? _); [done|]. destruct (pieces _ _ _ _ _ _) as [p|[e ps']] eqn:Ep; [done|].
    destruct (Z.ltb_spec 1 (thumbs + 1)); [done|]. assert (thumbs = 0) as -> by lia.
    assert (0 <= e) as He.
    { clear -Ep. revert Ep. generalize (u32 (be - i)). generalize (MAX_PLANE - length ps)%nat. intros room. revert i ps.
      induction room as [|room IHr]; intros i ps w; simpl; [done|]. destruct (byte_at _ _); [|done].
      destruct (if _ =? TAG then _ else _) as [[]|]; [intros [= <- _]; apply u32_nonneg| |done].
      destruct (u32 _ <? size); [|done]. destruct (is_marker _ _ _) as [[]|]; try done. destruct (segment_length _ _); [|done]. apply IHr. }
    apply IH; [done|lia|]. unfold turns in *. simpl in *. lia.
Qed.

(** The search for thumbnails ends for every image of at least one byte,
    whatever its bytes: it goes back at most once, behind the first
    thumbnail. *)
Theorem ParseThumb_ends (img : list Z) (size : Z) : 0 < size < UINT32_MOD -> ParseThumb img size <> None.
Proof.
  intros Hs. apply parse_ends; [done|lia|lia|]. unfold turns. simpl. lia.
Qed.

(** ** Images piece by piece *)

(** The number of bytes of a piece. *)
Abbreviation len l := (Z.of_nat (length l)).

Lemma byte_behind (pre post : list Z) x k : k = len pre -> byte_at (pre ++ x :: post) k = Some x.
Proof. intros ->. unfold byte_at. rewrite Nat2Z.id. by rewrite list_lookup_middle. Qed.

(** A byte of an image that is given in pieces. *)
Ltac byte_in pre := rewrite (byte_behind pre) by (rewrite ?length_app; simpl; lia).

(** Lengths of pieces. *)
Ltac lens := repeat (rewrite ?length_app in *; simpl in * ); lia.

(** Bytes that the scan passes: none of the markers that it looks for begins
    among them.  A start marker is looked for only after a segment. *)
Definition sought (start : bool) (b : Z) : bool := (b =? APP1) || (b =? APP2) || (start && (b =? SOI)).

Fixpoint quiet (start : bool) (l : list Z) : bool :=
  match l with
  | a :: (b :: _) as l' => negb ((a =? TAG) && sought start b) && quiet start l'
  | _ => true
  end.

Lemma quiet_turn pre x y post fuel bs be th ps img : img = pre ++ x :: y :: post -> len img < UINT32_MOD ->
  negb ((x =? TAG) && sought (negb (bs =? 0)) y) = true ->
  parse (S fuel) img (len img) (len pre) bs be th ps = parse fuel img (len img) (len pre + 1) bs be th ps.
Proof.
  intros Himg Hlen Hq. assert (len img = len pre + 2 + len post) as Hl by (rewrite Himg; lens).
  simpl parse. rewrite loop_on by lia. cbn [negb]. rewrite (u32_small (len pre + 1)) by (unfold is_u32; lia).
  rewrite Himg at 1. rewrite (byte_behind pre) by done. destruct (x =? TAG); [|done]. cbn [negb andb] in *.
  assert (byte_at img (len pre + 1) = Some y) as ->.
  { rewrite Himg. replace (pre ++ x :: y :: post) with ((pre ++ [x]) ++ y :: post) by (by rewrite <- app_assoc).
    apply byte_behind. lens. }
  unfold sought in Hq. destruct ((y =? APP1) || (y =? APP2)); [done|]. simpl in Hq. rewrite andb_comm in Hq.
  by destruct ((y =? SOI) && negb (bs =? 0)).
Qed.

Lemma skip_quiet q : forall pre h post fuel bs be th ps, quiet (negb (bs =? 0)) (q ++ [h]) = true ->
  len (pre ++ q ++ h :: post) < UINT32_MOD ->
  parse (length q + fuel) (pre ++ q ++ h :: post) (len (pre ++ q ++ h :: post)) (len pre) bs be th ps =
  parse fuel (pre ++ q ++ h :: post) (len (pre ++ q ++ h :: post)) (len (pre ++ q)) bs be th ps.
Proof.
  induction q as [|x q IH]; intros pre h post fuel bs be th ps Hq Hlen; [by rewrite app_nil_r|].
  assert (exists y tl, (q ++ h :: post) = y :: tl /\ negb ((x =? TAG) && sought (negb (bs =? 0)) y) = true /\
    quiet (negb (bs =? 0)) (q ++ [h]) = true) as (y & tl & Htl & Hx & Hq').
  { destruct q as [|z q]; simpl in Hq; apply andb_true_iff in Hq as [? ?]; [by exists h, post|by exists z, (q ++ h :: post)]. }
  simpl (length (x :: q) + fuel)%nat. rewrite (quiet_turn pre x y tl) by (done || by rewrite <- Htl).
  specialize (IH (pre ++ [x]) h post fuel bs be th ps Hq').
  assert (forall tl : list Z, (pre ++ [x]) ++ tl = pre ++ x :: tl) as Heq by (intros tl'; by rewrite <- app_assoc).
  rewrite !Heq in IH. replace (len (pre ++ [x])) with (len pre + 1) in IH by lens.
  by apply IH.
Qed.

Lemma quiet_end rest : forall pre fuel bs be th ps, quiet (negb (bs =? 0)) rest = true -> pre <> [] -> len (pre ++ rest) < UINT32_MOD ->
  parse (length rest + fuel) (pre ++ rest) (len (pre ++ rest)) (len pre) bs be th ps =
  Some (Planes (main_image (len (pre ++ rest)) ps)).
Proof.
  induction rest as [|x q IH]; intros pre fuel bs be th ps Hq Hpre Hlen; assert (0 < len pre) as Hp by (destruct pre; [done|simpl; lia]).
  - rewrite app_nil_r in *. destruct fuel; simpl; rewrite loop_over by lia; done.
  - destruct q as [|y q].
    + simpl (length [x] + fuel)%nat. simpl parse. by rewrite loop_over by lens.
    + simpl in Hq. apply andb_true_iff in Hq as [Hx Hq]. simpl (length (x :: y :: q) + fuel)%nat.
      rewrite (quiet_turn pre x y q) by done. specialize (IH (pre ++ [x]) fuel bs be th ps Hq ltac:(by destruct pre)).
      assert (forall tl : list Z, (pre ++ [x]) ++ tl = pre ++ x :: tl) as Heq by (intros tl; by rewrite <- app_assoc).
      rewrite !Heq in IH. replace (len (pre ++ [x])) with (len pre + 1) in IH by lens. by apply IH.
Qed.

(** An application segment at the start of what is left. *)
Lemma segment_turn pre m hi lo post fuel bs be th ps img : img = pre ++ TAG :: m :: hi :: lo :: post -> m = APP1 \/ m = APP2 ->
  len img < UINT32_MOD -> post <> [] ->
  parse (S fuel) img (len img) (len pre) bs be th ps =
  parse fuel img (len img) (len pre + 4) (256 * hi + lo) (u32 (len pre + 2 + (256 * hi + lo))) th ps.
Proof.
  intros Himg Hm Hlen Hpost. assert (0 < len post) as Hp by (destruct post; [done|simpl; lia]).
  assert (len img = len pre + 4 + len post) as Hl by (rewrite Himg; lens).
  simpl parse. rewrite loop_on by lia. cbn [negb]. rewrite Himg at 1. rewrite (byte_behind pre) by done. rewrite Z.eqb_refl. cbn [negb].
  assert (forall k y tl l, img = (pre ++ l) ++ y :: tl -> k = len pre + len l -> byte_at img k = Some y) as Hb.
  { intros k y tl l -> ->. apply byte_behind. rewrite length_app. lia. }
  rewrite (Hb (len pre + 1) m (hi :: lo :: post) [TAG]) by (rewrite ?Himg, <- ?app_assoc; simpl; done || lia).
  replace ((m =? APP1) || (m =? APP2)) with true by (by destruct Hm as [->| ->]).
  rewrite (u32_small (len img - 4)) by (unfold is_u32; lia). rewrite (proj2 (Z.leb_gt _ _)) by lia.
  unfold segment_length. rewrite (Hb (len pre + 2) hi (lo :: post) [TAG; m]) by (rewrite ?Himg, <- ?app_assoc; simpl; done || lia).
  rewrite (Hb (len pre + 3) lo post [TAG; m; hi]) by (rewrite ?Himg, <- ?app_assoc; simpl; done || lia).
  by rewrite u32_small by (unfold is_u32; lia).
Qed.

(** A marker that begins after quiet bytes. *)
Lemma quiet_before_tag start l : quiet start l = true -> quiet start (l ++ [TAG]) = true.
Proof.
  induction l as [|x l IH]; [done|]. destruct l as [|y l].
  - intros _. simpl. unfold sought. by destruct (x =? TAG), start.
  - intros [Hx Hl]%andb_true_iff. change ((x :: y :: l) ++ [TAG]) with (x :: (y :: l) ++ [TAG]). simpl. rewrite Hx. by apply IH.
Qed.

(** ** One thumbnail *)

(** The start marker of a thumbnail inside a segment that ends within the
    image: the pieces are looked for from there. *)
Lemma start_turn pre post fuel bs e th ps img : img = pre ++ TAG :: SOI :: post -> len img < UINT32_MOD -> post <> [] -> bs <> 0 ->
  len pre <= e <= len img ->
  parse (S fuel) img (len img) (len pre) bs e th ps =
  match pieces (MAX_PLANE - length ps) img (len img) (len pre) (e - len pre) ps with
  | inl p => Some p
  | inr (e', ps') => if 1 <? th + 1 then Some (Planes (main_image (len img) ps')) else parse fuel img (len img) e' 0 0 (th + 1) ps'
  end.
Proof.
  intros Himg Hlen Hpost Hbs He. assert (0 < len post) as Hp by (destruct post; [done|simpl; lia]).
  assert (len img = len pre + 2 + len post) as Hl by (rewrite Himg; lens).
  simpl parse. rewrite loop_on by lia. cbn [negb]. rewrite Himg at 1. rewrite (byte_behind pre) by done. rewrite Z.eqb_refl. cbn [negb].
  assert (byte_at img (len pre + 1) = Some SOI) as ->.
  { rewrite Himg. replace (pre ++ TAG :: SOI :: post) with ((pre ++ [TAG]) ++ SOI :: post) by (by rewrite <- app_assoc).
    apply byte_behind. lens. }
  simpl orb. cbv iota. rewrite Z.eqb_refl, (proj2 (Z.eqb_neq bs 0)) by done. cbn [negb andb].
  rewrite (u32_small (e - len pre)) by (unfold is_u32; lia). replace (len pre + (e - len pre)) with e by lia.
  rewrite (u32_small e) by (unfold is_u32; lia). by rewrite (proj2 (Z.ltb_ge _ _)) by lia.
Qed.

(** The bytes of a plane at the end of which the end marker is. *)
Lemma last_piece img pre body rest ps room : img = pre ++ [TAG; SOI] ++ body ++ [TAG; EOI] ++ rest -> len img < UINT32_MOD ->
  pieces (S room) img (len img) (len pre) (4 + len body) ps = inr (len pre + (4 + len body), ps ++ [(len pre, 4 + len body)]).
Proof.
  intros Himg Hlen. assert (len img = len pre + 4 + len body + len rest) as Hl by (rewrite Himg; lens).
  simpl pieces. rewrite !(u32_small (len pre + (4 + len body))) by (unfold is_u32; lia).
  rewrite !(u32_small (len pre + (4 + len body) - _)) by (unfold is_u32; lia).
  assert (img = (pre ++ [TAG; SOI] ++ body) ++ TAG :: EOI :: rest) as Himg1 by (by rewrite Himg, <- !app_assoc).
  assert (img = (pre ++ [TAG; SOI] ++ body ++ [TAG]) ++ EOI :: rest) as Himg2 by (by rewrite Himg, <- !app_assoc).
  rewrite Himg1 at 1. rewrite byte_behind by lens. rewrite Z.eqb_refl. rewrite Himg2 at 1. rewrite byte_behind by lens. done.
Qed.

(** The image of a camera: its own start marker and other segments, an
    application segment with a thumbnail at its end, and the rest. *)
Definition image_with_thumbnail (head : list Z) (m hi lo : Z) (mid body rest : list Z) : list Z :=
  head ++ [TAG; m; hi; lo] ++ mid ++ [TAG; SOI] ++ body ++ [TAG; EOI] ++ rest.

(** C34. The thumbnail of an image is found.  In an image with one segment
    of kind APP1 or APP2 that reaches to the end of the thumbnail, the planes
    are the main image, from behind the thumbnail to the end, and the
    thumbnail with its two markers, whatever bytes it has between them.  What
    comes before the segment and after the thumbnail may be any bytes, start
    and end markers, tables and stuffed scan data among them, that do not
    spell an APP1 or APP2 marker; the segment before the thumbnail has no
    start marker either. *)
Theorem thumbnail_found (head : list Z) (m hi lo : Z) (mid body rest : list Z) :
  let img := image_with_thumbnail head m hi lo mid body rest in
  m = APP1 \/ m = APP2 -> quiet false head = true -> quiet true mid = true -> quiet false rest = true ->
  256 * hi + lo = len mid + len body + 6 -> len img < UINT32_MOD ->
  let first := len head + 4 + len mid in let size := 4 + len body in
  ParseThumb img (len img) = Some (Planes [(first + size, len rest); (first, size)]).
Proof.
  intros img Hm Hhead Hmid Hrest Hlen Hmax first size.
  assert (len img = len head + 8 + len mid + len body + len rest) as Hl by (unfold img, image_with_thumbnail; lens).
  unfold ParseThumb. set (f := (3 * length img - length head - length mid - length rest)%nat).
  replace (Z.to_nat (2 * len img + 2) + length img)%nat with (length head + S (length mid + S (length rest + f)))%nat by (unfold f; lia).
  rewrite (skip_quiet head [] TAG ([m; hi; lo] ++ mid ++ [TAG; SOI] ++ body ++ [TAG; EOI] ++ rest) _ 0) by
    (done || by apply quiet_before_tag).
  change ([] ++ head ++ TAG :: _) with img. change ([] ++ head) with head.
  rewrite (segment_turn head m hi lo (mid ++ [TAG; SOI] ++ body ++ [TAG; EOI] ++ rest)) by (done || by destruct mid).
  set (pre := head ++ [TAG; m; hi; lo]). set (post := [SOI] ++ body ++ [TAG; EOI] ++ rest).
  assert (img = pre ++ mid ++ TAG :: post) as Himg by (unfold img, image_with_thumbnail, pre, post; by rewrite <- !app_assoc).
  replace (len head + 4) with (len pre) by (unfold pre; lens). rewrite Himg.
  rewrite (skip_quiet mid pre TAG post); [|apply quiet_before_tag; by rewrite (proj2 (Z.eqb_neq _ _)) by lia|by rewrite <- Himg].
  rewrite <- Himg. assert (len (pre ++ mid) = first) as Hfirst by (unfold first, pre; lens).
  replace (u32 _) with (first + size) by (rewrite u32_small by (unfold is_u32; lia); unfold first, size; lia).
  rewrite (start_turn (pre ++ mid) (body ++ [TAG; EOI] ++ rest)); [|by rewrite Himg; unfold post; rewrite <- app_assoc|done|by destruct body|lia|].
  2:{ unfold first, size, pre. lens. }
  replace (first + size - len (pre ++ mid)) with size by lia. assert (forall x : Plane, (MAX_PLANE - length [x])%nat = S 6) as Hroom by done. rewrite Hroom.
  change size with (4 + len body).
  rewrite (last_piece _ (pre ++ mid) body rest) by (done || by rewrite Himg; unfold post; rewrite <- app_assoc). change (1 <? 0 + 1) with false. cbv iota.
  assert (img = (pre ++ mid ++ [TAG; SOI] ++ body ++ [TAG; EOI]) ++ rest) as Heq by (rewrite Himg; unfold post; by rewrite <- !app_assoc).
  rewrite Heq. replace (len (pre ++ mid) + (4 + len body)) with (len (pre ++ mid ++ [TAG; SOI] ++ body ++ [TAG; EOI])) by lens.
  rewrite quiet_end; [|done|by unfold pre; destruct head|by rewrite <- Heq]. rewrite <- Heq, Hfirst.
  assert (is_u32 (first + (4 + len body))) as Hu by (unfold is_u32, first; clearbody img; lia).
  unfold main_image. cbn [app List.last]. rewrite (u32_small _ Hu). rewrite u32_small by (unfold is_u32, first; clearbody img; lia).
  do 4 f_equal. unfold first. clearbody img. lia.
Qed.

(** ** A thumbnail in two segments *)

(** A thumbnail whose first segment does not end with the end marker and is
    followed by a second one. *)
Definition image_in_segments (hi lo hi2 lo2 y x : Z) (body rest : list Z) : list Z :=
  [TAG; APP1; hi; lo] ++ [TAG; SOI] ++ body ++ [y; x] ++ [TAG; APP2; hi2; lo2] ++ rest.

Lemma byte_beyond (img : list Z) k : len img <= k -> byte_at img k = None.
Proof. intros Hk. unfold byte_at. apply lookup_ge_None. lia. Qed.

(** The first segment is a piece, and the second one is read past the end. *)
Lemma second_segment img pre hi2 lo2 y x body rest ps room :
  img = pre ++ [TAG; SOI] ++ body ++ [y; x] ++ [TAG; APP2; hi2; lo2] ++ rest -> x <> EOI -> rest <> [] ->
  0 <= 256 * hi2 + lo2 < 65536 -> len img < 2 ^ 31 -> len img <= len pre + 4 + len body + (256 * hi2 + lo2) ->
  pieces (S (S room)) img (len img) (len pre) (4 + len body) ps = inl OutOfBounds.
Proof.
  intros Himg Hx Hrest Hlen2 Hmax Hover. set (len2 := 256 * hi2 + lo2) in *. set (e := len pre + (4 + len body)).
  assert (0 < len rest) as Hp by (destruct rest; [done|simpl; lia]). assert (len img = e + 4 + len rest) as Hl by (unfold e; rewrite Himg; lens).
  assert (forall l z tl, img = l ++ z :: tl -> byte_at img (len l) = Some z) as Hb by (intros l z tl ->; by apply byte_behind).
  assert (byte_at img (e - 2) = Some y) as By.
  { replace (e - 2) with (len (pre ++ [TAG; SOI] ++ body)) by (unfold e; lens). apply (Hb _ y (x :: [TAG; APP2; hi2; lo2] ++ rest)).
    by rewrite Himg, <- !app_assoc. }
  assert (byte_at img (e - 1) = Some x) as Bx.
  { replace (e - 1) with (len (pre ++ [TAG; SOI] ++ body ++ [y])) by (unfold e; lens). apply (Hb _ x ([TAG; APP2; hi2; lo2] ++ rest)).
    by rewrite Himg, <- !app_assoc. }
  assert (forall l z tl k, [TAG; APP2; hi2; lo2] = l ++ z :: tl -> k = len l -> byte_at img (e + k) = Some z) as Be.
  { intros l z tl k Heq ->. replace (e + len l) with (len (pre ++ [TAG; SOI] ++ body ++ [y; x] ++ l)) by (unfold e; lens).
    apply (Hb _ z (tl ++ rest)). rewrite Himg, Heq. by rewrite <- !app_assoc. }
  assert (is_u32 e /\ is_u32 (e + 4) /\ is_u32 (e + 2) /\ is_u32 (e + 2 + len2) /\ is_u32 (e - 1) /\ is_u32 (e - 2) /\
    is_u32 (e + 2 + 2) /\ is_u32 (len2 - 2) /\ is_u32 (e + len2)) as (U1 & U2 & U3 & U4 & U5 & U6 & U7 & U8 & U9)
    by (unfold is_u32, UINT32_MOD; unfold e in *; lia).
  simpl pieces. fold e. rewrite !(u32_small e U1), (u32_small _ U6), By, (u32_small _ U5), Bx. 
  assert (option_map (Z.eqb EOI) (Some x) = Some false) as -> by (unfold option_map; f_equal; apply Z.eqb_neq; congruence).
  assert ((if y =? TAG then Some false else Some false) = Some false) as -> by (by destruct (y =? TAG)).
  rewrite (u32_small _ U2), (proj2 (Z.ltb_lt _ _)) by lia. unfold is_marker, segment_length.
  pose proof (Be [] TAG _ 0 eq_refl eq_refl) as B0. rewrite Z.add_0_r in B0. rewrite B0, (Be [TAG] APP2 _ 1 eq_refl eq_refl).
  rewrite (Be [TAG; APP2] hi2 _ 2 eq_refl eq_refl), (Be [TAG; APP2; hi2] lo2 _ 3 eq_refl eq_refl), !Z.eqb_refl. fold len2. rewrite (u32_small _ U3), (u32_small _ U4), (u32_small _ U7).
  replace (e + 2 + len2 - (e + 2 + 2)) with (len2 - 2) by lia. rewrite (u32_small _ U8).
  replace (e + 2 + 2 + (len2 - 2)) with (e + 2 + len2) by lia. rewrite (u32_small _ U4).
  replace (e + 2 + len2 - 2) with (e + len2) by lia. rewrite (u32_small _ U9), byte_beyond by (unfold e in *; lia). done.
Qed.

(** The length of the second segment of a thumbnail is trusted.  The
    first one is checked against the image; when the second one claims to
    reach to the end of the image or beyond, the search reads behind it. *)
Theorem thumbnail_overread (hi lo hi2 lo2 y x : Z) (body rest : list Z) :
  let img := image_in_segments hi lo hi2 lo2 y x body rest in
  x <> EOI -> rest <> [] -> 256 * hi + lo = len body + 6 -> 0 <= 256 * hi2 + lo2 < 65536 -> len img < 2 ^ 31 ->
  len img <= 8 + len body + (256 * hi2 + lo2) ->
  ParseThumb img (len img) = Some OutOfBounds.
Proof.
  intros img Hx Hrest Hlen1 Hlen2 Hmax Hover.
  assert (len img = 12 + len body + len rest) as Hl by (unfold img, image_in_segments; lens).
  assert (len img < UINT32_MOD) as Hu by (unfold UINT32_MOD; clearbody img; lia).
  unfold ParseThumb. replace (Z.to_nat (2 * len img + 2) + length img)%nat with (S (S (3 * length img))) by (clearbody img; lia).
  change 0 with (len (@nil Z)) at 1.
  rewrite (segment_turn [] APP1 hi lo ([TAG; SOI] ++ body ++ [y; x] ++ [TAG; APP2; hi2; lo2] ++ rest)); [|done|by left|done|done].
  change (len (@nil Z) + 4) with (len [TAG; APP1; hi; lo]).
  rewrite u32_small by (unfold is_u32; simpl; clearbody img; lia).
  rewrite (start_turn [TAG; APP1; hi; lo] (body ++ [y; x] ++ [TAG; APP2; hi2; lo2] ++ rest));
    [|done|done|by destruct body|clearbody img; lia|change (len [TAG; APP1; hi; lo]) with 4; change (len (@nil Z)) with 0; clearbody img; lia].
  assert (forall a : Plane, (MAX_PLANE - length [a])%nat = S (S 5)) as Hroom by done. rewrite Hroom.
  replace (len (@nil Z) + 2 + (256 * hi + lo) - len [TAG; APP1; hi; lo]) with (4 + len body) by (simpl; lia).
  rewrite (second_segment img [TAG; APP1; hi; lo] hi2 lo2 y x body rest); [done|done|done|done|done|done|change (len [TAG; APP1; hi; lo]) with 4; clearbody img; lia].
Qed.

(** ** Witnesses *)

Lemma ParseThumb_ends_witness : ParseThumb [255; 216; 0] 3 <> None /\ ParseThumb [255; 216; 0] 3 = Some (Planes [(0, 3)]).
Proof. split; [apply (ParseThumb_ends [255; 216; 0] 3); split; reflexivity|vm_compute; reflexivity]. Defined.

(** No bytes at all: the scan runs behind the image. *)
Example empty_image : ParseThumb [] 0 = Some OutOfBounds.
Proof. vm_compute. reflexivity. Qed.

(** Start marker, a comment, the segment with its thumbnail; a table, the
    scan with a stuffed byte, and the end marker. *)
Lemma thumbnail_found_witness :
  ParseThumb (image_with_thumbnail [TAG; SOI; TAG; 254; 0; 3; 9] APP1 0 9 [7] [1; 255]
    [TAG; 219; 0; 3; 1; TAG; 218; 0; 2; TAG; 0; 5; TAG; EOI]) 32 = Some (Planes [(18, 14); (12, 6)]).
Proof.
  apply (thumbnail_found [TAG; SOI; TAG; 254; 0; 3; 9] APP1 0 9 [7] [1; 255] [TAG; 219; 0; 3; 1; TAG; 218; 0; 2; TAG; 0; 5; TAG; EOI]);
    [by left|vm_compute; reflexivity|vm_compute; reflexivity|vm_compute; reflexivity|vm_compute; reflexivity|vm_compute; reflexivity].
Defined.

Lemma thumbnail_overread_witness :
  ParseThumb (image_in_segments 0 7 0 255 1 2 [3] [4; 5]) 15 = Some OutOfBounds.
Proof.
  apply (thumbnail_overread 0 7 0 255 1 2 [3] [4; 5]);
    [discriminate|discriminate|reflexivity|split; [discriminate|reflexivity]|vm_compute; reflexivity|vm_compute; discriminate].
Defined.
