(* ===== verification/CameraUtils.v ===== *)
(** * What a camera offers

    Models the functions of class [Common] of
    common/utils/qmmf_common_utils.h that read the static metadata of a
    camera, built with CAM_ARCH_V2, and its translation of formats: whether a
    camera has a format or a resolution, and its largest and smallest one.
    [ANDROID_SCALER_AVAILABLE_STREAM_CONFIGURATIONS] is a list of quadruples;
    data that are not leave the loops with an undefined read. *)

From S2P Require Import Prelude KeyedVector Monitor Memory Stream Adaptor Rescaler.

(** The direction of an input stream in the table of configurations. *)
Class InputTag := { STREAM_CONFIGURATIONS_INPUT : Z }.

#[export] Instance BufferFormat_eq_dec : EqDecision BufferFormat.
Proof. solve_decision. Defined.

(** A stream configuration: format, width, height and direction. *)
Record StreamConfig := mkConfig { cf_format : Z; cf_width : Z; cf_height : Z; cf_direction : Z }.

Fixpoint quadruples (data : list Z) : option (list StreamConfig) :=
  match data with
  | [] => Some []
  | f :: w :: h :: d :: rest => match quadruples rest with Some l => Some (mkConfig f (u32 w) (u32 h) d :: l) | None => None end
  | _ => None
  end.

Section CameraUtils.
Context {M : Type} `{CameraMetadata M} `{MetadataTags} `{InputTag} `{HalPlatform} `{RgbPlatform}.

Definition FromHalToQmmfFormat (format : Z) : BufferFormat :=
  if format =? HAL_PIXEL_FORMAT_BLOB then kBLOB
  else if format =? HAL_PIXEL_FORMAT_YCbCr_420_SP_VENUS_UBWC then kNV12UBWC
  else if format =? HAL_PIXEL_FORMAT_IMPLEMENTATION_DEFINED then kNV12
  else if format =? HAL_PIXEL_FORMAT_YCbCr_420_888 then kNV21
  else if format =? HAL_PIXEL_FORMAT_YCbCr_422_888 then kNV16
  else if format =? HAL_PIXEL_FORMAT_RAW8 then kRAW8
  else if format =? HAL_PIXEL_FORMAT_RAW10 then kRAW10
  else if format =? HAL_PIXEL_FORMAT_RAW12 then kRAW12
  else if format =? HAL_PIXEL_FORMAT_RAW16 then kRAW16
  else kUnsupported.

(** The configurations of a camera; none when the tag is missing, for which
    the functions answer false. *)
Definition stream_configs (meta : M) : option (list StreamConfig) :=
  if meta_exists ANDROID_SCALER_AVAILABLE_STREAM_CONFIGURATIONS meta
  then quadruples (meta_data ANDROID_SCALER_AVAILABLE_STREAM_CONFIGURATIONS meta) else Some [].

Definition any_config (p : StreamConfig -> bool) (meta : M) : option bool :=
  existsb p <$> stream_configs meta.

Definition is_input (c : StreamConfig) : bool := cf_direction c =? STREAM_CONFIGURATIONS_INPUT.
Definition is_output (c : StreamConfig) : bool := cf_direction c =? STREAM_CONFIGURATIONS_OUTPUT.

Definition ValidateStreamFormat (meta : M) (format : BufferFormat) (input : bool) : option bool :=
  any_config (fun c => (FromQmmfToHalFormat format =? cf_format c) && Bool.eqb input (is_input c)) meta.

Definition ValidateInputFormat (meta : M) (in_format out_format : BufferFormat) : option bool :=
  match ValidateStreamFormat meta in_format true with
  | Some true => ValidateStreamFormat meta out_format false
  | r => r
  end.

(** An output of one of [formats] and of the size. *)
Definition output_of (formats : list Z) (width height : Z) (c : StreamConfig) : bool :=
  existsb (fun f => f =? cf_format c) formats && is_output c && (width =? cf_width c) && (height =? cf_height c).

Definition ValidateResFromStreamConfigs (meta : M) (width height : Z) : option bool :=
  any_config (output_of [HAL_PIXEL_FORMAT_IMPLEMENTATION_DEFINED] width height) meta.

Definition ValidateResFromProcessedSizes (meta : M) (width height : Z) : option bool :=
  ValidateResFromStreamConfigs meta width height.

Definition ValidateResFromJpegSizes (meta : M) (width height : Z) : option bool :=
  any_config (output_of [HAL_PIXEL_FORMAT_BLOB] width height) meta.

Definition raw_formats : list Z :=
  [HAL_PIXEL_FORMAT_RAW8; HAL_PIXEL_FORMAT_RAW10; HAL_PIXEL_FORMAT_RAW12; HAL_PIXEL_FORMAT_RAW16].

Definition ValidateResFromRawSizes (meta : M) (width height : Z) : option bool :=
  any_config (output_of raw_formats width height) meta.

Definition UNKNOWN_ERROR : Z := -2147483648.

(** As a [bool] it is true. *)
Definition BAD_TYPE : Z := UNKNOWN_ERROR + 1.

Definition ValidateResolution (meta : M) (format : BufferFormat) (width height : Z) : option bool :=
  match format with
  | kRAW8 | kRAW10 | kRAW12 | kRAW16 => ValidateResFromRawSizes meta width height
  | kNV12 | kNV12Encodable | kNV12UBWC | kNV21 | kNV16 | kRGB => ValidateResFromProcessedSizes meta width height
  | kBLOB => ValidateResFromJpegSizes meta width height
  | kUnsupported => Some (negb (BAD_TYPE =? 0))
  end.

(** Whether a size was found, and the last one that passed [better] against
    the one before it. *)
Fixpoint best_size (better : Z -> Z -> bool) (format : Z) (cs : list StreamConfig) (found : bool) (w h : Z) : bool * (Z * Z) :=
  match cs with
  | [] => (found, (w, h))
  | c :: cs' =>
      if (format =? cf_format c) && is_output c && better w (cf_width c) && better h (cf_height c)
      then best_size better format cs' true (cf_width c) (cf_height c)
      else best_size better format cs' found w h
  end.

Definition GetMaxResFromStreamConfigs (meta : M) : option (bool * (Z * Z)) :=
  (fun cs => best_size Z.ltb HAL_PIXEL_FORMAT_IMPLEMENTATION_DEFINED cs false 0 0) <$> stream_configs meta.

Definition GetMinResFromStreamConfigs (meta : M) : option (bool * (Z * Z)) :=
  (fun cs => best_size Z.gtb HAL_PIXEL_FORMAT_IMPLEMENTATION_DEFINED cs false 65535 65535) <$> stream_configs meta.

(** The format that is asked for is not looked at. *)
Definition GetMaxSupportedCameraRes (meta : M) (format : BufferFormat) : option (bool * (Z * Z)) :=
  (fun cs => best_size Z.ltb HAL_PIXEL_FORMAT_RAW10 cs false 0 0) <$> stream_configs meta.

Definition GetMinSupportedCameraRes (meta : M) : option (bool * (Z * Z)) := GetMinResFromStreamConfigs meta.

(** The formats are a set; a missing tag fails an assertion. *)
Fixpoint add_formats (input : bool) (cs : list StreamConfig) (found : bool) (formats : list BufferFormat) : bool * list BufferFormat :=
  match cs with
  | [] => (found, formats)
  | c :: cs' =>
      let f := FromHalToQmmfFormat (cf_format c) in
      if Bool.eqb input (is_input c) && negb (bool_decide (f = kUnsupported)) && negb (bool_decide (f ∈ formats))
      then add_formats input cs' true (formats ++ [f]) else add_formats input cs' found formats
  end.

Definition GetSupportedCameraFormats (meta : M) (formats : list BufferFormat) (input : bool) : option (bool * list BufferFormat) :=
  if meta_exists ANDROID_SCALER_AVAILABLE_STREAM_CONFIGURATIONS meta
  then (fun cs => add_formats input cs false formats) <$> stream_configs meta else None.

(** ** What they find *)

Lemma any_config_spec p meta b cs : stream_configs meta = Some cs -> any_config p meta = Some b ->
  b = true <-> exists c, c ∈ cs /\ p c = true.
Proof.
  unfold any_config. intros ->. simpl. intros [= <-]. rewrite existsb_exists. setoid_rewrite list_elem_of_In. done.
Qed.

Lemma output_of_spec formats w h c : output_of formats w h c = true <->
  cf_format c ∈ formats /\ is_output c = true /\ cf_width c = w /\ cf_height c = h.
Proof.
  unfold output_of. rewrite !andb_true_iff, existsb_exists, !Z.eqb_eq. setoid_rewrite <- list_elem_of_In. split.
  - intros [[[(f & Hf & He) Ho] ->] ->]. apply Z.eqb_eq in He as ->. done.
  - intros (Hf & Ho & <- & <-). split_and!; try done. exists (cf_format c). by rewrite Z.eqb_refl.
Qed.

(** The formats of the HAL that serve a format. *)
Definition served_by (format : BufferFormat) : list Z :=
  match format with
  | kRAW8 | kRAW10 | kRAW12 | kRAW16 => raw_formats
  | kBLOB => [HAL_PIXEL_FORMAT_BLOB]
  | kUnsupported => []
  | _ => [HAL_PIXEL_FORMAT_IMPLEMENTATION_DEFINED]
  end.

(** A resolution is valid for a format just when the camera has an
    output stream of that size in a format of the HAL that serves it; for a
    format that is not supported every resolution is valid, since the error
    code that is returned counts as true. *)
Theorem resolution_valid (meta : M) (cs : list StreamConfig) (format : BufferFormat) (width height : Z) (b : bool) :
  stream_configs meta = Some cs -> ValidateResolution meta format width height = Some b ->
  b = true <-> format = kUnsupported \/
    exists c, c ∈ cs /\ cf_format c ∈ served_by format /\ is_output c = true /\ cf_width c = width /\ cf_height c = height.
Proof.
  intros Hc Hv. assert (format = kUnsupported \/ (format <> kUnsupported /\ any_config (output_of (served_by format) width height) meta = Some b))
    as [->|[Hf Ha]] by (destruct format; [right..|by left]; by split).
  - injection Hv as <-. split; [by left|done].
  - rewrite (any_config_spec _ _ _ _ Hc Ha). setoid_rewrite output_of_spec. split; [by right|by intros [?|?]].
Qed.

(** [c] is an output of the format. *)
Definition offers (format : Z) (c : StreamConfig) : Prop := cf_format c = format /\ is_output c = true.

(** The scan for the largest size. *)
Lemma largest_size format cs : forall found w h found' w' h', best_size Z.ltb format cs found w h = (found', (w', h')) ->
  w <= w' /\ h <= h' /\ (forall c, c ∈ cs -> offers format c -> ~ (w' < cf_width c /\ h' < cf_height c)) /\
  ((found', w', h') = (found, w, h) \/
   (found' = true /\ exists c, c ∈ cs /\ offers format c /\ cf_width c = w' /\ cf_height c = h')).
Proof.
  induction cs as [|c cs IH]; intros found w h found' w' h'; simpl.
  - intros [= <- <- <-]. split_and!; [lia|lia|by intros c Hc; apply elem_of_nil in Hc|by left].
  - destruct ((format =? cf_format c) && is_output c && (w <? cf_width c) && (h <? cf_height c)) eqn:Eb; intros Hs.
    + bool_hyps. destruct (IH _ _ _ _ _ _ Hs) as (Hw & Hh & Hn & Hf). split_and!; [lia|lia| |].
      * intros c' Hc Ho. apply elem_of_cons in Hc as [->|Hc]; [lia|by apply Hn].
      * right. destruct Hf as [[= -> -> ->]|(-> & c' & Hc & Hr)]; (split; [done|]).
        -- exists c. split_and!; [by left|by split|done|done].
        -- exists c'. split; [by right|done].
    + destruct (IH _ _ _ _ _ _ Hs) as (Hw & Hh & Hn & Hf). split_and!; [lia|lia| |].
      * intros c' Hc Ho. apply elem_of_cons in Hc as [->|Hc]; [|by apply Hn]. intros [H1' H2'].
        destruct Ho as [Hfo Hout]. rewrite Hfo, Hout, Z.eqb_refl in Eb. simpl in Eb. apply andb_false_iff in Eb as [Eb|Eb]; lia.
      * destruct Hf as [Hf|(Ht & c' & Hc & Hr)]; [by left|right]. split; [done|]. exists c'. split; [by right|done].
Qed.

(** The largest resolution is one of the camera's RAW10 outputs, and no
    RAW10 output is larger in both dimensions; none is found just when no
    such output has a width and a height.  Whatever format is asked for. *)
Theorem max_resolution_maximal (meta : M) (cs : list StreamConfig) (format : BufferFormat) (found : bool) (w h : Z) :
  stream_configs meta = Some cs -> GetMaxSupportedCameraRes meta format = Some (found, (w, h)) ->
  (forall c, c ∈ cs -> offers HAL_PIXEL_FORMAT_RAW10 c -> ~ (w < cf_width c /\ h < cf_height c)) /\
  (if found then exists c, c ∈ cs /\ offers HAL_PIXEL_FORMAT_RAW10 c /\ cf_width c = w /\ cf_height c = h
   else (w, h) = (0, 0)).
Proof.
  unfold GetMaxSupportedCameraRes. intros ->. simpl. intros [= Hs]. destruct (largest_size _ _ _ _ _ _ _ _ Hs) as (_ & _ & Hn & Hf).
  split; [exact Hn|]. destruct Hf as [[= -> -> ->]|(-> & Hf)]; done.
Qed.

(** A format of the HAL that has a name keeps it through the
    translation and back, but for compressed NV12, which comes back as the
    implementation's own format. *)
Theorem hal_format_round_trip (format : Z) :
  NoDup [HAL_PIXEL_FORMAT_BLOB; HAL_PIXEL_FORMAT_YCbCr_420_SP_VENUS_UBWC; HAL_PIXEL_FORMAT_IMPLEMENTATION_DEFINED;
         HAL_PIXEL_FORMAT_YCbCr_420_888; HAL_PIXEL_FORMAT_YCbCr_422_888; HAL_PIXEL_FORMAT_RAW8; HAL_PIXEL_FORMAT_RAW10;
         HAL_PIXEL_FORMAT_RAW12; HAL_PIXEL_FORMAT_RAW16] ->
  FromHalToQmmfFormat format <> kUnsupported ->
  FromQmmfToHalFormat (FromHalToQmmfFormat format) =
    if format =? HAL_PIXEL_FORMAT_YCbCr_420_SP_VENUS_UBWC then HAL_PIXEL_FORMAT_IMPLEMENTATION_DEFINED else format.
Proof.
  intros Hd. rewrite !NoDup_cons in Hd. destruct Hd as (Hb & _). unfold FromHalToQmmfFormat.
  repeat match goal with |- context [format =? ?x] => destruct (Z.eqb_spec format x) as [->|]; [simpl; try done|] end; try done.
  - intros _. destruct (Z.eqb_spec HAL_PIXEL_FORMAT_BLOB HAL_PIXEL_FORMAT_YCbCr_420_SP_VENUS_UBWC) as [He|]; [|done].
    exfalso. apply Hb. rewrite He. by left.
Qed.
End CameraUtils.

(** ** Witnesses *)

#[export] Instance demo_input_tag : InputTag := {| STREAM_CONFIGURATIONS_INPUT := 1 |}.

(** A camera with two raw outputs, neither larger than the other in both
    dimensions, and one for video. *)
Definition demo_configs : list StreamConfig :=
  [mkConfig HAL_PIXEL_FORMAT_RAW10 4000 2000 0; mkConfig HAL_PIXEL_FORMAT_RAW10 3000 3000 0;
   mkConfig HAL_PIXEL_FORMAT_IMPLEMENTATION_DEFINED 1920 1080 0].

Definition demo_static : MetaMap :=
  {[5 := concat (map (fun c => [cf_format c; cf_width c; cf_height c; cf_direction c]) demo_configs)]}.

Lemma demo_has_configs : stream_configs demo_static = Some demo_configs.
Proof. vm_compute. reflexivity. Qed.

Lemma demo_video_valid : ValidateResolution demo_static kNV12 1920 1080 = Some true.
Proof. vm_compute. reflexivity. Qed.

Lemma demo_max_size : GetMaxSupportedCameraRes demo_static kRAW8 = Some (true, (4000, 2000)).
Proof. vm_compute. reflexivity. Qed.

Lemma resolution_valid_witness : ValidateResolution demo_static kNV12 1920 1080 = Some true /\
  ValidateResolution demo_static kUnsupported 7 7 = Some true /\
  exists c, c ∈ demo_configs /\ cf_width c = 1920 /\ cf_height c = 1080.
Proof.
  split; [vm_compute; reflexivity|]. split; [vm_compute; reflexivity|].
  destruct (proj1 (resolution_valid demo_static demo_configs kNV12 1920 1080 true demo_has_configs demo_video_valid) eq_refl)
    as [Hu|(c & Hc & _ & _ & Hw & Hh)]; [discriminate|]. exists c. split; [exact Hc|split; [exact Hw|exact Hh]].
Defined.

Lemma max_resolution_maximal_witness : GetMaxSupportedCameraRes demo_static kRAW8 = Some (true, (4000, 2000)) /\
  forall c, c ∈ demo_configs -> offers HAL_PIXEL_FORMAT_RAW10 c -> ~ (4000 < cf_width c /\ 2000 < cf_height c).
Proof.
  split; [vm_compute; reflexivity|].
  exact (proj1 (max_resolution_maximal demo_static demo_configs kRAW8 true 4000 2000 demo_has_configs demo_max_size)).
Defined.

Lemma hal_format_round_trip_witness : FromQmmfToHalFormat (FromHalToQmmfFormat HAL_PIXEL_FORMAT_RAW12) = HAL_PIXEL_FORMAT_RAW12.
Proof.
  change HAL_PIXEL_FORMAT_RAW12 with
    (if HAL_PIXEL_FORMAT_RAW12 =? HAL_PIXEL_FORMAT_YCbCr_420_SP_VENUS_UBWC then HAL_PIXEL_FORMAT_IMPLEMENTATION_DEFINED
     else HAL_PIXEL_FORMAT_RAW12) at 2.
  apply (hal_format_round_trip HAL_PIXEL_FORMAT_RAW12).
  - apply (bool_decide_unpack _). vm_compute. exact Logic.I.
  - vm_compute. discriminate.
Defined.
