(* ===== verification/CameraInterface.v ===== *)
(** * The camera as its users see it

    Models recorder/src/service/qmmf_camera_interface.h: the parameters of
    streams and snapshots and, as a class of operations on the state of a
    camera, the interface under which [CameraSource] and its tracks use a
    camera.  [CameraWires] states what the users rely on: which consumers a
    stream has and whether it runs.  The translations of formats are those of
    common/utils/qmmf_common_utils.h. *)

From S2P Require Import Prelude KeyedVector Floats Monitor Memory Stream ExtraParam Track RecorderTypes.

(** [StreamFlags]. *)
Definition kNone : Z := 0.
Definition kIAEC : Z := Z.shiftl 1 0.
Definition kUncashed : Z := Z.shiftl 1 1.
Definition kEncoded : Z := Z.shiftl 1 2.

Record StreamParam := mkStreamParam {
  sp_id : Z; sp_width : Z; sp_height : Z; sp_rotation : Z; sp_format : BufferFormat; sp_framerate : float32; sp_flags : Z
}.

Record SnapshotParam := mkSnapshotParam { sn_width : Z; sn_height : Z; sn_quality : Z; sn_format : BufferFormat }.

Definition FromImageToQmmfFormat (f : ImageFormat) : BufferFormat :=
  match f with
  | Image.kJPEG => kBLOB
  | Image.kNV12 => kNV12
  | Image.kNV21 => kNV21
  | Image.kBayerRDI8BIT => kRAW8
  | Image.kBayerRDI10BIT => kRAW10
  | Image.kBayerRDI12BIT => kRAW12
  | Image.kBayerRDI16BIT => kRAW16
  | Image.kNV12Encodable => kNV12Encodable
  | Image.kBayerIdeal => kUnsupported
  end.

Definition FromVideoToQmmfFormat (f : VideoFormat) : BufferFormat :=
  match f with
  | Video.kAVC | Video.kHEVC => kNV12UBWC
  | Video.kNV12 => kNV12
  | Video.kNV12UBWC => kNV12UBWC
  | Video.kRGB => kRGB
  | Video.kBayerRDI8BIT => kRAW8
  | Video.kBayerRDI10BIT => kRAW10
  | Video.kBayerRDI12BIT => kRAW12
  | Video.kBayerRDI16BIT => kRAW16
  | Video.kJPEG | Video.kBayerIdeal => kUnsupported
  end.

(** A consumer is the address of its object, 0 for none.  The callbacks of
    [OpenCamera] are a flag: whether results are wanted. *)
Class CameraInterface (M K : Type) := {
  ci_new : K;
  ci_OpenCamera : Z -> float32 -> ExtraParam -> bool -> ST K Z;
  ci_CloseCamera : Z -> ST K Z;
  ci_SetUpCapture : SnapshotParam -> ST K Z;
  ci_CaptureImage : Z -> list M -> ST K Z;
  ci_ConfigImageCapture : ExtraParam -> ST K Z;
  ci_CancelCaptureImage : ST K Z;
  ci_CreateStream : StreamParam -> ExtraParam -> ST K Z;
  ci_DeleteStream : Z -> ST K Z;
  ci_AddConsumer : Z -> Z -> ST K Z;
  ci_RemoveConsumer : Z -> Z -> ST K Z;
  ci_StartStream : Z -> ST K Z;
  ci_StopStream : Z -> ST K Z;
  ci_PauseStream : Z -> ST K Z;
  ci_ResumeStream : Z -> ST K Z;
  ci_SetCameraParam : M -> ST K Z;
  ci_GetCameraParam : M -> ST K (Z * M);
  ci_GetDefaultCaptureParam : M -> ST K (Z * M);
  ci_GetCameraCharacteristics : M -> ST K (Z * M);
  ci_ReturnAllImageCaptureBuffers : ST K Z;
  ci_ReturnImageCaptureBuffer : Z -> Z -> ST K Z;
  ci_SetFlushCb : ST K unit
}.

(** ** What users rely on *)

(** The consumers of a stream, and whether it is started. *)
Definition StreamWires : Type := kv unit * bool.

Definition edit_stream (id : Z) (g : StreamWires -> option StreamWires) (m : kv StreamWires) : option (kv StreamWires) :=
  match kv_lookup id m with
  | None => None
  | Some w => match g w with Some w' => Some (kv_replace id w' m) | None => None end
  end.

Definition join_stream (c : Z) (w : StreamWires) : option StreamWires :=
  if kv_mem c w.1 then None else Some (kv_add c tt w.1, w.2).
Definition leave_stream (c : Z) (w : StreamWires) : option StreamWires :=
  if kv_mem c w.1 then Some (kv_remove c w.1, w.2) else None.
Definition switch_stream (on : bool) (w : StreamWires) : option StreamWires := Some (w.1, on).

(** What a camera promises of the calls that tie tracks to it and succeed:
    each changes one thing about one stream. *)
Class CameraWires (M K : Type) `{CameraInterface M K} := {
  camera_wires : K -> kv StreamWires;
  wires_AddConsumer id c k k' : ci_AddConsumer id c k = Some (NO_ERROR, k') ->
    edit_stream id (join_stream c) (camera_wires k) = Some (camera_wires k');
  wires_RemoveConsumer id c k k' : ci_RemoveConsumer id c k = Some (NO_ERROR, k') ->
    edit_stream id (leave_stream c) (camera_wires k) = Some (camera_wires k');
  wires_StartStream id k k' : ci_StartStream id k = Some (NO_ERROR, k') ->
    edit_stream id (switch_stream true) (camera_wires k) = Some (camera_wires k');
  wires_StopStream id k k' : ci_StopStream id k = Some (NO_ERROR, k') ->
    edit_stream id (switch_stream false) (camera_wires k) = Some (camera_wires k')
}.
