(* ===== verification/ContextTypes.v ===== *)
(** * The camera of the recorder: its data

    Models the types of recorder/src/service/qmmf_camera_context.h: the
    state of [CameraContext] and of its ports ([CameraPort], [ZslPort]), the
    structures that a client configures captures with
    (include/qmmf-sdk/qmmf_recorder_extra_param_tags.h), and the interface
    under which the context uses its [Camera3DeviceClient]. *)

From Stdlib Require Import SpecFloat.
From S2P Require Import Prelude KeyedVector Floats Monitor Memory Stream Adaptor ExtraParam BufferProducer RecorderTypes CameraUtils CameraInterface.

Definition VIDEO_STREAM_BUFFER_COUNT : Z := 11.
Definition PREVIEW_STREAM_BUFFER_COUNT : Z := 10.
Definition EXTRA_DCVS_BUFFERS : Z := 2.
Definition EXTRA_HFR_BUFFERS : Z := 4.
Definition MAX_SNAPSHOT_BUFFER_COUNT : Z := 15.
Definition MAX_SENSOR_FPS : Z := 480.
Definition zsl_port_id_ : Z := 256.

(** Without HFR_THRESHOLD and _DRONE_. *)
Definition kConstrainedModeThreshold : float32 := f32_of_Z 30.
Definition kHFRBatchModeThreshold : float32 := f32_of_Z 120.

(** ** What a client configures *)

Definition QMMF_JPEG_CAPTURE_SETUP : Z := 65536.
Definition QMMF_IMAGE_THUMBNAIL : Z := 65536 + 3.
Definition QMMF_SNAPSHOT_TYPE : Z := 65536 + 4.
Definition QMMF_EXIF : Z := 65536 + 7.
Definition QMMF_VIDEO_HDR_MODE : Z := 65536 + 8.
Definition QMMF_FORCE_SENSOR_MODE : Z := 65536 + 10.
Definition QMMF_EIS : Z := 65536 + 11.
Definition QMMF_PARTIAL_METADATA : Z := 65536 + 12.
Definition QMMF_LDC : Z := 65536 + 16.

Module Snap.
Inductive SnapshotMode := kNone | kStill | kStillPlusRaw | kVideo | kContinuous | kZsl | kVideoPlusRaw.
End Snap.
Abbreviation SnapshotMode := Snap.SnapshotMode.

#[export] Instance SnapshotMode_eq : EqDecision SnapshotMode.
Proof. solve_decision. Defined.

(** The enumerators by their numbers; another number is none of them. *)
Definition snapshot_mode (n : Z) : option SnapshotMode :=
  [Snap.kNone; Snap.kStill; Snap.kStillPlusRaw; Snap.kVideo; Snap.kContinuous; Snap.kZsl; Snap.kVideoPlusRaw] !! Z.to_nat n.

Definition image_format_of (n : Z) : option ImageFormat :=
  [Image.kJPEG; Image.kNV12; Image.kNV21; Image.kBayerIdeal; Image.kBayerRDI8BIT; Image.kBayerRDI10BIT; Image.kBayerRDI12BIT;
   Image.kBayerRDI16BIT; Image.kNV12Encodable] !! Z.to_nat n.

Definition buffer_format_of (n : Z) : option BufferFormat :=
  [kRGB; kNV12; kNV12UBWC; kNV21; kNV16; kBLOB; kRAW8; kRAW10; kRAW12; kRAW16; kNV12Encodable; kUnsupported] !! Z.to_nat n.

Record SnapshotType := mkSnapshotType {
  st_type : SnapshotMode; st_raw_format : ImageFormat;
  zsl_queue_depth : Z; zsl_image_format : ImageFormat;
  zsl_image_width : Z; zsl_image_height : Z; zsl_image_quality : Z; zsl_image_param_format : ImageFormat
}.

Definition words (ws : list Z) : list Z := concat (map bytes32 ws).

(** [SnapshotType] as it is constructed: type, raw format, the queue's width,
    height, depth and format, the image's width, height, quality and format. *)
Definition SnapshotType_default : list Z := words [3; 5; 3840; 2160; 4; 2; 0; 0; 95; 0].

Definition fetch_snapshot_type (x : ExtraParam) : option SnapshotType :=
  match fetch_struct QMMF_SNAPSHOT_TYPE SnapshotType_default x with
  | None => None
  | Some d =>
      match load32 d 0, load32 d 4, load32 d 16, load32 d 20 with
      | Some ty, Some raw, Some depth, Some qf =>
          match load32 d 24, load32 d 28, load32 d 32, load32 d 36 with
          | Some w, Some h, Some q, Some imf =>
              match snapshot_mode ty, image_format_of raw, image_format_of qf, image_format_of imf with
              | Some ty, Some raw, Some qf, Some imf => Some (mkSnapshotType ty raw depth qf w h q imf)
              | _, _, _, _ => None
              end
          | _, _, _, _ => None
          end
      | _, _, _, _ => None
      end
  end.

(** [ImageThumbnail]: width, height and quality. *)
Definition fetch_thumbnail (i : Z) (x : ExtraParam) : option (Z * Z * Z) :=
  let init := words [0; 0; 75] in
  match Fetch QMMF_IMAGE_THUMBNAIL (bytes32 QMMF_IMAGE_THUMBNAIL ++ init) i x with
  | Some (Fetched data) =>
      match load32 data 4, load32 data 8, load32 data 12 with Some w, Some h, Some q => Some (w, h, q) | _, _, _ => None end
  | Some (NotFetched _) => Some (0, 0, 75)
  | _ => None
  end.

(** ** The state of the camera *)

(** The tags that the context uses besides the adaptor's, and the numbers
    that Android gives to states and templates; [SensorModeTable] is a vendor
    tag that need not exist. *)
Class ContextTags := {
  ANDROID_CONTROL_AE_AVAILABLE_TARGET_FPS_RANGES : Z;
  ANDROID_REQUEST_MAX_NUM_INPUT_STREAMS : Z;
  ANDROID_CONTROL_AVAILABLE_HIGH_SPEED_VIDEO_CONFIGURATIONS : Z;
  ANDROID_CONTROL_AE_TARGET_FPS_RANGE : Z;
  ANDROID_SENSOR_FRAME_DURATION : Z;
  ANDROID_JPEG_QUALITY : Z;
  ANDROID_CONTROL_AE_STATE : Z;
  ANDROID_CONTROL_AWB_MODE : Z;
  ANDROID_CONTROL_AWB_STATE : Z;
  ANDROID_CONTROL_AF_MODE : Z;
  ANDROID_CONTROL_AF_STATE : Z;
  SensorModeTable : option Z;
  AE_STATE_INACTIVE : Z;
  AE_STATE_CONVERGED : Z;
  AE_STATE_LOCKED : Z;
  TEMPLATE_STILL_CAPTURE : Z;
  TEMPLATE_VIDEO_RECORD : Z;
  TEMPLATE_ZERO_SHUTTER_LAG : Z
}.

(** State and time stamp. *)
Record AECData := mkAEC { ae_state : Z; ae_timestamp : Z }.

Record CameraParameters := mkCameraParameters {
  is_partial_metadata_enabled : bool; frame_rate : Z; cp_batch_size : Z; feature_flags : Z
}.

#[export] Instance settable_CameraParameters : Settable CameraParameters :=
  {| eta_expand := fun p => mkCameraParameters (is_partial_metadata_enabled p) (frame_rate p) (cp_batch_size p) (feature_flags p) |}.

Record HFRMode_t := mkHFRMode { hfr_width : Z; hfr_height : Z; hfr_batch : Z; hfr_framerate : Z }.

Inductive PortState := PORT_CREATED | PORT_READYTOSTART | PORT_STARTED | PORT_READYTOSTOP | PORT_STOPPED | PORT_PAUSED.

#[export] Instance PortState_eq : EqDecision PortState.
Proof. solve_decision. Defined.

Section Types.
Context {M W : Type}.

(** An entry of the queue waits for the buffer or for the result of its time
    stamp; without a buffer the buffer's time stamp is 0. *)
Record ZSLEntry := mkZSLEntry { z_buffer : option StreamBuffer; z_result : M; z_timestamp : Z }.

#[export] Instance settable_ZSLEntry : Settable ZSLEntry :=
  {| eta_expand := fun e => mkZSLEntry (z_buffer e) (z_result e) (z_timestamp e) |}.

Record ZslPort := mkZslPort {
  input_stream_id_ : Z;
  zsl_queue_ : list ZSLEntry;
  zsl_input_buffer_ : ZSLEntry;
  zsl_running_ : bool;
  zsl_queue_depth_ : Z
}.

#[export] Instance settable_ZslPort : Settable ZslPort :=
  {| eta_expand := fun z => mkZslPort (input_stream_id_ z) (zsl_queue_ z) (zsl_input_buffer_ z) (zsl_running_ z) (zsl_queue_depth_ z) |}.

(** A port; [zsl] is there in a [ZslPort]. *)
Record CameraPort := mkCameraPort {
  params_ : StreamParam;
  port_parameters : CameraParameters;
  camera_stream_id_ : Z;
  port_state_ : PortState;
  ready_to_start_ : bool;
  aec_converged_ : bool;
  aec_timestamp_ : Z;
  port_producer : BufferProducer;
  consumers_ : kv unit;
  zsl : option ZslPort
}.

#[export] Instance settable_CameraPort : Settable CameraPort :=
  {| eta_expand := fun p => mkCameraPort (params_ p) (port_parameters p) (camera_stream_id_ p) (port_state_ p) (ready_to_start_ p)
       (aec_converged_ p) (aec_timestamp_ p) (port_producer p) (consumers_ p) (zsl p) |}.

(** The calls out of the context, by their order. *)
Inductive ContextCall :=
| SnapshotCb (count : Z) (b : StreamBuffer)
| ResultCb (meta : M)
| ErrorCb (code : CameraErrorCode)
| FlushCb (camera_id : Z)
| ToConsumer (consumer : Z) (b : StreamBuffer).

Record CameraContext := mkCameraContext {
  camera_device_ : option W;
  camera_id_ : Z;
  static_meta_ : M;
  stream_prepared_ : gmap Z bool;
  streaming_request_id_ : Z;
  capture_request_id_ : Z;
  last_frame_number_map_ : gmap Z Z;
  removed_stream_ids_ : gset Z;
  last_frame_number_ : Z;
  snapshot_request_ : Camera3Request M;
  client_snapshot_cb_ : bool;
  capture_cnt_ : Z;
  cancel_capture_ : bool;
  result_cb_ : bool;
  error_cb_ : bool;
  flush_cb_ : bool;
  supported_fps_ : list Z;
  active_ports_ : kv CameraPort;
  snapshot_buffer_list_ : kv StreamBuffer;
  snapshot_buffer_stream_list_ : gmap Z Z;
  hfr_supported_ : bool;
  hfr_batch_modes_list_ : list HFRMode_t;
  streaming_active_requests_ : list (Camera3Request M);
  batch_stream_id_ : Z;
  aec_ : AECData;
  partial_result_count_ : Z;
  snapshot_param_ : SnapshotParam;
  thumbnails_ : list (Z * Z * Z);
  snapshot_type_ : SnapshotMode;
  new_snapshot_type_ : SnapshotMode;
  raw_snapshot_format_ : BufferFormat;
  jpeg_input_format_ : BufferFormat;
  new_jpeg_input_format_ : BufferFormat;
  exif_en_ : bool;
  snapshot_stream_param_ : CameraStreamParameters;
  restart_pipe_ : bool;
  reconfig_pipe_ : bool;
  port_paused_ : bool;
  stopped_stream_ids_ : kv unit;
  camera_parameters_ : CameraParameters;
  continuous_mode_is_on : bool;
  calls : list ContextCall
}.

#[export] Instance settable_CameraContext : Settable CameraContext :=
  {| eta_expand := fun c => mkCameraContext (camera_device_ c) (camera_id_ c) (static_meta_ c) (stream_prepared_ c)
       (streaming_request_id_ c) (capture_request_id_ c) (last_frame_number_map_ c) (removed_stream_ids_ c) (last_frame_number_ c)
       (snapshot_request_ c) (client_snapshot_cb_ c) (capture_cnt_ c) (cancel_capture_ c) (result_cb_ c) (error_cb_ c) (flush_cb_ c)
       (supported_fps_ c) (active_ports_ c) (snapshot_buffer_list_ c) (snapshot_buffer_stream_list_ c) (hfr_supported_ c)
       (hfr_batch_modes_list_ c) (streaming_active_requests_ c) (batch_stream_id_ c) (aec_ c) (partial_result_count_ c)
       (snapshot_param_ c) (thumbnails_ c) (snapshot_type_ c) (new_snapshot_type_ c) (raw_snapshot_format_ c) (jpeg_input_format_ c)
       (new_jpeg_input_format_ c) (exif_en_ c) (snapshot_stream_param_ c) (restart_pipe_ c) (reconfig_pipe_ c) (port_paused_ c)
       (stopped_stream_ids_ c) (camera_parameters_ c) (continuous_mode_is_on c) (calls c) |}.
End Types.
Arguments ZSLEntry M : clear implicits.
Arguments ZslPort M : clear implicits.
Arguments CameraPort M : clear implicits.
Arguments ContextCall M : clear implicits.
Arguments CameraContext M W : clear implicits.

(** [Camera3DeviceClient] as the context uses it.  Submitting answers with the
    identifier of the request and the last frame number. *)
Class CameraDevice (M W : Type) := {
  dv_new : W;
  dv_Initialize : ST W Z;
  dv_OpenCamera : Z -> ST W Z;
  dv_GetCameraInfo : Z -> ST W (Z * M);
  dv_BeginConfigure : ST W Z;
  dv_EndConfigure : StreamConfiguration -> ST W Z;
  dv_CreateStream : CameraStreamParameters -> ST W Z;
  dv_CreateInputStream : Z -> Z -> Z -> ST W Z;
  dv_DeleteStream : Z -> bool -> ST W Z;
  dv_CreateDefaultRequest : Z -> ST W (Z * M);
  dv_SubmitRequestList : list (Camera3Request M) -> bool -> ST W (Z * Z);
  dv_SubmitRequest : Camera3Request M -> bool -> ST W (Z * Z);
  dv_Flush : ST W (Z * Z);
  dv_WaitUntilIdle : ST W Z;
  dv_Prepare : Z -> ST W Z;
  dv_ReturnStreamBuffer : StreamBuffer -> ST W Z
}.

(** What the context relies on when it gives a buffer back: the device takes
    it. *)
Class DeviceReturns (M W : Type) `{CameraDevice M W} := {
  returned : W -> list StreamBuffer;
  return_taken b w : exists w', dv_ReturnStreamBuffer b w = Some (NO_ERROR, w') /\ returned w' = returned w ++ [b]
}.
