(* ===== verification/ContextRequests.v ===== *)
(** * Ports and the streaming request

    Models the part of recorder/src/service/qmmf_camera_context.cc, built
    with USE_FPS_IDX, that keeps the ports of a camera and the request that
    is repeated for their streams: [CameraPort], [UpdateRequest],
    [CreateDeviceStream] and [DeleteDeviceStream], how streams are paused and
    resumed, and the queue of [ZslPort].

    A port belongs to the context, which holds it under its number; a method
    of a port that changes the request is a computation on the context.  An
    assertion that fails is [None]. *)

From Stdlib Require Import SpecFloat.
From S2P Require Import Prelude KeyedVector Floats Monitor Memory Stream Adaptor ExtraParam BufferProducer Rescaler RecorderTypes CameraUtils CameraInterface ContextTypes.

Section Context.
Context {M W : Type} `{CameraMetadata M} `{MetadataTags} `{InputTag} `{ContextTags} `{HalPlatform} `{RgbPlatform} `{CameraDevice M W}.

Abbreviation Ctx := (CameraContext M W).
Abbreviation Port := (CameraPort M).
Abbreviation Request := (Camera3Request M).

(** What others do during the waits: for streams to be prepared, for the last
    frames of removed streams, for the exposure to converge.  Each wake-up
    comes with its result. *)
Record ContextWaits := mkContextWaits {
  prepare_waits : list (Ctx -> Z * Ctx);
  pending_waits : list (Ctx -> Z * Ctx);
  aec_waits : list (Ctx -> Z * Ctx)
}.

Context (waits : ContextWaits).

(** ** Calls *)

Definition call_out (e : ContextCall M) : ST Ctx unit := modify (fun c => c <| calls := calls c ++ [e] |>).

(** A method of the device; without one the pointer is null. *)
Definition device {A} (m : ST W A) : ST Ctx A := fun c =>
  match camera_device_ c with
  | None => None
  | Some w => match m w with Some (a, w') => Some (a, c <| camera_device_ := Some w' |>) | None => None end
  end.

Definition GetPort (port : Z) (c : Ctx) : option Port := kv_lookup port (active_ports_ c).

(** A method of a port; without the port the pointer is null. *)
Definition on_port {A} (port : Z) (m : ST Port A) : ST Ctx A := fun c =>
  match GetPort port c with
  | None => None
  | Some p => match m p with Some (a, p') => Some (a, c <| active_ports_ := kv_replace port p' (active_ports_ c) |>) | None => None end
  end.

Definition the_port (port : Z) : ST Ctx Port := on_port port (gets id).

(** ** Buffers that come back *)

(** The last frame of a stream that was removed ends the wait for it. *)
Definition frame_back (stream frame : Z) (c : Ctx) : Ctx :=
  if bool_decide (stream ∈ removed_stream_ids_ c) then
    if default 0 (last_frame_number_map_ c !! stream) =? frame then
      c <| removed_stream_ids_ := removed_stream_ids_ c ∖ {[stream]} |>
        <| last_frame_number_map_ := delete stream (last_frame_number_map_ c) |>
    else c <| last_frame_number_map_ := <[stream := default 0 (last_frame_number_map_ c !! stream)]> (last_frame_number_map_ c) |>
  else c.

Definition ReturnStreamBuffer (b : StreamBuffer) : ST Ctx Z :=
  do* assert_ok (device (dv_ReturnStreamBuffer b)) in
  do* modify (frame_back (sb_stream_id b) (sb_frame_number b)) in
  ret NO_ERROR.

(** ** The queue of a ZSL port *)

Definition on_zsl {A} (port : Z) (m : ST (ZslPort M) A) : ST Ctx A :=
  on_port port (fun p =>
    match zsl p with
    | None => None
    | Some z => match m z with Some (a, z') => Some (a, p <| zsl := Some z' |>) | None => None end
    end).

Definition buffer_timestamp (e : ZSLEntry M) : Z := match z_buffer e with Some b => sb_timestamp b | None => 0 end.

(** Buffer and time stamp belong together. *)
Definition has_buffer (e : ZSLEntry M) : bool := z_timestamp e =? buffer_timestamp e.

Definition no_entry : ZSLEntry M := mkZSLEntry None meta_empty (-1).

Definition IsRunning (port : Z) : ST Ctx bool :=
  let* p := the_port port in
  match zsl p with Some z => ret (zsl_running_ z && (0 <=? camera_stream_id_ p)) | None => undefined end.

Definition ResumeZSL (port : Z) : ST Ctx unit := on_zsl port (modify (fun z => z <| zsl_running_ := true |>)).

(** An entry without its buffer, whose time stamp is 0 in buffer and entry,
    hands back a buffer without a handle, which fails. *)
Definition return_entry (e : ZSLEntry M) : ST Ctx unit :=
  if has_buffer e then match z_buffer e with Some b => let* r := ReturnStreamBuffer b in ret tt | None => undefined end
  else ret tt.

Definition PauseAndFlushZSLQueue (port : Z) : ST Ctx Z :=
  do* on_zsl port (modify (fun z => z <| zsl_running_ := false |>)) in
  let* q := on_zsl port (gets zsl_queue_) in
  do* for_each q return_entry in
  do* on_zsl port (modify (fun z => z <| zsl_queue_ := [] |>)) in
  ret NO_ERROR.

(** The first entry of the time stamp is changed, or else [e] is put at the
    end. *)
Fixpoint merge_entry (ts : Z) (f : ZSLEntry M -> ZSLEntry M) (e : ZSLEntry M) (q : list (ZSLEntry M)) : list (ZSLEntry M) :=
  match q with
  | [] => [e]
  | x :: q' => if z_timestamp x =? ts then f x :: q' else x :: merge_entry ts f e q'
  end.

(** The oldest entry leaves a queue that is longer than its depth; [none] is
    what the local entry is otherwise. *)
Definition trim_queue (none : ZSLEntry M) (z : ZslPort M) : ZSLEntry M * ZslPort M :=
  match zsl_queue_ z with
  | e :: q => if u32 (zsl_queue_depth_ z + 1) <=? Z.of_nat (length (zsl_queue_ z)) then (e, z <| zsl_queue_ := q |>) else (none, z)
  | [] => (none, z)
  end.

Definition enqueue (none : ZSLEntry M) (ts : Z) (f : ZSLEntry M -> ZSLEntry M) (e : ZSLEntry M) (z : ZslPort M)
    : ZSLEntry M * ZslPort M :=
  trim_queue none (z <| zsl_queue_ := merge_entry ts f e (zsl_queue_ z) |>).

(** A frame for the queue; while the queue is paused it goes back at once.
    The buffer of the local entry is not initialised: [garbage] is what it
    holds, and what goes back when its time stamp is -1. *)
Definition ZSLCaptureCallback (garbage : StreamBuffer) (port : Z) (b : StreamBuffer) : ST Ctx unit :=
  let ts := sb_timestamp b in
  let* e := on_zsl port (pure_step (fun z =>
    if zsl_running_ z
    then enqueue (mkZSLEntry (Some garbage) meta_empty (-1)) ts (fun x => x <| z_buffer := Some b |>) (mkZSLEntry (Some b) meta_empty ts) z
    else (mkZSLEntry (Some b) meta_empty ts, z))) in
  return_entry e.

Definition HandleZSLCaptureResult (port : Z) (meta : M) : ST Ctx unit :=
  let* p := the_port port in
  if camera_stream_id_ p <? 0 then ret tt
  else
    match meta_find ANDROID_SENSOR_TIMESTAMP meta with
    | Some (ts :: _) =>
        let* e := on_zsl port (pure_step (fun z =>
          if zsl_running_ z
          then enqueue no_entry ts (fun x => x <| z_result := meta_append (z_result x) meta |>)
                 (mkZSLEntry None (meta_append meta_empty meta) ts) z
          else (no_entry, z))) in
        return_entry e
    | Some [] => undefined
    | None => ret tt
    end.

Definition well_exposed (e : ZSLEntry M) : bool :=
  has_buffer e && negb (meta_isEmpty (z_result e)) &&
  match meta_data ANDROID_CONTROL_AE_STATE (z_result e) with
  | st :: _ => (st =? AE_STATE_CONVERGED) || (st =? AE_STATE_LOCKED)
  | [] => false
  end.

(** The last entry for which [p], and the others. *)
Fixpoint take_last {A} (p : A -> bool) (l : list A) : option (A * list A) :=
  match l with
  | [] => None
  | x :: l' =>
      match take_last p l' with
      | Some (y, r) => Some (y, x :: r)
      | None => if p x then Some (x, l') else None
      end
  end.

Definition PickZSLBuffer (port : Z) : ST Ctx Z :=
  on_zsl port (pure_step (fun z =>
    match zsl_queue_ z with
    | [] => (NO_INIT, z)
    | q =>
        if 0 <=? z_timestamp (zsl_input_buffer_ z) then (- EBUSY, z)
        else
          match take_last well_exposed q with
          | Some (e, q') => (NO_ERROR, z <| zsl_input_buffer_ := e |> <| zsl_queue_ := q' |>)
          | None => (NAME_NOT_FOUND, z)
          end
    end)).

Definition GetZSLInputBuffer (port : Z) : ST Ctx (option StreamBuffer) :=
  on_zsl port (gets (fun z => z_buffer (zsl_input_buffer_ z))).

Definition handle_of_buffer (b : option StreamBuffer) : Z := match b with Some b => sb_handle b | None => 0 end.

(** The input buffer is back from reprocessing. *)
Definition ReturnZSLInputBuffer (port : Z) (b : StreamBuffer) : ST Ctx unit :=
  let* i := on_zsl port (gets (fun z => z_buffer (zsl_input_buffer_ z))) in
  if sb_handle b =? handle_of_buffer i then
    match i with
    | None => undefined
    | Some ib =>
        let* r := ReturnStreamBuffer ib in
        on_zsl port (modify (fun z => z <| zsl_input_buffer_ := (zsl_input_buffer_ z) <| z_timestamp := -1 |> |>))
    end
  else ret tt.

(** Whether ZSL is on and has its port. *)
Definition zsl_on (c : Ctx) : bool :=
  bool_decide (snapshot_type_ c = Snap.kZsl) && match GetPort zsl_port_id_ c with Some _ => true | None => false end.

(** ** The device *)

(** [CancelRequest]: everything in flight is flushed. *)
Definition CancelRequest : ST Ctx Z :=
  let* c := gets id in
  if (streaming_request_id_ c <? 0) && (capture_request_id_ c <? 0) then ret NO_ERROR
  else
    let* f := device dv_Flush in
    if negb (fst f =? NO_ERROR) then undefined
    else
      do* assert_ok (device dv_WaitUntilIdle) in
      do* modify (fun c => c <| aec_ := mkAEC AE_STATE_INACTIVE (-1) |> <| streaming_request_id_ := -1 |>
                             <| capture_request_id_ := -1 |> <| last_frame_number_ := NO_IN_FLIGHT_REPEATING_FRAMES |>) in
      ret NO_ERROR.

Definition IsRawOnly (format : Z) : bool := existsb (fun f => f =? format) raw_formats.

(** Row [i] of the sensor modes: width, height and rate. *)
Definition sensor_row (table : list Z) (mode_size : Z) (i : nat) : option (Z * Z * Z) :=
  let at_ k := table !! Z.to_nat (k + Z.of_nat i * mode_size) in
  match at_ 2, at_ 3, at_ 4 with Some w, Some h, Some f => Some (w, h, f) | _, _, _ => None end.

Fixpoint scan_modes (rows : list (Z * Z * Z)) (i width height fps sensor_mode matched : Z) : Z :=
  match rows with
  | [] => sensor_mode
  | (w, h, f) :: rows' =>
      if (width <=? u32 w) && (height <=? u32 h) && (fps <=? u32 f) && (f <=? matched)
      then scan_modes rows' (i + 1) width height fps i f
      else scan_modes rows' (i + 1) width height fps sensor_mode matched
  end.

(** The mode of the lowest rate that is enough, the last one of equal ones,
    counted from 1; 0 when there is none. *)
Definition GetSensorModeIndex (width height fps : Z) (meta : M) : option Z :=
  match SensorModeTable with
  | None => Some 0
  | Some tag =>
      match meta_data tag meta with
      | [] => Some 0
      | mode_count :: mode_size :: _ =>
          match mapM (sensor_row (meta_data tag meta) mode_size) (seq 0 (Z.to_nat mode_count)) with
          | Some rows => Some (u32 (scan_modes rows 0 width height fps (-1) MAX_SENSOR_FPS + 1))
          | None => None
          end
      | _ => None
      end
  end.

Definition is_constrained (rate : float32) : bool := SFleb kConstrainedModeThreshold rate.

Definition port_rate (p : Port) : float32 := sp_framerate (params_ p).

(** [float] to [uint32_t]. *)
Definition rate_u32 (r : float32) : Z := u32 (f32_trunc r).

Definition configure_for (p : CameraStreamParameters) (rate : Z) (c : Ctx) : option StreamConfiguration :=
  let ports := kv_values (active_ports_ c) in
  let constrained := hfr_supported_ c && (is_constrained (f32_of_Z rate) || existsb (fun q => is_constrained (port_rate q)) ports) in
  let max_rate := fold_left (fun m q => if m <? rate_u32 (port_rate q) then rate_u32 (port_rate q) else m) ports rate in
  let index := if (30 <? max_rate) && SFltb (f32_of_Z max_rate) kConstrainedModeThreshold
               then GetSensorModeIndex (Stream.sp_width p) (Stream.sp_height p) max_rate (static_meta_ c) else Some 0 in
  match index with
  | None => None
  | Some i => Some (mkStreamConfiguration constrained (IsRawOnly (Stream.sp_format p)) (cp_batch_size (camera_parameters_ c)) i (Some p)
                      (i32 max_rate, i32 max_rate))
  end.

(** The device is configured with the stream unless a request is running or
    the stream is only entered. *)
Definition CreateDeviceStream (p : CameraStreamParameters) (rate : Z) (cache : bool) : ST Ctx (Z + Z) :=
  let* c := gets id in
  do* (if zsl_on c then
         let* running := IsRunning zsl_port_id_ in
         if running then let* r := PauseAndFlushZSLQueue zsl_port_id_ in ret tt else ret tt
       else ret tt) in
  let configure := (streaming_request_id_ c <? 0) && negb cache in
  do* (if configure then let* r := assert_ok (device dv_BeginConfigure) in ret tt else ret tt) in
  let* stream := device (dv_CreateStream p) in
  if stream <? 0 then ret (inl BAD_VALUE)
  else
    do* (if configure then
           let* c := gets id in
           match configure_for p rate c with
           | None => undefined
           | Some sc =>
               do* assert_ok (device (dv_EndConfigure sc)) in
               modify (fun c => c <| stream_prepared_ := <[stream := true]> (stream_prepared_ c) |>)
           end
         else ret tt) in
    do* (if zsl_on c && negb cache then ResumeZSL zsl_port_id_ else ret tt) in
    ret (inr stream).

Definition CreateDeviceInputStream (width height format : Z) (cache : bool) : ST Ctx (Z + Z) :=
  let* c := gets id in
  let configure := (streaming_request_id_ c <? 0) && negb cache in
  do* (if configure then let* r := assert_ok (device dv_BeginConfigure) in ret tt else ret tt) in
  let* stream := device (dv_CreateInputStream width height format) in
  if stream <? 0 then ret (inl BAD_VALUE)
  else
    do* (if configure then let* r := assert_ok (device (dv_EndConfigure StreamConfiguration_default)) in ret tt else ret tt) in
    ret (inr stream).

Definition first_request (c : Ctx) : option Request := head (streaming_active_requests_ c).

Definition DeleteDeviceStream (stream : Z) (cache : bool) : ST Ctx Z :=
  let* c := gets id in
  let* resume := (if zsl_on c && (0 <=? streaming_request_id_ c) then
                    let* running := IsRunning zsl_port_id_ in
                    if running then
                      let* r := PauseAndFlushZSLQueue zsl_port_id_ in
                      let* r := CancelRequest in
                      ret (if r =? NO_ERROR then inr true else inl r)
                    else ret (inr false)
                  else ret (inr false)) in
  match resume with
  | inl r => ret r
  | inr resume =>
      do* (if zsl_on c then let* r := assert_ok (device dv_BeginConfigure) in ret tt else ret tt) in
      do* assert_ok (device (dv_DeleteStream stream cache)) in
      if zsl_on c then
        do* assert_ok (device (dv_EndConfigure StreamConfiguration_default)) in
        do* ResumeZSL zsl_port_id_ in
        if resume then
          match first_request c with
          | None => undefined
          | Some rq =>
              let* s := device (dv_SubmitRequest rq true) in
              if fst s <? 0 then undefined
              else do* modify (fun c => c <| streaming_request_id_ := fst s |>) in ret NO_ERROR
          end
        else ret NO_ERROR
      else ret NO_ERROR
  end.

(** ** The request that is repeated *)

Definition empty_request : Request := mkCamera3Request meta_empty [].

Definition has_stream (stream : Z) (r : Request) : bool := existsb (Z.eqb stream) (streamIds r).

(** The stream joins the request at place [i]; a request of a batch without
    settings takes those of the first one, but not the second. *)
Definition join_request (stream : Z) (first : M) (i : nat) (r : Request) : option Request :=
  let r := if has_stream stream r then r else mkCamera3Request (rq_metadata r) (streamIds r ++ [stream]) in
  if (1 <? i)%nat && meta_isEmpty (rq_metadata r) then
    if meta_isEmpty first then None else Some (mkCamera3Request (meta_append (rq_metadata r) first) (streamIds r))
  else Some r.

Fixpoint join_from (stream : Z) (first : M) (i batch : nat) (rs : list Request) : option (list Request) :=
  match batch, rs with
  | S b, r :: rs' =>
      match join_request stream first i r, join_from stream first (S i) b rs' with
      | Some r, Some rs' => Some (r :: rs')
      | _, _ => None
      end
  | _, _ => Some rs
  end.

Definition join_requests (stream : Z) (batch : nat) (rs : list Request) : option (list Request) :=
  let rs := rs ++ replicate (batch - length rs) empty_request in
  join_from stream (match rs with r :: _ => rq_metadata r | [] => meta_empty end) 0 batch rs.

Fixpoint remove_first (stream : Z) (l : list Z) : list Z :=
  match l with [] => [] | x :: l' => if stream =? x then l' else x :: remove_first stream l' end.

Definition leave_request (stream : Z) (r : Request) : Request := mkCamera3Request (rq_metadata r) (remove_first stream (streamIds r)).

(** What a pass over the ports gathers. *)
Record Update := mkUpdate { u_requests : list Request; u_max_fps : float32; u_streams : gset Z; u_removed : gset Z }.

Definition faster (a b : float32) : float32 := if SFltb a b then b else a.

Definition visit_port (u : option Update) (p : Port) : option Update :=
  match u with
  | None => None
  | Some u =>
      let stream := camera_stream_id_ p in
      match port_state_ p with
      | PORT_READYTOSTART =>
          match join_requests stream (Z.to_nat (cp_batch_size (port_parameters p))) (u_requests u) with
          | None => None
          | Some rs => Some (mkUpdate rs (faster (u_max_fps u) (port_rate p)) ({[stream]} ∪ u_streams u) (u_removed u))
          end
      | PORT_READYTOSTOP =>
          let rs := map (leave_request stream) (u_requests u) in
          if existsb (has_stream stream) (u_requests u)
          then Some (mkUpdate rs (u_max_fps u) ({[stream]} ∪ u_streams u) ({[stream]} ∪ u_removed u))
          else Some (mkUpdate rs (u_max_fps u) (u_streams u) (u_removed u))
      | PORT_STARTED => Some (mkUpdate (u_requests u) (faster (u_max_fps u) (port_rate p)) ({[stream]} ∪ u_streams u) (u_removed u))
      | _ => Some u
      end
  end.

(** Requests of a batch without streams are at the end and are dropped. *)
Fixpoint cut_stale (rs : list Request) : option (list Request) :=
  match rs with
  | [] => Some []
  | r :: rs' =>
      match streamIds r with
      | [] => if forallb (fun r => match streamIds r with [] => true | _ => false end) rs' then Some [] else None
      | _ => match cut_stale rs' with Some l => Some (r :: l) | None => None end
      end
  end.

(** [ceil(rate - 0.5)] *)
Definition rounded_rate (r : float32) : option Z :=
  match r with
  | S754_zero _ => Some 0
  | S754_finite s m e =>
      let v := if s then Zneg m else Zpos m in
      Some (if 0 <=? e then v * 2 ^ e else - ((2 ^ (- e) - 2 * v) / 2 ^ (1 - e)))
  | _ => None
  end.

(** The frame rate range and the duration of a frame, in every request. *)
Definition set_rate (rate : Z) (r : Request) : Request :=
  mkCamera3Request (snd (meta_update ANDROID_SENSOR_FRAME_DURATION [1000000000 / rate]
    (snd (meta_update ANDROID_CONTROL_AE_TARGET_FPS_RANGE [rate; rate] (rq_metadata r))))) (streamIds r).

Definition set_rates (fps : float32) (rs : list Request) : option (list Request) :=
  if SFltb (S754_zero false) fps then
    match rounded_rate fps with
    | Some n => if n =? 0 then None else Some (map (set_rate n) rs)
    | None => None
    end
  else Some rs.

Fixpoint wait_prepared (stream : Z) (ws : list (Ctx -> Z * Ctx)) : ST Ctx unit := fun c =>
  if default false (stream_prepared_ c !! stream) then Some (tt, c)
  else
    match ws with
    | [] => None
    | w :: ws' => wait_prepared stream ws' (snd (w c))
    end.

(** The last frame of each stream: [last] is that of the request before, or
    [NO_IN_FLIGHT_REPEATING_FRAMES]. *)
Definition note_stream (removed : gset Z) (last : Z) (c : Ctx) (stream : Z) : Ctx :=
  let c := match last_frame_number_map_ c !! stream with
           | None => c <| last_frame_number_map_ := <[stream := NO_IN_FLIGHT_REPEATING_FRAMES]> (last_frame_number_map_ c) |>
           | Some _ => if last =? NO_IN_FLIGHT_REPEATING_FRAMES then c
                       else c <| last_frame_number_map_ := <[stream := last]> (last_frame_number_map_ c) |>
           end in
  if bool_decide (stream ∈ removed) &&
     negb (default 0 (last_frame_number_map_ c !! stream) =? NO_IN_FLIGHT_REPEATING_FRAMES)
  then c <| removed_stream_ids_ := {[stream]} ∪ removed_stream_ids_ c |> else c.

(** A wait that times out is over, and leaves the streams. *)
Fixpoint wait_removed (ws : list (Ctx -> Z * Ctx)) : ST Ctx unit := fun c =>
  if bool_decide (removed_stream_ids_ c = ∅) then Some (tt, c)
  else
    match ws with
    | [] => None
    | w :: ws' => let '(r, c') := w c in if r =? 0 then wait_removed ws' c' else Some (tt, c')
    end.

(** [NO_IN_FLIGHT_REPEATING_FRAMES]: the request before never reached the
    HAL, so that the number before it counts. *)
Definition store_last (last : Z) (c : Ctx) : Ctx :=
  if last =? NO_IN_FLIGHT_REPEATING_FRAMES then c else c <| last_frame_number_ := last |>.

Definition UpdateRequest (is_streaming : bool) : ST Ctx Z :=
  let* c := gets id in
  match fold_left visit_port (kv_values (active_ports_ c))
          (Some (mkUpdate (streaming_active_requests_ c) (S754_zero false) ∅ ∅)) with
  | None => undefined
  | Some u =>
      match u_requests u with
      | [] => undefined
      | first :: rest =>
          match cut_stale rest with
          | None => undefined
          | Some rest =>
              do* modify (fun c => c <| streaming_active_requests_ := first :: rest |>) in
              match streamIds first with
              | [] => CancelRequest
              | _ =>
                  match set_rates (u_max_fps u) (first :: rest) with
                  | None => undefined
                  | Some rs =>
                      do* modify (fun c => c <| streaming_active_requests_ := rs |>) in
                      if existsb (fun r => meta_isEmpty (rq_metadata r)) rs then undefined
                      else
                        do* for_each (streamIds first) (fun stream => wait_prepared stream (prepare_waits waits)) in
                        let* s := device (dv_SubmitRequestList (rev rs) is_streaming) in
                        if fst s <? 0 then undefined
                        else
                          do* modify (store_last (snd s)) in
                          do* modify (fun c =>
                            let c := c <| streaming_request_id_ := fst s |> in
                            fold_left (note_stream (u_removed u) (last_frame_number_ c)) (elements (u_streams u)) c) in
                          do* wait_removed (pending_waits waits) in
                          ret NO_ERROR
                  end
              end
          end
      end
  end.

(** ** Ports *)

Definition CameraPort_new (p : StreamParam) (parameters : CameraParameters) (z : option (ZslPort M)) : Port :=
  mkCameraPort p parameters (-1) PORT_CREATED false false 0 BufferProducer_new [] z.

(** By the rate as an integer. *)
Definition GetExtraBufferCount (rate : float32) : Z :=
  let n := rate_u32 rate in
  if (n =? 24) || (n =? 30) || (n =? 48) then EXTRA_DCVS_BUFFERS
  else if (n =? 60) || (n =? 90) then EXTRA_HFR_BUFFERS
  else if n =? 120 then 2 * EXTRA_HFR_BUFFERS
  else if n =? 240 then 3 * EXTRA_HFR_BUFFERS
  else 0.

Definition has_bit (flags bit : Z) : bool := negb (Z.land flags bit =? 0).

Definition port_stream_params (p : StreamParam) (features : Z) : CameraStreamParameters :=
  let usage := Z.lor kVideoEncoder
    (if bool_decide (sp_format p = kNV12UBWC) then kPrivateAllocUbwc else Z.lor kSwReadOften kSwWriteOften) in
  let usage := if has_bit features CamFeatureFlag_kLDC || has_bit features CamFeatureFlag_kEIS
               then Z.land usage (Z.lnot kPrivateAllocUbwc) else usage in
  let usage := Z.lor usage (if has_bit (sp_flags p) kUncashed then kPrivateUncached else 0) in
  mkStreamParams (sp_width p) (sp_height p) (FromQmmfToHalFormat (sp_format p)) 0 (sp_rotation p) usage
    (if has_bit (sp_flags p) kEncoded then VIDEO_STREAM_BUFFER_COUNT + GetExtraBufferCount (sp_framerate p)
     else PREVIEW_STREAM_BUFFER_COUNT) true features.

(** [Init] of a new port: its stream, or the error. *)
Definition CameraPort_Init (p : Port) : ST Ctx (Z + Port) :=
  let* r := CreateDeviceStream (port_stream_params (params_ p) (feature_flags (port_parameters p))) (rate_u32 (port_rate p)) false in
  match r with
  | inl _ => ret (inl BAD_VALUE)
  | inr stream => ret (inr (p <| camera_stream_id_ := stream |> <| port_state_ := PORT_CREATED |>))
  end.

Definition CameraPort_DeInit (port : Z) : ST Ctx Z :=
  let* p := the_port port in
  if ready_to_start_ p then undefined
  else
    let* r := DeleteDeviceStream (camera_stream_id_ p) true in
    if negb (r =? NO_ERROR) then ret BAD_VALUE
    else do* on_port port (modify (fun p => p <| consumers_ := [] |>)) in ret r.

Definition set_state (st : PortState) (p : Port) : Port := p <| port_state_ := st |>.

Definition CameraPort_Start (port : Z) : ST Ctx Z :=
  let* p := the_port port in
  if bool_decide (port_state_ p = PORT_STARTED) then ret NO_ERROR
  else
    do* on_port port (modify (fun p => set_state PORT_READYTOSTART (p <| ready_to_start_ := true |> <| aec_converged_ := false |>))) in
    let* r := UpdateRequest true in
    if negb (r =? NO_ERROR) then ret r
    else do* on_port port (modify (set_state PORT_STARTED)) in ret NO_ERROR.

Definition CameraPort_Stop (port : Z) : ST Ctx Z :=
  let* p := the_port port in
  if bool_decide (port_state_ p = PORT_CREATED) then ret NO_ERROR
  else
    do* on_port port (modify (fun p => set_state PORT_READYTOSTOP (p <| ready_to_start_ := false |> <| aec_converged_ := false |>))) in
    let* r := UpdateRequest true in
    if negb (r =? NO_ERROR) then ret r
    else do* on_port port (modify (set_state PORT_STOPPED)) in ret NO_ERROR.

(** The port must be in state [from]. *)
Definition switch_port (from to : PortState) (port : Z) : ST Ctx Z :=
  let* p := the_port port in
  if bool_decide (port_state_ p = from) then do* on_port port (modify (set_state to)) in ret NO_ERROR else undefined.

Definition CameraPort_Pause (port : Z) : ST Ctx Z := switch_port PORT_STARTED PORT_PAUSED port.
Definition CameraPort_Resume (port : Z) : ST Ctx Z := switch_port PORT_PAUSED PORT_STARTED port.

Definition CameraPort_AddConsumer (consumer : Z) (p : Port) : Z * Port :=
  if kv_mem consumer (consumers_ p) then (- EEXIST, p)
  else (NO_ERROR, p <| port_producer := BufferProducer.AddConsumer consumer (port_producer p) |>
                    <| consumers_ := kv_add consumer tt (consumers_ p) |>).

Definition CameraPort_RemoveConsumer (consumer : Z) (p : Port) : Z * Port :=
  if kv_mem consumer (consumers_ p)
  then (NO_ERROR, p <| port_producer := BufferProducer.RemoveConsumer consumer (port_producer p) |>
                    <| consumers_ := kv_remove consumer (consumers_ p) |>)
  else (BAD_VALUE, p).

Definition send (s : Sent) : ST Ctx unit :=
  match s with
  | SentTo c b => call_out (ToConsumer c b)
  | SentBack b => let* r := ReturnStreamBuffer b in ret tt
  end.

(** Whether the exposure had converged for this frame, with the port's new
    state. *)
Definition check_aec (aec : AECData) (ts : Z) (p : Port) : bool * Port :=
  if has_bit (sp_flags (params_ p)) kIAEC then
    let p := if aec_converged_ p then p
             else p <| aec_converged_ := (ae_state aec =? AE_STATE_LOCKED) || (ae_state aec =? AE_STATE_CONVERGED) |>
                    <| aec_timestamp_ := ae_timestamp aec |> in
    (aec_converged_ p && (aec_timestamp_ p <=? ts), p)
  else (true, p).

Definition StreamCallback (port : Z) (b : StreamBuffer) : ST Ctx unit :=
  let* p := the_port port in
  if negb (sb_stream_id b =? camera_stream_id_ p) then undefined
  else
    let* aec := gets aec_ in
    let* pass := on_port port (pure_step (check_aec aec (sb_timestamp b))) in
    let* p := the_port port in
    if (0 <? GetNumConsumer (port_producer p)) && pass then
      let '(sent, q) := BufferProducer.NotifyBuffer b (port_producer p) in
      do* on_port port (modify (fun p => p <| port_producer := q |>)) in
      for_each sent send
    else let* r := ReturnStreamBuffer b in ret tt.

(** A consumer gives a buffer back to the port. *)
Definition consumer_returns (port : Z) (b : StreamBuffer) : ST Ctx unit :=
  let* p := the_port port in
  let '(sent, q) := BufferProducer.NotifyBufferReturned b (port_producer p) in
  do* on_port port (modify (fun p => p <| port_producer := q |>)) in
  for_each sent send.

(** ** Pausing the streams *)

Definition PauseActiveStreams : ST Ctx Z :=
  let* c := gets id in
  if (streaming_request_id_ c <? 0) && (capture_request_id_ c <? 0) then ret NO_ERROR
  else if port_paused_ c then ret NO_ERROR
  else
    let* f := device dv_Flush in
    if negb (fst f =? NO_ERROR) || negb (flush_cb_ c) then undefined
    else
      do* call_out (FlushCb (camera_id_ c)) in
      do* assert_ok (device dv_WaitUntilIdle) in
      do* modify (fun c => c <| last_frame_number_ := NO_IN_FLIGHT_REPEATING_FRAMES |>) in
      do* for_each (kv_keys (active_ports_ c)) (fun port => let* r := CameraPort_Pause port in ret tt) in
      let* c := gets id in
      match stopped_stream_ids_ c with
      | _ :: _ => undefined
      | [] =>
          do* modify (fun c =>
            let c := match streaming_active_requests_ c with
                     | [] => c
                     | r :: rs => c <| stopped_stream_ids_ := fold_right (fun s m => kv_add s tt m) [] (streamIds r) |>
                                    <| streaming_active_requests_ := mkCamera3Request (rq_metadata r) [] :: rs |>
                     end in
            c <| port_paused_ := true |> <| streaming_request_id_ := -1 |> <| capture_request_id_ := -1 |>) in
          ret NO_ERROR
      end.

(** [state_only]: the request runs already. *)
Definition ResumeActiveStreams (state_only : bool) : ST Ctx Z :=
  let* c := gets id in
  match stopped_stream_ids_ c with
  | [] => do* modify (fun c => c <| port_paused_ := false |>) in ret NO_ERROR
  | _ =>
      do* for_each (kv_keys (active_ports_ c)) (fun port =>
            let* r := assert_ok (if state_only then CameraPort_Resume port else CameraPort_Start port) in ret tt) in
      do* modify (fun c => c <| stopped_stream_ids_ := [] |> <| port_paused_ := false |>) in
      ret NO_ERROR
  end.

(** ** Ports that are there *)

Lemma on_port_eq {A} port (m : ST Port A) c p a p' : GetPort port c = Some p -> m p = Some (a, p') ->
  on_port port m c = Some (a, c <| active_ports_ := kv_replace port p' (active_ports_ c) |>).
Proof. intros Hp Hm. unfold on_port. by rewrite Hp, Hm. Qed.

Lemma the_port_eq port c p : GetPort port c = Some p -> the_port port c = Some (p, c).
Proof.
  intros Hp. unfold the_port. rewrite (on_port_eq port _ c p p p Hp eq_refl), kv_replace_same by exact Hp. by destruct c.
Qed.

Lemma GetPort_replaced port c p p' : GetPort port c = Some p ->
  GetPort port (c <| active_ports_ := kv_replace port p' (active_ports_ c) |>) = Some p'.
Proof. intros Hp. exact (kv_lookup_replaced port p' p _ Hp). Qed.
End Context.
