(* ===== verification/CameraContext.v ===== *)
(** * The camera of the recorder

    Models [CameraContext] and [ZslPort] of
    recorder/src/service/qmmf_camera_context.cc above their requests: opening
    and closing a camera, snapshots, zero shutter lag, streams, and the
    callbacks of the device.  The code is built with USE_FPS_IDX,
    CAM_ARCH_V2 and FLUSH_RESTART_NOTAVAILABLE.  It implements
    [CameraInterface].

    A failed assertion, a null pointer and a read past the end of metadata
    are [None].  Not kept: the temperature that is written to the log. *)

From Stdlib Require Import SpecFloat.
From S2P Require Import Prelude KeyedVector Floats Monitor Memory Stream Adaptor ExtraParam BufferProducer Rescaler RecorderTypes CameraUtils CameraInterface ContextTypes ContextRequests.

(** A call that ends the caller with its error. *)
Notation "'ok*' m 'in' k" := (let* r := m in if r =? NO_ERROR then k else ret r) (at level 10, m at level 100, k at level 200).

(** What the platform says: the property [persist.qmmf.static.mem.alloc]. *)
Class ContextPlatform := { static_mem_alloc : Z }.

Section CameraContext.
Context {M W : Type} `{CameraMetadata M} `{MetadataTags} `{InputTag} `{ContextTags} `{HalPlatform} `{RgbPlatform} `{CameraDevice M W}
  `{ContextPlatform}.
Context (waits : ContextWaits (M := M) (W := W)).

Abbreviation Ctx := (CameraContext M W).
Abbreviation Port := (CameraPort M).
Abbreviation Request := (Camera3Request M).

Definition CameraParameters_default : CameraParameters := mkCameraParameters false 30 1 CamFeatureFlag_kNone.

Definition no_stream_params : CameraStreamParameters := mkStreamParams 0 0 (-1) 0 0 0 0 false CamFeatureFlag_kNone.

Definition CameraContext_new : Ctx := {|
  camera_device_ := None; camera_id_ := u32 (-1); static_meta_ := meta_empty; stream_prepared_ := ∅;
  streaming_request_id_ := -1; capture_request_id_ := -1; last_frame_number_map_ := ∅; removed_stream_ids_ := ∅;
  last_frame_number_ := NO_IN_FLIGHT_REPEATING_FRAMES; snapshot_request_ := empty_request; client_snapshot_cb_ := false;
  capture_cnt_ := 0; cancel_capture_ := false; result_cb_ := false; error_cb_ := false; flush_cb_ := false;
  supported_fps_ := []; active_ports_ := []; snapshot_buffer_list_ := []; snapshot_buffer_stream_list_ := ∅;
  hfr_supported_ := false; hfr_batch_modes_list_ := []; streaming_active_requests_ := []; batch_stream_id_ := -1;
  aec_ := mkAEC AE_STATE_INACTIVE (-1); partial_result_count_ := 0;
  snapshot_param_ := mkSnapshotParam 0 0 95 kBLOB; thumbnails_ := [];
  snapshot_type_ := Snap.kVideo; new_snapshot_type_ := Snap.kVideo; raw_snapshot_format_ := kRAW10;
  jpeg_input_format_ := kUnsupported; new_jpeg_input_format_ := kUnsupported; exif_en_ := true;
  snapshot_stream_param_ := no_stream_params; restart_pipe_ := true; reconfig_pipe_ := false; port_paused_ := false;
  stopped_stream_ids_ := []; camera_parameters_ := CameraParameters_default; continuous_mode_is_on := false; calls := []
|}.

Definition SetFlushCb : ST Ctx unit := modify (fun c => c <| flush_cb_ := true |>).

(** ** Opening and closing *)

Fixpoint fixed_rates (data : list Z) : option (list Z) :=
  match data with
  | [] => Some []
  | a :: b :: rest => match fixed_rates rest with Some l => Some (if a =? b then a :: l else l) | None => None end
  | _ => None
  end.

Definition InitSupportedFPS : ST Ctx unit :=
  let* c := gets id in
  match meta_find ANDROID_CONTROL_AE_AVAILABLE_TARGET_FPS_RANGES (static_meta_ c) with
  | None => ret tt
  | Some data =>
      match fixed_rates data with
      | Some l => modify (fun c => c <| supported_fps_ := supported_fps_ c ++ l |>)
      | None => undefined
      end
  end.

Definition IsInputSupported (c : Ctx) : bool :=
  match meta_data ANDROID_REQUEST_MAX_NUM_INPUT_STREAMS (static_meta_ c) with n :: _ => 0 <? n | [] => false end.

Fixpoint hfr_modes (data : list Z) : option (list HFRMode_t) :=
  match data with
  | [] => Some []
  | w :: h :: lo :: hi :: b :: rest =>
      match hfr_modes rest with
      | Some l => Some (if lo =? hi then mkHFRMode (u32 w) (u32 h) (u32 b) (u32 lo) :: l else l)
      | None => None
      end
  | _ => None
  end.

Definition InitHFRModes : ST Ctx unit :=
  let* c := gets id in
  do* (if existsb (Z.eqb CONSTRAINED_HIGH_SPEED_VIDEO) (meta_data ANDROID_REQUEST_AVAILABLE_CAPABILITIES (static_meta_ c))
       then modify (fun c => c <| hfr_supported_ := true |>) else ret tt) in
  let* supported := gets hfr_supported_ in
  if negb supported then ret tt
  else
    match hfr_modes (meta_data ANDROID_CONTROL_AVAILABLE_HIGH_SPEED_VIDEO_CONFIGURATIONS (static_meta_ c)) with
    | Some l => modify (fun c => c <| hfr_batch_modes_list_ := hfr_batch_modes_list_ c ++ l |>)
    | None => undefined
    end.

(** A tag that may be there once. *)
Definition take_tag {A} (tag : Z) (fetch : ExtraParam -> option A) (set : A -> CameraParameters -> CameraParameters) (x : ExtraParam)
    : ST Ctx Z :=
  if Exists tag x then
    if EntryCount tag x =? 1 then
      match fetch x with
      | Some a => do* modify (fun c => c <| camera_parameters_ := set a (camera_parameters_ c) |>) in ret NO_ERROR
      | None => undefined
      end
    else ret BAD_VALUE
  else ret NO_ERROR.

Definition add_features (flags : Z) (p : CameraParameters) : CameraParameters := p <| feature_flags := Z.lor (feature_flags p) flags |>.

Definition feature_if (flag : Z) (on : bool) (p : CameraParameters) : CameraParameters := if on then add_features flag p else p.

Definition force_mode (word : Z) (p : CameraParameters) : CameraParameters :=
  if 0 <=? i32 word then add_features (Z.lor (u32 (FORCE_SENSOR_MODE_DATA (i32 word))) CamFeatureFlag_kForceSensorMode) p else p.

Definition CreateCaptureRequest (template : Z) : ST Ctx M :=
  let* r := device (dv_CreateDefaultRequest template) in
  if fst r =? NO_ERROR then ret (snd r) else undefined.

Definition set_metadata (m : M) (r : Request) : Request := mkCamera3Request m (streamIds r).

Definition OpenCamera (camera_id : Z) (rate : float32) (x : ExtraParam) (cb errcb : bool) : ST Ctx Z :=
  do* modify (fun c => c <| camera_parameters_ := CameraParameters_default <| frame_rate := i32 (f32_trunc rate) |> |>) in
  ok* take_tag QMMF_VIDEO_HDR_MODE (fetch_flag QMMF_VIDEO_HDR_MODE false) (feature_if CamFeatureFlag_kHDR) x in
  ok* take_tag QMMF_FORCE_SENSOR_MODE (fetch_word QMMF_FORCE_SENSOR_MODE (u32 (-1))) force_mode x in
  ok* take_tag QMMF_EIS (fetch_flag QMMF_EIS false) (feature_if CamFeatureFlag_kEIS) x in
  ok* take_tag QMMF_LDC (fetch_flag QMMF_LDC false) (feature_if CamFeatureFlag_kLDC) x in
  ok* take_tag QMMF_PARTIAL_METADATA (fetch_flag QMMF_PARTIAL_METADATA false)
        (fun on p => if on : bool then p <| is_partial_metadata_enabled := true |> else p) x in
  do* modify (fun c => c <| camera_parameters_ := (camera_parameters_ c) <| cp_batch_size := 1 |> |>
                         <| camera_device_ := Some dv_new |>) in
  let* r := device dv_Initialize in
  if negb (r =? NO_ERROR) then do* modify (fun c => c <| camera_device_ := None |>) in ret (u32 r)
  else
    do* assert_ok (device (dv_OpenCamera camera_id)) in
    do* modify (fun c => c <| camera_id_ := camera_id |>) in
    let* info := device (dv_GetCameraInfo camera_id) in
    if negb (fst info =? NO_ERROR) then undefined
    else
      do* modify (fun c => c <| static_meta_ := snd info |>) in
      do* InitSupportedFPS in
      let* fps := gets supported_fps_ in
      match fps with
      | [] => undefined
      | _ =>
          do* InitHFRModes in
          do* modify (fun c =>
            match meta_data ANDROID_REQUEST_PARTIAL_RESULT_COUNT (static_meta_ c) with
            | n :: _ => c <| partial_result_count_ := n |>
            | [] => c
            end) in
          let* m := CreateCaptureRequest TEMPLATE_STILL_CAPTURE in
          do* modify (fun c => c <| snapshot_request_ := set_metadata m (snapshot_request_ c) |>
                                 <| result_cb_ := cb |> <| error_cb_ := errcb |>) in
          ret NO_ERROR
      end.

(** The last error of the streams. *)
Fixpoint delete_streams (streams : list Z) (cache : bool) (r : Z) : ST Ctx Z :=
  match streams with
  | [] => ret r
  | s :: streams' =>
      let* e := DeleteDeviceStream s cache in
      delete_streams streams' cache (if e =? NO_ERROR then r else e)
  end.

Definition DeleteSnapshotStream (cache : bool) : ST Ctx Z :=
  let* c := gets id in
  let* r := delete_streams (streamIds (snapshot_request_ c)) (cache || (streaming_request_id_ c =? -1)) NO_ERROR in
  do* modify (fun c => c <| snapshot_request_ := mkCamera3Request (rq_metadata (snapshot_request_ c)) [] |>
                         <| snapshot_stream_param_ := no_stream_params |> <| snapshot_type_ := Snap.kNone |>
                         <| capture_request_id_ := -1 |>) in
  ret r.

Definition CloseCamera (camera_id : Z) : ST Ctx Z :=
  let* c := gets id in
  if negb (camera_id_ c =? camera_id) then undefined
  else
    match camera_device_ c with
    | None => undefined
    | Some _ =>
        let* r := DeleteSnapshotStream false in
        let* c := gets id in
        if 0 <? streaming_request_id_ c then ret INVALID_OPERATION
        else
          do* assert_ok (device dv_WaitUntilIdle) in
          do* modify (fun c => c <| last_frame_number_ := NO_IN_FLIGHT_REPEATING_FRAMES |> <| camera_device_ := None |>) in
          ret NO_ERROR
    end.

(** ** Snapshots *)

Definition settled (st : Z) : bool := (st =? AE_STATE_LOCKED) || (st =? AE_STATE_CONVERGED).

Fixpoint wait_aec (ws : list (Ctx -> Z * Ctx)) : ST Ctx Z := fun c =>
  if settled (ae_state (aec_ c)) then Some (NO_ERROR, c)
  else
    match ws with
    | [] => None
    | w :: ws' => let '(r, c') := w c in if r =? 0 then wait_aec ws' c' else Some (TIMED_OUT, c')
    end.

Definition WaitAecToConverge : ST Ctx Z :=
  let* c := gets id in
  if streaming_request_id_ c =? -1 then ret NO_ERROR else wait_aec (aec_waits waits).

Definition context_ValidateResolution (format : BufferFormat) (w h : Z) : ST Ctx Z :=
  let* c := gets id in
  match ValidateResolution (static_meta_ c) format w h with
  | None => undefined
  | Some b => ret (if b then NO_ERROR else BAD_VALUE)
  end.

Definition with_raw (t : SnapshotMode) : bool := match t with Snap.kStillPlusRaw | Snap.kVideoPlusRaw => true | _ => false end.

Definition IsNeedReconfigSnapshotStream (c : Ctx) : bool :=
  if bool_decide (snapshot_type_ c = new_snapshot_type_ c) then false
  else with_raw (new_snapshot_type_ c) || with_raw (snapshot_type_ c).

Definition IsStreamParamsChanged (p : CameraStreamParameters) (c : Ctx) : bool :=
  let q := snapshot_stream_param_ c in
  negb (Stream.sp_format p =? Stream.sp_format q) || negb (Stream.sp_width p =? Stream.sp_width q)
  || negb (Stream.sp_height p =? Stream.sp_height q) || (sp_bufferCount q <? sp_bufferCount p)
  || negb (sp_allocFlags p =? sp_allocFlags q).

Definition GetSnapshotStreamParams (p : SnapshotParam) : CameraStreamParameters :=
  let usage := Z.lor kSwWriteOften kSwReadOften in
  mkStreamParams (sn_width p) (sn_height p) (FromQmmfToHalFormat (sn_format p)) 0 0
    (if bool_decide (sn_format p = kNV12Encodable) then Z.lor usage kVideoEncoder else usage)
    MAX_SNAPSHOT_BUFFER_COUNT true CamFeatureFlag_kNone.

Definition add_snapshot_stream (s : Z) (c : Ctx) : Ctx :=
  c <| snapshot_request_ := mkCamera3Request (rq_metadata (snapshot_request_ c)) (streamIds (snapshot_request_ c) ++ [s]) |>.

(** A stream for snapshots, at the frame rate of the camera. *)
Definition new_snapshot_stream (p : CameraStreamParameters) (cache : bool) : ST Ctx Z :=
  let* c := gets id in
  let* r := CreateDeviceStream p (u32 (frame_rate (camera_parameters_ c))) cache in
  match r with
  | inl e => ret e
  | inr s => do* modify (add_snapshot_stream s) in ret NO_ERROR
  end.

(** The raw stream takes the largest size; without one it is empty. *)
Definition raw_stream_params (p : CameraStreamParameters) (c : Ctx) : option CameraStreamParameters :=
  match GetMaxSupportedCameraRes (static_meta_ c) (raw_snapshot_format_ c) with
  | None => None
  | Some (_, (w, h)) =>
      Some (mkStreamParams w h (FromQmmfToHalFormat (raw_snapshot_format_ c)) (sp_data_space p) (Stream.sp_rotation p)
              (Z.lor kSwWriteOften kSwReadOften) MAX_SNAPSHOT_BUFFER_COUNT (sp_has_cb p) (sp_cam_feature_flags p))
  end.

Definition CreateSnapshotStream (p : CameraStreamParameters) (cache : bool) : ST Ctx Z :=
  let* c := gets id in
  ok* (if IsStreamParamsChanged p c then
         let* e := PauseActiveStreams in
         let* c := gets id in
         ok* (match streamIds (snapshot_request_ c) with
              | [] => ret NO_ERROR
              | [_] => DeleteSnapshotStream true
              | _ => ret BAD_VALUE
              end) in
         new_snapshot_stream p cache
       else ret NO_ERROR) in
  let* c := gets id in
  if with_raw (snapshot_type_ c) then
    match raw_stream_params p c with
    | Some q => new_snapshot_stream q cache
    | None => undefined
    end
  else ret NO_ERROR.

Definition ValidateCaptureParams (w h : Z) (format : BufferFormat) (p : Port) : Z :=
  if negb (bool_decide (format = kBLOB)) then BAD_VALUE
  else if negb (w =? CameraInterface.sp_width (params_ p)) || negb (h =? CameraInterface.sp_height (params_ p)) then BAD_VALUE
  else if (CameraInterface.sp_width (params_ p) <? w) || (CameraInterface.sp_height (params_ p) <? h) then BAD_VALUE
  else NO_ERROR.

Definition reconfigure_needed (p : SnapshotParam) (c : Ctx) : bool :=
  match streamIds (snapshot_request_ c) with [] => true | _ => false end
  || negb (sn_width (snapshot_param_ c) =? sn_width p) || negb (sn_height (snapshot_param_ c) =? sn_height p)
  || IsNeedReconfigSnapshotStream c || negb (bool_decide (jpeg_input_format_ c = new_jpeg_input_format_ c))
  || negb (bool_decide (sn_format (snapshot_param_ c) = sn_format p)).

Definition SetUpCapture (p : SnapshotParam) : ST Ctx Z :=
  let* c := gets id in
  if bool_decide (snapshot_type_ c = Snap.kZsl) then
    let* port := the_port zsl_port_id_ in ret (ValidateCaptureParams (sn_width p) (sn_height p) (sn_format p) port)
  else
    do* modify (fun c => c <| snapshot_param_ := p |> <| snapshot_type_ := new_snapshot_type_ c |>
                           <| jpeg_input_format_ := new_jpeg_input_format_ c |>) in
    if reconfigure_needed p c then
      ok* context_ValidateResolution (sn_format p) (sn_width p) (sn_height p) in
      ok* CreateSnapshotStream (GetSnapshotStreamParams p) false in
      do* modify (fun c => c <| snapshot_param_ := p |> <| snapshot_stream_param_ := GetSnapshotStreamParams p |>) in
      let* e := WaitAecToConverge in
      ret NO_ERROR
    else ret NO_ERROR.

(** *** Zero shutter lag *)

(** [SetUpZSL] of a port that is not entered yet: the port, or the error. *)
Definition SetUpZSL (p : Port) (z : ZslPort M) : ST Ctx (Z + Port) :=
  let* c := gets id in
  if zsl_queue_depth_ z =? 0 then ret (inl BAD_VALUE)
  else if negb (existsb (Z.eqb (i32 (f32_trunc (port_rate p)))) (supported_fps_ c)) then ret (inl BAD_VALUE)
  else
    let q := params_ p in
    let* r := context_ValidateResolution (CameraInterface.sp_format q) (CameraInterface.sp_width q) (CameraInterface.sp_height q) in
    if negb (r =? NO_ERROR) then ret (inl r)
    else
      let* s := CreateDeviceStream
        (mkStreamParams (CameraInterface.sp_width q) (CameraInterface.sp_height q) (FromQmmfToHalFormat (CameraInterface.sp_format q)) 0 0
           (Z.lor kHwFb kHwCameraZsl) (u32 (zsl_queue_depth_ z + VIDEO_STREAM_BUFFER_COUNT)) true CamFeatureFlag_kNone)
        (rate_u32 (port_rate p)) false in
      match s with
      | inl e => ret (inl e)
      | inr stream =>
          let* i := CreateDeviceInputStream (CameraInterface.sp_width q) (CameraInterface.sp_height q)
                      HAL_PIXEL_FORMAT_IMPLEMENTATION_DEFINED true in
          match i with
          | inl e => ret (inl e)
          | inr input =>
              ret (inr (p <| camera_stream_id_ := stream |>
                          <| zsl := Some (z <| input_stream_id_ := input |> <| zsl_running_ := true |>) |>))
          end
      end.

Definition ZslPort_new (depth : Z) : ZslPort M := mkZslPort (-1) [] no_entry false depth.

Definition ZslPort_Init (p : Port) : ST Ctx (Z + Port) :=
  match zsl p with
  | None => undefined
  | Some z =>
      let* r := SetUpZSL p z in
      ret (match r with inl e => inl e | inr p => inr (set_state PORT_CREATED p) end)
  end.

(** [DeInit] of either kind of port. *)
Definition Port_DeInit (port : Z) : ST Ctx Z :=
  let* p := the_port port in
  match zsl p with
  | None => CameraPort_DeInit port
  | Some z =>
      if input_stream_id_ z =? -1 then CameraPort_DeInit port
      else
        let* r := DeleteDeviceStream (input_stream_id_ z) true in
        if negb (r =? NO_ERROR) then ret BAD_VALUE else CameraPort_DeInit port
  end.

(** A port that is there already stays. *)
Definition enter_port (id : Z) (p : Port) (c : Ctx) : Ctx :=
  if kv_mem id (active_ports_ c) then c else c <| active_ports_ := kv_add id p (active_ports_ c) |>.

Definition set_first (f : Request -> Request) (c : Ctx) : Ctx :=
  match streaming_active_requests_ c with
  | [] => c <| streaming_active_requests_ := [f empty_request] |>
  | r :: rs => c <| streaming_active_requests_ := f r :: rs |>
  end.

Definition StartZSL (t : SnapshotType) : ST Ctx Z :=
  let* c := gets id in
  if negb (IsInputSupported c) then ret BAD_VALUE
  else
    let sp := mkSnapshotParam (zsl_image_width t) (zsl_image_height t) (zsl_image_quality t) (FromImageToQmmfFormat (zsl_image_param_format t)) in
    do* modify (fun c => c <| snapshot_param_ := sp |>) in
    let q := GetSnapshotStreamParams sp in
    let* e := PauseActiveStreams in
    ok* CreateSnapshotStream q true in
    do* modify (set_first id) in
    let* m := CreateCaptureRequest TEMPLATE_ZERO_SHUTTER_LAG in
    let* c := gets id in
    let rate := frame_rate (camera_parameters_ c) in
    do* modify (set_first (set_metadata (snd (meta_update ANDROID_CONTROL_AE_TARGET_FPS_RANGE [rate; rate] m)))) in
    let param := mkStreamParam zsl_port_id_ (Stream.sp_width q) (Stream.sp_height q) 0 (FromHalToQmmfFormat (Stream.sp_format q))
                   (f32_of_Z rate) kNone in
    let* p := ZslPort_Init (CameraPort_new param (camera_parameters_ c) (Some (ZslPort_new (zsl_queue_depth t)))) in
    match p with
    | inl _ => ret BAD_VALUE
    | inr p =>
        do* modify (enter_port zsl_port_id_ p) in
        ok* CameraPort_Start waits zsl_port_id_ in
        let* e := ResumeActiveStreams waits false in
        ret NO_ERROR
    end.

Definition StopZSL : ST Ctx Z :=
  let* e := PauseAndFlushZSLQueue zsl_port_id_ in
  let* e := PauseActiveStreams in
  ok* CameraPort_Stop waits zsl_port_id_ in
  let* e := DeleteSnapshotStream true in
  ok* Port_DeInit zsl_port_id_ in
  do* modify (fun c => c <| active_ports_ := kv_remove zsl_port_id_ (active_ports_ c) |>) in
  let* e := ResumeActiveStreams waits false in
  ret NO_ERROR.

(** The quality of the JPEG, a byte. *)
Definition with_quality (c : Ctx) (m : M) : M := snd (meta_update ANDROID_JPEG_QUALITY [sn_quality (snapshot_param_ c) mod 256] m).

(** The streams of the request that is repeated, if there is exactly one. *)
Definition active_streams (c : Ctx) : list Z := match streaming_active_requests_ c with [r] => streamIds r | _ => [] end.

Definition CaptureZSLImage : ST Ctx Z :=
  let* stat := PickZSLBuffer zsl_port_id_ in
  let* c := gets id in
  match streamIds (snapshot_request_ c) with
  | [] => undefined
  | s :: _ =>
      let more := if bool_decide (snapshot_type_ c = Snap.kVideo) then active_streams c else [] in
      let* p := the_port zsl_port_id_ in
      match zsl p with
      | None => undefined
      | Some z =>
          let* rq := (if stat =? NO_ERROR then
                        ret (mkCamera3Request (with_quality c (z_result (zsl_input_buffer_ z))) (input_stream_id_ z :: s :: more))
                      else
                        let r := mkCamera3Request (with_quality c (rq_metadata (snapshot_request_ c))) (streamIds (snapshot_request_ c)) in
                        do* modify (fun c => c <| snapshot_request_ := r |>) in
                        ret (mkCamera3Request (rq_metadata r) (streamIds r ++ more))) in
          let* n := device (dv_SubmitRequest rq false) in
          ret (if fst n <? 0 then UNKNOWN_ERROR else NO_ERROR)
      end
  end.

(** *** Capturing *)

(** The settings of the next image: those of the stream, those that the
    client gave, or those of the image before. *)
Definition capture_settings (metas : list M) (c : Ctx) : M * list M :=
  match streaming_active_requests_ c, snapshot_type_ c with
  | r :: _, (Snap.kVideo | Snap.kVideoPlusRaw) =>
      if meta_isEmpty (rq_metadata r) then
        match metas with m :: ms => (meta_append meta_empty m, ms) | [] => (rq_metadata (snapshot_request_ c), []) end
      else (meta_append meta_empty (rq_metadata r), metas)
  | _, _ =>
      match metas with m :: ms => (meta_append meta_empty m, ms) | [] => (rq_metadata (snapshot_request_ c), []) end
  end.

(** The streams that the image shares its frame with; paused ones go back to
    the request that is repeated. *)
Definition capture_streams (c : Ctx) : option (list Z * Ctx) :=
  match snapshot_type_ c with
  | Snap.kVideo | Snap.kContinuous | Snap.kVideoPlusRaw =>
      match streaming_active_requests_ c with
      | [r] =>
          if port_paused_ c then
            match streamIds r with
            | [] =>
                let ss := kv_keys (stopped_stream_ids_ c) in
                Some (ss, c <| streaming_active_requests_ := [mkCamera3Request (rq_metadata r) ss] |> <| port_paused_ := false |>)
            | _ => None
            end
          else Some (streamIds r, c)
      | _ => Some ([], c)
      end
  | _ => Some ([], c)
  end.

(** The requests of [n] images. *)
Fixpoint capture_requests (n : nat) (metas : list M) : ST Ctx (list Request) :=
  match n with
  | O => ret []
  | S n' =>
      let* c := gets id in
      let '(m, metas') := capture_settings metas c in
      let r := mkCamera3Request (with_quality c m) (streamIds (snapshot_request_ c)) in
      do* modify (fun c => c <| snapshot_request_ := r |>) in
      let* ss := (fun c => capture_streams c) in
      let* rs := capture_requests n' metas' in
      ret (mkCamera3Request (rq_metadata r) (streamIds r ++ ss) :: rs)
  end.

Definition CaptureImage (num_images : Z) (metas : list M) (cb : bool) : ST Ctx Z :=
  do* modify (fun c => c <| ContextTypes.client_snapshot_cb_ := cb |> <| capture_cnt_ := 0 |>) in
  let* c := gets id in
  match streamIds (snapshot_request_ c) with
  | [] => ret BAD_VALUE
  | _ =>
      if continuous_mode_is_on c then ret NO_ERROR
      else
        let streaming := bool_decide (snapshot_type_ c = Snap.kContinuous) in
        do* (if streaming then modify (fun c => c <| continuous_mode_is_on := true |>) else ret tt) in
        if bool_decide (snapshot_type_ c = Snap.kZsl) then CaptureZSLImage
        else
          let* rs := capture_requests (if streaming then 1%nat else Z.to_nat num_images) metas in
          do* modify (fun c => c <| cancel_capture_ := false |>) in
          let* s := device (dv_SubmitRequestList rs streaming) in
          do* modify (store_last (snd s)) in
          if fst s <? 0 then undefined
          else
            do* modify (fun c => if streaming then c <| streaming_request_id_ := fst s |> else c <| capture_request_id_ := fst s |>) in
            let* e := ResumeActiveStreams waits streaming in
            ret NO_ERROR
  end.

Definition ValidateCaptureConfig (x : ExtraParam) : option Z :=
  if Exists QMMF_EXIF x && Exists QMMF_IMAGE_THUMBNAIL x then
    match fetch_flag QMMF_EXIF true x with
    | None => None
    | Some enable => Some (if enable then NO_ERROR else INVALID_OPERATION)
    end
  else Some NO_ERROR.

Definition config_thumbnails (x : ExtraParam) : ST Ctx Z :=
  if Exists QMMF_IMAGE_THUMBNAIL x then
    match mapM (fun i => fetch_thumbnail (Z.of_nat i) x) (seq 0 (Z.to_nat (EntryCount QMMF_IMAGE_THUMBNAIL x))) with
    | None => undefined
    | Some l => do* modify (fun c => c <| thumbnails_ := l |> <| reconfig_pipe_ := true |>) in ret NO_ERROR
    end
  else ret NO_ERROR.

Definition config_exif (x : ExtraParam) : ST Ctx Z :=
  if Exists QMMF_EXIF x then
    match fetch_flag QMMF_EXIF true x with
    | None => undefined
    | Some enable =>
        do* modify (fun c => if Bool.eqb (exif_en_ c) enable then c else c <| exif_en_ := enable |> <| restart_pipe_ := true |>) in
        ret NO_ERROR
    end
  else ret NO_ERROR.

(** [BufferFormat::kNV12] is the number 1. *)
Definition config_setup (x : ExtraParam) : ST Ctx Z :=
  if Exists QMMF_JPEG_CAPTURE_SETUP x then
    match fetch_word QMMF_JPEG_CAPTURE_SETUP 1 x with
    | None => undefined
    | Some n =>
        match buffer_format_of n with
        | None => undefined
        | Some f =>
            do* modify (fun c => if bool_decide (new_jpeg_input_format_ c = f) then c
                                 else c <| new_jpeg_input_format_ := f |> <| restart_pipe_ := true |>) in
            ret NO_ERROR
        end
    end
  else ret NO_ERROR.

Definition config_raw_format (t : SnapshotType) : ST Ctx Z :=
  if with_raw (st_type t) then
    let f := FromImageToQmmfFormat (st_raw_format t) in
    match f with
    | kRAW8 | kRAW10 | kRAW12 | kRAW16 =>
        let* c := gets id in
        match ValidateStreamFormat (static_meta_ c) f false with
        | None => undefined
        | Some false => ret BAD_VALUE
        | Some true => do* modify (fun c => c <| raw_snapshot_format_ := f |>) in ret NO_ERROR
        end
    | _ => ret BAD_VALUE
    end
  else ret NO_ERROR.

(** ZSL goes on and off with the type. *)
Definition switch_zsl (t : SnapshotType) : ST Ctx Z :=
  let* c := gets id in
  let was := bool_decide (snapshot_type_ c = Snap.kZsl) in
  let now := bool_decide (new_snapshot_type_ c = Snap.kZsl) in
  do* (if Bool.eqb was now then ret NO_ERROR
       else
         do* assert_ok (if now then StartZSL t else StopZSL) in
         do* modify (fun c => c <| snapshot_type_ := new_snapshot_type_ c |>) in ret NO_ERROR) in
  ret NO_ERROR.

Definition config_type (x : ExtraParam) : ST Ctx Z :=
  if Exists QMMF_SNAPSHOT_TYPE x then
    match fetch_snapshot_type x with
    | None => undefined
    | Some t =>
        ok* config_raw_format t in
        do* modify (fun c => c <| new_snapshot_type_ := st_type t |>) in
        switch_zsl t
    end
  else ret NO_ERROR.

Definition ConfigImageCapture (x : ExtraParam) : ST Ctx Z :=
  match ValidateCaptureConfig x with
  | None => undefined
  | Some r =>
      if negb (r =? NO_ERROR) then ret INVALID_OPERATION
      else
        ok* config_thumbnails x in
        ok* config_exif x in
        ok* config_setup x in
        config_type x
  end.

Definition CancelCaptureImage : ST Ctx Z :=
  let* c := gets id in
  if bool_decide (snapshot_type_ c = Snap.kZsl) then
    do* assert_ok StopZSL in
    do* modify (fun c => c <| snapshot_type_ := Snap.kStill |>) in
    ret NO_ERROR
  else
    match streamIds (snapshot_request_ c) with
    | [] => ret NO_ERROR
    | _ =>
        do* modify (fun c => c <| cancel_capture_ := true |> <| continuous_mode_is_on := false |>) in
        let* e := PauseActiveStreams in
        let* e := DeleteSnapshotStream false in
        let* e := ResumeActiveStreams waits false in
        ret NO_ERROR
    end.

(** ** Streams *)

Definition RestoreBatchStreamId (p : Port) (c : Ctx) : Ctx :=
  if batch_stream_id_ c =? camera_stream_id_ p
  then c <| batch_stream_id_ := -1 |> <| camera_parameters_ := (camera_parameters_ c) <| cp_batch_size := 1 |> |> else c.

Definition StoreBatchStreamId (p : Port) (c : Ctx) : Ctx :=
  if (1 <? cp_batch_size (port_parameters p)) && negb (-1 <? batch_stream_id_ c)
  then c <| batch_stream_id_ := camera_stream_id_ p |> else c.

Definition batch_mode (p : StreamParam) (m : HFRMode_t) : bool :=
  (CameraInterface.sp_width p =? hfr_width m) && (CameraInterface.sp_height p =? hfr_height m)
  && SFltb (SFabs (f32_sub (sp_framerate p) (f32_of_Z (hfr_framerate m)))) f32_tenth.

(** The batch of a stream; none when the camera does not have the rate. *)
Definition batch_of (p : StreamParam) (c : Ctx) : option Z :=
  let constrained := SFleb kConstrainedModeThreshold (sp_framerate p) in
  if constrained && negb (hfr_supported_ c) then None
  else if constrained && bool_decide (snapshot_type_ c = Snap.kZsl) then None
  else if SFleb kHFRBatchModeThreshold (sp_framerate p)
  then hfr_batch <$> List.find (batch_mode p) (hfr_batch_modes_list_ c)
  else Some 1.

(** Beside a stream with a batch there is none. *)
Definition GetBatchSize (p : StreamParam) : ST Ctx (option Z) :=
  let* c := gets id in
  if 1 <? cp_batch_size (camera_parameters_ c) then ret (Some 1)
  else
    match batch_of p c with
    | None => ret None
    | Some b => do* modify (fun c => c <| camera_parameters_ := (camera_parameters_ c) <| cp_batch_size := b |> |>) in ret (Some b)
    end.

(** A stream whose buffers are allocated beforehand is not ready. *)
Definition prepare_stream (s : Z) : ST Ctx unit :=
  do* modify (fun c => c <| stream_prepared_ := <[s := static_mem_alloc =? 0]> (stream_prepared_ c) |>) in
  if static_mem_alloc =? 0 then ret tt else let* r := assert_ok (device (dv_Prepare s)) in ret tt.

Definition CreateStream (p : StreamParam) (x : ExtraParam) : ST Ctx Z :=
  let* c := gets id in
  match camera_device_ c with
  | None => undefined
  | Some _ =>
      if CameraInterface.sp_id p =? 0 then undefined
      else
        let* b := GetBatchSize p in
        match b with
        | None => ret BAD_VALUE
        | Some b =>
            do* modify (fun c => c <| camera_parameters_ := (camera_parameters_ c) <| cp_batch_size := b |> |>) in
            let* c := gets id in
            let* q := CameraPort_Init (CameraPort_new p (camera_parameters_ c) None) in
            match q with
            | inl _ => ret BAD_VALUE
            | inr q =>
                do* prepare_stream (camera_stream_id_ q) in
                do* modify (StoreBatchStreamId q) in
                let* c := gets id in
                do* (match streaming_active_requests_ c with
                     | [] => let* m := CreateCaptureRequest TEMPLATE_VIDEO_RECORD in modify (set_first (set_metadata m))
                     | _ => ret tt
                     end) in
                do* modify (enter_port (CameraInterface.sp_id p) q) in
                ret NO_ERROR
            end
        end
  end.

(** A call on the port of a track, without which it is an error. *)
Definition with_port (track : Z) (k : Port -> ST Ctx Z) : ST Ctx Z :=
  let* c := gets id in
  match GetPort track c with None => ret BAD_VALUE | Some p => k p end.

Definition GetNumConsumers (p : Port) : Z := Z.of_nat (length (consumers_ p)).

Definition DeleteStream (track : Z) : ST Ctx Z := with_port track (fun p =>
  if 0 <? GetNumConsumers p then ret NO_ERROR
  else
    do* assert_ok (Port_DeInit track) in
    do* modify (RestoreBatchStreamId p) in
    do* modify (fun c => c <| active_ports_ := kv_remove track (active_ports_ c) |>) in
    ret NO_ERROR).

Definition AddConsumer (track consumer : Z) : ST Ctx Z := with_port track (fun _ =>
  assert_ok (on_port track (pure_step (CameraPort_AddConsumer consumer)))).
Definition RemoveConsumer (track consumer : Z) : ST Ctx Z := with_port track (fun _ =>
  assert_ok (on_port track (pure_step (CameraPort_RemoveConsumer consumer)))).
Definition StartStream (track : Z) : ST Ctx Z := with_port track (fun _ => assert_ok (CameraPort_Start waits track)).
Definition StopStream (track : Z) : ST Ctx Z := with_port track (fun _ => assert_ok (CameraPort_Stop waits track)).
Definition PauseStream (track : Z) : ST Ctx Z := with_port track (fun _ => assert_ok (CameraPort_Pause track)).
Definition ResumeStream (track : Z) : ST Ctx Z := with_port track (fun _ => assert_ok (CameraPort_Resume track)).

(** ** Parameters *)

(** The settings of the request that is repeated, if it has some. *)
Definition stream_settings (c : Ctx) : option M :=
  match streaming_active_requests_ c with
  | r :: _ => if meta_isEmpty (rq_metadata r) then None else Some (rq_metadata r)
  | [] => None
  end.

Definition SetCameraParam (m : M) : ST Ctx Z :=
  let* c := gets id in
  match stream_settings c with
  | None => ret NO_INIT
  | Some _ =>
      do* modify (fun c => c <| streaming_active_requests_ := map (set_metadata (meta_append meta_empty m)) (streaming_active_requests_ c) |>) in
      let* c := gets id in
      if (0 <=? streaming_request_id_ c) && negb (bool_decide (snapshot_type_ c = Snap.kContinuous)) then
        let* s := device (dv_SubmitRequestList (streaming_active_requests_ c) true) in
        do* modify (store_last (snd s)) in
        if fst s <? 0 then undefined
        else do* modify (fun c => c <| streaming_request_id_ := fst s |>) in ret NO_ERROR
      else ret NO_ERROR
  end.

Definition GetCameraParam (m : M) : ST Ctx (Z * M) :=
  let* c := gets id in
  ret (NO_ERROR, meta_append meta_empty (default (static_meta_ c) (stream_settings c))).

Definition GetDefaultCaptureParam (m : M) : ST Ctx (Z * M) :=
  let* c := gets id in
  let d := rq_metadata (snapshot_request_ c) in
  ret (if meta_isEmpty d then (NO_INIT, m) else (NO_ERROR, meta_append meta_empty d)).

Definition GetCameraCharacteristics (m : M) : ST Ctx (Z * M) :=
  let* c := gets id in
  ret (if meta_isEmpty (static_meta_ c) then (NO_INIT, meta_empty) else (NO_ERROR, meta_append meta_empty (static_meta_ c))).

(** ** Snapshot buffers *)

Definition ReturnImageCaptureBuffer (camera_id buffer_id : Z) : ST Ctx Z :=
  let* c := gets id in
  match kv_lookup buffer_id (snapshot_buffer_list_ c) with
  | None => ret BAD_VALUE
  | Some b =>
      if negb (sb_fd b =? buffer_id) then undefined
      else
        match snapshot_buffer_stream_list_ c !! buffer_id with
        | None => ret BAD_VALUE
        | Some _ =>
            do* assert_ok (device (dv_ReturnStreamBuffer b)) in
            do* modify (fun c => c <| snapshot_buffer_list_ := kv_remove buffer_id (snapshot_buffer_list_ c) |>
                                   <| snapshot_buffer_stream_list_ := delete buffer_id (snapshot_buffer_stream_list_ c) |>) in
            ret NO_ERROR
        end
  end.

(** Step [i] of the loop; the list shrinks with every step, so that as many
    steps as it has buffers are enough. *)
Fixpoint return_from (fuel : nat) (i : Z) : ST Ctx Z :=
  match fuel with
  | O => ret NO_ERROR
  | S fuel' =>
      let* c := gets id in
      match snapshot_buffer_list_ c with
      | (b, _) :: _ =>
          if i <? Z.of_nat (length (snapshot_buffer_list_ c)) then
            do* assert_ok (ReturnImageCaptureBuffer 0 b) in
            return_from fuel' (i + 1)
          else ret NO_ERROR
      | [] => ret NO_ERROR
      end
  end.

Definition ReturnAllImageCaptureBuffers : ST Ctx Z :=
  let* c := gets id in
  return_from (length (snapshot_buffer_list_ c)) 0.

(** [std::map::insert] *)
Definition insert_new {V} (k : Z) (v : V) (m : kv V) : kv V := if kv_mem k m then m else kv_add k v m.

Definition SnapshotCaptureCallback (b : StreamBuffer) : ST Ctx unit :=
  let* c := gets id in
  let n := capture_cnt_ c in
  do* modify (fun c => c <| capture_cnt_ := u32 (n + 1) |>) in
  if cancel_capture_ c then let* r := assert_ok (device (dv_ReturnStreamBuffer b)) in ret tt
  else
    do* modify (fun c => c <| snapshot_buffer_list_ := insert_new (sb_fd b) b (snapshot_buffer_list_ c) |>
                           <| snapshot_buffer_stream_list_ :=
                                match snapshot_buffer_stream_list_ c !! sb_fd b with
                                | Some _ => snapshot_buffer_stream_list_ c
                                | None => <[sb_fd b := sb_stream_id b]> (snapshot_buffer_stream_list_ c)
                                end |>) in
    if ContextTypes.client_snapshot_cb_ c then call_out (SnapshotCb n b) else undefined.

(** As a consumer and as a producer of others. *)
Definition OnFrameAvailable (b : StreamBuffer) : ST Ctx unit := SnapshotCaptureCallback b.

Definition context_NotifyBufferReturned (b : StreamBuffer) : ST Ctx unit :=
  let* c := gets id in
  if bool_decide (snapshot_type_ c = Snap.kZsl) then ReturnZSLInputBuffer zsl_port_id_ b
  else let* r := ReturnStreamBuffer b in ret tt.

(** ** Callbacks of the device *)

Definition CameraErrorCb (code : CameraErrorCode) (e : CaptureResultExtras) : ST Ctx unit :=
  do* (match code with
       | ERROR_CAMERA_REQUEST | ERROR_CAMERA_BUFFER =>
           modify (fun c => fold_left (fun c s => frame_back s (frameNumber e) c) (elements (removed_stream_ids_ c)) c)
       | _ => ret tt
       end) in
  let* cb := gets error_cb_ in
  if cb then call_out (ErrorCb code) else ret tt.

Definition CameraPreparedCb (stream : Z) : ST Ctx unit :=
  modify (fun c => c <| stream_prepared_ := <[stream := true]> (stream_prepared_ c) |>).

Definition QueryPartialTag (m : M) (tag : Z) : option Z := head (meta_data tag m).

Definition UpdatePartialTag (tag value : Z) (m : M) : bool * M :=
  let '(r, m') := meta_update tag [value] m in (r =? 0, m').

Fixpoint update_tags (l : list (Z * Z)) (m : M) : option M :=
  match l with
  | [] => Some m
  | (tag, v) :: l' => let '(fine, m') := UpdatePartialTag tag v m in if fine then update_tags l' m' else None
  end.

Definition note_aec (m : M) (c : Ctx) : Ctx :=
  match head (meta_data ANDROID_CONTROL_AE_STATE m), head (meta_data ANDROID_SENSOR_TIMESTAMP m) with
  | Some st, Some ts => if ae_state (aec_ c) =? st then c else c <| aec_ := mkAEC st ts |>
  | _, _ => c
  end.

Definition result_out (m : M) : ST Ctx unit :=
  let* cb := gets result_cb_ in if cb then call_out (ResultCb m) else ret tt.

Definition HandleFinalResult (m : M) : ST Ctx unit :=
  do* modify (note_aec m) in
  let* c := gets id in
  do* (if bool_decide (snapshot_type_ c = Snap.kZsl) then HandleZSLCaptureResult zsl_port_id_ m else ret tt) in
  result_out m.

(** An early result that has all of the 3A state counts as a final one. *)
Definition CameraResultCb (m : M) (e : CaptureResultExtras) : ST Ctx unit :=
  let* c := gets id in
  if partialResultCount e <? partial_result_count_ c then
    match QueryPartialTag m ANDROID_CONTROL_AWB_MODE, QueryPartialTag m ANDROID_CONTROL_AF_MODE, QueryPartialTag m ANDROID_CONTROL_AE_STATE,
          QueryPartialTag m ANDROID_CONTROL_AWB_STATE, QueryPartialTag m ANDROID_CONTROL_AF_STATE with
    | Some awbMode, Some afMode, Some aeState, Some awbState, Some afState =>
        match update_tags [(ANDROID_REQUEST_FRAME_COUNT, i32 (frameNumber e)); (ANDROID_REQUEST_ID, requestId e);
                           (ANDROID_CONTROL_AWB_STATE, awbState); (ANDROID_CONTROL_AF_MODE, afMode); (ANDROID_CONTROL_AWB_MODE, awbMode);
                           (ANDROID_CONTROL_AF_STATE, afState); (ANDROID_CONTROL_AE_STATE, aeState)] meta_empty with
        | Some r => HandleFinalResult r
        | None => ret tt
        end
    | _, _, _, _, _ => if is_partial_metadata_enabled (camera_parameters_ c) then result_out m else ret tt
    end
  else HandleFinalResult m.

(** ** The camera of [CameraSource] *)

#[export] Instance context_camera : CameraInterface M Ctx := {|
  ci_new := CameraContext_new;
  ci_OpenCamera id rate x cb := OpenCamera id rate x cb true;
  ci_CloseCamera := CloseCamera;
  ci_SetUpCapture := SetUpCapture;
  ci_CaptureImage n metas := CaptureImage n metas true;
  ci_ConfigImageCapture := ConfigImageCapture;
  ci_CancelCaptureImage := CancelCaptureImage;
  ci_CreateStream := CreateStream;
  ci_DeleteStream := DeleteStream;
  ci_AddConsumer := AddConsumer;
  ci_RemoveConsumer := RemoveConsumer;
  ci_StartStream := StartStream;
  ci_StopStream := StopStream;
  ci_PauseStream := PauseStream;
  ci_ResumeStream := ResumeStream;
  ci_SetCameraParam := SetCameraParam;
  ci_GetCameraParam := GetCameraParam;
  ci_GetDefaultCaptureParam := GetDefaultCaptureParam;
  ci_GetCameraCharacteristics := GetCameraCharacteristics;
  ci_ReturnAllImageCaptureBuffers := ReturnAllImageCaptureBuffers;
  ci_ReturnImageCaptureBuffer := ReturnImageCaptureBuffer;
  ci_SetFlushCb := SetFlushCb
|}.
End CameraContext.
