(* ===== verification/ContextDemo.v ===== *)
(** * A device for witnesses

    The numbers of Android and a device with which [CameraContext] runs in the
    witnesses: it gives streams and requests numbers, takes every buffer that
    comes back, and records what was submitted. *)

From S2P Require Import Prelude KeyedVector Floats Monitor Memory Stream Adaptor ExtraParam BufferProducer Rescaler RecorderTypes CameraUtils CameraInterface ContextTypes ContextRequests CameraContext.

#[export] Instance demo_context_tags : ContextTags := {|
  ANDROID_CONTROL_AE_AVAILABLE_TARGET_FPS_RANGES := 20;
  ANDROID_REQUEST_MAX_NUM_INPUT_STREAMS := 21;
  ANDROID_CONTROL_AVAILABLE_HIGH_SPEED_VIDEO_CONFIGURATIONS := 22;
  ANDROID_CONTROL_AE_TARGET_FPS_RANGE := 23;
  ANDROID_SENSOR_FRAME_DURATION := 24;
  ANDROID_JPEG_QUALITY := 25;
  ANDROID_CONTROL_AE_STATE := 26;
  ANDROID_CONTROL_AWB_MODE := 27;
  ANDROID_CONTROL_AWB_STATE := 28;
  ANDROID_CONTROL_AF_MODE := 29;
  ANDROID_CONTROL_AF_STATE := 30;
  SensorModeTable := Some 31;
  AE_STATE_INACTIVE := 0;
  AE_STATE_CONVERGED := 2;
  AE_STATE_LOCKED := 3;
  TEMPLATE_STILL_CAPTURE := 2;
  TEMPLATE_VIDEO_RECORD := 3;
  TEMPLATE_ZERO_SHUTTER_LAG := 5
|}.

#[export] Instance demo_context_platform : ContextPlatform := {| static_mem_alloc := 0 |}.

Record DemoDevice := mkDemoDevice {
  next_stream : Z; next_request : Z; taken : list StreamBuffer; submitted : list (list (Camera3Request MetaMap) * bool)
}.

#[export] Instance settable_DemoDevice : Settable DemoDevice :=
  {| eta_expand := fun d => mkDemoDevice (next_stream d) (next_request d) (taken d) (submitted d) |}.

Definition device_new : DemoDevice := mkDemoDevice 1 1 [] [].

Definition fine : ST DemoDevice Z := ret NO_ERROR.

Definition new_stream : ST DemoDevice Z := fun d => Some (next_stream d, d <| next_stream := next_stream d + 1 |>).

Definition submit (rs : list (Camera3Request MetaMap)) (repeated : bool) : ST DemoDevice (Z * Z) := fun d =>
  Some ((next_request d, NO_IN_FLIGHT_REPEATING_FRAMES), d <| next_request := next_request d + 1 |> <| submitted := submitted d ++ [(rs, repeated)] |>).

(** A camera for 30 frames a second, with an input stream. *)
Definition camera_info : MetaMap :=
  {[5 := [HAL_PIXEL_FORMAT_BLOB; 640; 480; 0; HAL_PIXEL_FORMAT_IMPLEMENTATION_DEFINED; 640; 480; 0];
    20 := [15; 30; 30; 30]; 21 := [1]]}.

#[export] Instance demo_device : CameraDevice MetaMap DemoDevice := {|
  dv_new := device_new;
  dv_Initialize := fine;
  dv_OpenCamera _ := fine;
  dv_GetCameraInfo _ := ret (NO_ERROR, camera_info);
  dv_BeginConfigure := fine;
  dv_EndConfigure _ := fine;
  dv_CreateStream _ := new_stream;
  dv_CreateInputStream _ _ _ := new_stream;
  dv_DeleteStream _ _ := fine;
  dv_CreateDefaultRequest t := ret (NO_ERROR, {[40 := [t]]});
  dv_SubmitRequestList := submit;
  dv_SubmitRequest r := submit [r];
  dv_Flush := ret (NO_ERROR, 0);
  dv_WaitUntilIdle := fine;
  dv_Prepare _ := fine;
  dv_ReturnStreamBuffer b := fun d => Some (NO_ERROR, d <| taken := taken d ++ [b] |>)
|}.

#[export] Program Instance demo_device_returns : DeviceReturns MetaMap DemoDevice := { returned := taken }.
Next Obligation. intros b d. by exists (d <| taken := taken d ++ [b] |>). Qed.
