(* ===== verification/ZslFacts.v ===== *)
(** * The queue for zero shutter lag

    The buffers of a [ZslPort] are neither lost nor given back twice: a
    refinement of the methods of the port by a queue with a list of the
    buffers that went back ([queue_step]), for which buffers are counted. *)

From S2P Require Import Prelude KeyedVector Floats Monitor Memory Stream Adaptor ExtraParam BufferProducer RecorderTypes CameraUtils CameraInterface ContextTypes ContextRequests CameraContext ContextDemo.

Section ZslFacts.
Context {M W : Type} `{CameraMetadata M} `{MetadataTags} `{ContextTags} `{DeviceReturns M W}.

Abbreviation Ctx := (CameraContext M W).

(** What happens at a port.  A frame finds [garbage] in a buffer that is not
    initialised. *)
Inductive ZslEvent :=
| Frame (garbage b : StreamBuffer)
| FrameResult (m : M)
| Pick
| Reprocessed (b : StreamBuffer)
| Flush
| Resume.

Definition zsl_do (port : Z) (e : ZslEvent) : ST Ctx unit :=
  match e with
  | Frame garbage b => ZSLCaptureCallback garbage port b
  | FrameResult m => HandleZSLCaptureResult port m
  | Pick => let* r := PickZSLBuffer port in ret tt
  | Reprocessed b => ReturnZSLInputBuffer port b
  | Flush => let* r := PauseAndFlushZSLQueue port in ret tt
  | Resume => ResumeZSL port
  end.

(** ** The queue by itself *)

Definition entry_buffers (e : ZSLEntry M) : list StreamBuffer :=
  if has_buffer e then match z_buffer e with Some b => [b] | None => [] end else [].

(** The buffers that go back, and the queue. *)
Definition queue_step (e : ZslEvent) (z : ZslPort M) : list StreamBuffer * ZslPort M :=
  match e with
  | Frame garbage b =>
      let ts := sb_timestamp b in
      if zsl_running_ z then
        let '(x, z') := enqueue (mkZSLEntry (Some garbage) meta_empty (-1)) ts (fun x => x <| z_buffer := Some b |>) (mkZSLEntry (Some b) meta_empty ts) z in (entry_buffers x, z')
      else ([b], z)
  | FrameResult m =>
      match meta_find ANDROID_SENSOR_TIMESTAMP m with
      | Some (ts :: _) =>
          if zsl_running_ z then
            let '(x, z') := enqueue no_entry ts (fun x => x <| z_result := meta_append (z_result x) m |>)
                              (mkZSLEntry None (meta_append meta_empty m) ts) z in (entry_buffers x, z')
          else ([], z)
      | _ => ([], z)
      end
  | Pick =>
      if 0 <=? z_timestamp (zsl_input_buffer_ z) then ([], z)
      else
        match take_last well_exposed (zsl_queue_ z) with
        | Some (x, q) => ([], z <| zsl_input_buffer_ := x |> <| zsl_queue_ := q |>)
        | None => ([], z)
        end
  | Reprocessed b =>
      if sb_handle b =? handle_of_buffer (z_buffer (zsl_input_buffer_ z)) then
        match z_buffer (zsl_input_buffer_ z) with
        | Some i => ([i], z <| zsl_input_buffer_ := (zsl_input_buffer_ z) <| z_timestamp := -1 |> |>)
        | None => ([], z)
        end
      else ([], z)
  | Flush => (concat (map entry_buffers (zsl_queue_ z)), z <| zsl_running_ := false |> <| zsl_queue_ := [] |>)
  | Resume => ([], z <| zsl_running_ := true |>)
  end.

Definition entry_good (e : ZSLEntry M) : Prop :=
  0 < z_timestamp e /\ forall b, z_buffer e = Some b -> sb_timestamp b = z_timestamp e.

(** The buffer that is being reprocessed. *)
Definition held (z : ZslPort M) : list StreamBuffer :=
  if 0 <=? z_timestamp (zsl_input_buffer_ z) then option_list (z_buffer (zsl_input_buffer_ z)) else [].

Definition queue_buffers (q : list (ZSLEntry M)) : list StreamBuffer := omap z_buffer q.

Definition zsl_buffers (z : ZslPort M) : list StreamBuffer := queue_buffers (zsl_queue_ z) ++ held z.

Record QueueInv (z : ZslPort M) : Prop := {
  qi_stamps : NoDup (map z_timestamp (zsl_queue_ z));
  qi_good : Forall entry_good (zsl_queue_ z);
  qi_held : 0 <= z_timestamp (zsl_input_buffer_ z) -> is_Some (z_buffer (zsl_input_buffer_ z));
  qi_depth : 0 <= zsl_queue_depth_ z < UINT32_MOD - 1;
  qi_length : Z.of_nat (length (zsl_queue_ z)) <= zsl_queue_depth_ z
}.

(** Frames and results have time stamps above 0, no two frames the same one,
    what a frame finds in the uninitialised buffer is not the time stamp -1,
    and only a buffer that is being reprocessed comes back from there. *)
Definition allowed (e : ZslEvent) (z : ZslPort M) : Prop :=
  match e with
  | Frame garbage b => sb_timestamp garbage <> -1 /\ 0 < sb_timestamp b /\ Forall (fun x => z_timestamp x = sb_timestamp b -> z_buffer x = None) (zsl_queue_ z)
  | FrameResult m =>
      match meta_find ANDROID_SENSOR_TIMESTAMP m with Some (ts :: _) => 0 < ts | Some [] => False | None => True end
  | Reprocessed b => 0 <= z_timestamp (zsl_input_buffer_ z)
  | _ => True
  end.

Definition arrived (e : ZslEvent) : list StreamBuffer := match e with Frame _ b => [b] | _ => [] end.

Lemma good_buffers e : entry_good e -> entry_buffers e = option_list (z_buffer e).
Proof.
  intros [Hp Hb]. unfold entry_buffers, has_buffer, buffer_timestamp. destruct (z_buffer e) as [b|].
  - by rewrite (Hb b eq_refl), Z.eqb_refl.
  - by destruct (z_timestamp e =? 0).
Qed.

Lemma buffers_of_queue q : Forall entry_good q -> concat (map entry_buffers q) = queue_buffers q.
Proof.
  induction 1 as [|e q He _ IH]; [done|]. simpl. rewrite (good_buffers e He), IH. by destruct (z_buffer e).
Qed.

Lemma queue_buffers_app q q' : queue_buffers (q ++ q') = queue_buffers q ++ queue_buffers q'.
Proof. apply omap_app. Qed.

Lemma queue_buffers_cons e q : queue_buffers (e :: q) = option_list (z_buffer e) ++ queue_buffers q.
Proof. unfold queue_buffers. simpl. by destruct (z_buffer e). Qed.

Lemma trim_depth none (z : ZslPort M) : zsl_queue_depth_ (snd (trim_queue none z)) = zsl_queue_depth_ z.
Proof. unfold trim_queue. by repeat case_match. Qed.

Lemma queue_step_depth e z : zsl_queue_depth_ (snd (queue_step e z)) = zsl_queue_depth_ z.
Proof.
  assert (forall none ts f e, zsl_queue_depth_ (snd (enqueue none ts f e z)) = zsl_queue_depth_ z) as Hq by (intros; unfold enqueue; by rewrite trim_depth).
  destruct e as [g b|m| |b| |]; simpl; try done.
  - case_match; [|done]. pose proof (Hq (mkZSLEntry (Some g) meta_empty (-1)) (sb_timestamp b) (fun x => x <| z_buffer := Some b |>) (mkZSLEntry (Some b) meta_empty (sb_timestamp b))) as Hb.
    by destruct (enqueue _ _ _ _ z).
  - destruct (meta_find _ m) as [[|ts l]|]; simpl; try done. case_match; [|done].
    pose proof (Hq no_entry ts (fun x => x <| z_result := meta_append (z_result x) m |>) (mkZSLEntry None (meta_append meta_empty m) ts)) as Hb.
    by destruct (enqueue _ _ _ _ z).
  - by repeat case_match.
  - by repeat case_match.
Qed.

(** *** Putting in *)

Section Merge.
Context (ts : Z) (f : ZSLEntry M -> ZSLEntry M) (e : ZSLEntry M).
Context (Hf : forall x, z_timestamp (f x) = z_timestamp x) (He : z_timestamp e = ts).

Lemma merge_stamps q : exists l, map z_timestamp (merge_entry ts f e q) = map z_timestamp q ++ l /\
  (l = [] \/ (l = [ts] /\ ts ∉ map z_timestamp q)).
Proof.
  induction q as [|x q (l & Hl & Hc)]; simpl.
  - exists [ts]. rewrite He. split; [done|]. right. split; [done|apply not_elem_of_nil].
  - destruct (Z.eqb_spec (z_timestamp x) ts) as [Hx|Hx].
    + exists []. simpl. rewrite Hf, app_nil_r. auto.
    + exists l. simpl. rewrite Hl. split; [done|]. destruct Hc as [->|[-> Hn]]; [by left|right]. split; [done|].
      rewrite not_elem_of_cons. by split; [intros ->|].
Qed.

Lemma merge_nodup q : NoDup (map z_timestamp q) -> NoDup (map z_timestamp (merge_entry ts f e q)).
Proof.
  intros Hn. destruct (merge_stamps q) as (l & -> & [->|[-> Hl]]); [by rewrite app_nil_r|].
  apply NoDup_app. split; [done|]. split; [|apply NoDup_singleton]. intros y Hy ->%list_elem_of_singleton. done.
Qed.

Lemma merge_length q : (length (merge_entry ts f e q) <= S (length q))%nat.
Proof. induction q as [|x q IH]; simpl; [lia|]. destruct (z_timestamp x =? ts); simpl; lia. Qed.

Lemma merge_good q : (forall x, z_timestamp x = ts -> entry_good x -> entry_good (f x)) -> entry_good e ->
  Forall entry_good q -> Forall entry_good (merge_entry ts f e q).
Proof.
  intros Hg Hge. induction 1 as [|x q Hx Hq IH]; simpl; [by constructor|].
  destruct (Z.eqb_spec (z_timestamp x) ts) as [Ht|]; constructor; auto.
Qed.

Lemma merge_buffers q bs :
  z_buffer e = head bs -> (length bs <= 1)%nat ->
  (forall x, x ∈ q -> z_timestamp x = ts -> option_list (z_buffer (f x)) = option_list (z_buffer x) ++ bs) ->
  queue_buffers (merge_entry ts f e q) ≡ₚ queue_buffers q ++ bs.
Proof.
  intros Heb Hbs. induction q as [|x q IH]; intros Hx; simpl merge_entry.
  - rewrite queue_buffers_cons, Heb. by destruct bs as [|b [|]]; simpl in *; [..|lia].
  - rewrite !queue_buffers_cons. destruct (Z.eqb_spec (z_timestamp x) ts) as [Ht|Ht].
    + rewrite queue_buffers_cons, (Hx x) by (by left || done). rewrite <- !app_assoc. f_equiv. apply Permutation_app_comm.
    + rewrite queue_buffers_cons, <- app_assoc. f_equiv. apply IH. intros y Hy. apply Hx. by right.
Qed.
End Merge.

(** A queue that is too long by one at most. *)
Lemma trim_spec none (z : ZslPort M) : has_buffer none = false -> Forall entry_good (zsl_queue_ z) -> NoDup (map z_timestamp (zsl_queue_ z)) ->
  0 <= zsl_queue_depth_ z < UINT32_MOD - 1 -> Z.of_nat (length (zsl_queue_ z)) <= zsl_queue_depth_ z + 1 ->
  let '(x, z') := trim_queue none z in
  entry_buffers x ++ queue_buffers (zsl_queue_ z') = queue_buffers (zsl_queue_ z) /\
  Forall entry_good (zsl_queue_ z') /\ NoDup (map z_timestamp (zsl_queue_ z')) /\
  Z.of_nat (length (zsl_queue_ z')) <= zsl_queue_depth_ z /\
  z' = z <| zsl_queue_ := zsl_queue_ z' |> /\ (has_buffer x = true -> is_Some (z_buffer x)).
Proof.
  intros Hnone Hg Hn Hd Hl. unfold trim_queue. assert (entry_buffers none = []) as Hno by (unfold entry_buffers; by rewrite Hnone). destruct z as [i q inp run depth]; simpl in *. destruct q as [|e q]; simpl in *.
  - rewrite Hno. repeat split; (done || lia || constructor || by rewrite Hnone).
  - rewrite u32_small by (unfold is_u32; lia). inversion Hg as [|? ? He Hq]; subst. inversion Hn; subst.
    case_goal.
    + simpl. rewrite (good_buffers e He). split; [by destruct (z_buffer e)|]. repeat split; try done; try lia.
      destruct He as [Hp _]. unfold has_buffer, buffer_timestamp. destruct (z_buffer e); [done|]. intros; bool_hyps. lia.
    + rewrite Hno. simpl. repeat split; try done; [apply Z.leb_gt in E; lia|by rewrite Hnone].
Qed.

(** A merge and the cut after it. *)
Lemma enqueue_spec none ts f e bs (z : ZslPort M) : has_buffer none = false -> QueueInv z ->
  (forall x, z_timestamp (f x) = z_timestamp x) -> z_timestamp e = ts ->
  z_buffer e = head bs -> (length bs <= 1)%nat ->
  (forall x, x ∈ zsl_queue_ z -> z_timestamp x = ts -> option_list (z_buffer (f x)) = option_list (z_buffer x) ++ bs) ->
  (forall x, z_timestamp x = ts -> entry_good x -> entry_good (f x)) -> entry_good e ->
  let '(x, z') := enqueue none ts f e z in
  QueueInv z' /\ entry_buffers x ++ zsl_buffers z' ≡ₚ zsl_buffers z ++ bs /\ (has_buffer x = true -> is_Some (z_buffer x)).
Proof.
  intros Hnone [Hn Hg Hh Hd Hl] Hf He Heb Hbs Hx Hfg Heg. unfold enqueue.
  pose proof (trim_spec none (z <| zsl_queue_ := merge_entry ts f e (zsl_queue_ z) |>)) as Ht. simpl in Ht.
  destruct (trim_queue _ _) as [x z']. pose proof (merge_length ts f e (zsl_queue_ z)).
  destruct Ht as (Hb & Hg' & Hn' & Hl' & Hz' & Hs); [done|by apply merge_good|by apply merge_nodup|done|lia|].
  split; [|split; [|done]].
  - rewrite Hz'. split; simpl; try done.
  - unfold zsl_buffers. rewrite app_assoc, Hb. assert (held z' = held z) as -> by (by rewrite Hz').
    rewrite (merge_buffers ts f e _ bs Heb Hbs Hx), <- !app_assoc. f_equiv. apply Permutation_app_comm.
Qed.

Lemma frame_enqueue g b z : QueueInv z -> allowed (Frame g b) z ->
  let '(x, z') := enqueue (mkZSLEntry (Some g) meta_empty (-1)) (sb_timestamp b) (fun x => x <| z_buffer := Some b |>) (mkZSLEntry (Some b) meta_empty (sb_timestamp b)) z in
  QueueInv z' /\ entry_buffers x ++ zsl_buffers z' ≡ₚ zsl_buffers z ++ [b] /\ (has_buffer x = true -> is_Some (z_buffer x)).
Proof.
  intros Hz (Hg & Hp & Hf). rewrite Forall_forall in Hf. apply enqueue_spec; try done; simpl; try lia.
  - apply Z.eqb_neq. intros Hx. by apply Hg.
  - intros x' Hx' Ht. by rewrite (Hf x' Hx' Ht).
  - intros x' Ht [Hx' _]. split; [done|]. simpl. by intros ? [= <-].
  - split; [done|]. simpl. by intros ? [= <-].
Qed.

Lemma result_enqueue ts m z : QueueInv z -> 0 < ts ->
  let '(x, z') := enqueue no_entry ts (fun x => x <| z_result := meta_append (z_result x) m |>) (mkZSLEntry None (meta_append meta_empty m) ts) z in
  QueueInv z' /\ entry_buffers x ++ zsl_buffers z' ≡ₚ zsl_buffers z /\ (has_buffer x = true -> is_Some (z_buffer x)).
Proof.
  intros Hz Hp.
  pose proof (enqueue_spec no_entry ts (fun x => x <| z_result := meta_append (z_result x) m |>) (mkZSLEntry None (meta_append meta_empty m) ts) [] z eq_refl Hz) as He.
  destruct (enqueue _ _ _ _ z) as [x z']. rewrite app_nil_r in He. apply He; try done; simpl; try lia.
  intros x' _ _. by rewrite app_nil_r.
Qed.

Lemma take_last_spec {A} (p : A -> bool) l x r : take_last p l = Some (x, r) -> p x = true /\ l ≡ₚ x :: r /\ sublist r l.
Proof.
  revert x r. induction l as [|y l IH]; intros x r; simpl; [done|].
  destruct (take_last p l) as [[y' r']|].
  - intros [= <- <-]. destruct (IH y' r' eq_refl) as (Hp & Hl & Hs). split; [done|]. split; [|by constructor].
    rewrite Hl. apply Permutation_swap.
  - case_eq (p y); intros Hp; [|done]. intros [= <- <-]. split; [done|]. split; [done|]. by constructor.
Qed.

Lemma queue_step_conserves e z : QueueInv z -> allowed e z ->
  QueueInv (snd (queue_step e z)) /\
  fst (queue_step e z) ++ zsl_buffers (snd (queue_step e z)) ≡ₚ zsl_buffers z ++ arrived e.
Proof.
  intros Hz Ha. destruct e as [g b|m| |b| |]; simpl in *.
  - destruct (zsl_running_ z); simpl; [|split; [done|apply Permutation_cons_append]].
    pose proof (frame_enqueue g b z Hz Ha) as He. destruct (enqueue _ _ _ _ z) as [x z']. by destruct He as (Hi & Hb & _).
  - rewrite app_nil_r. destruct (meta_find _ m) as [[|ts l]|]; simpl; try done.
    destruct (zsl_running_ z); simpl; [|done].
    pose proof (result_enqueue ts m z Hz Ha) as He. destruct (enqueue _ _ _ _ z) as [x z']. by destruct He as (Hi & Hb & _).
  - rewrite app_nil_r. case_goal; simpl; [done|].
    destruct (take_last _ _) as [[x q]|] eqn:Ht; simpl; [|done].
    destruct (take_last_spec _ _ _ _ Ht) as (Hw & Hp & Hs). destruct Hz as [Hn Hg Hh Hd Hl].
    assert (entry_good x) as Hx by (rewrite Hp in Hg; by inversion Hg).
    assert (exists b, z_buffer x = Some b) as [b Hb].
    { unfold well_exposed, has_buffer, buffer_timestamp in Hw. destruct Hx as [Hpos _]. destruct (z_buffer x) as [b|]; [by exists b|]. bool_hyps. lia. }
    split.
    + split; simpl; try done.
      * rewrite Hp in Hn. by inversion Hn.
      * rewrite Hp in Hg. by inversion Hg.
      * rewrite Hp in Hl. simpl in Hl. lia.
    + unfold zsl_buffers, held. simpl. rewrite Hb. destruct Hx as [Hpos _].
      replace (0 <=? z_timestamp x) with true by (symmetry; apply Z.leb_le; lia).
      rewrite E. simpl. rewrite app_nil_r. unfold queue_buffers at 2. rewrite Hp. simpl. rewrite Hb.
      by rewrite Permutation_app_comm.
  - rewrite app_nil_r. case_goal; simpl; [|done]. destruct Hz as [Hn Hg Hh Hd Hl].
    destruct (Hh Ha) as [i Hi]. rewrite Hi. simpl. split; [split; simpl; try done; lia|].
    unfold zsl_buffers, held. simpl. rewrite Hi. replace (0 <=? z_timestamp (zsl_input_buffer_ z)) with true by (symmetry; by apply Z.leb_le).
    simpl. rewrite app_nil_r. by rewrite Permutation_app_comm.
  - destruct Hz as [Hn Hg Hh Hd Hl]. split; [split; simpl; (done || lia || apply NoDup_nil_2 || constructor)|].
    rewrite (buffers_of_queue _ Hg), app_nil_r. done.
  - rewrite app_nil_r. split; [|done]. by destruct Hz; split.
Qed.

(** ** The port refines the queue *)

Context (port : Z).

(** The port's queue and the buffers that the device took back so far, of a
    port with a stream. *)
Definition zsl_view (c : Ctx) : option (ZslPort M * list StreamBuffer) :=
  match GetPort port c, camera_device_ c with
  | Some p, Some w =>
      match zsl p with
      | Some z => if camera_stream_id_ p <? 0 then None else Some (z, returned w)
      | None => None
      end
  | _, _ => None
  end.

Lemma zsl_view_some c z l : zsl_view c = Some (z, l) -> exists p w,
  GetPort port c = Some p /\ camera_device_ c = Some w /\ zsl p = Some z /\ (camera_stream_id_ p <? 0) = false /\ l = returned w.
Proof.
  unfold zsl_view. destruct (GetPort port c) as [p|]; [|done]. destruct (camera_device_ c) as [w|]; [|done].
  destruct (zsl p) as [z'|] eqn:Hz; [|done]. case_goal; [done|]. intros [= <- <-]. by exists p, w.
Qed.

Lemma on_zsl_view {A} (f : ZslPort M -> A * ZslPort M) c z l : zsl_view c = Some (z, l) ->
  wp (on_zsl port (pure_step f)) (fun a c' => a = fst (f z) /\ zsl_view c' = Some (snd (f z), l)) c.
Proof.
  intros Hv. destruct (zsl_view_some _ _ _ Hv) as (p & w & Hp & Hw & Hz & Hs & ->).
  unfold on_zsl, on_port, wp. rewrite Hp, Hz. unfold pure_step. destruct (f z) as [a z'] eqn:Hf. simpl. split; [done|].
  unfold zsl_view, GetPort. simpl. rewrite (kv_lookup_replaced port _ p) by done. simpl. by rewrite Hw, Hs.
Qed.

Lemma on_zsl_modify f c z l : zsl_view c = Some (z, l) ->
  wp (on_zsl port (modify f)) (fun _ c' => zsl_view c' = Some (f z, l)) c.
Proof.
  intros Hv. apply (wp_mono _ (fun a c' => a = fst (tt, f z) /\ zsl_view c' = Some (snd (tt, f z), l))); [|by intros ? ? [_ ?]].
  exact (on_zsl_view (fun z => (tt, f z)) c z l Hv).
Qed.

Lemma on_zsl_gets {A} (f : ZslPort M -> A) c z l : zsl_view c = Some (z, l) ->
  wp (on_zsl port (gets f)) (fun a c' => a = f z /\ zsl_view c' = Some (z, l)) c.
Proof. exact (on_zsl_view (fun z => (f z, z)) c z l). Qed.

Lemma frame_back_view s n c : zsl_view (frame_back s n c) = zsl_view c.
Proof. unfold frame_back. by repeat case_match. Qed.

Lemma return_view b c z l : zsl_view c = Some (z, l) ->
  wp (ReturnStreamBuffer b) (fun r c' => r = NO_ERROR /\ zsl_view c' = Some (z, l ++ [b])) c.
Proof.
  intros Hv. destruct (zsl_view_some _ _ _ Hv) as (p & w & Hp & Hw & Hz & Hs & ->).
  destruct (return_taken b w) as (w' & Hr & Hl).
  unfold ReturnStreamBuffer, assert_ok, device, bind, wp. rewrite Hw, Hr. simpl. split; [done|].
  rewrite frame_back_view. unfold zsl_view, GetPort in *. simpl. by rewrite Hp, Hz, Hs, Hl.
Qed.

Lemma return_entry_view e c z l : (has_buffer e = true -> is_Some (z_buffer e)) -> zsl_view c = Some (z, l) ->
  wp (return_entry e) (fun _ c' => zsl_view c' = Some (z, l ++ entry_buffers e)) c.
Proof.
  intros He Hv. unfold return_entry, entry_buffers. destruct (has_buffer e); [|by rewrite app_nil_r].
  destruct (He eq_refl) as [b Hb]. rewrite Hb. apply wp_bind.
  apply (wp_mono _ _ _ _ (return_view b c z l Hv)). by intros r c' [_ Hc].
Qed.

Lemma return_entries_view q c z l : Forall entry_good q -> zsl_view c = Some (z, l) ->
  wp (for_each q return_entry) (fun _ c' => zsl_view c' = Some (z, l ++ concat (map entry_buffers q))) c.
Proof.
  intros Hq. revert c l. induction Hq as [|e q He Hq IH]; intros c l Hv; simpl; [by rewrite app_nil_r|].
  apply wp_bind. apply (wp_mono _ (fun _ c' => zsl_view c' = Some (z, l ++ entry_buffers e))).
  - apply return_entry_view; [|done]. destruct He as [Hp _]. unfold has_buffer, buffer_timestamp.
    destruct (z_buffer e); [done|]. intros; bool_hyps. lia.
  - intros _ c' Hc'. rewrite app_assoc. by apply IH.
Qed.

(** The port changes, and an entry goes back. *)
Lemma step_return_view h x z' c z l : zsl_view c = Some (z, l) -> h z = (x, z') -> (has_buffer x = true -> is_Some (z_buffer x)) ->
  wp (bind (on_zsl port (pure_step h)) return_entry) (fun _ c' => zsl_view c' = Some (z', l ++ entry_buffers x)) c.
Proof.
  intros Hv Hh Hx. apply wp_bind. apply (wp_mono _ _ _ _ (on_zsl_view h c z l Hv)). intros x' c' [-> Hc'].
  rewrite Hh in *. by apply return_entry_view.
Qed.

Lemma zsl_step_refines e c z l : QueueInv z -> allowed e z -> zsl_view c = Some (z, l) ->
  wp (zsl_do port e) (fun _ c' => zsl_view c' = Some (snd (queue_step e z), l ++ fst (queue_step e z))) c.
Proof.
  intros Hz Ha Hv. destruct e as [g b|m| |b| |]; simpl zsl_do; simpl queue_step.
  - pose proof (frame_enqueue g b z Hz Ha) as He. destruct (zsl_running_ z) eqn:Hr.
    + destruct (enqueue _ _ _ _ z) as [x z'] eqn:Hq. apply (step_return_view _ x z' c z l Hv); [by rewrite Hr|apply He].
    + replace [b] with (entry_buffers (mkZSLEntry (Some b) meta_empty (sb_timestamp b)))
        by (unfold entry_buffers, has_buffer, buffer_timestamp; simpl; by rewrite Z.eqb_refl).
      apply (step_return_view _ _ z c z l Hv); [by rewrite Hr|by exists b].
  - destruct (zsl_view_some _ _ _ Hv) as (p & w & Hp & Hd & Hq & Hs & _).
    unfold HandleZSLCaptureResult. apply wp_bind. unfold wp at 1. rewrite (the_port_eq port c p Hp), Hs. simpl in Ha.
    destruct (meta_find _ m) as [[|ts rest]|]; simpl; [done| |by rewrite app_nil_r].
    pose proof (result_enqueue ts m z Hz Ha) as He. destruct (zsl_running_ z) eqn:Hr.
    + destruct (enqueue _ _ _ _ z) as [x z'] eqn:Hq'. apply (step_return_view _ x z' c z l Hv); [by rewrite Hr|apply He].
    + apply (step_return_view _ no_entry z c z l Hv); [by rewrite Hr|done].
  - apply wp_bind. apply (wp_mono _ _ _ _ (on_zsl_view _ c z l Hv)). intros r c' [_ Hc']. apply wp_ret. rewrite Hc'.
    destruct (zsl_queue_ z) as [|x q] eqn:Hq; simpl; repeat case_match; simpl; by rewrite ?app_nil_r.
  - unfold ReturnZSLInputBuffer. apply wp_bind. apply (wp_mono _ _ _ _ (on_zsl_gets _ c z l Hv)). intros i c' [-> Hc'].
    case_goal; [|apply wp_ret; by rewrite app_nil_r]. destruct Hz as [_ _ Hh _ _]. destruct (Hh Ha) as [ib Hib]. rewrite Hib.
    apply wp_bind. apply (wp_mono _ _ _ _ (return_view ib c' z l Hc')). intros r c2 [_ Hc2].
    apply (wp_mono _ _ _ _ (on_zsl_modify _ c2 z (l ++ [ib]) Hc2)). intros _ c3 ->. simpl. by rewrite Hib.
  - apply wp_bind. unfold PauseAndFlushZSLQueue. apply wp_bind. apply (wp_mono _ _ _ _ (on_zsl_modify _ c z l Hv)). intros _ c1 Hc1.
    apply wp_bind. apply (wp_mono _ _ _ _ (on_zsl_gets _ c1 _ l Hc1)). intros q c2 [-> Hc2]. simpl.
    apply wp_bind. apply (wp_mono _ _ _ _ (return_entries_view _ c2 _ l (qi_good z Hz) Hc2)). intros _ c3 Hc3.
    apply wp_bind. apply (wp_mono _ _ _ _ (on_zsl_modify _ c3 _ _ Hc3)). by intros _ c4 Hc4.
  - rewrite app_nil_r. exact (on_zsl_modify _ c z l Hv).
Qed.

(** ** A run *)

Definition zsl_run (es : list ZslEvent) : ST Ctx unit := for_each es (zsl_do port).

Fixpoint queue_run (es : list ZslEvent) (z : ZslPort M) : list StreamBuffer * ZslPort M :=
  match es with
  | [] => ([], z)
  | e :: es' =>
      let '(l, z1) := queue_step e z in
      let '(l', z2) := queue_run es' z1 in (l ++ l', z2)
  end.

Fixpoint allowed_run (es : list ZslEvent) (z : ZslPort M) : Prop :=
  match es with [] => True | e :: es' => allowed e z /\ allowed_run es' (snd (queue_step e z)) end.

(** C38. The ZSL queue conserves buffers: whatever frames and results arrive,
    captures pick their input, inputs come back and the queue is flushed, the
    port's methods are defined and do what [queue_run] says; every buffer
    that came is in the queue, is being reprocessed or went back to the
    device, once; and the queue stays within its depth.  Time stamps are
    above 0 and those of queued frames differ, an input comes back only while
    it is being reprocessed, and the time stamp that a frame finds in the
    uninitialised buffer of [ZSLCaptureCallback] is whatever it is, but not
    -1. *)
Theorem zsl_buffers_conserved es c z l : zsl_view c = Some (z, l) -> QueueInv z -> allowed_run es z ->
  exists c' z' l', zsl_run es c = Some (tt, c') /\ queue_run es z = (l', z') /\ zsl_view c' = Some (z', l ++ l') /\
    l' ++ zsl_buffers z' ≡ₚ zsl_buffers z ++ concat (map arrived es) /\
    Z.of_nat (length (zsl_queue_ z')) <= zsl_queue_depth_ z' /\ zsl_queue_depth_ z' = zsl_queue_depth_ z.
Proof.
  revert c z l. induction es as [|e es IH]; intros c z l Hv Hz Ha.
  - exists c, z, []. rewrite !app_nil_r. repeat split; try done. apply Hz.
  - destruct Ha as [He Ha]. destruct (wp_some _ _ _ (zsl_step_refines e c z l Hz He Hv)) as ([] & c1 & Hd & Hc1).
    destruct (queue_step_conserves e z Hz He) as [Hz1 Hp1]. pose proof (queue_step_depth e z) as Hdep. simpl queue_run.
    destruct (queue_step e z) as [l1 z1]. simpl in *.
    destruct (IH c1 z1 (l ++ l1) Hc1 Hz1 Ha) as (c' & z' & l' & Hr & Hq & Hv' & Hp & Hlen & Hd').
    exists c', z', (l1 ++ l'). rewrite Hq. split; [by unfold zsl_run; simpl; rewrite (bind_eq _ _ _ _ _ Hd)|].
    split; [done|]. split; [by rewrite app_assoc|]. split; [|split; [done|congruence]].
    rewrite <- app_assoc, Hp, app_assoc, Hp1, <- app_assoc. done.
Qed.
End ZslFacts.

(** ** Witness *)

Module Demo.
Definition port : ZslPort MetaMap := mkZslPort 7 [] no_entry true 2.
Definition camera_port : CameraPort MetaMap :=
  (CameraPort_new (mkStreamParam 256 64 48 0 kNV12 (f32_of_Z 30) 0) (mkCameraParameters false 30 1 0) (Some port)) <| camera_stream_id_ := 3 |>.
Abbreviation camera := ((@CameraContext_new MetaMap DemoDevice _ _) <| active_ports_ := [(256, camera_port)] |> <| camera_device_ := Some device_new |>).

Definition frame (n : Z) : StreamBuffer := mkStreamBuffer None (100 * n) n 3 0 n n 64 None.
Definition exposed (n : Z) : MetaMap := {[11 := [100 * n]; ANDROID_CONTROL_AE_STATE := [AE_STATE_CONVERGED]]}.

(** What the stack holds. *)
Definition garbage : StreamBuffer := mkStreamBuffer None 0 0 0 0 0 0 0 None.
Definition marked : StreamBuffer := mkStreamBuffer None (-1) 0 0 0 0 0 0 None.

(** Three frames for a queue of two; the second one, which has its result, is
    reprocessed and comes back. *)
Definition events : list (ZslEvent (M := MetaMap)) :=
  [Frame garbage (frame 1); Frame garbage (frame 2); FrameResult (exposed 2); Frame garbage (frame 3); Pick; Reprocessed (frame 2); Flush].

(** With the time stamp -1 in the uninitialised buffer, that buffer goes to
    the device with a frame that stays in the queue. *)
Example garbage_goes_back : exists c, zsl_run 256 [Frame marked (frame 1)] camera = Some (tt, c) /\
  exists z, zsl_view 256 c = Some (z, [marked]) /\ zsl_buffers z = [frame 1].
Proof. eexists. split; [vm_compute; reflexivity|]. eexists. split; vm_compute; reflexivity. Qed.

Lemma port_good : QueueInv port.
Proof. split; simpl; [apply NoDup_nil_2|apply Forall_nil_2|done|unfold UINT32_MOD; lia|lia]. Qed.

Lemma camera_starts : zsl_view 256 camera = Some (port, []).
Proof. vm_compute. reflexivity. Qed.

Lemma events_allowed : allowed_run events port.
Proof. vm_compute. repeat split; try done; repeat constructor; by intros. Qed.

Lemma zsl_buffers_conserved_witness : queue_run events port = ([frame 1; frame 2; frame 3], port <| zsl_running_ := false |>
    <| zsl_input_buffer_ := mkZSLEntry (Some (frame 2)) (exposed 2) (-1) |>) /\
  exists c', zsl_run 256 events camera = Some (tt, c') /\
    exists z, zsl_view 256 c' = Some (z, [frame 1; frame 2; frame 3]) /\ zsl_buffers z = [].
Proof.
  split; [vm_compute; reflexivity|].
  destruct (zsl_buffers_conserved 256 events camera port [] camera_starts port_good events_allowed) as (c' & z' & l' & Hr & Hq & Hv & _).
  exists c'. split; [exact Hr|]. exists z'.
  assert (Heq : queue_run events port = ([frame 1; frame 2; frame 3], port <| zsl_running_ := false |>
    <| zsl_input_buffer_ := mkZSLEntry (Some (frame 2)) (exposed 2) (-1) |>)) by (vm_compute; reflexivity).
  rewrite Heq in Hq. injection Hq as <- <-. split; [exact Hv|vm_compute; reflexivity].
Defined.
End Demo.
