(* ===== verification/ContextFacts.v ===== *)
(** * What the camera guarantees

    Theorems on [CameraContext]: the request that is repeated carries the
    streams of the ports that run, and no others; frames of a port that waits
    for the exposure are held back until it has converged; the sensor mode
    that is chosen; and what goes wrong with snapshot buffers and with a
    rejected snapshot. *)

From Stdlib Require Import SpecFloat.
From S2P Require Import Prelude KeyedVector Floats Monitor Memory Stream Adaptor ExtraParam BufferProducer Rescaler RecorderTypes CameraUtils CameraInterface ContextTypes ContextRequests CameraContext ContextDemo.

(** ** Sensor modes *)

Definition mode_fits (width height fps : Z) (m : Z * Z * Z) : Prop :=
  let '(w, h, f) := m in width <= u32 w /\ height <= u32 h /\ fps <= u32 f.

Definition mode_rate (m : Z * Z * Z) : Z := snd m.

(** What a scan that has come to mode [i] knows of the modes before it. *)
Definition best_mode (width height fps : Z) (rows : list (Z * Z * Z)) (limit i mode matched : Z) : Prop :=
  (mode = -1 /\ matched = limit \/
   exists m, rows !! Z.to_nat mode = Some m /\ 0 <= mode < i /\ mode_fits width height fps m /\ mode_rate m = matched /\ matched <= limit) /\
  forall j m, rows !! j = Some m -> Z.of_nat j < i -> mode_fits width height fps m -> mode_rate m <= limit ->
    mode <> -1 /\ matched <= mode_rate m /\ (mode_rate m = matched -> Z.of_nat j <= mode).

Lemma scan_modes_best width height fps limit all rows pre i mode matched :
  all = pre ++ rows -> i = Z.of_nat (length pre) -> best_mode width height fps all limit i mode matched ->
  exists matched', best_mode width height fps all limit (Z.of_nat (length all))
    (scan_modes rows i width height fps mode matched) matched'.
Proof.
  revert pre i mode matched. induction rows as [|[[w h] f] rows IH]; intros pre i mode matched -> -> Hb.
  - exists matched. simpl. by rewrite app_nil_r in *.
  - simpl. assert (Hthis : (pre ++ (w, h, f) :: rows) !! length pre = Some (w, h, f)) by (by rewrite list_lookup_middle).
    assert (Hnext : forall mo ma, best_mode width height fps (pre ++ (w, h, f) :: rows) limit (Z.of_nat (length pre) + 1) mo ma ->
      exists matched', best_mode width height fps (pre ++ (w, h, f) :: rows) limit (Z.of_nat (length (pre ++ (w, h, f) :: rows)))
        (scan_modes rows (Z.of_nat (length pre) + 1) width height fps mo ma) matched').
    { intros mo ma Hm. apply (IH (pre ++ [(w, h, f)])); [by rewrite <- app_assoc| |done]. rewrite length_app. simpl. lia. }
    destruct Hb as [Hfound Hall]. case_goal; bool_hyps; apply Hnext; split.
    + right. exists (w, h, f). rewrite Nat2Z.id. unfold mode_fits, mode_rate. simpl. repeat split; try done; try lia.
      destruct Hfound as [[_ ->]|(? & _ & _ & _ & _ & ?)]; lia.
    + intros j m Hj Hlt Hfit Hlim. split; [lia|]. destruct (decide (j = length pre)) as [->|Hne].
      * rewrite Hthis in Hj. injection Hj as <-. unfold mode_rate. simpl. lia.
      * destruct (Hall j m Hj) as (_ & Hle & _); [lia|done|done|]. lia.
    + destruct Hfound as [?|(m & Hm & Hr & Hrest)]; [by left|right]. exists m. split; [done|]. split; [lia|done].
    + intros j m Hj Hlt Hfit Hlim. destruct (decide (j = length pre)) as [->|Hne].
      * rewrite Hthis in Hj. injection Hj as <-. destruct Hfit as (Hw & Hh & Hf). unfold mode_rate in *. simpl in *.
        assert (matched < f) as Hgt.
        { match goal with H : _ = false |- _ => rewrite !andb_false_iff in H end. lia. }
        destruct Hfound as [[-> ->]|(m & _ & Hr & _)]; [lia|]. lia.
      * apply (Hall j m Hj); [lia|done|done].
Qed.

Section Modes.
Context {M : Type} `{CameraMetadata M} `{ContextTags}.

(** C40. The sensor mode that [GetSensorModeIndex] answers with, counted from
    1, is large and fast enough; no such mode of at most MAX_SENSOR_FPS (480)
    frames per second is slower, and of those equally fast it is the last. 0
    means that there is no such mode. Faster modes are passed over, as the
    code does. *)
Theorem sensor_mode_best width height fps (meta : M) tag count size rest rows :
  SensorModeTable = Some tag -> meta_data tag meta = count :: size :: rest ->
  mapM (sensor_row (count :: size :: rest) size) (seq 0 (Z.to_nat count)) = Some rows -> Z.of_nat (length rows) < UINT32_MOD - 1 ->
  exists i, GetSensorModeIndex width height fps meta = Some i /\
    (i = 0 /\ (forall m, m ∈ rows -> mode_fits width height fps m -> MAX_SENSOR_FPS < mode_rate m) \/
     exists m, 0 < i /\ rows !! Z.to_nat (i - 1) = Some m /\ mode_fits width height fps m /\ mode_rate m <= MAX_SENSOR_FPS /\
       forall j m', rows !! j = Some m' -> mode_fits width height fps m' -> mode_rate m' <= MAX_SENSOR_FPS ->
         mode_rate m <= mode_rate m' /\ (mode_rate m' = mode_rate m -> Z.of_nat j < i)).
Proof.
  intros Ht Hd Hr Hl. unfold GetSensorModeIndex. rewrite Ht, Hd, Hr. eexists. split; [done|].
  destruct (scan_modes_best width height fps MAX_SENSOR_FPS rows rows [] 0 (-1) MAX_SENSOR_FPS eq_refl eq_refl) as [ma [Hf Ha]].
  { split; [by left|]. intros j m _ Hj. lia. }
  revert Hf Ha. generalize (scan_modes rows 0 width height fps (-1) MAX_SENSOR_FPS). intros mode Hf Ha.
  assert (Hlt : forall j m, rows !! j = Some m -> Z.of_nat j < Z.of_nat (length rows)) by (intros j m Hj%lookup_lt_Some; lia).
  destruct Hf as [[-> ->]|(m & Hm & Hi & Hfit & <- & Hlim)].
  - left. split; [done|]. intros m [j Hj]%list_elem_of_lookup Hfit. destruct (Z.le_gt_cases (mode_rate m) MAX_SENSOR_FPS) as [Hle|]; [|done].
    by destruct (Ha j m Hj (Hlt j m Hj) Hfit Hle) as [].
  - right. exists m. rewrite u32_small by (unfold is_u32; lia). replace (mode + 1 - 1) with mode by lia. repeat split; try done; try lia.
    + intros. by destruct (Ha j m' H1 (Hlt j m' H1)) as (_ & ? & _).
    + intros. destruct (Ha j m' H1 (Hlt j m' H1)) as (_ & _ & Hj); [done|done|]. specialize (Hj H4). lia.
Qed.
End Modes.

(** ** Frames and the exposure *)

Section ContextFacts.
Context {M W : Type} `{CameraMetadata M} `{MetadataTags} `{InputTag} `{ContextTags} `{HalPlatform} `{RgbPlatform} `{DeviceReturns M W}
  `{ContextPlatform}.
Context (waits : ContextWaits (M := M) (W := W)).

Abbreviation Ctx := (CameraContext M W).
Abbreviation Port := (CameraPort M).

(** The device took [b]. *)
Lemma ReturnStreamBuffer_eq b (c : Ctx) w : camera_device_ c = Some w -> exists c' w',
  ReturnStreamBuffer b c = Some (NO_ERROR, c') /\ camera_device_ c' = Some w' /\ returned w' = returned w ++ [b] /\
  calls c' = calls c /\ active_ports_ c' = active_ports_ c.
Proof.
  intros Hw. destruct (return_taken b w) as (w' & Hr & Hl). unfold ReturnStreamBuffer, assert_ok, device, bind. rewrite Hw, Hr. simpl.
  eexists _, w'. split; [done|]. unfold frame_back. by repeat case_match.
Qed.

(** The exposure counts as converged for a frame. *)
Definition exposed_for (aec : AECData) (ts : Z) (p : Port) : Prop :=
  if aec_converged_ p then aec_timestamp_ p <= ts
  else (ae_state aec = AE_STATE_LOCKED \/ ae_state aec = AE_STATE_CONVERGED) /\ ae_timestamp aec <= ts.

Lemma check_aec_spec aec ts (p : Port) : has_bit (sp_flags (params_ p)) kIAEC = true ->
  fst (check_aec aec ts p) = true <-> exposed_for aec ts p.
Proof.
  intros Hb. unfold check_aec, exposed_for. rewrite Hb. destruct (aec_converged_ p) eqn:Hc; simpl.
  - rewrite Hc. simpl. by rewrite Z.leb_le.
  - rewrite andb_true_iff, orb_true_iff, !Z.eqb_eq, Z.leb_le. done.
Qed.

Lemma check_aec_free aec ts (p : Port) : has_bit (sp_flags (params_ p)) kIAEC = false -> fst (check_aec aec ts p) = true.
Proof. intros Hb. unfold check_aec. by rewrite Hb. Qed.

Lemma check_aec_keeps aec ts (p : Port) : port_producer (snd (check_aec aec ts p)) = port_producer p.
Proof. unfold check_aec. by repeat case_match. Qed.

(** Handing a frame to the consumers. *)
Lemma send_all_eq (l : list Sent) (c : Ctx) : Forall (fun s => match s with SentTo _ _ => True | _ => False end) l ->
  for_each l send c = Some (tt, c <| calls := calls c ++ map (fun s => match s with SentTo k b => ToConsumer k b | SentBack b => ToConsumer 0 b end) l |>).
Proof.
  intros Hl. revert c. induction Hl as [|s l Hs Hl IH]; intros c; simpl.
  - rewrite app_nil_r. by destruct c.
  - destruct s as [k b|b]; [|done]. unfold send, call_out, modify, bind. rewrite IH. simpl. rewrite <- app_assoc. done.
Qed.

(** C39. A frame of a port goes to every consumer of the port, or back to the
    device: it is handed out exactly when the port has consumers and, if the
    stream waits for the exposure, the exposure had converged by the time of
    the frame. *)
Theorem frame_waits_for_exposure port b (c : Ctx) p w : GetPort port c = Some p -> camera_device_ c = Some w ->
  sb_stream_id b = camera_stream_id_ p -> Z.of_nat (length (buffer_consumers_ (port_producer p))) < UINT32_MOD ->
  exists c', StreamCallback port b c = Some (tt, c') /\
    let out := buffer_consumers_ (port_producer p) <> [] /\
               (has_bit (sp_flags (params_ p)) kIAEC = true -> exposed_for (aec_ c) (sb_timestamp b) p) in
    (out -> calls c' = calls c ++ map (fun k => ToConsumer k b) (kv_keys (buffer_consumers_ (port_producer p))) /\ camera_device_ c' = Some w) /\
    (~ out -> calls c' = calls c /\ exists w', camera_device_ c' = Some w' /\ returned w' = returned w ++ [b]).
Proof.
  intros Hp Hw Hs Hn. unfold StreamCallback. rewrite (bind_eq _ _ _ _ _ (the_port_eq port c p Hp)), Hs, Z.eqb_refl. change (negb true) with false. cbv iota.
  rewrite bind_gets. destruct (check_aec (aec_ c) (sb_timestamp b) p) as [pass p1] eqn:Hc.
  assert (Hpass : pass = fst (check_aec (aec_ c) (sb_timestamp b) p)) by (by rewrite Hc).
  assert (Hprod : port_producer p1 = port_producer p) by (pose proof (check_aec_keeps (aec_ c) (sb_timestamp b) p) as Hk; by rewrite Hc in Hk).
  rewrite (bind_eq _ _ _ _ _ (on_port_eq port _ c p pass p1 Hp (f_equal Some Hc))).
  set (c1 := c <| active_ports_ := _ |>). assert (Hp1 : GetPort port c1 = Some p1) by (by apply (GetPort_replaced port c p)).
  rewrite (bind_eq _ _ _ _ _ (the_port_eq port c1 p1 Hp1)), Hprod.
  assert (Hout : (0 <? GetNumConsumer (port_producer p)) && pass = true <->
    buffer_consumers_ (port_producer p) <> [] /\ (has_bit (sp_flags (params_ p)) kIAEC = true -> exposed_for (aec_ c) (sb_timestamp b) p)).
  { rewrite andb_true_iff. f_equiv.
    - unfold GetNumConsumer. rewrite u32_small by (unfold is_u32; lia). rewrite Z.ltb_lt. destruct (buffer_consumers_ _); simpl; [by split; [lia|]|split; [done|lia]].
    - rewrite Hpass. destruct (has_bit _ _) eqn:Hb; [rewrite (check_aec_spec _ _ _ Hb); by split; [|intros Hx; apply Hx]|].
      by rewrite (check_aec_free _ _ _ Hb). }
  destruct ((0 <? GetNumConsumer (port_producer p)) && pass).
  - assert (buffer_consumers_ (port_producer p) <> []) as Hne by (by apply Hout).
    unfold BufferProducer.NotifyBuffer. destruct (buffer_consumers_ (port_producer p)) as [|kc cs] eqn:Hcs; [done|].
    rewrite (bind_eq _ _ _ _ _ (on_port_eq port _ c1 p1 tt _ Hp1 eq_refl)), send_all_eq by (apply Forall_map, Forall_true; done).
    eexists. split; [done|]. split; [|by intros Hx; destruct Hx; apply Hout].
    intros _. split; [|done]. simpl. f_equal. f_equal. unfold kv_keys. rewrite !map_map. done.
  - destruct (ReturnStreamBuffer_eq b c1 w Hw) as (c' & w' & Hr & Hw' & Hl & Hcalls & _).
    exists c'. split; [by rewrite (bind_eq _ _ _ _ _ Hr)|]. split; [by intros Hx%Hout|]. intros _. split; [done|]. by exists w'.
Qed.

(** ** Snapshots *)

(** A snapshot that is refused because the camera does not have its
    resolution is accepted when it is asked for again: [SetUpCapture] keeps
    the parameters before it checks them, and finds nothing to change. *)
Theorem refused_snapshot_accepted p (c : Ctx) : snapshot_type_ c <> Snap.kZsl -> new_snapshot_type_ c <> Snap.kZsl ->
  streamIds (snapshot_request_ c) <> [] -> reconfigure_needed p c = true ->
  ValidateResolution (static_meta_ c) (sn_format p) (sn_width p) (sn_height p) = Some false ->
  exists c', SetUpCapture waits p c = Some (BAD_VALUE, c') /\ SetUpCapture waits p c' = Some (NO_ERROR, c').
Proof.
  intros Ht Hn Hs Hr Hv. unfold SetUpCapture, bind. simpl. rewrite (bool_decide_eq_false_2 _ Ht). simpl. rewrite Hr.
  unfold context_ValidateResolution, bind. simpl. rewrite Hv. simpl. eexists. split; [done|]. simpl. rewrite (bool_decide_eq_false_2 _ Hn). simpl.
  unfold reconfigure_needed, IsNeedReconfigSnapshotStream. simpl.
  destruct (streamIds (snapshot_request_ c)); [done|]. rewrite !Z.eqb_refl, !bool_decide_eq_true_2 by done. done.
Qed.

(** The buffers of snapshots are entered under their descriptors. *)
Definition snapshots_ok (c : Ctx) : Prop :=
  kv_ordered (snapshot_buffer_list_ c) /\
  forall k b, kv_lookup k (snapshot_buffer_list_ c) = Some b -> sb_fd b = k /\ is_Some (snapshot_buffer_stream_list_ c !! k).

Definition entered (c : Ctx) : list StreamBuffer := kv_values (snapshot_buffer_list_ c).

(** The first buffer goes back. *)
Lemma return_first k b l (c : Ctx) w : snapshots_ok c -> camera_device_ c = Some w -> snapshot_buffer_list_ c = (k, b) :: l ->
  exists c' w', ReturnImageCaptureBuffer 0 k c = Some (NO_ERROR, c') /\ snapshot_buffer_list_ c' = l /\ snapshots_ok c' /\
    camera_device_ c' = Some w' /\ returned w' = returned w ++ [b].
Proof.
  intros [Ho Hk] Hw Hl. destruct (return_taken b w) as (w' & Hr & Hlog).
  assert (kv_lookup k (snapshot_buffer_list_ c) = Some b) as Hb by (rewrite Hl; simpl; by rewrite Z.eqb_refl).
  destruct (Hk k b Hb) as [Hfd [s Hs]]. eexists _, w'. split.
  - unfold ReturnImageCaptureBuffer, bind. simpl. rewrite Hb, Hfd, Z.eqb_refl, Hs. simpl.
    unfold assert_ok, device, bind. rewrite Hw, Hr. simpl. done.
  - assert (kv_remove k (snapshot_buffer_list_ c) = l) as Hrem by (rewrite Hl; simpl; by rewrite Z.eqb_refl).
    simpl. rewrite Hrem. split; [done|]. split; [|done]. rewrite Hl in Ho. destruct Ho as [Hlt Ho].
    split; simpl; [done|]. intros k' b' Hb'.
    assert (k < k') as Hne.
    { assert (k' ∈ kv_keys l) as Hin by (apply kv_lookup_keys; by exists b').
      apply list_elem_of_fmap in Hin as ([k2 b2] & -> & Hin). rewrite Forall_forall in Hlt. exact (Hlt _ Hin). }
    rewrite lookup_delete_ne by lia. apply Hk. rewrite Hl. simpl. destruct (Z.eqb_spec k' k); [lia|done].
Qed.

Lemma return_from_half n i (c : Ctx) w : snapshots_ok c -> camera_device_ c = Some w -> (length (entered c) <= n)%nat -> 0 <= i ->
  exists c' w', return_from n i c = Some (NO_ERROR, c') /\ camera_device_ c' = Some w' /\
    let k := Z.to_nat ((Z.of_nat (length (entered c)) - i + 1) / 2) in
    returned w' = returned w ++ take k (entered c) /\ entered c' = drop k (entered c).
Proof.
  revert i c w. induction n as [|n IH]; intros i c w Hok Hw Hn Hi.
  - exists c, w. assert (entered c = []) as -> by (by apply length_zero_iff_nil; lia). simpl.
    by rewrite take_nil, drop_nil, app_nil_r.
  - simpl return_from. unfold bind at 1. simpl. destruct (snapshot_buffer_list_ c) as [|[k b] l] eqn:Hl.
    + exists c, w. unfold entered. rewrite Hl. simpl. by rewrite take_nil, drop_nil, app_nil_r.
    + assert (length (entered c) = S (length l)) as Hlen by (unfold entered, kv_values; by rewrite length_map, Hl).
      case_goal; bool_hyps.
      * destruct (return_first k b l c w Hok Hw Hl) as (c1 & w1 & Hr & Hl1 & Hok1 & Hw1 & Hlog).
        assert (entered c = b :: entered c1) as He by (unfold entered; by rewrite Hl, Hl1).
        destruct (IH (i + 1) c1 w1 Hok1 Hw1) as (c' & w' & Hr' & Hw' & Hlog' & He'); [rewrite He in Hlen, Hn; simpl in *; lia|lia|].
        exists c', w'. unfold assert_ok, bind. rewrite Hr. simpl. split; [exact Hr'|]. split; [done|].
        rewrite He. simpl length in *.
        replace (Z.to_nat ((Z.of_nat (S (length (entered c1))) - i + 1) / 2))
          with (S (Z.to_nat ((Z.of_nat (length (entered c1)) - (i + 1) + 1) / 2))).
        { simpl. rewrite Hlog', Hlog, <- app_assoc. done. }
        assert (Z.of_nat (length (entered c1)) = Z.of_nat (length l)) as Hx by (rewrite He in Hlen; simpl in Hlen; lia).
        replace (Z.of_nat (S (length (entered c1))) - i + 1) with ((Z.of_nat (length (entered c1)) - (i + 1) + 1) + 1 * 2) by lia.
        rewrite Z.div_add by lia.
        assert (0 <= (Z.of_nat (length (entered c1)) - (i + 1) + 1) / 2) by (apply Z.div_pos; simpl in *; lia). lia.
      * exists c, w. assert ((Z.of_nat (length (entered c)) - i + 1) / 2 <= 0) as Hz.
        { simpl in E. apply Z.lt_succ_r, Z.div_lt_upper_bound; lia. }
        replace (Z.to_nat _) with 0%nat by lia. by rewrite take_0, drop_0, app_nil_r.
Qed.

(** [ReturnAllImageCaptureBuffers] returns the first half of the buffers
    of snapshots: its loop counts up to the length of a list that shrinks
    under it. *)
Theorem return_all_returns_half (c : Ctx) w : snapshots_ok c -> camera_device_ c = Some w -> exists c' w',
  ReturnAllImageCaptureBuffers c = Some (NO_ERROR, c') /\ camera_device_ c' = Some w' /\
  returned w' = returned w ++ take ((length (entered c) + 1) / 2) (entered c) /\ entered c' = drop ((length (entered c) + 1) / 2) (entered c).
Proof.
  intros Hok Hw. destruct (return_from_half (length (snapshot_buffer_list_ c)) 0 c w Hok Hw) as (c' & w' & Hr & Hw' & Hlog & He).
  { unfold entered, kv_values. by rewrite length_map. } { lia. }
  exists c', w'. split; [exact Hr|]. split; [done|].
  replace (Z.to_nat ((Z.of_nat (length (entered c)) - 0 + 1) / 2)) with ((length (entered c) + 1) / 2)%nat in Hlog, He; [done|].
  replace (Z.of_nat (length (entered c)) - 0 + 1) with (Z.of_nat (length (entered c) + 1)) by lia.
  change 2 with (Z.of_nat 2) at 1. rewrite <- Nat2Z.inj_div, Nat2Z.id. done.
Qed.
End ContextFacts.

(** ** Witnesses *)

Module Demo.
(** Three modes; the first two are fast enough for 60 frames a second. *)
Definition table : MetaMap := {[31 := [3; 3; 4000; 3000; 60; 1920; 1080; 120; 1920; 1080; 30]]}.

Definition modes : list (Z * Z * Z) := [(4000, 3000, 60); (1920, 1080, 120); (1920, 1080, 30)].

Lemma table_data : meta_data 31 table = 3 :: 3 :: [4000; 3000; 60; 1920; 1080; 120; 1920; 1080; 30].
Proof. vm_compute. reflexivity. Qed.

Lemma table_rows : mapM (sensor_row (3 :: 3 :: [4000; 3000; 60; 1920; 1080; 120; 1920; 1080; 30]) 3) (seq 0 (Z.to_nat 3)) = Some modes.
Proof. vm_compute. reflexivity. Qed.

Lemma sensor_mode_best_witness : GetSensorModeIndex 1280 720 50 table = Some 1 /\
  exists i, GetSensorModeIndex 1280 720 50 table = Some i /\
    (i = 0 \/ exists m, modes !! Z.to_nat (i - 1) = Some m /\ mode_fits 1280 720 50 m).
Proof.
  split; [vm_compute; reflexivity|].
  destruct (sensor_mode_best (H0 := demo_context_tags) 1280 720 50 table 31 3 3 [4000; 3000; 60; 1920; 1080; 120; 1920; 1080; 30]
              modes eq_refl table_data table_rows eq_refl) as (i & Hi & Hc).
  exists i. split; [exact Hi|]. destruct Hc as [[-> _]|(m & _ & Hm & Hf & _)]; [left; reflexivity|right; exists m; split; [exact Hm|exact Hf]].
Defined.

(** A stream that waits for the exposure, with a consumer. *)
Definition port : CameraPort MetaMap :=
  (CameraPort_new (mkStreamParam 1 640 480 0 kNV12 (f32_of_Z 30) kIAEC) (mkCameraParameters false 30 1 0) None)
    <| camera_stream_id_ := 3 |> <| port_producer := mkBufferProducer ∅ [(9, tt)] |>.
Abbreviation camera := ((@CameraContext_new MetaMap DemoDevice _ _) <| active_ports_ := [(1, port)] |>
  <| camera_device_ := Some device_new |> <| aec_ := mkAEC AE_STATE_CONVERGED 100 |>).
Definition frame (ts : Z) : StreamBuffer := mkStreamBuffer None ts 1 3 0 5 5 64 None.

Lemma camera_port : GetPort 1 camera = Some port.
Proof. vm_compute. reflexivity. Qed.

Lemma camera_has_device : camera_device_ camera = Some device_new.
Proof. vm_compute. reflexivity. Qed.

Lemma frame_waits_for_exposure_witness :
  (exists c', StreamCallback 1 (frame 50) camera = Some (tt, c') /\ calls c' = []) /\
  (exists c', StreamCallback 1 (frame 200) camera = Some (tt, c') /\ calls c' = [ToConsumer 9 (frame 200)]).
Proof.
  split.
  - destruct (frame_waits_for_exposure 1 (frame 50) camera port device_new camera_port camera_has_device eq_refl eq_refl) as (c' & Hr & _ & Hn).
    exists c'. split; [exact Hr|]. apply Hn. intros [_ Hx]. destruct (Hx eq_refl) as [_ Hle]. vm_compute in Hle. apply Hle. reflexivity.
  - destruct (frame_waits_for_exposure 1 (frame 200) camera port device_new camera_port camera_has_device eq_refl eq_refl) as (c' & Hr & Ho & _).
    exists c'. split; [exact Hr|]. apply Ho. split; [discriminate|]. intros _. split; [right; reflexivity|vm_compute; discriminate].
Defined.

Abbreviation snapping := ((@CameraContext_new MetaMap DemoDevice _ _) <| camera_device_ := Some device_new |> <| static_meta_ := camera_info |>
  <| snapshot_request_ := mkCamera3Request {[40 := [2]]} [4] |>).

Lemma refused_snapshot_accepted_witness : exists c', SetUpCapture (mkContextWaits [] [] []) (mkSnapshotParam 9 9 95 kBLOB) snapping = Some (BAD_VALUE, c') /\
  SetUpCapture (mkContextWaits [] [] []) (mkSnapshotParam 9 9 95 kBLOB) c' = Some (NO_ERROR, c').
Proof.
  apply (refused_snapshot_accepted (mkContextWaits [] [] []) (mkSnapshotParam 9 9 95 kBLOB) snapping); try discriminate; vm_compute; reflexivity.
Defined.

Definition image (n : Z) : StreamBuffer := mkStreamBuffer None 0 n 4 0 n n 64 None.
Abbreviation full := (snapping <| snapshot_buffer_list_ := [(1, image 1); (2, image 2); (3, image 3)] |>
  <| snapshot_buffer_stream_list_ := {[1 := 4; 2 := 4; 3 := 4]} |>).

Lemma full_ok : snapshots_ok full.
Proof.
  split; [simpl; repeat split; repeat constructor|]. intros k b Hl. simpl in Hl.
  destruct (Z.eqb_spec k 1) as [->|_]; [injection Hl as <-; split; [done|by exists 4]|].
  destruct (Z.eqb_spec k 2) as [->|_]; [injection Hl as <-; split; [done|by exists 4]|].
  destruct (Z.eqb_spec k 3) as [->|_]; [injection Hl as <-; split; [done|by exists 4]|done].
Qed.

Lemma full_has_device : camera_device_ full = Some device_new.
Proof. vm_compute. reflexivity. Qed.

Lemma return_all_returns_half_witness : exists c', ReturnAllImageCaptureBuffers full = Some (NO_ERROR, c') /\ entered c' = [image 3].
Proof.
  destruct (return_all_returns_half full device_new full_ok full_has_device) as (c' & w' & Hr & _ & _ & He). exists c'. split; [exact Hr|exact He].
Defined.
End Demo.
