(* ===== verification/ContextStreams.v ===== *)
(** * The request serves the ports that run

    Starting, stopping, pausing and resuming streams keep the request that is
    repeated and the states of the ports together: after each of them the
    first request names exactly the streams of the ports that run. *)

From Stdlib Require Import SpecFloat.
From S2P Require Import Prelude KeyedVector Floats Monitor Memory Stream Adaptor ExtraParam BufferProducer Rescaler RecorderTypes CameraUtils CameraInterface ContextTypes ContextRequests CameraContext ContextDemo.

(** What matters of a port: stream, state and batch. *)
Record PortView := mkPortView { v_stream : Z; v_state : PortState; v_batch : Z }.

Definition with_state (st : PortState) (v : PortView) : PortView := mkPortView (v_stream v) st (v_batch v).

(** ** Lists of streams *)

Lemma remove_first_elem s x l : NoDup l -> x ∈ remove_first s l <-> x ∈ l /\ x <> s.
Proof.
  induction 1 as [|y l Hy Hl IH]; simpl; [rewrite elem_of_nil; tauto|].
  destruct (Z.eqb_spec s y) as [->|Hne]; rewrite !elem_of_cons; [|rewrite IH]; [|naive_solver].
  split; [intros Hx; split; [by right|by intros ->]|naive_solver].
Qed.

Lemma remove_first_nodup s l : NoDup l -> NoDup (remove_first s l).
Proof.
  induction 1 as [|y l Hy Hl IH]; simpl; [constructor|]. destruct (s =? y); [done|]. constructor; [|done].
  by rewrite remove_first_elem by done; intros [].
Qed.

(** What a visit of a port does to the first request. *)
Definition stream_step (ss : list Z) (v : PortView) : list Z :=
  match v_state v with
  | PORT_READYTOSTART => if existsb (Z.eqb (v_stream v)) ss then ss else ss ++ [v_stream v]
  | PORT_READYTOSTOP => remove_first (v_stream v) ss
  | _ => ss
  end.

Lemma existsb_elem s l : existsb (Z.eqb s) l = true <-> s ∈ l.
Proof.
  rewrite existsb_exists. split.
  - intros (x & Hx & ->%Z.eqb_eq). by apply list_elem_of_In.
  - intros Hs. exists s. split; [by apply list_elem_of_In|apply Z.eqb_refl].
Qed.

Lemma stream_step_nodup ss v : NoDup ss -> NoDup (stream_step ss v).
Proof.
  intros Hs. unfold stream_step. destruct (v_state v); try done; [|by apply remove_first_nodup].
  destruct (existsb _ ss) eqn:Hx; [done|]. apply NoDup_app. split; [done|]. split; [|apply NoDup_singleton].
  intros x Hin ->%list_elem_of_singleton. by apply existsb_elem in Hin; rewrite Hin in Hx.
Qed.

Lemma stream_step_elem ss v s : NoDup ss ->
  s ∈ stream_step ss v <-> (v_state v = PORT_READYTOSTART /\ v_stream v = s) \/ (s ∈ ss /\ ~ (v_state v = PORT_READYTOSTOP /\ v_stream v = s)).
Proof.
  intros Hs. unfold stream_step. destruct (v_state v); try naive_solver.
  - destruct (existsb _ ss) eqn:Hx.
    + apply existsb_elem in Hx. naive_solver.
    + rewrite elem_of_app, list_elem_of_singleton. naive_solver.
  - rewrite remove_first_elem by done. naive_solver.
Qed.

(** A pass over ports with streams of their own. *)
Lemma stream_fold vs ss s : NoDup ss -> NoDup (map v_stream vs) ->
  NoDup (fold_left stream_step vs ss) /\
  (s ∈ fold_left stream_step vs ss <->
   (exists v, v ∈ vs /\ v_state v = PORT_READYTOSTART /\ v_stream v = s) \/
   (s ∈ ss /\ ~ exists v, v ∈ vs /\ v_state v = PORT_READYTOSTOP /\ v_stream v = s)).
Proof.
  revert ss. induction vs as [|v vs IH]; intros ss Hs Hd; simpl.
  - split; [done|]. setoid_rewrite elem_of_nil. naive_solver.
  - apply NoDup_cons in Hd as [Hv Hd]. destruct (IH (stream_step ss v) (stream_step_nodup ss v Hs) Hd) as [Hn He].
    split; [done|]. rewrite He, (stream_step_elem ss v s Hs). setoid_rewrite elem_of_cons.
    assert (forall v', v' ∈ vs -> v_stream v' <> v_stream v) as Hne.
    { intros v' Hin Heq. apply Hv. rewrite <- Heq. by apply list_elem_of_In, in_map, list_elem_of_In. }
    split.
    + intros [(v' & Hin & ?)|[[[Hr Hs']|[Hin Hn']] Hstop]]; [left; exists v'; tauto|left; exists v; tauto|].
      right. split; [done|]. intros (v' & [->|Hin'] & ?); [tauto|]. apply Hstop. by exists v'.
    + intros [(v' & [->|Hin] & Hst & Hs')|[Hin Hstop]].
      * right. split; [by left|]. intros (v' & Hin & _ & Hs''). apply (Hne v' Hin). congruence.
      * left. by exists v'.
      * right. split; [right|]; [split; [done|]; intros Hx; apply Hstop; exists v; tauto|].
        intros (v' & Hin' & Hx). apply Hstop. exists v'. tauto.
Qed.

(** ** Views of the context *)

Lemma kv_lookup_map {A B} (f : A -> B) k (m : kv A) : kv_lookup k (map (fun kp => (fst kp, f (snd kp))) m) = f <$> kv_lookup k m.
Proof. induction m as [|[k' v] m IH]; simpl; [done|]. by destruct (k =? k'). Qed.

Lemma kv_replace_map {A B} (f : A -> B) k v (m : kv A) :
  map (fun kp => (fst kp, f (snd kp))) (kv_replace k v m) = kv_replace k (f v) (map (fun kp => (fst kp, f (snd kp))) m).
Proof. induction m as [|[k' v'] m IH]; simpl; [done|]. destruct (k =? k'); simpl; [done|]. by rewrite IH. Qed.

(** A value that keeps its mark replaces the one with that mark. *)
Lemma kv_values_replace {V A} (f : V -> A) k v v' (m : kv V) : NoDup (map f (kv_values m)) -> kv_lookup k m = Some v -> f v' = f v ->
  map f (kv_values (kv_replace k v' m)) = map f (kv_values m) /\
  forall q, q ∈ kv_values (kv_replace k v' m) <-> q = v' \/ (q ∈ kv_values m /\ f q <> f v).
Proof.
  induction m as [|[k0 v0] m IH]; simpl; [done|]. intros [Hn Hd]%NoDup_cons Hl Hf. destruct (k =? k0); simpl.
  - injection Hl as ->. rewrite Hf. split; [done|]. intros q. rewrite !elem_of_cons.
    assert (q ∈ map snd m -> f q <> f v) by (intros Hin Heq; apply Hn; rewrite <- Heq; by apply list_elem_of_In, in_map, list_elem_of_In).
    naive_solver.
  - destruct (IH Hd Hl Hf) as [Hm Hq]. split; [by f_equal|]. intros q. rewrite !elem_of_cons. unfold kv_values in Hq. rewrite Hq.
    assert (f v0 <> f v).
    { intros Heq. apply Hn. rewrite Heq. apply list_elem_of_In, in_map. clear -Hl. induction m as [|[k1 v1] m IH]; simpl in *; [done|].
      destruct (k =? k1); [left; congruence|right; by apply IH]. }
    naive_solver.
Qed.

Section ContextStreams.
Context {M W : Type} `{CameraMetadata M} `{MetadataTags} `{InputTag} `{ContextTags} `{HalPlatform} `{RgbPlatform} `{CameraDevice M W}
  `{ContextPlatform}.

Abbreviation Ctx := (CameraContext M W).
Abbreviation Port := (CameraPort M).

Definition port_view (p : Port) : PortView := mkPortView (camera_stream_id_ p) (port_state_ p) (cp_batch_size (port_parameters p)).

Definition ports_view (c : Ctx) : kv PortView := map (fun kp => (fst kp, port_view (snd kp))) (active_ports_ c).

Definition head_streams (rs : list (Camera3Request M)) : list Z := match rs with r :: _ => streamIds r | [] => [] end.

Definition repeated_streams (c : Ctx) : list Z := head_streams (streaming_active_requests_ c).

Definition view (c : Ctx) : kv PortView * list Z := (ports_view c, repeated_streams c).

Definition keeps {A} (m : ST Ctx A) : Prop := forall v, preserves (fun c => view c = v) m.

(** *** What leaves the view alone *)

Lemma keeps_device {A} (m : ST W A) : keeps (device m).
Proof. intros v c Hc. unfold device. destruct (camera_device_ c); [|done]. by destruct (m _) as [[]|]. Qed.

Lemma keeps_modify f : (forall c, view (f c) = view c) -> keeps (modify f).
Proof. intros Hf v. apply preserves_modify. intros c <-. apply Hf. Qed.

Lemma keeps_assert_ok m : keeps m -> keeps (assert_ok m).
Proof. intros Hm v. unfold assert_ok. apply preserves_bind; [apply Hm|]. intros r. destruct (r =? NO_ERROR); [apply preserves_ret|apply preserves_undefined]. Qed.

Lemma keeps_bind {A B} (m : ST Ctx A) (k : A -> ST Ctx B) : keeps m -> (forall a, keeps (k a)) -> keeps (bind m k).
Proof. intros Hm Hk v. apply preserves_bind; [apply Hm|]. intros a. apply Hk. Qed.

Lemma hoare_keeps {A B} (m : ST Ctx A) (k : A -> ST Ctx B) Q v : keeps m -> (forall a, hoare (fun c => view c = v) (k a) Q) ->
  hoare (fun c => view c = v) (bind m k) Q.
Proof. intros Hm Hk. apply (hoare_bind _ _ _ _ (fun _ c => view c = v)); [apply Hm|exact Hk]. Qed.

Lemma keeps_if {A} (b : bool) (m n : ST Ctx A) : keeps m -> keeps n -> keeps (if b then m else n).
Proof. by destruct b. Qed.

Lemma note_stream_view r l c s : view (note_stream r l c s) = view c.
Proof. unfold note_stream. by repeat case_match. Qed.

Lemma note_streams_view r l ss c : view (fold_left (note_stream r l) ss c) = view c.
Proof. revert c. induction ss as [|s ss IH]; intros c; simpl; [done|]. by rewrite IH, note_stream_view. Qed.

Lemma CancelRequest_spec c r c' : CancelRequest c = Some (r, c') -> r = NO_ERROR /\ view c' = view c.
Proof.
  unfold CancelRequest. rewrite bind_gets. destruct (_ && _); [by intros [= <- <-]|].
  intros (f & c1 & Hf & Hr)%bind_some. pose proof (keeps_device dv_Flush (view c) c eq_refl) as Hk. rewrite Hf in Hk.
  destruct (fst f =? NO_ERROR); [|done]. apply bind_some in Hr as (r1 & c2 & Hw & Hr).
  pose proof (keeps_assert_ok _ (keeps_device dv_WaitUntilIdle) (view c) c1 Hk) as Hk2. rewrite Hw in Hk2.
  apply bind_some in Hr as ([] & c3 & [= <-] & [= <- <-]). by rewrite <- Hk2.
Qed.

Context (waits : ContextWaits (M := M) (W := W)).

(** During the waits no port starts or stops and no stream joins the request. *)
Definition waits_keep : Prop := forall w, w ∈ prepare_waits waits ++ pending_waits waits -> forall c, view (snd (w c)) = view c.
Context (Hwaits : waits_keep).

Lemma wait_prepared_keeps s ws : (forall w, w ∈ ws -> forall c, view (snd (w c)) = view c) -> keeps (wait_prepared s ws).
Proof.
  induction ws as [|w ws IH]; intros Hw v c Hc; simpl; destruct (default _ _); try done.
  apply IH; [intros w' Hw'; apply Hw; by right|]. rewrite <- Hc. apply Hw. by left.
Qed.

Lemma wait_removed_keeps ws : (forall w, w ∈ ws -> forall c, view (snd (w c)) = view c) -> keeps (wait_removed ws).
Proof.
  induction ws as [|w ws IH]; intros Hw v c Hc; simpl; destruct (bool_decide _); try done.
  specialize (Hw w) as Hv. specialize (Hv ltac:(by left) c). destruct (w c) as [r c1]. simpl in Hv.
  destruct (r =? 0); [|congruence]. apply IH; [intros w' Hw'; apply Hw; by right|]. congruence.
Qed.

(** *** A pass over the ports *)

Lemma visit_streams u p u' : 1 <= v_batch (port_view p) -> visit_port (Some u) p = Some u' ->
  head_streams (u_requests u') = stream_step (head_streams (u_requests u)) (port_view p).
Proof.
  unfold visit_port, stream_step. simpl. intros Hb. destruct (port_state_ p); try by intros [= <-].
  - unfold join_requests. destruct (Z.to_nat (cp_batch_size (port_parameters p))) as [|n] eqn:Hn; [lia|].
    assert (exists r rs, u_requests u ++ replicate (S n - length (u_requests u)) empty_request = r :: rs /\ streamIds r = head_streams (u_requests u))
      as (r & rs & -> & Hr) by (destruct (u_requests u) as [|r rs]; simpl; [by exists empty_request, (replicate n empty_request)|eexists _, _; done]).
    simpl. destruct (join_from _ _ _ n rs); [|done]. intros [= <-]. simpl. unfold has_stream. rewrite Hr. by destruct (existsb _ _).
  - intros Hu. assert (u_requests u' = map (leave_request (camera_stream_id_ p)) (u_requests u)) as -> by (by destruct (existsb _ _); injection Hu as <-).
    by destruct (u_requests u).
Qed.

Lemma visit_none ps : fold_left visit_port ps (@None (Update (M := M))) = None.
Proof. by induction ps. Qed.

Lemma visits_streams ps u u' : Forall (fun p => 1 <= v_batch (port_view p)) ps -> fold_left visit_port ps (Some u) = Some u' ->
  head_streams (u_requests u') = fold_left stream_step (map port_view ps) (head_streams (u_requests u)).
Proof.
  intros Hb. revert u. induction Hb as [|p ps Hp Hb IH]; intros u; simpl; [by intros [= ->]|].
  destruct (visit_port (Some u) p) as [u1|] eqn:Hu; [|simpl in Hu; rewrite Hu, visit_none; done].
  simpl in Hu. rewrite Hu. intros Hf. by rewrite (IH u1 Hf), (visit_streams u p u1 Hp Hu).
Qed.

Lemma set_rates_streams fps rs rs' : set_rates fps rs = Some rs' -> head_streams rs' = head_streams rs.
Proof.
  unfold set_rates. destruct (SFltb _ _); [|by intros [= ->]]. destruct (rounded_rate fps) as [n|]; [|done].
  destruct (n =? 0); [done|]. intros [= <-]. by destruct rs.
Qed.

Lemma ports_view_values c : kv_values (ports_view c) = map port_view (kv_values (active_ports_ c)).
Proof. unfold ports_view, kv_values. rewrite !map_map. done. Qed.

Definition batches_ok (vs : kv PortView) : Prop := Forall (fun v => 1 <= v_batch v) (kv_values vs).

Lemma set_requests_view rs c : view (c <| streaming_active_requests_ := rs |>) = (ports_view c, head_streams rs).
Proof. done. Qed.

Lemma UpdateRequest_spec b c r c' : batches_ok (ports_view c) -> UpdateRequest waits b c = Some (r, c') ->
  r = NO_ERROR /\ ports_view c' = ports_view c /\ repeated_streams c' = fold_left stream_step (kv_values (ports_view c)) (repeated_streams c).
Proof.
  unfold batches_ok. rewrite ports_view_values, Forall_map. intros Hb.
  unfold UpdateRequest. rewrite bind_gets. destruct (fold_left visit_port _ _) as [u|] eqn:Hf; [|done].
  apply (visits_streams _ _ _ Hb) in Hf. simpl in Hf. fold (repeated_streams c) in Hf.
  destruct (u_requests u) as [|first rest]; [done|]. destruct (cut_stale rest) as [rest'|]; [|done].
  intros ([] & c1 & [= <-] & Hr)%bind_some. simpl in Hf. rewrite <- Hf. clear Hf.
  assert (Hgoal : forall r1 c2, r1 = NO_ERROR /\ view c2 = (ports_view c, streamIds first) ->
    r1 = NO_ERROR /\ ports_view c2 = ports_view c /\ repeated_streams c2 = streamIds first).
  { unfold view. intros r1 c2 [? Hv]. split; [done|]. split; congruence. }
  apply Hgoal. clear Hgoal. destruct (streamIds first) as [|s ss] eqn:Hs.
  { apply CancelRequest_spec in Hr as [? ->]. split; [done|]. unfold view, repeated_streams. simpl. by rewrite Hs. }
  rewrite <- Hs in Hr |- *. clear s ss Hs. destruct (set_rates _ _) as [rs|] eqn:Hrs; [|done]. apply set_rates_streams in Hrs. simpl in Hrs.
  apply bind_some in Hr as ([] & c1 & [= <-] & Hr). destruct (existsb _ rs); [done|].
  match type of Hr with ?m ?s = _ => assert (Hk : hoare (fun c0 => view c0 = (ports_view c, streamIds first)) m
    (fun r c0 => r = NO_ERROR /\ view c0 = (ports_view c, streamIds first))) end.
  - clear Hr. apply hoare_keeps.
    { intros v. apply preserves_for_each. intros s _. apply wait_prepared_keeps. intros w Hw. apply Hwaits. apply elem_of_app. by left. }
    intros []. apply hoare_keeps; [apply keeps_device|]. intros s. destruct (fst s <? 0); [done|].
    apply hoare_keeps; [apply keeps_modify; intros c0; unfold store_last; by case_match|].
    intros []. apply hoare_keeps; [apply keeps_modify; intros c0; by rewrite note_streams_view|].
    intros []. apply hoare_keeps.
    { apply wait_removed_keeps. intros w Hw. apply Hwaits. apply elem_of_app. by right. }
    intros [] c0 Hc0. by split.
  - unfold hoare in Hk. match type of Hr with _ ?s = _ => specialize (Hk s) end. rewrite Hr in Hk. apply Hk.
    unfold view, repeated_streams. simpl. by rewrite Hrs.
Qed.

(** ** Starting and stopping *)

Definition runs (v : PortView) : Prop := v_state v = PORT_STARTED \/ v_state v = PORT_PAUSED.

(** Ports have streams of their own and are not about to start or stop, and
    the request has the streams of those that run. *)
Record StreamInv (pv : kv PortView) (ss : list Z) : Prop := {
  si_distinct : NoDup (map v_stream (kv_values pv));
  si_steady v : v ∈ kv_values pv -> v_state v <> PORT_READYTOSTART /\ v_state v <> PORT_READYTOSTOP;
  si_batches : batches_ok pv;
  si_nodup : NoDup ss;
  si_streams s : s ∈ ss <-> exists v, v ∈ kv_values pv /\ runs v /\ v_stream v = s
}.

(** A port in a new steady state, with the streams that go with it. *)
Lemma stream_inv_replace pv ss ss' port v st : StreamInv pv ss -> kv_lookup port pv = Some v ->
  st <> PORT_READYTOSTART -> st <> PORT_READYTOSTOP -> NoDup ss' ->
  (forall s, s ∈ ss' <-> (runs (with_state st v) /\ v_stream v = s) \/ (s ∈ ss /\ s <> v_stream v)) ->
  StreamInv (kv_replace port (with_state st v) pv) ss'.
Proof.
  intros [Hd Hst Hb Hn Hs] Hl Hs1 Hs2 Hn' He.
  destruct (kv_values_replace v_stream port v (with_state st v) pv Hd Hl eq_refl) as [Hm Hq].
  assert (v ∈ kv_values pv) as Hv.
  { clear -Hl. induction pv as [|[k v0] pv IH]; simpl in *; [done|]. destruct (port =? k); [injection Hl as ->; by left|right; by apply IH]. }
  split; [by rewrite Hm| | |done|].
  - intros q [->|[Hq' _]]%Hq; [by split|by apply Hst].
  - unfold batches_ok in *. rewrite Forall_forall in Hb |- *. intros q [->|[Hq' _]]%Hq; [exact (Hb v Hv)|by apply Hb].
  - intros s. rewrite He, Hs. split.
    + intros [[Hr <-]|[(q & Hin & Hr & <-) Hne]]; [exists (with_state st v); rewrite Hq; naive_solver|exists q; rewrite Hq; naive_solver].
    + intros (q & [->|[Hin Hne]]%Hq & Hr & <-); [left; by split|right]. split; [by exists q|done].
Qed.

(** The pass while one port is about to change. *)
Lemma change_pass pv ss port v st : StreamInv pv ss -> kv_lookup port pv = Some v ->
  let ss' := fold_left stream_step (kv_values (kv_replace port (with_state st v) pv)) ss in
  NoDup ss' /\ forall s, s ∈ ss' <-> (st = PORT_READYTOSTART /\ v_stream v = s) \/ (s ∈ ss /\ ~ (st = PORT_READYTOSTOP /\ v_stream v = s)).
Proof.
  intros [Hd Hst Hb Hn Hs] Hl. destruct (kv_values_replace v_stream port v (with_state st v) pv Hd Hl eq_refl) as [Hm Hq].
  assert (NoDup (map v_stream (kv_values (kv_replace port (with_state st v) pv)))) as Hd' by (by rewrite Hm).
  split; [by apply (stream_fold _ ss 0 Hn Hd')|]. intros s. rewrite (proj2 (stream_fold _ ss s Hn Hd')).
  assert (forall st', st' = PORT_READYTOSTART \/ st' = PORT_READYTOSTOP ->
    (exists q, q ∈ kv_values (kv_replace port (with_state st v) pv) /\ v_state q = st' /\ v_stream q = s) <-> st = st' /\ v_stream v = s) as Hx.
  { intros st' Hst'. split.
    - intros (q & [->|[Hin _]]%Hq & Hsq & Hs'); [done|]. destruct (Hst q Hin) as [Ha Hb']. destruct Hst' as [->| ->]; congruence.
    - intros [<- <-]. exists (with_state st v). rewrite Hq. split; [by left|done]. }
  rewrite (Hx PORT_READYTOSTART), (Hx PORT_READYTOSTOP) by tauto. done.
Qed.

Lemma start_inv pv ss port v : StreamInv pv ss -> kv_lookup port pv = Some v ->
  StreamInv (kv_replace port (with_state PORT_STARTED v) pv) (fold_left stream_step (kv_values (kv_replace port (with_state PORT_READYTOSTART v) pv)) ss).
Proof.
  intros Hi Hl. destruct (change_pass pv ss port v PORT_READYTOSTART Hi Hl) as [Hn He].
  apply (stream_inv_replace pv ss _ port v PORT_STARTED Hi Hl); try done. intros s. rewrite He. unfold runs. simpl.
  destruct (decide (s = v_stream v)) as [->|]; naive_solver.
Qed.

Lemma stop_inv pv ss port v : StreamInv pv ss -> kv_lookup port pv = Some v ->
  StreamInv (kv_replace port (with_state PORT_STOPPED v) pv) (fold_left stream_step (kv_values (kv_replace port (with_state PORT_READYTOSTOP v) pv)) ss).
Proof.
  intros Hi Hl. destruct (change_pass pv ss port v PORT_READYTOSTOP Hi Hl) as [Hn He].
  apply (stream_inv_replace pv ss _ port v PORT_STOPPED Hi Hl); try done. intros s. rewrite He. unfold runs. simpl. naive_solver.
Qed.

Lemma switch_inv pv ss port v st : StreamInv pv ss -> kv_lookup port pv = Some v -> runs v -> runs (with_state st v) ->
  StreamInv (kv_replace port (with_state st v) pv) ss.
Proof.
  intros Hi Hl Hr Hr'. apply (stream_inv_replace pv ss ss port v st Hi Hl).
  - by destruct Hr' as [E|E]; simpl in E; rewrite E.
  - by destruct Hr' as [E|E]; simpl in E; rewrite E.
  - by destruct Hi.
  - intros s. destruct (decide (s = v_stream v)) as [->|]; [|naive_solver]. split; [naive_solver|]. intros _.
    apply (si_streams _ _ Hi). exists v. split; [|done].
    clear -Hl. induction pv as [|[k v0] pv IH]; simpl in *; [done|]. destruct (port =? k); [injection Hl as ->; by left|right; by apply IH].
Qed.

(** *** The calls *)

Definition serves (c : Ctx) : Prop := StreamInv (ports_view c) (repeated_streams c).

Lemma GetPort_view port c p : GetPort port c = Some p -> kv_lookup port (ports_view c) = Some (port_view p).
Proof. intros Hp. unfold ports_view. rewrite kv_lookup_map. unfold GetPort in Hp. by rewrite Hp. Qed.

Lemma view_GetPort port c v : kv_lookup port (ports_view c) = Some v -> exists p, GetPort port c = Some p /\ port_view p = v.
Proof. unfold ports_view. rewrite kv_lookup_map. unfold GetPort. destruct (kv_lookup port (active_ports_ c)) as [p|]; [|done]. intros [= <-]. by exists p. Qed.

Lemma on_port_view port f c p v' : GetPort port c = Some p -> port_view (f p) = v' -> exists c',
  on_port port (modify f) c = Some (tt, c') /\ ports_view c' = kv_replace port v' (ports_view c) /\ repeated_streams c' = repeated_streams c.
Proof.
  intros Hp <-. eexists. split; [by apply (on_port_eq port _ c p tt (f p) Hp)|]. split; [|done].
  unfold ports_view. simpl. apply (kv_replace_map port_view).
Qed.

Lemma kv_lookup_replace_same {A} k (v v0 : A) m : kv_lookup k m = Some v0 -> kv_lookup k (kv_replace k v m) = Some v.
Proof. apply kv_lookup_replaced. Qed.

(** A port is marked, the request updated, and the port is in its new state. *)
Lemma change_port port f mark final c r c' p : serves c -> GetPort port c = Some p ->
  port_view (f p) = with_state mark (port_view p) ->
  (do* on_port port (modify f) in
   let* r := UpdateRequest waits true in
   if negb (r =? NO_ERROR) then ret r else do* on_port port (modify (set_state final)) in ret NO_ERROR) c = Some (r, c') ->
  r = NO_ERROR /\ ports_view c' = kv_replace port (with_state final (port_view p)) (ports_view c) /\
  repeated_streams c' = fold_left stream_step (kv_values (kv_replace port (with_state mark (port_view p)) (ports_view c))) (repeated_streams c).
Proof.
  intros Hs Hp Hf Hr. destruct (on_port_view port f c p _ Hp Hf) as (c1 & H1' & Hv1 & Hr1).
  rewrite (bind_eq _ _ _ _ _ H1') in Hr. apply bind_some in Hr as (r1 & c2 & Hu & Hr).
  apply GetPort_view in Hp as Hl.
  assert (batches_ok (ports_view c1)) as Hb.
  { rewrite Hv1. pose proof (si_batches _ _ Hs) as Hb. unfold batches_ok in *. rewrite Forall_forall in Hb |- *.
    destruct (kv_values_replace v_stream port _ (with_state mark (port_view p)) _ (si_distinct _ _ Hs) Hl eq_refl) as [_ Hq].
    intros q [->|[Hin _]]%Hq; [|by apply Hb]. simpl.
    apply (Hb (port_view p)). clear -Hl. induction (ports_view c) as [|[k v0] pv IH]; simpl in *; [done|].
    destruct (port =? k); [injection Hl as ->; by left|right; by apply IH]. }
  apply (UpdateRequest_spec true c1 r1 c2 Hb) in Hu as (-> & Hv2 & Hr2). simpl in Hr.
  assert (kv_lookup port (ports_view c2) = Some (with_state mark (port_view p))) as Hl2 by (rewrite Hv2, Hv1; by apply (kv_lookup_replaced _ _ (port_view p))).
  destruct (view_GetPort port c2 _ Hl2) as (p2 & Hp2 & Hpv2).
  destruct (on_port_view port (set_state final) c2 p2 (with_state final (port_view p)) Hp2) as (c3 & H3' & Hv3 & Hr3).
  { assert (port_view (set_state final p2) = with_state final (port_view p2)) as -> by done. by rewrite Hpv2. }
  rewrite (bind_eq _ _ _ _ _ H3') in Hr. injection Hr as <- <-. split; [done|].
  rewrite Hv3, Hv2, Hv1, kv_replace_replace, Hr3, Hr2, Hv1, Hr1. done.
Qed.

Inductive StreamOp := OpStart (track : Z) | OpStop (track : Z) | OpPause (track : Z) | OpResume (track : Z).

Definition stream_op (op : StreamOp) : ST Ctx Z :=
  match op with
  | OpStart t => StartStream waits t
  | OpStop t => StopStream waits t
  | OpPause t => PauseStream t
  | OpResume t => ResumeStream t
  end.

Lemma with_port_serves track k c r c' : serves c -> with_port track (fun p => assert_ok (k p)) c = Some (r, c') ->
  (forall p c1 r1, GetPort track c = Some p -> k p c = Some (r1, c1) -> serves c1) -> serves c'.
Proof.
  intros Hs. unfold with_port. rewrite bind_gets. change (GetPort track (id c)) with (GetPort track c).
  destruct (GetPort track c) as [p|] eqn:Hp; [|by intros [= <- <-]]. unfold assert_ok. change (id c) with c.
  intros (r1 & c1 & Hk & Hr)%bind_some Hspec. destruct (r1 =? NO_ERROR); [|done]. injection Hr as <- <-. by apply (Hspec p c1 r1).
Qed.

Lemma switch_serves from to port c r c' : serves c -> from = PORT_STARTED \/ from = PORT_PAUSED -> to = PORT_STARTED \/ to = PORT_PAUSED ->
  switch_port from to port c = Some (r, c') -> serves c'.
Proof.
  intros Hs Hf Ht. unfold switch_port. intros (p & c0 & Hp & Hr)%bind_some.
  destruct (GetPort port c) as [q|] eqn:Hq; [|unfold the_port, on_port in Hp; rewrite Hq in Hp; done].
  rewrite (the_port_eq port c q Hq) in Hp. injection Hp as <- <-. case_bool_decide as Hst; [|done].
  destruct (on_port_view port (set_state to) c q (with_state to (port_view q)) Hq eq_refl) as (c1 & Hc1 & Hv & Hrs).
  rewrite (bind_eq _ _ _ _ _ Hc1) in Hr. injection Hr as <- <-. unfold serves. rewrite Hv, Hrs.
  apply switch_inv; [done|by apply GetPort_view| |]; unfold runs; simpl; [rewrite Hst|]; naive_solver.
Qed.

Lemma stream_op_serves op c r c' : serves c -> stream_op op c = Some (r, c') -> serves c'.
Proof.
  intros Hs Hop. destruct op as [t|t|t|t]; simpl in Hop; apply (with_port_serves t _ c r c' Hs Hop); clear Hop; intros p c1 r1 Hp Hk.
  - unfold CameraPort_Start in Hk. rewrite (bind_eq _ _ _ _ _ (the_port_eq t c p Hp)) in Hk.
    case_bool_decide as Hst; [by injection Hk as <- <-|].
    apply (change_port t _ PORT_READYTOSTART PORT_STARTED c r1 c1 p Hs Hp) in Hk as (_ & Hv & Hr); [|done].
    unfold serves. rewrite Hv, Hr. apply start_inv; [done|by apply GetPort_view].
  - unfold CameraPort_Stop in Hk. rewrite (bind_eq _ _ _ _ _ (the_port_eq t c p Hp)) in Hk.
    case_bool_decide as Hst; [by injection Hk as <- <-|].
    apply (change_port t _ PORT_READYTOSTOP PORT_STOPPED c r1 c1 p Hs Hp) in Hk as (_ & Hv & Hr); [|done].
    unfold serves. rewrite Hv, Hr. apply stop_inv; [done|by apply GetPort_view].
  - by apply (switch_serves PORT_STARTED PORT_PAUSED t c r1 c1 Hs); [left|right|].
  - by apply (switch_serves PORT_PAUSED PORT_STARTED t c r1 c1 Hs); [right|left|].
Qed.

(** C13. Starting, stopping, pausing and resuming streams in any order keeps
    the request that is repeated in step with the ports: it names exactly the
    streams of the ports that are started or paused, each of them once. *)
Theorem request_serves_ports ops (c c' : Ctx) : serves c -> for_each ops (fun op => do* stream_op op in ret tt) c = Some (tt, c') ->
  NoDup (repeated_streams c') /\
  forall s, s ∈ repeated_streams c' <->
    exists p, p ∈ kv_values (active_ports_ c') /\ (port_state_ p = PORT_STARTED \/ port_state_ p = PORT_PAUSED) /\ camera_stream_id_ p = s.
Proof.
  intros Hs Hr. assert (serves c') as Hs'.
  { assert (preserves serves (for_each ops (fun op => do* stream_op op in ret tt))) as Hp.
    { apply preserves_for_each. intros op _. apply preserves_bind; [|intros; apply preserves_ret].
      intros c0 Hc0. destruct (stream_op op c0) as [[r c1]|] eqn:He; [|done]. by apply (stream_op_serves op c0 r). }
    specialize (Hp c Hs). by rewrite Hr in Hp. }
  split; [apply Hs'|]. intros s. rewrite (si_streams _ _ Hs' s), ports_view_values. split.
  - intros (v & Hin & Hv & <-). apply list_elem_of_fmap in Hin as (p & -> & Hp). by exists p.
  - intros (p & Hp & Hst & <-). exists (port_view p). split; [|done]. by apply list_elem_of_In, in_map, list_elem_of_In.
Qed.
End ContextStreams.

(** ** Witness *)

Module Demo.
Definition port (id : Z) : CameraPort MetaMap :=
  (CameraPort_new (mkStreamParam id 640 480 0 kNV12 (f32_of_Z 30) 0) (mkCameraParameters false 30 1 0) None) <| camera_stream_id_ := id |>.

(** Two streams that are not started. *)
Abbreviation camera := ((@CameraContext_new MetaMap DemoDevice _ _) <| active_ports_ := [(1, port 1); (2, port 2)] |>
  <| camera_device_ := Some device_new |> <| stream_prepared_ := <[1 := true]> {[2 := true]} |>
  <| streaming_active_requests_ := [mkCamera3Request {[40 := [3]]} []] |>).

Definition no_waits : ContextWaits (M := MetaMap) (W := DemoDevice) := mkContextWaits [] [] [].

Definition ops : list StreamOp := [OpStart 2; OpStart 1; OpPause 1; OpStop 2].

Lemma no_waits_keep : waits_keep no_waits.
Proof. intros w Hw. simpl in Hw. by apply elem_of_nil in Hw. Qed.

Lemma camera_serves : serves camera.
Proof.
  split.
  - apply (bool_decide_unpack _). vm_compute. exact Logic.I.
  - intros v Hv. unfold ports_view in Hv. simpl in Hv. rewrite !elem_of_cons, elem_of_nil in Hv. destruct Hv as [->|[->|[]]]; done.
  - vm_compute. repeat constructor; done.
  - constructor.
  - intros s. change (repeated_streams camera) with (@nil Z). rewrite elem_of_nil. split; [done|].
    intros (v & Hv & Hr & _). unfold ports_view in Hv. simpl in Hv. rewrite !elem_of_cons, elem_of_nil in Hv.
    destruct Hv as [->|[->|[]]]; by destruct Hr.
Qed.

Lemma ops_run : exists c, for_each ops (fun op => do* stream_op no_waits op in ret tt) camera = Some (tt, c) /\ repeated_streams c = [1].
Proof. eexists. vm_compute. split; reflexivity. Qed.

Lemma request_serves_ports_witness : exists c : CameraContext MetaMap DemoDevice, repeated_streams c = [1] /\
  exists p, p ∈ kv_values (active_ports_ c) /\ (port_state_ p = PORT_STARTED \/ port_state_ p = PORT_PAUSED) /\ camera_stream_id_ p = 1.
Proof.
  destruct ops_run as (c & Hr & Hs). exists c. split; [exact Hs|].
  destruct (request_serves_ports no_waits no_waits_keep ops camera c camera_serves Hr) as [_ He].
  apply (proj1 (He 1)). rewrite Hs. apply list_elem_of_In. left. reflexivity.
Defined.
End Demo.
