(* ===== verification/ContextWires.v ===== *)
(** * The ports are what users of a camera rely on

    The camera context keeps the promises of [CameraWires]: its ports are the
    streams, their consumers are those that were added and not removed, and
    a stream runs from its start to its stop. *)

From Stdlib Require Import SpecFloat.
From S2P Require Import Prelude KeyedVector Floats Monitor Memory Stream Adaptor ExtraParam BufferProducer Rescaler RecorderTypes CameraUtils CameraInterface ContextTypes ContextRequests CameraContext ContextStreams.

Section ContextWires.
Context {M W : Type} `{CameraMetadata M} `{MetadataTags} `{InputTag} `{ContextTags} `{HalPlatform} `{RgbPlatform} `{CameraDevice M W}
  `{ContextPlatform}.

Abbreviation Ctx := (CameraContext M W).
Abbreviation Port := (CameraPort M).

Definition started (p : Port) : bool := match port_state_ p with PORT_STARTED | PORT_PAUSED => true | _ => false end.

Definition port_wires (p : Port) : StreamWires := (consumers_ p, started p).

Definition ports_wires (c : Ctx) : kv StreamWires := map (fun kp => (fst kp, port_wires (snd kp))) (active_ports_ c).

Definition keeps_wires {A} (m : ST Ctx A) : Prop := forall v, preserves (fun c => ports_wires c = v) m.

Lemma keeps_wires_device {A} (m : ST W A) : keeps_wires (device m).
Proof. intros v c Hc. unfold device. destruct (camera_device_ c); [|done]. by destruct (m _) as [[]|]. Qed.

Lemma keeps_wires_modify f : (forall c, active_ports_ (f c) = active_ports_ c) -> keeps_wires (modify f).
Proof. intros Hf v. apply preserves_modify. intros c <-. unfold ports_wires. by rewrite Hf. Qed.

Lemma keeps_wires_ok m : keeps_wires m -> keeps_wires (assert_ok m).
Proof.
  intros Hm v. unfold assert_ok. apply preserves_bind; [apply Hm|]. intros r.
  destruct (r =? NO_ERROR); [apply preserves_ret|apply preserves_undefined].
Qed.

Lemma note_streams_ports r l ss (c : Ctx) : active_ports_ (fold_left (note_stream r l) ss c) = active_ports_ c.
Proof. revert c. induction ss as [|s ss IH]; intros c; simpl; [done|]. rewrite IH. unfold note_stream. by repeat case_match. Qed.

Context (waits : ContextWaits (M := M) (W := W)).

(** During the waits no consumer comes or goes and no stream starts or
    stops. *)
Definition waits_keep_wires : Prop :=
  forall w, w ∈ prepare_waits waits ++ pending_waits waits -> forall c, ports_wires (snd (w c)) = ports_wires c.
Context (Hwaits : waits_keep_wires).

Lemma wait_prepared_wires s ws : (forall w, w ∈ ws -> forall c, ports_wires (snd (w c)) = ports_wires c) -> keeps_wires (wait_prepared s ws).
Proof.
  induction ws as [|w ws IH]; intros Hw v c Hc; simpl; destruct (default _ _); try done.
  apply IH; [intros w' Hw'; apply Hw; by right|]. rewrite <- Hc. apply Hw. by left.
Qed.

Lemma wait_removed_wires ws : (forall w, w ∈ ws -> forall c, ports_wires (snd (w c)) = ports_wires c) -> keeps_wires (wait_removed ws).
Proof.
  induction ws as [|w ws IH]; intros Hw v c Hc; simpl; destruct (bool_decide _); try done.
  specialize (Hw w) as Hv. specialize (Hv ltac:(by left) c). destruct (w c) as [r c1]. simpl in Hv.
  destruct (r =? 0); [|congruence]. apply IH; [intros w' Hw'; apply Hw; by right|]. congruence.
Qed.

Ltac keep_step := first [ preserve_step | apply keeps_wires_device | apply keeps_wires_ok, keeps_wires_device
  | apply keeps_wires_modify; intros ?; try done ].

Lemma UpdateRequest_wires b : keeps_wires (UpdateRequest waits b).
Proof.
  intros v. unfold UpdateRequest, CancelRequest. repeat keep_step.
  - apply wait_prepared_wires. intros w Hw. apply Hwaits. apply elem_of_app. by left.
  - unfold store_last. by case_match.
  - by rewrite note_streams_ports.
  - apply wait_removed_wires. intros w Hw. apply Hwaits. apply elem_of_app. by right.
Qed.

(** ** One port *)

Lemma GetPort_wires port c p : GetPort port c = Some p -> kv_lookup port (ports_wires c) = Some (port_wires p).
Proof. intros Hp. unfold ports_wires. rewrite kv_lookup_map. unfold GetPort in Hp. by rewrite Hp. Qed.

Lemma on_port_wires {A} port (m : ST Port A) c a c' p p' : GetPort port c = Some p -> m p = Some (a, p') ->
  on_port port m c = Some (a, c') -> ports_wires c' = kv_replace port (port_wires p') (ports_wires c).
Proof. intros Hp Hm. unfold on_port. rewrite Hp, Hm. intros [= <-]. unfold ports_wires. simpl. apply (kv_replace_map port_wires). Qed.

Lemma with_port_run track (k : Port -> ST Ctx Z) c c' : with_port track (fun p => assert_ok (k p)) c = Some (NO_ERROR, c') ->
  exists p, GetPort track c = Some p /\ k p c = Some (NO_ERROR, c').
Proof.
  unfold with_port. rewrite bind_gets. change (GetPort track (id c)) with (GetPort track c). destruct (GetPort track c) as [p|]; [|done].
  intros (r & c1 & Hk & Hr)%bind_some. exists p. split; [done|]. destruct (Z.eqb_spec r NO_ERROR) as [->|]; [|done].
  by injection Hr as <-.
Qed.

(** A port is marked, the request updated, and the port is in its new state. *)
Lemma switched_wires port (f : Port -> Port) final c r c' p : GetPort port c = Some p -> consumers_ (f p) = consumers_ p ->
  (do* on_port port (modify f) in
   let* r := UpdateRequest waits true in
   if negb (r =? NO_ERROR) then ret r else do* on_port port (modify (set_state final)) in ret NO_ERROR) c = Some (r, c') ->
  r = NO_ERROR -> ports_wires c' = kv_replace port (consumers_ p, started (set_state final p)) (ports_wires c).
Proof.
  intros Hp Hf ([] & c1 & Hm & Hr)%bind_some ->.
  assert (ports_wires c1 = kv_replace port (port_wires (f p)) (ports_wires c)) as Hw1 by exact (on_port_wires port (modify f) c tt c1 p (f p) Hp eq_refl Hm).
  apply bind_some in Hr as (r1 & c2 & Hu & Hr). pose proof (UpdateRequest_wires true _ c1 Hw1) as Hw2. rewrite Hu in Hw2.
  destruct (Z.eqb_spec r1 NO_ERROR) as [->|Hne]; [|by injection Hr as ? _]. simpl in Hr.
  apply bind_some in Hr as ([] & c3 & Hm2 & [= <-]).
  assert (kv_lookup port (ports_wires c2) = Some (port_wires (f p))) as Hl2
    by (rewrite Hw2; apply (kv_lookup_replaced _ _ (port_wires p)), GetPort_wires, Hp).
  unfold ports_wires in Hl2. rewrite kv_lookup_map in Hl2. destruct (kv_lookup port (active_ports_ c2)) as [p2|] eqn:Hp2; [|done].
  injection Hl2 as Hc2 _. rewrite (on_port_wires port (modify (set_state final)) c2 tt c3 p2 _ Hp2 eq_refl Hm2), Hw2, kv_replace_replace.
  unfold port_wires. simpl. by rewrite Hc2, Hf.
Qed.

(** ** The calls *)

Lemma AddConsumer_wires id c k k' : AddConsumer id c k = Some (NO_ERROR, k') ->
  edit_stream id (join_stream c) (ports_wires k) = Some (ports_wires k').
Proof.
  intros (p & Hp & Hk)%with_port_run. unfold edit_stream, join_stream. rewrite (GetPort_wires _ _ _ Hp). simpl.
  destruct (CameraPort_AddConsumer c p) as [r p'] eqn:Ea.
  assert (r = NO_ERROR) as -> by (unfold on_port in Hk; rewrite Hp in Hk; unfold pure_step in Hk; rewrite Ea in Hk; by injection Hk).
  rewrite (on_port_wires id (pure_step (CameraPort_AddConsumer c)) k NO_ERROR k' p p' Hp (f_equal Some Ea) Hk).
  revert Ea. unfold CameraPort_AddConsumer. destruct (kv_mem c (consumers_ p)); [done|]. by intros [= <-].
Qed.

Lemma RemoveConsumer_wires id c k k' : RemoveConsumer id c k = Some (NO_ERROR, k') ->
  edit_stream id (leave_stream c) (ports_wires k) = Some (ports_wires k').
Proof.
  intros (p & Hp & Hk)%with_port_run. unfold edit_stream, leave_stream. rewrite (GetPort_wires _ _ _ Hp). simpl.
  destruct (CameraPort_RemoveConsumer c p) as [r p'] eqn:Ea.
  assert (r = NO_ERROR) as -> by (unfold on_port in Hk; rewrite Hp in Hk; unfold pure_step in Hk; rewrite Ea in Hk; by injection Hk).
  rewrite (on_port_wires id (pure_step (CameraPort_RemoveConsumer c)) k NO_ERROR k' p p' Hp (f_equal Some Ea) Hk).
  revert Ea. unfold CameraPort_RemoveConsumer. destruct (kv_mem c (consumers_ p)); [|done]. by intros [= <-].
Qed.

Lemma switch_done id on p (k k' : Ctx) : GetPort id k = Some p -> ports_wires k' = kv_replace id (consumers_ p, on) (ports_wires k) ->
  edit_stream id (switch_stream on) (ports_wires k) = Some (ports_wires k').
Proof. intros Hp ->. unfold edit_stream. by rewrite (GetPort_wires _ _ _ Hp). Qed.

Lemma StartStream_wires id k k' : StartStream waits id k = Some (NO_ERROR, k') ->
  edit_stream id (switch_stream true) (ports_wires k) = Some (ports_wires k').
Proof.
  intros (p & Hp & Hk)%with_port_run. apply (switch_done id true p k k' Hp). unfold CameraPort_Start in Hk.
  rewrite (bind_eq _ _ _ _ _ (the_port_eq id k p Hp)) in Hk. case_bool_decide as Hst.
  - injection Hk as <-. symmetry. apply kv_replace_same. rewrite (GetPort_wires _ _ _ Hp). unfold port_wires, started. by rewrite Hst.
  - by apply (switched_wires id _ PORT_STARTED k NO_ERROR k' p Hp) in Hk.
Qed.

Lemma StopStream_wires id k k' : StopStream waits id k = Some (NO_ERROR, k') ->
  edit_stream id (switch_stream false) (ports_wires k) = Some (ports_wires k').
Proof.
  intros (p & Hp & Hk)%with_port_run. apply (switch_done id false p k k' Hp). unfold CameraPort_Stop in Hk.
  rewrite (bind_eq _ _ _ _ _ (the_port_eq id k p Hp)) in Hk. case_bool_decide as Hst.
  - injection Hk as <-. symmetry. apply kv_replace_same. rewrite (GetPort_wires _ _ _ Hp). unfold port_wires, started. by rewrite Hst.
  - by apply (switched_wires id _ PORT_STOPPED k NO_ERROR k' p Hp) in Hk.
Qed.

(** While the waits keep them, the ports are the streams of the camera. *)
Definition context_wires : CameraWires M Ctx (H := context_camera waits) :=
  Build_CameraWires M Ctx (context_camera waits) ports_wires AddConsumer_wires RemoveConsumer_wires StartStream_wires StopStream_wires.
End ContextWires.
