(* ===== verification/Parcel.v ===== *)
(** * Parcels

    What client and service send each other through Android's binder: the
    marshalling of recorder/src/client/qmmf_recorder_service_intf.h
    ([BnBuffer]) and of recorder/src/client/qmmf_recorder_params_internal.h
    and common/utils/qmmf_codec_internal.h (the parameters of audio tracks and
    images).

    [Parcel] is a class of libbinder, which is not in the repository.  The
    class [ParcelOps] states what is documented of it: what was written is read
    in the order of the writing, each value by the read of its kind, and a file
    descriptor arrives as a descriptor of the same open file.  A read that does
    not meet a value of its kind gives an unspecified value. *)

From S2P Require Import Prelude KeyedVector Floats ExtraParam Track RecorderTypes.

(** The two interfaces, by their descriptors. *)
Inductive Descriptor := IRecorderService_descriptor | IRecorderServiceCallback_descriptor.

#[export] Instance Descriptor_eq : EqDecision Descriptor.
Proof. solve_decision. Defined.

(** [MetaData] of include/qmmf-sdk/qmmf_recorder_params.h; of the planes of
    the buffer only the first is used by the client. *)
Record MetaData := mkMetaData {
  meta_flag : Z; meta_format : Z; plane_width : Z; plane_height : Z; video_frame_type_info : Z; cam_meta_frame_number : Z
}.

(** What a blob holds: bytes, or an object that is copied as it lies in
    memory. *)
Inductive Object :=
| Bytes (data : list Z)
| OfBuffer (b : BnBuffer)
| OfMetaData (m : MetaData)
| OfVideoParam (p : VideoTrackCreateParam)
| OfImageParam (p : ImageParam)
| OfCodecParam (p : CodecParam)
| OfErrorData (camera_id error_code : Z).

(** The sizes of the structures on the platform. *)
Class ObjectSizes := {
  sizeof_BnBuffer : Z;
  sizeof_MetaData : Z;
  sizeof_VideoTrackCreateParam : Z;
  sizeof_ImageParam : Z;
  sizeof_CodecParam : CodecParam -> Z;
  sizeof_RecorderErrorData : Z;
  sizes_positive : 0 < sizeof_BnBuffer < UINT32_MOD /\ 0 < sizeof_MetaData < UINT32_MOD /\
    0 < sizeof_VideoTrackCreateParam < UINT32_MOD /\ 0 < sizeof_ImageParam < UINT32_MOD /\
    0 < sizeof_RecorderErrorData < UINT32_MOD
}.

Definition size_of `{ObjectSizes} (o : Object) : Z :=
  match o with
  | Bytes data => Z.of_nat (length data)
  | OfBuffer _ => sizeof_BnBuffer
  | OfMetaData _ => sizeof_MetaData
  | OfVideoParam _ => sizeof_VideoTrackCreateParam
  | OfImageParam _ => sizeof_ImageParam
  | OfCodecParam p => sizeof_CodecParam p
  | OfErrorData _ _ => sizeof_RecorderErrorData
  end.

(** A value in a parcel: camera metadata are of type [M], binder objects of
    type [B], vendor tags of type [T]. *)
Inductive Wire (M B T : Type) :=
| W32 (z : Z)
| W64 (z : Z)
| WFloat (x : float32)
| WToken (d : Descriptor)
| WBlob (o : Object)
| WFile (file : Z)
| WBinder (b : B)
| WMetadata (m : M)
| WCString (chars : list Z)
| WTags (t : T).

Arguments W32 {M B T}.
Arguments W64 {M B T}.
Arguments WFloat {M B T}.
Arguments WToken {M B T}.
Arguments WBlob {M B T}.
Arguments WFile {M B T}.
Arguments WBinder {M B T}.
Arguments WMetadata {M B T}.
Arguments WCString {M B T}.
Arguments WTags {M B T}.

Section Ops.
Context (M B T P : Type).

(** [Parcel_new] is empty; [parcel_write] appends.  [read_metadata] gives a
    status and the metadata, none where the metadata that were written had no
    buffer ([no_metadata]).  [on_wire] is what there is left to read. *)
Class ParcelOps `{ObjectSizes} := {
  Parcel_new : P;
  no_metadata : M;
  parcel_write : Wire M B T -> P -> P;
  read_32 : P -> Z * P;
  read_64 : P -> Z * P;
  read_float : P -> float32 * P;
  read_token : P -> option Descriptor * P;
  read_blob : Z -> P -> Object * P;
  read_file : P -> Z * P;
  read_binder : P -> B * P;
  read_metadata : P -> (Z * option M) * P;
  read_cstring : P -> list Z * P;
  read_tags : P -> (Z * T) * P;
  no_metadata_dec : forall m, Decision (m = no_metadata);
  on_wire : P -> list (Wire M B T);
  on_wire_new : on_wire Parcel_new = [];
  on_wire_write w p : on_wire (parcel_write w p) = on_wire p ++ [w];
  on_wire_32 z p ws : on_wire p = W32 z :: ws -> exists p', read_32 p = (z, p') /\ on_wire p' = ws;
  on_wire_64 z p ws : on_wire p = W64 z :: ws -> exists p', read_64 p = (z, p') /\ on_wire p' = ws;
  on_wire_float x p ws : on_wire p = WFloat x :: ws -> exists p', read_float p = (x, p') /\ on_wire p' = ws;
  on_wire_token d p ws : on_wire p = WToken d :: ws -> exists p', read_token p = (Some d, p') /\ on_wire p' = ws;
  on_wire_blob o p ws : on_wire p = WBlob o :: ws -> exists p', read_blob (size_of o) p = (o, p') /\ on_wire p' = ws;
  on_wire_file f p ws : on_wire p = WFile f :: ws -> exists p', read_file p = (f, p') /\ on_wire p' = ws;
  on_wire_binder b p ws : on_wire p = WBinder b :: ws -> exists p', read_binder p = (b, p') /\ on_wire p' = ws;
  on_wire_metadata m p ws : on_wire p = WMetadata m :: ws -> exists p',
    read_metadata p = ((0, if decide (m = no_metadata) then None else Some m), p') /\ on_wire p' = ws;
  on_wire_cstring s p ws : on_wire p = WCString s :: ws -> exists p', read_cstring p = (s, p') /\ on_wire p' = ws;
  on_wire_tags t p ws : on_wire p = WTags t :: ws -> exists p', read_tags p = ((0, t), p') /\ on_wire p' = ws
}.
End Ops.

Arguments no_metadata {M} B T P {_ _}.
Arguments Parcel_new {M B T P _ _}.
Arguments parcel_write {M B T P _ _}.
Arguments read_32 {M B T P _ _}.
Arguments read_64 {M B T P _ _}.
Arguments read_float {M B T P _ _}.
Arguments read_token {M B T P _ _}.
Arguments read_blob {M B T P _ _}.
Arguments read_file {M B T P _ _}.
Arguments read_binder {M B T P _ _}.
Arguments read_metadata {M B T P _ _}.
Arguments read_cstring {M B T P _ _}.
Arguments read_tags {M B T P _ _}.
Arguments on_wire {M B T P _ _}.

#[export] Existing Instance no_metadata_dec.

(** A [uint64_t] as the [int64_t] that is sent, and back. *)
Definition u64 (z : Z) : Z := z mod 2 ^ 64.
Definition i64 (z : Z) : Z := (z + 2 ^ 63) mod 2 ^ 64 - 2 ^ 63.

Lemma u64_i64 z : 0 <= z < 2 ^ 64 -> u64 (i64 z) = z.
Proof.
  intros Hz. unfold u64, i64. rewrite Zminus_mod_idemp_l. replace (z + 2 ^ 63 - 2 ^ 63) with z by lia.
  by apply Z.mod_small.
Qed.

Lemma u32_i32 z : is_u32 z -> u32 (i32 z) = z.
Proof.
  intros Hz. unfold is_u32, u32, i32, UINT32_MOD, INT32_HALF in *. rewrite Zminus_mod_idemp_l.
  rewrite Z.mod_small; lia.
Qed.

Section Parcel.
Context {M B T P : Type} `{ParcelOps M B T P}.

(** ** Writing and reading *)

Definition write (w : Wire M B T) : ST P unit := modify (parcel_write w).
Definition read {A} (f : P -> A * P) : ST P A := pure_step f.

Definition writeUint32 (z : Z) : ST P unit := write (W32 (u32 z)).
Definition readUint32 : ST P Z := let* z := read read_32 in ret (u32 z).

(** An [int32_t] takes the same 32 bits. *)
Definition writeInt32 (z : Z) : ST P unit := write (W32 (u32 z)).
Definition readInt32 : ST P Z := let* z := read read_32 in ret (i32 z).

Definition writeInt64 (z : Z) : ST P unit := write (W64 (i64 z)).
Definition readInt64 : ST P Z := read read_64.

Definition writeFloat (x : float32) : ST P unit := write (WFloat x).
Definition readFloat : ST P float32 := read read_float.

Definition writeInterfaceToken (d : Descriptor) : ST P unit := write (WToken d).
Definition enforceInterface (d : Descriptor) : ST P bool :=
  let* got := read read_token in ret (bool_decide (got = Some d)).

(** [writeBlob] and the copy into the blob; [readBlob] of a given size. *)
Definition writeBlob (o : Object) : ST P unit := write (WBlob o).
Definition readBlob (size : Z) : ST P Object := read (read_blob size).

Definition writeFile (file : Z) : ST P unit := write (WFile file).
Definition readFile : ST P Z := read read_file.

Definition writeStrongBinder (b : B) : ST P unit := write (WBinder b).
Definition readStrongBinder : ST P B := read read_binder.

Definition writeMetadata (m : M) : ST P unit := write (WMetadata m).
Definition readMetadata : ST P (Z * option M) := read read_metadata.

Definition writeCString (chars : list Z) : ST P unit := write (WCString chars).
Definition readCString : ST P (list Z) := read read_cstring.

Definition writeTags (t : T) : ST P unit := write (WTags t).
Definition readTags : ST P (Z * T) := read read_tags.

(** A size and the blob of that size. *)
Definition writeSized (o : Object) : ST P unit := do* writeUint32 (size_of o) in writeBlob o.
Definition readSized : ST P Object := let* size := readUint32 in readBlob size.

(** The parcel that a sequence of writes makes. *)
Definition written (w : ST P unit) : option P := snd <$> w Parcel_new.

(** A counted loop of reads. *)
Fixpoint read_times {A} (n : nat) (r : ST P A) : ST P (list A) :=
  match n with
  | O => ret []
  | S n => let* x := r in let* xs := read_times n r in ret (x :: xs)
  end.

(** ** What is written is read *)

Definition writes (w : ST P unit) (ws : list (Wire M B T)) : Prop :=
  forall p, exists p', w p = Some (tt, p') /\ on_wire p' = on_wire p ++ ws.

Definition reads {A} (r : ST P A) (ws : list (Wire M B T)) (a : A) : Prop :=
  forall p rest, on_wire p = ws ++ rest -> exists p', r p = Some (a, p') /\ on_wire p' = rest.

(** [r] reads what [w] writes, as [a]. *)
Definition transfers {A} (w : ST P unit) (r : ST P A) (a : A) : Prop := exists ws, writes w ws /\ reads r ws a.

Lemma transfers_write {A} (w : Wire M B T) (f : P -> A * P) a :
  (forall p ws, on_wire p = w :: ws -> exists p', f p = (a, p') /\ on_wire p' = ws) -> transfers (write w) (read f) a.
Proof.
  intros Hf. exists [w]. split.
  - intros p. exists (parcel_write w p). split; [done|apply on_wire_write].
  - intros p rest Hp. destruct (Hf p rest Hp) as (p' & Hr & Hw). exists p'. by rewrite <- Hr.
Qed.

Lemma reads_ret {A} (a : A) : reads (ret a) [] a.
Proof. intros p rest Hp. by exists p. Qed.

Lemma reads_bind {A A'} (r : ST P A) (k : A -> ST P A') ws ws' a a' :
  reads r ws a -> reads (k a) ws' a' -> reads (bind r k) (ws ++ ws') a'.
Proof.
  intros Hr Hk p rest Hp. rewrite <- app_assoc in Hp. destruct (Hr p _ Hp) as (p1 & E & H1).
  unfold bind. rewrite E. by apply Hk.
Qed.

Lemma writes_bind (w w' : ST P unit) ws ws' : writes w ws -> writes w' ws' -> writes (bind w (fun _ => w')) (ws ++ ws').
Proof.
  intros Hw Hw' p. destruct (Hw p) as (p1 & E & H1). destruct (Hw' p1) as (p2 & E' & H2).
  exists p2. unfold bind. rewrite E. split; [done|]. by rewrite H2, H1, app_assoc.
Qed.

Lemma transfers_nothing {A} (a : A) : transfers (ret tt) (ret a) a.
Proof. exists []. split; [|apply reads_ret]. intros p. exists p. split; [done|]. by rewrite app_nil_r. Qed.

Lemma transfers_bind {A A'} (w w' : ST P unit) (r : ST P A) (k : A -> ST P A') a a' :
  transfers w r a -> transfers w' (k a) a' -> transfers (bind w (fun _ => w')) (bind r k) a'.
Proof.
  intros (ws & Hw & Hr) (ws' & Hw' & Hr'). exists (ws ++ ws').
  split; [by apply writes_bind|by eapply reads_bind].
Qed.

(** The last write, and what is made of its value. *)
Lemma transfers_end {A A'} w (r : ST P A) (k : A -> ST P A') a a' :
  transfers w r a -> k a = ret a' -> transfers w (bind r k) a'.
Proof.
  intros (ws & Hw & Hr) Hk. exists ws. split; [done|]. rewrite <- (app_nil_r ws). eapply reads_bind; [done|].
  rewrite Hk. apply reads_ret.
Qed.

Lemma transfers_assoc {A} (w1 w2 w3 : ST P unit) (r : ST P A) a :
  transfers (bind w1 (fun _ => bind w2 (fun _ => w3))) r a -> transfers (bind (bind w1 (fun _ => w2)) (fun _ => w3)) r a.
Proof.
  intros (ws & Hw & Hr). exists ws. split; [|done]. intros p. destruct (Hw p) as (p' & E & Hp). exists p'. split; [|done].
  rewrite <- E. unfold bind. destruct (w1 p) as [[[] p1]|]; [|done]. done.
Qed.

Lemma transfers_unassoc {A} (w1 w2 w3 : ST P unit) (r : ST P A) a :
  transfers (bind (bind w1 (fun _ => w2)) (fun _ => w3)) r a -> transfers (bind w1 (fun _ => bind w2 (fun _ => w3))) r a.
Proof.
  intros (ws & Hw & Hr). exists ws. split; [|done]. intros p. destruct (Hw p) as (p' & E & Hp). exists p'. split; [|done].
  rewrite <- E. unfold bind. destruct (w1 p) as [[[] p1]|]; [|done]. done.
Qed.

(** A parcel with what [w] writes is read by [r]. *)
Lemma transferred {A} w (r : ST P A) a : transfers w r a -> exists p p', written w = Some p /\ r p = Some (a, p').
Proof.
  intros (ws & Hw & Hr). destruct (Hw Parcel_new) as (p & E & Hp). rewrite on_wire_new in Hp.
  destruct (Hr p []) as (p' & E' & _); [by rewrite Hp, app_nil_r|].
  exists p, p'. unfold written. by rewrite E.
Qed.

Lemma transfers_Uint32 z : transfers (writeUint32 z) readUint32 (u32 z).
Proof. eapply transfers_end; [apply transfers_write, on_wire_32|]. by rewrite u32_idem. Qed.

Lemma transfers_Int32 z : transfers (writeInt32 z) readInt32 (i32 z).
Proof. eapply transfers_end; [apply transfers_write, on_wire_32|]. by rewrite i32_u32. Qed.

(** Written unsigned and read signed, and the other way round. *)
Lemma transfers_Uint32_Int32 z : transfers (writeUint32 z) readInt32 (i32 z).
Proof. apply transfers_Int32. Qed.

Lemma transfers_Int32_Uint32 z : transfers (writeInt32 z) readUint32 (u32 z).
Proof. apply transfers_Uint32. Qed.

Lemma transfers_Int64 z : transfers (writeInt64 z) readInt64 (i64 z).
Proof. apply transfers_write, on_wire_64. Qed.

Lemma transfers_Float x : transfers (writeFloat x) readFloat x.
Proof. apply transfers_write, on_wire_float. Qed.

Lemma transfers_Token d : transfers (writeInterfaceToken d) (enforceInterface d) true.
Proof. eapply transfers_end; [apply transfers_write, on_wire_token|]. by rewrite bool_decide_true. Qed.

Lemma transfers_Blob o : transfers (writeBlob o) (readBlob (size_of o)) o.
Proof. apply transfers_write, on_wire_blob. Qed.

Lemma transfers_File f : transfers (writeFile f) readFile f.
Proof. apply transfers_write, on_wire_file. Qed.

Lemma transfers_Binder b : transfers (writeStrongBinder b) readStrongBinder b.
Proof. apply transfers_write, on_wire_binder. Qed.

Lemma transfers_Metadata m :
  transfers (writeMetadata m) readMetadata (0, if decide (m = no_metadata B T P) then None else Some m).
Proof. apply transfers_write, on_wire_metadata. Qed.

Lemma transfers_CString s : transfers (writeCString s) readCString s.
Proof. apply transfers_write, on_wire_cstring. Qed.

Lemma transfers_Tags t : transfers (writeTags t) readTags (0, t).
Proof. apply transfers_write, on_wire_tags. Qed.

Definition sized_ok (o : Object) : Prop := is_u32 (size_of o).

Lemma transfers_Sized o : sized_ok o -> transfers (writeSized o) readSized o.
Proof.
  intros Ho. eapply transfers_bind; [apply transfers_Uint32|]. rewrite u32_small; [|done]. apply transfers_Blob.
Qed.

Lemma transfers_for_each {A A'} (l : list A) (w : A -> ST P unit) (r : ST P A') (f : A -> A') :
  (forall x, x ∈ l -> transfers (w x) r (f x)) -> transfers (for_each l w) (read_times (length l) r) (map f l).
Proof.
  induction l as [|x l IH]; intros Hl; simpl; [apply transfers_nothing|].
  eapply transfers_bind; [apply Hl; by left|]. eapply transfers_end; [apply IH; intros y Hy; apply Hl; by right|done].
Qed.
End Parcel.

Create HintDb parcel discriminated.

#[export] Hint Resolve transfers_Uint32 transfers_Int32 transfers_Uint32_Int32 transfers_Int64 transfers_Float
  transfers_Token transfers_Blob transfers_File transfers_Binder transfers_Metadata transfers_CString transfers_Tags
  transfers_Sized : parcel.

(** A sequence of writes against a sequence of reads, in step. *)
Ltac transfer_step :=
  lazymatch goal with
  | |- transfers (bind (bind _ _) _) _ _ => apply transfers_assoc
  | |- transfers (bind _ _) (bind _ _) _ => eapply transfers_bind; [solve [eauto with parcel]|cbv beta]
  | |- transfers (ret tt) _ _ => apply transfers_nothing
  | |- transfers _ (bind _ _) _ => eapply transfers_end; [solve [eauto with parcel]|cbv beta]
  | |- transfers _ _ _ => solve [eauto with parcel]
  end.

Ltac transfer := repeat transfer_step.

(** ** Structures *)

(** The numbers of a buffer are within the types of its fields. *)
Record buffer_ok (b : BnBuffer) : Prop := {
  ok_fd : is_i32 (ion_fd b);
  ok_meta_fd : is_i32 (ion_meta_fd b);
  ok_size : is_u32 (bn_size b);
  ok_timestamp : 0 <= bn_timestamp b < 2 ^ 64;
  ok_width : is_u32 (bn_width b);
  ok_height : is_u32 (bn_height b);
  ok_id : is_u32 (buffer_id b);
  ok_flag : is_u32 (bn_flag b);
  ok_capacity : is_u32 (capacity b)
}.

(** The parameters of the audio codecs.  A union: the format says which. *)
Inductive AudioCodecParams :=
| PCMParams
| AACParams (format mode frame_length bit_rate : Z)
| AMRParams (isWAMR : bool) (bit_rate : Z)
| G711Params (mode bit_rate : Z)
| MPEGHParams (bit_rate : Z)
| MP3Params.

Definition format_of (c : AudioCodecParams) : AudioFormat :=
  match c with
  | PCMParams => Audio.kPCM
  | AACParams _ _ _ _ => Audio.kAAC
  | AMRParams _ _ => Audio.kAMR
  | G711Params _ _ => Audio.kG711
  | MPEGHParams _ => Audio.kMPEGH
  | MP3Params => Audio.kMP3
  end.

Definition audio_format_code (f : AudioFormat) : Z :=
  match f with
  | Audio.kPCM => 0 | Audio.kAAC => 1 | Audio.kAMR => 2 | Audio.kG711 => 3 | Audio.kMP3 => 4 | Audio.kMPEGH => 5
  end.

Definition audio_format_of_code (z : Z) : option AudioFormat :=
  match z with
  | 0 => Some Audio.kPCM | 1 => Some Audio.kAAC | 2 => Some Audio.kAMR
  | 3 => Some Audio.kG711 | 4 => Some Audio.kMP3 | 5 => Some Audio.kMPEGH | _ => None
  end.

(** [AudioTrackCreateParam] as the client gives it: the devices in use, and
    the characters of [profile] before the terminating null. *)
Record AudioTrackParam := mkAudioTrack {
  in_devices : list Z; a_sample_rate : Z; a_channels : Z; a_bit_depth : Z; a_profile : list Z;
  codec_params : AudioCodecParams; out_device : Z; a_flags : Z
}.

Definition MAX_AUDIO_INPUT_DEVICES : Z := 10.
Definition MAX_AUDIO_PROFILE : Z := 80.

(** What [RecorderImpl] looks at. *)
Definition audio_create_param (a : AudioTrackParam) : AudioTrackCreateParam :=
  mkAudioParam (a_sample_rate a) (a_channels a) (format_of (codec_params a))
    (match codec_params a with MPEGHParams b => b | _ => 0 end).

Definition codec_ok (c : AudioCodecParams) : Prop :=
  match c with
  | PCMParams | MP3Params => True
  | AACParams f m l b => is_i32 f /\ is_i32 m /\ is_i32 l /\ is_i32 b
  | AMRParams _ b => is_i32 b
  | G711Params m b => is_i32 m /\ is_i32 b
  | MPEGHParams b => is_i32 b
  end.

Record audio_ok (a : AudioTrackParam) : Prop := {
  ok_devices : Z.of_nat (length (in_devices a)) <= MAX_AUDIO_INPUT_DEVICES /\ Forall is_i32 (in_devices a);
  ok_sample_rate : is_u32 (a_sample_rate a);
  ok_channels : is_u32 (a_channels a);
  ok_bit_depth : is_u32 (a_bit_depth a);
  ok_profile : Z.of_nat (length (a_profile a)) < MAX_AUDIO_PROFILE;
  ok_codec : codec_ok (codec_params a);
  ok_out_device : is_i32 (out_device a);
  ok_flags : is_u32 (a_flags a)
}.

Section Structures.
Context {M B T P : Type} `{ParcelOps M B T P}.

(** [file_of] gives the open file behind a descriptor of the process that
    writes. *)
Definition BnBuffer_ToParcel (file_of : Z -> Z) (writeFileDescriptor : bool) (b : BnBuffer) : ST P unit :=
  do* (if writeFileDescriptor then
         if ion_meta_fd b =? -1 then do* writeUint32 1 in writeFile (file_of (ion_fd b))
         else
           do* writeUint32 2 in
           do* writeFile (file_of (ion_fd b)) in
           writeFile (file_of (ion_meta_fd b))
       else
         do* writeUint32 (ion_fd b) in
         writeUint32 (ion_meta_fd b)) in
  do* writeUint32 (bn_size b) in
  do* writeInt64 (bn_timestamp b) in
  do* writeUint32 (bn_width b) in
  do* writeUint32 (bn_height b) in
  do* writeUint32 (buffer_id b) in
  do* writeUint32 (bn_flag b) in
  writeUint32 (capacity b).

(** The fields behind the descriptors. *)
Definition BnBuffer_rest (fd meta_fd : Z) : ST P BnBuffer :=
  let* size := readUint32 in
  let* timestamp := readInt64 in
  let* width := readUint32 in
  let* height := readUint32 in
  let* id := readUint32 in
  let* flag := readUint32 in
  let* cap := readUint32 in
  ret (mkBnBuffer fd meta_fd size (u64 timestamp) width height id flag cap).

(** [FromParcel] with [readFileDescriptor] false. *)
Definition BnBuffer_FromParcel : ST P BnBuffer :=
  let* fd := readUint32 in
  let* meta_fd := readUint32 in
  BnBuffer_rest (i32 fd) (i32 meta_fd).

(** [FromParcel] with [readFileDescriptor] true: the open files that arrive,
    of which the reader makes descriptors, and the other fields. *)
Definition BnBuffer_FromParcel_files : ST P (Z * option Z * BnBuffer) :=
  let* num_fds := readUint32 in
  let* files := (if num_fds =? 1 then let* f := readFile in ret (f, None)
                 else let* f := readFile in let* g := readFile in ret (f, Some g)) in
  let* b := BnBuffer_rest (-1) (-1) in
  ret (files, b).

Lemma transfers_BnBuffer_rest b fd meta_fd : buffer_ok b -> transfers
  (do* writeUint32 (bn_size b) in
   do* writeInt64 (bn_timestamp b) in
   do* writeUint32 (bn_width b) in
   do* writeUint32 (bn_height b) in
   do* writeUint32 (buffer_id b) in
   do* writeUint32 (bn_flag b) in
   writeUint32 (capacity b)) (BnBuffer_rest fd meta_fd)
  (mkBnBuffer fd meta_fd (bn_size b) (bn_timestamp b) (bn_width b) (bn_height b) (buffer_id b) (bn_flag b) (capacity b)).
Proof.
  intros [? ? ? ? ? ? ? ? ?]. unfold BnBuffer_rest. transfer.
  rewrite !u32_small, u64_i64 by done. done.
Qed.

(** A buffer that the client returns arrives as it is. *)
Lemma transfers_BnBuffer file_of b : buffer_ok b -> transfers (BnBuffer_ToParcel file_of false b) BnBuffer_FromParcel b.
Proof.
  intros Hb. unfold BnBuffer_ToParcel, BnBuffer_FromParcel. apply transfers_assoc.
  do 2 (eapply transfers_bind; [apply transfers_Uint32|cbv beta]). rewrite !i32_u32, !i32_small by apply Hb.
  pose proof (transfers_BnBuffer_rest b (ion_fd b) (ion_meta_fd b) Hb) as Hr. by destruct b.
Qed.

(** A buffer that is sent with its descriptors arrives with the open files
    behind them. *)
Lemma transfers_BnBuffer_files file_of b : buffer_ok b ->
  transfers (BnBuffer_ToParcel file_of true b) BnBuffer_FromParcel_files
    (file_of (ion_fd b), if ion_meta_fd b =? -1 then None else Some (file_of (ion_meta_fd b)),
     mkBnBuffer (-1) (-1) (bn_size b) (bn_timestamp b) (bn_width b) (bn_height b) (buffer_id b) (bn_flag b) (capacity b)).
Proof.
  intros Hb. unfold BnBuffer_ToParcel, BnBuffer_FromParcel_files. destruct (ion_meta_fd b =? -1).
  - transfer_step. transfer_step. eapply transfers_bind; [eapply transfers_end; [apply transfers_File|done]|]. cbv beta.
    eapply transfers_end; [by apply transfers_BnBuffer_rest|done].
  - transfer_step. transfer_step.
    eapply transfers_bind; [eapply transfers_bind; [apply transfers_File|eapply transfers_end; [apply transfers_File|done]]|].
    cbv beta. eapply transfers_end; [by apply transfers_BnBuffer_rest|done].
Qed.

(** [ToParcel] of the parameters of the codecs, and [FromParcel]. *)
Definition AudioCodec_ToParcel (c : AudioCodecParams) : ST P unit :=
  match c with
  | PCMParams => ret tt
  | AACParams format mode frame_length bit_rate =>
      do* writeInt32 format in do* writeInt32 mode in do* writeInt32 frame_length in writeInt32 bit_rate
  | AMRParams isWAMR bit_rate => do* writeInt32 (if isWAMR then 1 else 0) in writeInt32 bit_rate
  | G711Params mode bit_rate => do* writeInt32 mode in writeInt32 bit_rate
  | MPEGHParams bit_rate => writeInt32 bit_rate
  | MP3Params => ret tt
  end.

Definition AudioCodec_FromParcel (f : AudioFormat) : ST P AudioCodecParams :=
  match f with
  | Audio.kPCM => ret PCMParams
  | Audio.kAAC =>
      let* format := readInt32 in
      let* mode := readInt32 in
      let* frame_length := readInt32 in
      let* bit_rate := readInt32 in
      ret (AACParams format mode frame_length bit_rate)
  | Audio.kAMR =>
      let* wide := readInt32 in
      let* bit_rate := readInt32 in
      ret (AMRParams (negb (wide =? 0)) bit_rate)
  | Audio.kG711 =>
      let* mode := readInt32 in
      let* bit_rate := readInt32 in
      ret (G711Params mode bit_rate)
  | Audio.kMPEGH => let* bit_rate := readInt32 in ret (MPEGHParams bit_rate)
  | Audio.kMP3 => ret MP3Params
  end.

(** Reading [in_devices] beyond its end, and [profile] without a null, is
    undefined. *)
Definition AudioTrack_ToParcel (a : AudioTrackParam) : ST P unit :=
  if (MAX_AUDIO_INPUT_DEVICES <? Z.of_nat (length (in_devices a))) || (MAX_AUDIO_PROFILE <=? Z.of_nat (length (a_profile a)))
  then undefined
  else
    do* writeUint32 (Z.of_nat (length (in_devices a))) in
    do* for_each (in_devices a) writeInt32 in
    do* writeUint32 (a_sample_rate a) in
    do* writeUint32 (a_channels a) in
    do* writeUint32 (a_bit_depth a) in
    do* writeCString (a_profile a) in
    do* writeInt32 (audio_format_code (format_of (codec_params a))) in
    do* AudioCodec_ToParcel (codec_params a) in
    do* writeInt32 (out_device a) in
    writeUint32 (a_flags a).

(** A format that is not of the enumeration leaves the union as it is. *)
Definition AudioTrack_FromParcel : ST P AudioTrackParam :=
  let* n := readUint32 in
  let* devices := read_times (Z.to_nat (Z.min n MAX_AUDIO_INPUT_DEVICES)) readInt32 in
  let* sample_rate := readUint32 in
  let* channels := readUint32 in
  let* bit_depth := readUint32 in
  let* profile := readCString in
  let* format := readInt32 in
  let* codec := (match audio_format_of_code format with Some f => AudioCodec_FromParcel f | None => ret PCMParams end) in
  let* out := readInt32 in
  let* flags := readUint32 in
  ret (mkAudioTrack devices sample_rate channels bit_depth (take (Z.to_nat MAX_AUDIO_PROFILE) profile) codec out flags).

Lemma transfers_AudioCodec c : codec_ok c -> transfers (AudioCodec_ToParcel c) (AudioCodec_FromParcel (format_of c)) c.
Proof.
  destruct c as [|f m l b|[] b|m b|b|]; simpl; intros Hc; split_hyps; transfer; try done.
  all: change (i32 1) with 1; change (i32 0) with 0; by rewrite !i32_small.
Qed.

Lemma map_i32 l : Forall is_i32 l -> map i32 l = l.
Proof. induction 1 as [|x l Hx Hl IH]; simpl; [done|]. by rewrite IH, i32_small. Qed.

(** An audio track is created with the parameters that the client gave. *)
Lemma transfers_AudioTrack a : audio_ok a -> transfers (AudioTrack_ToParcel a) AudioTrack_FromParcel a.
Proof.
  intros [[Hn Hd] ? ? ? Hp Hc ? ?]. unfold AudioTrack_ToParcel, AudioTrack_FromParcel.
  unfold MAX_AUDIO_INPUT_DEVICES, MAX_AUDIO_PROFILE in *.
  destruct (Z.ltb_spec 10 (Z.of_nat (length (in_devices a)))); [lia|].
  destruct (Z.leb_spec 80 (Z.of_nat (length (a_profile a)))); [lia|]. cbn [orb].
  eapply transfers_bind; [apply transfers_Uint32|]. cbv beta.
  rewrite u32_small, Z.min_l, Nat2Z.id by (unfold is_u32, UINT32_MOD; lia).
  eapply transfers_bind; [apply (transfers_for_each _ _ _ i32); intros; apply transfers_Int32|]. cbv beta.
  rewrite (map_i32 _ Hd). do 5 transfer_step.
  assert (audio_format_of_code (i32 (audio_format_code (format_of (codec_params a)))) = Some (format_of (codec_params a))) as ->
    by by destruct (codec_params a).
  eapply transfers_bind; [by apply transfers_AudioCodec|]. cbv beta. transfer.
  rewrite take_ge by lia. rewrite !u32_small, i32_small by done. by destruct a.
Qed.
End Structures.

#[export] Hint Resolve transfers_BnBuffer transfers_AudioTrack : parcel.
