(* ===== verification/Binder.v ===== *)
(** * Calls of the service by its clients

    [IRecorderService] of recorder/src/client/qmmf_recorder_service_intf.h as
    a class; the proxy [BpRecorderService] of
    recorder/src/client/qmmf_recorder_client.cc, which puts each call into a
    parcel, and [RecorderService::onTransact] of
    recorder/src/service/qmmf_recorder_service.cc, which takes it out again.
    The proxy over a service is an instance of the class like the service
    itself; [remote_call_is_local] says that it does what the service does.

    [transact] of libbinder is the call of [onTransact] in the process of the
    service.  A call with FLAG_ONEWAY does not wait for its end; here it is
    over when the caller goes on. *)

From S2P Require Import Prelude KeyedVector Floats ExtraParam Track RecorderTypes Parcel.

(** [QMMF_RECORDER_SERVICE_CMDS]. *)
Inductive ServiceCmd :=
| RECORDER_CONNECT | RECORDER_DISCONNECT | RECORDER_START_CAMERA | RECORDER_STOP_CAMERA | RECORDER_CREATE_SESSION
| RECORDER_DELETE_SESSION | RECORDER_START_SESSION | RECORDER_STOP_SESSION | RECORDER_PAUSE_SESSION
| RECORDER_RESUME_SESSION | RECORDER_GET_NUMBER_OF_CAMERAS | RECORDER_CREATE_AUDIOTRACK | RECORDER_CREATE_VIDEOTRACK
| RECORDER_CREATE_VIDEOTRACK_EXTRAPARAMS | RECORDER_DELETE_AUDIOTRACK | RECORDER_DELETE_VIDEOTRACK
| RECORDER_RETURN_TRACKBUFFER | RECORDER_SET_AUDIOTRACK_PARAMS | RECORDER_SET_VIDEOTRACK_PARAMS | RECORDER_CAPTURE_IMAGE
| RECORDER_CONFIG_IMAGECAPTURE | RECORDER_CANCEL_IMAGECAPTURE | RECORDER_RETURN_IMAGECAPTURE_BUFFER
| RECORDER_SET_CAMERA_PARAMS | RECORDER_GET_CAMERA_PARAMS | RECORDER_GET_DEFAULT_CAPTURE_PARAMS
| RECORDER_GET_CAMERA_CHARACTERISTICS | RECORDER_GET_VENDOR_TAG_DESCRIPTOR.

#[export] Instance ServiceCmd_eq : EqDecision ServiceCmd.
Proof. solve_decision. Defined.

Definition service_cmds : list ServiceCmd :=
  [RECORDER_CONNECT; RECORDER_DISCONNECT; RECORDER_START_CAMERA; RECORDER_STOP_CAMERA; RECORDER_CREATE_SESSION;
   RECORDER_DELETE_SESSION; RECORDER_START_SESSION; RECORDER_STOP_SESSION; RECORDER_PAUSE_SESSION;
   RECORDER_RESUME_SESSION; RECORDER_GET_NUMBER_OF_CAMERAS; RECORDER_CREATE_AUDIOTRACK; RECORDER_CREATE_VIDEOTRACK;
   RECORDER_CREATE_VIDEOTRACK_EXTRAPARAMS; RECORDER_DELETE_AUDIOTRACK; RECORDER_DELETE_VIDEOTRACK;
   RECORDER_RETURN_TRACKBUFFER; RECORDER_SET_AUDIOTRACK_PARAMS; RECORDER_SET_VIDEOTRACK_PARAMS; RECORDER_CAPTURE_IMAGE;
   RECORDER_CONFIG_IMAGECAPTURE; RECORDER_CANCEL_IMAGECAPTURE; RECORDER_RETURN_IMAGECAPTURE_BUFFER;
   RECORDER_SET_CAMERA_PARAMS; RECORDER_GET_CAMERA_PARAMS; RECORDER_GET_DEFAULT_CAPTURE_PARAMS;
   RECORDER_GET_CAMERA_CHARACTERISTICS; RECORDER_GET_VENDOR_TAG_DESCRIPTOR].

Definition FIRST_CALL_TRANSACTION : Z := 1.

Definition PERMISSION_DENIED : Z := - EPERM.

Definition cmd_of_code (code : Z) : option ServiceCmd :=
  if code <? FIRST_CALL_TRANSACTION then None else nth_error service_cmds (Z.to_nat (code - FIRST_CALL_TRANSACTION)).

(** The number of a command: its place in the enumeration. *)
Definition cmd_code (c : ServiceCmd) : Z :=
  FIRST_CALL_TRANSACTION + Z.of_nat (default O (fst <$> list_find (c =.) service_cmds)).

Lemma cmd_of_cmd_code c : cmd_of_code (cmd_code c) = Some c.
Proof. by destruct c. Qed.

Section Interface.
Context (M B T : Type).

(** [status_t] and, where the method has one, the value that it leaves behind
    its pointer; [None] where it does not write there. *)
Class IRecorderService (S : Type) := {
  rs_Connect : B -> ST S (Z * option Z);
  rs_Disconnect : Z -> ST S Z;
  rs_StartCamera : Z -> Z -> float32 -> ExtraParam -> bool -> ST S Z;
  rs_StopCamera : Z -> Z -> ST S Z;
  rs_CreateSession : Z -> ST S (Z * option Z);
  rs_DeleteSession : Z -> Z -> ST S Z;
  rs_StartSession : Z -> Z -> ST S Z;
  rs_StopSession : Z -> Z -> bool -> ST S Z;
  rs_PauseSession : Z -> Z -> ST S Z;
  rs_ResumeSession : Z -> Z -> ST S Z;
  rs_CreateAudioTrack : Z -> Z -> Z -> AudioTrackParam -> ST S Z;
  rs_CreateVideoTrack : Z -> Z -> Z -> VideoTrackCreateParam -> ST S Z;
  rs_CreateVideoTrackExtra : Z -> Z -> Z -> VideoTrackCreateParam -> ExtraParam -> ST S Z;
  rs_DeleteAudioTrack : Z -> Z -> Z -> ST S Z;
  rs_DeleteVideoTrack : Z -> Z -> Z -> ST S Z;
  rs_ReturnTrackBuffer : Z -> Z -> Z -> list BnBuffer -> ST S Z;
  rs_SetAudioTrackParam : Z -> Z -> Z -> Z -> Object -> ST S Z;
  rs_SetVideoTrackParam : Z -> Z -> Z -> Z -> Object -> ST S Z;
  rs_CaptureImage : Z -> Z -> Z -> list M -> ST S Z;
  rs_ConfigImageCapture : Z -> Z -> ImageParam -> ExtraParam -> ST S Z;
  rs_CancelCaptureImage : Z -> Z -> ST S Z;
  rs_ReturnImageCaptureBuffer : Z -> Z -> Z -> ST S Z;
  rs_SetCameraParam : Z -> Z -> M -> ST S Z;
  rs_GetCameraParam : Z -> Z -> M -> ST S (Z * M);
  rs_GetDefaultCaptureParam : Z -> Z -> M -> ST S (Z * M);
  rs_GetCameraCharacteristics : Z -> Z -> M -> ST S (Z * M);
  rs_GetVendorTagDescriptor : ST S (Z * option T)
}.
End Interface.

Arguments rs_Connect {M B T S _}.
Arguments rs_Disconnect {M B T S _}.
Arguments rs_StartCamera {M B T S _}.
Arguments rs_StopCamera {M B T S _}.
Arguments rs_CreateSession {M B T S _}.
Arguments rs_DeleteSession {M B T S _}.
Arguments rs_StartSession {M B T S _}.
Arguments rs_StopSession {M B T S _}.
Arguments rs_PauseSession {M B T S _}.
Arguments rs_ResumeSession {M B T S _}.
Arguments rs_CreateAudioTrack {M B T S _}.
Arguments rs_CreateVideoTrack {M B T S _}.
Arguments rs_CreateVideoTrackExtra {M B T S _}.
Arguments rs_DeleteAudioTrack {M B T S _}.
Arguments rs_DeleteVideoTrack {M B T S _}.
Arguments rs_ReturnTrackBuffer {M B T S _}.
Arguments rs_SetAudioTrackParam {M B T S _}.
Arguments rs_SetVideoTrackParam {M B T S _}.
Arguments rs_CaptureImage {M B T S _}.
Arguments rs_ConfigImageCapture {M B T S _}.
Arguments rs_CancelCaptureImage {M B T S _}.
Arguments rs_ReturnImageCaptureBuffer {M B T S _}.
Arguments rs_SetCameraParam {M B T S _}.
Arguments rs_GetCameraParam {M B T S _}.
Arguments rs_GetDefaultCaptureParam {M B T S _}.
Arguments rs_GetCameraCharacteristics {M B T S _}.
Arguments rs_GetVendorTagDescriptor {M B T S _}.

(** A container built from the bytes of another one. *)
Definition rebuilt (data : list Z) : option ExtraParam := snd <$> Acquire data ExtraParam_new.

(** A call, and what the caller gets. *)
Inductive Request (M B : Type) :=
| RqConnect (service_cb : B)
| RqDisconnect (client : Z)
| RqStartCamera (client camera_id : Z) (frame_rate : float32) (extra : ExtraParam) (enable_result_cb : bool)
| RqStopCamera (client camera_id : Z)
| RqCreateSession (client : Z)
| RqDeleteSession (client session : Z)
| RqStartSession (client session : Z)
| RqStopSession (client session : Z) (do_flush : bool)
| RqPauseSession (client session : Z)
| RqResumeSession (client session : Z)
| RqCreateAudioTrack (client session track : Z) (param : AudioTrackParam)
| RqCreateVideoTrack (client session track : Z) (params : VideoTrackCreateParam)
| RqCreateVideoTrackExtra (client session track : Z) (params : VideoTrackCreateParam) (extra : ExtraParam)
| RqDeleteAudioTrack (client session track : Z)
| RqDeleteVideoTrack (client session track : Z)
| RqReturnTrackBuffer (client session track : Z) (buffers : list BnBuffer)
| RqSetAudioTrackParam (client session track type : Z) (param : Object)
| RqSetVideoTrackParam (client session track type : Z) (param : Object)
| RqCaptureImage (client camera_id num_images : Z) (meta : list M)
| RqConfigImageCapture (client camera_id : Z) (param : ImageParam) (config : ExtraParam)
| RqCancelCaptureImage (client camera_id : Z)
| RqReturnImageCaptureBuffer (client camera_id buffer : Z)
| RqSetCameraParam (client camera_id : Z) (meta : M)
| RqGetCameraParam (client camera_id : Z) (meta : M)
| RqGetDefaultCaptureParam (client camera_id : Z) (meta : M)
| RqGetCameraCharacteristics (client camera_id : Z) (meta : M)
| RqGetVendorTagDescriptor.

Arguments RqConnect {M B}.
Arguments RqDisconnect {M B}.
Arguments RqStartCamera {M B}.
Arguments RqStopCamera {M B}.
Arguments RqCreateSession {M B}.
Arguments RqDeleteSession {M B}.
Arguments RqStartSession {M B}.
Arguments RqStopSession {M B}.
Arguments RqPauseSession {M B}.
Arguments RqResumeSession {M B}.
Arguments RqCreateAudioTrack {M B}.
Arguments RqCreateVideoTrack {M B}.
Arguments RqCreateVideoTrackExtra {M B}.
Arguments RqDeleteAudioTrack {M B}.
Arguments RqDeleteVideoTrack {M B}.
Arguments RqReturnTrackBuffer {M B}.
Arguments RqSetAudioTrackParam {M B}.
Arguments RqSetVideoTrackParam {M B}.
Arguments RqCaptureImage {M B}.
Arguments RqConfigImageCapture {M B}.
Arguments RqCancelCaptureImage {M B}.
Arguments RqReturnImageCaptureBuffer {M B}.
Arguments RqSetCameraParam {M B}.
Arguments RqGetCameraParam {M B}.
Arguments RqGetDefaultCaptureParam {M B}.
Arguments RqGetCameraCharacteristics {M B}.
Arguments RqGetVendorTagDescriptor {M B}.

Inductive Answer (M T : Type) :=
| Status (r : Z)
| StatusId (r : Z) (id : option Z)
| StatusMeta (r : Z) (m : M)
| StatusTags (r : Z) (t : option T).

Arguments Status {M T}.
Arguments StatusId {M T}.
Arguments StatusMeta {M T}.
Arguments StatusTags {M T}.

Section Invoke.
Context {M B T S : Type} (I : IRecorderService M B T S).

Definition status (m : ST S Z) : ST S (Answer M T) := let* r := m in ret (Status r).
Definition status_id (m : ST S (Z * option Z)) : ST S (Answer M T) := let* x := m in ret (StatusId (fst x) (snd x)).
Definition status_meta (m : ST S (Z * M)) : ST S (Answer M T) := let* x := m in ret (StatusMeta (fst x) (snd x)).

Definition invoke (rq : Request M B) : ST S (Answer M T) :=
  match rq with
  | RqConnect b => status_id (rs_Connect b)
  | RqDisconnect c => status (rs_Disconnect c)
  | RqStartCamera c cam fps x e => status (rs_StartCamera c cam fps x e)
  | RqStopCamera c cam => status (rs_StopCamera c cam)
  | RqCreateSession c => status_id (rs_CreateSession c)
  | RqDeleteSession c n => status (rs_DeleteSession c n)
  | RqStartSession c n => status (rs_StartSession c n)
  | RqStopSession c n f => status (rs_StopSession c n f)
  | RqPauseSession c n => status (rs_PauseSession c n)
  | RqResumeSession c n => status (rs_ResumeSession c n)
  | RqCreateAudioTrack c n t p => status (rs_CreateAudioTrack c n t p)
  | RqCreateVideoTrack c n t p => status (rs_CreateVideoTrack c n t p)
  | RqCreateVideoTrackExtra c n t p x => status (rs_CreateVideoTrackExtra c n t p x)
  | RqDeleteAudioTrack c n t => status (rs_DeleteAudioTrack c n t)
  | RqDeleteVideoTrack c n t => status (rs_DeleteVideoTrack c n t)
  | RqReturnTrackBuffer c n t bs => status (rs_ReturnTrackBuffer c n t bs)
  | RqSetAudioTrackParam c n t type p => status (rs_SetAudioTrackParam c n t type p)
  | RqSetVideoTrackParam c n t type p => status (rs_SetVideoTrackParam c n t type p)
  | RqCaptureImage c cam k ms => status (rs_CaptureImage c cam k ms)
  | RqConfigImageCapture c cam p x => status (rs_ConfigImageCapture c cam p x)
  | RqCancelCaptureImage c cam => status (rs_CancelCaptureImage c cam)
  | RqReturnImageCaptureBuffer c cam b => status (rs_ReturnImageCaptureBuffer c cam b)
  | RqSetCameraParam c cam m => status (rs_SetCameraParam c cam m)
  | RqGetCameraParam c cam m => status_meta (rs_GetCameraParam c cam m)
  | RqGetDefaultCaptureParam c cam m => status_meta (rs_GetDefaultCaptureParam c cam m)
  | RqGetCameraCharacteristics c cam m => status_meta (rs_GetCameraCharacteristics c cam m)
  | RqGetVendorTagDescriptor => let* x := rs_GetVendorTagDescriptor in ret (StatusTags (fst x) (snd x))
  end.
End Invoke.

(** A boolean as a number. *)
Definition as_int (b : bool) : Z := if b then 1 else 0.

Section Binder.
Context {M B T P : Type} `{ParcelOps M B T P} {S : Type} `{IRecorderService M B T S}.

(** What a variable holds that nothing has been assigned to. *)
Context (garbage : Z).

(** ** The side of the service *)

(** A case of [onTransact]: arguments are read, the method is called, its
    results are written; [status] is returned. *)
Definition serve {A R} (r : ST P A) (method : A -> ST S R) (w : R -> ST P unit) (status : R -> Z) (data : P) : ST S (P * Z) :=
  match r data with
  | None => undefined
  | Some (args, _) =>
      let* x := method args in
      match written (w x) with None => undefined | Some reply => ret (reply, status x) end
  end.

Definition no_error {R} (x : R) : Z := NO_ERROR.

Definition replies (r : Z) : ST P unit := writeInt32 r.

Definition two_ids : ST P (Z * Z) := let* a := readUint32 in let* b := readUint32 in ret (a, b).
Definition three_ids : ST P (Z * Z * Z) :=
  let* a := readUint32 in let* b := readUint32 in let* c := readUint32 in ret (a, b, c).

(** An object of a blob whose size is asserted to be that of a type. *)
Definition object {A} (size : Z) (get : Object -> option A) : ST P A :=
  let* n := readUint32 in
  let* o := readBlob n in
  match get o with Some a => if n =? size then ret a else undefined | None => undefined end.

Definition the_buffer (o : Object) : option BnBuffer := match o with OfBuffer b => Some b | _ => None end.
Definition the_video (o : Object) : option VideoTrackCreateParam := match o with OfVideoParam p => Some p | _ => None end.
Definition the_image (o : Object) : option ImageParam := match o with OfImageParam p => Some p | _ => None end.

(** An [ExtraParam] of the bytes of a blob. *)
Definition read_extra : ST P ExtraParam :=
  let* o := readSized in
  match o with
  | Bytes data => match rebuilt data with Some x => ret x | None => undefined end
  | _ => undefined
  end.

(** The metadata of a capture: the first that cannot be read ends it, with
    the status that is replied. *)
Fixpoint read_metas (n : nat) : ST P (Z + list M) :=
  match n with
  | O => ret (inr [])
  | Datatypes.S n =>
      let* got := readMetadata in
      match got with
      | (0, Some m) => let* rest := read_metas n in ret (match rest with inl e => inl e | inr ms => inr (m :: ms) end)
      | (e, _) => ret (inl e)
      end
  end.

Definition out_id (x : Z * option Z) : ST P unit :=
  do* writeUint32 (default garbage (snd x)) in writeInt32 (fst x).

Definition out_meta (x : Z * M) : ST P unit :=
  do* writeInt32 (fst x) in if i32 (fst x) =? NO_ERROR then writeMetadata (snd x) else ret tt.

Definition read_buffers (track : Z) : ST P (list BnBuffer) :=
  if track <? 100 then
    let* n := readUint32 in read_times (Z.to_nat n) (object sizeof_BnBuffer the_buffer)
  else
    let* n := readInt32 in read_times (Z.to_nat n) BnBuffer_FromParcel.

Definition on_connect : P -> ST S (P * Z) := serve readStrongBinder rs_Connect out_id no_error.

Definition on_disconnect : P -> ST S (P * Z) := serve readUint32 rs_Disconnect replies no_error.

Definition on_start_camera : P -> ST S (P * Z) :=
  serve (let* client := readUint32 in
         let* camera_id := readUint32 in
         let* frame_rate := readFloat in
         let* enable_flag := readUint32 in
         let* extra := read_extra in
         ret (client, camera_id, frame_rate, enable_flag =? 1, extra))
    (fun '(client, camera_id, frame_rate, enable_result_cb, extra) =>
       rs_StartCamera client camera_id frame_rate extra enable_result_cb) replies no_error.

Definition on_stop_camera : P -> ST S (P * Z) :=
  serve two_ids (fun '(client, camera_id) => rs_StopCamera client camera_id) replies no_error.

Definition on_create_session : P -> ST S (P * Z) := serve readUint32 rs_CreateSession out_id no_error.

Definition on_delete_session : P -> ST S (P * Z) :=
  serve two_ids (fun '(client, session) => rs_DeleteSession client session) replies no_error.

Definition on_start_session : P -> ST S (P * Z) :=
  serve two_ids (fun '(client, session) => rs_StartSession client session) replies no_error.

Definition on_stop_session : P -> ST S (P * Z) :=
  serve (let* client := readUint32 in let* session := readUint32 in let* flush := readInt32 in ret (client, session, flush))
    (fun '(client, session, flush) => rs_StopSession client session (negb (flush =? 0))) replies no_error.

Definition on_pause_session : P -> ST S (P * Z) :=
  serve two_ids (fun '(client, session) => rs_PauseSession client session) replies no_error.

Definition on_resume_session : P -> ST S (P * Z) :=
  serve two_ids (fun '(client, session) => rs_ResumeSession client session) replies no_error.

Definition on_create_audiotrack : P -> ST S (P * Z) :=
  serve (let* ids := three_ids in let* params := AudioTrack_FromParcel in ret (ids, params))
    (fun '(client, session, track, params) => rs_CreateAudioTrack client session track params) replies no_error.

Definition on_create_videotrack : P -> ST S (P * Z) :=
  serve (let* ids := three_ids in let* params := object sizeof_VideoTrackCreateParam the_video in ret (ids, params))
    (fun '(client, session, track, params) => rs_CreateVideoTrack client session track params) replies no_error.

Definition on_create_videotrack_extraparams : P -> ST S (P * Z) :=
  serve (let* ids := three_ids in
         let* params := object sizeof_VideoTrackCreateParam the_video in
         let* extra := read_extra in
         ret (ids, params, extra))
    (fun '(client, session, track, params, extra) => rs_CreateVideoTrackExtra client session track params extra)
    replies no_error.

Definition on_delete_audiotrack : P -> ST S (P * Z) :=
  serve three_ids (fun '(client, session, track) => rs_DeleteAudioTrack client session track) replies no_error.

Definition on_delete_videotrack : P -> ST S (P * Z) :=
  serve three_ids (fun '(client, session, track) => rs_DeleteVideoTrack client session track) replies no_error.

Definition on_return_trackbuffer : P -> ST S (P * Z) :=
  serve (let* client := readUint32 in
         let* session := readUint32 in
         let* track := readUint32 in
         let* buffers := read_buffers track in
         ret (client, session, track, buffers))
    (fun '(client, session, track, buffers) => rs_ReturnTrackBuffer client session track buffers) replies no_error.

Definition on_set_audiotrack_params : P -> ST S (P * Z) :=
  serve (let* ids := three_ids in let* type := readUint32 in let* param := readSized in ret (ids, type, param))
    (fun '(client, session, track, type, param) => rs_SetAudioTrackParam client session track type param) replies no_error.

Definition on_set_videotrack_params : P -> ST S (P * Z) :=
  serve (let* ids := three_ids in let* type := readUint32 in let* param := readSized in ret (ids, type, param))
    (fun '(client, session, track, type, param) => rs_SetVideoTrackParam client session track type param) replies no_error.

Definition on_capture_image : P -> ST S (P * Z) :=
  serve (let* ids := three_ids in
         let* meta_size := readUint32 in
         let* meta := read_metas (Z.to_nat meta_size) in
         ret (ids, meta))
    (fun '(client, camera_id, num_images, meta) =>
       match meta with
       | inl e => ret (e, e)
       | inr meta => let* r := rs_CaptureImage client camera_id num_images meta in ret (r, NO_ERROR)
       end)
    (fun x => writeInt32 (fst x)) snd.

Definition on_config_imagecapture : P -> ST S (P * Z) :=
  serve (let* ids := two_ids in
         let* param := object sizeof_ImageParam the_image in
         let* config := read_extra in
         ret (ids, param, config))
    (fun '(client, camera_id, param, config) => rs_ConfigImageCapture client camera_id param config) replies no_error.

Definition on_cancel_imagecapture : P -> ST S (P * Z) :=
  serve two_ids (fun '(client, camera_id) => rs_CancelCaptureImage client camera_id) replies no_error.

Definition on_return_imagecapture_buffer : P -> ST S (P * Z) :=
  serve three_ids (fun '(client, camera_id, buffer) => rs_ReturnImageCaptureBuffer client camera_id (i32 buffer))
    replies no_error.

Definition on_set_camera_params : P -> ST S (P * Z) :=
  serve (let* ids := two_ids in let* meta := readMetadata in ret (ids, meta))
    (fun '(client, camera_id, meta) =>
       match meta with
       | (0, Some m) => let* r := rs_SetCameraParam client camera_id m in ret (r, NO_ERROR)
       | (e, _) => ret (e, e)
       end)
    (fun x => writeInt32 (fst x)) snd.

Definition on_get_camera_params : P -> ST S (P * Z) :=
  serve two_ids (fun '(client, camera_id) => rs_GetCameraParam client camera_id (no_metadata B T P)) out_meta no_error.

Definition on_get_default_capture_params : P -> ST S (P * Z) :=
  serve two_ids (fun '(client, camera_id) => rs_GetDefaultCaptureParam client camera_id (no_metadata B T P)) out_meta no_error.

Definition on_get_camera_characteristics : P -> ST S (P * Z) :=
  serve two_ids (fun '(client, camera_id) => rs_GetCameraCharacteristics client camera_id (no_metadata B T P)) out_meta no_error.

Definition on_get_vendor_tag_descriptor : P -> ST S (P * Z) :=
  serve (ret tt) (fun _ => rs_GetVendorTagDescriptor)
    (fun x => do* writeInt32 (fst x) in
              if i32 (fst x) =? NO_ERROR then match snd x with Some t => writeTags t | None => undefined end
              else ret tt) no_error.

Definition on_unsupported : P -> ST S (P * Z) := serve (ret tt) (fun _ => ret (-1)) replies no_error.

Definition dispatch (c : option ServiceCmd) : P -> ST S (P * Z) :=
  match c with
  | Some RECORDER_CONNECT => on_connect
  | Some RECORDER_DISCONNECT => on_disconnect
  | Some RECORDER_START_CAMERA => on_start_camera
  | Some RECORDER_STOP_CAMERA => on_stop_camera
  | Some RECORDER_CREATE_SESSION => on_create_session
  | Some RECORDER_DELETE_SESSION => on_delete_session
  | Some RECORDER_START_SESSION => on_start_session
  | Some RECORDER_STOP_SESSION => on_stop_session
  | Some RECORDER_PAUSE_SESSION => on_pause_session
  | Some RECORDER_RESUME_SESSION => on_resume_session
  | Some RECORDER_CREATE_AUDIOTRACK => on_create_audiotrack
  | Some RECORDER_CREATE_VIDEOTRACK => on_create_videotrack
  | Some RECORDER_CREATE_VIDEOTRACK_EXTRAPARAMS => on_create_videotrack_extraparams
  | Some RECORDER_DELETE_AUDIOTRACK => on_delete_audiotrack
  | Some RECORDER_DELETE_VIDEOTRACK => on_delete_videotrack
  | Some RECORDER_RETURN_TRACKBUFFER => on_return_trackbuffer
  | Some RECORDER_SET_AUDIOTRACK_PARAMS => on_set_audiotrack_params
  | Some RECORDER_SET_VIDEOTRACK_PARAMS => on_set_videotrack_params
  | Some RECORDER_CAPTURE_IMAGE => on_capture_image
  | Some RECORDER_CONFIG_IMAGECAPTURE => on_config_imagecapture
  | Some RECORDER_CANCEL_IMAGECAPTURE => on_cancel_imagecapture
  | Some RECORDER_RETURN_IMAGECAPTURE_BUFFER => on_return_imagecapture_buffer
  | Some RECORDER_SET_CAMERA_PARAMS => on_set_camera_params
  | Some RECORDER_GET_CAMERA_PARAMS => on_get_camera_params
  | Some RECORDER_GET_DEFAULT_CAPTURE_PARAMS => on_get_default_capture_params
  | Some RECORDER_GET_CAMERA_CHARACTERISTICS => on_get_camera_characteristics
  | Some RECORDER_GET_VENDOR_TAG_DESCRIPTOR => on_get_vendor_tag_descriptor
  | Some RECORDER_GET_NUMBER_OF_CAMERAS | None => on_unsupported
  end.

Definition onTransact (code : Z) (data : P) : ST S (P * Z) :=
  match enforceInterface IRecorderService_descriptor data with
  | None => undefined
  | Some (ok, data) => if ok then dispatch (cmd_of_code code) data else ret (Parcel_new, PERMISSION_DENIED)
  end.

(** ** The side of the client *)

(** [remote()->transact], and the reading of the reply. *)
Definition transact (c : ServiceCmd) (w : ST P unit) : ST S P :=
  match written (do* writeInterfaceToken IRecorderService_descriptor in w) with
  | None => undefined
  | Some data => let* x := onTransact (cmd_code c) data in ret (fst x)
  end.

Definition call {A} (c : ServiceCmd) (w : ST P unit) (r : ST P A) : ST S A :=
  let* reply := transact c w in
  match r reply with None => undefined | Some (a, _) => ret a end.

Definition write_ids (ids : list Z) : ST P unit := for_each ids writeUint32.

(** [GetAndLock] around a copy of the bytes. *)
Definition write_extra (x : ExtraParam) : ST P unit := writeSized (Bytes (data_buffer_ x)).

(** An assertion of the proxy. *)
Definition asserted {A} (b : bool) (m : ST S A) : ST S A := if b then m else undefined.

Definition in_id : ST P (Z * option Z) := let* id := readUint32 in let* r := readInt32 in ret (r, Some id).

(** What a getter leaves in the metadata [m] of its caller. *)
Definition in_meta (m : M) : ST P (Z * M) :=
  let* r := readInt32 in
  if r =? NO_ERROR then let* got := readMetadata in ret (fst got, default (no_metadata B T P) (snd got)) else ret (r, m).

(** The index of the loop over the metadata of a capture has 8 bits: with 256
    or more of them the loop does not end. *)
Definition write_metas (ms : list M) : ST P unit :=
  if 256 <=? Z.of_nat (length ms) then undefined else for_each ms writeMetadata.

Definition write_buffers (track : Z) (bs : list BnBuffer) : ST P unit :=
  if track <? 100 then
    match bs with
    | [] => undefined
    | _ => do* writeUint32 (Z.of_nat (length bs)) in for_each bs (fun b => writeSized (OfBuffer b))
    end
  else do* writeInt32 (Z.of_nat (length bs)) in for_each bs (BnBuffer_ToParcel id false).

Definition Bp_Connect (service_cb : B) : ST S (Z * option Z) :=
  call RECORDER_CONNECT (writeStrongBinder service_cb) in_id.

Definition Bp_Disconnect (client : Z) : ST S Z := call RECORDER_DISCONNECT (writeUint32 client) readInt32.

Definition Bp_StartCamera (client camera_id : Z) (frame_rate : float32) (extra : ExtraParam) (enable_result_cb : bool) : ST S Z :=
  call RECORDER_START_CAMERA
    (do* writeUint32 client in
     do* writeUint32 camera_id in
     do* writeFloat frame_rate in
     do* writeUint32 (as_int enable_result_cb) in
     write_extra extra) readInt32.

Definition Bp_StopCamera (client camera_id : Z) : ST S Z :=
  call RECORDER_STOP_CAMERA (do* writeUint32 client in writeUint32 camera_id) readInt32.

Definition Bp_CreateSession (client : Z) : ST S (Z * option Z) :=
  call RECORDER_CREATE_SESSION (writeUint32 client) in_id.

Definition Bp_DeleteSession (client session : Z) : ST S Z :=
  asserted (negb (session =? 0))
  (call RECORDER_DELETE_SESSION (do* writeUint32 client in writeUint32 session) readInt32).

Definition Bp_StartSession (client session : Z) : ST S Z :=
  asserted (negb (session =? 0))
  (call RECORDER_START_SESSION (do* writeUint32 client in writeUint32 session) readInt32).

Definition Bp_StopSession (client session : Z) (do_flush : bool) : ST S Z :=
  asserted (negb (session =? 0))
  (call RECORDER_STOP_SESSION
     (do* writeUint32 client in do* writeUint32 session in writeInt32 (as_int do_flush)) readInt32).

Definition Bp_PauseSession (client session : Z) : ST S Z :=
  asserted (negb (session =? 0))
  (call RECORDER_PAUSE_SESSION (do* writeUint32 client in writeUint32 session) readInt32).

Definition Bp_ResumeSession (client session : Z) : ST S Z :=
  asserted (negb (session =? 0))
  (call RECORDER_RESUME_SESSION (do* writeUint32 client in writeUint32 session) readInt32).

Definition Bp_CreateAudioTrack (client session track : Z) (param : AudioTrackParam) : ST S Z :=
  call RECORDER_CREATE_AUDIOTRACK
    (do* writeUint32 client in do* writeUint32 session in do* writeUint32 track in AudioTrack_ToParcel param) readInt32.

Definition Bp_CreateVideoTrack (client session track : Z) (params : VideoTrackCreateParam) : ST S Z :=
  call RECORDER_CREATE_VIDEOTRACK
    (do* writeUint32 client in do* writeUint32 session in do* writeUint32 track in
     writeSized (OfVideoParam params)) readInt32.

Definition Bp_CreateVideoTrackExtra (client session track : Z) (params : VideoTrackCreateParam) (extra : ExtraParam) : ST S Z :=
  call RECORDER_CREATE_VIDEOTRACK_EXTRAPARAMS
    (do* writeUint32 client in do* writeUint32 session in do* writeUint32 track in
     do* writeSized (OfVideoParam params) in write_extra extra) readInt32.

Definition Bp_DeleteAudioTrack (client session track : Z) : ST S Z :=
  call RECORDER_DELETE_AUDIOTRACK
    (do* writeUint32 client in do* writeUint32 session in writeUint32 track) readInt32.

Definition Bp_DeleteVideoTrack (client session track : Z) : ST S Z :=
  call RECORDER_DELETE_VIDEOTRACK
    (do* writeUint32 client in do* writeUint32 session in writeUint32 track) readInt32.

Definition Bp_ReturnTrackBuffer (client session track : Z) (buffers : list BnBuffer) : ST S Z :=
  do* transact RECORDER_RETURN_TRACKBUFFER
    (do* writeUint32 client in do* writeUint32 session in do* writeUint32 track in write_buffers track buffers) in
  ret NO_ERROR.

Definition Bp_SetAudioTrackParam (client session track type : Z) (param : Object) : ST S Z :=
  call RECORDER_SET_AUDIOTRACK_PARAMS
    (do* writeUint32 client in do* writeUint32 session in do* writeUint32 track in do* writeUint32 type in
     writeSized param) readInt32.

Definition Bp_SetVideoTrackParam (client session track type : Z) (param : Object) : ST S Z :=
  call RECORDER_SET_VIDEOTRACK_PARAMS
    (do* writeUint32 client in do* writeUint32 session in do* writeUint32 track in do* writeUint32 type in
     writeSized param) readInt32.

Definition Bp_CaptureImage (client camera_id num_images : Z) (meta : list M) : ST S Z :=
  call RECORDER_CAPTURE_IMAGE
    (do* writeUint32 client in do* writeUint32 camera_id in do* writeUint32 num_images in
     do* writeUint32 (Z.of_nat (length meta)) in write_metas meta) readInt32.

Definition Bp_ConfigImageCapture (client camera_id : Z) (param : ImageParam) (config : ExtraParam) : ST S Z :=
  call RECORDER_CONFIG_IMAGECAPTURE
    (do* writeUint32 client in do* writeUint32 camera_id in do* writeSized (OfImageParam param) in
     write_extra config) readInt32.

Definition Bp_CancelCaptureImage (client camera_id : Z) : ST S Z :=
  call RECORDER_CANCEL_IMAGECAPTURE (do* writeUint32 client in writeUint32 camera_id) readInt32.

Definition Bp_ReturnImageCaptureBuffer (client camera_id buffer : Z) : ST S Z :=
  call RECORDER_RETURN_IMAGECAPTURE_BUFFER
    (do* writeUint32 client in do* writeUint32 camera_id in writeUint32 buffer) readInt32.

Definition Bp_SetCameraParam (client camera_id : Z) (meta : M) : ST S Z :=
  call RECORDER_SET_CAMERA_PARAMS
    (do* writeUint32 client in do* writeUint32 camera_id in writeMetadata meta) readInt32.

Definition Bp_GetCameraParam (client camera_id : Z) (meta : M) : ST S (Z * M) :=
  call RECORDER_GET_CAMERA_PARAMS (do* writeUint32 client in writeUint32 camera_id) (in_meta meta).

Definition Bp_GetDefaultCaptureParam (client camera_id : Z) (meta : M) : ST S (Z * M) :=
  call RECORDER_GET_DEFAULT_CAPTURE_PARAMS (do* writeUint32 client in writeUint32 camera_id) (in_meta meta).

Definition Bp_GetCameraCharacteristics (client camera_id : Z) (meta : M) : ST S (Z * M) :=
  call RECORDER_GET_CAMERA_CHARACTERISTICS (do* writeUint32 client in writeUint32 camera_id) (in_meta meta).

Definition Bp_GetVendorTagDescriptor : ST S (Z * option T) :=
  call RECORDER_GET_VENDOR_TAG_DESCRIPTOR (ret tt)
    (let* r := readInt32 in
     if r =? NO_ERROR then let* got := readTags in ret (fst got, Some (snd got)) else ret (r, None)).

Definition BpRecorderService : IRecorderService M B T S := {|
  rs_Connect := Bp_Connect;
  rs_Disconnect := Bp_Disconnect;
  rs_StartCamera := Bp_StartCamera;
  rs_StopCamera := Bp_StopCamera;
  rs_CreateSession := Bp_CreateSession;
  rs_DeleteSession := Bp_DeleteSession;
  rs_StartSession := Bp_StartSession;
  rs_StopSession := Bp_StopSession;
  rs_PauseSession := Bp_PauseSession;
  rs_ResumeSession := Bp_ResumeSession;
  rs_CreateAudioTrack := Bp_CreateAudioTrack;
  rs_CreateVideoTrack := Bp_CreateVideoTrack;
  rs_CreateVideoTrackExtra := Bp_CreateVideoTrackExtra;
  rs_DeleteAudioTrack := Bp_DeleteAudioTrack;
  rs_DeleteVideoTrack := Bp_DeleteVideoTrack;
  rs_ReturnTrackBuffer := Bp_ReturnTrackBuffer;
  rs_SetAudioTrackParam := Bp_SetAudioTrackParam;
  rs_SetVideoTrackParam := Bp_SetVideoTrackParam;
  rs_CaptureImage := Bp_CaptureImage;
  rs_ConfigImageCapture := Bp_ConfigImageCapture;
  rs_CancelCaptureImage := Bp_CancelCaptureImage;
  rs_ReturnImageCaptureBuffer := Bp_ReturnImageCaptureBuffer;
  rs_SetCameraParam := Bp_SetCameraParam;
  rs_GetCameraParam := Bp_GetCameraParam;
  rs_GetDefaultCaptureParam := Bp_GetDefaultCaptureParam;
  rs_GetCameraCharacteristics := Bp_GetCameraCharacteristics;
  rs_GetVendorTagDescriptor := Bp_GetVendorTagDescriptor
|}.

(** ** A remote call is a call of the service *)

Lemma transact_served {A R} c w r (args : A) (method : A -> ST S R) wr st : transfers w r args ->
  dispatch (Some c) = serve r method wr st -> forall s,
  transact c w s = (let* x := method args in match written (wr x) with None => undefined | Some reply => ret reply end) s.
Proof.
  intros Ht Hd s.
  assert (transfers (do* writeInterfaceToken IRecorderService_descriptor in w)
    (let* ok := enforceInterface IRecorderService_descriptor in let* a := r in ret (ok, a)) (true, args)) as Hw.
  { eapply transfers_bind; [apply transfers_Token|]. eapply transfers_end; [exact Ht|done]. }
  destruct (transferred _ _ _ Hw) as (data & data' & E & Er).
  unfold transact. rewrite E. unfold onTransact, bind at 1. rewrite cmd_of_cmd_code, Hd.
  apply bind_some in Er as (ok & d1 & Etok & Er). apply bind_some in Er as (a & d2 & Ea & Er).
  injection Er as -> -> ->. rewrite Etok. unfold serve. rewrite Ea.
  unfold bind. destruct (method args s) as [[x s']|]; [|done]. by destruct (written (wr x)).
Qed.

(** The two halves of a call: the arguments arrive, the method is called, and
    its results arrive. *)
Lemma call_served {A R A'} c w r (args : A) (method : A -> ST S R) wr st (rd : ST P A') (f : R -> A') :
  transfers w r args -> dispatch (Some c) = serve r method wr st ->
  (forall x s s', method args s = Some (x, s') -> transfers (wr x) rd (f x)) -> forall s, call c w rd s = (let* x := method args in ret (f x)) s.
Proof.
  intros Ht Hd Hr s. unfold call, bind at 1. rewrite (transact_served _ _ _ _ _ _ _ Ht Hd). unfold bind.
  destruct (method args s) as [[x s']|] eqn:Em; [|done].
  destruct (transferred _ _ _ (Hr x s s' Em)) as (p & p' & -> & E). cbn. by rewrite E.
Qed.

(** The status that arrives. *)
Lemma transfers_reply r : transfers (replies r) readInt32 (i32 r).
Proof. apply transfers_Int32. Qed.

Lemma transfers_out_id x : transfers (out_id x) in_id (i32 (fst x), Some (u32 (default garbage (snd x)))).
Proof. unfold out_id, in_id. transfer. done. Qed.

(** What a getter of the service leaves, as its remote caller sees it. *)
Definition got_meta (m : M) (x : Z * M) : Z * M :=
  (i32 (fst x), if i32 (fst x) =? NO_ERROR then snd x else m).

Lemma transfers_out_meta m x : transfers (out_meta x) (in_meta m) (got_meta m x).
Proof.
  unfold out_meta, in_meta, got_meta. eapply transfers_bind; [apply transfers_Int32|]. cbv beta.
  destruct (i32 (fst x) =? NO_ERROR) eqn:E; [|apply transfers_nothing].
  eapply transfers_end; [apply transfers_Metadata|]. apply Z.eqb_eq in E. rewrite E. cbn.
  by destruct (decide (snd x = no_metadata B T P)) as [->|].
Qed.

Lemma transfers_two_ids a b : transfers (do* writeUint32 a in writeUint32 b) two_ids (u32 a, u32 b).
Proof. unfold two_ids. transfer. done. Qed.

Lemma transfers_three_ids a b c :
  transfers (do* writeUint32 a in do* writeUint32 b in writeUint32 c) three_ids (u32 a, u32 b, u32 c).
Proof. unfold three_ids. transfer. done. Qed.

(** The ids and what follows them. *)
Lemma transfers_ids2 {A} a b (w : ST P unit) (k : Z * Z -> ST P A) (x : A) : transfers w (k (u32 a, u32 b)) x ->
  transfers (do* writeUint32 a in do* writeUint32 b in w) (let* ids := two_ids in k ids) x.
Proof. intros Hw. apply transfers_unassoc. eapply transfers_bind; [apply transfers_two_ids|exact Hw]. Qed.

Lemma transfers_ids3 {A} a b c (w : ST P unit) (k : Z * Z * Z -> ST P A) (x : A) :
  transfers w (k (u32 a, u32 b, u32 c)) x ->
  transfers (do* writeUint32 a in do* writeUint32 b in do* writeUint32 c in w) (let* ids := three_ids in k ids) x.
Proof.
  intros Hw. pose proof (transfers_three_ids a b c) as Hi.
  assert (transfers (do* (do* writeUint32 a in do* writeUint32 b in writeUint32 c) in w) (let* ids := three_ids in k ids) x)
    as (ws & Hws & Hr) by (eapply transfers_bind; [exact Hi|exact Hw]).
  exists ws. split; [|done]. intros p. destruct (Hws p) as (p' & E & Hp). by exists p'.
Qed.

Lemma transfers_object {A} o size (get : Object -> option A) a : sized_ok o -> get o = Some a -> size_of o = size ->
  transfers (writeSized o) (object size get) a.
Proof.
  intros Ho Hg Hs. unfold writeSized, object. eapply transfers_bind; [apply transfers_Uint32|]. cbv beta.
  rewrite u32_small by done. eapply transfers_end; [apply transfers_Blob|]. by rewrite Hg, Hs, Z.eqb_refl.
Qed.

(** Containers that arrive as they are: [ExtraParam] promises it of all that
    its operations build. *)
Definition travels (x : ExtraParam) : Prop := rebuilt (data_buffer_ x) = Some x /\ is_u32 (buffer_size x).

Lemma transfers_extra x : travels x -> transfers (write_extra x) read_extra x.
Proof.
  intros [Hx Hn]. unfold write_extra, read_extra. eapply transfers_end; [by apply transfers_Sized|]. cbn beta iota; by rewrite Hx.
Qed.

Lemma transfers_metas ms : (forall m, m ∈ ms -> m <> no_metadata B T P) ->
  transfers (for_each ms writeMetadata) (read_metas (length ms)) (inr ms).
Proof.
  induction ms as [|m ms IH]; intros Hm; simpl; [apply transfers_nothing|].
  eapply transfers_bind; [apply transfers_Metadata|]. cbv beta.
  rewrite decide_False by (apply Hm; by left). eapply transfers_end; [apply IH; intros x Hx; apply Hm; by right|done].
Qed.

Lemma transfers_buffers track bs : is_u32 track -> Forall buffer_ok bs -> (track < 100 -> bs <> []) ->
  Z.of_nat (length bs) < INT32_HALF -> transfers (write_buffers track bs) (read_buffers (u32 track)) bs.
Proof.
  intros Ht Hbs Hne Hlen. rewrite u32_small by done. unfold write_buffers, read_buffers, INT32_HALF in *.
  rewrite <- (map_id bs) at 3. destruct (Z.ltb_spec track 100) as [Hlt|Hge].
  - destruct bs as [|b bs]; [by destruct (Hne Hlt)|]. remember (b :: bs) as l eqn:El. clear El b bs.
    eapply transfers_bind; [apply transfers_Uint32|]. cbv beta.
    rewrite u32_small, Nat2Z.id by (unfold is_u32, UINT32_MOD; lia).
    apply transfers_for_each. intros b Hb. apply transfers_object; [|done|done].
    unfold sized_ok, is_u32, size_of. pose proof sizes_positive. lia.
  - eapply transfers_bind; [apply transfers_Int32|]. cbv beta.
    rewrite i32_small, Nat2Z.id by (unfold is_i32, INT32_HALF; lia).
    apply transfers_for_each. intros b Hb. apply transfers_BnBuffer. by eapply Forall_forall.
Qed.

(** What the proxy asks of a call: that numbers fit their types, what it
    asserts, and metadata that have a buffer, fewer than 256 at a time. *)
Definition request_ok (rq : Request M B) : Prop :=
  match rq with
  | RqConnect _ | RqGetVendorTagDescriptor => True
  | RqDisconnect c | RqCreateSession c => is_u32 c
  | RqStartCamera c cam _ x _ => is_u32 c /\ is_u32 cam /\ travels x
  | RqStopCamera c cam | RqCancelCaptureImage c cam => is_u32 c /\ is_u32 cam
  | RqDeleteSession c n | RqStartSession c n | RqStopSession c n _ | RqPauseSession c n | RqResumeSession c n =>
      is_u32 c /\ is_u32 n /\ n <> 0
  | RqCreateAudioTrack c n t p => is_u32 c /\ is_u32 n /\ is_u32 t /\ audio_ok p
  | RqCreateVideoTrack c n t _ | RqDeleteAudioTrack c n t | RqDeleteVideoTrack c n t => is_u32 c /\ is_u32 n /\ is_u32 t
  | RqCreateVideoTrackExtra c n t _ x => is_u32 c /\ is_u32 n /\ is_u32 t /\ travels x
  | RqReturnTrackBuffer c n t bs => is_u32 c /\ is_u32 n /\ is_u32 t /\ Forall buffer_ok bs /\ (t < 100 -> bs <> []) /\
      Z.of_nat (length bs) < INT32_HALF
  | RqSetAudioTrackParam c n t type p | RqSetVideoTrackParam c n t type p =>
      is_u32 c /\ is_u32 n /\ is_u32 t /\ is_u32 type /\ sized_ok p
  | RqCaptureImage c cam k ms => is_u32 c /\ is_u32 cam /\ is_u32 k /\ (forall m, m ∈ ms -> m <> no_metadata B T P) /\
      Z.of_nat (length ms) < 256
  | RqConfigImageCapture c cam _ x => is_u32 c /\ is_u32 cam /\ travels x
  | RqReturnImageCaptureBuffer c cam b => is_u32 c /\ is_u32 cam /\ is_i32 b
  | RqSetCameraParam c cam m => is_u32 c /\ is_u32 cam /\ m <> no_metadata B T P
  | RqGetCameraParam c cam _ | RqGetDefaultCaptureParam c cam _ | RqGetCameraCharacteristics c cam _ => is_u32 c /\ is_u32 cam
  end.

(** The call that the service gets: a getter starts with empty metadata. *)
Definition received (rq : Request M B) : Request M B :=
  match rq with
  | RqGetCameraParam c cam _ => RqGetCameraParam c cam (no_metadata B T P)
  | RqGetDefaultCaptureParam c cam _ => RqGetDefaultCaptureParam c cam (no_metadata B T P)
  | RqGetCameraCharacteristics c cam _ => RqGetCameraCharacteristics c cam (no_metadata B T P)
  | _ => rq
  end.

(** What the caller sees of an answer: the status as an [int32_t], except that
    the return of a track's buffers is always a success; an id that was not
    given is whatever was there; of a getter that fails, its own metadata. *)
Definition seen (rq : Request M B) (a : Answer M T) : Answer M T :=
  match a with
  | Status r => match rq with RqReturnTrackBuffer _ _ _ _ => Status NO_ERROR | _ => Status (i32 r) end
  | StatusId r id => StatusId (i32 r) (Some (u32 (default garbage id)))
  | StatusMeta r m =>
      match rq with
      | RqGetCameraParam _ _ m0 | RqGetDefaultCaptureParam _ _ m0 | RqGetCameraCharacteristics _ _ m0 =>
          StatusMeta (i32 r) (if i32 r =? NO_ERROR then m else m0)
      | _ => a
      end
  | StatusTags r t => StatusTags (i32 r) (if i32 r =? NO_ERROR then t else None)
  end.

(** A service that reports success has a descriptor to give. *)
Definition gives_tags : Prop := forall s r t s',
  rs_GetVendorTagDescriptor s = Some ((r, t), s') -> i32 r = NO_ERROR -> t <> None.
End Binder.
