(* ===== verification/BinderFacts.v ===== *)
(** * A remote call is a call of the service

    The theorem about [Binder] and its witness, on a parcel that is a list of
    values. *)

From S2P Require Import Prelude KeyedVector Floats ExtraParam Track RecorderTypes Parcel Binder.

Section Remote.
Context {M B T P : Type} `{ParcelOps M B T P} {S : Type} `{Srv : IRecorderService M B T S}.
Context (garbage : Z).

Abbreviation plain := (@status M T S).
Abbreviation with_id := (@status_id M T S).
Abbreviation with_meta := (@status_meta M T S).
Abbreviation saw := (@seen M B T garbage).
Abbreviation Proxy := (BpRecorderService (P := P) garbage).

Lemma status_called rq (m' m : ST S Z) s : (forall s, m' s = (let* x := m in ret (i32 x)) s) ->
  (forall r, saw rq (Status r) = Status (i32 r)) -> plain m' s = (let* a := plain m in ret (saw rq a)) s.
Proof. intros Hm Hs. unfold status, bind. rewrite Hm. unfold bind. destruct (m s) as [[r s']|]; [|done]. unfold ret. by rewrite Hs. Qed.

Lemma status_id_called rq (m' m : ST S (Z * option Z)) s :
  (forall s, m' s = (let* x := m in ret (i32 (fst x), Some (u32 (default garbage (snd x))))) s) ->
  with_id m' s = (let* a := with_id m in ret (saw rq a)) s.
Proof. intros Hm. unfold status_id, bind. rewrite Hm. unfold bind. by destruct (m s) as [[r s']|]. Qed.

Lemma status_meta_called rq m0 (m' m : ST S (Z * M)) s :
  (forall s, m' s = (let* x := m in ret (got_meta m0 x)) s) ->
  (forall r a, saw rq (StatusMeta r a) = StatusMeta (i32 r) (if i32 r =? NO_ERROR then a else m0)) ->
  with_meta m' s = (let* a := with_meta m in ret (saw rq a)) s.
Proof.
  intros Hm Hs. unfold status_meta, bind. rewrite Hm. unfold bind.
  destruct (m s) as [[[r a] s']|]; [|done]. unfold ret. by rewrite Hs.
Qed.

(** The cases of [onTransact] by the kind of their arguments. *)
Lemma called2 c w (method : Z -> Z -> ST S Z) a b : is_u32 a -> is_u32 b ->
  w = (do* writeUint32 a in writeUint32 b) ->
  dispatch garbage (Some c) = serve two_ids (fun '(a, b) => method a b) replies no_error -> forall s,
  call (M := M) (B := B) (T := T) (P := P) garbage c w readInt32 s = (let* x := method a b in ret (i32 x)) s.
Proof.
  intros Ha Hb -> Hd s. erewrite call_served; [|apply transfers_two_ids|exact Hd|intros; apply transfers_reply].
  cbv beta iota. by rewrite !u32_small.
Qed.

Lemma called3 c w (method : Z -> Z -> Z -> ST S Z) a b n : is_u32 a -> is_u32 b -> is_u32 n ->
  w = (do* writeUint32 a in do* writeUint32 b in writeUint32 n) ->
  dispatch garbage (Some c) = serve three_ids (fun '(a, b, n) => method a b n) replies no_error -> forall s,
  call (M := M) (B := B) (T := T) (P := P) garbage c w readInt32 s = (let* x := method a b n in ret (i32 x)) s.
Proof.
  intros Ha Hb Hn -> Hd s. erewrite call_served; [|apply transfers_three_ids|exact Hd|intros; apply transfers_reply].
  cbv beta iota. by rewrite !u32_small.
Qed.

Lemma called_get c w (method : Z -> Z -> M -> ST S (Z * M)) a b m0 : is_u32 a -> is_u32 b ->
  w = (do* writeUint32 a in writeUint32 b) ->
  dispatch garbage (Some c) = serve two_ids (fun '(a, b) => method a b (no_metadata B T P)) out_meta no_error -> forall s,
  call (M := M) (B := B) (T := T) (P := P) garbage c w (in_meta m0) s =
  (let* x := method a b (no_metadata B T P) in ret (got_meta m0 x)) s.
Proof.
  intros Ha Hb -> Hd s. erewrite call_served; [|apply transfers_two_ids|exact Hd|intros; apply transfers_out_meta].
  cbv beta iota. by rewrite !u32_small.
Qed.

(** Three ids and one more argument. *)
Lemma called_more {A} c (w : ST P unit) (r : ST P A) (x : A) (method : Z -> Z -> Z -> A -> ST S Z) a b n :
  is_u32 a -> is_u32 b -> is_u32 n -> transfers w r x ->
  dispatch garbage (Some c) = serve (let* ids := three_ids in let* y := r in ret (ids, y))
    (fun '(a, b, n, y) => method a b n y) replies no_error -> forall s,
  call (M := M) (B := B) (T := T) (P := P) garbage c (do* writeUint32 a in do* writeUint32 b in do* writeUint32 n in w) readInt32 s =
  (let* x := method a b n x in ret (i32 x)) s.
Proof.
  intros Ha Hb Hn Hw Hd s. erewrite call_served; [| |exact Hd|intros; apply transfers_reply].
  2: { apply transfers_ids3. eapply transfers_end; [exact Hw|done]. }
  cbv beta iota. by rewrite !u32_small.
Qed.

Lemma sized_video p : sized_ok (OfVideoParam p).
Proof. unfold sized_ok, is_u32, size_of. pose proof sizes_positive. lia. Qed.

Lemma sized_image p : sized_ok (OfImageParam p).
Proof. unfold sized_ok, is_u32, size_of. pose proof sizes_positive. lia. Qed.

Lemma as_int_back (b : bool) : negb (i32 (as_int b) =? 0) = b.
Proof. by destruct b. Qed.

Lemma as_flag_back (b : bool) : (u32 (as_int b) =? 1) = b.
Proof. by destruct b. Qed.

(** The calls whose arguments are of their own kind. *)
Lemma StartCamera_called c cam fps x e : is_u32 c -> is_u32 cam -> travels x -> forall s,
  Bp_StartCamera garbage (P := P) c cam fps x e s = (let* r := rs_StartCamera (M := M) (B := B) (T := T) c cam fps x e in ret (i32 r)) s.
Proof.
  intros Hc Hcam Hx s. unfold Bp_StartCamera. erewrite call_served; [| |reflexivity|intros; apply transfers_reply].
  2: { do 4 transfer_step. eapply transfers_end; [by apply transfers_extra|done]. }
  cbv beta iota. by rewrite !u32_small, as_flag_back by done.
Qed.

Lemma StopSession_called c n f : is_u32 c -> is_u32 n -> n <> 0 -> forall s,
  Bp_StopSession garbage (P := P) c n f s = (let* r := rs_StopSession (M := M) (B := B) (T := T) c n f in ret (i32 r)) s.
Proof.
  intros Hc Hn Hz s. unfold Bp_StopSession, asserted. destruct (Z.eqb_spec n 0); [done|]. cbn [negb].
  erewrite call_served; [| |reflexivity|intros; apply transfers_reply]. 2: transfer; done.
  cbv beta iota. by rewrite !u32_small, as_int_back by done.
Qed.

Lemma CreateVideoTrackExtra_called c n t p x : is_u32 c -> is_u32 n -> is_u32 t -> travels x -> forall s,
  Bp_CreateVideoTrackExtra garbage (P := P) c n t p x s
  = (let* r := rs_CreateVideoTrackExtra (M := M) (B := B) (T := T) c n t p x in ret (i32 r)) s.
Proof.
  intros Hc Hn Ht Hx s. unfold Bp_CreateVideoTrackExtra. erewrite call_served; [| |reflexivity|intros; apply transfers_reply].
  2: { apply transfers_ids3. eapply transfers_bind; [apply transfers_object; [apply sized_video|done|done]|].
       eapply transfers_end; [by apply transfers_extra|done]. }
  cbv beta iota. by rewrite !u32_small.
Qed.

Lemma ConfigImageCapture_called c cam p x : is_u32 c -> is_u32 cam -> travels x -> forall s,
  Bp_ConfigImageCapture garbage (P := P) c cam p x s
  = (let* r := rs_ConfigImageCapture (M := M) (B := B) (T := T) c cam p x in ret (i32 r)) s.
Proof.
  intros Hc Hcam Hx s. unfold Bp_ConfigImageCapture. erewrite call_served; [| |reflexivity|intros; apply transfers_reply].
  2: { apply transfers_ids2. eapply transfers_bind; [apply transfers_object; [apply sized_image|done|done]|].
       eapply transfers_end; [by apply transfers_extra|done]. }
  cbv beta iota. by rewrite !u32_small.
Qed.

Lemma ReturnTrackBuffer_called c n t bs : is_u32 c -> is_u32 n -> is_u32 t -> Forall buffer_ok bs -> (t < 100 -> bs <> []) ->
  Z.of_nat (length bs) < INT32_HALF -> forall s,
  Bp_ReturnTrackBuffer garbage (P := P) c n t bs s
  = (let* r := rs_ReturnTrackBuffer (M := M) (B := B) (T := T) c n t bs in ret NO_ERROR) s.
Proof.
  intros Hc Hn Ht Hbs Hne Hl s. unfold Bp_ReturnTrackBuffer, bind at 1.
  erewrite transact_served; [| |reflexivity].
  2: { do 3 transfer_step. eapply transfers_end; [by apply transfers_buffers|done]. }
  cbv beta iota. rewrite !u32_small by done. unfold bind.
  destruct (rs_ReturnTrackBuffer c n t bs s) as [[r s']|]; [|done].
  destruct (transferred _ _ _ (transfers_reply r)) as (p & p' & -> & _). done.
Qed.

(** Metadata that have a buffer reach the method. *)
Lemma CaptureImage_called c cam k ms : is_u32 c -> is_u32 cam -> is_u32 k -> (forall m, m ∈ ms -> m <> no_metadata B T P) ->
  Z.of_nat (length ms) < 256 -> forall s,
  Bp_CaptureImage garbage (P := P) c cam k ms s = (let* r := rs_CaptureImage (M := M) (B := B) (T := T) c cam k ms in ret (i32 r)) s.
Proof.
  intros Hc Hcam Hk Hms Hl s. unfold Bp_CaptureImage, write_metas.
  destruct (Z.leb_spec 256 (Z.of_nat (length ms))); [lia|].
  erewrite call_served; [| |reflexivity|intros x ? ? _; apply (transfers_Int32 (fst x))].
  2: { apply transfers_ids3. eapply transfers_bind; [apply transfers_Uint32|]. cbv beta.
       rewrite u32_small, Nat2Z.id by (unfold is_u32, UINT32_MOD; lia).
       eapply transfers_end; [by apply transfers_metas|done]. }
  cbv beta iota. rewrite !u32_small by done. unfold bind. by destruct (rs_CaptureImage c cam k ms s) as [[r s']|].
Qed.

Lemma SetCameraParam_called c cam m : is_u32 c -> is_u32 cam -> m <> no_metadata B T P -> forall s,
  Bp_SetCameraParam garbage (P := P) c cam m s = (let* r := rs_SetCameraParam (M := M) (B := B) (T := T) c cam m in ret (i32 r)) s.
Proof.
  intros Hc Hcam Hm s. unfold Bp_SetCameraParam.
  erewrite call_served; [| |reflexivity|intros x ? ? _; apply (transfers_Int32 (fst x))].
  2: { apply transfers_ids2. eapply transfers_end; [apply transfers_Metadata|done]. }
  rewrite decide_False by done. cbv beta iota. rewrite !u32_small by done. unfold bind.
  by destruct (rs_SetCameraParam c cam m s) as [[r s']|].
Qed.

(** Metadata without a buffer do not: the caller is told of a success. *)
Lemma SetCameraParam_lost c cam s : 
  Bp_SetCameraParam (M := M) (B := B) (T := T) (S := S) (P := P) garbage c cam (no_metadata B T P) s = Some (NO_ERROR, s).
Proof.
  unfold Bp_SetCameraParam. erewrite call_served; [| |reflexivity|intros x ? ? _; apply (transfers_Int32 (fst x))].
  2: { apply transfers_ids2. eapply transfers_end; [apply transfers_Metadata|done]. }
  by rewrite decide_True.
Qed.

Lemma GetVendorTagDescriptor_called : gives_tags (M := M) (B := B) (T := T) (S := S) -> forall s,
  Bp_GetVendorTagDescriptor (M := M) (B := B) (S := S) (P := P) garbage s =
  (let* x := rs_GetVendorTagDescriptor in ret (i32 (fst x), if i32 (fst x) =? NO_ERROR then snd x else None)) s.
Proof.
  intros Hg s. unfold Bp_GetVendorTagDescriptor. 
  apply (call_served garbage RECORDER_GET_VENDOR_TAG_DESCRIPTOR (ret tt) (ret tt) tt (fun _ => rs_GetVendorTagDescriptor)
    (fun x => do* writeInt32 (fst x) in
              if i32 (fst x) =? NO_ERROR then match snd x with Some t => writeTags t | None => undefined end
              else ret tt) no_error _ (fun x => (i32 (fst x), if i32 (fst x) =? NO_ERROR then snd x else None)));
    [apply transfers_nothing|reflexivity|].
  intros [r t] s1 s2 E. specialize (Hg s1 r t s2 E). cbn in *.
  eapply transfers_bind; [apply transfers_Int32|]. cbv beta.
  destruct (Z.eqb_spec (i32 r) NO_ERROR) as [Hr|]; [|apply transfers_nothing]. rewrite Hr.
  destruct t as [t|]; [|by destruct (Hg Hr)]. eapply transfers_end; [apply transfers_Tags|done].
Qed.

Lemma called1 c w (method : Z -> ST S Z) a : is_u32 a -> w = writeUint32 a ->
  dispatch garbage (Some c) = serve readUint32 method replies no_error -> forall s,
  call (M := M) (B := B) (T := T) (P := P) garbage c w readInt32 s = (let* x := method a in ret (i32 x)) s.
Proof.
  intros Ha -> Hd s. erewrite call_served; [|apply transfers_Uint32|exact Hd|intros; apply transfers_reply].
  by rewrite u32_small.
Qed.

(** The calls that the proxy asserts a session for. *)
Lemma called_session c (method : Z -> Z -> ST S Z) a n : is_u32 a -> is_u32 n -> n <> 0 ->
  dispatch garbage (Some c) = serve two_ids (fun '(a, b) => method a b) replies no_error -> forall s,
  asserted (negb (n =? 0))
    (call (M := M) (B := B) (T := T) (P := P) garbage c (do* writeUint32 a in writeUint32 n) readInt32) s
  = (let* x := method a n in ret (i32 x)) s.
Proof.
  intros Ha Hn Hz Hd s. unfold asserted. destruct (Z.eqb_spec n 0); [done|]. by apply called2.
Qed.

Lemma Connect_called b s : Bp_Connect (M := M) (T := T) (S := S) garbage (P := P) b s
  = (let* x := rs_Connect (M := M) (T := T) b in ret (i32 (fst x), Some (u32 (default garbage (snd x))))) s.
Proof. eapply call_served; [apply transfers_Binder|reflexivity|intros; apply transfers_out_id]. Qed.

Lemma CreateSession_called c : is_u32 c -> forall s, Bp_CreateSession (M := M) (B := B) (T := T) (S := S) garbage (P := P) c s
  = (let* x := rs_CreateSession (M := M) (B := B) (T := T) c in ret (i32 (fst x), Some (u32 (default garbage (snd x))))) s.
Proof.
  intros Hc s. unfold Bp_CreateSession.
  erewrite call_served; [|apply transfers_Uint32|reflexivity|intros; apply transfers_out_id]. by rewrite u32_small.
Qed.

(** The parameters of a codec: ids, a type and a blob. *)
Lemma called_param c (method : Z -> Z -> Z -> Z -> Object -> ST S Z) a b n type o :
  is_u32 a -> is_u32 b -> is_u32 n -> is_u32 type -> sized_ok o ->
  dispatch garbage (Some c) = serve (let* ids := three_ids in let* type := readUint32 in let* param := readSized in ret (ids, type, param))
    (fun '(client, session, track, type, param) => method client session track type param) replies no_error -> forall s,
  call (M := M) (B := B) (T := T) (P := P) garbage c
    (do* writeUint32 a in do* writeUint32 b in do* writeUint32 n in do* writeUint32 type in writeSized o) readInt32 s
  = (let* x := method a b n type o in ret (i32 x)) s.
Proof.
  intros Ha Hb Hn Ht Ho Hd s. erewrite call_served; [| |exact Hd|intros; apply transfers_reply].
  2: { apply transfers_ids3. eapply transfers_bind; [apply transfers_Uint32|]. eapply transfers_end; [by apply transfers_Sized|done]. }
  cbv beta iota. by rewrite !u32_small.
Qed.

Lemma ReturnImageCaptureBuffer_called c cam b : is_u32 c -> is_u32 cam -> is_i32 b -> forall s,
  Bp_ReturnImageCaptureBuffer (M := M) (B := B) (T := T) (S := S) garbage (P := P) c cam b s
  = (let* x := rs_ReturnImageCaptureBuffer (M := M) (B := B) (T := T) c cam b in ret (i32 x)) s.
Proof.
  intros Hc Hcam Hb s. unfold Bp_ReturnImageCaptureBuffer.
  erewrite call_served; [|apply transfers_three_ids|reflexivity|intros; apply transfers_reply].
  cbv beta iota. by rewrite i32_u32, i32_small, !u32_small.
Qed.

(** C11. A call through the proxy and the parcels does to the service, and
    answers, what the same call made in the service does and answers, for each
    of the methods, whatever the service: the arguments arrive as they were
    given and the results as they were left. *)
Theorem remote_call_is_local (rq : Request M B) (s : S) :
  gives_tags (M := M) (B := B) (T := T) (S := S) -> request_ok (T := T) (P := P) rq ->
  invoke Proxy rq s = (let* a := invoke Srv (received (T := T) (P := P) rq) in ret (seen garbage rq a)) s.
Proof.
  intros Hg Hok. destruct rq as [b|c|c cam fps x e|c cam|c|c n|c n|c n f|c n|c n|c n t p|c n t p|c n t p x|c n t|c n t|c n t bs
    |c n t ty p|c n t ty p|c cam k ms|c cam p x|c cam|c cam b|c cam m|c cam m|c cam m|c cam m|]; simpl in Hok; split_hyps.
  all: try (apply status_called; [|done]); try (apply status_id_called).
  - apply Connect_called.
  - by apply called1.
  - by apply StartCamera_called.
  - by apply called2.
  - by apply CreateSession_called.
  - by apply called_session.
  - by apply called_session.
  - by apply StopSession_called.
  - by apply called_session.
  - by apply called_session.
  - apply called_more with (r := AudioTrack_FromParcel); auto with parcel.
  - apply called_more with (r := object sizeof_VideoTrackCreateParam the_video); auto.
    apply transfers_object; [apply sized_video|done|done].
  - by apply CreateVideoTrackExtra_called.
  - by apply called3.
  - by apply called3.
  - cbn [invoke received]. unfold status, bind. cbn [rs_ReturnTrackBuffer Proxy].
    erewrite ReturnTrackBuffer_called by done. unfold bind. by destruct (rs_ReturnTrackBuffer c n t bs s) as [[r s']|].
  - by apply called_param.
  - by apply called_param.
  - by apply CaptureImage_called.
  - by apply ConfigImageCapture_called.
  - by apply called2.
  - by apply ReturnImageCaptureBuffer_called.
  - by apply SetCameraParam_called.
  - apply (status_meta_called _ m); [|done]. by apply called_get.
  - apply (status_meta_called _ m); [|done]. by apply called_get.
  - apply (status_meta_called _ m); [|done]. by apply called_get.
  - cbn [invoke received]. unfold bind. cbn [rs_GetVendorTagDescriptor Proxy].
    erewrite GetVendorTagDescriptor_called by done. unfold bind. by destruct (rs_GetVendorTagDescriptor s) as [[[r t] s']|].
Qed.
End Remote.

(** ** A parcel to compute with

    The list of the values that are left to read; metadata, binders and tags
    are numbers, and metadata 0 have no buffer. *)

#[export] Instance demo_sizes : ObjectSizes.
Proof. refine {| sizeof_BnBuffer := 40; sizeof_MetaData := 120; sizeof_VideoTrackCreateParam := 400; sizeof_ImageParam := 16;
  sizeof_CodecParam := fun _ => 8; sizeof_RecorderErrorData := 8 |}. unfold UINT32_MOD. lia. Defined.

Definition ListParcel : Type := list (Wire Z Z Z).

Definition take_word (p : ListParcel) : Z * ListParcel := match p with W32 z :: p => (z, p) | _ => (0, p) end.
Definition take_long (p : ListParcel) : Z * ListParcel := match p with W64 z :: p => (z, p) | _ => (0, p) end.
Definition take_float (p : ListParcel) : float32 * ListParcel :=
  match p with WFloat x :: p => (x, p) | _ => (SpecFloat.S754_nan, p) end.
Definition take_token (p : ListParcel) : option Descriptor * ListParcel :=
  match p with WToken d :: p => (Some d, p) | _ => (None, p) end.
Definition take_blob (n : Z) (p : ListParcel) : Object * ListParcel :=
  match p with WBlob o :: p => (o, p) | _ => (Bytes [], p) end.
Definition take_file (p : ListParcel) : Z * ListParcel := match p with WFile f :: p => (f, p) | _ => (-1, p) end.
Definition take_binder (p : ListParcel) : Z * ListParcel := match p with WBinder b :: p => (b, p) | _ => (0, p) end.
Definition take_metadata (p : ListParcel) : (Z * option Z) * ListParcel :=
  match p with WMetadata m :: p => ((0, if decide (m = 0) then None else Some m), p) | _ => ((BAD_VALUE, None), p) end.
Definition take_cstring (p : ListParcel) : list Z * ListParcel := match p with WCString s :: p => (s, p) | _ => ([], p) end.
Definition take_tags (p : ListParcel) : (Z * Z) * ListParcel :=
  match p with WTags t :: p => ((0, t), p) | _ => ((BAD_VALUE, 0), p) end.

#[export] Instance list_parcel : ParcelOps Z Z Z ListParcel.
Proof.
  refine {| Parcel_new := []; no_metadata := 0; parcel_write w p := p ++ [w]; read_32 := take_word; read_64 := take_long;
    read_float := take_float; read_token := take_token; read_blob := take_blob; read_file := take_file;
    read_binder := take_binder; read_metadata := take_metadata; read_cstring := take_cstring; read_tags := take_tags;
    on_wire p := p |}; try done.
  all: intros; subst; eexists; split; reflexivity.
Defined.
