(* ===== verification/CameraSource.v ===== *)
(** * The camera source

    Models [CameraSource] of recorder/src/service/qmmf_camera_source.h and
    .cc, and what [TrackSource] does outside the flow of its frames: how
    tracks are created, wired to the camera, to rate controllers and to
    rescalers, started, stopped, paused and resumed.

    Shared pointers are indices into heaps of objects that are never freed:
    cameras, tracks and rescalers.  The consumers of a track's stages have
    addresses of their own.  [None] is undefined behaviour: an assertion that
    fails, or a wait that is not over. *)

From S2P Require Import Prelude KeyedVector Floats Monitor Memory Stream ExtraParam BufferProducer FrameRate Rescaler Track RecorderTypes Thumbnail CameraInterface.
From Stdlib Require Import SpecFloat.

(** ** What is decided from the parameters of tracks *)

(** The formats from which and to which frames are copied. *)
Definition copyable (f : VideoFormat) : bool :=
  match f with
  | Video.kHEVC | Video.kAVC | Video.kNV12 | Video.kNV12UBWC | Video.kRGB => true
  | _ => false
  end.

Definition ValidateSlaveTrackParam (slave master : VideoTrackCreateParam) : bool :=
  if negb (copyable (vt_format_type slave)) && negb (copyable (vt_format_type master)) then false
  else negb ((vt_width master <? vt_width slave) || (vt_height master <? vt_height slave)).

Definition GetYUVFormatType (f : VideoFormat) : VideoFormat :=
  match f with Video.kHEVC | Video.kAVC => Video.kNV12UBWC | _ => f end.

(** True when the formats are the same. *)
Definition IsFormatChanged (src dst : VideoFormat) : bool :=
  bool_decide (GetYUVFormatType src = GetYUVFormatType dst).

Definition CheckLinkedStream (slave master : VideoTrackCreateParam) : bool :=
  if negb (copyable (vt_format_type slave)) && negb (copyable (vt_format_type master)) then false
  else (vt_width slave =? vt_width master) && (vt_height slave =? vt_height master)
       && IsFormatChanged (vt_format_type master) (vt_format_type slave).

Record ResizerCrop := mkCrop { crop_x : Z; crop_y : Z; crop_width : Z; crop_height : Z }.

(** The crop of a track, if it has one; the outer [None] is undefined. *)
Definition GetRescalerConfig (x : ExtraParam) : option (option ResizerCrop) :=
  if Exists QMMF_TRACK_CROP x then
    match fetch_struct QMMF_TRACK_CROP (bytes32 0 ++ bytes32 0 ++ bytes32 0 ++ bytes32 0) x with
    | None => None
    | Some d =>
        match load32 d 0, load32 d 4, load32 d 8, load32 d 12 with
        | Some a, Some b, Some w, Some h => Some (Some (mkCrop a b w h))
        | _, _, _, _ => None
        end
    end
  else Some None.

(** The number of the track whose frames are copied. *)
Definition GetSourceTrackId (x : ExtraParam) : option Z :=
  if Exists QMMF_SOURCE_VIDEO_TRACK_ID x then i32 <$> fetch_word QMMF_SOURCE_VIDEO_TRACK_ID (u32 (-1)) x
  else Some NAME_NOT_FOUND.

(** The interval of a time lapse, if the track is one. *)
Definition timelapse_of (x : ExtraParam) : option (option Z) :=
  if Exists QMMF_VIDEO_TIMELAPSE_INTERVAL x then Some <$> fetch_word QMMF_VIDEO_TIMELAPSE_INTERVAL 33 x
  else Some None.

(** The stream that a track needs. *)
Definition stream_param (p : VideoTrackParams) : option StreamParam :=
  let c := params p in
  let x := extra_param p in
  let encoded := match vt_format_type c with Video.kAVC | Video.kHEVC => kEncoded | _ => kNone end in
  match (if Exists QMMF_CPU_CACHE x then fetch_flag QMMF_CPU_CACHE true x else Some true),
        (if Exists QMMF_VIDEO_WAIT_AEC_MODE x then fetch_flag QMMF_VIDEO_WAIT_AEC_MODE false x else Some false),
        (if Exists QMMF_VIDEO_ROTATE x then fetch_word QMMF_VIDEO_ROTATE 0 x else Some 0) with
  | Some cache, Some aec, Some rotation =>
      Some (mkStreamParam (track_id p) (vt_width c) (vt_height c) rotation (FromVideoToQmmfFormat (vt_format_type c))
              (vt_frame_rate c)
              (Z.lor (Z.lor encoded (if cache then kNone else kUncashed)) (if aec then kIAEC else kNone)))
  | _, _, _ => None
  end.

(** ** The state *)

(** Where a consumer returns its buffers. *)
Inductive Producer :=
| PortOf (camera : nat) (stream : Z)
| TrackProducer (track : nat)
| FscProducer (track : nat)
| FrcProducer (track : nat)
| RescalerProducer (rescaler : nat).

(** The consumers by their addresses. *)
Definition FscConsumer (track : nat) : Z := 4 * Z.of_nat track + 1.
Definition FrcConsumer (track : nat) : Z := 4 * Z.of_nat track + 2.
Definition TrackConsumer (track : nat) : Z := 4 * Z.of_nat track + 3.
Definition RescalerConsumer (rescaler : nat) : Z := 4 * Z.of_nat rescaler + 4.

(** A [TrackSource]: the flow of its frames, and what it is tied to. *)
Record TrackNode := mkTrackNode {
  track_params_ : VideoTrackParams;
  flow : TrackSource;
  camera_interface_ : nat;
  slave_track_source_ : bool;
  master_track_ : option nat;
  rescaler_at : option nat;
  fsc_ : FrameRateController;
  frc_ : FrameRateController
}.

#[export] Instance settable_TrackNode : Settable TrackNode :=
  {| eta_expand := fun t => mkTrackNode (track_params_ t) (flow t) (camera_interface_ t) (slave_track_source_ t)
       (master_track_ t) (rescaler_at t) (fsc_ t) (frc_ t) |}.

(** What the platform says of a new rescaler: its allocator, whether that
    could be created, and whether the engine draws frames of a size and
    format. *)
Class RescalerPlatform (D : Type) := {
  new_device : D;
  allocator_created : bool;
  ValidateOutput : Z -> Z -> BufferFormat -> bool
}.

Section CameraSource.
Context {M K D : Type} `{CameraInterface M K} `{AllocDevice D} `{AllocUsage} `{HalPlatform} `{RgbPlatform} `{RescalerPlatform D} `{JpegPlatform}.

Abbreviation RescalerObject := (CameraRescaler D).

(** What the client of a capture is called with: the image, and the offsets
    and sizes of its planes. *)
Record Snapshot := mkSnapshot { sh_client : Z; sh_camera : Z; sh_count : Z; sh_buffer : BnBuffer; sh_planes : list Plane }.

Record CameraSource := mkCameraSource {
  cameras : list K;
  tracks : list TrackNode;
  rescalers : list (RescalerObject * option ResizerCrop);
  camera_map_ : gmap Z nat;
  track_sources_ : gmap Z nat;
  rescalers_ : gmap Z nat;
  start_cam_param_ : ExtraParam;
  client_snapshot_cb_ : option Z;
  producer_handles : gmap Z Producer;
  snapshots : list Snapshot
}.

#[export] Instance settable_CameraSource : Settable CameraSource :=
  {| eta_expand := fun s => mkCameraSource (cameras s) (tracks s) (rescalers s) (camera_map_ s) (track_sources_ s)
       (rescalers_ s) (start_cam_param_ s) (client_snapshot_cb_ s) (producer_handles s) (snapshots s) |}.

Definition CameraSource_new : CameraSource := mkCameraSource [] [] [] ∅ ∅ ∅ ExtraParam_new None ∅ [].

(** A method of an object in a heap. *)
Definition at_object {T A} (get : CameraSource -> list T) (set : list T -> CameraSource -> CameraSource) (i : nat) (m : ST T A)
    : ST CameraSource A := fun s =>
  match get s !! i with
  | None => None
  | Some t => match m t with None => None | Some (a, t') => Some (a, set (<[i := t']> (get s)) s) end
  end.

Definition on_camera {A} (k : nat) (m : ST K A) : ST CameraSource A :=
  at_object cameras (fun l s => s <| cameras := l |>) k m.

Definition on_node {A} (i : nat) (m : ST TrackNode A) : ST CameraSource A :=
  at_object tracks (fun l s => s <| tracks := l |>) i m.

Definition on_rescaler {A} (j : nat) (m : ST RescalerObject A) : ST CameraSource A :=
  at_object rescalers (fun l s => s <| rescalers := l |>) j (fun r =>
    match m (fst r) with None => None | Some (a, r') => Some (a, (r', snd r)) end).

Definition on_flow {A} (i : nat) (m : ST TrackSource A) : ST CameraSource A :=
  on_node i (fun t => match m (flow t) with None => None | Some (a, f) => Some (a, t <| flow := f |>) end).

Definition on_fsc {A} (i : nat) (m : ST FrameRateController A) : ST CameraSource A :=
  on_node i (fun t => match m (fsc_ t) with None => None | Some (a, c) => Some (a, t <| fsc_ := c |>) end).

Definition on_frc {A} (i : nat) (m : ST FrameRateController A) : ST CameraSource A :=
  on_node i (fun t => match m (frc_ t) with None => None | Some (a, c) => Some (a, t <| frc_ := c |>) end).

Definition node (i : nat) : ST CameraSource TrackNode := on_node i (gets id).

(** [assert(ret == NO_ERROR)]. *)
Definition must (m : ST CameraSource Z) : ST CameraSource unit :=
  let* r := m in if r =? NO_ERROR then ret tt else undefined.

(** A consumer that has been added knows whom to return its buffers. *)
Definition connect (consumer : Z) (p : Producer) (m : ST CameraSource Z) : ST CameraSource Z :=
  let* r := m in
  do* (if r =? NO_ERROR then modify (fun s => s <| producer_handles := <[consumer := p]> (producer_handles s) |>) else ret tt) in
  ret r.

(** [AddConsumer] and [RemoveConsumer] of the stages. *)
Definition add_to_fsc (i : nat) (consumer : Z) : ST CameraSource Z :=
  connect consumer (FscProducer i) (on_fsc i (pure_step (frc_AddConsumer consumer))).
Definition add_to_frc (i : nat) (consumer : Z) : ST CameraSource Z :=
  connect consumer (FrcProducer i) (on_frc i (pure_step (frc_AddConsumer consumer))).
Definition add_to_track (i : nat) (consumer : Z) : ST CameraSource Z :=
  connect consumer (TrackProducer i) (on_flow i (Track.AddConsumer consumer)).
Definition add_to_rescaler (j : nat) (consumer : Z) : ST CameraSource Z :=
  connect consumer (RescalerProducer j) (on_rescaler j (Rescaler.AddConsumer consumer)).
Definition add_to_camera (k : nat) (id consumer : Z) : ST CameraSource Z :=
  connect consumer (PortOf k id) (on_camera k (ci_AddConsumer id consumer)).
Definition remove_from_fsc (i : nat) (consumer : Z) : ST CameraSource Z := on_fsc i (pure_step (frc_RemoveConsumer consumer)).
Definition remove_from_frc (i : nat) (consumer : Z) : ST CameraSource Z := on_frc i (pure_step (frc_RemoveConsumer consumer)).
Definition remove_from_track (i : nat) (consumer : Z) : ST CameraSource Z := on_flow i (Track.RemoveConsumer consumer).
Definition remove_from_rescaler (j : nat) (consumer : Z) : ST CameraSource Z := on_rescaler j (Rescaler.RemoveConsumer consumer).
Definition remove_from_camera (k : nat) (id consumer : Z) : ST CameraSource Z := on_camera k (ci_RemoveConsumer id consumer).

(** ** Tracks *)

(** [None]: the interval of the frames is not finite. *)
Definition new_track (p : VideoTrackParams) (camera : nat) : option TrackNode :=
  match timelapse_of (extra_param p) with
  | None => None
  | Some timelapse =>
      match SetFrameRate (vt_frame_rate (params p)) FrameRateController_new with
      | None => None
      | Some (_, c) => Some (mkTrackNode p (TrackSource_new (vt_format_type (params p)) timelapse) camera false None None c c)
      end
  end.

Definition InitCopy (i master : nat) (rescaler : option nat) : ST CameraSource Z :=
  do* on_node i (modify (fun t => t <| master_track_ := Some master |> <| slave_track_source_ := true |>
        <| rescaler_at := match rescaler with Some _ => rescaler | None => rescaler_at t end |>
        <| flow := match rescaler with Some _ => (flow t) <| Track.rescaler_ := true |> | None => flow t end |>)) in
  ret NO_ERROR.

Definition Init (i : nat) : ST CameraSource Z :=
  do* on_node i (modify (fun t => t <| slave_track_source_ := false |> <| rescaler_at := None |>
        <| flow := (flow t) <| Track.rescaler_ := false |> |> <| master_track_ := None |>)) in
  let* t := node i in
  match stream_param (track_params_ t) with
  | None => undefined
  | Some p =>
      let* r := on_camera (camera_interface_ t) (ci_CreateStream p (extra_param (track_params_ t))) in
      if negb (r =? NO_ERROR) then ret BAD_VALUE else ret r
  end.

Definition TrackId (t : TrackNode) : Z := track_id (track_params_ t).

Definition DeInit (i : nat) : ST CameraSource Z :=
  let* t := node i in
  do* (if slave_track_source_ t then ret tt else must (on_camera (camera_interface_ t) (ci_DeleteStream (TrackId t)))) in
  do* on_node i (modify (fun t => t <| rescaler_at := None |> <| flow := (flow t) <| Track.rescaler_ := false |> |>)) in
  ret NO_ERROR.

(** The track that the frames are copied from. *)
Definition master_of (t : TrackNode) : ST CameraSource nat :=
  match master_track_ t with Some m => ret m | None => undefined end.

(** The stages are tied together from the client's end to the camera. *)
Definition wire (i : nat) : ST CameraSource unit :=
  do* must (add_to_frc i (TrackConsumer i)) in
  let* t := node i in
  let consumer := FrcConsumer i in
  do* (match rescaler_at t with
       | Some j =>
           let* m := master_of t in
           do* must (add_to_track m (FscConsumer i)) in
           do* must (add_to_fsc i (RescalerConsumer j)) in
           must (add_to_rescaler j consumer)
       | None =>
           if slave_track_source_ t then
             let* m := master_of t in
             do* must (add_to_track m (FscConsumer i)) in
             must (add_to_fsc i consumer)
           else ret tt
       end) in
  if slave_track_source_ t then ret tt
  else
    do* must (add_to_camera (camera_interface_ t) (TrackId t) (FscConsumer i)) in
    do* must (add_to_fsc i consumer) in
    must (on_camera (camera_interface_ t) (ci_StartStream (TrackId t))).

Definition StartTrack (i : nat) : ST CameraSource Z :=
  do* on_flow i (modify (fun f => f <| Track.is_stop_ := false |> <| eos_acked_ := false |>)) in
  do* wire i in
  let* t := node i in
  do* (match rescaler_at t with Some j => must (on_rescaler j Rescaler.Start) | None => ret tt end) in
  do* must (on_fsc i (pure_step FrameRate.Start)) in
  do* must (on_frc i (pure_step FrameRate.Start)) in
  ret NO_ERROR.

(** What happens during the waits of a track that stops: each wake-up comes
    with its result. *)
Record StopWaits := mkStopWaits {
  frc_waits : list (CameraSource -> Z * CameraSource);
  fsc_waits : list (CameraSource -> Z * CameraSource);
  rescaler_during : CameraSource -> CameraSource;
  idle_waits : list (CameraSource -> Z * CameraSource)
}.

(** [CheckAndWaitPendingBuffers] of the producer that [get] finds: others go
    on meanwhile. *)
Fixpoint settle (get : TrackNode -> FrameRateController) (i : nat) (ws : list (CameraSource -> Z * CameraSource))
    : ST CameraSource Z := fun s =>
  match tracks s !! i with
  | None => None
  | Some t =>
      if bool_decide (buffers_ (buffer_producer_ (get t)) = ∅) then Some (0, s)
      else
        match ws with
        | [] => None
        | w :: ws' => let '(r, s') := w s in if r =? 0 then settle get i ws' s' else Some (- ETIMEDOUT, s')
        end
  end.

(** [FrameRateController::Stop] once the wait is over. *)
Definition stopped (r : Z) (c : FrameRateController) : Z * FrameRateController :=
  (if r =? - ETIMEDOUT then r else 0, reset_frames (c <| active_ := false |>)).

Definition stop_frc (ws : list (CameraSource -> Z * CameraSource)) (i : nat) : ST CameraSource Z :=
  let* t := node i in
  if negb (active_ (frc_ t)) then ret (- EALREADY)
  else let* r := settle frc_ i ws in on_frc i (pure_step (stopped r)).

Definition stop_fsc (ws : list (CameraSource -> Z * CameraSource)) (i : nat) : ST CameraSource Z :=
  let* t := node i in
  if negb (active_ (fsc_ t)) then ret (- EALREADY)
  else let* r := settle fsc_ i ws in on_fsc i (pure_step (stopped r)).

(** [CameraRescaler::Stop]: others go on until its thread has ended. *)
Definition stop_rescaler (during : CameraSource -> CameraSource) (j : nat) : ST CameraSource Z :=
  do* on_rescaler j (modify (fun r => r <| Rescaler.is_stop_ := true |>)) in
  let* r := on_rescaler j (gets id) in
  do* (if thread_ r then
         do* on_rescaler j (modify (fun r => r <| abort_ := true |>)) in
         do* modify during in
         on_rescaler j (modify (fun r => r <| running_ := false |> <| thread_ := false |>))
       else ret tt) in
  do* on_rescaler j UnMapBufs in
  ret NO_ERROR.

(** The stages stop from the client's end to the camera and are taken
    apart. *)
Definition unwire (w : StopWaits) (i : nat) : ST CameraSource unit :=
  do* must (stop_frc (frc_waits w) i) in
  do* must (stop_fsc (fsc_waits w) i) in
  let* t := node i in
  do* (match rescaler_at t with Some j => must (stop_rescaler (rescaler_during w) j) | None => ret tt end) in
  let consumer := FrcConsumer i in
  do* (if slave_track_source_ t then ret tt
       else
         do* must (on_camera (camera_interface_ t) (ci_StopStream (TrackId t))) in
         do* must (remove_from_fsc i consumer) in
         must (remove_from_camera (camera_interface_ t) (TrackId t) (FscConsumer i))) in
  do* (match rescaler_at t with
       | Some j =>
           do* must (remove_from_rescaler j consumer) in
           do* must (remove_from_fsc i (RescalerConsumer j)) in
           let* m := master_of t in
           must (remove_from_track m (FscConsumer i))
       | None =>
           if slave_track_source_ t then
             do* must (remove_from_fsc i consumer) in
             let* m := master_of t in
             must (remove_from_track m (FscConsumer i))
           else ret tt
       end) in
  must (remove_from_frc i (TrackConsumer i)).

Fixpoint wait_idle (i : nat) (ws : list (CameraSource -> Z * CameraSource)) : ST CameraSource Z := fun s =>
  match tracks s !! i with
  | None => None
  | Some t =>
      if is_idle_ (flow t) then Some (NO_ERROR, s)
      else
        match ws with
        | [] => None
        | w :: ws' => let '(r, s') := w s in if r =? 0 then wait_idle i ws' s' else Some (TIMED_OUT, s')
        end
  end.

Definition StopTrack (w : StopWaits) (i : nat) : ST CameraSource Z :=
  do* on_flow i (modify (fun f => f <| is_paused_ := false |>)) in
  let* t := node i in
  if Track.is_stop_ (flow t) then ret NO_ERROR
  else
    do* on_flow i (modify (fun f => f <| Track.is_stop_ := true |>)) in
    do* (if is_raw (format_type (flow t)) then unwire w i else ret tt) in
    wait_idle i (idle_waits w).

Definition PauseTrack (i : nat) : ST CameraSource Z :=
  do* on_flow i (modify (fun f => f <| is_paused_ := true |>)) in
  let* t := node i in
  do* (if slave_track_source_ t then ret tt else must (on_camera (camera_interface_ t) (ci_PauseStream (TrackId t)))) in
  do* on_flow i (modify (fun f => f <| is_idle_ := true |>)) in
  ret NO_ERROR.

Definition ResumeTrack (i : nat) : ST CameraSource Z :=
  do* on_flow i (modify (fun f => f <| is_paused_ := false |>)) in
  let* t := node i in
  do* must (on_camera (camera_interface_ t) (ci_ResumeStream (TrackId t))) in
  do* on_flow i (modify (fun f => f <| is_idle_ := false |>)) in
  ret NO_ERROR.

(** [NotifyPortEvent]. *)
Inductive CodecPortStatus := kPortStart | kPortStop | kPortIdle.

Definition NotifyPortEvent (w : StopWaits) (i : nat) (status : CodecPortStatus) : ST CameraSource Z :=
  do* (match status with
       | kPortStop => on_flow i port_stopped
       | kPortIdle =>
           do* on_flow i port_idle_frames in
           do* unwire w i in
           on_flow i port_idle_end
       | kPortStart => on_flow i port_started
       end) in
  ret NO_ERROR.

(** Rates that differ by more than a tenth. *)
Definition rates_differ (a b : float32) : bool := SFltb f32_tenth (SFabs (f32_sub a b)).

Definition UpdateFrameRate (i : nat) (fps : float32) : ST CameraSource unit :=
  if negb (SFltb (S754_zero false) fps) then undefined
  else
    let* t := node i in
    if rates_differ (vt_frame_rate (params (track_params_ t))) fps then
      let* r := on_fsc i (SetFrameRate fps) in
      let* r := on_frc i (SetFrameRate fps) in
      on_node i (modify (fun t => t <| track_params_ := (track_params_ t) <| params :=
        let p := params (track_params_ t) in
        mkVideoParam (vt_camera_id p) (vt_width p) (vt_height p) fps (vt_format_type p) (vt_slice_enabled p) |> |>))
    else ret tt.

Definition EnableFrameRepeat (i : nat) (enable : bool) : ST CameraSource unit :=
  do* on_flow i (Track.EnableFrameRepeat enable) in
  on_frc i (modify (FrameRate.EnableFrameRepeat enable)).

(** ** The operations of the service *)

Definition with_camera {A} (camera_id : Z) (fail : A) (m : nat -> ST CameraSource A) : ST CameraSource A :=
  let* s := gets id in
  match camera_map_ s !! camera_id with Some k => m k | None => ret fail end.

Definition with_track {A} (track : Z) (fail : A) (m : nat -> ST CameraSource A) : ST CameraSource A :=
  let* s := gets id in
  match track_sources_ s !! track with Some i => m i | None => ret fail end.

Definition IsTrackIdValid (track : Z) (s : CameraSource) : bool := bool_decide (is_Some (track_sources_ s !! track)).

(** An operation of a camera that is passed on. *)
Definition pass_to_camera (camera_id : Z) (m : ST K Z) : ST CameraSource Z :=
  with_camera camera_id BAD_VALUE (fun k => on_camera k m).

Definition SetFlushCb (camera_id : Z) : ST CameraSource Z :=
  with_camera camera_id BAD_VALUE (fun k => do* on_camera k ci_SetFlushCb in ret NO_ERROR).

Definition FlushTrack (track : Z) : ST CameraSource Z :=
  with_track track NAME_NOT_FOUND (fun i => do* on_flow i ClearInputQueue in ret NO_ERROR).

Definition StartCamera (camera_id : Z) (fps : float32) (x : ExtraParam) (results : bool) : ST CameraSource Z :=
  let* s := gets id in
  if bool_decide (is_Some (camera_map_ s !! camera_id)) then ret BAD_VALUE
  else
    let k := length (cameras s) in
    match extra_copy x with
    | None => undefined
    | Some copy =>
        do* modify (fun s => s <| cameras := cameras s ++ [ci_new] |> <| camera_map_ := <[camera_id := k]> (camera_map_ s) |>
                               <| start_cam_param_ := copy |>) in
        let* r := on_camera k (ci_OpenCamera camera_id fps x results) in
        if negb (r =? NO_ERROR) then
          do* modify (fun s => s <| camera_map_ := delete camera_id (camera_map_ s) |>) in ret r
        else ret NO_ERROR
    end.

Definition FAILED_TRANSACTION : Z := -2147483646.

Definition StopCamera (camera_id : Z) : ST CameraSource Z :=
  with_camera camera_id BAD_VALUE (fun k =>
    let* r := on_camera k (ci_CloseCamera camera_id) in
    if negb (r =? NO_ERROR) then ret FAILED_TRANSACTION
    else do* modify (fun s => s <| camera_map_ := delete camera_id (camera_map_ s) |>) in ret NO_ERROR).

Definition CaptureImage (camera_id num_images : Z) (meta : list M) (client : Z) : ST CameraSource Z :=
  with_camera camera_id BAD_VALUE (fun k =>
    do* modify (fun s => s <| client_snapshot_cb_ := Some client |>) in
    on_camera k (ci_CaptureImage num_images meta)).

Definition ConfigImageCapture (camera_id : Z) (p : ImageParam) (config : ExtraParam) : ST CameraSource Z :=
  with_camera camera_id BAD_VALUE (fun k =>
    let* r := on_camera k (ci_ConfigImageCapture config) in
    if negb (r =? NO_ERROR) then ret r
    else on_camera k (ci_SetUpCapture
           (mkSnapshotParam (img_width p) (img_height p) (image_quality p) (FromImageToQmmfFormat (image_format p))))).

Definition CancelCaptureImage (camera_id : Z) : ST CameraSource Z := pass_to_camera camera_id ci_CancelCaptureImage.

Definition ReturnAllImageCaptureBuffers (camera_id : Z) : ST CameraSource Z :=
  pass_to_camera camera_id ci_ReturnAllImageCaptureBuffers.

Definition ReturnImageCaptureBuffer (camera_id buffer : Z) : ST CameraSource Z :=
  pass_to_camera camera_id (ci_ReturnImageCaptureBuffer camera_id buffer).

Definition SetCameraParam (camera_id : Z) (meta : M) : ST CameraSource Z := pass_to_camera camera_id (ci_SetCameraParam meta).

Definition GetCameraParam (camera_id : Z) (meta : M) : ST CameraSource (Z * M) :=
  with_camera camera_id (BAD_VALUE, meta) (fun k => on_camera k (ci_GetCameraParam meta)).

Definition GetDefaultCaptureParam (camera_id : Z) (meta : M) : ST CameraSource (Z * M) :=
  with_camera camera_id (BAD_VALUE, meta) (fun k => on_camera k (ci_GetDefaultCaptureParam meta)).

Definition GetCameraCharacteristics (camera_id : Z) (meta : M) : ST CameraSource (Z * M) :=
  with_camera camera_id (BAD_VALUE, meta) (fun k => on_camera k (ci_GetCameraCharacteristics meta)).

(** The new rescaler of a track, or why there is none. *)
Definition new_rescaler (p : VideoTrackParams) : ST CameraSource (option nat) :=
  let* s := gets id in
  let j := length (rescalers s) in
  let c := params p in
  let fmt := FromVideoToQmmfFormat (vt_format_type c) in
  do* modify (fun s => s <| rescalers := rescalers s ++ [(CameraRescaler_new new_device, None)] |>) in
  let* r := on_rescaler j (Rescaler.Init (ValidateOutput (vt_width c) (vt_height c) fmt) allocator_created
                             (vt_width c) (vt_height c) fmt (start_cam_param_ s)) in
  if negb (r =? NO_ERROR) then ret None
  else
    match GetRescalerConfig (extra_param p) with
    | None => undefined
    | Some crop =>
        do* at_object rescalers (fun l s => s <| rescalers := l |>) j (modify (fun r => (fst r, crop))) in
        do* modify (fun s => s <| rescalers_ := if bool_decide (is_Some (rescalers_ s !! (track_id p))) then rescalers_ s
                                                 else <[(track_id p) := j]> (rescalers_ s) |>) in
        ret (Some j)
    end.

(** The track whose frames are copied, if the parameters allow it. *)
Definition find_master (p : VideoTrackParams) : ST CameraSource (option (nat * bool)) :=
  match GetSourceTrackId (extra_param p) with
  | None => undefined
  | Some source =>
      if source =? NAME_NOT_FOUND then ret None
      else
        with_track (u32 source) None (fun m =>
          let* t := node m in
          let master := params (track_params_ t) in
          if ValidateSlaveTrackParam (params p) master
          then ret (Some (m, CheckLinkedStream (params p) master)) else ret None)
  end.

Definition source_exists (p : VideoTrackParams) (s : CameraSource) : bool :=
  match GetSourceTrackId (extra_param p) with
  | Some source => (source =? NAME_NOT_FOUND) || IsTrackIdValid (u32 source) s
  | None => false
  end.

Definition add_track (track : Z) (i : nat) (r : Z) : ST CameraSource Z :=
  do* modify (fun s => s <| track_sources_ := if bool_decide (is_Some (track_sources_ s !! track)) then track_sources_ s
                                              else <[track := i]> (track_sources_ s) |>) in
  ret r.

Definition CreateTrackSource (track : Z) (p : VideoTrackParams) : ST CameraSource Z :=
  with_camera (vt_camera_id (params p)) BAD_VALUE (fun k =>
    let* s := gets id in
    if negb (source_exists p s) then undefined
    else
      let* master := find_master p in
      match new_track p k with
      | None => undefined
      | Some t =>
          let* s := gets id in
          let i := length (tracks s) in
          do* modify (fun s => s <| tracks := tracks s ++ [t] |>) in
          match master with
          | Some (m, true) => let* r := InitCopy i m None in add_track track i r
          | Some (m, false) =>
              let* j := new_rescaler p in
              match j with
              | None => ret BAD_VALUE
              | Some j => let* r := InitCopy i m (Some j) in add_track track i r
              end
          | None =>
              if bool_decide (vt_format_type (params p) = Video.kRGB) then ret NO_ERROR
              else
                let* r := Init i in
                if negb (r =? NO_ERROR) then ret r else add_track track i r
          end
      end).

Definition DeleteTrackSource (track : Z) : ST CameraSource Z :=
  with_track track BAD_VALUE (fun i =>
    do* must (DeInit i) in
    do* modify (fun s => s <| track_sources_ := delete track (track_sources_ s) |>
                           <| rescalers_ := delete track (rescalers_ s) |>) in
    ret NO_ERROR).

(** An operation of a track that must succeed. *)
Definition on_track (track : Z) (m : nat -> ST CameraSource Z) : ST CameraSource Z :=
  with_track track BAD_VALUE (fun i => do* must (m i) in ret NO_ERROR).

Definition StartTrackSource (track : Z) : ST CameraSource Z := on_track track StartTrack.
Definition FlushTrackSource (track : Z) : ST CameraSource Z := on_track track (fun i => on_flow i Track.Flush).
Definition StopTrackSource (w : StopWaits) (track : Z) : ST CameraSource Z := on_track track (StopTrack w).
Definition PauseTrackSource (track : Z) : ST CameraSource Z := on_track track PauseTrack.
Definition ResumeTrackSource (track : Z) : ST CameraSource Z := on_track track ResumeTrack.

Definition ReturnTrackBuffer (track : Z) (buffers : list BnBuffer) : ST CameraSource Z :=
  on_track track (fun i => on_flow i (Track.ReturnTrackBuffer (map ion_fd buffers))).

Definition UpdateTrackFrameRate (track : Z) (fps : float32) : ST CameraSource Z :=
  with_track track BAD_VALUE (fun i => do* UpdateFrameRate i fps in ret NO_ERROR).

Definition EnableTrackFrameRepeat (track : Z) (enable : bool) : ST CameraSource Z :=
  with_track track BAD_VALUE (fun i => do* EnableFrameRepeat i enable in ret NO_ERROR).

Definition GetTrackSource (track : Z) (s : CameraSource) : option TrackNode :=
  match track_sources_ s !! track with Some i => tracks s !! i | None => None end.

(** [img]: the bytes of the buffer, for an image. *)
Definition SnapshotCallback (camera_id count : Z) (second_thumb : bool) (img : list Z) (b : StreamBuffer) : ST CameraSource unit :=
  match sb_info b with
  | None => undefined
  | Some info =>
      let plane0 := nth 0 (bm_planes info) (mkPlane 0 0 0 0 0 0) in
      let planes := map (fun p => (pl_offset p, pl_size p)) (bm_planes info) in
      let call width height size planes : ST CameraSource unit :=
        let* s := gets id in
        match client_snapshot_cb_ s with
        | None => undefined
        | Some client =>
            let bn := mkBnBuffer (sb_fd b) (default (-1) (sb_metafd b)) size (sb_timestamp b) width height (u32 (sb_fd b)) 0
                        (sb_size b) in
            modify (fun s => s <| snapshots := snapshots s ++ [mkSnapshot client camera_id count bn planes] |>)
        end in
      match bm_format info with
      | kNV12 | kNV21 | kNV16 | kRAW8 | kRAW10 | kRAW12 | kRAW16 => call (pl_width plane0) (pl_height plane0) (sb_size b) planes
      | kBLOB =>
          if negb (0 <? bm_num_planes info) then undefined
          else
            match GetJpegSize img (pl_size plane0) with
            | None => undefined
            | Some size =>
                if negb (0 <? size) then undefined
                else if second_thumb then
                  match ParseThumb img size with
                  | Some (Planes ps) => call (u32 (-1)) (u32 (-1)) size ps
                  | Some BadThumb => call (u32 (-1)) (u32 (-1)) size planes
                  | _ => undefined
                  end
                else call (u32 (-1)) (u32 (-1)) size planes
            end
      | _ => undefined
      end
  end.
End CameraSource.
