(* ===== verification/SimpleDevice.v ===== *)
(** * A camera to try the camera source with

    An instance of [CameraInterface], small enough to compute with: streams
    are created, wired and deleted, and nothing else fails.  The metadata is
    a number. *)

From S2P Require Import Prelude KeyedVector Floats Monitor Memory Stream ExtraParam Rescaler Track RecorderTypes Thumbnail CameraInterface CameraSource.

(** The streams. *)
Definition SimpleDevice : Type := kv StreamWires.

Definition simple_ok : ST SimpleDevice Z := ret NO_ERROR.

Definition on_stream (stream : Z) (f : StreamWires -> option StreamWires) : ST SimpleDevice Z := fun d =>
  match edit_stream stream f d with None => Some (BAD_VALUE, d) | Some d' => Some (NO_ERROR, d') end.

#[export] Instance simple_device : CameraInterface Z SimpleDevice := {
  ci_new := [];
  ci_OpenCamera _ _ _ _ := simple_ok;
  ci_CloseCamera _ := simple_ok;
  ci_SetUpCapture _ := simple_ok;
  ci_CaptureImage _ _ := simple_ok;
  ci_ConfigImageCapture _ := simple_ok;
  ci_CancelCaptureImage := simple_ok;
  ci_CreateStream p _ := do* modify (kv_add (sp_id p) ([], false)) in ret NO_ERROR;
  ci_DeleteStream id := do* modify (kv_remove id) in ret NO_ERROR;
  ci_AddConsumer id c := on_stream id (join_stream c);
  ci_RemoveConsumer id c := on_stream id (leave_stream c);
  ci_StartStream id := on_stream id (switch_stream true);
  ci_StopStream id := on_stream id (switch_stream false);
  ci_PauseStream id := on_stream id Some;
  ci_ResumeStream id := on_stream id Some;
  ci_SetCameraParam _ := simple_ok;
  ci_GetCameraParam m := ret (NO_ERROR, m);
  ci_GetDefaultCaptureParam m := ret (NO_ERROR, m);
  ci_GetCameraCharacteristics m := ret (NO_ERROR, m);
  ci_ReturnAllImageCaptureBuffers := simple_ok;
  ci_ReturnImageCaptureBuffer _ _ := simple_ok;
  ci_SetFlushCb := ret tt
}.

Lemma on_stream_ok stream f d d' : on_stream stream f d = Some (NO_ERROR, d') -> edit_stream stream f d = Some d'.
Proof. unfold on_stream. destruct (edit_stream stream f d); by intros [= <-]. Qed.

#[export] Instance simple_wires : CameraWires Z SimpleDevice :=
  {| camera_wires d := d; wires_AddConsumer id c := on_stream_ok id _; wires_RemoveConsumer id c := on_stream_ok id _;
     wires_StartStream id := on_stream_ok id _; wires_StopStream id := on_stream_ok id _ |}.

#[export] Instance simple_rescaler : RescalerPlatform ListDevice :=
  {| new_device := []; allocator_created := true; ValidateOutput _ _ _ := true |}.

#[export] Instance simple_jpeg : JpegPlatform := {| CAMERA3_JPEG_BLOB_ID := 255; JPEG_BLOB_OFFSET := 1 |}.

(** A raw track of camera 0, copies of it of another size and of the same
    one, and the state with all three and the camera open. *)
Definition source_param (track : Z) : ExtraParam :=
  match Update QMMF_SOURCE_VIDEO_TRACK_ID (bytes32 QMMF_SOURCE_VIDEO_TRACK_ID ++ bytes32 track) 0 ExtraParam_new with
  | Some (_, x) => x
  | None => ExtraParam_new
  end.

Definition raw_param (width height : Z) : VideoTrackCreateParam := mkVideoParam 0 width height (f32_of_Z 30) Video.kNV12 false.

Definition three_tracks : ST (CameraSource (K := SimpleDevice) (D := ListDevice)) Z :=
  let* r := StartCamera 0 (f32_of_Z 30) ExtraParam_new false in
  let* r := CreateTrackSource 1 (mkVideoTrack (raw_param 1920 1080) ExtraParam_new 1 (1, 1, 1)) in
  let* r := CreateTrackSource 2 (mkVideoTrack (raw_param 1280 720) (source_param 1) 2 (1, 1, 2)) in
  CreateTrackSource 3 (mkVideoTrack (raw_param 1920 1080) (source_param 1) 3 (1, 1, 3)).

Definition demo_source : CameraSource (K := SimpleDevice) (D := ListDevice) :=
  match three_tracks CameraSource_new with Some (_, s) => s | None => CameraSource_new end.
