(* ===== verification/CameraSourceLaws.v ===== *)
(** * The camera source keeps its promises to the recorder

    [CameraSource] implements the interface of [RecorderTypes], and its
    [camera_map_] holds the cameras that are open: what the recorder relies
    on, and so its theorems, hold of it. *)

From S2P Require Import Prelude KeyedVector Floats Monitor Memory Stream ExtraParam BufferProducer FrameRate Rescaler Track RecorderTypes Thumbnail CameraInterface CameraSource.

Section Laws.
Context {M K D : Type} `{CameraInterface M K} `{AllocDevice D} `{AllocUsage} `{HalPlatform} `{RgbPlatform} `{RescalerPlatform D} `{JpegPlatform}.

Abbreviation Source := (CameraSource (K := K) (D := D)).

(** What happens while a track stops. *)
Context (waits : StopWaits (K := K) (D := D)).

#[export] Instance camera_source_ops : CameraSourceOps M Source := {
  cs_new := CameraSource_new;
  cs_StartCamera := StartCamera;
  cs_StopCamera := StopCamera;
  cs_SetFlushCb := SetFlushCb;
  cs_FlushTrack := FlushTrack;
  cs_CaptureImage := CaptureImage;
  cs_ConfigImageCapture := ConfigImageCapture;
  cs_CancelCaptureImage := CancelCaptureImage;
  cs_ReturnAllImageCaptureBuffers := ReturnAllImageCaptureBuffers;
  cs_ReturnImageCaptureBuffer := ReturnImageCaptureBuffer;
  cs_CreateTrackSource := CreateTrackSource;
  cs_DeleteTrackSource := DeleteTrackSource;
  cs_StartTrackSource := StartTrackSource;
  cs_FlushTrackSource := FlushTrackSource;
  cs_StopTrackSource := StopTrackSource waits;
  cs_PauseTrackSource := PauseTrackSource;
  cs_ResumeTrackSource := ResumeTrackSource;
  cs_ReturnTrackBuffer := ReturnTrackBuffer;
  cs_SetCameraParam := SetCameraParam;
  cs_GetCameraParam := GetCameraParam;
  cs_GetDefaultCaptureParam := GetDefaultCaptureParam;
  cs_GetCameraCharacteristics := GetCameraCharacteristics;
  cs_UpdateTrackFrameRate := UpdateTrackFrameRate;
  cs_EnableFrameRepeat := EnableTrackFrameRepeat;
  cs_GetTrackSource := fun t c => track_params_ <$> GetTrackSource t c
}.

Definition open_cameras (s : Source) : gset Z := dom (camera_map_ s).

(** ** What leaves the cameras alone *)

Definition same_map (m : gmap Z nat) (s : Source) : Prop := camera_map_ s = m.

Abbreviation keeps m := (preserves (same_map m)).

Context (waits_keep : forall g m s, (g ∈ frc_waits waits \/ g ∈ fsc_waits waits \/ g ∈ idle_waits waits) ->
  same_map m s -> same_map m (snd (g s))).
Context (rescaler_keeps : forall m s, same_map m s -> same_map m (rescaler_during waits s)).

Lemma at_object_keeps {T A} (get : Source -> list T) set i (f : ST T A) m :
  (forall l s, same_map m s -> same_map m (set l s)) -> keeps m (at_object get set i f).
Proof.
  intros Hset s Hs. unfold at_object. destruct (get s !! i) as [t|]; [|done]. destruct (f t) as [[a t']|]; [|done]. by apply Hset.
Qed.

Lemma on_camera_keeps {A} k (f : ST K A) m : keeps m (on_camera k f).
Proof. by apply at_object_keeps. Qed.
Lemma on_node_keeps {A} i (f : ST TrackNode A) m : keeps m (on_node i f).
Proof. by apply at_object_keeps. Qed.
Lemma on_rescaler_keeps {A} j (f : ST (CameraRescaler D) A) m : keeps m (on_rescaler j f).
Proof. by apply at_object_keeps. Qed.
Lemma on_flow_keeps {A} i (f : ST TrackSource A) m : keeps m (on_flow i f).
Proof. by apply at_object_keeps. Qed.
Lemma on_fsc_keeps {A} i (f : ST FrameRateController A) m : keeps m (on_fsc i f).
Proof. by apply at_object_keeps. Qed.
Lemma on_frc_keeps {A} i (f : ST FrameRateController A) m : keeps m (on_frc i f).
Proof. by apply at_object_keeps. Qed.

Lemma modify_keeps f m : (forall s, camera_map_ (f s) = camera_map_ s) -> keeps m (modify f : ST Source unit).
Proof. intros Hf s Hs. unfold same_map, modify in *. simpl. by rewrite Hf. Qed.

Ltac source_keeps := repeat first
  [ preserve_step
  | apply on_camera_keeps | apply on_flow_keeps | apply on_fsc_keeps | apply on_frc_keeps | apply on_rescaler_keeps
  | apply on_node_keeps | apply at_object_keeps; by intros
  | apply modify_keeps; by intros
  | solve [auto with source] ].

Create HintDb source.

Lemma must_keeps m (f : ST Source Z) : keeps m f -> keeps m (must f).
Proof. intros Hf. unfold must. source_keeps; auto. Qed.

Lemma connect_keeps m c p (f : ST Source Z) : keeps m f -> keeps m (connect c p f).
Proof. intros Hf. unfold connect. source_keeps; auto. Qed.

Ltac stage_keeps := unfold node, master_of; repeat first [progress source_keeps | apply must_keeps | apply connect_keeps].

Lemma wire_keeps m i : keeps m (wire i).
Proof. unfold wire, add_to_frc, add_to_fsc, add_to_track, add_to_rescaler, add_to_camera. stage_keeps. Qed.
Hint Resolve wire_keeps : source.

Lemma StartTrack_keeps m i : keeps m (StartTrack i).
Proof. unfold StartTrack. stage_keeps. Qed.

Lemma settle_keeps m get i ws : (forall g, g ∈ ws -> forall s, same_map m s -> same_map m (snd (g s))) -> keeps m (settle get i ws).
Proof.
  induction ws as [|w ws IH]; intros Hws s Hs; simpl; (destruct (tracks s !! i) as [t|]; [|done]);
    (case_bool_decide; [done|]); [done|].
  pose proof (Hws w ltac:(by left) s Hs) as Hw. destruct (w s) as [r s1]. destruct (r =? 0); [|done].
  apply (IH (fun g Hg => Hws g (list_elem_of_further _ _ _ Hg)) s1 Hw).
Qed.

Lemma wait_idle_keeps m i ws : (forall g, g ∈ ws -> forall s, same_map m s -> same_map m (snd (g s))) -> keeps m (wait_idle i ws).
Proof.
  induction ws as [|w ws IH]; intros Hws s Hs; simpl; (destruct (tracks s !! i) as [t|]; [|done]);
    (destruct (is_idle_ (flow t)); [done|]); [done|].
  pose proof (Hws w ltac:(by left) s Hs) as Hw. destruct (w s) as [r s1]. destruct (r =? 0); [|done].
  apply (IH (fun g Hg => Hws g (list_elem_of_further _ _ _ Hg)) s1 Hw).
Qed.

Lemma unwire_keeps m i : keeps m (unwire waits i).
Proof.
  unfold unwire, stop_frc, stop_fsc, stop_rescaler, remove_from_frc, remove_from_fsc, remove_from_track, remove_from_rescaler,
    remove_from_camera. stage_keeps.
  all: try (apply settle_keeps; intros; apply waits_keep; eauto).
  intros s Hs. unfold modify. by apply rescaler_keeps.
Qed.
Hint Resolve unwire_keeps : source.

Lemma StopTrack_keeps m i : keeps m (StopTrack waits i).
Proof.
  unfold StopTrack. stage_keeps. apply wait_idle_keeps. intros g Hg s. apply waits_keep. auto.
Qed.

Lemma with_camera_keeps {A} m cam (r : A) f : (forall k, keeps m (f k)) -> keeps m (with_camera cam r f : ST Source A).
Proof. intros Hf. unfold with_camera. source_keeps; auto. Qed.

Lemma with_track_keeps {A} m t (r : A) f : (forall i, keeps m (f i)) -> keeps m (with_track t r f : ST Source A).
Proof. intros Hf. unfold with_track. source_keeps; auto. Qed.

Lemma on_track_keeps m t f : (forall i, keeps m (f i)) -> keeps m (on_track t f : ST Source Z).
Proof. intros Hf. unfold on_track. apply with_track_keeps. intros i. stage_keeps; auto. Qed.

Ltac op_keeps := repeat first
  [ apply with_camera_keeps; intros ? | apply with_track_keeps; intros ? | apply on_track_keeps; intros ? | progress stage_keeps ].

Lemma CreateTrackSource_keeps m t p : keeps m (CreateTrackSource t p : ST Source Z).
Proof.
  unfold CreateTrackSource, find_master, new_rescaler, InitCopy, Init, add_track. op_keeps.
Qed.

(** What [preserves] says of one run. *)
Lemma keeps_run {A} (f : ST Source A) s a s' : (forall m, keeps m f) -> f s = Some (a, s') -> camera_map_ s' = camera_map_ s.
Proof. intros Hf Hs. pose proof (Hf (camera_map_ s) s eq_refl) as Hk. by rewrite Hs in Hk. Qed.

Lemma open_same {A} (f : ST Source A) s a s' : (forall m, keeps m f) -> f s = Some (a, s') -> open_cameras s' = open_cameras s.
Proof. intros Hf Hs. unfold open_cameras. by rewrite (keeps_run f s a s' Hf Hs). Qed.

Lemma StartCamera_opens cam fps x results s r s' : StartCamera cam fps x results s = Some (r, s') ->
  (r = NO_ERROR /\ (cam ∉ open_cameras s) /\ open_cameras s' = {[cam]} ∪ open_cameras s) \/
  (r <> NO_ERROR /\ open_cameras s' = open_cameras s).
Proof.
  unfold StartCamera. rewrite bind_gets. unfold id. unfold open_cameras. case_bool_decide as Hin; [intros [= <- <-]; by right|].
  destruct (extra_copy x) as [copy|]; [|done]. unfold bind at 1, modify at 1.
  set (s1 := s <| cameras := _ |> <| camera_map_ := _ |> <| start_cam_param_ := _ |>). intros Hs.
  destruct (bind_some _ _ _ _ _ Hs) as (r1 & s2 & Ho & Hr). pose proof (keeps_run _ _ _ _ (fun m => on_camera_keeps _ _ m) Ho) as Hm.
  assert (cam ∉ dom (camera_map_ s)) as Hnot by (by rewrite elem_of_dom).
  destruct (Z.eqb_spec r1 NO_ERROR) as [->|Hne]; cbn [negb] in Hr.
  - injection Hr as <- <-. left. split_and!; [done|done|]. rewrite Hm. simpl. by rewrite dom_insert_L.
  - injection Hr as <- <-. right. split; [done|]. simpl. rewrite Hm. simpl. rewrite dom_delete_L, dom_insert_L. set_solver.
Qed.

Lemma StopCamera_closes cam s r s' : StopCamera cam s = Some (r, s') ->
  (r = NO_ERROR /\ open_cameras s' = open_cameras s ∖ {[cam]}) \/ (r <> NO_ERROR /\ open_cameras s' = open_cameras s).
Proof.
  unfold StopCamera, with_camera, open_cameras. rewrite bind_gets. unfold id.
  destruct (camera_map_ s !! cam) as [k|] eqn:Ek; [|intros [= <- <-]; by right]. intros Hs.
  destruct (bind_some _ _ _ _ _ Hs) as (r1 & s1 & Hc & Hr). pose proof (keeps_run _ _ _ _ (fun m => on_camera_keeps _ _ m) Hc) as Hm.
  destruct (Z.eqb_spec r1 NO_ERROR) as [->|Hne]; cbn [negb] in Hr; injection Hr as <- <-.
  - left. split; [done|]. simpl. by rewrite Hm, dom_delete_L.
  - right. split; [done|]. by rewrite Hm.
Qed.

Lemma SetFlushCb_opened cam s r s' : SetFlushCb cam s = Some (r, s') ->
  open_cameras s' = open_cameras s /\ (cam ∈ open_cameras s -> r = NO_ERROR).
Proof.
  intros Hs. split.
  - revert Hs. apply open_same. intros m. unfold SetFlushCb. op_keeps.
  - unfold open_cameras. rewrite elem_of_dom. intros [k Hk]. unfold SetFlushCb, with_camera in Hs. rewrite bind_gets in Hs. unfold id in Hs.
    rewrite Hk in Hs. destruct (bind_some _ _ _ _ _ Hs) as ([] & s1 & _ & Hr). by injection Hr as <- _.
Qed.

#[export] Instance camera_source_laws : CameraSourceLaws M Source.
Proof.
  refine {| opened := open_cameras |}; [done|exact StartCamera_opens|exact StopCamera_closes|exact SetFlushCb_opened|..].
  - intros t s r s' Hs. assert (exists f : ST Source Z, (forall m, keeps m f) /\ f s = Some (r, s')) as (f & Hf & Hr).
    { destruct Hs as [Hs|[Hs|[Hs|[Hs|[Hs|[Hs|Hs]]]]]]; (eexists; split; [|exact Hs]); intros m; simpl;
        unfold FlushTrack, DeleteTrackSource, DeInit, StartTrackSource, FlushTrackSource, StopTrackSource, PauseTrackSource,
          PauseTrack, ResumeTrackSource, ResumeTrack; op_keeps.
      - apply StartTrack_keeps.
      - apply StopTrack_keeps. }
    by apply (open_same f s r s').
  - intros t p s r s'. apply open_same. intros m. apply CreateTrackSource_keeps.
  - intros t bs s r s'. apply open_same. intros m. simpl. unfold ReturnTrackBuffer. op_keeps.
  - intros t fps s r s'. apply open_same. intros m. simpl. unfold UpdateTrackFrameRate, UpdateFrameRate. op_keeps.
  - intros t b s r s'. apply open_same. intros m. simpl. unfold EnableTrackFrameRepeat, EnableFrameRepeat. op_keeps.
  - intros cam n meta client s r s'. apply open_same. intros m. simpl. unfold CaptureImage. op_keeps.
  - intros cam p x s r s'. apply open_same. intros m. simpl. unfold ConfigImageCapture. op_keeps.
  - intros cam k s r s'. apply open_same. intros m. simpl. unfold ReturnImageCaptureBuffer, pass_to_camera. op_keeps.
  - intros cam s r s' [Hs|Hs]; revert Hs; apply open_same; intros m; simpl;
      unfold CancelCaptureImage, ReturnAllImageCaptureBuffers, pass_to_camera; op_keeps.
  - intros cam meta s r s'. apply open_same. intros m. simpl. unfold SetCameraParam, pass_to_camera. op_keeps.
  - intros cam meta s a s' [Hs|[Hs|Hs]]; revert Hs; apply open_same; intros m; simpl;
      unfold GetCameraParam, GetDefaultCaptureParam, GetCameraCharacteristics; op_keeps.
Defined.
End Laws.
