(* ===== verification/Wiring.v ===== *)
(** * How tracks are wired

    Theorems about [CameraSource]: what starting a track ties together, and
    that stopping it takes the same ties apart, those to the camera and the
    stream that it started there included, whatever frames have moved
    meanwhile.

    The wiring of a state is what is left when frames are forgotten.  The
    operations of the stages act on it as partial functions, and so do
    starting and stopping a track. *)

From S2P Require Import Prelude KeyedVector Floats Monitor Memory Stream ExtraParam BufferProducer FrameRate Rescaler Track RecorderTypes Thumbnail CameraInterface CameraSource SimpleDevice.

(** ** The wiring *)

(** The consumers of the stages of a track, and of its copies. *)
Record NodeWiring := mkNodeWiring {
  nw_fsc_active : bool; nw_fsc : kv unit; nw_frc_active : bool; nw_frc : kv unit; nw_copies : kv unit
}.

#[export] Instance settable_NodeWiring : Settable NodeWiring :=
  {| eta_expand := fun n => mkNodeWiring (nw_fsc_active n) (nw_fsc n) (nw_frc_active n) (nw_frc n) (nw_copies n) |}.

(** The stages of the tracks, the rescalers, and the streams of the cameras. *)
Record Wiring := mkWiring { w_nodes : list NodeWiring; w_rescalers : list (kv unit); w_cameras : list (kv StreamWires) }.

Definition edit {T} (i : nat) (g : T -> option T) (l : list T) : option (list T) :=
  match l !! i with
  | None => None
  | Some n => match g n with Some n' => Some (<[i := n']> l) | None => None end
  end.

Definition edit_node (i : nat) (g : NodeWiring -> option NodeWiring) (w : Wiring) : option Wiring :=
  match edit i g (w_nodes w) with Some l => Some (mkWiring l (w_rescalers w) (w_cameras w)) | None => None end.

Definition edit_rescaler (j : nat) (g : kv unit -> option (kv unit)) (w : Wiring) : option Wiring :=
  match edit j g (w_rescalers w) with Some l => Some (mkWiring (w_nodes w) l (w_cameras w)) | None => None end.

(** A stream of a camera. *)
Definition w_camera (k : nat) (id : Z) (g : StreamWires -> option StreamWires) (w : Wiring) : option Wiring :=
  match edit k (edit_stream id g) (w_cameras w) with Some l => Some (mkWiring (w_nodes w) (w_rescalers w) l) | None => None end.

(** A rate controller that runs cannot be changed. *)
Definition plug (active : bool) (c : Z) (m : kv unit) : option (kv unit) :=
  if active || (c =? 0) || kv_mem c m then None else Some (kv_add c tt m).
Definition unplug (active : bool) (c : Z) (m : kv unit) : option (kv unit) :=
  if active || (c =? 0) || negb (kv_mem c m) then None else Some (kv_remove c m).

(** The other producers take what they get. *)
Definition plug_any (c : Z) (m : kv unit) : option (kv unit) :=
  if c =? 0 then None else Some (if kv_mem c m then m else kv_add c tt m).
Definition unplug_any (c : Z) (m : kv unit) : option (kv unit) :=
  if u32 (Z.of_nat (length m)) =? 0 then None else Some (if kv_mem c m then kv_remove c m else m).

Definition w_fsc (i : nat) (f : bool -> kv unit -> option (kv unit)) : Wiring -> option Wiring :=
  edit_node i (fun n => (fun m => n <| nw_fsc := m |>) <$> f (nw_fsc_active n) (nw_fsc n)).
Definition w_frc (i : nat) (f : bool -> kv unit -> option (kv unit)) : Wiring -> option Wiring :=
  edit_node i (fun n => (fun m => n <| nw_frc := m |>) <$> f (nw_frc_active n) (nw_frc n)).
Definition w_copies (i : nat) (f : kv unit -> option (kv unit)) : Wiring -> option Wiring :=
  edit_node i (fun n => (fun m => n <| nw_copies := m |>) <$> f (nw_copies n)).

(** A controller starts or stops. *)
Definition w_switch_fsc (i : nat) (on : bool) : Wiring -> option Wiring :=
  edit_node i (fun n => if on && nw_fsc_active n then None else Some (n <| nw_fsc_active := on |>)).
Definition w_switch_frc (i : nat) (on : bool) : Wiring -> option Wiring :=
  edit_node i (fun n => if on && nw_frc_active n then None else Some (n <| nw_frc_active := on |>)).

Definition w_then (f g : Wiring -> option Wiring) (w : Wiring) : option Wiring :=
  match f w with Some w' => g w' | None => None end.

Infix ">>>" := w_then (at level 60, right associativity).

Definition w_id (w : Wiring) : option Wiring := Some w.

(** What a track is: one with a stream of a camera or a copy, of which track,
    and through which rescaler. *)
Abbreviation Role := (option (nat * Z) * option nat * option nat)%type.

(** The stages between the rate controllers, from the camera's end. *)
Definition w_plug_copy (i : nat) (role : Role) : Wiring -> option Wiring :=
  match role with
  | (_, Some m, Some j) =>
      w_copies m (plug_any (FscConsumer i)) >>> w_fsc i (fun a => plug a (RescalerConsumer j)) >>>
      edit_rescaler j (plug_any (FrcConsumer i))
  | (None, Some m, None) => w_copies m (plug_any (FscConsumer i)) >>> w_fsc i (fun a => plug a (FrcConsumer i))
  | (Some _, _, None) => w_id
  | (_, None, _) => fun _ => None
  end.

Definition w_unplug_copy (i : nat) (role : Role) : Wiring -> option Wiring :=
  match role with
  | (_, Some m, Some j) =>
      edit_rescaler j (unplug_any (FrcConsumer i)) >>> w_fsc i (fun a => unplug a (RescalerConsumer j)) >>>
      w_copies m (unplug_any (FscConsumer i))
  | (None, Some m, None) => w_fsc i (fun a => unplug a (FrcConsumer i)) >>> w_copies m (unplug_any (FscConsumer i))
  | (Some _, _, None) => w_id
  | (_, None, _) => fun _ => None
  end.

(** The camera's end: the consumer of the stream, and the stream itself. *)
Definition w_plug_camera (i : nat) (role : Role) : Wiring -> option Wiring :=
  match role.1.1 with
  | Some (k, id) => w_camera k id (join_stream (FscConsumer i)) >>> w_fsc i (fun a => plug a (FrcConsumer i)) >>>
      w_camera k id (switch_stream true)
  | None => w_id
  end.

Definition w_unplug_camera (i : nat) (role : Role) : Wiring -> option Wiring :=
  match role.1.1 with
  | Some (k, id) => w_camera k id (switch_stream false) >>> w_fsc i (fun a => unplug a (FrcConsumer i)) >>>
      w_camera k id (leave_stream (FscConsumer i))
  | None => w_id
  end.

Definition w_wire (i : nat) (role : Role) : Wiring -> option Wiring :=
  w_frc i (fun a => plug a (TrackConsumer i)) >>> w_plug_copy i role >>> w_plug_camera i role.

Definition w_start (i : nat) (role : Role) : Wiring -> option Wiring :=
  w_wire i role >>> w_switch_fsc i true >>> w_switch_frc i true.

Definition w_stop (i : nat) (role : Role) : Wiring -> option Wiring :=
  w_switch_frc i false >>> w_switch_fsc i false >>> w_unplug_camera i role >>>
  w_unplug_copy i role >>> w_frc i (fun a => unplug a (TrackConsumer i)).

(** ** Stopping undoes starting *)

Definition undoes (P : Wiring -> Prop) (f g : Wiring -> option Wiring) : Prop :=
  forall w w', P w -> f w = Some w' -> g w' = Some w.

Lemma undoes_then P Q f1 g1 f2 g2 : undoes P f1 g1 -> undoes Q f2 g2 -> (forall w w', P w -> f1 w = Some w' -> Q w') ->
  undoes P (f1 >>> f2) (g2 >>> g1).
Proof.
  intros H1 H2 HQ w w' HP. unfold w_then. destruct (f1 w) as [w1|] eqn:E1; [|done]. intros E2.
  rewrite (H2 w1 w' (HQ w w1 HP E1) E2). by apply H1.
Qed.

Lemma w_then_assoc f g h w : ((f >>> g) >>> h) w = (f >>> g >>> h) w.
Proof. unfold w_then. by destruct (f w). Qed.

Lemma undoes_ext P f g g' : (forall w, g w = g' w) -> undoes P f g -> undoes P f g'.
Proof. intros He Hu w w' HP Hf. rewrite <- He. by apply (Hu w w'). Qed.

Lemma undoes_weaken (P Q : Wiring -> Prop) f g : (forall w, P w -> Q w) -> undoes Q f g -> undoes P f g.
Proof. intros HPQ Hu w w' HP. apply Hu. by apply HPQ. Qed.

Lemma edit_some {T} i (g : T -> option T) l l' : edit i g l = Some l' <-> exists n n', l !! i = Some n /\ g n = Some n' /\ l' = <[i := n']> l.
Proof.
  unfold edit. split.
  - destruct (l !! i) as [n|]; [|done]. destruct (g n) as [n'|] eqn:Eg; [|done]. intros [= <-]. by exists n, n'.
  - by intros (n & n' & -> & -> & ->).
Qed.

Lemma edit_undo {T} i (g g' : T -> option T) l l' : (forall n n', l !! i = Some n -> g n = Some n' -> g' n' = Some n) ->
  edit i g l = Some l' -> edit i g' l' = Some l.
Proof.
  intros Hg (n & n' & Hl & Hn & ->)%edit_some. apply edit_some. exists n', n.
  rewrite list_lookup_insert_eq by (by apply lookup_lt_Some in Hl). rewrite list_insert_insert_eq, list_insert_id by done.
  split_and!; [done|by apply Hg|done].
Qed.

Lemma kv_remove_added c (m : kv unit) : kv_mem c m = false -> kv_remove c (kv_add c tt m) = m.
Proof.
  unfold kv_mem. induction m as [|[k []] m IH]; simpl; [by rewrite Z.eqb_refl|]. destruct (Z.eqb_spec c k) as [->|Hne]; [done|].
  intros Hm. destruct (Z.ltb_spec c k); simpl; [by rewrite Z.eqb_refl|]. rewrite (proj2 (Z.eqb_neq c k)) by done. by rewrite IH.
Qed.

Lemma kv_mem_added c (m : kv unit) : kv_mem c (kv_add c tt m) = true.
Proof. unfold kv_mem. by rewrite kv_lookup_add, Z.eqb_refl. Qed.

Lemma plug_undo a c m m' : plug a c m = Some m' -> unplug a c m' = Some m.
Proof.
  unfold plug, unplug. destruct a; [done|]. destruct (c =? 0); [done|]. simpl. destruct (kv_mem c m) eqn:Em; [done|]. intros [= <-].
  by rewrite kv_mem_added, kv_remove_added.
Qed.

Lemma length_added c (m : kv unit) : kv_mem c m = false -> length (kv_add c tt m) = S (length m).
Proof.
  unfold kv_mem. induction m as [|[k []] m IH]; simpl; [done|]. destruct (Z.eqb_spec c k) as [->|Hne]; [done|].
  intros Hm. destruct (c <? k); simpl; [done|]. by rewrite IH.
Qed.

(** A producer that has not this consumer, and can count one more. *)
Definition room_for (c : Z) (m : kv unit) : Prop := kv_mem c m = false /\ Z.of_nat (length m) + 1 < UINT32_MOD.

Lemma plug_any_undo c m m' : room_for c m -> plug_any c m = Some m' -> unplug_any c m' = Some m.
Proof.
  intros [Hm Hl]. unfold plug_any, unplug_any. destruct (c =? 0); [done|]. rewrite Hm. intros [= <-].
  rewrite length_added, kv_mem_added, kv_remove_added by done. rewrite u32_small by (unfold is_u32; lia).
  by rewrite (proj2 (Z.eqb_neq _ 0)) by lia.
Qed.

Ltac undo_edit := intros w w' HP Hf; unfold w_fsc, w_frc, w_copies, w_switch_fsc, w_switch_frc, edit_node, edit_rescaler in *;
  destruct (edit _ _ _) as [l|] eqn:El in Hf; [|done]; injection Hf as <-; simpl;
  lazymatch goal with
  | |- context [edit ?i ?g l] =>
      rewrite (fun Hg => edit_undo i _ g _ l Hg El); [by destruct w|]
  end.

Lemma fsc_undo P i c : undoes P (w_fsc i (fun a => plug a c)) (w_fsc i (fun a => unplug a c)).
Proof.
  undo_edit. intros [fa f ra r cs] n'. simpl. unfold fmap, option_fmap, option_map.
  destruct (plug fa c f) as [m|] eqn:Ep; [|done]. intros _ [= <-]. cbn. by rewrite (plug_undo _ _ _ _ Ep).
Qed.

Lemma frc_undo P i c : undoes P (w_frc i (fun a => plug a c)) (w_frc i (fun a => unplug a c)).
Proof.
  undo_edit. intros [fa f ra r cs] n'. simpl. unfold fmap, option_fmap, option_map.
  destruct (plug ra c r) as [m|] eqn:Ep; [|done]. intros _ [= <-]. simpl. by rewrite (plug_undo _ _ _ _ Ep).
Qed.

Lemma copies_undo m c : undoes (fun w => forall n, w_nodes w !! m = Some n -> room_for c (nw_copies n))
  (w_copies m (plug_any c)) (w_copies m (unplug_any c)).
Proof.
  undo_edit. intros n n' Hn. specialize (HP n Hn). destruct n as [fa f ra r cs]. simpl in *.
  unfold fmap, option_fmap, option_map. destruct (plug_any c cs) as [k|] eqn:Ep; [|done]. intros [= <-]. simpl.
  by rewrite (plug_any_undo _ _ _ HP Ep).
Qed.

Lemma rescaler_undo j c : undoes (fun w => forall m, w_rescalers w !! j = Some m -> room_for c m)
  (edit_rescaler j (plug_any c)) (edit_rescaler j (unplug_any c)).
Proof.
  undo_edit. intros m m' Hm. apply plug_any_undo. by apply HP.
Qed.

Lemma switch_fsc_undo P i : undoes P (w_switch_fsc i true) (w_switch_fsc i false).
Proof.
  undo_edit. intros [fa f ra r cs] n' _. simpl. destruct fa; [done|]. by intros [= <-].
Qed.

Lemma switch_frc_undo P i : undoes P (w_switch_frc i true) (w_switch_frc i false).
Proof.
  undo_edit. intros [fa f ra r cs] n' _. simpl. destruct ra; [done|]. by intros [= <-].
Qed.

Lemma edit_stream_some id g (m m' : kv StreamWires) :
  edit_stream id g m = Some m' <-> exists w w', kv_lookup id m = Some w /\ g w = Some w' /\ m' = kv_replace id w' m.
Proof.
  unfold edit_stream. split.
  - destruct (kv_lookup id m) as [w|]; [|done]. destruct (g w) as [w'|] eqn:Eg; [|done]. intros [= <-]. by exists w, w'.
  - by intros (w & w' & -> & -> & ->).
Qed.

Lemma edit_stream_undo id g g' (m m' : kv StreamWires) :
  (forall w w', kv_lookup id m = Some w -> g w = Some w' -> g' w' = Some w) ->
  edit_stream id g m = Some m' -> edit_stream id g' m' = Some m.
Proof.
  intros Hg (w & w' & Hl & Hw & ->)%edit_stream_some. apply edit_stream_some. exists w', w.
  rewrite kv_replace_replace, (kv_replace_same id w) by done. split_and!; [by eapply kv_lookup_replaced|by apply Hg|done].
Qed.

Lemma join_undo P k id c : undoes P (w_camera k id (join_stream c)) (w_camera k id (leave_stream c)).
Proof.
  unfold w_camera. undo_edit. intros m m' _. apply edit_stream_undo. intros [cs on] w' _. unfold join_stream, leave_stream. simpl.
  destruct (kv_mem c cs) eqn:Ec; [done|]. intros [= <-]. simpl. by rewrite kv_mem_added, kv_remove_added.
Qed.

(** A stream that has not been started. *)
Definition stream_rests (k : nat) (id : Z) (w : Wiring) : Prop :=
  forall m v, w_cameras w !! k = Some m -> kv_lookup id m = Some v -> v.2 = false.

Lemma switch_undo k id : undoes (stream_rests k id) (w_camera k id (switch_stream true)) (w_camera k id (switch_stream false)).
Proof.
  unfold w_camera. undo_edit. intros m m' Hm. apply edit_stream_undo. intros [cs on] w' Hv. specialize (HP m _ Hm Hv). simpl in HP.
  subst on. by intros [= <-].
Qed.

Lemma join_rests k id c w w' : stream_rests k id w -> w_camera k id (join_stream c) w = Some w' -> stream_rests k id w'.
Proof.
  intros Hr. unfold w_camera. destruct (edit _ _ _) as [l|] eqn:El; [|done]. intros [= <-].
  apply edit_some in El as (n & n' & Hn & (v & v' & Hv & Hj & ->)%edit_stream_some & ->). intros m x. simpl.
  rewrite list_lookup_insert_eq by (by apply lookup_lt_Some in Hn). intros [= <-].
  rewrite (kv_lookup_replaced id v' v) by done. intros [= <-]. revert Hj. unfold join_stream. case_match; [done|]. intros [= <-].
  exact (Hr n v Hn Hv).
Qed.

(** The producers that a track will be a consumer of have room for it, and
    its stream rests. *)
Definition copies_room (i m : nat) (w : Wiring) : Prop :=
  forall n, w_nodes w !! m = Some n -> room_for (FscConsumer i) (nw_copies n).
Definition rescaler_room (i j : nat) (w : Wiring) : Prop :=
  forall c, w_rescalers w !! j = Some c -> room_for (FrcConsumer i) c.

Definition has_room (i : nat) (role : Role) (w : Wiring) : Prop :=
  (forall m, role.1.2 = Some m -> copies_room i m w) /\ (forall j, role.2 = Some j -> rescaler_room i j w) /\
  (forall k id, role.1.1 = Some (k, id) -> stream_rests k id w).

(** An edit that leaves the copies alone. *)
Lemma edit_node_room i role k g w w' : (forall n n', g n = Some n' -> nw_copies n' = nw_copies n) ->
  has_room i role w -> edit_node k g w = Some w' -> has_room i role w'.
Proof.
  intros Hg (Hc & Hr & Hs). unfold edit_node. destruct (edit k g (w_nodes w)) as [l|] eqn:El; [|done]. intros [= <-].
  apply edit_some in El as (n & n' & Hn & Hgn & ->). split; [|by split]. intros m Hm x. simpl. specialize (Hc m Hm).
  destruct (decide (k = m)) as [->|Hne].
  - rewrite list_lookup_insert_eq by (by apply lookup_lt_Some in Hn). intros [= <-]. rewrite (Hg n n' Hgn). by apply Hc.
  - rewrite list_lookup_insert_ne by done. apply Hc.
Qed.

Lemma w_fsc_room i role k f w w' : has_room i role w -> w_fsc k f w = Some w' -> has_room i role w'.
Proof. apply edit_node_room. intros n n'. destruct (f _ _); [|done]. by intros [= <-]. Qed.

Lemma w_frc_room i role k f w w' : has_room i role w -> w_frc k f w = Some w' -> has_room i role w'.
Proof. apply edit_node_room. intros n n'. destruct (f _ _); [|done]. by intros [= <-]. Qed.

Lemma w_copies_rescaler_room i j m f w w' : rescaler_room i j w -> w_copies m f w = Some w' -> rescaler_room i j w'.
Proof.
  intros Hr. unfold w_copies, edit_node. destruct (edit _ _ _); [|done]. by intros [= <-].
Qed.

Lemma w_fsc_rescaler_room i j k f w w' : rescaler_room i j w -> w_fsc k f w = Some w' -> rescaler_room i j w'.
Proof. intros Hr. unfold w_fsc, edit_node. destruct (edit _ _ _); [|done]. by intros [= <-]. Qed.

Lemma id_undo P : undoes P w_id w_id.
Proof. by intros w w' _ [= <-]. Qed.

Lemma rescaled_undo i m j : undoes (fun w => copies_room i m w /\ rescaler_room i j w)
  (w_copies m (plug_any (FscConsumer i)) >>> w_fsc i (fun a => plug a (RescalerConsumer j)) >>> edit_rescaler j (plug_any (FrcConsumer i)))
  (edit_rescaler j (unplug_any (FrcConsumer i)) >>> w_fsc i (fun a => unplug a (RescalerConsumer j)) >>>
   w_copies m (unplug_any (FscConsumer i))).
Proof.
  eapply undoes_ext; [|apply (undoes_then _ (rescaler_room i j)); [|apply (undoes_then _ (rescaler_room i j))|]].
  - intros w. by rewrite w_then_assoc.
  - eapply undoes_weaken; [|apply copies_undo]. by intros w [Hc _].
  - apply fsc_undo.
  - apply rescaler_undo.
  - intros w w'. apply w_fsc_rescaler_room.
  - intros w w' [_ Hr]. by apply w_copies_rescaler_room.
Qed.

Lemma plug_copy_undo i role : undoes (has_room i role) (w_plug_copy i role) (w_unplug_copy i role).
Proof.
  destruct role as [[[[k id]|] [m|]] [j|]]; simpl; try apply id_undo; try by intros w w'.
  - eapply undoes_weaken; [|apply rescaled_undo]. intros w (Hc & Hr & _). split; [by apply Hc|by apply Hr].
  - eapply undoes_weaken; [|apply rescaled_undo]. intros w (Hc & Hr & _). split; [by apply Hc|by apply Hr].
  - eapply (undoes_then _ (fun _ => True)); [|apply fsc_undo|done].
    eapply undoes_weaken; [|apply copies_undo]. intros w [Hc _]. by apply Hc.
Qed.

Lemma same_cameras_rest k id w w' : w_cameras w' = w_cameras w -> stream_rests k id w -> stream_rests k id w'.
Proof. unfold stream_rests. by intros ->. Qed.

Lemma edit_node_cameras i g w w' : edit_node i g w = Some w' -> w_cameras w' = w_cameras w.
Proof. unfold edit_node. destruct (edit _ _ _); [|done]. by intros [= <-]. Qed.

Lemma edit_rescaler_cameras j g w w' : edit_rescaler j g w = Some w' -> w_cameras w' = w_cameras w.
Proof. unfold edit_rescaler. destruct (edit _ _ _); [|done]. by intros [= <-]. Qed.

Lemma w_then_cameras (f g : Wiring -> option Wiring) w w' : (forall x y, f x = Some y -> w_cameras y = w_cameras x) ->
  (forall x y, g x = Some y -> w_cameras y = w_cameras x) -> (f >>> g) w = Some w' -> w_cameras w' = w_cameras w.
Proof. intros Hf Hg. unfold w_then. destruct (f w) as [w1|] eqn:E; [|done]. intros Hw. rewrite (Hg _ _ Hw). by apply Hf. Qed.

Lemma plug_copy_cameras i role w w' : w_plug_copy i role w = Some w' -> w_cameras w' = w_cameras w.
Proof.
  revert w w'. destruct role as [[[[k id]|] [m|]] [j|]]; simpl; try done; try (by intros w w' [= <-]); intros w w';
    repeat first [apply edit_node_cameras | apply edit_rescaler_cameras | apply w_then_cameras; intros ??].
Qed.

Lemma plug_camera_undo i role : undoes (fun w => forall k id, role.1.1 = Some (k, id) -> stream_rests k id w)
  (w_plug_camera i role) (w_unplug_camera i role).
Proof.
  unfold w_plug_camera, w_unplug_camera. destruct role.1.1 as [[k id]|]; [|apply id_undo].
  eapply undoes_ext; [|apply (undoes_then _ (stream_rests k id)); [apply join_undo|apply (undoes_then _ (stream_rests k id))|]].
  - intros w. by rewrite w_then_assoc.
  - apply fsc_undo.
  - apply switch_undo.
  - intros w w' Hr Hw. by apply (same_cameras_rest k id w), Hr; apply edit_node_cameras in Hw.
  - intros w w' Hr. apply join_rests. by apply Hr.
Qed.

Lemma wire_undo i role : undoes (has_room i role) (w_wire i role)
  (w_unplug_camera i role >>> w_unplug_copy i role >>> w_frc i (fun a => unplug a (TrackConsumer i))).
Proof.
  eapply undoes_ext; [|apply (undoes_then _ (has_room i role)); [apply frc_undo|
    apply (undoes_then _ (fun w => forall k id, role.1.1 = Some (k, id) -> stream_rests k id w))|]].
  - intros w. by rewrite w_then_assoc.
  - apply plug_copy_undo.
  - apply plug_camera_undo.
  - intros w w' (_ & _ & Hr) Hw k id Hk. apply (same_cameras_rest k id w); [by apply (plug_copy_cameras i role)|by apply Hr].
  - intros w w'. apply w_frc_room.
Qed.

Lemma start_undo i role : undoes (has_room i role) (w_start i role) (w_stop i role).
Proof.
  eapply undoes_ext; [|apply (undoes_then _ (fun _ => True)); [apply wire_undo|apply (undoes_then _ (fun _ => True))|done]].
  - intros w. unfold w_stop. by rewrite w_then_assoc.
  - apply switch_fsc_undo.
  - apply switch_frc_undo.
  - done.
Qed.

(** ** The operations act on the wiring *)

Section Acts.
Context {M K D : Type} `{CameraWires M K} `{AllocDevice D} `{AllocUsage} `{HalPlatform} `{RgbPlatform} `{RescalerPlatform D} `{JpegPlatform}.

Abbreviation Source := (CameraSource (K := K) (D := D)).

Definition node_wiring (t : TrackNode) : NodeWiring :=
  mkNodeWiring (active_ (fsc_ t)) (buffer_consumers_ (buffer_producer_ (fsc_ t)))
    (active_ (frc_ t)) (buffer_consumers_ (buffer_producer_ (frc_ t)))
    (buffer_consumers_ (Track.buffer_producer_impl_ (flow t))).

Definition wiring (s : Source) : Wiring :=
  mkWiring (map node_wiring (tracks s)) (map (fun r => buffer_consumers_ (Rescaler.buffer_producer_impl_ (fst r))) (rescalers s))
    (map camera_wires (cameras s)).

Definition node_role (t : TrackNode) : Role := 
  (if slave_track_source_ t then None else Some (camera_interface_ t, TrackId t), master_track_ t, rescaler_at t).

Definition role_at (i : nat) (s : Source) : option Role := node_role <$> tracks s !! i.

(** Frames move, and nothing else. *)
Definition same_wiring (s s' : Source) : Prop := wiring s' = wiring s /\ forall i, role_at i s' = role_at i s.

Definition acts {A} (i : nat) (role : Role) (m : ST Source A) (f : Wiring -> option Wiring) : Prop :=
  forall s a s', role_at i s = Some role -> m s = Some (a, s') -> f (wiring s) = Some (wiring s') /\ role_at i s' = Some role.

Lemma acts_bind {A B} i role (m : ST Source A) (k : A -> ST Source B) f g :
  acts i role m f -> (forall a, acts i role (k a) g) -> acts i role (bind m k) (f >>> g).
Proof.
  intros Hm Hk s b s' Hr Hs. destruct (bind_some _ _ _ _ _ Hs) as (a & s1 & Hx1 & Hx2). destruct (Hm s a s1 Hr Hx1) as [Hf Hr1].
  unfold w_then. rewrite Hf. by apply (Hk a s1 b).
Qed.

Lemma acts_ret {A} i role (a : A) : acts i role (ret a) w_id.
Proof. by intros s x s' Hr [= <- <-]. Qed.

Lemma acts_ext {A} i role (m : ST Source A) f g : (forall w, f w = g w) -> acts i role m f -> acts i role m g.
Proof. intros He Hm s a s' Hr Hs. rewrite <- He. by apply (Hm s a). Qed.

Lemma acts_bind_id {A B} i role (m : ST Source A) (k : A -> ST Source B) f :
  acts i role m f -> (forall a, acts i role (k a) w_id) -> acts i role (bind m k) f.
Proof.
  intros Hm Hk. eapply acts_ext; [|by apply acts_bind]. intros w. unfold w_then. by destruct (f w).
Qed.

Lemma acts_id_bind {A B} i role (m : ST Source A) (k : A -> ST Source B) f :
  acts i role m w_id -> (forall a, acts i role (k a) f) -> acts i role (bind m k) f.
Proof. intros Hm Hk. eapply acts_ext; [|by apply acts_bind]. done. Qed.

(** What a method of a track does to its wiring. *)
Lemma on_node_acts {A} i role k (m : ST TrackNode A) g :
  (forall t a t', m t = Some (a, t') -> g (node_wiring t) = Some (node_wiring t') /\ node_role t' = node_role t) ->
  acts i role (on_node k m) (edit_node k g).
Proof.
  intros Hm s a s' Hr. unfold on_node, at_object. destruct (tracks s !! k) as [t|] eqn:Et; [|done].
  destruct (m t) as [[x t']|] eqn:Em; [|done]. intros [= -> <-]. destruct (Hm t a t' Em) as [Hg Hrole]. split.
  - unfold edit_node, edit, wiring. simpl. rewrite list_lookup_fmap, Et. simpl. by rewrite Hg, list_fmap_insert.
  - unfold role_at in *. simpl. destruct (decide (k = i)) as [->|Hne].
    + rewrite list_lookup_insert_eq by (by apply lookup_lt_Some in Et). rewrite Et in Hr. simpl in *. by rewrite Hrole.
    + by rewrite list_lookup_insert_ne.
Qed.

Lemma edit_same {T} i (l : list T) n : l !! i = Some n -> edit i Some l = Some l.
Proof. intros Hn. unfold edit. by rewrite Hn, list_insert_id. Qed.

(** The same for a method that succeeds. *)
Lemma on_node_run i role k (m : ST TrackNode Z) g s s' : role_at i s = Some role -> on_node k m s = Some (NO_ERROR, s') ->
  (forall t t', m t = Some (NO_ERROR, t') -> g (node_wiring t) = Some (node_wiring t') /\ node_role t' = node_role t) ->
  edit_node k g (wiring s) = Some (wiring s') /\ role_at i s' = Some role.
Proof.
  intros Hr Hs Hm.
  apply (on_node_acts i role k (fun t => match m t with Some (r, t') => if r =? NO_ERROR then Some (r, t') else None | None => None end) g)
    with (a := NO_ERROR).
  - intros t a t'. destruct (m t) as [[r t1]|] eqn:Et; [|done]. destruct (Z.eqb_spec r NO_ERROR) as [->|]; [|done].
    intros [= <- <-]. by apply Hm.
  - done.
  - unfold on_node, at_object in *. destruct (tracks s !! k) as [t|]; [|done]. by destruct (m t) as [[r t1]|]; [|done]; injection Hs as -> <-.
Qed.

(** Methods that the wiring does not see. *)
Lemma on_node_quiet {A} i role k (m : ST TrackNode A) :
  (forall t a t', m t = Some (a, t') -> node_wiring t' = node_wiring t /\ node_role t' = node_role t) ->
  acts i role (on_node k m) w_id.
Proof.
  intros Hm s a s' Hr Hs. destruct (on_node_acts i role k m Some) with (s := s) (a := a) (s' := s') as [Hf Hr']; try done.
  { intros t x t' Ht. destruct (Hm t x t' Ht) as [-> ->]. done. }
  split; [|done]. unfold edit_node in Hf. unfold w_id. destruct (edit k Some (w_nodes (wiring s))) as [l|] eqn:El; [|done].
  apply edit_some in El as (n & n' & Hn & [= <-] & ->). rewrite list_insert_id in Hf by done. destruct (wiring s). exact Hf.
Qed.

Lemma acts_node {A} i role (k : TrackNode -> ST Source A) f :
  (forall t, node_role t = role -> acts i role (k t) f) -> acts i role (bind (node i) k) f.
Proof.
  intros Hk s a s' Hr Hs. destruct (bind_some _ _ _ _ _ Hs) as (t & s1 & Hn & Hx2). unfold node, on_node, at_object, gets, id in Hn.
  destruct (tracks s !! i) as [t0|] eqn:Et; [|done]. injection Hn as <- <-. rewrite list_insert_id in Hx2 by done. cbv beta in Hx2.
  assert (tracks s !! i = Some t0 -> node_role t0 = role) as Hrole by (unfold role_at in Hr; rewrite Et in Hr; by injection Hr).
  apply (Hk t0 (Hrole Et) s a s' Hr). rewrite <- Hx2. by destruct s.
Qed.

(** What a call of the camera does to its streams. *)
Lemma on_camera_acts i role k id (m : ST K Z) g s s' :
  (forall c c', m c = Some (NO_ERROR, c') -> edit_stream id g (camera_wires c) = Some (camera_wires c')) ->
  role_at i s = Some role -> on_camera k m s = Some (NO_ERROR, s') ->
  w_camera k id g (wiring s) = Some (wiring s') /\ role_at i s' = Some role.
Proof.
  intros Hm Hr. unfold on_camera, at_object. destruct (cameras s !! k) as [c|] eqn:Ec; [|done].
  destruct (m c) as [[x c']|] eqn:Em; [|done]. intros [= -> <-]. split; [|done]. unfold w_camera, edit, wiring. simpl.
  rewrite list_lookup_fmap, Ec. simpl. by rewrite (Hm c c' Em), list_fmap_insert.
Qed.

(** Only what succeeds goes on after an assertion. *)
Lemma must_acts i role (m : ST Source Z) f :
  (forall s s', role_at i s = Some role -> m s = Some (NO_ERROR, s') -> f (wiring s) = Some (wiring s') /\ role_at i s' = Some role) ->
  acts i role (must m) f.
Proof.
  intros Hm s a s' Hr Hs. destruct (bind_some _ _ _ _ _ Hs) as (r & s1 & Hx1 & Hx2).
  destruct (Z.eqb_spec r NO_ERROR) as [->|]; [|done]. injection Hx2 as _ <-. by apply Hm.
Qed.

Lemma must_any i role (m : ST Source Z) f : acts i role m f -> acts i role (must m) f.
Proof. intros Hm. apply must_acts. intros s s'. apply Hm. Qed.

(** [connect] only notes whom the consumer belongs to. *)
Lemma connect_run c p (m : ST Source Z) s s' : connect c p m s = Some (NO_ERROR, s') ->
  exists s1, m s = Some (NO_ERROR, s1) /\ s' = s1 <| producer_handles := <[c := p]> (producer_handles s1) |>.
Proof.
  intros Hs. destruct (bind_some _ _ _ _ _ Hs) as (r & s1 & Hx1 & Hx2). exists s1.
  destruct (Z.eqb_spec r NO_ERROR) as [->|Hne]; [by injection Hx2 as <-|by injection Hx2 as Hr _].
Qed.

Lemma must_connect i role c p (m : ST Source Z) f :
  (forall s s', role_at i s = Some role -> m s = Some (NO_ERROR, s') -> f (wiring s) = Some (wiring s') /\ role_at i s' = Some role) ->
  acts i role (must (connect c p m)) f.
Proof.
  intros Hm. apply must_acts. intros s s' Hr (s1 & Hx1 & ->)%connect_run. exact (Hm s s1 Hr Hx1).
Qed.

Ltac stage_acts := intros s s' Hr Hs; unfold w_fsc, w_frc, w_copies, w_switch_fsc, w_switch_frc;
  apply (on_node_run _ _ _ _ _ _ _ Hr Hs); intros t t'.

(** The producer of a rate controller. *)
Lemma frc_plug c (k : FrameRateController) k' : frc_AddConsumer c k = (NO_ERROR, k') ->
  active_ k' = active_ k /\ plug (active_ k) c (buffer_consumers_ (buffer_producer_ k)) = Some (buffer_consumers_ (buffer_producer_ k')).
Proof.
  unfold frc_AddConsumer, plug, IsConnected. destruct (active_ k) eqn:Ea; [done|]. destruct (c =? 0) eqn:Ec; [done|].
  destruct (kv_mem c _) eqn:Em; [done|]. intros [= <-]. simpl. rewrite Ea. unfold BufferProducer.AddConsumer, IsConnected. by rewrite Em.
Qed.

Lemma frc_unplug c (k : FrameRateController) k' : frc_RemoveConsumer c k = (NO_ERROR, k') ->
  active_ k' = active_ k /\ unplug (active_ k) c (buffer_consumers_ (buffer_producer_ k)) = Some (buffer_consumers_ (buffer_producer_ k')).
Proof.
  unfold frc_RemoveConsumer, unplug, IsConnected. destruct (active_ k) eqn:Ea; [done|]. destruct (c =? 0) eqn:Ec; [done|].
  destruct (kv_mem c _) eqn:Em; [|done]. intros [= <-]. simpl. rewrite Ea. unfold BufferProducer.RemoveConsumer, IsConnected. by rewrite Em.
Qed.

Ltac controller_acts law := unfold pure_step; cbv beta;
  lazymatch goal with
  | |- (let (_, _) := ?x in _) = _ -> _ =>
      let Ek := fresh "Ek" in
      destruct x as [r0 k0] eqn:Ek; intros [= -> <-]; destruct (law _ _ _ Ek) as [Hact Hplug];
      unfold node_wiring; simpl; by rewrite Hact, Hplug
  end.

Lemma fsc_plugged i role k c : acts i role (must (add_to_fsc k c)) (w_fsc k (fun a => plug a c)).
Proof. apply must_connect. stage_acts. controller_acts frc_plug. Qed.
Lemma frc_plugged i role k c : acts i role (must (add_to_frc k c)) (w_frc k (fun a => plug a c)).
Proof. apply must_connect. stage_acts. controller_acts frc_plug. Qed.
Lemma fsc_unplugged i role k c : acts i role (must (remove_from_fsc k c)) (w_fsc k (fun a => unplug a c)).
Proof. apply must_acts. stage_acts. controller_acts frc_unplug. Qed.
Lemma frc_unplugged i role k c : acts i role (must (remove_from_frc k c)) (w_frc k (fun a => unplug a c)).
Proof. apply must_acts. stage_acts. controller_acts frc_unplug. Qed.

Lemma copies_plugged i role m c : acts i role (must (add_to_track m c)) (w_copies m (plug_any c)).
Proof.
  apply must_connect. stage_acts. unfold Track.AddConsumer, plug_any. destruct (c =? 0); [done|]. unfold bind, modify, ret.
  intros [= <-]. unfold node_wiring. simpl. unfold BufferProducer.AddConsumer, IsConnected.
  by destruct (kv_mem c (buffer_consumers_ (Track.buffer_producer_impl_ (flow t)))).
Qed.

Lemma unplug_any_removed c p : (GetNumConsumer p =? 0) = false ->
  unplug_any c (buffer_consumers_ p) = Some (buffer_consumers_ (BufferProducer.RemoveConsumer c p)).
Proof.
  unfold GetNumConsumer, unplug_any. intros ->. unfold BufferProducer.RemoveConsumer, IsConnected. by destruct (kv_mem c (buffer_consumers_ p)).
Qed.

Lemma copies_unplugged i role m c : acts i role (must (remove_from_track m c)) (w_copies m (unplug_any c)).
Proof.
  apply must_acts. stage_acts. unfold Track.RemoveConsumer, bind, gets, id.
  destruct (GetNumConsumer _ =? 0) eqn:En; [done|]. unfold modify, ret. intros [= <-]. unfold node_wiring. cbn [nw_copies].
  by rewrite (unplug_any_removed c _ En).
Qed.

Lemma camera_joined i role k id c : acts i role (must (add_to_camera k id c)) (w_camera k id (join_stream c)).
Proof. apply must_connect. intros s s'. apply on_camera_acts, wires_AddConsumer. Qed.
Lemma camera_left i role k id c : acts i role (must (remove_from_camera k id c)) (w_camera k id (leave_stream c)).
Proof. apply must_acts. intros s s'. apply on_camera_acts, wires_RemoveConsumer. Qed.
Lemma stream_started i role k id : acts i role (must (on_camera k (ci_StartStream id))) (w_camera k id (switch_stream true)).
Proof. apply must_acts. intros s s'. apply on_camera_acts, wires_StartStream. Qed.
Lemma stream_stopped i role k id : acts i role (must (on_camera k (ci_StopStream id))) (w_camera k id (switch_stream false)).
Proof. apply must_acts. intros s s'. apply on_camera_acts, wires_StopStream. Qed.

(** The consumers of a rescaler. *)
Lemma on_rescaler_acts {A} i role j (m : ST (CameraRescaler D) A) g s a s' :
  (forall r r', m r = Some (a, r') ->
     g (buffer_consumers_ (Rescaler.buffer_producer_impl_ r)) = Some (buffer_consumers_ (Rescaler.buffer_producer_impl_ r'))) ->
  role_at i s = Some role -> on_rescaler j m s = Some (a, s') ->
  edit_rescaler j g (wiring s) = Some (wiring s') /\ role_at i s' = Some role.
Proof.
  intros Hm Hr. unfold on_rescaler, at_object. destruct (rescalers s !! j) as [[r crop]|] eqn:Er; [|done]. simpl.
  destruct (m r) as [[x r']|] eqn:Em; [|done]. intros [= -> <-]. split; [|done].
  unfold edit_rescaler, edit, wiring. simpl. rewrite list_lookup_fmap, Er. simpl. by rewrite (Hm r r' Em), list_fmap_insert.
Qed.

Lemma rescaler_plugged i role j c : acts i role (must (add_to_rescaler j c)) (edit_rescaler j (plug_any c)).
Proof.
  apply must_connect. intros s s' Hr Hs. apply (on_rescaler_acts _ _ _ _ _ _ _ _) with (2 := Hr) (3 := Hs). intros r r'.
  unfold Rescaler.AddConsumer, plug_any. destruct (c =? 0); [done|]. unfold bind, modify, ret. intros [= <-]. simpl.
  unfold BufferProducer.AddConsumer, IsConnected. by destruct (kv_mem c (buffer_consumers_ (Rescaler.buffer_producer_impl_ r))).
Qed.

Lemma rescaler_unplugged i role j c : acts i role (must (remove_from_rescaler j c)) (edit_rescaler j (unplug_any c)).
Proof.
  apply must_acts. intros s s' Hr Hs. apply (on_rescaler_acts _ _ _ _ _ _ _ _) with (2 := Hr) (3 := Hs). intros r r'.
  unfold Rescaler.RemoveConsumer, bind, gets. destruct (GetNumConsumer _ =? 0) eqn:En; [done|].
  unfold modify, ret. intros [= <-]. by rewrite (unplug_any_removed c _ En).
Qed.

(** Methods of a rescaler that leave its consumers alone. *)
Lemma on_rescaler_quiet {A} i role j (m : ST (CameraRescaler D) A) :
  (forall r a r', m r = Some (a, r') -> Rescaler.buffer_producer_impl_ r' = Rescaler.buffer_producer_impl_ r) ->
  acts i role (on_rescaler j m) w_id.
Proof.
  intros Hm s a s' Hr Hs. destruct (on_rescaler_acts i role j m Some s a s') as [Hf Hr']; try done.
  { intros r r' Ht. by rewrite (Hm r a r' Ht). }
  split; [|done]. unfold edit_rescaler in Hf. destruct (edit j Some (w_rescalers (wiring s))) as [l|] eqn:El; [|done].
  apply edit_some in El as (n & n' & Hn & [= <-] & ->). rewrite list_insert_id in Hf by done. unfold w_id.
  destruct (wiring s). exact Hf.
Qed.

Lemma rescaler_starts i role j : acts i role (must (on_rescaler j Rescaler.Start)) w_id.
Proof.
  apply must_any, on_rescaler_quiet. intros r a r'. unfold Rescaler.Start, bind, modify, ret, Rescaler.Run, gets, id. simpl.
  destruct (running_ r); by intros [= <- <-].
Qed.

Lemma fsc_starts i role : acts i role (must (on_fsc i (pure_step FrameRate.Start))) (w_switch_fsc i true).
Proof.
  apply must_acts. stage_acts. unfold pure_step, FrameRate.Start. destruct (active_ (fsc_ t)) eqn:Ea; [done|]. intros [= <-].
  unfold node_wiring. simpl. by rewrite Ea.
Qed.

Lemma frc_starts i role : acts i role (must (on_frc i (pure_step FrameRate.Start))) (w_switch_frc i true).
Proof.
  apply must_acts. stage_acts. unfold pure_step, FrameRate.Start. destruct (active_ (frc_ t)) eqn:Ea; [done|]. intros [= <-].
  unfold node_wiring. simpl. by rewrite Ea.
Qed.

Lemma master_acts {A} i role t (k : nat -> ST Source A) f :
  (forall m, master_track_ t = Some m -> acts i role (k m) f) -> acts i role (bind (master_of t) k) f.
Proof.
  intros Hk. unfold master_of. destruct (master_track_ t) as [m|] eqn:Em; [|by intros s a s' _].
  intros s a s' Hr Hs. by apply (Hk m eq_refl s a s').
Qed.

(** ** Starting *)

Lemma wire_acts i role : acts i role (wire i) (w_wire i role).
Proof.
  unfold wire, w_wire. apply acts_bind; [apply frc_plugged|]. intros _. apply acts_node. intros t Ht.
  unfold node_role in Ht. subst role. simpl. apply acts_bind.
  - unfold w_plug_copy. destruct (rescaler_at t) as [j|].
    + apply master_acts. intros m ->. assert (forall b, acts i (b, Some m, Some j)
        (do* must (add_to_track m (FscConsumer i)) in do* must (add_to_fsc i (RescalerConsumer j)) in
         must (add_to_rescaler j (FrcConsumer i)))
        (w_copies m (plug_any (FscConsumer i)) >>> w_fsc i (fun a => plug a (RescalerConsumer j)) >>>
         edit_rescaler j (plug_any (FrcConsumer i)))) as Hc.
      { intros b. apply acts_bind; [apply copies_plugged|]. intros _. apply acts_bind; [apply fsc_plugged|]. intros _. apply rescaler_plugged. }
      destruct (slave_track_source_ t); apply Hc.
    + destruct (slave_track_source_ t); [|by destruct (master_track_ t); apply acts_ret].
      apply master_acts. intros m ->. apply acts_bind; [apply copies_plugged|]. intros _. apply fsc_plugged.
  - intros _. unfold w_plug_camera. destruct (slave_track_source_ t); simpl; [apply acts_ret|].
    apply acts_bind; [apply camera_joined|]. intros _. apply acts_bind; [apply fsc_plugged|]. intros _. apply stream_started.
Qed.

Lemma on_flow_quiet {A} i role k (m : ST TrackSource A) :
  (forall f a f', m f = Some (a, f') -> Track.buffer_producer_impl_ f' = Track.buffer_producer_impl_ f) -> acts i role (on_flow k m) w_id.
Proof.
  intros Hm. apply on_node_quiet. intros t a t'. destruct (m (flow t)) as [[x f]|] eqn:Em; [|done]. intros [= <- <-].
  unfold node_wiring. simpl. by rewrite (Hm _ _ _ Em).
Qed.

Lemma StartTrack_acts i role : acts i role (StartTrack i) (w_start i role).
Proof.
  unfold StartTrack, w_start. apply acts_id_bind; [apply on_flow_quiet; by intros f a f' [= <- <-]|]. intros _.
  apply acts_bind; [apply wire_acts|]. intros _. apply acts_node. intros t Ht.
  apply acts_id_bind; [destruct (rescaler_at t); [apply rescaler_starts|apply acts_ret]|]. intros _.
  apply acts_bind; [apply fsc_starts|]. intros _. apply acts_bind_id; [apply frc_starts|]. intros _. apply acts_ret.
Qed.

(** ** Stopping *)

Definition moves_frames (g : Source -> Source) : Prop := forall s, same_wiring s (g s).

(** While a track stops, others move frames only. *)
Record waits_move_frames (w : StopWaits (K := K) (D := D)) : Prop := {
  wm_frc g : g ∈ frc_waits w -> moves_frames (fun s => snd (g s));
  wm_fsc g : g ∈ fsc_waits w -> moves_frames (fun s => snd (g s));
  wm_idle g : g ∈ idle_waits w -> moves_frames (fun s => snd (g s));
  wm_rescaler : moves_frames (rescaler_during w)
}.

Lemma moves_acts i role g : moves_frames g -> acts i role (modify g) w_id.
Proof.
  intros Hg s [] s' Hr. unfold modify. intros [= <-]. destruct (Hg s) as [Hw Hrole]. split; [unfold w_id; by rewrite Hw|].
  by rewrite Hrole.
Qed.

Lemma settle_acts i role get k ws : (forall g, g ∈ ws -> moves_frames (fun s => snd (g s))) -> acts i role (settle get k ws) w_id.
Proof.
  induction ws as [|w ws IH]; intros Hws s a s' Hr; simpl; (destruct (tracks s !! k) as [t|]; [|done]);
    (case_bool_decide; [by intros [= <- <-]|]); [done|].
  destruct (Hws w ltac:(by left) s) as [Hw Hrole]. destruct (w s) as [r s1]. simpl in *. destruct (r =? 0).
  - intros Hs. rewrite <- Hw. apply (IH (fun g Hg => Hws g (list_elem_of_further _ _ _ Hg)) s1 a s'); [by rewrite Hrole|done].
  - intros [= <- <-]. unfold w_id. by rewrite Hw, Hrole.
Qed.

Lemma wait_idle_acts i role k ws : (forall g, g ∈ ws -> moves_frames (fun s => snd (g s))) -> acts i role (wait_idle k ws) w_id.
Proof.
  induction ws as [|w ws IH]; intros Hws s a s' Hr; simpl; (destruct (tracks s !! k) as [t|]; [|done]);
    (destruct (is_idle_ (flow t)); [by intros [= <- <-]|]); [done|].
  destruct (Hws w ltac:(by left) s) as [Hw Hrole]. destruct (w s) as [r s1]. simpl in *. destruct (r =? 0).
  - intros Hs. rewrite <- Hw. apply (IH (fun g Hg => Hws g (list_elem_of_further _ _ _ Hg)) s1 a s'); [by rewrite Hrole|done].
  - intros [= <- <-]. unfold w_id. by rewrite Hw, Hrole.
Qed.

Lemma must_bind {A} (m : ST Source A) (k : A -> ST Source Z) s : must (bind m k) s = (let* x := m in must (k x)) s.
Proof. unfold must, bind. destruct (m s) as [[x s']|]; [|done]. by destruct (k x s') as [[r s1]|]. Qed.

Lemma acts_same {A} i role (m m' : ST Source A) f : (forall s, m s = m' s) -> acts i role m' f -> acts i role m f.
Proof. intros He Hm s a s' Hr Hs. rewrite He in Hs. by apply (Hm s a). Qed.

Lemma frc_stops i role ws : (forall g, g ∈ ws -> moves_frames (fun s => snd (g s))) ->
  acts i role (must (stop_frc ws i)) (w_switch_frc i false).
Proof.
  intros Hws. unfold stop_frc. eapply acts_same; [apply must_bind|]. apply acts_node. intros t _.
  destruct (active_ (frc_ t)); cbn [negb]; [|by intros s a s' _]. eapply acts_same; [apply must_bind|].
  apply acts_id_bind; [by apply settle_acts|]. intros r. clear t. apply must_acts. stage_acts. unfold pure_step. by intros [= _ <-].
Qed.

Lemma fsc_stops i role ws : (forall g, g ∈ ws -> moves_frames (fun s => snd (g s))) ->
  acts i role (must (stop_fsc ws i)) (w_switch_fsc i false).
Proof.
  intros Hws. unfold stop_fsc. eapply acts_same; [apply must_bind|]. apply acts_node. intros t _.
  destruct (active_ (fsc_ t)); cbn [negb]; [|by intros s a s' _]. eapply acts_same; [apply must_bind|].
  apply acts_id_bind; [by apply settle_acts|]. intros r. clear t. apply must_acts. stage_acts. unfold pure_step. by intros [= _ <-].
Qed.

Lemma rescaler_stops i role g j : moves_frames g -> acts i role (must (stop_rescaler g j)) w_id.
Proof.
  intros Hg. apply must_any. unfold stop_rescaler.
  apply acts_id_bind; [apply on_rescaler_quiet; by intros r a r' [= <- <-]|]. intros _.
  apply acts_id_bind; [apply on_rescaler_quiet; by intros r a r' [= <- <-]|]. intros r.
  apply acts_id_bind.
  - destruct (thread_ r); [|apply acts_ret].
    apply acts_id_bind; [apply on_rescaler_quiet; by intros x a x' [= <- <-]|]. intros _.
    apply acts_id_bind; [by apply moves_acts|]. intros _. apply on_rescaler_quiet. by intros x a x' [= <- <-].
  - intros _. apply acts_id_bind; [apply on_rescaler_quiet; by intros x a x' [= <- <-]|]. intros _. apply acts_ret.
Qed.

Lemma unwire_acts i role w : waits_move_frames w -> acts i role (unwire w i) (w_stop i role).
Proof.
  intros [Wfrc Wfsc _ Wr]. unfold unwire, w_stop.
  apply acts_bind; [by apply frc_stops|]. intros _. apply acts_bind; [by apply fsc_stops|]. intros _.
  apply acts_node. intros t Ht. unfold node_role in Ht. subst role. simpl.
  apply acts_id_bind; [destruct (rescaler_at t); [by apply rescaler_stops|apply acts_ret]|]. intros _.
  apply acts_bind.
  { unfold w_unplug_camera. destruct (slave_track_source_ t); simpl; [apply acts_ret|].
    apply acts_bind; [apply stream_stopped|]. intros _. apply acts_bind; [apply fsc_unplugged|]. intros _. apply camera_left. }
  intros _. apply acts_bind; [|intros _; apply frc_unplugged]. unfold w_unplug_copy. destruct (rescaler_at t) as [j|].
  - assert (forall b, acts i (b, master_track_ t, Some j)
      (do* must (remove_from_rescaler j (FrcConsumer i)) in do* must (remove_from_fsc i (RescalerConsumer j)) in
       let* m := master_of t in must (remove_from_track m (FscConsumer i)))
      (match master_track_ t with
       | Some m => edit_rescaler j (unplug_any (FrcConsumer i)) >>> w_fsc i (fun a => unplug a (RescalerConsumer j)) >>>
           w_copies m (unplug_any (FscConsumer i))
       | None => fun _ => None
       end)) as Hc.
    { intros b. unfold master_of. destruct (master_track_ t) as [m|].
      - apply acts_bind; [apply rescaler_unplugged|]. intros _. apply acts_bind; [apply fsc_unplugged|]. intros _. apply copies_unplugged.
      - intros s a s' Hr Hs. destruct (bind_some _ _ _ _ _ Hs) as (? & s1 & _ & Hs1).
        by destruct (bind_some _ _ _ _ _ Hs1) as (? & s2 & _ & Hs2). }
    destruct (slave_track_source_ t); [pose proof (Hc None) as Hc1|pose proof (Hc (Some (camera_interface_ t, TrackId t))) as Hc1];
      destruct (master_track_ t); exact Hc1.
  - destruct (slave_track_source_ t); [|by destruct (master_track_ t); apply acts_ret].
    unfold master_of. destruct (master_track_ t) as [m|].
    + apply acts_bind; [apply fsc_unplugged|]. intros _. apply copies_unplugged.
    + intros s a s' Hr Hs. by destruct (bind_some _ _ _ _ _ Hs) as (? & s1 & _ & Hs1).
Qed.

(** The producer of a track that returns frames. *)
Definition producer_is (p : BufferProducer) (f : TrackSource) : Prop := Track.buffer_producer_impl_ f = p.

Lemma producer_kept {A} (m : ST TrackSource A) : (forall p, preserves (producer_is p) m) ->
  forall f a f', m f = Some (a, f') -> Track.buffer_producer_impl_ f' = Track.buffer_producer_impl_ f.
Proof. intros Hm f a f' Hs. pose proof (Hm (Track.buffer_producer_impl_ f) f eq_refl) as Hk. by rewrite Hs in Hk. Qed.

Ltac producer_keeps := repeat first
  [ preserve_step | apply preserves_modify; intros f0 Hf0; unfold producer_is in *; simpl; by repeat case_match ].

Lemma ReturnBufferToProducer_keeps p b : preserves (producer_is p) (Track.ReturnBufferToProducer b).
Proof. unfold Track.ReturnBufferToProducer, track_call. producer_keeps. Qed.

Lemma port_idle_frames_keeps p : preserves (producer_is p) port_idle_frames.
Proof.
  unfold port_idle_frames, ClearInputQueue, track_call. repeat first [progress producer_keeps | apply ReturnBufferToProducer_keeps].
Qed.

Lemma port_idle_end_keeps p : preserves (producer_is p) port_idle_end.
Proof. unfold port_idle_end. producer_keeps. Qed.

Lemma idle_event_acts i role w : waits_move_frames w -> acts i role (NotifyPortEvent w i kPortIdle) (w_stop i role).
Proof.
  intros Hw. unfold NotifyPortEvent. apply acts_bind_id; [|intros _; apply acts_ret].
  apply acts_id_bind; [apply on_flow_quiet, producer_kept, port_idle_frames_keeps|]. intros _.
  apply acts_bind_id; [by apply unwire_acts|]. intros _. apply on_flow_quiet, producer_kept, port_idle_end_keeps.
Qed.

(** A raw track that runs. *)
Definition runs_raw (i : nat) (s : Source) : Prop :=
  exists t, tracks s !! i = Some t /\ is_raw (format_type (flow t)) = true /\ Track.is_stop_ (flow t) = false.

(** What a modification of the frames of a track leaves. *)
Lemma on_flow_modify i (f : TrackSource -> TrackSource) (s : Source) t : tracks s !! i = Some t ->
  on_flow i (modify f) s = Some (tt, s <| tracks := <[i := t <| flow := f (flow t) |>]> (tracks s) |>).
Proof. intros Ht. unfold on_flow, on_node, at_object. by rewrite Ht. Qed.

Lemma node_at i (s : Source) t : tracks s !! i = Some t -> node i s = Some (t, s).
Proof.
  intros Ht. unfold node, on_node, at_object, gets, id. rewrite Ht, list_insert_id by done. by destruct s.
Qed.

Lemma StopTrack_raw i w s : runs_raw i s ->
  StopTrack w i s = (do* on_flow i (modify (fun f => f <| is_paused_ := false |>)) in
    do* on_flow i (modify (fun f => f <| Track.is_stop_ := true |>)) in do* unwire w i in wait_idle i (idle_waits w)) s.
Proof.
  intros (t & Ht & Hraw & Hstop). unfold StopTrack.
  rewrite (bind_eq _ _ _ _ _ (on_flow_modify i _ s t Ht)), (bind_eq _ _ _ _ _ (on_flow_modify i _ s t Ht)).
  set (s1 := s <| tracks := _ |>).
  assert (tracks s1 !! i = Some (t <| flow := (flow t) <| is_paused_ := false |> |>)) as Ht1
    by (apply list_lookup_insert_eq; by apply lookup_lt_Some in Ht).
  rewrite (bind_eq _ _ _ _ _ (node_at i s1 _ Ht1)). simpl. rewrite Hstop. unfold bind.
  destruct (on_flow i _ s1) as [[[] s2]|]; [|done]. by rewrite Hraw.
Qed.

Lemma StopTrack_run i role w s r s' : waits_move_frames w -> role_at i s = Some role -> runs_raw i s ->
  StopTrack w i s = Some (r, s') -> w_stop i role (wiring s) = Some (wiring s').
Proof.
  intros Hw Hr Hrun Hs. rewrite (StopTrack_raw i w s Hrun) in Hs. clear Hrun; revert s r s' Hr Hs.
  assert (acts i role (do* on_flow i (modify (fun f => f <| is_paused_ := false |>)) in
    do* on_flow i (modify (fun f => f <| Track.is_stop_ := true |>)) in do* unwire w i in wait_idle i (idle_waits w)) (w_stop i role)) as Ha.
  { apply acts_id_bind; [apply on_flow_quiet; by intros f a f' [= <- <-]|]. intros _.
    apply acts_id_bind; [apply on_flow_quiet; by intros f a f' [= <- <-]|]. intros _.
    apply acts_bind_id; [by apply unwire_acts|]. intros _. apply wait_idle_acts, Hw. }
  intros s r s' Hr Hs. by apply (Ha s r s').
Qed.

Lemma StartTrack_answer i (s : Source) r s' : StartTrack i s = Some (r, s') -> r = NO_ERROR.
Proof.
  unfold StartTrack. intros Hs. destruct (bind_some _ _ _ _ _ Hs) as (? & s1 & _ & Ha).
  destruct (bind_some _ _ _ _ _ Ha) as (? & s2 & _ & Hb). destruct (bind_some _ _ _ _ _ Hb) as (? & s3 & _ & Hc).
  destruct (bind_some _ _ _ _ _ Hc) as (? & s4 & _ & Hd). destruct (bind_some _ _ _ _ _ Hd) as (? & s5 & _ & He).
  destruct (bind_some _ _ _ _ _ He) as (? & s6 & _ & Hf). by injection Hf as <- _.
Qed.

(** C33. Stopping a track takes apart what starting it has tied together.
    Whatever frames move between and during the two, a raw track that is
    stopped, and an encoded one whose encoder has become idle, leave every
    rate controller, every rescaler, every track and every stream of every
    camera with the consumers and the state they had before the start: no
    stage and no camera keeps a consumer that is gone, and a stream that was
    started for the track is stopped.  The track's stream rests before. *)
Theorem stop_undoes_start (i : nat) (role : Role) (w : StopWaits) (s s1 s2 s3 : Source) (r1 r2 : Z) :
  role_at i s = Some role -> has_room i role (wiring s) -> waits_move_frames w ->
  StartTrack i s = Some (r1, s1) -> same_wiring s1 s2 ->
  (runs_raw i s2 /\ StopTrack w i s2 = Some (r2, s3)) \/ NotifyPortEvent w i kPortIdle s2 = Some (r2, s3) ->
  r1 = NO_ERROR /\ wiring s3 = wiring s.
Proof.
  intros Hr Hroom Hw Hstart [Hsame Hroles] Hstop. split; [by apply (StartTrack_answer i s r1 s1)|].
  destruct (StartTrack_acts i role s r1 s1 Hr Hstart) as [Hw1 Hr1].
  assert (w_stop i role (wiring s2) = Some (wiring s3)) as Hw3.
  { destruct Hstop as [[Hrun Hs]|Hs].
    - apply (StopTrack_run i role w s2 r2 s3 Hw); [rewrite Hroles; exact Hr1|exact Hrun|exact Hs].
    - apply (idle_event_acts i role w Hw s2 r2 s3); [rewrite Hroles; exact Hr1|exact Hs]. }
  rewrite Hsame in Hw3. pose proof (start_undo i role _ _ Hroom Hw1) as Hundo. congruence.
Qed.
End Acts.

(** ** A run *)

(** A track of the camera, and a copy of it through a rescaler. *)
Definition no_waits : StopWaits (K := SimpleDevice) (D := ListDevice) := mkStopWaits [] [] id [].

Lemma no_waits_move : waits_move_frames no_waits.
Proof. split; try by intros g Hg%elem_of_nil. by intros s. Defined.

Abbreviation DemoSource := (CameraSource (K := SimpleDevice) (D := ListDevice)).

Definition after_call (m : ST DemoSource Z) (s : DemoSource) : DemoSource := match m s with Some (_, s') => s' | None => s end.

(** The track [i] is started and stopped. *)
Definition demo_round (i : nat) (s3 : DemoSource) : Prop :=
  StartTrack i demo_source = Some (0, after_call (StartTrack i) demo_source) /\
  StopTrack no_waits i (after_call (StartTrack i) demo_source) = Some (0, s3) /\
  wiring (after_call (StartTrack i) demo_source) <> wiring demo_source /\ wiring s3 = wiring demo_source.

Ltac demo_round i role :=
  let s3 := eval vm_compute in (after_call (StopTrack no_waits i) (after_call (StartTrack i) demo_source)) in
  exists s3; split; [vm_compute; reflexivity|]; split; [vm_compute; reflexivity|]; split; [vm_compute; discriminate|];
  apply (stop_undoes_start i role no_waits demo_source (after_call (StartTrack i) demo_source)
    (after_call (StartTrack i) demo_source) s3 0 0);
  [ vm_compute; reflexivity
  | split_and!;
      [ intros m E n Hn; first [discriminate E | injection E as <-; vm_compute in Hn; injection Hn as <-; split; vm_compute; reflexivity]
      | intros j E c Hc; first [discriminate E | injection E as <-; vm_compute in Hc; injection Hc as <-; split; vm_compute; reflexivity]
      | intros k id E m v Hm Hv; first [discriminate E | injection E as <- <-; vm_compute in Hm; injection Hm as <-;
          vm_compute in Hv; injection Hv as <-; reflexivity] ]
  | exact no_waits_move | vm_compute; reflexivity | split; reflexivity
  | left; split; [eexists; split_and!; vm_compute; reflexivity|vm_compute; reflexivity] ].

Lemma stop_undoes_start_witness : (exists s3, demo_round 0 s3) /\ (exists s3, demo_round 1 s3).
Proof.
  split.
  - demo_round 0%nat (Some (0%nat, 1), @None nat, @None nat).
  - demo_round 1%nat (@None (nat * Z), Some 0%nat, Some 0%nat).
Defined.
