(* ===== verification/Recorder.v ===== *)
(** * The recorder

    Models [RecorderImpl] of recorder/src/service/qmmf_recorder_impl.h and
    recorder/src/service/qmmf_recorder_impl.cc: the clients, their cameras,
    sessions and tracks.  It is built without PULSE_AUDIO_ENABLE, as it is by
    default; the mutexes it takes make no difference when one operation runs
    at a time, and [StopCamera], which waits, has what happens meanwhile as an
    argument.  The calls of the clients' callbacks are recorded.

    [std::map::operator[]] enters a key that is not there, with the value
    initialised value; [touch] is that effect. *)

From S2P Require Import Prelude KeyedVector Floats ExtraParam Track RecorderTypes.
From Stdlib Require Import SpecFloat.

Inductive ClientState := kAlive | kDead.

Inductive SessionState := kActive | kPause | kIdle.

#[export] Instance ClientState_eq : EqDecision ClientState.
Proof. solve_decision. Defined.

#[export] Instance SessionState_eq : EqDecision SessionState.
Proof. solve_decision. Defined.

(** [type] and the union [format]. *)
Inductive TrackFormat := VideoTrack (f : VideoFormat) | AudioTrack (f : AudioFormat).

Record TrackInfo := mkTrackInfo { ti_track_id : Z; ti_format : TrackFormat }.

Definition TrackInfo_zero : TrackInfo := mkTrackInfo 0 (VideoTrack Video.kRGB).

Abbreviation TrackInfoMap := (kv TrackInfo).
Abbreviation SessionTrackMap := (kv (kv TrackInfo)).

(** Calls of a client's callback. *)
Inductive Notified (M : Type) :=
| CameraOpened (client camera : Z)
| CameraClosing (client camera : Z)
| CameraClosed (client camera : Z)
| CameraError (client camera : Z)
| DeletedVideoTrack (client track : Z)
| VideoTrackData (client session track : Z) (buffers : list BnBuffer)
| AudioTrackData (client session track : Z) (buffers : list BnBuffer)
| SnapshotData (client camera count : Z) (buffer : BnBuffer)
| CameraResult (client camera : Z) (result : M).

Arguments CameraOpened {M}.
Arguments CameraClosing {M}.
Arguments CameraClosed {M}.
Arguments CameraError {M}.
Arguments DeletedVideoTrack {M}.
Arguments VideoTrackData {M}.
Arguments AudioTrackData {M}.
Arguments SnapshotData {M}.
Arguments CameraResult {M}.

Definition touch {V} (dflt : V) (k : Z) (m : kv V) : kv V := if kv_mem k m then m else kv_add k dflt m.

(** [emplace]: a key that is there keeps its value. *)
Definition emplace {V} (k : Z) (v : V) (m : kv V) : kv V := if kv_mem k m then m else kv_add k v m.

Definition at_key {V} (dflt : V) (k : Z) (m : kv V) : V := default dflt (kv_lookup k m).

(** [double] to [float]. *)
Definition f32_of_f64 (x : float64) : float32 :=
  match x with S754_finite s m e => binary_round 24 128 s m e | y => y end.

Section Recorder.
Context {M C E : Type} `{CameraSourceOps M C} `{EncoderCoreOps E}.

(** The instances of the two singletons exist between [Init] and [DeInit].  A
    mutex that [operator[]] has entered is a null pointer, [false]. *)
Record RecorderImpl := mkRecorder {
  unique_session_id_ : Z;
  camera_source_ : option C;
  encoder_core_ : option E;
  timelapse_mode_ : kv bool;
  client_session_map_ : kv SessionTrackMap;
  client_cameraid_map_ : kv (kv bool);
  camera_tracks_map_ : kv (kv unit);
  client_state_ : kv ClientState;
  sessions_state_ : kv SessionState;
  sessions_mutex_map_ : kv bool;
  notified : list (Notified M)
}.

#[export] Instance settable_RecorderImpl : Settable RecorderImpl :=
  {| eta_expand := fun s => mkRecorder (unique_session_id_ s) (camera_source_ s) (encoder_core_ s) (timelapse_mode_ s)
       (client_session_map_ s) (client_cameraid_map_ s) (camera_tracks_map_ s) (client_state_ s) (sessions_state_ s)
       (sessions_mutex_map_ s) (notified s) |}.

Definition RecorderImpl_new : RecorderImpl := mkRecorder 0 None None [] [] [] [] [] [] [] [].

Definition Init : ST RecorderImpl Z :=
  do* modify (fun s => s <| camera_source_ := Some (default cs_new (camera_source_ s)) |>
                         <| encoder_core_ := Some (default ec_new (encoder_core_ s)) |>) in
  ret NO_ERROR.

Definition DeInit : ST RecorderImpl Z :=
  do* modify (fun s => s <| camera_source_ := None |> <| encoder_core_ := None |>) in ret NO_ERROR.

(** A call of the camera source or of the encoder core. *)
Definition camera {A} (m : ST C A) : ST RecorderImpl A := fun s =>
  match camera_source_ s with
  | None => None
  | Some c => match m c with None => None | Some (a, c') => Some (a, s <| camera_source_ := Some c' |>) end
  end.

Definition encoder {A} (m : ST E A) : ST RecorderImpl A := fun s =>
  match encoder_core_ s with
  | None => None
  | Some c => match m c with None => None | Some (a, c') => Some (a, s <| encoder_core_ := Some c' |>) end
  end.

Definition notify (n : Notified M) : ST RecorderImpl unit := modify (fun s => s <| notified := notified s ++ [n] |>).

(** ** What is known *)

Definition IsClientValid (client : Z) : ST RecorderImpl bool := gets (fun s => kv_mem client (client_session_map_ s)).

Definition IsClientAlive (client : Z) : ST RecorderImpl bool :=
  do* modify (fun s => s <| client_state_ := touch kAlive client (client_state_ s) |>) in
  gets (fun s => bool_decide (at_key kAlive client (client_state_ s) = kAlive)).

Definition IsSessionValid (client session : Z) : ST RecorderImpl bool :=
  do* modify (fun s => s <| client_session_map_ := touch [] client (client_session_map_ s) |>) in
  gets (fun s => kv_mem session (at_key [] client (client_session_map_ s))).

(** [client_session_map_[client][session]] *)
Definition touch_session (client session : Z) (s : RecorderImpl) : RecorderImpl :=
  s <| client_session_map_ :=
         kv_add client (touch [] session (at_key [] client (client_session_map_ s))) (client_session_map_ s) |>.

Definition tracks_of (client session : Z) (s : RecorderImpl) : TrackInfoMap :=
  at_key [] session (at_key [] client (client_session_map_ s)).

Definition set_tracks (client session : Z) (f : TrackInfoMap -> TrackInfoMap) : ST RecorderImpl unit :=
  modify (fun s => s <| client_session_map_ :=
    kv_add client (kv_add session (f (tracks_of client session s)) (at_key [] client (client_session_map_ s)))
      (client_session_map_ s) |>).

Definition IsTrackValid (client session track : Z) : ST RecorderImpl bool :=
  do* modify (touch_session client session) in
  gets (fun s => kv_mem track (tracks_of client session s)).

Definition IsCameraValid (client camera_id : Z) : ST RecorderImpl bool :=
  let* s := gets id in
  if kv_mem client (client_session_map_ s) then
    do* modify (fun s => s <| client_cameraid_map_ := touch [] client (client_cameraid_map_ s) |>) in
    gets (fun s => at_key false camera_id (at_key [] client (client_cameraid_map_ s)))
  else ret false.

(** Another client is the owner of the camera. *)
Definition owned_by_other (client camera_id : Z) (m : kv (kv bool)) : bool :=
  existsb (fun p => negb (client =? fst p) && at_key false camera_id (snd p)) m.

Definition IsCameraOwned (client camera_id : Z) : ST RecorderImpl bool :=
  gets (fun s => owned_by_other client camera_id (client_cameraid_map_ s)).

Definition session_is (state : SessionState) (session : Z) : ST RecorderImpl bool :=
  do* modify (fun s => s <| sessions_state_ := touch kActive session (sessions_state_ s) |>) in
  gets (fun s => bool_decide (at_key kActive session (sessions_state_ s) = state)).

Definition IsSessionActive : Z -> ST RecorderImpl bool := session_is kActive.
Definition IsSessionPaused : Z -> ST RecorderImpl bool := session_is kPause.
Definition IsSessionIdle : Z -> ST RecorderImpl bool := session_is kIdle.

Definition ChangeSessionState (session : Z) (state : SessionState) : ST RecorderImpl unit :=
  modify (fun s => s <| sessions_state_ := kv_add session state (sessions_state_ s) |>).

Definition GetUniqueServiceTrackId (client session track : Z) : Z :=
  Z.lor (Z.lor (u32 (Z.shiftl client 24)) (u32 (Z.shiftl session 16))) track.

Definition GetServiceTrackInfo (client session track : Z) : ST RecorderImpl TrackInfo :=
  do* modify (touch_session client session) in
  gets (fun s => at_key TrackInfo_zero track (tracks_of client session s)).

(** The first session of the client with the track, or 0. *)
Definition GetServiceTrackId (client track : Z) : ST RecorderImpl Z :=
  do* modify (fun s => s <| client_session_map_ := touch [] client (client_session_map_ s) |>) in
  gets (fun s => match List.find (kv_mem track) (kv_values (at_key [] client (client_session_map_ s))) with
                 | Some tracks => ti_track_id (at_key TrackInfo_zero track tracks)
                 | None => NO_ERROR
                 end).

Definition GetCameraClients (camera_id : Z) (s : RecorderImpl) : list Z :=
  map fst (List.filter (fun p => kv_mem camera_id (snd p)) (client_cameraid_map_ s)).

(** ** Clients *)

Definition RegisterClient (client : Z) : ST RecorderImpl Z :=
  let* valid := IsClientValid client in
  if valid then ret NO_ERROR
  else
    do* modify (fun s => s <| client_session_map_ := kv_add client [] (client_session_map_ s) |>
                           <| client_state_ := emplace client kAlive (client_state_ s) |>
                           <| client_cameraid_map_ := emplace client [] (client_cameraid_map_ s) |>) in
    ret NO_ERROR.

(** ** Cameras *)

(** All clients but one are told. *)
Definition tell_others (client : Z) (n : Z -> Notified M) : ST RecorderImpl unit :=
  let* s := gets id in
  for_each (kv_keys (client_cameraid_map_ s)) (fun other =>
    if other =? client then ret tt else notify (n other)).

Definition set_cameras (client : Z) (f : kv bool -> kv bool) : ST RecorderImpl unit :=
  modify (fun s => s <| client_cameraid_map_ :=
    kv_add client (f (at_key [] client (client_cameraid_map_ s))) (client_cameraid_map_ s) |>).

(** The mode the client opens the camera in. *)
Definition slave_mode (x : ExtraParam) : option Z :=
  if Exists QMMF_CAMERA_SLAVE_MODE x && (EntryCount QMMF_CAMERA_SLAVE_MODE x =? 1)
  then fetch_word QMMF_CAMERA_SLAVE_MODE 0 x else Some 0.

Definition StartCamera (client camera_id : Z) (frame_rate : float32) (x : ExtraParam) (results : bool) : ST RecorderImpl Z :=
  let* valid := IsClientValid client in
  if negb valid then ret BAD_VALUE
  else
    let* owned := IsCameraOwned client camera_id in
    match slave_mode x with
    | None => undefined
    | Some mode =>
        if (mode =? kSlave) && negb owned then ret NAME_NOT_FOUND
        else if (mode =? kSlave) && owned then
          do* set_cameras client (emplace camera_id false) in ret NO_ERROR
        else if owned then ret INVALID_OPERATION
        else
          let* mine := IsCameraValid client camera_id in
          if mine then ret INVALID_OPERATION
          else
            let* r := camera (cs_StartCamera camera_id frame_rate x results) in
            if negb (r =? NO_ERROR) then ret BAD_VALUE
            else
              do* tell_others client (fun other => CameraOpened other camera_id) in
              do* set_cameras client (emplace camera_id true) in
              let* r := camera (cs_SetFlushCb camera_id) in
              if negb (r =? NO_ERROR) then ret BAD_VALUE else ret NO_ERROR
    end.

(** No client has the camera as a slave. *)
Definition slaves_closed (camera_id : Z) (s : RecorderImpl) : bool :=
  forallb (fun p => at_key true camera_id (snd p)) (client_cameraid_map_ s).

(** [ws]: what happens during each wait, and whether it ends with a signal or
    times out. *)
Fixpoint wait_slaves (ws : list (bool * ST RecorderImpl unit)) (camera_id : Z) : ST RecorderImpl bool := fun s =>
  if slaves_closed camera_id s then Some (true, s)
  else
    match ws with
    | [] => None
    | (signalled, w) :: ws' =>
        match w s with
        | None => None
        | Some (_, s') => if signalled : bool then wait_slaves ws' camera_id s' else Some (false, s')
        end
    end.

Definition StopCamera (ws : list (bool * ST RecorderImpl unit)) (client camera_id : Z) : ST RecorderImpl Z :=
  let* valid := IsClientValid client in
  if negb valid then ret BAD_VALUE
  else
    let* owned := IsCameraOwned client camera_id in
    if owned then do* set_cameras client (kv_remove camera_id) in ret NO_ERROR
    else
      let* mine := IsCameraValid client camera_id in
      if negb mine then ret INVALID_OPERATION
      else
        let* s := gets id in
        match camera_source_ s with
        | None => undefined
        | Some _ =>
            do* tell_others client (fun other => CameraClosing other camera_id) in
            let* closed := wait_slaves ws camera_id in
            if negb closed then ret TIMED_OUT
            else
              let* r := camera (cs_StopCamera camera_id) in
              if negb (r =? NO_ERROR) then ret BAD_VALUE
              else
                do* set_cameras client (kv_remove camera_id) in
                do* tell_others client (fun other => CameraClosed other camera_id) in
                ret NO_ERROR
        end.

(** ** Sessions *)

Definition CreateSession (client : Z) : ST RecorderImpl (Z * Z) :=
  let* valid := IsClientValid client in
  if negb valid then ret (BAD_VALUE, 0)
  else
    let* s := gets id in
    match camera_source_ s with
    | None => ret (NO_INIT, 0)
    | Some _ =>
        let session := u32 (unique_session_id_ s + 1) in
        do* modify (fun s => s <| unique_session_id_ := session |>
              <| client_session_map_ :=
                   kv_add client (emplace session [] (at_key [] client (client_session_map_ s))) (client_session_map_ s) |>
              <| sessions_state_ := emplace session kIdle (sessions_state_ s) |>
              <| sessions_mutex_map_ := emplace session true (sessions_mutex_map_ s) |>) in
        ret (NO_ERROR, session)
    end.

Definition session_count (s : RecorderImpl) : Z :=
  fold_left (fun n p => u32 (n + Z.of_nat (length (snd p)))) (client_session_map_ s) 0.

Definition DeleteSession (client session : Z) : ST RecorderImpl Z :=
  let* valid := IsClientValid client in
  if negb valid then ret BAD_VALUE
  else
    let* valid := IsSessionValid client session in
    if negb valid then ret BAD_VALUE
    else
      let* s := gets id in
      match tracks_of client session s with
      | _ :: _ => ret INVALID_OPERATION
      | [] =>
          do* modify (fun s => s
                <| client_session_map_ :=
                     kv_add client (kv_remove session (at_key [] client (client_session_map_ s))) (client_session_map_ s) |>
                <| sessions_state_ := kv_remove session (sessions_state_ s) |>
                <| sessions_mutex_map_ := kv_remove session (sessions_mutex_map_ s) |>) in
          do* modify (fun s => if session_count s =? 0 then s <| unique_session_id_ := 0 |> else s) in
          ret NO_ERROR
      end.

(** The maps are read and the mutex of the session is locked. *)
Definition lock_session (client session : Z) : ST RecorderImpl unit :=
  do* modify (touch_session client session) in
  do* modify (fun s => s <| sessions_mutex_map_ := touch false session (sessions_mutex_map_ s) |>) in
  let* s := gets id in
  if at_key false session (sessions_mutex_map_ s) then ret tt else undefined.

(** The tracks one after the other, until one fails. *)
Fixpoint each_track (tracks : TrackInfoMap) (body : TrackInfo -> ST RecorderImpl Z) : ST RecorderImpl Z :=
  match tracks with
  | [] => ret NO_ERROR
  | (_, t) :: tracks' =>
      let* r := body t in
      if r =? NO_ERROR then each_track tracks' body else ret r
  end.

Definition start_track (t : TrackInfo) : ST RecorderImpl Z :=
  match ti_format t with
  | AudioTrack _ => ret NO_ERROR
  | VideoTrack f =>
      let* r := camera (cs_StartTrackSource (ti_track_id t)) in
      if negb (r =? NO_ERROR) then ret r
      else if is_encoded f then encoder (ec_StartTrackEncoder (ti_track_id t)) else ret NO_ERROR
  end.

Definition stop_track (force : bool) (t : TrackInfo) : ST RecorderImpl Z :=
  match ti_format t with
  | AudioTrack _ => ret NO_ERROR
  | VideoTrack f =>
      let* r := camera (cs_StopTrackSource (ti_track_id t)) in
      if negb (r =? NO_ERROR) then ret r
      else if is_encoded f then encoder (ec_StopTrackEncoder (ti_track_id t) force) else ret NO_ERROR
  end.

Definition pause_track (t : TrackInfo) : ST RecorderImpl Z :=
  match ti_format t with
  | AudioTrack _ => ret NO_ERROR
  | VideoTrack _ => camera (cs_PauseTrackSource (ti_track_id t))
  end.

Definition resume_track (t : TrackInfo) : ST RecorderImpl Z :=
  match ti_format t with
  | AudioTrack _ => ret NO_ERROR
  | VideoTrack _ => camera (cs_ResumeTrackSource (ti_track_id t))
  end.

(** The state of the session after its tracks have all done their part. *)
Definition conclude (session : Z) (state : SessionState) (r : Z) : ST RecorderImpl Z :=
  do* (if r =? NO_ERROR then ChangeSessionState session state else ret tt) in ret r.

Definition ResumeSession (client session : Z) : ST RecorderImpl Z :=
  let* valid := IsClientValid client in
  if negb valid then ret BAD_VALUE
  else
    let* valid := IsSessionValid client session in
    if negb valid then ret BAD_VALUE
    else
      let* paused := IsSessionPaused session in
      if negb paused then ret NO_ERROR
      else
        let* s := gets id in
        let* r := each_track (tracks_of client session s) resume_track in
        conclude session kActive r.

Definition StartSession (client session : Z) : ST RecorderImpl Z :=
  do* lock_session client session in
  let* valid := IsClientValid client in
  if negb valid then ret BAD_VALUE
  else
    let* valid := IsSessionValid client session in
    if negb valid then ret BAD_VALUE
    else
      let* paused := IsSessionPaused session in
      if paused then let* r := ResumeSession client session in ret NO_ERROR
      else
        let* active := IsSessionActive session in
        if active then ret NO_ERROR
        else
          let* idle := IsSessionIdle session in
          if negb idle then ret NO_ERROR
          else
            let* s := gets id in
            let* r := each_track (tracks_of client session s) start_track in
            conclude session kActive r.

Definition StopSession (client session : Z) (force : bool) : ST RecorderImpl Z :=
  do* lock_session client session in
  let* valid := IsClientValid client in
  if negb valid then ret BAD_VALUE
  else
    let* valid := IsSessionValid client session in
    if negb valid then ret BAD_VALUE
    else
      let* idle := IsSessionIdle session in
      if idle then ret NO_ERROR
      else
        let* s := gets id in
        let* r := each_track (rev (tracks_of client session s)) (stop_track force) in
        conclude session kIdle r.

Definition PauseSession (client session : Z) : ST RecorderImpl Z :=
  let* valid := IsClientValid client in
  if negb valid then ret BAD_VALUE
  else
    let* valid := IsSessionValid client session in
    if negb valid then ret BAD_VALUE
    else
      let* paused := IsSessionPaused session in
      if paused then ret NO_ERROR
      else
        let* idle := IsSessionIdle session in
        if idle then ret NO_ERROR
        else
          let* s := gets id in
          let* r := each_track (rev (tracks_of client session s)) pause_track in
          conclude session kPause r.

(** ** Tracks *)

(** The checks that most operations on a track begin with: what is wrong, if
    anything. *)
Definition check_track (exists_ : bool) (client session track : Z) : ST RecorderImpl (option Z) :=
  let* valid := IsClientValid client in
  if negb valid then ret (Some BAD_VALUE)
  else
    let* valid := IsSessionValid client session in
    if negb valid then ret (Some BAD_VALUE)
    else
      let* known := IsTrackValid client session track in
      if Bool.eqb known exists_ then ret None else ret (Some BAD_VALUE).

Definition IsAudioTrackCreateParamValid (p : AudioTrackCreateParam) : bool :=
  match at_format p with
  | Audio.kMPEGH => (at_channels p =? 4) && (at_sample_rate p =? 48000) &&
      ((at_mpegh_bit_rate p =? 307200) || (at_mpegh_bit_rate p =? 393216) || (at_mpegh_bit_rate p =? 524288))
  | _ => true
  end.

Definition CreateAudioTrack (client session track : Z) (p : AudioTrackCreateParam) : ST RecorderImpl Z :=
  let* wrong := check_track false client session track in
  match wrong with
  | Some e => ret e
  | None =>
      if negb (IsAudioTrackCreateParamValid p) then ret BAD_VALUE
      else
        let info := mkTrackInfo (GetUniqueServiceTrackId client session track) (AudioTrack (at_format p)) in
        do* set_tracks client session (emplace track info) in
        ret NO_ERROR
  end.

Definition DeleteAudioTrack (client session track : Z) : ST RecorderImpl Z :=
  let* wrong := check_track true client session track in
  match wrong with
  | Some e => ret e
  | None => do* set_tracks client session (kv_remove track) in ret NO_ERROR
  end.

(** What [CreateVideoTrack] does once the parameters are known.  [timelapse]:
    what it does with a time lapse, in one of its two variants. *)
Definition add_video_track (client session track : Z) (vp : VideoTrackParams) (timelapse : ST RecorderImpl Z) : ST RecorderImpl Z :=
  let f := vt_format_type (params vp) in
  let* r := camera (cs_CreateTrackSource (track_id vp) vp) in
  if negb (r =? NO_ERROR) then ret BAD_VALUE
  else
    let* r :=
      (if is_encoded f then
         let* s := gets id in
         match camera_source_ s with
         | None => undefined
         | Some c =>
             match cs_GetTrackSource (track_id vp) c with
             | None => undefined
             | Some _ =>
                 let* r := encoder (ec_AddSource (track_id vp) vp) in
                 if negb (r =? NO_ERROR) then ret BAD_VALUE else timelapse
             end
         end
       else ret NO_ERROR) in
    if negb (r =? NO_ERROR) then ret r
    else
      let camera_id := vt_camera_id (params vp) in
      do* modify (fun s => s <| camera_tracks_map_ :=
            kv_add camera_id (emplace (track_id vp) tt (at_key [] camera_id (camera_tracks_map_ s))) (camera_tracks_map_ s) |>) in
      do* set_tracks client session (emplace track (mkTrackInfo (track_id vp) (VideoTrack f))) in
      ret NO_ERROR.

(** The variant of [CreateVideoTrack] without extra parameters. *)
Definition CreateVideoTrack (client session track : Z) (p : VideoTrackCreateParam) : ST RecorderImpl Z :=
  let* wrong := check_track false client session track in
  match wrong with
  | Some e => ret e
  | None =>
      match extra_copy ExtraParam_new with
      | None => undefined
      | Some x =>
          let id := GetUniqueServiceTrackId client session track in
          add_video_track client session track (mkVideoTrack p x id (client, session, track)) (ret NO_ERROR)
      end
  end.

(** The parameters that the camera source has of each track of a session. *)
Definition source_params (c : C) (tracks : TrackInfoMap) : option (list (Z * VideoTrackCreateParam)) :=
  mapM (fun p => (fun vp => (ti_track_id (snd p), params vp)) <$> cs_GetTrackSource (ti_track_id (snd p)) c) tracks.

(** The first track of the same size. *)
Definition same_size (p : VideoTrackCreateParam) (q : Z * VideoTrackCreateParam) : bool :=
  (vt_width p =? vt_width (snd q)) && (vt_height p =? vt_height (snd q)).

(** One step of the search for the smallest track that is large enough: the
    track selected so far, and its size. *)
Definition smaller_fit (p : VideoTrackCreateParam) (best : Z * bool * (Z * Z)) (q : Z * VideoTrackCreateParam)
    : Z * bool * (Z * Z) :=
  let '(sel, found, (w, h)) := best in
  let qw := vt_width (snd q) in
  let qh := vt_height (snd q) in
  if (vt_width p <=? qw) && (vt_height p <=? qh) && ((w =? 0) || (qw <? w) || ((h =? 0) || (qh <? h)))
  then (fst q, true, (qw, qh)) else best.

(** The look at the tracks of one session; the parameters of a track that is
    not reached before one of the same size are not asked for. *)
Fixpoint find_same (c : C) (p : VideoTrackCreateParam) (tracks : TrackInfoMap) : option (option Z) :=
  match tracks with
  | [] => Some None
  | (_, t) :: tracks' =>
      match cs_GetTrackSource (ti_track_id t) c with
      | None => None
      | Some vp => if same_size p (ti_track_id t, params vp) then Some (Some (ti_track_id t)) else find_same c p tracks'
      end
  end.

Definition link_in_session (c : C) (p : VideoTrackCreateParam) (best : Z * bool) (tracks : TrackInfoMap) : option (Z * bool) :=
  match find_same c p tracks with
  | None => None
  | Some same =>
      let best1 := match same with Some t => (t, true) | None => best end in
      if snd best1 then Some best1
      else match source_params c tracks with
           | None => None
           | Some qs => let '(sel, found, _) := fold_left (smaller_fit p) qs (best1, (0, 0)) in Some (sel, found)
           end
  end.

Fixpoint link_in_sessions (c : C) (p : VideoTrackCreateParam) (best : Z * bool) (sessions : list TrackInfoMap)
    : option (Z * bool) :=
  match sessions with
  | [] => Some best
  | tracks :: sessions' =>
      match link_in_session c p best tracks with
      | None => None
      | Some best' => link_in_sessions c p best' sessions'
      end
  end.

Definition no_track : Z := 4294967295.

(** The sessions of the first client that is the owner of the camera. *)
Fixpoint link_with_owner (clients : list Z) (p : VideoTrackCreateParam) : ST RecorderImpl Z :=
  match clients with
  | [] => ret no_track
  | client :: clients' =>
      let* owner := IsCameraValid client (vt_camera_id p) in
      if negb owner then link_with_owner clients' p
      else
        do* modify (fun s => s <| client_session_map_ := touch [] client (client_session_map_ s) |>) in
        let* s := gets id in
        let sessions := kv_values (at_key [] client (client_session_map_ s)) in
        match concat sessions, camera_source_ s with
        | [], _ => ret no_track
        | _, None => undefined
        | _, Some c =>
            match link_in_sessions c p (no_track, false) sessions with
            | None => undefined
            | Some (t, _) => ret t
            end
        end
  end.

Definition FindSuitableIdForLinkedTrack (p : VideoTrackCreateParam) : ST RecorderImpl Z :=
  let* s := gets id in link_with_owner (GetCameraClients (vt_camera_id p) s) p.

(** [Update] of entry 0 with a structure of one number. *)
Definition put_word (tag v : Z) (x : ExtraParam) : option ExtraParam :=
  snd <$> Update tag (bytes32 tag ++ bytes32 v) 0 x.

(** The source track that the extra parameters name is made a track of the
    service; [inl] is an error. *)
Definition resolve_source (client : Z) (p : VideoTrackCreateParam) (x : ExtraParam) : ST RecorderImpl (Z + ExtraParam) :=
  if Exists QMMF_SOURCE_VIDEO_TRACK_ID x then
    match fetch_word QMMF_SOURCE_VIDEO_TRACK_ID no_track x with
    | None => undefined
    | Some source =>
        let* t := GetServiceTrackId client source in
        match put_word QMMF_SOURCE_VIDEO_TRACK_ID t x with None => undefined | Some x' => ret (inr x') end
    end
  else if Exists QMMF_USE_LINKED_TRACK_IN_SLAVE_MODE x then
    match fetch_flag QMMF_USE_LINKED_TRACK_IN_SLAVE_MODE false x with
    | None => undefined
    | Some false => ret (inr x)
    | Some true =>
        let* t := FindSuitableIdForLinkedTrack p in
        if t =? no_track then ret (inl BAD_VALUE)
        else match put_word QMMF_SOURCE_VIDEO_TRACK_ID t x with None => undefined | Some x' => ret (inr x') end
    end
  else ret (inr x).

(** The frame rate of the encoder of a time lapse. *)
Definition timelapse_rate (interval : Z) : float32 := f32_of_f64 (f64_div (f64_of_Z 1000) (f64_of_Z interval)).

Definition set_timelapse (id track : Z) (x : ExtraParam) : ST RecorderImpl Z :=
  if Exists QMMF_VIDEO_TIMELAPSE_INTERVAL x then
    do* modify (fun s => s <| timelapse_mode_ := emplace track true (timelapse_mode_ s) |>) in
    match fetch_word QMMF_VIDEO_TIMELAPSE_INTERVAL 33 x with
    | None => undefined
    | Some interval => encoder (ec_SetTrackEncoderParams id (kFrameRateType (timelapse_rate interval)))
    end
  else ret NO_ERROR.

(** The variant of [CreateVideoTrack] with extra parameters. *)
Definition CreateVideoTrack_extra (client session track : Z) (p : VideoTrackCreateParam) (x : ExtraParam) : ST RecorderImpl Z :=
  let* wrong := check_track false client session track in
  match wrong with
  | Some e => ret e
  | None =>
      match extra_copy x with
      | None => undefined
      | Some x1 =>
          let* resolved := resolve_source client p x1 in
          match resolved with
          | inl e => ret e
          | inr x2 =>
              let id := GetUniqueServiceTrackId client session track in
              add_video_track client session track (mkVideoTrack p x2 id (client, session, track)) (set_timelapse id track x)
          end
      end
  end.

(** The track leaves the first camera that has it, under the number the client
    knows it by. *)
Fixpoint drop_camera_track (service track : Z) (m : kv (kv unit)) : kv (kv unit) :=
  match m with
  | [] => []
  | (camera_id, tracks) :: m' =>
      if kv_mem service tracks then (camera_id, kv_remove track tracks) :: m'
      else (camera_id, tracks) :: drop_camera_track service track m'
  end.

Definition DeleteVideoTrack (client session track : Z) : ST RecorderImpl Z :=
  let* wrong := check_track true client session track in
  match wrong with
  | Some e => ret e
  | None =>
      let* s := gets id in
      let info := at_key TrackInfo_zero track (tracks_of client session s) in
      let service := ti_track_id info in
      match ti_format info with
      | AudioTrack _ => undefined
      | VideoTrack f =>
          if service =? 0 then undefined
          else
            let* r := camera (cs_DeleteTrackSource service) in
            if negb (r =? NO_ERROR) then ret r
            else
              let* r := (if is_encoded f then encoder (ec_DeleteTrackEncoder service) else ret NO_ERROR) in
              if negb (r =? NO_ERROR) then ret r
              else
                do* modify (fun s => s <| camera_tracks_map_ := drop_camera_track service track (camera_tracks_map_ s) |>) in
                do* set_tracks client session (kv_remove track) in
                do* notify (DeletedVideoTrack client track) in
                do* modify (fun s => s <| timelapse_mode_ := kv_remove track (timelapse_mode_ s) |>) in
                ret NO_ERROR
      end
  end.

(** An assertion on a result. *)
Definition expect (ok : bool) : ST RecorderImpl unit := if ok then ret tt else undefined.

Definition ReturnTrackBuffer (client session track : Z) (buffers : list BnBuffer) : ST RecorderImpl Z :=
  let* wrong := check_track true client session track in
  match wrong with
  | Some e => ret e
  | None =>
      let* info := GetServiceTrackInfo client session track in
      match ti_format info with
      | AudioTrack _ => ret NO_ERROR
      | VideoTrack f =>
          let* r := (if is_encoded f then encoder (ec_ReturnTrackBuffer (ti_track_id info) buffers)
                     else camera (cs_ReturnTrackBuffer (ti_track_id info) buffers)) in
          do* expect (r =? NO_ERROR) in ret NO_ERROR
      end
  end.

Definition SetAudioTrackParam (client session track : Z) : ST RecorderImpl Z :=
  let* wrong := check_track true client session track in
  match wrong with Some e => ret e | None => ret NO_ERROR end.

Definition is_frame_rate (p : CodecParam) : bool := match p with kFrameRateType _ => true | _ => false end.

Definition SetVideoTrackParam (client session track : Z) (p : CodecParam) : ST RecorderImpl Z :=
  let* wrong := check_track true client session track in
  match wrong with
  | Some e => ret e
  | None =>
      let* info := GetServiceTrackInfo client session track in
      do* modify (fun s => s <| timelapse_mode_ := touch false track (timelapse_mode_ s) |>) in
      let* lapse := gets (fun s => at_key false track (timelapse_mode_ s)) in
      let* r := (if lapse && is_frame_rate p then ret NO_ERROR
                 else encoder (ec_SetTrackEncoderParams (ti_track_id info) p)) in
      if negb (r =? NO_ERROR) then ret r
      else
        match p with
        | kFrameRateType fps => camera (cs_UpdateTrackFrameRate (ti_track_id info) fps)
        | kEnableFrameRepeat enable => camera (cs_EnableFrameRepeat (ti_track_id info) enable)
        | OtherParam _ _ => ret NO_ERROR
        end
  end.

(** ** Images and camera parameters *)

(** An operation on a camera that the client must be the owner of. *)
Definition on_own_camera {A} (client camera_id : Z) (fail : Z -> A) (op : ST RecorderImpl A) : ST RecorderImpl A :=
  let* valid := IsClientValid client in
  if negb valid then ret (fail BAD_VALUE)
  else
    let* mine := IsCameraValid client camera_id in
    if negb mine then ret (fail INVALID_OPERATION) else op.

Definition CaptureImage (client camera_id num_images : Z) (meta : list M) : ST RecorderImpl Z :=
  on_own_camera client camera_id (fun e => e) (camera (cs_CaptureImage camera_id num_images meta client)).

Definition ConfigImageCapture (client camera_id : Z) (p : ImageParam) (config : ExtraParam) : ST RecorderImpl Z :=
  on_own_camera client camera_id (fun e => e) (camera (cs_ConfigImageCapture camera_id p config)).

Definition CancelCaptureImage (client camera_id : Z) : ST RecorderImpl Z :=
  on_own_camera client camera_id (fun e => e) (camera (cs_CancelCaptureImage camera_id)).

Definition ReturnImageCaptureBuffer (client camera_id buffer : Z) : ST RecorderImpl Z :=
  camera (cs_ReturnImageCaptureBuffer camera_id buffer).

Definition SetCameraParam (client camera_id : Z) (meta : M) : ST RecorderImpl Z :=
  on_own_camera client camera_id (fun e => e) (camera (cs_SetCameraParam camera_id meta)).

Definition GetCameraParam (client camera_id : Z) (meta : M) : ST RecorderImpl (Z * M) :=
  on_own_camera client camera_id (fun e => (e, meta)) (camera (cs_GetCameraParam camera_id meta)).

Definition GetDefaultCaptureParam (client camera_id : Z) (meta : M) : ST RecorderImpl (Z * M) :=
  on_own_camera client camera_id (fun e => (e, meta)) (camera (cs_GetDefaultCaptureParam camera_id meta)).

Definition GetCameraCharacteristics (client camera_id : Z) (meta : M) : ST RecorderImpl (Z * M) :=
  on_own_camera client camera_id (fun e => (e, meta)) (camera (cs_GetCameraCharacteristics camera_id meta)).

(** ** Callbacks *)

(** Data of a track: a dead client's goes back at once. *)
Definition track_data (client session track : Z) (buffers : list BnBuffer) (n : Notified M) : ST RecorderImpl unit :=
  let* valid := IsClientValid client in
  do* expect valid in
  let* alive := IsClientAlive client in
  if negb alive then let* r := ReturnTrackBuffer client session track buffers in ret tt
  else notify n.

Definition VideoTrackBufferCb (client session track : Z) (buffers : list BnBuffer) : ST RecorderImpl unit :=
  track_data client session track buffers (VideoTrackData client session track buffers).

Definition AudioTrackBufferCb (client session track : Z) (buffers : list BnBuffer) : ST RecorderImpl unit :=
  track_data client session track buffers (AudioTrackData client session track buffers).

Definition CameraSnapshotCb (client camera_id count : Z) (b : BnBuffer) : ST RecorderImpl unit :=
  let* valid := IsClientValid client in
  do* expect valid in
  notify (SnapshotData client camera_id count b).

Definition flushed (r : Z) : bool := (r =? NO_ERROR) || (r =? NAME_NOT_FOUND).

Definition CameraFlushCb (camera_id : Z) : ST RecorderImpl unit :=
  do* modify (fun s => s <| camera_tracks_map_ := touch [] camera_id (camera_tracks_map_ s) |>) in
  let* s := gets id in
  for_each (kv_keys (at_key [] camera_id (camera_tracks_map_ s))) (fun t =>
    let* s := gets id in
    do* (match encoder_core_ s with
         | Some _ => let* r := encoder (ec_FlushTrack t) in expect (flushed r)
         | None => ret tt end) in
    match camera_source_ s with
    | Some _ => let* r := camera (cs_FlushTrack t) in expect (flushed r)
    | None => ret tt end).

(** All clients of a camera are told. *)
Definition tell_clients (camera_id : Z) (n : Z -> Notified M) : ST RecorderImpl unit :=
  let* s := gets id in
  for_each (GetCameraClients camera_id s) (fun client =>
    let* valid := IsClientValid client in
    do* expect valid in
    notify (n client)).

Definition CameraResultCb (camera_id : Z) (result : M) : ST RecorderImpl unit :=
  tell_clients camera_id (fun client => CameraResult client camera_id result).

Definition CameraErrorCb (camera_id : Z) : ST RecorderImpl unit :=
  tell_clients camera_id (fun client => CameraError client camera_id).

(** ** Clients that go *)

(** The result of the last of the calls, of which none is left out. *)
Definition last_result {A} (l : list A) (r0 : Z) (body : A -> Z -> ST RecorderImpl Z) : ST RecorderImpl Z :=
  fold_left (fun m a => let* r := m in body a r) l (ret r0).

Definition flush_tracks (tracks : TrackInfoMap) (r0 : Z) : ST RecorderImpl Z :=
  last_result (rev tracks) r0 (fun p r =>
    match ti_format (snd p) with
    | VideoTrack _ => camera (cs_FlushTrackSource (ti_track_id (snd p)))
    | AudioTrack _ => ret r
    end).

Definition ForceReturnBuffers (client : Z) : ST RecorderImpl Z :=
  let* s := gets id in
  match camera_source_ s with
  | None => undefined
  | Some _ =>
      do* modify (fun s => s <| client_cameraid_map_ := touch [] client (client_cameraid_map_ s) |>) in
      let* s := gets id in
      let* r := last_result (kv_keys (at_key [] client (client_cameraid_map_ s))) NO_ERROR (fun camera_id _ =>
        let* r := camera (cs_ReturnAllImageCaptureBuffers camera_id) in
        do* CameraFlushCb camera_id in ret r) in
      do* modify (fun s => s <| client_session_map_ := touch [] client (client_session_map_ s) |>) in
      let* s := gets id in
      last_result (kv_values (at_key [] client (client_session_map_ s))) r flush_tracks
  end.

(** The end of a session of a dead client. *)
Definition end_session (client : Z) (session : Z * TrackInfoMap) : ST RecorderImpl unit :=
  let* r := StopSession client (fst session) true in
  do* for_each (rev (snd session)) (fun t =>
        match ti_format (snd t) with
        | VideoTrack _ => let* r := DeleteVideoTrack client (fst session) (fst t) in ret tt
        | AudioTrack _ => ret tt
        end) in
  let* r := DeleteSession client (fst session) in ret tt.

(** The client is not connected any more when its cameras are to be stopped,
    so that [StopCamera] does not get to its wait. *)
Definition DeRegisterClient (client : Z) (force : bool) : ST RecorderImpl Z :=
  let* valid := IsClientValid client in
  if negb valid then ret BAD_VALUE
  else if negb force then
    do* modify (fun s =>
          let cameras := touch [] client (client_cameraid_map_ s) in
          s <| client_cameraid_map_ := match at_key [] client cameras with [] => kv_remove client cameras | _ => cameras end |>) in
    ret NO_ERROR
  else
    do* modify (fun s => s <| client_state_ := kv_add client kDead (client_state_ s) |>) in
    let* r := ForceReturnBuffers client in
    do* modify (fun s => s <| client_session_map_ := touch [] client (client_session_map_ s) |>) in
    let* s := gets id in
    do* for_each (at_key [] client (client_session_map_ s)) (end_session client) in
    do* modify (fun s => s <| client_session_map_ := kv_remove client (client_session_map_ s) |>
                           <| client_cameraid_map_ := touch [] client (client_cameraid_map_ s) |>) in
    let* s := gets id in
    do* for_each (kv_keys (at_key [] client (client_cameraid_map_ s))) (fun camera_id =>
          let* r := StopCamera [] client camera_id in ret tt) in
    do* modify (fun s => s <| client_cameraid_map_ := kv_remove client (client_cameraid_map_ s) |>
                           <| client_state_ := kv_remove client (client_state_ s) |>) in
    ret NO_ERROR.

(** ** Operations *)

(** The calls of the service, but the one that waits, and what the threads of
    the cameras call back. *)
Inductive RecorderOp :=
| OpRegister (client : Z)
| OpDeRegister (client : Z) (force : bool)
| OpStartCamera (client camera_id : Z) (frame_rate : float32) (x : ExtraParam) (results : bool)
| OpCreateSession (client : Z)
| OpDeleteSession (client session : Z)
| OpStartSession (client session : Z)
| OpStopSession (client session : Z)
| OpPauseSession (client session : Z)
| OpResumeSession (client session : Z)
| OpCreateAudioTrack (client session track : Z) (p : AudioTrackCreateParam)
| OpDeleteAudioTrack (client session track : Z)
| OpCreateVideoTrack (client session track : Z) (p : VideoTrackCreateParam)
| OpCreateVideoTrackExtra (client session track : Z) (p : VideoTrackCreateParam) (x : ExtraParam)
| OpDeleteVideoTrack (client session track : Z)
| OpReturnTrackBuffer (client session track : Z) (buffers : list BnBuffer)
| OpSetAudioTrackParam (client session track : Z)
| OpSetVideoTrackParam (client session track : Z) (p : CodecParam)
| OpCaptureImage (client camera_id num_images : Z) (meta : list M)
| OpConfigImageCapture (client camera_id : Z) (p : ImageParam) (config : ExtraParam)
| OpCancelCaptureImage (client camera_id : Z)
| OpReturnImageCaptureBuffer (client camera_id buffer : Z)
| OpSetCameraParam (client camera_id : Z) (meta : M)
| OpGetCameraParam (client camera_id : Z) (meta : M)
| OpGetDefaultCaptureParam (client camera_id : Z) (meta : M)
| OpGetCameraCharacteristics (client camera_id : Z) (meta : M)
| OpVideoData (client session track : Z) (buffers : list BnBuffer)
| OpAudioData (client session track : Z) (buffers : list BnBuffer)
| OpSnapshot (client camera_id count : Z) (b : BnBuffer)
| OpFlush (camera_id : Z)
| OpResult (camera_id : Z) (result : M)
| OpError (camera_id : Z).

(** The status of an operation that has more than one result, or none. *)
Definition first_of {A} (m : ST RecorderImpl (Z * A)) : ST RecorderImpl Z := let* p := m in ret (fst p).
Definition no_status (m : ST RecorderImpl unit) : ST RecorderImpl Z := do* m in ret NO_ERROR.

Definition recorder_op (op : RecorderOp) : ST RecorderImpl Z :=
  match op with
  | OpRegister c => RegisterClient c
  | OpDeRegister c force => DeRegisterClient c force
  | OpStartCamera c cam fps x results => StartCamera c cam fps x results
  | OpCreateSession c => first_of (CreateSession c)
  | OpDeleteSession c n => DeleteSession c n
  | OpStartSession c n => StartSession c n
  | OpStopSession c n => StopSession c n false
  | OpPauseSession c n => PauseSession c n
  | OpResumeSession c n => ResumeSession c n
  | OpCreateAudioTrack c n t p => CreateAudioTrack c n t p
  | OpDeleteAudioTrack c n t => DeleteAudioTrack c n t
  | OpCreateVideoTrack c n t p => CreateVideoTrack c n t p
  | OpCreateVideoTrackExtra c n t p x => CreateVideoTrack_extra c n t p x
  | OpDeleteVideoTrack c n t => DeleteVideoTrack c n t
  | OpReturnTrackBuffer c n t bs => ReturnTrackBuffer c n t bs
  | OpSetAudioTrackParam c n t => SetAudioTrackParam c n t
  | OpSetVideoTrackParam c n t p => SetVideoTrackParam c n t p
  | OpCaptureImage c cam k meta => CaptureImage c cam k meta
  | OpConfigImageCapture c cam p x => ConfigImageCapture c cam p x
  | OpCancelCaptureImage c cam => CancelCaptureImage c cam
  | OpReturnImageCaptureBuffer c cam b => ReturnImageCaptureBuffer c cam b
  | OpSetCameraParam c cam m => SetCameraParam c cam m
  | OpGetCameraParam c cam m => first_of (GetCameraParam c cam m)
  | OpGetDefaultCaptureParam c cam m => first_of (GetDefaultCaptureParam c cam m)
  | OpGetCameraCharacteristics c cam m => first_of (GetCameraCharacteristics c cam m)
  | OpVideoData c n t bs => no_status (VideoTrackBufferCb c n t bs)
  | OpAudioData c n t bs => no_status (AudioTrackBufferCb c n t bs)
  | OpSnapshot c cam k b => no_status (CameraSnapshotCb c cam k b)
  | OpFlush cam => no_status (CameraFlushCb cam)
  | OpResult cam m => no_status (CameraResultCb cam m)
  | OpError cam => no_status (CameraErrorCb cam)
  end.

(** [StopCamera] holds [stop_camera_lock_] during its wait: no other
    [StopCamera] can end meanwhile, and no removal of a dead client either. *)
Definition may_overlap (op : RecorderOp) : bool := match op with OpDeRegister _ force => negb force | _ => true end.

Fixpoint overlapping (ops : list RecorderOp) : ST RecorderImpl unit :=
  match ops with
  | [] => ret tt
  | op :: ops' => do* expect (may_overlap op) in let* r := recorder_op op in overlapping ops'
  end.

Inductive ServiceCall :=
| Call (op : RecorderOp)
| CallStopCamera (ws : list (bool * list RecorderOp)) (client camera_id : Z).

Definition service_call (call : ServiceCall) : ST RecorderImpl Z :=
  match call with
  | Call op => recorder_op op
  | CallStopCamera ws client camera_id => StopCamera (map (fun w => (fst w, overlapping (snd w))) ws) client camera_id
  end.

Fixpoint recorder_run (calls : list ServiceCall) (s : RecorderImpl) : option RecorderImpl :=
  match calls with
  | [] => Some s
  | call :: calls' => match service_call call s with Some (_, s') => recorder_run calls' s' | None => None end
  end.
End Recorder.

(** ** Maps *)

Lemma at_key_touch {V} (d : V) k k' m : at_key d k (touch d k' m) = at_key d k m.
Proof.
  unfold at_key, touch, kv_mem. destruct (kv_lookup k' m) eqn:E'; [done|]. rewrite kv_lookup_add.
  destruct (Z.eqb_spec k k') as [->|]; [by rewrite E'|done].
Qed.

Lemma touch_ordered {V} (d : V) k m : kv_ordered m -> kv_ordered (touch d k m).
Proof. intros Hm. unfold touch. case_match; [done|]. by apply kv_add_ordered. Qed.

Lemma lookup_emplace {V} k k' (v : V) m : kv_lookup k (emplace k' v m)
  = match kv_lookup k m with Some w => Some w | None => if k =? k' then Some v else None end.
Proof.
  unfold emplace, kv_mem. destruct (kv_lookup k' m) eqn:Ek.
  - destruct (kv_lookup k m) eqn:Ek'; [done|]. destruct (Z.eqb_spec k k') as [->|]; congruence.
  - rewrite kv_lookup_add. destruct (Z.eqb_spec k k') as [->|]; [by rewrite Ek|]. by destruct (kv_lookup k m).
Qed.

Lemma emplace_ordered {V} k (v : V) m : kv_ordered m -> kv_ordered (emplace k v m).
Proof. exact (touch_ordered v k m). Qed.

Lemma touch_same {V} (d : V) k m : kv_mem k m = true -> touch d k m = m.
Proof. intros Hm. unfold touch. by rewrite Hm. Qed.

Lemma kv_add_same {V} k (v : V) m : kv_ordered m -> kv_lookup k m = Some v -> kv_add k v m = m.
Proof.
  induction m as [|[k0 v0] m IH]; simpl; [done|]. intros [Hb Ho]. destruct (Z.eqb_spec k k0) as [->|Hne].
  - intros [= ->]. by rewrite Z.ltb_irrefl.
  - intros Hl. destruct (Z.ltb_spec k k0); [|by rewrite IH].
    rewrite kv_lookup_below in Hl; [done|]. eapply Forall_impl; [exact Hb|]. simpl. intros [k' v'] Hlt. simpl in *. lia.
Qed.
