(* ===== verification/RecorderCameras.v ===== *)
(** * Who has which camera

    Theorems about the cameras of the recorder's clients: an open camera has
    one owner, a camera with other users is not closed, and that of a client
    that died stays open. *)

From S2P Require Import Prelude KeyedVector Floats ExtraParam Track RecorderTypes Recorder SimpleSources.
From Stdlib Require Import SpecFloat.

Create HintDb cameras discriminated.

Section Cameras.
Context {M C E : Type} `{CameraSourceOps M C} `{!CameraSourceLaws M C} `{EncoderCoreOps E}.

Abbreviation Recorder := (RecorderImpl (M := M) (C := C) (E := E)).

(** The service after [Init]. *)
Definition recorder_started : Recorder :=
  RecorderImpl_new <| camera_source_ := Some cs_new |> <| encoder_core_ := Some ec_new |>.

Definition cameras_of (client : Z) (s : Recorder) : kv bool := at_key [] client (client_cameraid_map_ s).

Definition open_set (s : Recorder) : gset Z := match camera_source_ s with Some c => opened c | None => ∅ end.

Definition owns (client camera_id : Z) (s : Recorder) : Prop := kv_lookup camera_id (cameras_of client s) = Some true.

(** ** What leaves the cameras alone *)

Record same_cameras (s0 s : Recorder) : Prop := {
  sc_cameras : forall client, cameras_of client s = cameras_of client s0;
  sc_open : open_set s = open_set s0;
  sc_ordered : kv_ordered (client_cameraid_map_ s0) -> kv_ordered (client_cameraid_map_ s);
  sc_clients : kv_ordered (client_session_map_ s0) -> kv_ordered (client_session_map_ s)
}.

Lemma same_cameras_refl s : same_cameras s s.
Proof. by split. Qed.

Lemma same_cameras_trans s1 s2 s3 : same_cameras s1 s2 -> same_cameras s2 s3 -> same_cameras s1 s3.
Proof.
  intros [H1 H2 H3 H4] [H5 H6 H7 H8]. split; [intros c; by rewrite H5|by rewrite H6|auto..].
Qed.

Lemma same_touch client s0 s : same_cameras s0 s ->
  same_cameras s0 (s <| client_cameraid_map_ := touch [] client (client_cameraid_map_ s) |>).
Proof.
  intros [Hc Ho Hk Hn]. split; [|done| |done].
  - intros c. rewrite <- Hc. unfold cameras_of. simpl. apply at_key_touch.
  - intros Hs. simpl. apply touch_ordered. auto.
Qed.

Lemma camera_keeps {A} (m : ST C A) s0 : (forall c a c', m c = Some (a, c') -> opened c' = opened c) ->
  preserves (same_cameras s0) (camera m : ST Recorder A).
Proof.
  intros Hm s [Hc Ho Hk Hn]. unfold camera. destruct (camera_source_ s) as [c|] eqn:E1; [|done].
  destruct (m c) as [[a c']|] eqn:E2; [|done]. split; [done| |done..].
  unfold open_set in *. simpl. rewrite E1 in Ho. rewrite <- Ho. by apply (Hm c a).
Qed.

Lemma encoder_keeps {A} (m : ST E A) s0 : preserves (same_cameras s0) (encoder m : ST Recorder A).
Proof.
  intros s Hs. unfold encoder. destruct (encoder_core_ s) as [c|]; [|done]. destruct (m c) as [[a c']|]; [|done].
  by destruct Hs.
Qed.

Lemma each_track_keeps tracks body s0 : (forall t, preserves (same_cameras s0) (body t)) ->
  preserves (same_cameras s0) (each_track tracks body).
Proof.
  intros Hb. induction tracks as [|[k t] tracks IH]; simpl; [apply preserves_ret|].
  apply preserves_bind; [done|]. intros r. case_match; [done|apply preserves_ret].
Qed.

Lemma last_result_keeps {A} (l : list A) body s0 : (forall a r, preserves (same_cameras s0) (body a r)) ->
  forall r, preserves (same_cameras s0) (last_result l r body).
Proof.
  intros Hb r. unfold last_result. assert (preserves (same_cameras s0) (ret r : ST Recorder Z)) as Hm by apply preserves_ret.
  revert Hm. generalize (ret r : ST Recorder Z) as m. induction l as [|a l IH]; intros m Hm; simpl; [done|].
  apply IH. apply preserves_bind; [done|]. intros r'. apply Hb.
Qed.

(** One of the laws of the camera source applies. *)
Ltac by_law :=
  intros ? ? ? Hcall;
  first [ eapply opened_tracks; by_case Hcall | eapply opened_metadata; by_case Hcall | eapply opened_images; by_case Hcall
        | by eapply opened_CreateTrackSource | by eapply opened_ReturnTrackBuffer | by eapply opened_UpdateTrackFrameRate
        | by eapply opened_EnableFrameRepeat | by eapply opened_CaptureImage | by eapply opened_ConfigImageCapture
        | by eapply opened_ReturnImageCaptureBuffer | by eapply opened_SetCameraParam ]
with by_case Hcall := first [ exact Hcall | left; exact Hcall | right; by_case Hcall ].

(** A change of other fields. *)
Ltac other_fields :=
  apply preserves_modify; let s := fresh "s" in let Hs := fresh "Hs" in intros s Hs;
  first [ exact (same_touch _ _ _ Hs) | destruct Hs; split; solve [assumption | simpl; auto using kv_add_ordered,
    kv_remove_ordered, touch_ordered] ].

Ltac keep := repeat first
  [ preserve_step | apply encoder_keeps | apply camera_keeps; by_law | other_fields
  | apply each_track_keeps; intros ? | apply last_result_keeps; intros ? ? | solve [auto with cameras] ].

Lemma IsCameraValid_keeps client cam s0 : preserves (same_cameras s0) (IsCameraValid client cam : ST Recorder bool).
Proof. unfold IsCameraValid. keep. Qed.
Hint Resolve IsCameraValid_keeps : cameras.

Lemma check_track_keeps b client session track s0 :
  preserves (same_cameras s0) (check_track b client session track : ST Recorder (option Z)).
Proof. unfold check_track, IsClientValid, IsSessionValid, IsTrackValid. keep. Qed.
Hint Resolve check_track_keeps : cameras.

Lemma set_tracks_keeps client session f s0 : preserves (same_cameras s0) (set_tracks client session f : ST Recorder unit).
Proof. unfold set_tracks. keep. Qed.
Hint Resolve set_tracks_keeps : cameras.

Lemma session_is_keeps st session s0 : preserves (same_cameras s0) (session_is st session : ST Recorder bool).
Proof. unfold session_is. keep. Qed.
Hint Resolve session_is_keeps : cameras.

Lemma conclude_keeps session st r s0 : preserves (same_cameras s0) (conclude session st r : ST Recorder Z).
Proof. unfold conclude, ChangeSessionState. keep. Qed.
Hint Resolve conclude_keeps : cameras.

Lemma lock_session_keeps client session s0 : preserves (same_cameras s0) (lock_session client session : ST Recorder unit).
Proof. unfold lock_session. keep. Qed.
Hint Resolve lock_session_keeps : cameras.

Lemma ResumeSession_keeps client session s0 : preserves (same_cameras s0) (ResumeSession client session : ST Recorder Z).
Proof. unfold ResumeSession, IsClientValid, IsSessionValid, IsSessionPaused, resume_track. keep. Qed.
Hint Resolve ResumeSession_keeps : cameras.

Lemma StartSession_keeps client session s0 : preserves (same_cameras s0) (StartSession client session : ST Recorder Z).
Proof.
  unfold StartSession, IsClientValid, IsSessionValid, IsSessionPaused, IsSessionActive, IsSessionIdle, start_track. keep.
Qed.

Lemma StopSession_keeps client session force s0 : preserves (same_cameras s0) (StopSession client session force : ST Recorder Z).
Proof. unfold StopSession, IsClientValid, IsSessionValid, IsSessionIdle, stop_track. keep. Qed.

Lemma PauseSession_keeps client session s0 : preserves (same_cameras s0) (PauseSession client session : ST Recorder Z).
Proof. unfold PauseSession, IsClientValid, IsSessionValid, IsSessionIdle, IsSessionPaused, pause_track. keep. Qed.
Hint Resolve StartSession_keeps StopSession_keeps PauseSession_keeps : cameras.

Lemma CreateSession_keeps client s0 : preserves (same_cameras s0) (CreateSession client : ST Recorder (Z * Z)).
Proof. unfold CreateSession, IsClientValid. keep. Qed.

Lemma DeleteSession_keeps client session s0 : preserves (same_cameras s0) (DeleteSession client session : ST Recorder Z).
Proof.
  unfold DeleteSession, IsClientValid, IsSessionValid. keep. apply preserves_modify. intros s Hs. case_match; [|done].
  by destruct Hs.
Qed.
Hint Resolve CreateSession_keeps DeleteSession_keeps : cameras.

Lemma add_video_track_keeps client session track vp m s0 : preserves (same_cameras s0) m ->
  preserves (same_cameras s0) (add_video_track client session track vp m : ST Recorder Z).
Proof. intros Hm. unfold add_video_track. keep. Qed.
Hint Resolve add_video_track_keeps : cameras.

Lemma link_keeps clients p s0 : preserves (same_cameras s0) (link_with_owner clients p : ST Recorder Z).
Proof. induction clients as [|c clients IH]; simpl; keep. Qed.
Hint Resolve link_keeps : cameras.

Lemma resolve_keeps client p x s0 : preserves (same_cameras s0) (resolve_source client p x : ST Recorder (Z + ExtraParam)).
Proof. unfold resolve_source, GetServiceTrackId, FindSuitableIdForLinkedTrack. keep. Qed.

Lemma set_timelapse_keeps t track x s0 : preserves (same_cameras s0) (set_timelapse t track x : ST Recorder Z).
Proof. unfold set_timelapse. keep. Qed.
Hint Resolve resolve_keeps set_timelapse_keeps : cameras.

Lemma DeleteVideoTrack_keeps client session track s0 :
  preserves (same_cameras s0) (DeleteVideoTrack client session track : ST Recorder Z).
Proof. unfold DeleteVideoTrack, notify. keep. Qed.

Lemma ReturnTrackBuffer_keeps client session track bs s0 :
  preserves (same_cameras s0) (ReturnTrackBuffer client session track bs : ST Recorder Z).
Proof. unfold ReturnTrackBuffer, GetServiceTrackInfo, expect. keep. Qed.
Hint Resolve DeleteVideoTrack_keeps ReturnTrackBuffer_keeps : cameras.

Lemma CameraFlushCb_keeps cam s0 : preserves (same_cameras s0) (CameraFlushCb cam : ST Recorder unit).
Proof. unfold CameraFlushCb, expect. keep. Qed.

Lemma on_own_camera_keeps {A} client cam f (m : ST Recorder A) s0 : preserves (same_cameras s0) m ->
  preserves (same_cameras s0) (on_own_camera client cam f m).
Proof. intros Hm. unfold on_own_camera, IsClientValid. keep. Qed.

Lemma track_data_keeps client session track bs n s0 :
  preserves (same_cameras s0) (track_data client session track bs n : ST Recorder unit).
Proof. unfold track_data, IsClientValid, IsClientAlive, expect, notify. keep. Qed.
Hint Resolve CameraFlushCb_keeps on_own_camera_keeps track_data_keeps : cameras.

(** The operations that may change who has a camera. *)
Definition on_cameras (op : RecorderOp (M := M)) : bool :=
  match op with OpStartCamera _ _ _ _ _ => true | OpDeRegister _ force => force | _ => false end.

Lemma at_key_emptied {V} k k' (m : kv (kv V)) : kv_ordered m -> at_key [] k' m = [] ->
  at_key [] k (kv_remove k' m) = at_key [] k m.
Proof.
  intros Hm He. unfold at_key in *. rewrite kv_lookup_remove by done. destruct (Z.eqb_spec k k') as [->|]; [|done].
  by rewrite He.
Qed.

Lemma other_op_keeps op s0 : on_cameras op = false -> kv_ordered (client_cameraid_map_ s0) ->
  preserves (same_cameras s0) (recorder_op op : ST Recorder Z).
Proof.
  intros Hop Ho. destruct op; try discriminate Hop; simpl recorder_op;
    unfold first_of, no_status, CreateAudioTrack, DeleteAudioTrack, CreateVideoTrack, CreateVideoTrack_extra, SetAudioTrackParam,
      SetVideoTrackParam, CaptureImage, ConfigImageCapture, CancelCaptureImage, ReturnImageCaptureBuffer, SetCameraParam,
      GetCameraParam, GetDefaultCaptureParam, GetCameraCharacteristics, VideoTrackBufferCb, AudioTrackBufferCb,
      CameraSnapshotCb, CameraResultCb, CameraErrorCb, tell_clients, GetServiceTrackInfo, IsClientValid, expect, notify;
    try solve [repeat (keep; try first [apply on_own_camera_keeps | apply add_video_track_keeps])].
  - unfold RegisterClient, IsClientValid. keep. apply preserves_modify. intros s Hs.
    destruct (same_touch client _ _ Hs). split; try done. intros Hn. apply kv_add_ordered. auto.
  - simpl in Hop. subst force. unfold DeRegisterClient, IsClientValid. simpl negb. keep.
    apply preserves_modify. intros s Hs. pose proof (same_touch client _ _ Hs) as [Hc Ho' Hk Hn]. specialize (Hk Ho).
    simpl in Hk. split; [|done| |done].
    + intros c. rewrite <- Hc. unfold cameras_of. simpl. destruct (at_key [] client _) eqn:Ek; [|done].
      by apply at_key_emptied.
    + intros _. simpl. destruct (at_key [] client _) eqn:Ek; [|done]. by apply kv_remove_ordered.
Qed.

(** ** What opening and closing a camera does *)

Definition other_owner (client cam : Z) (s : Recorder) : Prop := exists c, c <> client /\ owns c cam s.

(** The client has the camera, under [b], unless it had it before. *)
Definition gives (client cam : Z) (b : bool) (s s' : Recorder) : Prop :=
  (forall c, cameras_of c s' = if c =? client then emplace cam b (cameras_of c s) else cameras_of c s) /\
  (kv_ordered (client_cameraid_map_ s) -> kv_ordered (client_cameraid_map_ s')).

Definition takes (client cam : Z) (s s' : Recorder) : Prop :=
  (forall c, cameras_of c s' = if c =? client then kv_remove cam (cameras_of c s) else cameras_of c s) /\
  (kv_ordered (client_cameraid_map_ s) -> kv_ordered (client_cameraid_map_ s')) /\
  (kv_ordered (client_session_map_ s) -> kv_ordered (client_session_map_ s')).

Lemma cameras_of_set client f c s : cameras_of c (s <| client_cameraid_map_ :=
    kv_add client (f (at_key [] client (client_cameraid_map_ s))) (client_cameraid_map_ s) |>)
  = if c =? client then f (cameras_of c s) else cameras_of c s.
Proof.
  unfold cameras_of, at_key. simpl. rewrite kv_lookup_add. by destruct (Z.eqb_spec c client) as [->|].
Qed.

Lemma owned_by_other_iff client cam s : kv_ordered (client_cameraid_map_ s) ->
  (owned_by_other client cam (client_cameraid_map_ s) = true <-> other_owner client cam s).
Proof.
  intros Ho. unfold owned_by_other, other_owner, owns, cameras_of. rewrite existsb_exists. split.
  - intros ([c cams] & Hin & Hc). simpl in Hc. apply andb_true_iff in Hc as [Hne Hv]. exists c. split.
    + apply negb_true_iff, Z.eqb_neq in Hne. congruence.
    + unfold at_key in *. assert (kv_lookup c (client_cameraid_map_ s) = Some cams) as -> by (by apply kv_in_lookup, list_elem_of_In).
      simpl. destruct (kv_lookup cam cams) as [[]|]; done.
  - intros (c & Hne & Hc). unfold at_key in Hc. destruct (kv_lookup c (client_cameraid_map_ s)) as [cams|] eqn:El; [|done].
    exists (c, cams). split; [by apply list_elem_of_In, kv_lookup_in|]. simpl in *. unfold at_key. rewrite Hc.
    destruct (Z.eqb_spec client c) as [->|]; done.
Qed.

Lemma tell_others_keeps client n s0 : preserves (same_cameras s0) (tell_others client n : ST Recorder unit).
Proof. unfold tell_others, notify. keep. Qed.

Lemma IsCameraValid_value client cam s : kv_mem client (client_session_map_ s) = true ->
  exists s', IsCameraValid client cam s = Some (at_key false cam (cameras_of client s), s') /\ same_cameras s s'.
Proof.
  intros Hc. unfold IsCameraValid, bind, gets, modify, id. rewrite Hc. eexists. split.
  - f_equal. f_equal. unfold cameras_of. simpl. by rewrite at_key_touch.
  - apply same_touch, same_cameras_refl.
Qed.

(** A run that keeps the cameras, from its own start. *)
Lemma kept_from {A} (m : ST Recorder A) s a s' : preserves (same_cameras s) m -> m s = Some (a, s') -> same_cameras s s'.
Proof. intros Hm Hs. specialize (Hm s (same_cameras_refl s)). by rewrite Hs in Hm. Qed.

Lemma camera_some {A} (m : ST C A) (s s' : Recorder) a : camera m s = Some (a, s') -> exists c c',
  camera_source_ s = Some c /\ m c = Some (a, c') /\ s' = s <| camera_source_ := Some c' |>.
Proof.
  unfold camera. destruct (camera_source_ s) as [c|]; [|done]. destruct (m c) as [[a' c']|] eqn:Em; [|done].
  intros [= <- <-]. by exists c, c'.
Qed.

Lemma StartCamera_effect client cam fps x results s r s' : kv_ordered (client_cameraid_map_ s) ->
  StartCamera client cam fps x results s = Some (r, s') ->
  (r <> NO_ERROR /\ same_cameras s s') \/
  (r = NO_ERROR /\ other_owner client cam s /\ open_set s' = open_set s /\ gives client cam false s s') \/
  (r = NO_ERROR /\ (cam ∉ open_set s) /\ open_set s' = {[cam]} ∪ open_set s /\ gives client cam true s s').
Proof.
  intros Ho Hs. unfold StartCamera in Hs. unfold bind at 1, IsClientValid, gets in Hs.
  destruct (kv_mem client (client_session_map_ s)) eqn:Ev; simpl in Hs; [|left; injection Hs as <- <-; by split].
  unfold bind at 1, IsCameraOwned, gets in Hs. pose proof (owned_by_other_iff client cam s Ho) as Hown.
  destruct (slave_mode x) as [mode|]; [|done].
  destruct (owned_by_other client cam (client_cameraid_map_ s)) eqn:Eo.
  - cbn [negb] in Hs. rewrite andb_false_r, andb_true_r in Hs. destruct (mode =? kSlave).
    + injection Hs as <- <-. right; left. split_and!; [done|by apply Hown|done|]. split.
      * intros c. apply (cameras_of_set client (emplace cam false)).
      * apply kv_add_ordered.
    + left. by injection Hs as <- <-.
  - cbn [negb] in Hs. rewrite andb_true_r, andb_false_r in Hs.
    destruct (mode =? kSlave); [left; by injection Hs as <- <-|].
    destruct (IsCameraValid_value client cam s Ev) as (s1 & E1 & K1). unfold bind at 1 in Hs. rewrite E1 in Hs.
    destruct (at_key false cam (cameras_of client s)); [left; by injection Hs as <- <-|].
    unfold bind at 1 in Hs. destruct (camera _ s1) as [[r1 s2]|] eqn:E2; [|done].
    apply camera_some in E2 as (c & c' & Ec & Em & ->). assert (open_set s = opened c) as Hopen
      by (destruct K1 as [_ K _ _]; rewrite <- K; unfold open_set; by rewrite Ec).
    destruct (opened_StartCamera _ _ _ _ _ _ _ Em) as [(-> & Hn & Hc')|[Hr Hc']].
    + set (s2 := s1 <| camera_source_ := Some c' |>) in *. change (negb (NO_ERROR =? NO_ERROR)) with false in Hs.
      cbv iota beta in Hs. unfold bind at 1 in Hs. destruct (tell_others client (fun other => CameraOpened other cam) s2) as [[[] s3]|] eqn:E3; [|done].
      pose proof (kept_from _ _ _ _ (tell_others_keeps _ _ _) E3) as K3.
      unfold bind at 1, set_cameras, modify in Hs. set (s4 := s3 <| client_cameraid_map_ := _ |>) in Hs.
      unfold bind in Hs. destruct (camera _ s4) as [[r5 s5]|] eqn:E5; [|done].
      apply camera_some in E5 as (c4 & c5 & Ec4 & Em5 & ->). destruct (opened_SetFlushCb _ _ _ _ Em5) as [Hc5 Hr5].
      assert (opened c4 = {[cam]} ∪ opened c) as Hc4.
      { rewrite <- Hc'. change (opened c') with (open_set s2). rewrite <- (sc_open _ _ K3). change (open_set s3) with (open_set s4).
        unfold open_set. by rewrite Ec4. }
      rewrite Hr5 in Hs by (rewrite Hc4; set_solver). injection Hs as <- <-. right; right. rewrite Hopen.
      split_and!; [done|done|unfold open_set; simpl; by rewrite Hc5|].
      destruct K1 as [K1 _ K1' _], K3 as [K3 _ K3' _]. split; [|simpl; auto using kv_add_ordered].
      intros d. rewrite <- K1. change (cameras_of d s1) with (cameras_of d s2). rewrite <- K3.
      apply (cameras_of_set client (emplace cam true)).
    + destruct (Z.eqb_spec r1 NO_ERROR) as [->|]; [done|]. simpl in Hs. injection Hs as <- <-. left. split; [done|].
      apply (same_cameras_trans _ s1); [done|]. split; try done. unfold open_set. simpl. by rewrite Ec.
Qed.
(** After the wait of [StopCamera]: it failed, or the camera is closed. *)
Definition after_wait (client cam : Z) (closed : bool) (r : Z) (s s' : Recorder) : Prop :=
  if closed then
    (r <> NO_ERROR /\ same_cameras s s') \/
    (r = NO_ERROR /\ slaves_closed cam s = true /\ open_set s' = open_set s ∖ {[cam]} /\ takes client cam s s')
  else r = TIMED_OUT /\ s' = s.

Lemma wait_slaves_closed ws cam : forall s s' : Recorder, wait_slaves ws cam s = Some (true, s') -> slaves_closed cam s' = true.
Proof.
  induction ws as [|[b w] ws IH]; intros s s'; simpl; destruct (slaves_closed cam s) eqn:Ec; try (by intros [= <-]).
  destruct (w s) as [[[] s1]|]; [|done]. destruct b; [apply IH|done].
Qed.

Lemma StopCamera_effect ws client cam s r s' : kv_ordered (client_cameraid_map_ s) ->
  StopCamera ws client cam s = Some (r, s') ->
  (r <> NO_ERROR /\ same_cameras s s') \/
  (r = NO_ERROR /\ other_owner client cam s /\ open_set s' = open_set s /\ takes client cam s s') \/
  (owns client cam s /\ exists s1 closed s2, same_cameras s s1 /\ wait_slaves ws cam s1 = Some (closed, s2) /\
     after_wait client cam closed r s2 s').
Proof.
  intros Ho Hs. unfold StopCamera in Hs. unfold bind at 1, IsClientValid, gets in Hs.
  destruct (kv_mem client (client_session_map_ s)) eqn:Ev; simpl in Hs; [|left; injection Hs as <- <-; by split].
  unfold bind at 1, IsCameraOwned, gets in Hs. pose proof (owned_by_other_iff client cam s Ho) as Hown.
  destruct (owned_by_other client cam (client_cameraid_map_ s)) eqn:Eo.
  - injection Hs as <- <-. right; left. split_and!; [done|by apply Hown|done|].
    split; [intros c; apply (cameras_of_set client (kv_remove cam))|]. split; [apply kv_add_ordered|done].
  - destruct (IsCameraValid_value client cam s Ev) as (s1 & E1 & K1). unfold bind at 1 in Hs. rewrite E1 in Hs.
    destruct (at_key false cam (cameras_of client s)) eqn:Em; cbn [negb] in Hs; cbv iota in Hs;
      [|left; injection Hs as <- <-; by split].
    right; right. split.
    { unfold owns. unfold at_key in Em. destruct (kv_lookup cam (cameras_of client s)) as [[]|]; [reflexivity|discriminate Em..]. }
    unfold bind at 1, gets, id in Hs. destruct (camera_source_ s1) as [c1|]; [|done].
    unfold bind at 1 in Hs. destruct (tell_others client (fun other => CameraClosing other cam) s1) as [[[] s2]|] eqn:E2; [|done].
    pose proof (kept_from _ _ _ _ (tell_others_keeps _ _ _) E2) as K2. unfold bind at 1 in Hs.
    destruct (wait_slaves ws cam s2) as [[closed s3]|] eqn:E3; [|done].
    exists s2, closed, s3. split; [by eapply same_cameras_trans|]. split; [done|].
    destruct closed; [|by injection Hs as <- <-]. cbn [negb] in Hs. cbv iota in Hs.
    pose proof (wait_slaves_closed ws cam s2 s3 E3) as Hsl. unfold bind at 1 in Hs.
    destruct (camera (cs_StopCamera cam) s3) as [[r4 s4]|] eqn:E4; [|done].
    apply camera_some in E4 as (c & c' & Ec & Ecall & ->).
    destruct (opened_StopCamera _ _ _ _ Ecall) as [[-> Hc']|[Hr Hc']].
    + set (s4 := s3 <| camera_source_ := Some c' |>) in *. change (negb (NO_ERROR =? NO_ERROR)) with false in Hs.
      cbv iota beta in Hs. unfold bind at 1, set_cameras, modify in Hs. set (s5 := s4 <| client_cameraid_map_ := _ |>) in Hs.
      unfold bind at 1 in Hs. destruct (tell_others client (fun other => CameraClosed other cam) s5) as [[[] s6]|] eqn:E6; [|done].
      pose proof (kept_from _ _ _ _ (tell_others_keeps _ _ _) E6) as [K6 K7 K8 K9]. injection Hs as <- <-. right.
      split_and!; [done|done| |split; [|split]].
      * rewrite K7. unfold open_set. rewrite Ec. exact Hc'.
      * intros d. rewrite K6. apply (cameras_of_set client (kv_remove cam) d s4).
      * intros Ho3. apply K8. by apply kv_add_ordered.
      * intros Ho3. by apply K9.
    + left. destruct (Z.eqb_spec r4 NO_ERROR) as [->|]; [done|]. injection Hs as <- <-. split; [done|].
      split; try done. unfold open_set. simpl. by rewrite Ec.
Qed.

(** ** The invariant *)

Record cameras_ok (s : Recorder) : Prop := {
  ck_ordered : kv_ordered (client_cameraid_map_ s);
  ck_inner : forall client, kv_ordered (cameras_of client s);
  ck_open : forall client cam b, kv_lookup cam (cameras_of client s) = Some b -> cam ∈ open_set s;
  ck_owner : forall c1 c2 cam, owns c1 cam s -> owns c2 cam s -> c1 = c2
}.

(** Every open camera has an owner. *)
Definition all_owned (s : Recorder) : Prop := forall cam, cam ∈ open_set s -> exists client, owns client cam s.

(** What [b] adds is that all cameras that are open have owners. *)
Definition cameras_inv (b : bool) (s : Recorder) : Prop := cameras_ok s /\ (b = true -> all_owned s).

Lemma same_cameras_inv b s s' : same_cameras s s' -> cameras_inv b s -> cameras_inv b s'.
Proof.
  intros [Hc Ho Hk _] [[K1 K2 K3 K4] Hb]. split; [split|].
  - auto.
  - intros c. by rewrite Hc.
  - intros c cam v. rewrite Hc, Ho. apply K3.
  - intros c1 c2 cam. unfold owns. rewrite !Hc. apply K4.
  - intros Hb'. intros cam. rewrite Ho. intros (c & Hown)%(Hb Hb'). exists c. unfold owns. by rewrite Hc.
Qed.

(** The cameras of a client after one is added. *)
Lemma gives_lookup client cam b s s' c cam' : gives client cam b s s' ->
  kv_lookup cam' (cameras_of c s') = match kv_lookup cam' (cameras_of c s) with
    | Some w => Some w | None => if (c =? client) && (cam' =? cam) then Some b else None end.
Proof.
  intros [Hc _]. rewrite Hc. destruct (c =? client); simpl; [apply lookup_emplace|].
  by destruct (kv_lookup cam' (cameras_of c s)).
Qed.

Lemma StartCamera_inv b client cam fps x results :
  preserves (cameras_inv b) (StartCamera client cam fps x results : ST Recorder Z).
Proof.
  intros s [[K1 K2 K3 K4] Hb]. destruct (StartCamera client cam fps x results s) as [[r s']|] eqn:Es; [|done].
  destruct (StartCamera_effect _ _ _ _ _ _ _ _ K1 Es) as [[_ Hs]|[(_ & (co & Hco & Hown) & Ho & Hg)|(_ & Hn & Ho & Hg)]].
  - by apply (same_cameras_inv b s).
  - pose proof (fun c cam' => gives_lookup _ _ _ _ _ c cam' Hg) as Hl. destruct Hg as [Hc Hk]. split; [split|].
    + auto.
    + intros c. rewrite Hc. case_match; [apply emplace_ordered|]; apply K2.
    + intros c cam' v. rewrite Hl, Ho. destruct (kv_lookup cam' (cameras_of c s)) eqn:El; [intros _; by eapply K3|].
      case_match; [|done]. intros _. bool_hyps. subst. by eapply K3.
    + intros c1 c2 cam'. unfold owns. rewrite !Hl. specialize (K4 c1 c2 cam'). unfold owns in K4.
      repeat case_match; try done; intros ??; auto.
    + intros Hb' cam'. rewrite Ho. intros (c & Hc')%(Hb Hb'). exists c. unfold owns. rewrite Hl. by rewrite Hc'.
  - pose proof (fun c cam' => gives_lookup _ _ _ _ _ c cam' Hg) as Hl. destruct Hg as [Hc Hk].
    assert (forall c, kv_lookup cam (cameras_of c s) = None) as Hnone.
    { intros c. destruct (kv_lookup cam (cameras_of c s)) eqn:El; [|done]. by apply K3 in El. }
    split; [split|].
    + auto.
    + intros c. rewrite Hc. case_match; [apply emplace_ordered|]; apply K2.
    + intros c cam' v. rewrite Hl, Ho. destruct (kv_lookup cam' (cameras_of c s)) eqn:El; [intros _; apply K3 in El; set_solver|].
      case_match; [|done]. intros _. bool_hyps. subst. set_solver.
    + intros c1 c2 cam'. unfold owns. rewrite !Hl. specialize (K4 c1 c2 cam'). unfold owns in K4.
      destruct (decide (cam' = cam)) as [->|Hne]; [rewrite !Hnone; repeat case_match; bool_hyps; congruence|].
      rewrite (proj2 (Z.eqb_neq cam' cam)) by done. rewrite !andb_false_r. by repeat case_match.
    + intros Hb' cam'. rewrite Ho, elem_of_union, elem_of_singleton. intros [->|(c & Hc')%(Hb Hb')].
      * exists client. unfold owns. by rewrite Hl, Hnone, !Z.eqb_refl.
      * exists c. unfold owns. rewrite Hl. by rewrite Hc'.
Qed.

(** ** A client that died *)

Lemma ForceReturnBuffers_keeps client s0 : preserves (same_cameras s0) (ForceReturnBuffers client : ST Recorder Z).
Proof. unfold ForceReturnBuffers, flush_tracks. keep. Qed.

Lemma end_session_keeps client session s0 : preserves (same_cameras s0) (end_session client session : ST Recorder unit).
Proof. unfold end_session. keep. Qed.
Hint Resolve ForceReturnBuffers_keeps end_session_keeps : cameras.

(** The client is not connected any more: its cameras are not closed. *)
Lemma stop_nothing client cams (s : Recorder) : kv_mem client (client_session_map_ s) = false ->
  for_each cams (fun camera_id => let* r := StopCamera [] client camera_id in ret tt) s = Some (tt, s).
Proof.
  intros Hc. induction cams as [|cam cams IH]; [done|]. simpl. unfold bind at 1 2, StopCamera. unfold bind at 1, IsClientValid, gets.
  rewrite Hc. exact IH.
Qed.

Lemma dead_client_effect client s r s' : kv_ordered (client_session_map_ s) -> DeRegisterClient client true s = Some (r, s') ->
  (kv_mem client (client_session_map_ s) = false /\ s' = s) \/
  exists s1, same_cameras s s1 /\ open_set s' = open_set s1 /\
    client_cameraid_map_ s' = kv_remove client (client_cameraid_map_ s1) /\
    client_session_map_ s' = client_session_map_ s1.
Proof.
  intros Hn Hs. unfold DeRegisterClient in Hs. unfold bind at 1, IsClientValid, gets in Hs.
  destruct (kv_mem client (client_session_map_ s)) eqn:Ec; [|left; by injection Hs as <- <-]. cbn [negb] in Hs.
  right. apply bind_some in Hs as ([] & s1 & E1 & Hs).
  apply bind_some in Hs as (r2 & s2 & E2 & Hs). apply bind_some in Hs as ([] & s3 & E3 & Hs).
  apply bind_some in Hs as (s3' & s3'' & [= <- <-] & Hs). apply bind_some in Hs as ([] & s4 & E4 & Hs).
  apply bind_some in Hs as ([] & s5 & E5 & Hs). apply bind_some in Hs as (s5' & s5'' & [= <- <-] & Hs).
  assert (same_cameras s s4) as K4.
  { apply (kept_from (do* modify (fun s => s <| client_state_ := kv_add client kDead (client_state_ s) |>) in
      let* r := ForceReturnBuffers client in
      do* modify (fun s => s <| client_session_map_ := touch [] client (client_session_map_ s) |>) in
      let* s := gets id in for_each (at_key [] client (client_session_map_ s)) (end_session client)) s tt); [keep|].
    unfold bind. rewrite E1, E2, E3. unfold gets, id. exact E4. }
  unfold modify in E5. injection E5 as H5.
  assert (kv_mem client (client_session_map_ s5) = false) as Hgone.
  { rewrite <- H5. unfold kv_mem. simpl. rewrite kv_lookup_remove by (destruct K4 as [_ _ _ K]; auto). by rewrite Z.eqb_refl. }
  assert (same_cameras s s5) as K5.
  { rewrite <- H5. pose proof (same_touch client _ _ K4) as [A1 A2 A3 A4]. split; try done. intros _. simpl. apply kv_remove_ordered.
    destruct K4 as [_ _ _ K]. auto. }
  apply bind_some in Hs as ([] & s6 & E6 & Hs). rewrite stop_nothing in E6 by done. injection E6 as <-.
  injection Hs as <- <-. exists s5. by split_and!.
Qed.

(** ** Every operation *)

Definition service_inv (b : bool) (s : Recorder) : Prop := cameras_inv b s /\ kv_ordered (client_session_map_ s).

Lemma same_service_inv b s s' : same_cameras s s' -> service_inv b s -> service_inv b s'.
Proof. intros Hs [Hi Hn]. split; [by apply (same_cameras_inv b s)|]. destruct Hs as [_ _ _ Hk]. auto. Qed.

Definition clients_ordered (s : Recorder) : Prop := kv_ordered (client_session_map_ s).

Lemma camera_clients {A} (m : ST C A) : preserves clients_ordered (camera m : ST Recorder A).
Proof. intros s Hs. unfold camera. destruct (camera_source_ s); [|done]. by destruct (m c) as [[]|]. Qed.

Ltac keep_clients := repeat first
  [ preserve_step | apply camera_clients | apply preserves_modify; intros ? Hs; exact Hs ].

Lemma StartCamera_clients client cam fps x results : preserves clients_ordered (StartCamera client cam fps x results : ST Recorder Z).
Proof. unfold StartCamera, IsClientValid, IsCameraOwned, IsCameraValid, set_cameras, tell_others, notify. keep_clients. Qed.

Lemma wait_preserves (I : Recorder -> Prop) ws cam : (forall b w, (b, w) ∈ ws -> preserves I w) -> preserves I (wait_slaves ws cam).
Proof.
  induction ws as [|[b w] ws IH]; intros Hws s Hs; simpl; (destruct (slaves_closed cam s); [done|]); [done|].
  pose proof (Hws b w ltac:(by left) s Hs) as Hw. destruct (w s) as [[[] s1]|]; [|done]. destruct b; [|done].
  apply (IH (fun b' w' Hin => Hws b' w' (list_elem_of_further _ _ _ Hin)) s1 Hw).
Qed.

Definition on_death (op : RecorderOp (M := M)) : bool := match op with OpDeRegister _ force => force | _ => false end.

Lemma remove_client_inv client s1 s' : cameras_ok s1 -> open_set s' = open_set s1 ->
  client_cameraid_map_ s' = kv_remove client (client_cameraid_map_ s1) -> cameras_ok s'.
Proof.
  intros [K1 K2 K3 K4] Ho Hm. assert (forall c, cameras_of c s' = if c =? client then [] else cameras_of c s1) as Hc.
  { intros c. unfold cameras_of, at_key. rewrite Hm, kv_lookup_remove by done. by case_match. }
  split.
  - rewrite Hm. by apply kv_remove_ordered.
  - intros c. rewrite Hc. case_match; [done|apply K2].
  - intros c cam v. rewrite Hc, Ho. case_match; [done|apply K3].
  - intros c1 c2 cam. unfold owns. rewrite !Hc. repeat case_match; try done. apply K4.
Qed.

Lemma op_inv b op : (b = true -> on_death op = false) -> preserves (service_inv b) (recorder_op op : ST Recorder Z).
Proof.
  intros Hb s [Hi Hn]. destruct (on_cameras op) eqn:Eop.
  - destruct op; try discriminate Eop; simpl recorder_op; simpl in Eop, Hb.
    + subst force. destruct b; [by discriminate Hb|]. destruct (DeRegisterClient client true s) as [[r s']|] eqn:Es; [|done].
      destruct (dead_client_effect client s r s' Hn Es) as [[_ ->]|(s1 & Hs & Ho & Hm & Hn')]; [done|].
      destruct (same_service_inv false s s1 Hs (conj Hi Hn)) as [[Hi1 _] Hn1]. split; [|by rewrite Hn'].
      split; [|done]. by apply (remove_client_inv client s1).
    + pose proof (StartCamera_inv b client camera_id frame_rate x results s Hi) as H1.
      pose proof (StartCamera_clients client camera_id frame_rate x results s Hn) as H2.
      by destruct (StartCamera _ _ _ _ _ s) as [[r s']|].
  - pose proof (other_op_keeps op s Eop (ck_ordered s (proj1 Hi)) s (same_cameras_refl s)) as Hk.
    destruct (recorder_op op s) as [[r s']|]; [|done]. by apply (same_service_inv b s).
Qed.

(** ** The wait *)

Lemma overlapping_preserves (I : Recorder -> Prop) ops :
  (forall op, may_overlap op = true -> preserves I (recorder_op op)) -> preserves I (overlapping ops).
Proof.
  intros Hop. induction ops as [|op ops IH]; simpl; [apply preserves_ret|]. destruct (may_overlap op) eqn:Eo; simpl.
  - apply preserves_bind; [apply preserves_ret|]. intros _. apply preserves_bind; [by apply Hop|]. by intros _.
  - by intros s Hs.
Qed.

Lemma overlap_not_death op : may_overlap op = true -> on_death op = false.
Proof. destruct op; try done. destruct force; simpl; congruence. Qed.

(** A camera that a client has stays with it while no camera is stopped. *)
Definition has_entry (client cam : Z) (v : bool) (s : Recorder) : Prop := kv_lookup cam (cameras_of client s) = Some v.

Lemma op_entry b client cam v op : may_overlap op = true ->
  preserves (fun s => service_inv b s /\ has_entry client cam v s) (recorder_op op).
Proof.
  intros Hop s [Hi He]. pose proof (op_inv b op (fun _ => overlap_not_death op Hop) s Hi) as Hinv.
  destruct (recorder_op op s) as [[r s']|] eqn:Es; [|done]. split; [done|].
  destruct (on_cameras op) eqn:Eop.
  - destruct op; try discriminate Eop; simpl in Es, Hop, Eop; [by subst force|].
    destruct (StartCamera_effect _ _ _ _ _ _ _ _ (ck_ordered s (proj1 (proj1 Hi))) Es)
      as [[_ Hs]|[(_ & _ & _ & Hg)|(_ & _ & _ & Hg)]]; unfold has_entry in *.
    + by rewrite (sc_cameras _ _ Hs).
    + rewrite (gives_lookup _ _ _ _ _ client cam Hg). by rewrite He.
    + rewrite (gives_lookup _ _ _ _ _ client cam Hg). by rewrite He.
  - pose proof (other_op_keeps op s Eop (ck_ordered s (proj1 (proj1 Hi))) s (same_cameras_refl s)) as Hk. rewrite Es in Hk.
    unfold has_entry in *. by rewrite (sc_cameras _ _ Hk).
Qed.

Lemma wait_entry b client cam v ws cam' : preserves (fun s => service_inv b s /\ has_entry client cam v s)
  (wait_slaves (map (fun w => (fst w, overlapping (snd w))) ws) cam' : ST Recorder bool).
Proof.
  apply wait_preserves. intros b' w Hin. apply list_elem_of_fmap in Hin as ([b1 ops] & [= -> ->] & _).
  apply overlapping_preserves. intros op Hop. by apply op_entry.
Qed.

Lemma takes_lookup client cam s s' c cam' : (forall d, kv_ordered (cameras_of d s)) -> takes client cam s s' ->
  kv_lookup cam' (cameras_of c s') = if (c =? client) && (cam' =? cam) then None else kv_lookup cam' (cameras_of c s).
Proof.
  intros Ho [Hc _]. rewrite Hc. destruct (c =? client); simpl; [|done]. by rewrite kv_lookup_remove.
Qed.

Lemma slaves_closed_spec cam (s : Recorder) client : kv_ordered (client_cameraid_map_ s) -> slaves_closed cam s = true ->
  kv_lookup cam (cameras_of client s) <> Some false.
Proof.
  intros Ho Hs. unfold slaves_closed in Hs. rewrite forallb_forall in Hs. unfold cameras_of, at_key at 1.
  destruct (kv_lookup client (client_cameraid_map_ s)) as [cams|] eqn:El; [|done]. simpl.
  specialize (Hs (client, cams) ltac:(by apply list_elem_of_In, kv_lookup_in)). simpl in Hs. unfold at_key in Hs. intros Hf.
  by rewrite Hf in Hs.
Qed.

(** Taking away the entry of a client that is not the owner, or the last. *)
Lemma takes_inv b client cam s s' : cameras_inv b s -> takes client cam s s' ->
  (open_set s' = open_set s /\ ~ owns client cam s) \/
  (open_set s' = open_set s ∖ {[cam]} /\ (forall c v, kv_lookup cam (cameras_of c s) = Some v -> c = client)) ->
  cameras_inv b s'.
Proof.
  intros [[K1 K2 K3 K4] Hb] Ht Ho. pose proof (fun c cam' => takes_lookup client cam s s' c cam' K2 Ht) as Hl.
  destruct Ht as (Hc & Hk & _). split; [split|].
  - auto.
  - intros c. rewrite Hc. case_match; [apply kv_remove_ordered|]; apply K2.
  - intros c cam' v. rewrite Hl. destruct ((c =? client) && (cam' =? cam)) eqn:Ec; [done|]. intros Hv.
    destruct Ho as [[-> _]|[-> Hlast]]; [by eapply K3|]. apply elem_of_difference. split; [by eapply K3|].
    rewrite elem_of_singleton. intros ->. rewrite Z.eqb_refl, andb_true_r in Ec. apply Z.eqb_neq in Ec.
    apply Ec. by eapply Hlast.
  - intros c1 c2 cam'. unfold owns. rewrite !Hl. repeat case_match; try done. apply K4.
  - intros Hb' cam' Hin. assert (exists c, owns c cam' s /\ ((c =? client) && (cam' =? cam)) = false) as (c & Hown & Hne).
    { destruct Ho as [[Ho Hn]|[Ho Hlast]]; rewrite Ho in Hin.
      - destruct (Hb Hb' cam' Hin) as (c & Hown). exists c. split; [done|]. apply andb_false_iff.
        destruct (Z.eqb_spec c client) as [->|]; [right|by left]. apply Z.eqb_neq. by intros ->.
      - apply elem_of_difference in Hin as [Hin Hd]. destruct (Hb Hb' cam' Hin) as (c & Hown). exists c. split; [done|].
        apply andb_false_iff. right. apply Z.eqb_neq. set_solver. }
    exists c. unfold owns. by rewrite Hl, Hne.
Qed.

(** The camera that is closed has no entry but the owner's. *)
Lemma last_entry client cam s : cameras_ok s -> owns client cam s -> slaves_closed cam s = true ->
  forall c v, kv_lookup cam (cameras_of c s) = Some v -> c = client.
Proof.
  intros [K1 K2 K3 K4] Hown Hsl c v Hv. destruct v; [by apply (K4 c client cam)|].
  by apply (slaves_closed_spec cam s c K1) in Hsl.
Qed.

Lemma call_inv b call : (b = true -> match call with Call op => on_death op = false | _ => True end) ->
  preserves (service_inv b) (service_call call : ST Recorder Z).
Proof.
  intros Hb. destruct call as [op|ws client cam]; [by apply op_inv|]. intros s Hi. simpl.
  destruct (StopCamera _ client cam s) as [[r s']|] eqn:Es; [|done].
  destruct (StopCamera_effect _ _ _ _ _ _ (ck_ordered s (proj1 (proj1 Hi))) Es)
    as [[_ Hs]|[(_ & (co & Hne & Hco) & Ho & Ht)|(Hown & s1 & closed & s2 & Hs1 & Hw & Ha)]].
  - by apply (same_service_inv b s).
  - split; [|by apply Ht, Hi]. apply (takes_inv b client cam s); [apply Hi|done|]. left. split; [done|]. intros Hmine.
    apply Hne. by apply (ck_owner s (proj1 (proj1 Hi)) co client cam).
  - assert (service_inv b s1 /\ has_entry client cam true s1) as Hi1.
    { split; [by apply (same_service_inv b s)|]. unfold has_entry. by rewrite (sc_cameras _ _ Hs1). }
    pose proof (wait_entry b client cam true ws cam s1 Hi1) as Hi2. rewrite Hw in Hi2. destruct Hi2 as [Hi2 He2].
    destruct closed; simpl in Ha; [|by destruct Ha as [_ ->]]. destruct Ha as [[_ Hs2]|(_ & Hsl & Ho & Ht)].
    + by apply (same_service_inv b s2).
    + split; [|by apply Ht, Hi2]. apply (takes_inv b client cam s2); [apply Hi2|done|]. right. split; [done|].
      apply last_entry; [apply Hi2|done|done].
Qed.

Lemma started_inv : service_inv true recorder_started.
Proof.
  split; [|done]. split; [split|]; simpl; try done.
  intros _ cam. unfold open_set. simpl. rewrite opened_new. set_solver.
Qed.

Definition no_deaths (calls : list (ServiceCall (M := M))) : Prop :=
  forall op, Call op ∈ calls -> on_death op = false.

Lemma run_inv b calls : (b = true -> no_deaths calls) -> forall s s', service_inv b s -> recorder_run calls s = Some s' ->
  service_inv b s'.
Proof.
  induction calls as [|call calls IH]; intros Hb s s' Hi Hr; simpl in Hr; [by injection Hr as <-|].
  assert (b = true -> match call with Call op => on_death op = false | _ => True end) as Hb1.
  { intros Hb'. destruct call; [|done]. apply (Hb Hb'). by left. }
  pose proof (call_inv b call Hb1 s Hi) as Hc. destruct (service_call call s) as [[r s1]|]; [|done].
  apply (IH (fun Hb' op Hin => Hb Hb' op (list_elem_of_further _ _ _ Hin)) s1 s' Hc Hr).
Qed.

Lemma inv_weaken b s : service_inv b s -> service_inv false s.
Proof. intros [[Hok _] Hn]. split; [|done]. by split. Qed.

(** C6. An open camera has one owner.  After any calls of the service by any
    clients, callbacks and waits included: a camera that some client has is
    open, no two clients are owners of the same camera, and, unless a dead
    client was removed, every open camera has an owner, which alone can close
    it. *)
Theorem cameras_have_one_owner (calls : list ServiceCall) (s : Recorder) :
  recorder_run calls recorder_started = Some s ->
  (forall client cam b, kv_lookup cam (cameras_of client s) = Some b -> cam ∈ open_set s) /\
  (forall c1 c2 cam, owns c1 cam s -> owns c2 cam s -> c1 = c2) /\
  (no_deaths calls -> forall cam, cam ∈ open_set s -> exists client, owns client cam s).
Proof.
  intros Hr. destruct (run_inv false calls ltac:(done) _ _ (inv_weaken true _ started_inv) Hr) as [[[K1 K2 K3 K4] _] _].
  split_and!; [exact K3|exact K4|]. intros Hd.
  destruct (run_inv true calls (fun _ => Hd) _ _ started_inv Hr) as [[_ Ho] _]. by apply Ho.
Qed.

(** C22. The owner of a camera that other clients use as slaves cannot close
    it.  [StopCamera] tells them and waits until they have closed it, but
    holds the lock that their [StopCamera] needs; whatever else the clients do
    meanwhile, it does not succeed, and the camera stays with all of them. *)
Theorem shared_camera_not_closed (calls : list ServiceCall) (s : Recorder) (ws : list (bool * list RecorderOp))
    (owner slave cam r : Z) (s' : Recorder) :
  recorder_run calls recorder_started = Some s -> owns owner cam s -> has_entry slave cam false s ->
  service_call (CallStopCamera ws owner cam) s = Some (r, s') ->
  r <> NO_ERROR /\ owns owner cam s' /\ has_entry slave cam false s' /\ cam ∈ open_set s'.
Proof.
  intros Hr Hown Hsl Hc. pose proof (run_inv false calls ltac:(done) _ _ (inv_weaken true _ started_inv) Hr) as Hi.
  assert (r <> NO_ERROR /\ owns owner cam s' /\ has_entry slave cam false s') as (H1 & H2 & H3).
  2:{ split_and!; try done. pose proof (call_inv false (CallStopCamera ws owner cam) ltac:(done) s Hi) as Hi'. rewrite Hc in Hi'.
      by apply (ck_open s' (proj1 (proj1 Hi')) owner cam true). }
  destruct (StopCamera_effect _ _ _ _ _ _ (ck_ordered s (proj1 (proj1 Hi))) Hc)
    as [[Hne Hs]|[(_ & (co & Hne & Hco) & Ho & Ht)|(_ & s1 & closed & s2 & Hs1 & Hw & Ha)]].
  - split; [done|]. unfold owns, has_entry. by rewrite !(sc_cameras _ _ Hs).
  - exfalso. apply Hne. by apply (ck_owner s (proj1 (proj1 Hi)) co owner cam).
  - assert (forall c v, has_entry c cam v s -> service_inv false s1 /\ has_entry c cam v s1) as He1.
    { intros c v Hv. split; [by apply (same_service_inv false s)|]. unfold has_entry. by rewrite (sc_cameras _ _ Hs1). }
    pose proof (wait_entry false owner cam true ws cam s1 (He1 _ _ Hown)) as Hi2.
    pose proof (wait_entry false slave cam false ws cam s1 (He1 _ _ Hsl)) as Hi3. rewrite Hw in Hi2, Hi3.
    destruct closed; simpl in Ha; [|destruct Ha as [-> ->]; by split_and!; [|apply Hi2|apply Hi3]].
    pose proof (wait_slaves_closed _ _ _ _ Hw) as Hcl. exfalso.
    exact (slaves_closed_spec cam s2 slave (ck_ordered s2 (proj1 (proj1 (proj1 Hi2)))) Hcl (proj2 Hi3)).
Qed.

(** ** The camera of a dead client *)

Definition leaked (cam : Z) (s : Recorder) : Prop := cam ∈ open_set s /\ forall c, ~ owns c cam s.

Lemma camera_leaked_same cam s s' : same_cameras s s' -> leaked cam s -> leaked cam s'.
Proof.
  intros [Hc Ho _ _] [Hin Hn]. split; [by rewrite Ho|]. intros c. unfold owns. rewrite Hc. apply Hn.
Qed.

Lemma start_leaked cam client cam' fps x results s r s' : service_inv false s -> leaked cam s ->
  StartCamera client cam' fps x results s = Some (r, s') -> leaked cam s' /\ (cam' = cam -> r <> NO_ERROR).
Proof.
  intros Hi [Hin Hn] Hs.
  destruct (StartCamera_effect _ _ _ _ _ _ _ _ (ck_ordered s (proj1 (proj1 Hi))) Hs)
    as [[Hr Hk]|[(_ & (c & _ & Hc) & Ho & Hg)|(_ & Hout & Ho & Hg)]].
  - split; [by apply (camera_leaked_same cam s)|done].
  - split; [|intros ->; by destruct (Hn c)]. split; [by rewrite Ho|]. intros d Hd. apply (Hn d). unfold owns in *.
    rewrite (gives_lookup _ _ _ _ _ _ _ Hg) in Hd. by repeat case_match.
  - assert (cam' <> cam) as Hne by (by intros ->). split; [|done]. split; [rewrite Ho; set_solver|]. intros d Hd. apply (Hn d).
    unfold owns in *. rewrite (gives_lookup _ _ _ _ _ _ _ Hg) in Hd. rewrite (proj2 (Z.eqb_neq cam cam')) in Hd by done.
    rewrite andb_false_r in Hd. by case_match.
Qed.

Lemma op_leaked cam op : preserves (fun s => service_inv false s /\ leaked cam s) (recorder_op op : ST Recorder Z).
Proof.
  intros s [Hi Hl]. pose proof (op_inv false op ltac:(done) s Hi) as Hinv.
  destruct (recorder_op op s) as [[r s']|] eqn:Es; [|done]. split; [done|]. destruct (on_cameras op) eqn:Eop.
  - destruct op; try discriminate Eop; simpl in Es, Eop; [|exact (proj1 (start_leaked cam _ _ _ _ _ s r s' Hi Hl Es))].
    subst force. destruct (dead_client_effect client s r s' (proj2 Hi) Es) as [[_ ->]|(s1 & Hs & Ho & Hm & _)]; [done|].
    destruct (camera_leaked_same cam s s1 Hs Hl) as [Hin Hn]. split; [by rewrite Ho|]. intros c Hc. apply (Hn c).
    unfold owns, cameras_of, at_key in *. rewrite Hm, kv_lookup_remove in Hc
      by exact (ck_ordered s1 (proj1 (proj1 (same_service_inv false s s1 Hs Hi)))). by case_match.
  - pose proof (other_op_keeps op s Eop (ck_ordered s (proj1 (proj1 Hi))) s (same_cameras_refl s)) as Hk. rewrite Es in Hk.
    by apply (camera_leaked_same cam s).
Qed.

Lemma call_leaked cam call : preserves (fun s => service_inv false s /\ leaked cam s) (service_call call : ST Recorder Z).
Proof.
  destruct call as [op|ws client cam']; [by apply op_leaked|]. intros s [Hi Hl].
  pose proof (call_inv false (CallStopCamera ws client cam') ltac:(done) s Hi) as Hinv. simpl in *.
  destruct (StopCamera _ client cam' s) as [[r s']|] eqn:Es; [|done]. split; [done|].
  assert (forall s1 s2, service_inv false s1 -> leaked cam s1 -> takes client cam' s1 s2 ->
    open_set s2 = open_set s1 \/ (cam <> cam' /\ open_set s2 = open_set s1 ∖ {[cam']}) -> leaked cam s2) as Htake.
  { intros s1 s2 Hi1 [Hin Hn] Ht Ho. split; [destruct Ho as [->|[Hne ->]]; set_solver|]. intros c Hc. apply (Hn c).
    unfold owns in *. rewrite (takes_lookup _ _ _ _ _ _ (ck_inner s1 (proj1 (proj1 Hi1))) Ht) in Hc. by case_match. }
  destruct (StopCamera_effect _ _ _ _ _ _ (ck_ordered s (proj1 (proj1 Hi))) Es)
    as [[_ Hs]|[(_ & _ & Ho & Ht)|(Hown & s1 & closed & s2 & Hs1 & Hw & Ha)]].
  - by apply (camera_leaked_same cam s).
  - apply (Htake s s'); auto.
  - assert (service_inv false s2 /\ leaked cam s2) as [Hi2 Hl2].
    { pose proof (wait_preserves (fun s => service_inv false s /\ leaked cam s) (map (fun w => (fst w, overlapping (snd w))) ws)
        cam' ltac:(intros b w Hin; apply list_elem_of_fmap in Hin as ([b1 ops] & [= -> ->] & _); apply overlapping_preserves;
                   intros op _; apply op_leaked) s1) as Hp. rewrite Hw in Hp. apply Hp.
      split; [by apply (same_service_inv false s)|by apply (camera_leaked_same cam s)]. }
    destruct closed; simpl in Ha; [|by destruct Ha as [_ ->]]. destruct Ha as [[_ Hs2]|(_ & Hsl & Ho & Ht)].
    + by apply (camera_leaked_same cam s2).
    + apply (Htake s2 s'); try done. right. split; [|done]. intros ->. by apply (proj2 Hl client).
Qed.

(** C23. The camera of a client that died stays open for ever.
    [DeRegisterClient] forgets the client before it stops its cameras, and
    [StopCamera] refuses a client that is not known: no client owns the camera
    then or later, whatever the service is called for, so that no one can
    close it or open it again. *)
Theorem dead_clients_camera_lost (calls calls' : list ServiceCall) (client cam r : Z) (s s1 s' : Recorder) :
  recorder_run calls recorder_started = Some s -> kv_mem client (client_session_map_ s) = true -> owns client cam s ->
  service_call (Call (OpDeRegister client true)) s = Some (r, s1) -> recorder_run calls' s1 = Some s' ->
  cam ∈ open_set s' /\ (forall c, ~ owns c cam s') /\
  (forall c fps x results r' s'', StartCamera c cam fps x results s' = Some (r', s'') -> r' <> NO_ERROR).
Proof.
  intros Hr Hcl Hown Hd Hr'. pose proof (run_inv false calls ltac:(done) _ _ (inv_weaken true _ started_inv) Hr) as Hi.
  assert (service_inv false s1 /\ leaked cam s1) as H1.
  { pose proof (op_inv false (OpDeRegister client true) ltac:(done) s Hi) as Hi1. simpl in Hd, Hi1. rewrite Hd in Hi1.
    split; [done|]. destruct (dead_client_effect client s r s1 (proj2 Hi) Hd) as [[Hn _]|(s2 & Hs & Ho & Hm & _)].
    - congruence.
    - pose proof (same_service_inv false s s2 Hs Hi) as Hi2. split.
      + rewrite Ho, (sc_open _ _ Hs). by apply (ck_open s (proj1 (proj1 Hi)) client cam true).
      + intros c Hc. unfold owns, cameras_of, at_key in Hc. rewrite Hm, kv_lookup_remove in Hc by apply Hi2.
        case_match; [done|]. bool_hyps. apply H1. apply (ck_owner s2 (proj1 (proj1 Hi2)) c client cam); [exact Hc|].
        unfold owns. by rewrite (sc_cameras _ _ Hs). }
  assert (service_inv false s' /\ leaked cam s') as [Hi' Hl'].
  { clear -Hr' H1. revert s1 H1 Hr'. induction calls' as [|call calls' IH]; intros s1 H1 Hr'; simpl in Hr'; [by injection Hr' as <-|].
    pose proof (call_leaked cam call s1 H1) as Hc. destruct (service_call call s1) as [[r s2]|]; [|done]. by apply (IH s2). }
  split_and!; [apply Hl'|apply Hl'|]. intros c fps x results r' s'' Hs. by apply (start_leaked cam c cam fps x results s' r' s'' Hi' Hl' Hs).
Qed.

End Cameras.

(** ** Witnesses *)

Abbreviation SimpleRecorder := (RecorderImpl (M := Z) (C := SimpleCamera) (E := SimpleEncoder)).

Definition started : SimpleRecorder := recorder_started.

Definition after (calls : list (ServiceCall (M := Z))) (s : SimpleRecorder) : SimpleRecorder :=
  default s (recorder_run calls s).

(** Client 1 opens camera 0 and client 2 is its slave. *)
Definition two_clients : list (ServiceCall (M := Z)) :=
  [Call (OpRegister 1); Call (OpRegister 2); Call (OpStartCamera 1 0 S754_nan ExtraParam_new false);
   Call (OpStartCamera 2 0 S754_nan slave_param false)].

Lemma cameras_have_one_owner_witness :
  recorder_run two_clients started = Some (after two_clients started) /\ owns 1 0 (after two_clients started) /\
  (no_deaths two_clients -> forall cam, cam ∈ open_set (after two_clients started) ->
     exists client, owns client cam (after two_clients started)).
Proof.
  split_and!; [vm_compute; reflexivity|vm_compute; reflexivity|].
  apply (cameras_have_one_owner two_clients (after two_clients started)). vm_compute. reflexivity.
Defined.

(** The slave's [StopCamera] cannot run while the owner waits, and the wait
    times out. *)
Lemma shared_camera_not_closed_witness : exists r s',
  service_call (CallStopCamera [(false, [])] 1 0) (after two_clients started) = Some (r, s') /\
  r <> NO_ERROR /\ owns 1 0 s' /\ has_entry 2 0 false s' /\ 0 ∈ open_set s'.
Proof.
  destruct (service_call (CallStopCamera [(false, [])] 1 0) (after two_clients started)) as [[r s']|] eqn:Es.
  - exists r, s'. split; [reflexivity|].
    apply (shared_camera_not_closed two_clients (after two_clients started) [(false, [])] 1 2 0 r s'); [..|exact Es];
      vm_compute; reflexivity.
  - vm_compute in Es. discriminate Es.
Defined.

Lemma dead_clients_camera_lost_witness : exists r s1,
  service_call (Call (OpDeRegister 1 true)) (after two_clients started) = Some (r, s1) /\
  0 ∈ open_set (after [Call (OpRegister 1)] s1) /\ (forall c, ~ owns c 0 (after [Call (OpRegister 1)] s1)) /\
  (forall c fps x results r' s'', StartCamera c 0 fps x results (after [Call (OpRegister 1)] s1) = Some (r', s'') -> r' <> NO_ERROR).
Proof.
  pose (o := service_call (Call (OpDeRegister 1 true)) (after two_clients started)).
  destruct o as [[r s1]|] eqn:Es; [|vm_compute in Es; discriminate Es]. exists r, s1. split; [exact Es|].
  apply (dead_clients_camera_lost two_clients [Call (OpRegister 1)] 1 0 r (after two_clients started) s1); [..|exact Es|].
  - vm_compute. reflexivity.
  - vm_compute. reflexivity.
  - vm_compute. reflexivity.
  - assert (r = 0 /\ s1 = snd (default (0, started) (Some (r, s1)))) as [_ ->] by (vm_compute in Es; injection Es as <- <-; split; reflexivity).
    rewrite <- Es. vm_compute. reflexivity.
Defined.
