(* ===== verification/RecorderSessions.v ===== *)
(** * Sessions and tracks of the recorder

    Theorems about the sessions of the recorder's clients: what starting,
    stopping, pausing and resuming one does in each of its states, which
    sessions exist, how tracks are numbered, and where their buffers go. *)

From S2P Require Import Prelude KeyedVector Floats ExtraParam Track RecorderTypes Recorder SimpleSources.
From Stdlib Require Import SpecFloat.

Section Sessions.
Context {M C E : Type} `{CameraSourceOps M C} `{EncoderCoreOps E}.

Abbreviation Recorder := (RecorderImpl (M := M) (C := C) (E := E)).

Definition sessions_of (client : Z) (s : Recorder) : SessionTrackMap := at_key [] client (client_session_map_ s).

(** ** What a session does in each state *)

Inductive SessionCommand := CmdStart | CmdStop (force : bool) | CmdPause | CmdResume.

Definition session_command (cmd : SessionCommand) (client session : Z) : ST Recorder Z :=
  match cmd with
  | CmdStart => StartSession client session
  | CmdStop force => StopSession client session force
  | CmdPause => PauseSession client session
  | CmdResume => ResumeSession client session
  end.

(** What is to be done with the tracks, in which order, the state the session
    is in when that succeeds, and whether its failure is reported. *)
Definition session_plan (cmd : SessionCommand) (state : SessionState)
    : option ((TrackInfo -> ST Recorder Z) * (TrackInfoMap -> TrackInfoMap) * SessionState * bool) :=
  match cmd, state with
  | CmdStart, kIdle => Some (start_track, fun ts => ts, kActive, true)
  | CmdStart, kPause => Some (resume_track, fun ts => ts, kActive, false)
  | CmdResume, kPause => Some (resume_track, fun ts => ts, kActive, true)
  | CmdStop force, kActive | CmdStop force, kPause => Some (stop_track force, fun ts => rev ts, kIdle, true)
  | CmdPause, kActive => Some (pause_track, fun ts => rev ts, kPause, true)
  | _, _ => None
  end.

Definition session_spec (cmd : SessionCommand) (client session : Z) (state : SessionState) : ST Recorder Z := fun s =>
  match session_plan cmd state with
  | None => Some (NO_ERROR, s)
  | Some (body, order, next, told) =>
      match each_track (order (tracks_of client session s)) body s with
      | None => None
      | Some (r, s') => Some (if told : bool then r else NO_ERROR,
          if r =? NO_ERROR then s' <| sessions_state_ := kv_add session next (sessions_state_ s') |> else s')
      end
  end.

(** The session is the client's, has a mutex and is in a state. *)
Record session_live (client session : Z) (state : SessionState) (s : Recorder) : Prop := {
  sl_ordered : kv_ordered (client_session_map_ s);
  sl_client : is_Some (kv_lookup client (client_session_map_ s));
  sl_session : kv_mem session (sessions_of client s) = true;
  sl_mutex : kv_lookup session (sessions_mutex_map_ s) = Some true;
  sl_state : kv_lookup session (sessions_state_ s) = Some state
}.

Lemma touch_session_live client session state s : session_live client session state s -> touch_session client session s = s.
Proof.
  intros [Ho [m Hc] Hs _ _]. unfold touch_session, sessions_of in *. unfold at_key in *. rewrite Hc in Hs |- *. simpl in *.
  rewrite touch_same by done. rewrite kv_add_same by done. by destruct s.
Qed.

Lemma lock_session_live client session state s : session_live client session state s ->
  lock_session client session s = Some (tt, s).
Proof.
  intros Hl. unfold lock_session, bind, modify, gets, id. rewrite (touch_session_live client session state s Hl).
  destruct Hl as [Ho Hc Hs Hm Hst]. rewrite touch_same by (unfold kv_mem; by rewrite Hm). unfold at_key. simpl.
  rewrite Hm. simpl. by destruct s.
Qed.

Lemma valid_live client session state s : session_live client session state s ->
  IsClientValid client s = Some (true, s) /\ IsSessionValid client session s = Some (true, s).
Proof.
  intros [Ho [m Hc] Hs _ _]. unfold IsClientValid, IsSessionValid, bind, modify, gets. unfold kv_mem at 1. rewrite Hc.
  split; [done|]. rewrite touch_same by (unfold kv_mem; by rewrite Hc). unfold sessions_of in Hs.
  destruct s; simpl in *. by rewrite Hs.
Qed.

Lemma session_is_live st client session state s : session_live client session state s ->
  session_is st session s = Some (bool_decide (state = st), s).
Proof.
  intros [_ _ _ _ Hst]. unfold session_is, bind, modify, gets. rewrite touch_same by (unfold kv_mem; by rewrite Hst).
  destruct s; simpl in *. unfold at_key. by rewrite Hst.
Qed.

Lemma conclude_spec session next (m : ST Recorder Z) s : (let* r := m in conclude session next r) s
  = match m s with
    | None => None
    | Some (r, s') => Some (r, if r =? NO_ERROR then s' <| sessions_state_ := kv_add session next (sessions_state_ s') |> else s')
    end.
Proof.
  unfold bind, conclude, ChangeSessionState, modify, ret. destruct (m s) as [[r s']|]; [|done]. by destruct (r =? NO_ERROR).
Qed.

(** Comparisons of two known states. *)
Ltac decide_states :=
  repeat match goal with
    | |- context [bool_decide (?a = ?b :> SessionState)] =>
        let v := eval vm_compute in (bool_decide (a = b)) in change (bool_decide (a = b)) with v
    end; cbn [negb].

(** C8. What the commands of a session do in each of its states.  Starting an
    idle session starts its tracks in the order of their numbers, and a
    paused one is resumed, though a failure of that is not reported; stopping
    and pausing take the tracks in the opposite order; the state changes when
    all tracks succeed and stays when one fails, with the tracks before it
    done; every other command is accepted and does nothing. *)
Theorem session_state_machine (cmd : SessionCommand) (client session : Z) (state : SessionState) (s : Recorder) :
  session_live client session state s ->
  session_command cmd client session s = session_spec cmd client session state s.
Proof.
  intros Hl. destruct (valid_live client session state s Hl) as [Hv1 Hv2].
  pose proof (lock_session_live client session state s Hl) as Hlock.
  pose proof (fun st => session_is_live st client session state s Hl) as Hst.
  assert (ResumeSession client session s = session_spec CmdResume client session state s) as Hresume.
  { unfold ResumeSession, IsSessionPaused. rewrite (bind_eq _ _ _ _ _ Hv1). cbn [negb]. rewrite (bind_eq _ _ _ _ _ Hv2). cbn [negb].
    rewrite (bind_eq _ _ _ _ _ (Hst kPause)). destruct state; decide_states; try done. apply conclude_spec. }
  destruct cmd as [|force| |]; simpl session_command; [| | |done].
  - unfold StartSession, IsSessionPaused, IsSessionActive, IsSessionIdle. rewrite (bind_eq _ _ _ _ _ Hlock), (bind_eq _ _ _ _ _ Hv1). cbn [negb].
    rewrite (bind_eq _ _ _ _ _ Hv2). cbn [negb]. rewrite (bind_eq _ _ _ _ _ (Hst kPause)). destruct state; decide_states.
    + by rewrite (bind_eq _ _ _ _ _ (Hst kActive)).
    + unfold bind. rewrite Hresume. unfold session_spec.
      simpl session_plan. cbv iota beta. by destruct (each_track _ _ s) as [[r s']|].
    + rewrite (bind_eq _ _ _ _ _ (Hst kActive)). decide_states. rewrite (bind_eq _ _ _ _ _ (Hst kIdle)). decide_states. apply conclude_spec.
  - unfold StopSession, IsSessionIdle. rewrite (bind_eq _ _ _ _ _ Hlock), (bind_eq _ _ _ _ _ Hv1). cbn [negb].
    rewrite (bind_eq _ _ _ _ _ Hv2). cbn [negb]. rewrite (bind_eq _ _ _ _ _ (Hst kIdle)).
    destruct state; decide_states; [apply conclude_spec..|done].
  - unfold PauseSession, IsSessionPaused, IsSessionIdle. rewrite (bind_eq _ _ _ _ _ Hv1). cbn [negb]. rewrite (bind_eq _ _ _ _ _ Hv2). cbn [negb].
    rewrite (bind_eq _ _ _ _ _ (Hst kPause)). destruct state; decide_states; try done.
    + rewrite (bind_eq _ _ _ _ _ (Hst kIdle)). decide_states. apply conclude_spec.
    + by rewrite (bind_eq _ _ _ _ _ (Hst kIdle)).
Qed.

(** ** The session of another client *)

Lemma bind_lock {A} (m : ST Recorder unit) (k : unit -> ST Recorder A) s s0 : m s = m s0 -> bind m k s = bind m k s0.
Proof. unfold bind. by intros ->. Qed.

(** A client can start the session of another one.  [StartSession] enters
    the session under the calling client before it checks that the client has
    it: the check succeeds, the session, with no tracks there, is marked as
    started, and its owner, whose tracks were not started, cannot start it any
    more. *)
Theorem foreign_session_started (owner other session : Z) (s : Recorder) :
  session_live owner session kIdle s -> other <> owner -> kv_mem session (sessions_of other s) = false ->
  exists s1, StartSession other session s = Some (NO_ERROR, s1) /\
    camera_source_ s1 = camera_source_ s /\ encoder_core_ s1 = encoder_core_ s /\
    tracks_of owner session s1 = tracks_of owner session s /\ session_live owner session kActive s1 /\
    StartSession owner session s1 = Some (NO_ERROR, s1).
Proof.
  intros Hl Hne Hno. set (s0 := touch_session other session s).
  assert (client_session_map_ s0 = kv_add other (kv_add session [] (sessions_of other s)) (client_session_map_ s)) as Hm.
  { unfold s0, touch_session, touch. fold (sessions_of other s). by rewrite Hno. }
  assert (forall c, sessions_of c s0 = if c =? other then kv_add session [] (sessions_of other s) else sessions_of c s) as Hs0.
  { intros c. unfold sessions_of at 1, at_key. rewrite Hm, kv_lookup_add. by case_match. }
  assert (forall st, session_live owner session st s -> session_live owner session st s0) as Hl0.
  { intros st [L1 L2 L3 L4 L5]. split; try done.
    - rewrite Hm. by apply kv_add_ordered.
    - rewrite Hm, kv_lookup_add. by case_match.
    - rewrite Hs0, (proj2 (Z.eqb_neq owner other)) by done. exact L3. }
  assert (session_live other session kIdle s0) as Hother.
  { destruct (Hl0 _ Hl) as [L1 L2 L3 L4 L5]. split; try done.
    - rewrite Hm, kv_lookup_add, Z.eqb_refl. by eexists.
    - rewrite Hs0, Z.eqb_refl. unfold kv_mem. by rewrite kv_lookup_add, Z.eqb_refl. }
  assert (StartSession other session s = StartSession other session s0) as Hstart.
  { unfold StartSession. apply bind_lock. rewrite (lock_session_live other session kIdle s0 Hother).
    unfold lock_session, bind, modify, gets, id. fold s0. destruct Hl as [_ _ _ Hmu _].
    change (sessions_mutex_map_ s0) with (sessions_mutex_map_ s). rewrite touch_same by (unfold kv_mem; by rewrite Hmu).
    unfold at_key. simpl. rewrite Hmu. reflexivity. }
  assert (tracks_of other session s0 = []) as Ht.
  { unfold tracks_of. fold (sessions_of other s0). rewrite Hs0, Z.eqb_refl. unfold at_key. by rewrite kv_lookup_add, Z.eqb_refl. }
  pose proof (session_state_machine CmdStart other session kIdle s0 Hother) as Hspec. simpl in Hspec.
  unfold session_spec in Hspec. simpl session_plan in Hspec. cbv iota beta in Hspec. rewrite Ht in Hspec.
  unfold each_track, ret in Hspec. change (NO_ERROR =? NO_ERROR) with true in Hspec. cbv iota beta in Hspec.
  set (s1 := s0 <| sessions_state_ := kv_add session kActive (sessions_state_ s0) |>) in Hspec. rewrite <- Hstart in Hspec. exists s1.
  assert (session_live owner session kActive s1) as Hl1.
  { destruct (Hl0 _ Hl) as [L1 L2 L3 L4 L5]. split; try done. simpl. by rewrite kv_lookup_add, Z.eqb_refl. }
  split_and!; try done.
  - change (tracks_of owner session s1) with (at_key [] session (sessions_of owner s0)). rewrite Hs0.
    by rewrite (proj2 (Z.eqb_neq owner other)) by done.
  - exact (session_state_machine CmdStart owner session kActive s1 Hl1).
Qed.

(** ** The data of a track *)

(** A track of a client. *)
Record track_live (client session track : Z) (info : TrackInfo) (s : Recorder) : Prop := {
  tl_ordered : kv_ordered (client_session_map_ s);
  tl_client : is_Some (kv_lookup client (client_session_map_ s));
  tl_session : kv_mem session (sessions_of client s) = true;
  tl_track : kv_lookup track (tracks_of client session s) = Some info
}.

Lemma touch_session_known client session s : kv_ordered (client_session_map_ s) -> is_Some (kv_lookup client (client_session_map_ s)) ->
  kv_mem session (sessions_of client s) = true -> touch_session client session s = s.
Proof.
  intros Ho [m Hc] Hs. unfold touch_session, sessions_of in *. unfold at_key in *. rewrite Hc in Hs |- *. simpl in *.
  rewrite touch_same by done. rewrite kv_add_same by done. by destruct s.
Qed.

Lemma check_track_live client session track info s : track_live client session track info s ->
  check_track true client session track s = Some (None, s).
Proof.
  intros [Ho [m Hc] Hs Ht]. unfold check_track, IsClientValid, IsSessionValid, IsTrackValid.
  rewrite bind_gets. unfold kv_mem at 1. rewrite Hc. cbn [negb]. unfold bind, modify, gets.
  rewrite touch_same by (unfold kv_mem; by rewrite Hc).
  assert (s <| client_session_map_ := client_session_map_ s |> = s) as Hs0 by (by destruct s). rewrite Hs0.
  fold (sessions_of client s). rewrite Hs. cbn [negb]. rewrite touch_session_known; [|done|by eexists|done].
  unfold kv_mem. by rewrite Ht.
Qed.

(** The source that has delivered the buffers of a track gets them back. *)
Definition send_back (info : TrackInfo) (buffers : list BnBuffer) : ST Recorder unit :=
  match ti_format info with
  | AudioTrack _ => ret tt
  | VideoTrack f =>
      let* r := (if is_encoded f then encoder (ec_ReturnTrackBuffer (ti_track_id info) buffers)
                 else camera (cs_ReturnTrackBuffer (ti_track_id info) buffers)) in
      expect (r =? NO_ERROR)
  end.

(** C21. The buffers of a video track go to its client while it is alive, in
    one call, and back to the encoder or the camera that delivered them, with
    no call, when it has died. *)
Theorem track_data_delivered (client session track : Z) (info : TrackInfo) (alive : ClientState) (buffers : list BnBuffer)
    (s : Recorder) :
  track_live client session track info s -> kv_lookup client (client_state_ s) = Some alive ->
  VideoTrackBufferCb client session track buffers s =
    match alive with
    | kAlive => Some (tt, s <| notified := notified s ++ [VideoTrackData client session track buffers] |>)
    | kDead => send_back info buffers s
    end.
Proof.
  intros Hl Ha. unfold VideoTrackBufferCb, track_data, IsClientValid. rewrite bind_gets.
  pose proof (check_track_live client session track info s Hl) as Hc. destruct Hl as [Ho [m Hm] Hs Ht].
  unfold kv_mem. rewrite Hm. unfold expect. unfold bind at 1, ret.
  assert (IsClientAlive client s = Some (bool_decide (alive = kAlive), s)) as Hal.
  { unfold IsClientAlive, bind, modify, gets. rewrite touch_same by (unfold kv_mem; by rewrite Ha). unfold at_key.
    destruct s; simpl in *. by rewrite Ha. }
  rewrite (bind_eq _ _ _ _ _ Hal). destruct alive; [done|]. change (bool_decide (kDead = kAlive)) with false. cbn [negb].
  assert (GetServiceTrackInfo client session track s = Some (info, s)) as Hi.
  { unfold GetServiceTrackInfo, bind, modify, gets. rewrite touch_session_known; [|done|by eexists|done].
    unfold at_key. by rewrite Ht. }
  assert (ReturnTrackBuffer client session track buffers s = (do* send_back info buffers in ret NO_ERROR) s) as Hr.
  { unfold ReturnTrackBuffer, send_back. rewrite (bind_eq _ _ _ _ _ Hc), (bind_eq _ _ _ _ _ Hi).
    destruct (ti_format info) as [f|f]; [|done]. unfold bind. destruct (is_encoded f).
    - by destruct (encoder (ec_ReturnTrackBuffer (ti_track_id info) buffers) s) as [[r s']|].
    - by destruct (camera (cs_ReturnTrackBuffer (ti_track_id info) buffers) s) as [[r s']|]. }
  unfold bind at 1. rewrite Hr. unfold bind. by destruct (send_back info buffers s) as [[[] s']|].
Qed.

(** ** The numbers of tracks *)

(** The bits below a shift. *)
Lemma lor_below a b k : 0 <= k -> 0 <= b < 2 ^ k -> Z.lor (Z.shiftl a k) b = a * 2 ^ k + b.
Proof.
  intros Hk Hb. rewrite <- Z.shiftl_mul_pow2 by done. symmetry. apply Z.add_nocarry_lor. apply Z.bits_inj'. intros n Hn.
  rewrite Z.land_spec, Z.bits_0. destruct (Z.ltb_spec n k).
  - by rewrite Z.shiftl_spec_low.
  - rewrite <- (Z.mod_small b (2 ^ k)) by done. rewrite Z.mod_pow2_bits_high by lia. apply andb_false_r.
Qed.

Lemma service_id_value client session track : 0 <= client < 256 -> 0 <= session < 256 -> 0 <= track < 65536 ->
  GetUniqueServiceTrackId client session track = (client * 256 + session) * 65536 + track.
Proof.
  intros Hc Hs Ht. unfold GetUniqueServiceTrackId. rewrite !u32_small.
  - rewrite <- Z.lor_assoc. rewrite (lor_below session track 16) by lia. rewrite lor_below by lia. lia.
  - rewrite Z.shiftl_mul_pow2 by lia. unfold is_u32, UINT32_MOD. lia.
  - rewrite Z.shiftl_mul_pow2 by lia. unfold is_u32, UINT32_MOD. lia.
Qed.

(** The number under which the service knows a track tells the client,
    the session and the client's number of the track, as long as they fit
    into 8, 8 and 16 bits; a session of an even client whose number does not
    fit shares its tracks' numbers with a session of the next client. *)
Theorem service_track_ids (client session track : Z) :
  0 <= client < 256 -> 0 <= session < 256 -> 0 <= track < 65536 ->
  (forall client' session' track', 0 <= client' < 256 -> 0 <= session' < 256 -> 0 <= track' < 65536 ->
     GetUniqueServiceTrackId client session track = GetUniqueServiceTrackId client' session' track' ->
     client = client' /\ session = session' /\ track = track') /\
  (client mod 2 = 0 -> GetUniqueServiceTrackId client (256 + session) track = GetUniqueServiceTrackId (client + 1) session track).
Proof.
  intros Hc Hs Ht. split.
  - intros c' n' t' Hc' Hn' Ht'. rewrite !service_id_value by done. lia.
  - intros He. assert (client + 1 < 256) as Hc1 by (destruct (decide (client = 255)) as [->|]; [done|lia]).
    rewrite (service_id_value (client + 1)) by lia. unfold GetUniqueServiceTrackId. rewrite !u32_small.
    + assert (Z.shiftl client 24 = Z.shiftl (client / 2) 25) as ->.
      { rewrite !Z.shiftl_mul_pow2 by lia. rewrite (Z.div_mod client 2) at 1 by lia. lia. }
      rewrite <- Z.lor_assoc. rewrite (lor_below (256 + session) track 16) by lia. rewrite lor_below by lia.
      pose proof (Z.div_mod client 2). lia.
    + rewrite Z.shiftl_mul_pow2 by lia. unfold is_u32, UINT32_MOD. lia.
    + rewrite Z.shiftl_mul_pow2 by lia. unfold is_u32, UINT32_MOD. lia.
Qed.

End Sessions.

(** ** Witnesses *)

Abbreviation SimpleRecorder := (RecorderImpl (M := Z) (C := SimpleCamera) (E := SimpleEncoder)).

(** Client 1 has a session with two tracks, and client 2 is there as well. *)
Definition one_session : SimpleRecorder :=
  default RecorderImpl_new (recorder_run
    [Call (OpRegister 1); Call (OpRegister 2); Call (OpStartCamera 1 0 S754_nan ExtraParam_new false); Call (OpCreateSession 1);
     Call (OpCreateVideoTrack 1 1 1 one_video); Call (OpCreateVideoTrack 1 1 2 one_video)]
    (RecorderImpl_new <| camera_source_ := Some cs_new |> <| encoder_core_ := Some ec_new |>)).

Lemma one_session_live : session_live 1 1 kIdle one_session.
Proof.
  constructor; [|eexists|..]; vm_compute; try reflexivity. split; [repeat constructor|]. split; [constructor|exact I].
Defined.

Lemma session_state_machine_witness :
  session_command CmdStart 1 1 one_session = session_spec CmdStart 1 1 kIdle one_session /\
  option_map fst (session_command CmdStart 1 1 one_session) = Some NO_ERROR /\ length (tracks_of 1 1 one_session) = 2%nat.
Proof.
  split; [apply (session_state_machine CmdStart 1 1 kIdle one_session), one_session_live|split; vm_compute; reflexivity].
Defined.

Lemma foreign_session_started_witness : exists s1,
  StartSession 2 1 one_session = Some (NO_ERROR, s1) /\ session_live 1 1 kActive s1 /\ StartSession 1 1 s1 = Some (NO_ERROR, s1).
Proof.
  destruct (foreign_session_started 1 2 1 one_session) as (s1 & H1 & _ & _ & _ & H2 & H3).
  - exact one_session_live.
  - discriminate.
  - vm_compute. reflexivity.
  - exists s1. split_and!; [exact H1|exact H2|exact H3].
Defined.

Lemma track_data_delivered_witness : exists info,
  track_live 1 1 1 info one_session /\
  VideoTrackBufferCb 1 1 1 [] one_session =
    Some (tt, one_session <| notified := notified one_session ++ [VideoTrackData 1 1 1 []] |>).
Proof.
  eexists (default (TrackInfo_zero) (kv_lookup 1 (tracks_of 1 1 one_session))).
  assert (track_live 1 1 1 (default (TrackInfo_zero) (kv_lookup 1 (tracks_of 1 1 one_session))) one_session)
    as Hl.
  { constructor; [apply one_session_live|apply one_session_live|apply one_session_live|vm_compute; reflexivity]. }
  split; [exact Hl|].
  apply (track_data_delivered 1 1 1 _ kAlive [] one_session Hl). vm_compute. reflexivity.
Defined.

Lemma service_track_ids_witness :
  GetUniqueServiceTrackId 1 2 3 = 16908291 /\
  (2 mod 2 = 0 -> GetUniqueServiceTrackId 2 (256 + 1) 3 = GetUniqueServiceTrackId (2 + 1) 1 3).
Proof.
  split; [vm_compute; reflexivity|]. apply (service_track_ids 2 1 3); lia.
Defined.
