(* ===== verification/RecorderRegistry.v ===== *)
(** * Which sessions exist

    Theorems about the registry of sessions of the recorder: as long as
    clients start and stop their own sessions only, each session belongs to
    one client, has a number of its own, a mutex and a state. *)

From S2P Require Import Prelude KeyedVector Floats ExtraParam Track RecorderTypes Recorder RecorderCameras RecorderSessions SimpleSources.

Create HintDb sessions discriminated.

Section Registry.
Context {M C E : Type} `{CameraSourceOps M C} `{EncoderCoreOps E}.

Abbreviation Recorder := (RecorderImpl (M := M) (C := C) (E := E)).

Definition has_session (client session : Z) (s : Recorder) : Prop := kv_mem session (sessions_of client s) = true.

(** ** What leaves the sessions alone *)

Record same_sessions (s0 s : Recorder) : Prop := {
  ss_keys : forall client, kv_keys (sessions_of client s) = kv_keys (sessions_of client s0);
  ss_ordered : kv_ordered (client_session_map_ s0) -> kv_ordered (client_session_map_ s);
  ss_mutex : sessions_mutex_map_ s = sessions_mutex_map_ s0;
  ss_unique : unique_session_id_ s = unique_session_id_ s0;
  ss_states : forall n, is_Some (kv_lookup n (sessions_state_ s0)) -> is_Some (kv_lookup n (sessions_state_ s));
  ss_ordered_states : kv_ordered (sessions_state_ s0) -> kv_ordered (sessions_state_ s)
}.

Lemma same_sessions_refl s : same_sessions s s.
Proof. by split. Qed.

Lemma has_session_keys client n s s' : kv_keys (sessions_of client s') = kv_keys (sessions_of client s) ->
  has_session client n s' <-> has_session client n s.
Proof. intros Hk. unfold has_session. by rewrite !kv_mem_keys, Hk. Qed.

Lemma kv_keys_touch {V} (d : V) k m : kv_mem k m = true -> kv_keys (touch d k m) = kv_keys m.
Proof. intros Hm. by rewrite touch_same. Qed.

Lemma kv_keys_add_known {V} k (v : V) m : kv_ordered m -> kv_mem k m = true -> kv_keys (kv_add k v m) = kv_keys m.
Proof.
  intros Ho. induction m as [|[k0 v0] m IH]; simpl; [done|]. destruct Ho as [Hb Ho]. unfold kv_mem. simpl.
  destruct (Z.eqb_spec k k0) as [->|Hne]; [by rewrite Z.ltb_irrefl|]. intros Hm. destruct (Z.ltb_spec k k0).
  - rewrite kv_lookup_below in Hm; [done|]. eapply Forall_impl; [exact Hb|]. intros [] Hlt. simpl in *. lia.
  - simpl. by rewrite IH.
Qed.

(** Another list of sessions for a client, with the same numbers. *)
Lemma same_set client m s0 s : same_sessions s0 s -> kv_keys m = kv_keys (sessions_of client s) ->
  same_sessions s0 (s <| client_session_map_ := kv_add client m (client_session_map_ s) |>).
Proof.
  intros [Hk Ho Hm Hu Hs Hos] Hkm. split; try done.
  - intros c. rewrite <- Hk. unfold sessions_of, at_key in *. simpl. rewrite kv_lookup_add.
    by destruct (Z.eqb_spec c client) as [->|].
  - intros Hs0. apply kv_add_ordered. auto.
Qed.

Lemma same_touch_client client s0 s : same_sessions s0 s ->
  same_sessions s0 (s <| client_session_map_ := touch [] client (client_session_map_ s) |>).
Proof.
  intros Hs. unfold touch. case_match eqn:Em; [by destruct Hs; split|]. apply same_set; [done|].
  unfold sessions_of, at_key, kv_mem in *. by destruct (kv_lookup client (client_session_map_ s)).
Qed.

Lemma same_touch_session client n s0 s : same_sessions s0 s -> has_session client n s0 ->
  same_sessions s0 (touch_session client n s).
Proof.
  intros Hs Hn. apply same_set; [done|]. apply kv_keys_touch. fold (sessions_of client s).
  by apply (has_session_keys client n s0 s (ss_keys _ _ Hs client)).
Qed.

Lemma camera_same {A} (m : ST C A) s0 : preserves (same_sessions s0) (camera m : ST Recorder A).
Proof. intros s Hs. unfold camera. destruct (camera_source_ s); [|done]. destruct (m c) as [[]|]; [|done]. by destruct Hs. Qed.

Lemma encoder_same {A} (m : ST E A) s0 : preserves (same_sessions s0) (encoder m : ST Recorder A).
Proof. intros s Hs. unfold encoder. destruct (encoder_core_ s); [|done]. destruct (m e) as [[]|]; [|done]. by destruct Hs. Qed.

Lemma each_track_same tracks body s0 : (forall t, preserves (same_sessions s0) (body t)) ->
  preserves (same_sessions s0) (each_track tracks body).
Proof.
  intros Hb. induction tracks as [|[k t] tracks IH]; simpl; [apply preserves_ret|].
  apply preserves_bind; [done|]. intros r. case_match; [done|apply preserves_ret].
Qed.

Lemma last_result_same {A} (l : list A) body s0 : (forall a r, preserves (same_sessions s0) (body a r)) ->
  forall r, preserves (same_sessions s0) (last_result l r body).
Proof.
  intros Hb r. unfold last_result. assert (preserves (same_sessions s0) (ret r : ST Recorder Z)) as Hm by apply preserves_ret.
  revert Hm. generalize (ret r : ST Recorder Z) as m. induction l as [|a l IH]; intros m Hm; simpl; [done|].
  apply IH. apply preserves_bind; [done|]. intros r'. apply Hb.
Qed.

Lemma add_state_same n st s0 s : same_sessions s0 s ->
  same_sessions s0 (s <| sessions_state_ := kv_add n st (sessions_state_ s) |>).
Proof.
  intros [Hk Ho Hm Hu Hs Hos]. split; try done; simpl.
  - intros n' Hn'. rewrite kv_lookup_add. case_match; [by eexists|auto].
  - intros Hs0. apply kv_add_ordered. auto.
Qed.

Lemma touch_state_same n st s0 s : same_sessions s0 s ->
  same_sessions s0 (s <| sessions_state_ := touch st n (sessions_state_ s) |>).
Proof. intros Hs. unfold touch. case_match; [by destruct Hs; split|by apply add_state_same]. Qed.

(** A change of other fields, or one of those above. *)
Ltac other_fields :=
  apply preserves_modify; let s := fresh "s" in let Hs := fresh "Hs" in intros s Hs;
  first [ exact (same_touch_client _ _ _ Hs) | exact (touch_state_same _ _ _ _ Hs) | exact (add_state_same _ _ _ _ Hs)
        | apply same_touch_session; [exact Hs|assumption] | destruct Hs; split; assumption ].

Ltac keep := repeat first
  [ preserve_step | apply encoder_same | apply camera_same | other_fields
  | apply each_track_same; intros ? | apply last_result_same; intros ? ? | solve [auto with sessions] ].

Lemma session_is_same st n s0 : preserves (same_sessions s0) (session_is st n : ST Recorder bool).
Proof. unfold session_is. keep. Qed.
Hint Resolve session_is_same : sessions.

Lemma conclude_same n st r s0 : preserves (same_sessions s0) (conclude n st r : ST Recorder Z).
Proof. unfold conclude, ChangeSessionState. keep. Qed.
Hint Resolve conclude_same : sessions.

Lemma ResumeSession_same client n s0 : preserves (same_sessions s0) (ResumeSession client n : ST Recorder Z).
Proof. unfold ResumeSession, IsClientValid, IsSessionValid, IsSessionPaused, resume_track. keep. Qed.

Lemma PauseSession_same client n s0 : preserves (same_sessions s0) (PauseSession client n : ST Recorder Z).
Proof. unfold PauseSession, IsClientValid, IsSessionValid, IsSessionPaused, IsSessionIdle, pause_track. keep. Qed.
Hint Resolve ResumeSession_same PauseSession_same : sessions.

(** The mutex of a session that the client has. *)
Lemma lock_session_same client n s0 : has_session client n s0 -> kv_mem n (sessions_mutex_map_ s0) = true ->
  preserves (same_sessions s0) (lock_session client n : ST Recorder unit).
Proof.
  intros Hn Hm. unfold lock_session. keep. apply preserves_modify. intros s Hs. rewrite touch_same by (by rewrite (ss_mutex _ _ Hs)).
  by destruct Hs.
Qed.

Lemma StartSession_same client n s0 : has_session client n s0 -> kv_mem n (sessions_mutex_map_ s0) = true ->
  preserves (same_sessions s0) (StartSession client n : ST Recorder Z).
Proof.
  intros Hn Hm. pose proof (lock_session_same client n s0 Hn Hm).
  unfold StartSession, IsClientValid, IsSessionValid, IsSessionPaused, IsSessionActive, IsSessionIdle, start_track. keep.
Qed.

Lemma StopSession_same client n force s0 : has_session client n s0 -> kv_mem n (sessions_mutex_map_ s0) = true ->
  preserves (same_sessions s0) (StopSession client n force : ST Recorder Z).
Proof.
  intros Hn Hm. pose proof (lock_session_same client n s0 Hn Hm).
  unfold StopSession, IsClientValid, IsSessionValid, IsSessionIdle, stop_track. keep.
Qed.

Lemma same_sessions_trans s1 s2 s3 : same_sessions s1 s2 -> same_sessions s2 s3 -> same_sessions s1 s3.
Proof.
  intros [A1 A2 A3 A4 A5 A6] [B1 B2 B3 B4 B5 B6]. split; [intros c; by rewrite B1|auto|by rewrite B3|by rewrite B4|auto..].
Qed.

Lemma set_tracks_same client n f s0 : has_session client n s0 -> kv_ordered (client_session_map_ s0) ->
  (forall s, same_sessions s0 s -> kv_ordered (sessions_of client s)) ->
  preserves (same_sessions s0) (set_tracks client n f : ST Recorder unit).
Proof.
  intros Hn Ho Hos. unfold set_tracks. apply preserves_modify. intros s Hs. apply same_set; [done|].
  fold (sessions_of client s). apply kv_keys_add_known; [by apply Hos|].
  by apply (has_session_keys client n s0 s (ss_keys _ _ Hs client)).
Qed.

(** The sessions of each client are ordered. *)
Definition inner_ordered (s : Recorder) : Prop := forall c, kv_ordered (sessions_of c s).

Lemma same_inner s0 s : same_sessions s0 s -> inner_ordered s0 -> inner_ordered s.
Proof. intros Hs Ho c. apply (kv_ordered_keys (sessions_of c s0)); [by rewrite (ss_keys _ _ Hs)|apply Ho]. Qed.

(** An operation that begins with the checks of a track. *)
Lemma checked_same {A} b client n t (k : option Z -> ST Recorder A) s0 :
  (has_session client n s0 -> preserves (same_sessions s0) (k None)) ->
  (forall e, preserves (same_sessions s0) (k (Some e))) ->
  preserves (same_sessions s0) (bind (check_track b client n t) k).
Proof.
  intros Hnone Hsome. destruct (kv_mem n (sessions_of client s0)) eqn:En.
  - assert (has_session client n s0) as Hh by exact En. apply preserves_bind.
    + unfold check_track, IsClientValid, IsSessionValid, IsTrackValid. keep.
    + intros [e|]; [apply Hsome|by apply Hnone].
  - intros s Hs. assert (kv_mem n (sessions_of client s) = false) as Hs'.
    { apply not_true_iff_false. intros Ht. apply (has_session_keys client n s0 s (ss_keys _ _ Hs client)) in Ht.
      unfold has_session in Ht. congruence. }
    assert (exists s1, check_track b client n t s = Some (Some BAD_VALUE, s1) /\ same_sessions s0 s1) as (s1 & E1 & Hs1).
    { unfold check_track, IsClientValid. rewrite bind_gets. destruct (kv_mem client (client_session_map_ s)) eqn:Ec.
      - cbn [negb]. unfold IsSessionValid, bind, modify, gets. simpl. rewrite touch_same by done.
        fold (sessions_of client s). rewrite Hs'. eexists. split; [reflexivity|]. by destruct Hs; split.
      - by exists s. }
    rewrite (bind_eq _ _ _ _ _ E1). by apply Hsome.
Qed.

Lemma add_video_track_same client n t vp m s0 : has_session client n s0 -> kv_ordered (client_session_map_ s0) -> inner_ordered s0 ->
  preserves (same_sessions s0) m -> preserves (same_sessions s0) (add_video_track client n t vp m : ST Recorder Z).
Proof.
  intros Hn Ho Hi Hm. unfold add_video_track. keep. apply set_tracks_same; [done|done|]. intros s Hs. by apply (same_inner s0 s).
Qed.

Lemma link_same clients p s0 : preserves (same_sessions s0) (link_with_owner clients p : ST Recorder Z).
Proof. induction clients as [|c clients IH]; simpl; unfold IsCameraValid; keep. Qed.
Hint Resolve link_same : sessions.

Lemma resolve_same client p x s0 : preserves (same_sessions s0) (resolve_source client p x : ST Recorder (Z + ExtraParam)).
Proof. unfold resolve_source, GetServiceTrackId, FindSuitableIdForLinkedTrack. keep. Qed.

Lemma set_timelapse_same t track x s0 : preserves (same_sessions s0) (set_timelapse t track x : ST Recorder Z).
Proof. unfold set_timelapse. keep. Qed.
Hint Resolve resolve_same set_timelapse_same : sessions.

Lemma ReturnTrackBuffer_same client n t bs s0 : preserves (same_sessions s0) (ReturnTrackBuffer client n t bs : ST Recorder Z).
Proof. unfold ReturnTrackBuffer. apply checked_same; [|intros e; keep]. intros Hn. unfold GetServiceTrackInfo, expect. keep. Qed.
Hint Resolve ReturnTrackBuffer_same : sessions.

Lemma DeleteVideoTrack_same client n t s0 : kv_ordered (client_session_map_ s0) -> inner_ordered s0 ->
  preserves (same_sessions s0) (DeleteVideoTrack client n t : ST Recorder Z).
Proof.
  intros Ho Hi. unfold DeleteVideoTrack. apply checked_same; [|intros e; keep]. intros Hn. unfold notify. keep.
  apply set_tracks_same; [done|done|]. intros s Hs. by apply (same_inner s0 s).
Qed.

Lemma CameraFlushCb_same cam s0 : preserves (same_sessions s0) (CameraFlushCb cam : ST Recorder unit).
Proof. unfold CameraFlushCb, expect. keep. Qed.
Hint Resolve CameraFlushCb_same : sessions.

Lemma track_data_same client n t bs x s0 : preserves (same_sessions s0) (track_data client n t bs x : ST Recorder unit).
Proof. unfold track_data, IsClientValid, IsClientAlive, expect, notify. keep. Qed.

Lemma ForceReturnBuffers_same client s0 : preserves (same_sessions s0) (ForceReturnBuffers client : ST Recorder Z).
Proof. unfold ForceReturnBuffers, flush_tracks. keep. Qed.

Lemma tell_others_same client x s0 : preserves (same_sessions s0) (tell_others client x : ST Recorder unit).
Proof. unfold tell_others, notify. keep. Qed.

Lemma set_cameras_same client f s0 : preserves (same_sessions s0) (set_cameras client f : ST Recorder unit).
Proof. unfold set_cameras. keep. Qed.
Hint Resolve track_data_same ForceReturnBuffers_same tell_others_same set_cameras_same : sessions.

Lemma StartCamera_same client cam fps x b s0 : preserves (same_sessions s0) (StartCamera client cam fps x b : ST Recorder Z).
Proof. unfold StartCamera, IsClientValid, IsCameraOwned, IsCameraValid. keep. Qed.

Lemma on_own_camera_same {A} client cam f (m : ST Recorder A) s0 : preserves (same_sessions s0) m ->
  preserves (same_sessions s0) (on_own_camera client cam f m).
Proof. intros Hm. unfold on_own_camera, IsClientValid, IsCameraValid. keep. Qed.

(** ** The registry *)

(** At most [k] sessions were created. *)
Record registry_ok (k : Z) (s : Recorder) : Prop := {
  rg_ordered : kv_ordered (client_session_map_ s);
  rg_inner : inner_ordered s;
  rg_ordered_mutex : kv_ordered (sessions_mutex_map_ s);
  rg_ordered_states : kv_ordered (sessions_state_ s);
  rg_unique : 0 <= unique_session_id_ s <= k;
  rg_bounds : forall c n, has_session c n s -> 0 < n <= unique_session_id_ s;
  rg_one : forall c1 c2 n, has_session c1 n s -> has_session c2 n s -> c1 = c2;
  rg_mutexes : forall n v, kv_lookup n (sessions_mutex_map_ s) = Some v -> v = true;
  rg_mutex : forall c n, has_session c n s -> kv_mem n (sessions_mutex_map_ s) = true;
  rg_state : forall c n, has_session c n s -> is_Some (kv_lookup n (sessions_state_ s))
}.

Lemma same_has s0 s c n : same_sessions s0 s -> has_session c n s <-> has_session c n s0.
Proof. intros Hs. apply has_session_keys. by rewrite (ss_keys _ _ Hs). Qed.

Lemma same_registry k s0 s : same_sessions s0 s -> registry_ok k s0 -> registry_ok k s.
Proof.
  intros Hs [R1 R2 R3 R4 R5 R6 R7 R8 R9 R10]. pose proof (fun c n => same_has s0 s c n Hs) as Hh.
  pose proof (same_inner s0 s Hs R2) as Hi. destruct Hs as [Hk Ho Hm Hu Hst Hos]. split; rewrite ?Hm, ?Hu; auto.
  - intros c n Hn. by apply (R6 c), Hh.
  - intros c1 c2 n H1 H2. by apply (R7 c1 c2 n); apply Hh.
  - intros c n Hn. by apply (R9 c), Hh.
  - intros c n Hn. by apply Hst, (R10 c), Hh.
Qed.

Lemma registry_mono k k' s : k <= k' -> registry_ok k s -> registry_ok k' s.
Proof. intros Hk [R1 R2 R3 R4 R5 R6 R7 R8 R9 R10]. split; try done. lia. Qed.

(** The numbers of all sessions. *)
Definition all_sessions {V} (m : kv (kv V)) : list Z := concat (map (fun p => kv_keys (snd p)) m).

Lemma all_sessions_in {V} n (m : kv (kv V)) : n ∈ all_sessions m <-> exists c ts, (c, ts) ∈ m /\ n ∈ kv_keys ts.
Proof.
  unfold all_sessions. induction m as [|[c ts] m IH]; simpl.
  - split; [by intros ?%not_elem_of_nil|]. by intros (c & ts & ?%not_elem_of_nil & _).
  - rewrite elem_of_app, IH. split.
    + intros [Hn|(c' & ts' & Hin & Hn)]; [exists c, ts; split; [by left|done]|exists c', ts'; split; [by right|done]].
    + intros (c' & ts' & [[= -> ->]|Hin]%elem_of_cons & Hn); [by left|right; by exists c', ts'].
Qed.

Lemma all_sessions_NoDup {V} (m : kv (kv V)) : kv_ordered m -> (forall c ts, (c, ts) ∈ m -> kv_ordered ts) ->
  (forall c1 c2 ts1 ts2 n, (c1, ts1) ∈ m -> (c2, ts2) ∈ m -> n ∈ kv_keys ts1 -> n ∈ kv_keys ts2 -> c1 = c2) ->
  NoDup (all_sessions m).
Proof.
  induction m as [|[c ts] m IH]; intros Ho Hi H1; [constructor|]. change (all_sessions ((c, ts) :: m)) with (kv_keys ts ++ all_sessions m).
  destruct Ho as [Hb Ho]. apply NoDup_app. split_and!.
  - apply kv_ordered_NoDup, (Hi c). by left.
  - intros n Hn (c' & ts' & Hin & Hn')%all_sessions_in.
    assert (c = c') as <- by (eapply (H1 c c'); [by left|by right|exact Hn|exact Hn']).
    rewrite Forall_forall in Hb. specialize (Hb _ Hin). simpl in Hb. lia.
  - apply IH; [done| |].
    + intros c' ts' Hin. apply (Hi c'). by right.
    + intros c1 c2 ts1 ts2 n Hin1 Hin2. apply H1; by right.
Qed.

Lemma bounded_length (l : list Z) u : NoDup l -> 0 <= u -> (forall n, n ∈ l -> 0 < n <= u) -> Z.of_nat (length l) <= u.
Proof.
  intros Hnd Hu Hb. assert (l ⊆+ seqZ 1 u) as Hs.
  { apply NoDup_submseteq; [done|]. intros n Hn. apply elem_of_seqZ. specialize (Hb n Hn). lia. }
  apply submseteq_length in Hs. rewrite length_seqZ in Hs. lia.
Qed.

Lemma sessions_in c ts (s : Recorder) : kv_ordered (client_session_map_ s) -> (c, ts) ∈ client_session_map_ s -> sessions_of c s = ts.
Proof. intros Ho Hin. unfold sessions_of, at_key. by rewrite (kv_in_lookup c ts). Qed.

Lemma session_total k s : registry_ok k s -> Z.of_nat (length (all_sessions (client_session_map_ s))) <= unique_session_id_ s.
Proof.
  intros [R1 R2 _ _ R5 R6 R7 _ _ _]. apply bounded_length; [|lia|].
  - apply all_sessions_NoDup; [done| |].
    + intros c ts Hin. rewrite <- (sessions_in c ts s R1 Hin). apply R2.
    + intros c1 c2 ts1 ts2 n H1 H2 Hn1 Hn2. apply (R7 c1 c2 n).
      * unfold has_session. rewrite (sessions_in c1 ts1 s R1 H1). by apply kv_mem_keys.
      * unfold has_session. rewrite (sessions_in c2 ts2 s R1 H2). by apply kv_mem_keys.
  - intros n (c & ts & Hin & Hn)%all_sessions_in. apply (R6 c). unfold has_session. rewrite (sessions_in c ts s R1 Hin).
    by apply kv_mem_keys.
Qed.

Lemma session_count_total (s : Recorder) : session_count s = u32 (Z.of_nat (length (all_sessions (client_session_map_ s)))).
Proof.
  unfold session_count. assert (forall m n, u32 n = n -> fold_left (fun n p => u32 (n + Z.of_nat (length (snd p)))) m n
    = u32 (n + Z.of_nat (length (all_sessions (V := TrackInfoMap) m)))) as Hf.
  { induction m as [|[c ts] m IH]; intros n Hn; simpl; [by rewrite Z.add_0_r|]. rewrite IH by apply u32_idem.
    rewrite u32_add_l. f_equal. unfold all_sessions. simpl. rewrite length_app. unfold kv_keys. rewrite length_map. lia. }
  by rewrite Hf.
Qed.

Lemma no_sessions k s : registry_ok k s -> k < UINT32_MOD -> session_count s = 0 -> forall c n, ~ has_session c n s.
Proof.
  intros Hr Hk Hc c n Hn. rewrite session_count_total in Hc. pose proof (session_total k s Hr) as Ht.
  pose proof (rg_unique _ _ Hr). rewrite u32_small in Hc by (unfold is_u32; lia).
  destruct (all_sessions (client_session_map_ s)) as [|x l] eqn:Ea; [|simpl in Hc; lia].
  assert (n ∈ all_sessions (client_session_map_ s)) as Hin; [|rewrite Ea in Hin; by apply not_elem_of_nil in Hin].
  unfold has_session, sessions_of, at_key in Hn. destruct (kv_lookup c (client_session_map_ s)) as [ts|] eqn:El; [|done].
  apply all_sessions_in. exists c, ts. split; [by apply kv_lookup_in|by apply kv_mem_keys].
Qed.

(** ** Creating and deleting sessions *)

Lemma has_set c client m n s : has_session c n (s <| client_session_map_ := kv_add client m (client_session_map_ s) |>)
  <-> if c =? client then kv_mem n m = true else has_session c n s.
Proof. unfold has_session, sessions_of, at_key. simpl. rewrite kv_lookup_add. by destruct (c =? client). Qed.

Lemma kv_mem_emplace {V} n k (v : V) m : kv_mem n (emplace k v m) = (n =? k) || kv_mem n m.
Proof.
  unfold emplace. destruct (kv_mem k m) eqn:Ek.
  - destruct (Z.eqb_spec n k) as [->|]; [by rewrite Ek|done].
  - unfold kv_mem. rewrite kv_lookup_add. by destruct (n =? k).
Qed.

Lemma CreateSession_ok k client : k + 1 < UINT32_MOD -> hoare (registry_ok k) (CreateSession client : ST Recorder (Z * Z))
  (fun _ => registry_ok (k + 1)).
Proof.
  intros Hk s Hr. pose proof (registry_mono k (k + 1) s ltac:(lia) Hr) as Hr1. unfold CreateSession, IsClientValid. rewrite bind_gets.
  destruct (kv_mem client (client_session_map_ s)); cbn [negb]; [|done]. rewrite bind_gets. unfold id at 1.
  destruct (camera_source_ s) as [src|]; [|done]. unfold bind, modify, ret, id. destruct Hr as [R1 R2 R3 R4 R5 R6 R7 R8 R9 R10].
  rewrite u32_small by (unfold is_u32; lia). set (n := unique_session_id_ s + 1) in *.
  fold (sessions_of client s). set (s1 := _ <| sessions_mutex_map_ := _ |>).
  assert (forall c n', has_session c n' s1 <-> has_session c n' s \/ (c = client /\ n' = n)) as Hh.
  { intros c n'. unfold has_session at 1, sessions_of, at_key. simpl. rewrite kv_lookup_add.
    destruct (Z.eqb_spec c client) as [->|Hne]; simpl; [|fold (at_key (V := SessionTrackMap) [] c (client_session_map_ s));
      fold (sessions_of c s); unfold has_session; tauto].
    fold (at_key (V := SessionTrackMap) [] client (client_session_map_ s)). fold (sessions_of client s).
    rewrite kv_mem_emplace. unfold has_session. rewrite orb_true_iff, Z.eqb_eq. tauto. }
  split; try done.
  - by apply kv_add_ordered.
  - intros c. unfold sessions_of, at_key. simpl. rewrite kv_lookup_add. case_match; [apply emplace_ordered, R2|apply R2].
  - by apply emplace_ordered.
  - by apply emplace_ordered.
  - simpl. lia.
  - intros c n' [Hn|[_ ->]]%Hh; simpl; [|lia]. specialize (R6 c n' Hn). lia.
  - intros c1 c2 n' H1%Hh H2%Hh. destruct H1 as [H1|[-> Hn1]], H2 as [H2|[-> Hn2]]; try done; [by apply (R7 c1 c2 n')| |].
    + specialize (R6 c1 n' H1). lia.
    + specialize (R6 c2 n' H2). lia.
  - intros n' v. simpl. rewrite lookup_emplace. destruct (kv_lookup n' (sessions_mutex_map_ s)) eqn:El.
    + intros [= <-]. by apply (R8 n').
    + case_match; [by intros [= <-]|done].
  - intros c n' Hn%Hh. simpl. rewrite kv_mem_emplace. destruct Hn as [Hn|[_ ->]]; [|by rewrite Z.eqb_refl].
    rewrite (R9 c n' Hn). apply orb_true_r.
  - intros c n' Hn%Hh. simpl. rewrite lookup_emplace. destruct Hn as [Hn|[_ ->]].
    + destruct (R10 c n' Hn) as [v ->]. by eexists.
    + case_match; [by eexists|]. rewrite Z.eqb_refl. by eexists.
Qed.

Lemma remove_session_ok k client n s : registry_ok k s -> has_session client n s ->
  registry_ok k (s <| client_session_map_ := kv_add client (kv_remove n (sessions_of client s)) (client_session_map_ s) |>
    <| sessions_state_ := kv_remove n (sessions_state_ s) |> <| sessions_mutex_map_ := kv_remove n (sessions_mutex_map_ s) |>).
Proof.
  intros [R1 R2 R3 R4 R5 R6 R7 R8 R9 R10] Hn. set (s1 := _ <| sessions_mutex_map_ := _ |>).
  assert (forall c, sessions_of c s1 = if c =? client then kv_remove n (sessions_of client s) else sessions_of c s) as Hs1.
  { intros c. unfold sessions_of at 1, at_key. simpl. rewrite kv_lookup_add. by case_match. }
  assert (forall c n', has_session c n' s1 -> has_session c n' s /\ n' <> n) as Hh.
  { intros c n'. unfold has_session, kv_mem. rewrite Hs1. destruct (Z.eqb_spec c client) as [->|Hne].
    - rewrite kv_lookup_remove by apply R2. destruct (Z.eqb_spec n' n) as [->|]; [done|]. done.
    - intros Hc. split; [done|]. intros ->. apply Hne. by apply (R7 c client n). }
  split; try done.
  - by apply kv_add_ordered.
  - intros c. rewrite Hs1. case_match; [apply kv_remove_ordered|]; apply R2.
  - by apply kv_remove_ordered.
  - by apply kv_remove_ordered.
  - intros c n' [Hc _]%Hh. by apply (R6 c).
  - intros c1 c2 n' [H1 _]%Hh [H2 _]%Hh. by apply (R7 c1 c2 n').
  - intros n' v. simpl. rewrite kv_lookup_remove by done. case_match; [done|]. apply R8.
  - intros c n' [Hc Hne]%Hh. unfold kv_mem. simpl. rewrite kv_lookup_remove by done. rewrite (proj2 (Z.eqb_neq n' n)) by done.
    exact (R9 c n' Hc).
  - intros c n' [Hc Hne]%Hh. simpl. rewrite kv_lookup_remove by done. rewrite (proj2 (Z.eqb_neq n' n)) by done.
    exact (R10 c n' Hc).
Qed.

Lemma sessions_same (s : Recorder) : s <| client_session_map_ := client_session_map_ s |> = s.
Proof. by destruct s. Qed.

Lemma DeleteSession_ok k client n : k < UINT32_MOD -> hoare (registry_ok k) (DeleteSession client n : ST Recorder Z)
  (fun _ s' => registry_ok k s').
Proof.
  intros Hk s Hr. unfold DeleteSession, IsClientValid. rewrite bind_gets.
  destruct (kv_mem client (client_session_map_ s)) eqn:Ec; cbn [negb]; [|done].
  unfold IsSessionValid, bind, modify, gets, id. rewrite touch_same by done. fold (sessions_of client s).
  rewrite sessions_same. change (at_key [] client (client_session_map_ s)) with (sessions_of client s).
  destruct (kv_mem n (sessions_of client s)) eqn:En; cbn [negb]; [|exact Hr].
  destruct (tracks_of client n s); [|exact Hr]. unfold ret. fold (sessions_of client s).
  set (s1 := s <| client_session_map_ := kv_add client (kv_remove n (sessions_of client s)) (client_session_map_ s) |>
    <| sessions_state_ := kv_remove n (sessions_state_ s) |> <| sessions_mutex_map_ := kv_remove n (sessions_mutex_map_ s) |>).
  assert (registry_ok k s1) as Hr1 by (by apply remove_session_ok).
  destruct (session_count s1 =? 0) eqn:E0; [|exact Hr1]. apply Z.eqb_eq in E0.
  pose proof (no_sessions k s1 Hr1 Hk E0) as Hno. destruct Hr1 as [R1 R2 R3 R4 R5 R6 R7 R8 R9 R10]. split; try done.
  - simpl. lia.
  - intros c n' Hn. by destruct (Hno c n').
Qed.
Lemma DeleteSession_other client n n' : n' <> n ->
  hoare (fun s => inner_ordered s /\ has_session client n' s) (DeleteSession client n : ST Recorder Z)
    (fun _ s' => has_session client n' s').
Proof.
  intros Hne s [Hi Hh]. unfold DeleteSession, IsClientValid. rewrite bind_gets.
  destruct (kv_mem client (client_session_map_ s)) eqn:Ec; cbn [negb]; [|exact Hh].
  unfold IsSessionValid, bind, modify, gets, id. rewrite touch_same by done.
  rewrite sessions_same. change (at_key [] client (client_session_map_ s)) with (sessions_of client s).
  destruct (kv_mem n (sessions_of client s)); cbn [negb]; [|exact Hh]. destruct (tracks_of client n s); [|exact Hh].
  unfold ret. change (at_key [] client (client_session_map_ s)) with (sessions_of client s).
  assert (forall s1, client_session_map_ s1 = kv_add client (kv_remove n (sessions_of client s)) (client_session_map_ s) ->
    has_session client n' s1) as Hs1; [|by case_match; apply Hs1].
  intros s1 Hm. unfold has_session, sessions_of, at_key, kv_mem. rewrite Hm, kv_lookup_add, Z.eqb_refl. simpl.
  rewrite kv_lookup_remove by apply Hi. by rewrite (proj2 (Z.eqb_neq n' n)).
Qed.

(** ** A client that died *)

Definition registry_with (k client : Z) (l : list Z) (s : Recorder) : Prop :=
  registry_ok k s /\ forall n, n ∈ l -> has_session client n s.

Lemma same_with {A} k client l (m : ST Recorder A) :
  (forall s, registry_with k client l s -> preserves (same_sessions s) m) -> preserves (registry_with k client l) m.
Proof.
  intros Hm s Hs. pose proof (Hm s Hs s (same_sessions_refl s)) as Hk. destruct (m s) as [[a s']|]; [|done].
  destruct Hs as [Hr Hl]. split; [by apply (same_registry k s)|]. intros n Hn. by apply (same_has s s' client n Hk), Hl.
Qed.

Lemma end_session_ok k client n tracks l : k < UINT32_MOD -> n ∉ l ->
  hoare (registry_with k client (n :: l)) (end_session client (n, tracks) : ST Recorder unit)
    (fun _ => registry_with k client l).
Proof.
  intros Hk Hn. unfold end_session. simpl fst. simpl snd.
  apply (hoare_bind _ _ _ _ (fun _ => registry_with k client (n :: l))).
  { apply hoare_preserves, same_with. intros s [Hr Hl]. apply StopSession_same; [apply Hl; by left|].
    apply (rg_mutex k s Hr client). apply Hl. by left. }
  intros r. apply (hoare_bind _ _ _ _ (fun _ => registry_with k client (n :: l))).
  { apply hoare_preserves. apply same_with. intros s [Hr Hl]. apply preserves_for_each. intros [t info] _.
    destruct (ti_format _); [|apply preserves_ret]. apply preserves_bind; [|intros; apply preserves_ret].
    apply DeleteVideoTrack_same; apply Hr. }
  intros []. apply (hoare_bind _ _ _ _ (fun _ => registry_with k client l)); [|intros r'; apply hoare_preserves, preserves_ret].
  intros s [Hr Hl]. pose proof (DeleteSession_ok k client n Hk s Hr) as H1.
  assert (forall n', n' ∈ l -> match DeleteSession client n s with Some (_, s') => has_session client n' s' | None => True end) as H2.
  { intros n' Hn'. apply (DeleteSession_other client n n' ltac:(by intros ->)). split; [apply Hr|]. apply Hl. by right. }
  destruct (DeleteSession client n s) as [[r' s']|]; [|done]. by split.
Qed.

Lemma end_sessions_ok k client ss : k < UINT32_MOD -> NoDup (kv_keys ss) ->
  hoare (registry_with k client (kv_keys ss)) (for_each ss (end_session client) : ST Recorder unit) (fun _ => registry_ok k).
Proof.
  intros Hk. induction ss as [|[n tracks] ss IH]; intros Hnd; simpl.
  - intros s [Hr _]. exact Hr.
  - apply NoDup_cons in Hnd as [Hn Hnd].
    apply (hoare_bind _ _ _ _ (fun _ => registry_with k client (kv_keys ss))); [by apply end_session_ok|]. intros _. by apply IH.
Qed.

Lemma remove_client_ok k client s : registry_ok k s ->
  registry_ok k (s <| client_session_map_ := kv_remove client (client_session_map_ s) |>).
Proof.
  intros [R1 R2 R3 R4 R5 R6 R7 R8 R9 R10]. set (s1 := s <| client_session_map_ := _ |>).
  assert (forall c, sessions_of c s1 = if c =? client then [] else sessions_of c s) as Hs1.
  { intros c. unfold sessions_of, at_key. simpl. rewrite kv_lookup_remove by done. by case_match. }
  assert (forall c n, has_session c n s1 -> has_session c n s) as Hh.
  { intros c n. unfold has_session. rewrite Hs1. by case_match. }
  split; try done.
  - by apply kv_remove_ordered.
  - intros c. rewrite Hs1. case_match; [done|apply R2].
  - intros c n Hn%Hh. exact (R6 c n Hn).
  - intros c1 c2 n H1%Hh H2%Hh. exact (R7 c1 c2 n H1 H2).
  - intros c n Hn%Hh. exact (R9 c n Hn).
  - intros c n Hn%Hh. exact (R10 c n Hn).
Qed.

Lemma same_ok {A} k (m : ST Recorder A) :
  (forall s, registry_ok k s -> preserves (same_sessions s) m) -> preserves (registry_ok k) m.
Proof.
  intros Hm s Hs. pose proof (Hm s Hs s (same_sessions_refl s)) as Hk. destruct (m s) as [[a s']|]; [|done].
  by apply (same_registry k s).
Qed.

Lemma StopCamera_nothing_same client cam s0 : preserves (same_sessions s0) (StopCamera [] client cam : ST Recorder Z).
Proof.
  unfold StopCamera, IsClientValid, IsCameraOwned, IsCameraValid. keep.
  intros s Hs. simpl. by destruct (slaves_closed cam s).
Qed.

Lemma preserves_bind_gets {S A B} (I : S -> Prop) (f : S -> A) (k : A -> ST S B) :
  (forall s, I s -> hoare (fun s' => s' = s) (k (f s)) (fun _ => I)) -> preserves I (bind (gets f) k).
Proof. intros Hk s Hs. exact (Hk s Hs s eq_refl). Qed.

Lemma dead_client_ok k client : k < UINT32_MOD -> preserves (registry_ok k) (DeRegisterClient client true : ST Recorder Z).
Proof.
  intros Hk. unfold DeRegisterClient, IsClientValid. apply preserves_bind; [apply preserves_gets|]. intros valid.
  destruct valid; cbn [negb]; [|apply preserves_ret].
  apply preserves_bind; [apply preserves_modify; by intros s []|]. intros _.
  apply preserves_bind; [apply same_ok; intros; apply ForceReturnBuffers_same|]. intros r.
  apply preserves_bind; [apply same_ok; intros s0 _; keep|]. intros _.
  apply (preserves_bind_gets (registry_ok k)). intros s Hs.
  apply (hoare_bind _ _ _ _ (fun _ => registry_ok k)).
  { intros s1 [= ->]. apply (end_sessions_ok k client); [done|apply kv_ordered_NoDup, Hs|]. split; [done|].
    intros n Hn. unfold has_session. by apply kv_mem_keys. }
  intros _. apply (hoare_preserves (registry_ok k)).
  apply preserves_bind.
  { apply preserves_modify. intros s1 Hs1. destruct (remove_client_ok k client s1 Hs1). by split. }
  intros _. apply preserves_bind; [apply preserves_gets|]. intros s1.
  apply preserves_bind.
  { apply preserves_for_each. intros cam _. apply same_ok. intros s2 _. apply preserves_bind; [apply StopCamera_nothing_same|].
    intros. apply preserves_ret. }
  intros _. apply preserves_bind; [|intros; apply preserves_ret]. apply preserves_modify. intros s2 []. by split.
Qed.

(** ** Every operation *)

Definition creates (op : RecorderOp (M := M)) : Z := match op with OpCreateSession _ => 1 | _ => 0 end.

(** Sessions are started and stopped by the client that has them. *)
Definition own_session (op : RecorderOp (M := M)) (s : Recorder) : bool :=
  match op with
  | OpStartSession c n | OpStopSession c n => kv_mem n (sessions_of c s)
  | _ => true
  end.

Definition plain_op (op : RecorderOp (M := M)) : bool :=
  match op with
  | OpRegister _ | OpCreateSession _ | OpDeleteSession _ _ => false
  | OpDeRegister _ force => negb force
  | _ => true
  end.

Lemma plain_op_same op s0 : plain_op op = true -> kv_ordered (client_session_map_ s0) -> inner_ordered s0 -> own_session op s0 = true ->
  (forall c n, has_session c n s0 -> kv_mem n (sessions_mutex_map_ s0) = true) ->
  preserves (same_sessions s0) (recorder_op op).
Proof.
  intros Hop Ho Hi Hown Hmu. assert (forall client n (f : TrackInfoMap -> TrackInfoMap), has_session client n s0 ->
    preserves (same_sessions s0) (set_tracks client n f : ST Recorder unit)) as Hset.
  { intros client n f Hn. apply set_tracks_same; [done|done|]. intros s Hs. by apply (same_inner s0 s). }
  destruct op; try discriminate Hop; simpl recorder_op;
    unfold first_of, no_status, CaptureImage, ConfigImageCapture, CancelCaptureImage, ReturnImageCaptureBuffer, SetCameraParam,
      GetCameraParam, GetDefaultCaptureParam, GetCameraCharacteristics, VideoTrackBufferCb, AudioTrackBufferCb,
      CameraSnapshotCb, CameraResultCb, CameraErrorCb, tell_clients, IsClientValid, expect, notify;
    try solve [repeat (keep; try apply on_own_camera_same)].
  - destruct force; [discriminate Hop|]. unfold DeRegisterClient, IsClientValid. cbn [negb]. keep.
  - apply StartCamera_same.
  - apply StartSession_same; [exact Hown|exact (Hmu _ _ Hown)].
  - apply StopSession_same; [exact Hown|exact (Hmu _ _ Hown)].
  - unfold CreateAudioTrack. apply checked_same; [|intros; keep]. intros Hn. keep.
  - unfold DeleteAudioTrack. apply checked_same; [|intros; keep]. intros Hn. keep.
  - unfold CreateVideoTrack. apply checked_same; [|intros; keep]. intros Hn. keep. apply add_video_track_same; auto. keep.
  - unfold CreateVideoTrack_extra. apply checked_same; [|intros; keep]. intros Hn. keep. apply add_video_track_same; auto. keep.
  - by apply DeleteVideoTrack_same.
  - unfold SetAudioTrackParam. apply checked_same; intros; keep.
  - unfold SetVideoTrackParam. apply checked_same; [|intros; keep]. intros Hn. unfold GetServiceTrackInfo. keep.
Qed.

Lemma RegisterClient_ok k client : preserves (registry_ok k) (RegisterClient client : ST Recorder Z).
Proof.
  intros s Hr. unfold RegisterClient, IsClientValid. rewrite bind_gets.
  destruct (kv_mem client (client_session_map_ s)) eqn:Ec; [exact Hr|]. unfold bind, modify, ret.
  apply (same_registry k s); [|exact Hr]. pose proof (same_touch_client client s s (same_sessions_refl s)) as Hs.
  unfold touch in Hs. rewrite Ec in Hs. destruct Hs. by split.
Qed.

Lemma op_registry k op : k + creates op < UINT32_MOD ->
  hoare (fun s => registry_ok k s /\ own_session op s = true) (recorder_op op : ST Recorder Z)
    (fun _ => registry_ok (k + creates op)).
Proof.
  intros Hk s [Hr Hown]. destruct (plain_op op) eqn:Ep.
  - pose proof (plain_op_same op s Ep (rg_ordered k s Hr) (rg_inner k s Hr) Hown (rg_mutex k s Hr) s (same_sessions_refl s)) as Hs.
    destruct (recorder_op op s) as [[r s']|]; [|done]. apply (registry_mono k); [destruct op; simpl; lia|].
    by apply (same_registry k s).
  - destruct op; try discriminate Ep; simpl in *; rewrite ?Z.add_0_r in *.
    + by apply RegisterClient_ok.
    + destruct force; [|discriminate Ep]. by apply dead_client_ok.
    + pose proof (CreateSession_ok k client Hk s Hr) as Hc. unfold first_of, bind.
      by destruct (CreateSession client s) as [[[] s']|].
    + by apply DeleteSession_ok.
Qed.

(** ** Runs *)

(** While a camera is being stopped no session is started or stopped. *)
Definition own_call (call : ServiceCall (M := M)) (s : Recorder) : bool :=
  match call with
  | Call op => own_session op s
  | CallStopCamera ws _ _ => forallb (fun w => forallb (fun op => match op with OpStartSession _ _ | OpStopSession _ _ => false
                                                              | _ => true end) (snd w)) ws
  end.

Fixpoint own_run (calls : list ServiceCall) (s : Recorder) : option Recorder :=
  match calls with
  | [] => Some s
  | call :: calls' =>
      if own_call call s then match service_call call s with Some (_, s') => own_run calls' s' | None => None end else None
  end.

Definition sum (l : list Z) : Z := fold_right Z.add 0 l.

Definition creations (calls : list (ServiceCall (M := M))) : Z :=
  sum (map (fun call => match call with
    | Call op => creates op
    | CallStopCamera ws _ _ => sum (map (fun w => sum (map creates (snd w))) ws)
    end) calls).
Lemma sum_nonneg (l : list Z) : Forall (fun z => 0 <= z) l -> 0 <= sum l.
Proof. induction 1; simpl; lia. Qed.

Lemma creates_nonneg op : 0 <= creates op.
Proof. destruct op; simpl; lia. Qed.

Lemma creates_all_nonneg (ops : list (RecorderOp (M := M))) : 0 <= sum (map creates ops).
Proof. apply sum_nonneg, Forall_map, Forall_true. intros op. apply creates_nonneg. Qed.

Lemma overlapping_ok ops : forall k, k + sum (map creates ops) < UINT32_MOD ->
  forallb (fun op => match op with OpStartSession _ _ | OpStopSession _ _ => false | _ => true end) ops = true ->
  hoare (registry_ok k) (overlapping ops : ST Recorder unit) (fun _ => registry_ok (k + sum (map creates ops))).
Proof.
  induction ops as [|op ops IH]; intros k Hk Hq; simpl in *.
  - rewrite Z.add_0_r. apply hoare_preserves, preserves_ret.
  - apply andb_true_iff in Hq as [Hq1 Hq]. pose proof (creates_nonneg op). pose proof (creates_all_nonneg ops).
    apply (hoare_bind _ _ _ _ (fun _ => registry_ok k)).
    { apply hoare_preserves. destruct (may_overlap op); simpl; [apply preserves_ret|apply preserves_undefined]. }
    intros []. apply (hoare_bind _ _ _ _ (fun _ => registry_ok (k + creates op))).
    { intros s Hs. apply (op_registry k op ltac:(lia)). split; [done|]. by destruct op. }
    intros r. rewrite Z.add_assoc. apply IH; [lia|done].
Qed.

Lemma wait_ok ws cam : forall k, k + sum (map (fun w => sum (map creates (snd w))) ws) < UINT32_MOD ->
  own_call (CallStopCamera ws 0 0) RecorderImpl_new = true ->
  hoare (registry_ok k) (wait_slaves (map (fun w => (fst w, overlapping (snd w))) ws) cam : ST Recorder bool)
    (fun _ => registry_ok (k + sum (map (fun w => sum (map creates (snd w))) ws))).
Proof.
  induction ws as [|[b ops] ws IH]; intros k Hk Hq s Hs; simpl in *.
  - rewrite Z.add_0_r. by destruct (slaves_closed cam s).
  - apply andb_true_iff in Hq as [Hq1 Hq]. pose proof (creates_all_nonneg ops).
    assert (0 <= sum (map (fun w : bool * list (RecorderOp (M := M)) => sum (map creates (snd w))) ws)) as Hpos
      by (apply sum_nonneg, Forall_map, Forall_true; intros w; apply creates_all_nonneg).
    destruct (slaves_closed cam s); [by apply (registry_mono k); [lia|]|].
    pose proof (overlapping_ok ops k ltac:(lia) Hq1 s Hs) as Hc1. destruct (overlapping ops s) as [[[] s1]|]; [|done].
    destruct b; [|by apply (registry_mono (k + sum (map creates ops))); [lia|]].
    pose proof (IH (k + sum (map creates ops)) ltac:(lia) Hq s1 Hc1) as Hc2. rewrite Z.add_assoc. exact Hc2.
Qed.

Lemma call_registry k call : k + creations [call] < UINT32_MOD ->
  hoare (fun s => registry_ok k s /\ own_call call s = true) (service_call call : ST Recorder Z)
    (fun _ => registry_ok (k + creations [call])).
Proof.
  unfold creations. simpl. rewrite Z.add_0_r. destruct call as [op|ws client cam]; intros Hk.
  - apply op_registry. exact Hk.
  - intros s [Hr Hown]. set (k' := k + _) in *.
    assert (0 <= sum (map (fun w : bool * list (RecorderOp (M := M)) => sum (map creates (snd w))) ws)) as Hpos
      by (apply sum_nonneg, Forall_map, Forall_true; intros w; apply creates_all_nonneg).
    simpl. set (ws' := map _ ws). unfold StopCamera, IsClientValid, IsCameraOwned. rewrite !bind_gets.
    assert (registry_ok k' s) as Hr' by (apply (registry_mono k); [unfold k'; lia|done]).
    destruct (kv_mem client (client_session_map_ s)); [|exact Hr']. cbn [negb]. rewrite bind_gets.
    destruct (owned_by_other _ _ _).
    { apply (same_ok k' (do* set_cameras client (kv_remove cam) in ret NO_ERROR)); [|exact Hr']. intros s0 _. keep. }
    refine (hoare_bind (registry_ok k) _ _ (fun _ => registry_ok k') (fun _ => registry_ok k) _ _ s Hr).
    { apply hoare_preserves, same_ok. intros s0 _. unfold IsCameraValid. keep. }
    intros mine. assert (forall m : ST Recorder Z, preserves (registry_ok k') m -> hoare (registry_ok k) m (fun _ => registry_ok k')) as Hmono.
    { intros m Hm s1 Hs1. apply Hm. apply (registry_mono k); [unfold k'; lia|done]. }
    destruct mine; cbn [negb]; [|apply Hmono, preserves_ret].
    intros s1 Hs1. rewrite bind_gets. unfold id. destruct (camera_source_ s1) as [src|]; [|done].
    refine (hoare_bind (registry_ok k) _ _ (fun _ => registry_ok k') (fun _ => registry_ok k) _ _ s1 Hs1).
    { apply hoare_preserves, same_ok. intros s0 _. keep. }
    intros []. apply (hoare_bind _ _ _ _ (fun _ => registry_ok k')); [by apply wait_ok|].
    intros closed. apply hoare_preserves, same_ok. intros s0 _. keep.
Qed.

Lemma run_registry calls : forall k s s', k + creations calls < UINT32_MOD -> registry_ok k s -> own_run calls s = Some s' ->
  registry_ok (k + creations calls) s'.
Proof.
  induction calls as [|call calls IH]; intros k s s' Hk Hr Hs; simpl in Hs.
  - injection Hs as <-. unfold creations. simpl. by rewrite Z.add_0_r.
  - destruct (own_call call s) eqn:Eo; [|done]. assert (creations (call :: calls) = creations [call] + creations calls) as Hc
      by (unfold creations; simpl; lia). rewrite Hc in *.
    assert (0 <= creations calls) as Hpos.
    { unfold creations. apply sum_nonneg, Forall_map, Forall_true. intros [op|ws c cam]; [apply creates_nonneg|].
      apply sum_nonneg, Forall_map, Forall_true. intros w. apply creates_all_nonneg. }
    pose proof (call_registry k call ltac:(lia) s (conj Hr Eo)) as H1. destruct (service_call call s) as [[r s1]|]; [|done].
    rewrite Z.add_assoc. apply (IH _ s1); [lia|done|done].
Qed.

Lemma started_registry : registry_ok 0 recorder_started.
Proof. by split. Qed.

(** C9. Each session has one client, a mutex and a state. After any calls in
    which clients start and stop only sessions of their own, and none while a
    StopCamera waits, removals of dead clients, resets of the counter of
    sessions and waits included, and fewer than 2^32 sessions created: no two
    clients have sessions with the same number, and every session can be
    started, stopped, paused and resumed without undefined behaviour of the
    registry. *)
Theorem sessions_have_one_client (calls : list ServiceCall) (s : Recorder) :
  creations calls < UINT32_MOD -> own_run calls recorder_started = Some s ->
  (forall c1 c2 n, has_session c1 n s -> has_session c2 n s -> c1 = c2) /\
  (forall c n, has_session c n s -> exists state, session_live c n state s).
Proof.
  intros Hk Hr. pose proof (run_registry calls 0 _ _ Hk started_registry Hr) as [R1 R2 R3 R4 R5 R6 R7 R8 R9 R10].
  split; [exact R7|]. intros c n Hn. destruct (R10 c n Hn) as [state Hst]. exists state. split; try done.
  - unfold has_session, sessions_of, at_key in Hn. by destruct (kv_lookup c (client_session_map_ s)).
  - pose proof (R9 c n Hn) as Hm. unfold kv_mem in Hm. destruct (kv_lookup n (sessions_mutex_map_ s)) as [v|] eqn:El; [|done].
    by rewrite (R8 n v El).
Qed.

End Registry.

(** ** Witnesses *)

Definition two_sessions : list (ServiceCall (M := Z)) :=
  [Call (OpRegister 1); Call (OpRegister 2); Call (OpCreateSession 1); Call (OpCreateSession 2); Call (OpStartSession 2 2);
   Call (OpDeleteSession 1 1); Call (OpDeRegister 2 true)].

Lemma sessions_have_one_client_witness : exists s : RecorderImpl (M := Z) (C := SimpleCamera) (E := SimpleEncoder),
  own_run two_sessions recorder_started = Some s /\ (forall c1 c2 n, has_session c1 n s -> has_session c2 n s -> c1 = c2).
Proof.
  destruct (own_run (C := SimpleCamera) (E := SimpleEncoder) two_sessions recorder_started) as [s|] eqn:Es.
  - exists s. split; [reflexivity|]. apply (sessions_have_one_client two_sessions s); [vm_compute; reflexivity|exact Es].
  - vm_compute in Es. discriminate Es.
Defined.
