(* ===== verification/RecorderService.v ===== *)
(** * The service

    Models [RecorderService] of recorder/src/service/qmmf_recorder_service.h
    and recorder/src/service/qmmf_recorder_service.cc over [RecorderImpl], and
    [RemoteCallBack] of recorder/src/service/qmmf_remote_cb.cc: the table of
    the connected clients, the checks of each method, the end of a client that
    disconnects or dies.  It is an instance of [IRecorderService].

    [RecorderImpl] calls a client back through the table; a client that is not
    in it is a failed assertion.  A method runs as one step: that another
    thread destroys the recorder between the check and the call is not
    modelled. *)

From S2P Require Import Prelude KeyedVector Floats ExtraParam Track RecorderTypes Recorder Parcel Binder.

(** The client that a callback is for. *)
Definition notified_client {M} (n : Notified M) : Z :=
  match n with
  | CameraOpened c _ | CameraClosing c _ | CameraClosed c _ | CameraError c _ | DeletedVideoTrack c _
  | VideoTrackData c _ _ _ | AudioTrackData c _ _ _ | SnapshotData c _ _ _ | CameraResult c _ _ => c
  end.

(** [CodecParamType] of a parameter. *)
Definition codec_type (p : CodecParam) : Z :=
  match p with kFrameRateType _ => 1 | kEnableFrameRepeat _ => 10 | OtherParam type _ => type end.

(** The track ids of the clients have 16 bits. *)
Definition wide_track_id (track : Z) : bool := 0 <? Z.land track 0xffff0000.

Section Service.
Context {M C E : Type} `{CameraSourceOps M C} `{EncoderCoreOps E} {B T : Type}.

(** What the vendor tags of the process are, and what other threads do while
    [StopCamera] waits. *)
Context (global_tags : option T) (meanwhile : list (bool * list (RecorderOp (M := M)))).

Abbreviation Recorder := (RecorderImpl (M := M) (C := C) (E := E)).

(** Of a death notifier only its link counts; a client's callback is known by
    its binder. *)
Record RecorderService := mkService {
  recorder_ : option Recorder;
  death_notifier_list_ : kv unit;
  remote_cb_list_ : kv B;
  unique_client_id_ : Z;
  linked_to_death : list Z
}.

#[export] Instance settable_RecorderService : Settable RecorderService :=
  {| eta_expand := fun s => mkService (recorder_ s) (death_notifier_list_ s) (remote_cb_list_ s) (unique_client_id_ s)
       (linked_to_death s) |}.

Definition RecorderService_new : RecorderService := mkService None [] [] 0 [].

(** An operation of the recorder: the clients that it calls back are in the
    table. *)
Definition on_recorder {A} (m : ST Recorder A) : ST RecorderService A := fun s =>
  match recorder_ s with
  | None => None
  | Some r =>
      match m r with
      | None => None
      | Some (a, r') =>
          if forallb (fun n => kv_mem (notified_client n) (remote_cb_list_ s)) (drop (length (notified r)) (notified r'))
          then Some (a, s <| recorder_ := Some r' |>) else None
      end
  end.

Definition IsRecorderInitialized : ST RecorderService bool :=
  gets (fun s => match recorder_ s with Some _ => true | None => false end).

(** The check that the methods begin with. *)
Definition initialized {A} (otherwise : A) (m : ST RecorderService A) : ST RecorderService A :=
  let* ok := IsRecorderInitialized in if ok then m else ret otherwise.

(** ** Clients *)

(** [CreateRecorder] and [Init]. *)
Definition create_recorder : ST RecorderService Z := fun s =>
  match recorder_ s with
  | Some _ => Some (NO_ERROR, s)
  | None =>
      match Init RecorderImpl_new with
      | None => None
      | Some (r, rec) => Some (r, s <| recorder_ := if r =? NO_ERROR then Some rec else None |>)
      end
  end.

Definition Service_Connect (service_cb : B) : ST RecorderService (Z * option Z) :=
  let* r := create_recorder in
  if negb (r =? NO_ERROR) then ret (r, None)
  else
    do* modify (fun s => s <| unique_client_id_ := u32 (unique_client_id_ s + 1) |>) in
    let* client := gets unique_client_id_ in
    do* modify (fun s => s <| linked_to_death := client :: linked_to_death s |>
                           <| remote_cb_list_ := emplace client service_cb (remote_cb_list_ s) |>
                           <| death_notifier_list_ := emplace client tt (death_notifier_list_ s) |>) in
    do* on_recorder (RegisterClient client) in
    ret (NO_ERROR, Some client).

(** [Disconnect], and [DisconnectInternal] of a dead client with [force]. *)
Definition disconnect (force : bool) (client : Z) : ST RecorderService Z :=
  initialized NO_INIT (
    let* s := gets id in
    if negb (kv_mem client (death_notifier_list_ s)) then ret BAD_VALUE
    else if negb (kv_mem client (remote_cb_list_ s)) then ret BAD_VALUE
    else
      do* on_recorder (DeRegisterClient client force) in
      do* modify (fun s => s <| linked_to_death := List.filter (fun c => negb (c =? client)) (linked_to_death s) |>
                             <| death_notifier_list_ := kv_remove client (death_notifier_list_ s) |>
                             <| remote_cb_list_ := kv_remove client (remote_cb_list_ s) |>) in
      let* s := gets id in
      match death_notifier_list_ s, remote_cb_list_ s with
      | [], [] =>
          do* on_recorder DeInit in
          do* modify (fun s => s <| recorder_ := None |> <| unique_client_id_ := 0 |>) in
          ret NO_ERROR
      | _, _ => ret NO_ERROR
      end).

Definition Service_Disconnect (client : Z) : ST RecorderService Z := disconnect false client.

Definition DisconnectInternal (client : Z) : ST RecorderService Z := disconnect true client.

Definition ClientDeathHandler (client : Z) : ST RecorderService unit := let* r := DisconnectInternal client in ret tt.

(** ** The other methods *)

(** A status other than [NO_ERROR] is handed on. *)
Definition handed_on (m : ST RecorderService Z) : ST RecorderService Z :=
  let* r := m in if negb (r =? NO_ERROR) then ret r else ret NO_ERROR.

Definition Service_StartCamera (client camera_id : Z) (frame_rate : float32) (extra : ExtraParam) (enable_result_cb : bool) :
  ST RecorderService Z :=
  initialized BAD_VALUE (handed_on (on_recorder (StartCamera client camera_id frame_rate extra enable_result_cb))).

Definition Service_StopCamera (client camera_id : Z) : ST RecorderService Z :=
  initialized NO_INIT (handed_on (on_recorder (service_call (CallStopCamera meanwhile client camera_id)))).

Definition Service_CreateSession (client : Z) : ST RecorderService (Z * option Z) :=
  initialized (NO_INIT, None) (
    let* x := on_recorder (CreateSession client) in
    if negb (fst x =? NO_ERROR) then ret (fst x, None) else ret (NO_ERROR, Some (snd x))).

Definition Service_DeleteSession (client session : Z) : ST RecorderService Z :=
  initialized NO_INIT (handed_on (on_recorder (DeleteSession client session))).

Definition Service_StartSession (client session : Z) : ST RecorderService Z :=
  initialized NO_INIT (handed_on (on_recorder (StartSession client session))).

(** [RecorderImpl] does not look at [do_flush]. *)
Definition Service_StopSession (client session : Z) (do_flush : bool) : ST RecorderService Z :=
  initialized NO_INIT (handed_on (on_recorder (StopSession client session false))).

Definition Service_PauseSession (client session : Z) : ST RecorderService Z :=
  initialized NO_INIT (handed_on (on_recorder (PauseSession client session))).

Definition Service_ResumeSession (client session : Z) : ST RecorderService Z :=
  initialized NO_INIT (handed_on (on_recorder (ResumeSession client session))).

Definition Service_CreateAudioTrack (client session track : Z) (param : AudioTrackParam) : ST RecorderService Z :=
  initialized NO_INIT (
    if wide_track_id track then ret BAD_VALUE
    else handed_on (on_recorder (CreateAudioTrack client session track (audio_create_param param)))).

Definition Service_CreateVideoTrack (client session track : Z) (param : VideoTrackCreateParam) : ST RecorderService Z :=
  initialized NO_INIT (
    if wide_track_id track then ret BAD_VALUE
    else handed_on (on_recorder (CreateVideoTrack client session track param))).

Definition Service_CreateVideoTrackExtra (client session track : Z) (param : VideoTrackCreateParam) (extra : ExtraParam) :
  ST RecorderService Z :=
  initialized NO_INIT (
    if wide_track_id track then ret BAD_VALUE
    else handed_on (on_recorder (CreateVideoTrack_extra client session track param extra))).

Definition Service_DeleteAudioTrack (client session track : Z) : ST RecorderService Z :=
  initialized NO_INIT (handed_on (on_recorder (DeleteAudioTrack client session track))).

Definition Service_DeleteVideoTrack (client session track : Z) : ST RecorderService Z :=
  initialized NO_INIT (handed_on (on_recorder (DeleteVideoTrack client session track))).

(** All failures are the same here. *)
Definition Service_ReturnTrackBuffer (client session track : Z) (buffers : list BnBuffer) : ST RecorderService Z :=
  initialized NO_INIT (
    let* r := on_recorder (ReturnTrackBuffer client session track buffers) in
    if negb (r =? NO_ERROR) then ret BAD_VALUE else ret r).

Definition Service_SetAudioTrackParam (client session track type : Z) (param : Object) : ST RecorderService Z :=
  initialized NO_INIT (handed_on (on_recorder (SetAudioTrackParam client session track))).

(** The memory behind the pointer is taken for what the type says; memory that
    holds something else is undefined. *)
Definition Service_SetVideoTrackParam (client session track type : Z) (param : Object) : ST RecorderService Z :=
  initialized NO_INIT (
    match param with
    | OfCodecParam p =>
        if codec_type p =? type then handed_on (on_recorder (SetVideoTrackParam client session track p)) else undefined
    | _ => undefined
    end).

Definition Service_CaptureImage (client camera_id num_images : Z) (meta : list M) : ST RecorderService Z :=
  initialized NO_INIT (handed_on (on_recorder (CaptureImage client camera_id num_images meta))).

Definition Service_ConfigImageCapture (client camera_id : Z) (param : ImageParam) (config : ExtraParam) : ST RecorderService Z :=
  initialized NO_INIT (handed_on (on_recorder (ConfigImageCapture client camera_id param config))).

Definition Service_CancelCaptureImage (client camera_id : Z) : ST RecorderService Z :=
  initialized NO_INIT (handed_on (on_recorder (CancelCaptureImage client camera_id))).

Definition Service_ReturnImageCaptureBuffer (client camera_id buffer : Z) : ST RecorderService Z :=
  initialized NO_INIT (handed_on (on_recorder (ReturnImageCaptureBuffer client camera_id buffer))).

Definition Service_SetCameraParam (client camera_id : Z) (meta : M) : ST RecorderService Z :=
  initialized NO_INIT (handed_on (on_recorder (SetCameraParam client camera_id meta))).

(** A getter: the metadata are what the recorder left in them. *)
Definition got (m : ST RecorderService (Z * M)) : ST RecorderService (Z * M) :=
  let* x := m in if negb (fst x =? NO_ERROR) then ret x else ret (NO_ERROR, snd x).

Definition Service_GetCameraParam (client camera_id : Z) (meta : M) : ST RecorderService (Z * M) :=
  initialized (NO_INIT, meta) (got (on_recorder (GetCameraParam client camera_id meta))).

Definition Service_GetDefaultCaptureParam (client camera_id : Z) (meta : M) : ST RecorderService (Z * M) :=
  initialized (NO_INIT, meta) (got (on_recorder (GetDefaultCaptureParam client camera_id meta))).

Definition Service_GetCameraCharacteristics (client camera_id : Z) (meta : M) : ST RecorderService (Z * M) :=
  initialized (NO_INIT, meta) (got (on_recorder (GetCameraCharacteristics client camera_id meta))).

Definition Service_GetVendorTagDescriptor : ST RecorderService (Z * option T) :=
  ret (match global_tags with None => BAD_VALUE | Some _ => NO_ERROR end, global_tags).

Definition recorder_service : IRecorderService M B T RecorderService := {|
  rs_Connect := Service_Connect;
  rs_Disconnect := Service_Disconnect;
  rs_StartCamera := Service_StartCamera;
  rs_StopCamera := Service_StopCamera;
  rs_CreateSession := Service_CreateSession;
  rs_DeleteSession := Service_DeleteSession;
  rs_StartSession := Service_StartSession;
  rs_StopSession := Service_StopSession;
  rs_PauseSession := Service_PauseSession;
  rs_ResumeSession := Service_ResumeSession;
  rs_CreateAudioTrack := Service_CreateAudioTrack;
  rs_CreateVideoTrack := Service_CreateVideoTrack;
  rs_CreateVideoTrackExtra := Service_CreateVideoTrackExtra;
  rs_DeleteAudioTrack := Service_DeleteAudioTrack;
  rs_DeleteVideoTrack := Service_DeleteVideoTrack;
  rs_ReturnTrackBuffer := Service_ReturnTrackBuffer;
  rs_SetAudioTrackParam := Service_SetAudioTrackParam;
  rs_SetVideoTrackParam := Service_SetVideoTrackParam;
  rs_CaptureImage := Service_CaptureImage;
  rs_ConfigImageCapture := Service_ConfigImageCapture;
  rs_CancelCaptureImage := Service_CancelCaptureImage;
  rs_ReturnImageCaptureBuffer := Service_ReturnImageCaptureBuffer;
  rs_SetCameraParam := Service_SetCameraParam;
  rs_GetCameraParam := Service_GetCameraParam;
  rs_GetDefaultCaptureParam := Service_GetDefaultCaptureParam;
  rs_GetCameraCharacteristics := Service_GetCameraCharacteristics;
  rs_GetVendorTagDescriptor := Service_GetVendorTagDescriptor
|}.
End Service.
