(* ===== verification/RecorderServiceFacts.v ===== *)
(** * Theorems about the service

    The clients that are connected and what the recorder keeps of them; that
    the service drives the recorder; what a client leaves behind. *)

From S2P Require Import Prelude KeyedVector Floats ExtraParam Track RecorderTypes Recorder SimpleSources RecorderCameras Parcel Binder BinderFacts RecorderService.
From Stdlib Require Import SpecFloat.

(** Maps with the same keys keep them the same. *)
Lemma kv_keys_remove_same {V W} k (m : kv V) : forall m' : kv W, kv_keys m = kv_keys m' ->
  kv_keys (kv_remove k m) = kv_keys (kv_remove k m').
Proof.
  induction m as [|[k1 v1] m IH]; intros [|[k2 v2] m'] Hk; try done. injection Hk as -> Hk. simpl.
  destruct (k =? k2); [done|]. simpl. by rewrite (IH m').
Qed.

Lemma kv_keys_insert_same {V W} k v w (m : kv V) : forall m' : kv W, kv_keys m = kv_keys m' ->
  kv_keys (kv_add k v m) = kv_keys (kv_add k w m').
Proof.
  induction m as [|[k1 v1] m IH]; intros [|[k2 v2] m'] Hk; try done. injection Hk as -> Hk. simpl.
  destruct (k <? k2); [simpl; by f_equal; f_equal|]. destruct (k =? k2); simpl; [by f_equal|]. f_equal. by apply IH.
Qed.

Lemma kv_mem_same {V W} k (m : kv V) (m' : kv W) : kv_keys m = kv_keys m' -> kv_mem k m = kv_mem k m'.
Proof.
  intros Hk. destruct (kv_mem k m) eqn:E; destruct (kv_mem k m') eqn:E'; try done.
  - apply kv_mem_keys in E. rewrite Hk in E. apply kv_mem_keys in E. congruence.
  - apply kv_mem_keys in E'. rewrite <- Hk in E'. apply kv_mem_keys in E'. congruence.
Qed.

Lemma kv_mem_remove {V} c k (m : kv V) : kv_ordered m -> kv_mem c (kv_remove k m) = negb (c =? k) && kv_mem c m.
Proof. intros Hm. unfold kv_mem. rewrite kv_lookup_remove by done. by destruct (c =? k). Qed.

Section Facts.
Context {M C E : Type} `{CameraSourceLaws M C} `{EncoderCoreOps E} {B T : Type} (global_tags : option T).

Abbreviation Service := (RecorderService (M := M) (C := C) (E := E) (B := B)).
Abbreviation Recorder := (RecorderImpl (M := M) (C := C) (E := E)).
Abbreviation calls_of := (list (ServiceCall (M := M))).

(** What happens to the service: a call of a client, with what other threads
    do while it waits; the death of a client; a call back of a thread of the
    cameras. *)
Inductive ServiceEvent :=
| Called (meanwhile : list (bool * list (RecorderOp (M := M)))) (rq : Request M B)
| Died (client : Z)
| CameraThread (op : RecorderOp (M := M)).

Definition service_event (e : ServiceEvent) : ST Service unit :=
  match e with
  | Called meanwhile rq => let* a := invoke (recorder_service global_tags meanwhile) rq in ret tt
  | Died client => ClientDeathHandler client
  | CameraThread op => let* ok := IsRecorderInitialized in if ok then let* r := on_recorder (recorder_op op) in ret tt else ret tt
  end.

Definition service_run (es : list ServiceEvent) : ST Service unit := for_each es service_event.

(** The recorder is in a state that calls take it to. *)
Definition driven (r : Recorder) : Prop := exists calls : calls_of, recorder_run calls recorder_started = Some r.

(** The recorder may also be there when its last client has just gone. *)
Record tables_ok (n : Z) (s : Service) : Prop := {
  to_keys : kv_keys (death_notifier_list_ s) = kv_keys (remote_cb_list_ s);
  to_ordered : kv_ordered (remote_cb_list_ s);
  to_ordered_death : kv_ordered (death_notifier_list_ s);
  to_ids : forall c, kv_mem c (remote_cb_list_ s) = true -> 0 < c <= unique_client_id_ s;
  to_count : 0 <= unique_client_id_ s <= n;
  to_links : forall c, c ∈ linked_to_death s <-> kv_mem c (remote_cb_list_ s) = true;
  to_driven : forall r, recorder_ s = Some r -> driven r
}.

(** A recorder exists just while there are clients, and the ids start again
    when there is none. *)
Definition recorder_iff_clients (s : Service) : Prop :=
  match recorder_ s with
  | None => remote_cb_list_ s = [] /\ unique_client_id_ s = 0
  | Some _ => remote_cb_list_ s <> []
  end.

Definition service_ok (n : Z) (s : Service) : Prop := tables_ok n s /\ recorder_iff_clients s.

Lemma new_service_ok : service_ok 0 RecorderService_new.
Proof. split; [|done]. split; simpl; try done. intros c. split; [by intros ?%elem_of_nil|done]. Qed.

(** ** Calls of the recorder *)

Lemma recorder_run_app (cs1 cs2 : calls_of) (r : Recorder) :
  recorder_run (cs1 ++ cs2) r = match recorder_run cs1 r with Some r' => recorder_run cs2 r' | None => None end.
Proof.
  revert r. induction cs1 as [|c cs1 IH]; intros r; simpl; [done|].
  destruct (service_call c r) as [[x r']|]; [apply IH|done].
Qed.

(** [m] changes the recorder as a call of it does. *)
Definition is_call {A} (m : ST Recorder A) : Prop := forall r a r', m r = Some (a, r') ->
  exists c : ServiceCall (M := M), exists x, service_call c r = Some (x, r').

Lemma op_is_call op : is_call (recorder_op (E := E) op).
Proof. intros r a r' Hm. exists (Call op), a. exact Hm. Qed.

Lemma first_is_call {A} op (m : ST Recorder (Z * A)) : recorder_op op = first_of m -> is_call m.
Proof.
  intros Ho r a r' Hm. exists (Call op), (fst a). cbn [service_call]. rewrite Ho. unfold first_of, bind. by rewrite Hm.
Qed.

Lemma stop_is_call ws c cam : is_call (service_call (E := E) (CallStopCamera ws c cam)).
Proof. intros r a r' Hm. by exists (CallStopCamera ws c cam), a. Qed.

Lemma driven_call {A} (m : ST Recorder A) r a r' : is_call m -> driven r -> m r = Some (a, r') -> driven r'.
Proof.
  intros Hm [cs Hcs] Hr. destruct (Hm r a r' Hr) as (c & x & Hc). exists (cs ++ [c]).
  rewrite recorder_run_app, Hcs. simpl. by rewrite Hc.
Qed.

Lemma on_recorder_ok {A} n (m : ST Recorder A) : is_call m -> preserves (service_ok n) (on_recorder (B := B) m).
Proof.
  intros Hm s [[K1 K2 K3 K4 K5 K6 K7] Hr]. unfold on_recorder. destruct (recorder_ s) as [r|] eqn:Er; [|done].
  destruct (m r) as [[a r']|] eqn:Em; [|done]. destruct (forallb _ _); [|done].
  split; [split|]; simpl; try done.
  - intros r0 [= <-]. eapply driven_call; [done| |done]. by apply K7.
  - unfold recorder_iff_clients in *. simpl. by rewrite Er in Hr.
Qed.

Lemma initialized_ok {A} n (d : A) m : preserves (service_ok n) m -> preserves (service_ok n) (initialized d m).
Proof. intros Hm. unfold initialized, IsRecorderInitialized. repeat preserve_step. done. Qed.

Lemma handed_on_ok n m : preserves (service_ok n) m -> preserves (service_ok n) (handed_on m).
Proof. intros Hm. unfold handed_on. repeat preserve_step. done. Qed.

Lemma got_ok n m : preserves (service_ok n) m -> preserves (service_ok n) (got m).
Proof. intros Hm. unfold got. repeat preserve_step. done. Qed.

(** ** Clients *)

Lemma RegisterClient_quiet c (r r' : Recorder) x : RegisterClient c r = Some (x, r') -> x = NO_ERROR /\ notified r' = notified r.
Proof.
  unfold RegisterClient, IsClientValid. rewrite bind_gets. destruct (kv_mem c (client_session_map_ r)); by intros [= <- <-].
Qed.

Lemma Connect_result b (s s' : Service) a : Service_Connect b s = Some (a, s') ->
  exists r' : Recorder, let c := u32 (unique_client_id_ s + 1) in
  recorder_op (OpRegister c) (default recorder_started (recorder_ s)) = Some (NO_ERROR, r') /\ a = (NO_ERROR, Some c) /\
  s' = mkService (Some r') (emplace c tt (death_notifier_list_ s)) (emplace c b (remote_cb_list_ s)) c (c :: linked_to_death s).
Proof.
  unfold Service_Connect. set (c := u32 (unique_client_id_ s + 1)). intros Hc.
  apply bind_some in Hc as (x & s1 & Hcr & Hc).
  assert (x = NO_ERROR /\ s1 = s <| recorder_ := Some (default recorder_started (recorder_ s)) |>) as [-> ->].
  { revert Hcr. unfold create_recorder. destruct (recorder_ s) as [r|] eqn:Er.
    - intros [= <- <-]. split; [done|]. destruct s. simpl in *. by subst.
    - cbn. by intros [= <- <-]. }
  cbn [negb] in Hc. change (NO_ERROR =? NO_ERROR) with true in Hc. cbn [negb] in Hc.
  rewrite (bind_eq (modify _) _ _ tt _ eq_refl), bind_gets, (bind_eq (modify _) _ _ tt _ eq_refl) in Hc.
  apply bind_some in Hc as (x & s2 & Hrg & Hc). injection Hc as <- <-. revert Hrg. unfold on_recorder. simpl. fold c.
  destruct (RegisterClient c (default recorder_started (recorder_ s))) as [[y r']|] eqn:Er; [|done].
  case_match; [|done]. intros [= -> <-]. destruct (RegisterClient_quiet _ _ _ _ Er) as [-> _].
  exists r'. done.
Qed.

Lemma kv_keys_emplace_same {V W} k (v : V) (w : W) (m : kv V) (m' : kv W) : kv_keys m = kv_keys m' ->
  kv_keys (emplace k v m) = kv_keys (emplace k w m').
Proof.
  intros Hk. unfold emplace. rewrite (kv_mem_same k m m' Hk). destruct (kv_mem k m'); [done|]. by apply kv_keys_insert_same.
Qed.

Lemma mem_emplace {V} c k (v : V) (m : kv V) : kv_mem c (emplace k v m) = (c =? k) || kv_mem c m.
Proof. unfold kv_mem. rewrite lookup_emplace. destruct (kv_lookup c m); [by rewrite orb_true_r|]. by destruct (c =? k). Qed.

Lemma Connect_ok n b (s s' : Service) a : service_ok n s -> n + 1 < UINT32_MOD -> Service_Connect b s = Some (a, s') ->
  service_ok (n + 1) s' /\ a = (NO_ERROR, Some (unique_client_id_ s')) /\
  kv_mem (unique_client_id_ s') (remote_cb_list_ s) = false /\
  forall c, kv_lookup c (remote_cb_list_ s') = if c =? unique_client_id_ s' then Some b else kv_lookup c (remote_cb_list_ s).
Proof.
  intros [[K1 K2 K3 K4 K5 K6 K7] Hr] Hn Hc. destruct (Connect_result b s s' a Hc) as (r' & Hop & -> & ->).
  rewrite u32_small in * by (unfold is_u32; lia). set (c := unique_client_id_ s + 1) in *.
  assert (kv_mem c (remote_cb_list_ s) = false) as Hnew.
  { destruct (kv_mem c (remote_cb_list_ s)) eqn:Em; [|done]. apply K4 in Em. lia. }
  split_and!; simpl; try done.
  - split; [split|]; simpl.
    + by apply kv_keys_emplace_same.
    + by apply emplace_ordered.
    + by apply emplace_ordered.
    + intros c'. rewrite mem_emplace. destruct (Z.eqb_spec c' c) as [->|]; [lia|]. intros Hm. apply K4 in Hm. lia.
    + lia.
    + intros c'. rewrite mem_emplace, elem_of_cons, K6. by destruct (Z.eqb_spec c' c); naive_solver.
    + intros r [= <-]. apply (driven_call (recorder_op (OpRegister c)) (default recorder_started (recorder_ s)) NO_ERROR);
        [apply op_is_call| |exact Hop].
      destruct (recorder_ s) as [r|] eqn:Er; [by apply K7|]. by exists [].
    + intros He. assert (kv_mem c (emplace c b (remote_cb_list_ s)) = true) as Hm by (by rewrite mem_emplace, Z.eqb_refl).
      unfold recorder_iff_clients in *. simpl in He. by rewrite He in Hm.
  - intros c'. rewrite lookup_emplace. unfold kv_mem in Hnew. destruct (Z.eqb_spec c' c) as [->|].
    + by destruct (kv_lookup c (remote_cb_list_ s)).
    + by destruct (kv_lookup c' (remote_cb_list_ s)).
Qed.

Lemma disconnect_ok n force c : preserves (service_ok n) (disconnect (M := M) (C := C) (E := E) (B := B) force c).
Proof.
  unfold disconnect. apply initialized_ok. intros s Hs. rewrite bind_gets. change (id s) with s.
  destruct (negb (kv_mem c (death_notifier_list_ s))); [exact Hs|]. destruct (negb (kv_mem c (remote_cb_list_ s))); [exact Hs|].
  pose proof (on_recorder_ok n (recorder_op (OpDeRegister c force)) (op_is_call _) s Hs) as H1s. unfold bind at 1.
  change (recorder_op (OpDeRegister c force)) with (DeRegisterClient (M := M) (C := C) (E := E) c force) in H1s.
  destruct (on_recorder (DeRegisterClient c force) s) as [[x s1]|] eqn:E1; [|done].
  destruct H1s as [[K1 K2 K3 K4 K5 K6 K7] Hr].
  rewrite (bind_eq (modify _) _ _ tt _ eq_refl). cbv beta.
  match goal with |- context [bind (gets id) _ ?x] => set (s2 := x) end. rewrite bind_gets. change (id s2) with s2.
  assert (tables_ok n s2) as Ht.
  { split; unfold s2; simpl; try done.
    - by apply kv_keys_remove_same.
    - by apply kv_remove_ordered.
    - by apply kv_remove_ordered.
    - intros c'. rewrite kv_mem_remove by done. intros [_ Hm]%andb_true_iff. by apply K4.
    - intros c'. rewrite kv_mem_remove by done. rewrite list_elem_of_In, filter_In, <- list_elem_of_In, K6.
      rewrite andb_true_iff. naive_solver. }
  assert (exists r, recorder_ s2 = Some r) as [r Er].
  { unfold s2. simpl. unfold on_recorder in E1. destruct (recorder_ s); [|done].
    destruct (DeRegisterClient c force r) as [[y r']|]; [|done]. destruct (forallb _ _); [|done].
    injection E1 as <- <-. by eexists. }
  assert (kv_keys (death_notifier_list_ s2) = kv_keys (remote_cb_list_ s2)) as Hk by apply Ht.
  destruct (death_notifier_list_ s2) as [|d ds] eqn:Ed; destruct (remote_cb_list_ s2) as [|q qs] eqn:Eq; try done.
  - unfold bind, on_recorder. rewrite Er. simpl. rewrite drop_all. simpl.
    destruct Ht as [T1 T2 T3 T4 T5 T6 T7]. split; [|done]. split; simpl; try done.
    + intros c0 Hm. change (kv_mem c0 (remote_cb_list_ s2) = true) in Hm. by rewrite Eq in Hm.
    + lia.
  - simpl. split; [done|]. unfold recorder_iff_clients. by rewrite Er, Eq.
Qed.

(** ** All that happens to the service *)

Lemma status_ok n (m : ST Service Z) : preserves (service_ok n) m -> preserves (service_ok n) (status (M := M) (T := T) m).
Proof. intros Hm. unfold status. repeat preserve_step. done. Qed.

Lemma plain_ok n d op : preserves (service_ok n) (initialized d (handed_on (on_recorder (B := B) (recorder_op (E := E) op)))).
Proof. apply initialized_ok, handed_on_ok, on_recorder_ok, op_is_call. Qed.

Lemma wide_ok n op t : preserves (service_ok n)
  (initialized NO_INIT (if wide_track_id t then ret BAD_VALUE else handed_on (on_recorder (B := B) (recorder_op (E := E) op)))).
Proof. apply initialized_ok. destruct (wide_track_id t); [apply preserves_ret|]. apply handed_on_ok, on_recorder_ok, op_is_call. Qed.

Lemma getter_ok n m0 op (m : ST Recorder (Z * M)) : recorder_op op = first_of m ->
  preserves (service_ok n) (status_meta (T := T) (initialized (NO_INIT, m0) (got (on_recorder (B := B) m)))).
Proof.
  intros Ho. unfold status_meta. apply preserves_bind; [|intros; apply preserves_ret].
  apply initialized_ok, got_ok, on_recorder_ok. by eapply first_is_call.
Qed.

Definition is_connect (e : ServiceEvent) : bool := match e with Called _ (RqConnect _) => true | _ => false end.

Lemma invoke_ok n ws rq : is_connect (Called ws rq) = false ->
  preserves (service_ok n) (invoke (recorder_service (C := C) (E := E) (B := B) global_tags ws) rq).
Proof.
  intros Hc. destruct rq as [b|c|c cam fps x e|c cam|c|c k|c k|c k f|c k|c k|c k t p|c k t p|c k t p x|c k t|c k t|c k t bs
    |c k t ty p|c k t ty p|c cam k ms|c cam p x|c cam|c cam b|c cam m|c cam m|c cam m|c cam m|]; try done; cbn [invoke].
  all: try apply status_ok.
  - apply disconnect_ok.
  - apply (plain_ok n _ (OpStartCamera c cam fps x e)).
  - apply initialized_ok, handed_on_ok, on_recorder_ok, stop_is_call.
  - unfold status_id. apply preserves_bind; [|intros; apply preserves_ret]. apply initialized_ok.
    apply preserves_bind; [apply on_recorder_ok, (first_is_call (OpCreateSession c)); done|].
    intros [r i]. repeat preserve_step.
  - apply (plain_ok n _ (OpDeleteSession c k)).
  - apply (plain_ok n _ (OpStartSession c k)).
  - apply (plain_ok n _ (OpStopSession c k)).
  - apply (plain_ok n _ (OpPauseSession c k)).
  - apply (plain_ok n _ (OpResumeSession c k)).
  - apply (wide_ok n (OpCreateAudioTrack c k t (audio_create_param p))).
  - apply (wide_ok n (OpCreateVideoTrack c k t p)).
  - apply (wide_ok n (OpCreateVideoTrackExtra c k t p x)).
  - apply (plain_ok n _ (OpDeleteAudioTrack c k t)).
  - apply (plain_ok n _ (OpDeleteVideoTrack c k t)).
  - apply initialized_ok, preserves_bind; [apply on_recorder_ok, (op_is_call (OpReturnTrackBuffer c k t bs))|].
    intros r. repeat preserve_step.
  - apply (plain_ok n _ (OpSetAudioTrackParam c k t)).
  - apply initialized_ok. destruct p; repeat preserve_step. apply handed_on_ok, on_recorder_ok, (op_is_call (OpSetVideoTrackParam c k t _)).
  - apply (plain_ok n _ (OpCaptureImage c cam k ms)).
  - apply (plain_ok n _ (OpConfigImageCapture c cam p x)).
  - apply (plain_ok n _ (OpCancelCaptureImage c cam)).
  - apply (plain_ok n _ (OpReturnImageCaptureBuffer c cam b)).
  - apply (plain_ok n _ (OpSetCameraParam c cam m)).
  - by apply (getter_ok n _ (OpGetCameraParam c cam m)).
  - by apply (getter_ok n _ (OpGetDefaultCaptureParam c cam m)).
  - by apply (getter_ok n _ (OpGetCameraCharacteristics c cam m)).
  - apply preserves_bind; [apply preserves_ret|intros; apply preserves_ret].
Qed.

Lemma service_ok_mono n n' s : n <= n' -> service_ok n s -> service_ok n' s.
Proof. intros Hn [[K1 K2 K3 K4 K5 K6 K7] Hr]. split; [|done]. split; try done. lia. Qed.

Lemma event_ok n e s s' x : service_ok n s -> n + 1 < UINT32_MOD -> service_event e s = Some (x, s') -> service_ok (n + 1) s'.
Proof.
  intros Hs Hn He. destruct e as [ws rq|c|op].
  - apply bind_some in He as (a & s1 & Ha & [= _ <-]). destruct (is_connect (Called ws rq)) eqn:Ec.
    + destruct rq; try done. apply bind_some in Ha as (y & s2 & Hy & [= _ <-]).
      by apply (Connect_ok n _ s s2 y) in Hy as [Hy _].
    + pose proof (invoke_ok n ws rq Ec s Hs) as Hk. rewrite Ha in Hk. by apply (service_ok_mono n); [lia|].
  - apply bind_some in He as (a & s1 & Ha & [= _ <-]). pose proof (disconnect_ok n true c s Hs) as Hk.
    unfold DisconnectInternal in Ha. rewrite Ha in Hk. by apply (service_ok_mono n); [lia|].
  - assert (preserves (service_ok n) (service_event (CameraThread op))) as Hp.
    { cbn [service_event]. unfold IsRecorderInitialized. repeat preserve_step. apply on_recorder_ok, op_is_call. }
    specialize (Hp s Hs). rewrite He in Hp. by apply (service_ok_mono n); [lia|].
Qed.

Lemma service_run_ok es : forall n s s' x, service_ok n s -> n + Z.of_nat (length es) < UINT32_MOD -> service_run es s = Some (x, s') ->
  service_ok (n + Z.of_nat (length es)) s'.
Proof.
  induction es as [|e es IH]; intros n s s' x Hs Hn Hr; [injection Hr as _ <-; by rewrite Z.add_0_r|].
  apply bind_some in Hr as (y & s1 & He & Hr). cbn [length] in *. rewrite Nat2Z.inj_succ in *.
  replace (n + Z.succ (Z.of_nat (length es))) with (n + 1 + Z.of_nat (length es)) by lia.
  apply (IH (n + 1) s1 s' x); [|lia|exact Hr]. eapply event_ok; [exact Hs|lia|exact He].
Qed.

Lemma reached_ok es s : Z.of_nat (length es) < UINT32_MOD -> service_run es RecorderService_new = Some (tt, s) ->
  service_ok (Z.of_nat (length es)) s.
Proof. intros Hl Hr. exact (service_run_ok es 0 _ _ _ new_service_ok Hl Hr). Qed.

(** C12. Whatever clients call, die of or get called back for: the service has
    a recorder just while it has clients; the clients it calls back are those
    whose death it listens for; and the recorder is in a state that it comes
    to by calls of its own interface from its start, so that all that holds of
    the recorder holds in the service. *)
Theorem service_runs_recorder (es : list ServiceEvent) (s : Service) :
  Z.of_nat (length es) < UINT32_MOD -> service_run es RecorderService_new = Some (tt, s) ->
  (recorder_ s = None <-> remote_cb_list_ s = []) /\
  (forall c, c ∈ linked_to_death s <-> kv_mem c (remote_cb_list_ s) = true) /\
  kv_keys (death_notifier_list_ s) = kv_keys (remote_cb_list_ s) /\
  (forall r, recorder_ s = Some r -> exists calls : calls_of, recorder_run calls recorder_started = Some r).
Proof.
  intros Hl Hr. destruct (reached_ok es s Hl Hr) as [[K1 K2 K3 K4 K5 K6 K7] Hi]. split_and!; try done.
  unfold recorder_iff_clients in Hi. destruct (recorder_ s); split; try done. by intros _; apply Hi.
Qed.

(** [Connect] succeeds with an id that no connected client has, enters
    the client under it and leaves the others. *)
Theorem connect_gives_new_id (es : list ServiceEvent) (s s' : Service) (b : B) (a : Z * option Z) :
  Z.of_nat (length es) + 1 < UINT32_MOD -> service_run es RecorderService_new = Some (tt, s) ->
  Service_Connect b s = Some (a, s') ->
  exists c, a = (NO_ERROR, Some c) /\ 0 < c < UINT32_MOD /\ kv_mem c (remote_cb_list_ s) = false /\
    forall c', kv_lookup c' (remote_cb_list_ s') = if c' =? c then Some b else kv_lookup c' (remote_cb_list_ s).
Proof.
  intros Hl Hr Hc. destruct (Connect_ok _ b s s' a (reached_ok es s ltac:(lia) Hr) Hl Hc) as ([Ht _] & Ha & Hn & Hk).
  exists (unique_client_id_ s'). split_and!; try done.
  - apply (to_ids _ _ Ht). unfold kv_mem. by rewrite Hk, Z.eqb_refl.
  - pose proof (to_count _ _ Ht). lia.
Qed.

(** ** What a client leaves behind *)

(** A client that only disconnects keeps its cameras, and nobody is told. *)
Lemma DeRegister_keeps c cams (r : Recorder) : kv_lookup c (client_cameraid_map_ r) = Some cams -> cams <> [] ->
  exists x r', DeRegisterClient c false r = Some (x, r') /\ notified r' = notified r /\
    kv_lookup c (client_cameraid_map_ r') = Some cams.
Proof.
  intros Hc Hne. unfold DeRegisterClient, IsClientValid. rewrite bind_gets.
  destruct (kv_mem c (client_session_map_ r)); cbn [negb]; [|by eexists _, _].
  rewrite (bind_eq (modify _) _ _ tt _ eq_refl). eexists _, _. split; [done|]. split; [done|]. simpl.
  assert (touch [] c (client_cameraid_map_ r) = client_cameraid_map_ r) as -> by (unfold touch, kv_mem; by rewrite Hc).
  unfold at_key. rewrite Hc. simpl. by destruct cams.
Qed.

Lemma notified_all (l : list Z) (f : Z -> Notified M) (r r' : Recorder) x :
  for_each l (fun client => let* valid := IsClientValid client in do* expect valid in notify (f client)) r = Some (x, r') ->
  notified r' = notified r ++ map f l.
Proof.
  revert r. induction l as [|c l IH]; intros r Hr; [injection Hr as _ <-; by rewrite app_nil_r|].
  apply bind_some in Hr as (y & r1 & Hc & Hr). rewrite (IH r1 Hr). apply bind_some in Hc as (v & r2 & [= <- <-] & Hc).
  apply bind_some in Hc as (z & r3 & He & Hc). destruct (kv_mem c (client_session_map_ r)); [|done]. injection He as _ <-.
  injection Hc as _ <-. simpl. by rewrite <- app_assoc.
Qed.

Lemma camera_client c cams cam (r : Recorder) : kv_lookup c (client_cameraid_map_ r) = Some cams -> kv_mem cam cams = true ->
  c ∈ GetCameraClients cam r.
Proof.
  intros Hc Hm. unfold GetCameraClients. apply list_elem_of_In, in_map_iff. exists (c, cams). split; [done|].
  apply filter_In. split; [by apply list_elem_of_In, kv_lookup_in|done].
Qed.

(** A client in the maps of the recorder that is not connected cannot be
    called back. *)
Lemma result_for_stranger c cams cam m (s : Service) (r : Recorder) : recorder_ s = Some r ->
  kv_lookup c (client_cameraid_map_ r) = Some cams -> kv_mem cam cams = true -> kv_mem c (remote_cb_list_ s) = false ->
  service_event (CameraThread (OpResult cam m)) s = None.
Proof.
  intros Er Hc Hm Hs. cbn [service_event]. unfold IsRecorderInitialized. rewrite bind_gets, Er. unfold bind, on_recorder. rewrite Er.
  destruct (recorder_op (OpResult cam m) r) as [[a r']|] eqn:Eo; [|done].
  apply bind_some in Eo as (y & r1 & Eo & [= _ <-]). apply bind_some in Eo as (z & r2 & [= <- <-] & Eo).
  apply notified_all in Eo. rewrite Eo, drop_app_length. destruct (forallb _ _) eqn:Ef; [|done].
  rewrite forallb_forall in Ef. specialize (Ef (CameraResult c cam m)). simpl in Ef. rewrite Hs in Ef.
  enough (false = true) by done. apply Ef, (in_map (fun client => CameraResult client cam m)), list_elem_of_In. by eapply camera_client.
Qed.

Lemma either_way {V A} (l : kv V) (m : A) : match l with [] | _ => m end = m.
Proof. by destruct l. Qed.

(** C24. A client may disconnect while it has a camera. As long as another
    client is connected - the last one that goes takes the recorder with it -
    the service answers with success and forgets its callback, the recorder
    keeps it as a user of the camera, and the next result of the camera is
    called back through a table where it is not: an assertion fails. *)
Theorem disconnected_user_is_called_back (es : list ServiceEvent) (s : Service) (r : Recorder) (c d cam : Z) (cams : kv bool) :
  Z.of_nat (length es) < UINT32_MOD -> service_run es RecorderService_new = Some (tt, s) -> recorder_ s = Some r ->
  kv_lookup c (client_cameraid_map_ r) = Some cams -> kv_mem cam cams = true ->
  kv_mem c (remote_cb_list_ s) = true -> kv_mem d (remote_cb_list_ s) = true -> d <> c ->
  exists s', Service_Disconnect c s = Some (NO_ERROR, s') /\
    forall m, service_event (CameraThread (OpResult cam m)) s' = None.
Proof.
  intros Hl Hr Er Hc Hm Hin Hd Hne. destruct (reached_ok es s Hl Hr) as [[K1 K2 K3 K4 K5 K6 K7] _].
  destruct (DeRegister_keeps c cams r Hc) as (x & r' & Edr & Hnot & Hc'); [by intros ->|].
  set (s1 := s <| recorder_ := Some r' |> <| linked_to_death := List.filter (fun k => negb (k =? c)) (linked_to_death s) |>
    <| death_notifier_list_ := kv_remove c (death_notifier_list_ s) |> <| remote_cb_list_ := kv_remove c (remote_cb_list_ s) |>).
  assert (Service_Disconnect c s = Some (NO_ERROR, s1)) as Hdis.
  { unfold Service_Disconnect, disconnect, initialized, IsRecorderInitialized. rewrite bind_gets, Er. rewrite bind_gets.
    change (id s) with s. rewrite (kv_mem_same c _ _ K1), Hin. cbn [negb].
    rewrite (bind_eq (on_recorder _) _ s x (s <| recorder_ := Some r' |>)).
    2:{ unfold on_recorder. by rewrite Er, Edr, Hnot, drop_all. }
    rewrite (bind_eq (modify _) _ _ tt _ eq_refl), bind_gets.
    assert (kv_mem d (kv_remove c (remote_cb_list_ s)) = true) as Hd' by (rewrite kv_mem_remove, Hd by done; lia).
    simpl. destruct (kv_remove c (remote_cb_list_ s)) eqn:Eq; [done|].
    rewrite either_way. unfold ret, s1. by rewrite <- Eq. }
  exists s1. split; [done|]. intros m. apply (result_for_stranger c cams cam m s1 r'); [done|done|done|].
  unfold s1. simpl. rewrite kv_mem_remove by done. by rewrite Z.eqb_refl.
Qed.
End Facts.

(** ** Witnesses *)

Module ServiceDemo.

Abbreviation DemoService := (RecorderService (M := Z) (C := SimpleCamera) (E := SimpleEncoder) (B := Z)).

#[export] Instance demo_service : IRecorderService Z Z Z DemoService := recorder_service (Some 5) [].

(** Two clients; the first starts camera 0. *)
Definition two_connected : list (ServiceEvent (M := Z) (B := Z)) :=
  [Called [] (RqConnect 100); Called [] (RqConnect 200); Called [] (RqStartCamera 1 0 S754_nan ExtraParam_new false)].

Abbreviation ran es := (service_run (C := SimpleCamera) (E := SimpleEncoder) (Some 5) es RecorderService_new).

Definition connected : DemoService := match ran two_connected with Some (_, s) => s | None => RecorderService_new end.

Lemma two_connected_run : ran two_connected = Some (tt, connected).
Proof. vm_compute. reflexivity. Qed.

Lemma two_connected_few : Z.of_nat (length two_connected) + 1 < UINT32_MOD.
Proof. vm_compute. reflexivity. Qed.

Lemma two_connected_fit : Z.of_nat (length two_connected) < UINT32_MOD.
Proof. vm_compute. reflexivity. Qed.

Definition demo_recorder : RecorderImpl (M := Z) (C := SimpleCamera) (E := SimpleEncoder) :=
  default RecorderImpl_new (recorder_ connected).

Lemma connected_recorder : recorder_ connected = Some demo_recorder.
Proof. vm_compute. reflexivity. Qed.

Lemma connected_cameras : kv_lookup 1 (client_cameraid_map_ demo_recorder) = Some [(0, true)].
Proof. vm_compute. reflexivity. Qed.

Lemma first_there : kv_mem 1 (remote_cb_list_ connected) = true.
Proof. vm_compute. reflexivity. Qed.

Lemma second_there : kv_mem 2 (remote_cb_list_ connected) = true.
Proof. vm_compute. reflexivity. Qed.

Lemma demo_gives_tags : gives_tags (M := Z) (B := Z) (T := Z) (S := DemoService).
Proof. intros s r t s' [= <- <- <-] _. done. Qed.

Lemma service_runs_recorder_witness :
  exists calls : list (ServiceCall (M := Z)), recorder_run calls recorder_started = Some demo_recorder.
Proof.
  exact (proj2 (proj2 (proj2 (service_runs_recorder (Some 5) two_connected connected
    two_connected_fit two_connected_run))) demo_recorder connected_recorder).
Defined.

Definition connected3 : DemoService :=
  match Service_Connect 300 connected with Some (_, s) => s | None => RecorderService_new end.

Lemma third_connects : Service_Connect 300 connected = Some ((NO_ERROR, Some 3), connected3).
Proof. vm_compute. reflexivity. Qed.

Lemma connect_gives_new_id_witness : exists c, (NO_ERROR, Some 3) = (NO_ERROR, Some c) /\
  kv_mem c (remote_cb_list_ connected) = false.
Proof.
  destruct (connect_gives_new_id (Some 5) two_connected connected connected3 300 (NO_ERROR, Some 3) two_connected_few
    two_connected_run third_connects) as (c & Ha & _ & Hn & _).
  exists c. split; [exact Ha|exact Hn].
Defined.

Lemma disconnected_user_is_called_back_witness : exists s', Service_Disconnect 1 connected = Some (NO_ERROR, s') /\
  service_event (Some 5) (CameraThread (OpResult 0 7)) s' = None.
Proof.
  destruct (disconnected_user_is_called_back (Some 5) two_connected connected demo_recorder 1 2 0 [(0, true)]
    two_connected_fit two_connected_run connected_recorder connected_cameras
    eq_refl first_there second_there ltac:(lia)) as (s' & Hd & Hn).
  exists s'. split; [exact Hd|exact (Hn 7)].
Defined.

Lemma demo_request_ok : request_ok (M := Z) (B := Z) (T := Z) (P := ListParcel) (RqCreateSession 2).
Proof. simpl. unfold is_u32, UINT32_MOD. lia. Qed.

(** The second client starts a session from its process. *)
Lemma remote_call_is_local_witness :
  invoke (BpRecorderService (P := ListParcel) 77) (RqCreateSession 2) connected
  = (let* a := invoke demo_service (RqCreateSession 2) in ret (seen (M := Z) (B := Z) (T := Z) 77 (RqCreateSession 2) a)) connected.
Proof.
  exact (remote_call_is_local (P := ListParcel) 77 (RqCreateSession 2) connected demo_gives_tags demo_request_ok).
Defined.
End ServiceDemo.
