(* ===== verification/Callbacks.v ===== *)
(** * Calls of a client by the service

    [IRecorderServiceCallback] of
    recorder/src/client/qmmf_recorder_service_intf.h; its proxy
    [BpRecorderServiceCallback] in the service, which remembers the buffers of
    each track that the client has got a descriptor of, and
    [BnRecorderServiceCallback::onTransact] in the client, both of
    recorder/src/client/qmmf_recorder_client.cc.

    All these calls are one-way: the proxy puts a message into the queue of the
    client, from where it is taken later. *)

From S2P Require Import Prelude KeyedVector Floats ExtraParam Track RecorderTypes Recorder Parcel Binder.

(** [RECORDER_SERVICE_CB_CMDS]. *)
Inductive CallbackCmd :=
| RECORDER_NOTIFY_EVENT | RECORDER_NOTIFY_SESSION_EVENT | RECORDER_NOTIFY_SNAPSHOT_DATA | RECORDER_NOTIFY_VIDEO_TRACK_DATA
| RECORDER_NOTIFY_VIDEO_TRACK_EVENT | RECORDER_NOTIFY_AUDIO_TRACK_DATA | RECORDER_NOTIFY_AUDIO_TRACK_EVENT
| RECORDER_NOTIFY_CAMERA_RESULT.

Definition callback_cmds : list CallbackCmd :=
  [RECORDER_NOTIFY_EVENT; RECORDER_NOTIFY_SESSION_EVENT; RECORDER_NOTIFY_SNAPSHOT_DATA; RECORDER_NOTIFY_VIDEO_TRACK_DATA;
   RECORDER_NOTIFY_VIDEO_TRACK_EVENT; RECORDER_NOTIFY_AUDIO_TRACK_DATA; RECORDER_NOTIFY_AUDIO_TRACK_EVENT;
   RECORDER_NOTIFY_CAMERA_RESULT].

#[export] Instance CallbackCmd_eq : EqDecision CallbackCmd.
Proof. solve_decision. Defined.

Definition callback_code (c : CallbackCmd) : Z :=
  FIRST_CALL_TRANSACTION + Z.of_nat (default O (fst <$> list_find (c =.) callback_cmds)).

Definition callback_of_code (code : Z) : option CallbackCmd :=
  if code <? FIRST_CALL_TRANSACTION then None else nth_error callback_cmds (Z.to_nat (code - FIRST_CALL_TRANSACTION)).

Lemma callback_of_callback_code c : callback_of_code (callback_code c) = Some c.
Proof. by destruct c. Qed.

(** [EventType]. *)
Definition kServerDied : Z := 1.
Definition kCameraError : Z := 2.

Definition REMAP_ALL_BUFFERS : Z := 0x55555555.

(** The data of an event ask for all buffers to be mapped again.  Data of an
    error that are something else are undefined. *)
Definition remap_all (event_type : Z) (event_data : option Object) : option bool :=
  if event_type =? kCameraError then
    match event_data with
    | None => Some false
    | Some (OfErrorData _ code) => Some (code =? REMAP_ALL_BUFFERS)
    | Some _ => None
    end
  else Some false.

(** Of the methods, those that the proxy sends. *)
Class IRecorderServiceCallback (M S : Type) := {
  cb_NotifyRecorderEvent : Z -> option Object -> ST S unit;
  cb_NotifySnapshotData : Z -> Z -> BnBuffer -> MetaData -> ST S unit;
  cb_NotifyVideoTrackData : Z -> Z -> list BnBuffer -> list MetaData -> ST S unit;
  cb_NotifyAudioTrackData : Z -> Z -> list BnBuffer -> list MetaData -> ST S unit;
  cb_NotifyAudioTrackEvent : Z -> Z -> Z -> ST S unit;
  cb_NotifyCameraResult : Z -> M -> ST S unit
}.

(** [dup] of a descriptor of an open file in the process with state [S]. *)
Class Descriptors (S : Type) := { dup : Z -> ST S Z }.

(** A buffer of a video track on the way: the descriptors if they are sent. *)
Record VideoItem := mkVideoItem { item_files : option (Z * option Z); item_buffer : BnBuffer }.

Section Callbacks.
Context {M B T P : Type} `{ParcelOps M B T P}.

(** ** The proxy *)

(** [file_of] gives the open file behind a descriptor of the service. *)
Context (file_of : Z -> Z).

(** [track_buffers_map_] by client's track, and the messages that are on their
    way, oldest first. *)
Record CallbackProxy := mkProxy { sent_buffers : kv (kv unit); outbox : list (Z * P) }.

#[export] Instance settable_CallbackProxy : Settable CallbackProxy :=
  {| eta_expand := fun s => mkProxy (sent_buffers s) (outbox s) |}.

Definition CallbackProxy_new : CallbackProxy := mkProxy [] [].

Definition send (c : CallbackCmd) (w : ST P unit) : ST CallbackProxy unit :=
  match written (do* writeInterfaceToken IRecorderServiceCallback_descriptor in w) with
  | None => undefined
  | Some data => modify (fun s => s <| outbox := outbox s ++ [(callback_code c, data)] |>)
  end.

(** The entries of the map are erased by a loop over the map: with an entry
    the loop goes on from what it has erased. *)
Definition forget_all : ST CallbackProxy unit :=
  let* s := gets id in match sent_buffers s with [] => ret tt | _ => undefined end.

Definition Bp_NotifyRecorderEvent (event_type : Z) (event_data : option Object) : ST CallbackProxy unit :=
  match remap_all event_type event_data with
  | None => undefined
  | Some all =>
      do* (if all then forget_all else ret tt) in
      send RECORDER_NOTIFY_EVENT
        (do* writeInt32 event_type in
         match event_data with None => writeUint32 0 | Some o => writeSized o end)
  end.

Definition Bp_NotifySnapshotData (camera_id count : Z) (b : BnBuffer) (m : MetaData) : ST CallbackProxy unit :=
  send RECORDER_NOTIFY_SNAPSHOT_DATA
    (do* writeUint32 camera_id in
     do* writeUint32 count in
     do* writeFile (file_of (ion_fd b)) in
     do* writeFile (file_of (ion_meta_fd b)) in
     do* writeSized (OfBuffer b) in
     writeSized (OfMetaData m)).

(** A buffer that the client has not got yet is entered, and its descriptors
    are sent. *)
Definition pack_buffer (track : Z) (b : BnBuffer) : ST CallbackProxy VideoItem :=
  do* modify (fun s => s <| sent_buffers := touch [] track (sent_buffers s) |>) in
  let* s := gets id in
  if kv_mem (buffer_id b) (at_key [] track (sent_buffers s)) then ret (mkVideoItem None b)
  else
    do* modify (fun s => s <| sent_buffers := kv_add track (emplace (buffer_id b) tt (at_key [] track (sent_buffers s))) (sent_buffers s) |>) in
    ret (mkVideoItem (Some (file_of (ion_fd b), if 0 <? ion_meta_fd b then Some (file_of (ion_meta_fd b)) else None)) b).

Fixpoint pack_buffers (track : Z) (bs : list BnBuffer) : ST CallbackProxy (list VideoItem) :=
  match bs with
  | [] => ret []
  | b :: bs => let* i := pack_buffer track b in let* items := pack_buffers track bs in ret (i :: items)
  end.

Definition write_files (files : option (Z * option Z)) : ST P unit :=
  match files with
  | None => writeInt32 1
  | Some (f, meta) =>
      do* writeInt32 0 in
      do* writeFile f in
      do* writeUint32 (as_int (bool_decide (is_Some meta))) in
      match meta with Some g => writeFile g | None => ret tt end
  end.

Definition write_item (i : VideoItem) : ST P unit :=
  do* write_files (item_files i) in
  writeSized (OfBuffer (item_buffer i)).

Definition Bp_NotifyVideoTrackData (session track : Z) (bs : list BnBuffer) (ms : list MetaData) : ST CallbackProxy unit :=
  let* items := pack_buffers track bs in
  send RECORDER_NOTIFY_VIDEO_TRACK_DATA
    (do* writeUint32 session in
     do* writeUint32 track in
     do* writeUint32 (Z.of_nat (length bs)) in
     do* for_each items write_item in
     do* writeUint32 (Z.of_nat (length ms)) in
     for_each ms (fun m => writeSized (OfMetaData m))).

(** The meta data are not sent. *)
Definition Bp_NotifyAudioTrackData (session track : Z) (bs : list BnBuffer) (ms : list MetaData) : ST CallbackProxy unit :=
  send RECORDER_NOTIFY_AUDIO_TRACK_DATA
    (do* writeUint32 session in
     do* writeUint32 track in
     do* writeInt32 (Z.of_nat (length bs)) in
     for_each bs (BnBuffer_ToParcel file_of true)).

Definition Bp_NotifyAudioTrackEvent (session track event_type : Z) : ST CallbackProxy unit :=
  send RECORDER_NOTIFY_AUDIO_TRACK_EVENT
    (do* writeUint32 session in do* writeUint32 track in writeInt32 event_type).

Definition Bp_NotifyCameraResult (camera_id : Z) (result : M) : ST CallbackProxy unit :=
  send RECORDER_NOTIFY_CAMERA_RESULT (do* writeUint32 camera_id in writeMetadata result).

(** Nothing is sent: the client has let go of the buffers itself. *)
Definition Bp_NotifyDeleteVideoTrack (track : Z) : ST CallbackProxy unit :=
  modify (fun s => s <| sent_buffers := kv_remove track (sent_buffers s) |>).

Definition BpRecorderServiceCallback : IRecorderServiceCallback M CallbackProxy := {|
  cb_NotifyRecorderEvent := Bp_NotifyRecorderEvent;
  cb_NotifySnapshotData := Bp_NotifySnapshotData;
  cb_NotifyVideoTrackData := Bp_NotifyVideoTrackData;
  cb_NotifyAudioTrackData := Bp_NotifyAudioTrackData;
  cb_NotifyAudioTrackEvent := Bp_NotifyAudioTrackEvent;
  cb_NotifyCameraResult := Bp_NotifyCameraResult
|}.

(** ** The client's side *)

Context {S : Type} `{IRecorderServiceCallback M S} `{Descriptors S}.

(** A structure that is copied out of a blob.  The code copies as much as the
    blob says; more or less than the structure is undefined here. *)
Definition copied {A} (size : Z) (get : Object -> option A) : ST P A := object size get.

Definition the_meta (o : Object) : option MetaData := match o with OfMetaData m => Some m | _ => None end.

(** The data behind the pointer are in the parcel as bytes are in memory. *)
Definition read_event_data : ST P (option Object) :=
  let* size := readUint32 in
  if size =? 0 then ret None else let* o := readBlob size in ret (Some o).

Definition read_files : ST P (option (Z * option Z)) :=
  let* ismapped := readInt32 in
  if ismapped =? 0 then
    let* f := readFile in
    let* hasmetafd := readInt32 in
    if hasmetafd =? 1 then let* g := readFile in ret (Some (f, Some g)) else ret (Some (f, None))
  else ret None.

Definition read_item : ST P VideoItem :=
  let* files := read_files in
  let* b := copied sizeof_BnBuffer the_buffer in
  ret (mkVideoItem files b).

Definition read_video : ST P (Z * Z * list VideoItem * list MetaData) :=
  let* session := readUint32 in
  let* track := readUint32 in
  let* n := readUint32 in
  let* items := read_times (Z.to_nat n) read_item in
  let* k := readUint32 in
  let* metas := read_times (Z.to_nat k) (copied sizeof_MetaData the_meta) in
  ret (session, track, items, metas).

Definition read_audio : ST P (Z * Z * list (Z * option Z * BnBuffer)) :=
  let* session := readUint32 in
  let* track := readUint32 in
  let* n := readInt32 in
  let* bs := read_times (Z.to_nat n) BnBuffer_FromParcel_files in
  ret (session, track, bs).

Definition read_snapshot : ST P (Z * Z * Z * Z * BnBuffer * MetaData) :=
  let* camera_id := readUint32 in
  let* count := readUint32 in
  let* f := readFile in
  let* g := readFile in
  let* b := copied sizeof_BnBuffer the_buffer in
  let* size := readUint32 in
  let* m := (if 0 <? size then
               let* o := readBlob size in match the_meta o with Some m => ret m | None => undefined end
             else ret (mkMetaData 0 0 0 0 0 0)) in
  ret (camera_id, count, f, g, b, m).

(** The buffer with the client's own descriptors. *)
Definition with_fds (fd meta_fd : Z) (b : BnBuffer) : BnBuffer :=
  mkBnBuffer fd meta_fd (bn_size b) (bn_timestamp b) (bn_width b) (bn_height b) (buffer_id b) (bn_flag b) (capacity b).

Definition dup_opt (f : option Z) : ST S Z := match f with Some f => dup f | None => ret (-1) end.

(** Without descriptors both are -1. *)
Definition open_item (i : VideoItem) : ST S BnBuffer :=
  match item_files i with
  | None => ret (with_fds (-1) (-1) (item_buffer i))
  | Some (f, meta) => let* fd := dup f in let* meta_fd := dup_opt meta in ret (with_fds fd meta_fd (item_buffer i))
  end.

Fixpoint collect {A A'} (l : list A) (f : A -> ST S A') : ST S (list A') :=
  match l with
  | [] => ret []
  | x :: l => let* y := f x in let* ys := collect l f in ret (y :: ys)
  end.

(** A case: the message is read, and handled. *)
Definition handle {A} (r : ST P A) (handler : A -> ST S unit) (data : P) : ST S unit :=
  match r data with None => undefined | Some (a, _) => handler a end.

Definition on_notify_event : P -> ST S unit :=
  handle (let* event_type := readInt32 in let* data := read_event_data in ret (event_type, data))
    (fun '(event_type, data) => cb_NotifyRecorderEvent event_type data).

Definition on_notify_snapshot_data : P -> ST S unit :=
  handle read_snapshot (fun '(camera_id, count, f, g, b, m) =>
    let* fd := dup f in
    let* meta_fd := dup g in
    cb_NotifySnapshotData camera_id count (with_fds fd meta_fd b) m).

Definition on_notify_video_track_data : P -> ST S unit :=
  handle read_video (fun '(session, track, items, metas) =>
    let* bs := collect items open_item in
    cb_NotifyVideoTrackData session track bs metas).

Definition on_notify_audio_track_data : P -> ST S unit :=
  handle read_audio (fun '(session, track, bs) =>
    let* bs := collect bs (fun '(f, g, b) =>
      let* fd := dup f in let* meta_fd := dup_opt g in ret (with_fds fd meta_fd b)) in
    cb_NotifyAudioTrackData session track bs []).

Definition on_notify_audio_track_event : P -> ST S unit :=
  handle (let* session := readUint32 in let* track := readUint32 in let* event_type := readInt32 in
        ret (session, track, event_type))
    (fun '(session, track, event_type) => cb_NotifyAudioTrackEvent session track event_type).

Definition on_notify_camera_result : P -> ST S unit :=
  handle (let* camera_id := readUint32 in let* meta := readMetadata in ret (camera_id, meta))
    (fun '(camera_id, meta) =>
       match meta with (0, Some m) => cb_NotifyCameraResult camera_id m | _ => ret tt end).

Definition callback_dispatch (c : option CallbackCmd) : P -> ST S unit :=
  match c with
  | Some RECORDER_NOTIFY_EVENT => on_notify_event
  | Some RECORDER_NOTIFY_SNAPSHOT_DATA => on_notify_snapshot_data
  | Some RECORDER_NOTIFY_VIDEO_TRACK_DATA => on_notify_video_track_data
  | Some RECORDER_NOTIFY_AUDIO_TRACK_DATA => on_notify_audio_track_data
  | Some RECORDER_NOTIFY_AUDIO_TRACK_EVENT => on_notify_audio_track_event
  | Some RECORDER_NOTIFY_CAMERA_RESULT => on_notify_camera_result
  | Some RECORDER_NOTIFY_SESSION_EVENT | Some RECORDER_NOTIFY_VIDEO_TRACK_EVENT | None => fun _ => ret tt
  end.

Definition callback_onTransact (code : Z) (data : P) : ST S unit :=
  match enforceInterface IRecorderServiceCallback_descriptor data with
  | None => undefined
  | Some (ok, data) => if ok then callback_dispatch (callback_of_code code) data else ret tt
  end.
End Callbacks.
