(* ===== verification/RecorderClient.v ===== *)
(** * The client

    Models [RecorderClient] of recorder/src/client/qmmf_recorder_client.h and
    recorder/src/client/qmmf_recorder_client.cc, with [ServiceCallbackHandler],
    which hands the calls of the service on to it, and [RecorderClientIon] of
    recorder/src/client/qmmf_recorder_client_ion.cc, the mapped buffers of the
    audio tracks.  It is built with pulse audio and gbm left out: without
    [TARGET_USES_GBM] buffers are not imported.

    The process has a table of descriptors and of mapped memory.  The service
    that a call goes to is any [IRecorderService].  A method that takes
    [lock_] is one step; the calls of the application are recorded. *)

From S2P Require Import Prelude KeyedVector Floats ExtraParam Track RecorderTypes Recorder Parcel Binder Callbacks.

(** A mapped buffer of a track or of a snapshot. *)
Record BufferInfo := mkBufferInfo { bi_ion_fd : Z; bi_ion_meta_fd : Z; bi_size : Z; vaddr : Z }.

Definition BufferInfo_zero : BufferInfo := mkBufferInfo 0 0 0 0.

(** A mapped buffer of an audio track. *)
Record IonBuffer := mkIonBuffer { ib_data : Z; ib_capacity : Z; map_fd : Z }.

(** What the application gets. *)
Record BufferDescriptor := mkBufferDescriptor {
  bd_data : Z; bd_fd : Z; bd_buf_id : Z; bd_size : Z; bd_capacity : Z; bd_offset : Z; bd_timestamp : Z; bd_flag : Z
}.

(** Calls of the application. *)
Inductive AppCall (M : Type) :=
| RecorderEvent (event_type : Z) (data : option Object)
| ImageCaptured (camera_id count : Z) (b : BufferDescriptor) (m : MetaData)
| TrackData (session track : Z) (bs : list BufferDescriptor) (ms : list MetaData)
| TrackEvent (session track event_type : Z)
| CameraResultCb (camera_id : Z) (result : M).

Arguments RecorderEvent {M}.
Arguments ImageCaptured {M}.
Arguments TrackData {M}.
Arguments TrackEvent {M}.
Arguments CameraResultCb {M}.

(** What [mmap] returns when it fails. *)
Definition MAP_FAILED : Z := -1.

Definition EBADF : Z := 9.

(** The choices of the kernel: the number of a new descriptor, the address of
    a new mapping, whether it maps a buffer, and what opens of the ION device
    return. *)
Class ClientPlatform := {
  new_fd : gmap Z Z -> Z;
  new_fd_fresh : forall t, t !! new_fd t = None /\ 0 < new_fd t;
  new_address : gmap Z Z -> Z;
  new_address_fresh : forall t, t !! new_address t = None /\ 0 < new_address t;
  can_map : gmap Z Z -> bool;
  ion_open : Z
}.

Section RecorderClient.
Context {M B T S : Type} `{IRecorderService M B T S} `{ClientPlatform}.

(** [service] is the other side, the client's handler is the binder
    [handler].  [recorder_service_] and the callbacks count only as being
    there or not. *)
Record RecorderClient := mkClient {
  service : S;
  recorder_service_ : bool;
  ion_device_ : Z;
  client_id_ : Z;
  sessions_ : kv (kv unit);
  session_cb_list_ : kv unit;
  track_cb_list_ : kv (kv unit);
  event_cb_ : bool;
  image_capture_cb_ : bool;
  metadata_cb_ : bool;
  track_buffers_map_ : kv (kv BufferInfo);
  snapshot_buffers_ : kv BufferInfo;
  buffer_ion_ : kv (kv IonBuffer);
  vendor_tag_desc_ : option T;
  fd_table : gmap Z Z;
  mappings : gmap Z Z;
  app_calls : list (AppCall M)
}.

#[export] Instance settable_RecorderClient : Settable RecorderClient :=
  {| eta_expand := fun s => mkClient (service s) (recorder_service_ s) (ion_device_ s) (client_id_ s) (sessions_ s)
       (session_cb_list_ s) (track_cb_list_ s) (event_cb_ s) (image_capture_cb_ s) (metadata_cb_ s) (track_buffers_map_ s)
       (snapshot_buffers_ s) (buffer_ion_ s) (vendor_tag_desc_ s) (fd_table s) (mappings s) (app_calls s) |}.

Definition RecorderClient_new (sv : S) : RecorderClient :=
  mkClient sv false (-1) 0 [] [] [] false false false [] [] [] None ∅ ∅ [].

Definition app (c : AppCall M) : ST RecorderClient unit := modify (fun s => s <| app_calls := app_calls s ++ [c] |>).

(** A call of the service. *)
Definition remote {A} (m : ST S A) : ST RecorderClient A := fun s =>
  match m (service s) with None => None | Some (a, sv) => Some (a, s <| service := sv |>) end.

(** [assert(client_id_ > 0)] *)
Definition with_id {A} (k : Z -> ST RecorderClient A) : ST RecorderClient A :=
  let* s := gets id in if 0 <? client_id_ s then k (client_id_ s) else undefined.

(** [CheckServiceStatus] at the beginning of a method. *)
Definition CheckServiceStatus : ST RecorderClient bool := gets recorder_service_.

Definition in_service {A} (otherwise : A) (m : ST RecorderClient A) : ST RecorderClient A :=
  let* ok := CheckServiceStatus in if ok then m else ret otherwise.

(** ** Descriptors and mapped memory *)

(** [dup] of an open file that arrives; -1 is none. *)
Definition client_dup (file : Z) : ST RecorderClient Z :=
  if file =? -1 then ret (-1)
  else
    let* s := gets id in
    let fd := new_fd (fd_table s) in
    do* modify (fun s => s <| fd_table := <[fd := file]> (fd_table s) |>) in ret fd.

#[export] Instance client_descriptors : Descriptors RecorderClient := {| dup := client_dup |}.

(** 0 or an [errno]. *)
Definition close (fd : Z) : ST RecorderClient Z :=
  let* s := gets id in
  match fd_table s !! fd with
  | None => ret EBADF
  | Some _ => do* modify (fun s => s <| fd_table := delete fd (fd_table s) |>) in ret 0
  end.

Definition mmap (fd : Z) : ST RecorderClient Z :=
  let* s := gets id in
  match fd_table s !! fd with
  | Some file =>
      if can_map (mappings s) then
        let a := new_address (mappings s) in
        do* modify (fun s => s <| mappings := <[a := file]> (mappings s) |>) in ret a
      else ret MAP_FAILED
  | None => ret MAP_FAILED
  end.

Definition munmap (a : Z) : ST RecorderClient Z :=
  let* s := gets id in
  match mappings s !! a with
  | None => ret EINVAL
  | Some _ => do* modify (fun s => s <| mappings := delete a (mappings s) |>) in ret 0
  end.

Definition require (b : bool) : ST RecorderClient unit := if b then ret tt else undefined.

(** The address that [mmap] returns is compared with null, not with
    [MAP_FAILED]. *)
Definition MapBuffer (info : BufferInfo) : ST RecorderClient (Z * BufferInfo) :=
  let* s := gets id in
  do* require (0 <? ion_device_ s) in
  let* a := mmap (bi_ion_fd info) in
  if a =? 0 then ret (- ENOMEM, info)
  else ret (NO_ERROR, mkBufferInfo (bi_ion_fd info) (bi_ion_meta_fd info) (bi_size info) a).

(** The result, a positive [errno] if it fails, and the buffer as it is left.
    The descriptor of the meta data stays open. *)
Definition UnmapBuffer (info : BufferInfo) : ST RecorderClient (Z * BufferInfo) :=
  let* s := gets id in
  do* require (0 <? ion_device_ s) in
  if vaddr info =? 0 then ret (NO_ERROR, info)
  else
    let* r := munmap (vaddr info) in
    if negb (r =? 0) then ret (r, info)
    else
      let unmapped fd := mkBufferInfo fd (bi_ion_meta_fd info) (bi_size info) 0 in
      if bi_ion_fd info =? -1 then ret (NO_ERROR, unmapped (-1))
      else
        let* r := close (bi_ion_fd info) in
        if negb (r =? 0) then ret (r, unmapped (bi_ion_fd info)) else ret (NO_ERROR, unmapped (-1)).

(** The first that fails ends the loop. *)
Fixpoint unmap_all (m : kv BufferInfo) : ST RecorderClient (Z * kv BufferInfo) :=
  match m with
  | [] => ret (NO_ERROR, [])
  | (k, i) :: m =>
      let* x := UnmapBuffer i in
      if negb (fst x =? NO_ERROR) then ret (fst x, (k, snd x) :: m)
      else let* y := unmap_all m in ret (fst y, (k, snd x) :: snd y)
  end.

Fixpoint unmap_tracks (m : kv (kv BufferInfo)) : ST RecorderClient (Z * kv (kv BufferInfo)) :=
  match m with
  | [] => ret (NO_ERROR, [])
  | (t, b) :: m =>
      let* x := unmap_all b in
      if negb (fst x =? NO_ERROR) then ret (fst x, (t, snd x) :: m)
      else let* y := unmap_tracks m in ret (fst y, (t, snd x) :: snd y)
  end.

(** ** [RecorderClientIon] *)

(** The ION device that its constructor opens. *)
Definition ion_device_opened : bool := negb (ion_open =? -1).

Definition describe (data fd : Z) (b : BnBuffer) : BufferDescriptor :=
  mkBufferDescriptor data fd (buffer_id b) (bn_size b) (capacity b) 0 (bn_timestamp b) (bn_flag b).

(** A buffer that is known keeps its mapping, and the descriptor that came
    with it is closed. *)
Definition Associate (track : Z) (b : BnBuffer) : ST RecorderClient (Z + BufferDescriptor) :=
  if negb ion_device_opened then ret (inl (- ENODEV))
  else
    do* modify (fun s => s <| buffer_ion_ := touch [] track (buffer_ion_ s) |>) in
    let* s := gets id in
    match kv_lookup (i32 (buffer_id b)) (at_key [] track (buffer_ion_ s)) with
    | Some ib => let* r := close (ion_fd b) in ret (inr (describe (ib_data ib) (map_fd ib) b))
    | None =>
        let* a := mmap (ion_fd b) in
        if a =? MAP_FAILED then let* r := close (ion_fd b) in ret (inl EBADF)
        else
          do* modify (fun s => s <| buffer_ion_ :=
                kv_add track (emplace (i32 (buffer_id b)) (mkIonBuffer a (i32 (capacity b)) (ion_fd b))
                  (at_key [] track (buffer_ion_ s))) (buffer_ion_ s) |>) in
          ret (inr (describe a (ion_fd b) b))
    end.

(** The result and the buffers as they are left. *)
Fixpoint release_all (m : kv IonBuffer) : ST RecorderClient (Z * kv IonBuffer) :=
  match m with
  | [] => ret (0, [])
  | (k, ib) :: m =>
      let* r := munmap (ib_data ib) in
      if negb (r =? 0) then let* r' := close (map_fd ib) in ret (r, (k, ib) :: m)
      else
        let* r := close (map_fd ib) in
        if negb (r =? 0) then ret (r, (k, mkIonBuffer 0 (ib_capacity ib) (map_fd ib)) :: m)
        else let* x := release_all m in ret (fst x, (k, mkIonBuffer 0 (ib_capacity ib) (-1)) :: snd x)
  end.

Definition Release (track : Z) : ST RecorderClient Z :=
  let* s := gets id in
  match kv_lookup track (buffer_ion_ s) with
  | None => ret 0
  | Some m =>
      let* x := release_all m in
      if negb (fst x =? 0) then
        do* modify (fun s => s <| buffer_ion_ := kv_add track (snd x) (buffer_ion_ s) |>) in ret (fst x)
      else do* modify (fun s => s <| buffer_ion_ := kv_remove track (buffer_ion_ s) |>) in ret 0
  end.

(** ** Connection *)

(** The id that the service did not give is whatever was there, [garbage]; the
    handle of the service is kept also when the connection fails. *)
Definition Client_Connect (handler : B) (event_cb : bool) (garbage : Z) : ST RecorderClient Z :=
  let* ok := CheckServiceStatus in
  if ok then ret NO_ERROR
  else
    do* modify (fun s => s <| ion_device_ := ion_open |>) in
    if ion_open <? 0 then ret NO_INIT
    else
      do* modify (fun s => s <| event_cb_ := event_cb |> <| recorder_service_ := true |>) in
      let* x := remote (rs_Connect handler) in
      do* modify (fun s => s <| client_id_ := default garbage (snd x) |> <| session_cb_list_ := [] |> <| track_cb_list_ := [] |>) in
      ret (fst x).

(** The mapped buffers of the tracks and snapshots stay as they are. *)
Definition Client_Disconnect : ST RecorderClient Z :=
  in_service NO_INIT (
    let* s := gets id in
    let* r := remote (rs_Disconnect (client_id_ s)) in
    do* modify (fun s => s <| recorder_service_ := false |> <| sessions_ := [] |> <| session_cb_list_ := [] |>
                           <| track_cb_list_ := [] |> <| ion_device_ := if 0 <? ion_device_ s then -1 else ion_device_ s |>
                           <| client_id_ := 0 |> <| vendor_tag_desc_ := None |>) in
    ret r).

(** The death of the service. *)
Definition ServiceDeathHandler : ST RecorderClient unit :=
  let* s := gets id in
  let* x := unmap_tracks (track_buffers_map_ s) in
  if negb (fst x =? NO_ERROR) then modify (fun s => s <| track_buffers_map_ := snd x |>)
  else
    do* modify (fun s => s <| track_buffers_map_ := [] |>) in
    let* s := gets id in
    let* x := unmap_all (snapshot_buffers_ s) in
    if negb (fst x =? NO_ERROR) then modify (fun s => s <| snapshot_buffers_ := snd x |>)
    else
      do* modify (fun s => s <| snapshot_buffers_ := [] |> <| recorder_service_ := false |> <| sessions_ := [] |>
                             <| session_cb_list_ := [] |> <| track_cb_list_ := [] |> <| image_capture_cb_ := false |>
                             <| metadata_cb_ := false |>
                             <| ion_device_ := if 0 <? ion_device_ s then -1 else ion_device_ s |> <| client_id_ := 0 |>) in
      let* s := gets id in
      if event_cb_ s then app (RecorderEvent kServerDied None) else ret tt.

(** ** Cameras and sessions *)

Definition Client_GetVendorTagDescriptor : ST RecorderClient (Z * option T) :=
  in_service (NO_INIT, None) (with_id (fun _ => remote rs_GetVendorTagDescriptor)).

(** The vendor tags are fetched with the first camera; [set_global] is what
    making them those of the process returns.  An empty descriptor stays when
    they cannot be fetched. *)
Definition fetch_vendor_tags (empty : T) (set_global : Z) : ST RecorderClient Z :=
  let* s := gets id in
  match vendor_tag_desc_ s with
  | Some _ => ret NO_ERROR
  | None =>
      do* modify (fun s => s <| vendor_tag_desc_ := Some empty |>) in
      let* x := Client_GetVendorTagDescriptor in
      if negb (fst x =? 0) then ret (fst x)
      else do* modify (fun s => s <| vendor_tag_desc_ := Some (default empty (snd x)) |>) in ret set_global
  end.

Definition Client_StartCamera (empty : T) (set_global : Z) (camera_id : Z) (frame_rate : float32) (extra : ExtraParam) (result_cb : bool) :
  ST RecorderClient Z :=
  in_service NO_INIT (
    do* (if result_cb then modify (fun s => s <| metadata_cb_ := true |>) else ret tt) in
    with_id (fun client =>
      let* r := remote (rs_StartCamera client camera_id frame_rate extra result_cb) in
      if negb (r =? NO_ERROR) then ret r else fetch_vendor_tags empty set_global)).

Definition Client_StopCamera (camera_id : Z) : ST RecorderClient Z :=
  in_service NO_INIT (with_id (fun client => remote (rs_StopCamera client camera_id))).

(** The service gives the id of the session, [garbage] if it does not. *)
Definition Client_CreateSession (garbage : Z) : ST RecorderClient (Z * Z) :=
  in_service (NO_INIT, garbage) (with_id (fun client =>
    let* x := remote (rs_CreateSession client) in
    let session := default garbage (snd x) in
    if negb (fst x =? NO_ERROR) then ret (fst x, session)
    else
      do* modify (fun s => s <| sessions_ := emplace session [] (sessions_ s) |>
                             <| session_cb_list_ := emplace session tt (session_cb_list_ s) |>) in
      ret (NO_ERROR, session))).

(** A method on a session that the client knows. *)
Definition on_session (session : Z) (k : Z -> kv unit -> ST RecorderClient Z) : ST RecorderClient Z :=
  in_service NO_INIT (
    let* s := gets id in
    match kv_lookup session (sessions_ s) with
    | None => ret BAD_VALUE
    | Some tracks => with_id (fun client => k client tracks)
    end).

(** The session is forgotten also when the service does not delete it. *)
Definition Client_DeleteSession (session : Z) : ST RecorderClient Z :=
  in_service NO_INIT (
    let* s := gets id in
    match kv_lookup session (sessions_ s) with
    | None => ret BAD_VALUE
    | Some (_ :: _) => ret INVALID_OPERATION
    | Some [] => with_id (fun client =>
        let* r := remote (rs_DeleteSession client session) in
        do* modify (fun s => s <| sessions_ := kv_remove session (sessions_ s) |>
                               <| session_cb_list_ := kv_remove session (session_cb_list_ s) |>) in
        ret r)
    end).

Definition Client_StartSession (session : Z) : ST RecorderClient Z :=
  in_service NO_INIT (
    let* s := gets id in
    match kv_lookup session (sessions_ s) with
    | None => ret BAD_VALUE
    | Some tracks =>
        do* for_each (kv_keys tracks) (fun t => let* r := Release t in ret tt) in
        with_id (fun client => remote (rs_StartSession client session))
    end).

Definition Client_StopSession (session : Z) (do_flush : bool) : ST RecorderClient Z :=
  on_session session (fun client _ => remote (rs_StopSession client session do_flush)).

Definition Client_PauseSession (session : Z) : ST RecorderClient Z :=
  on_session session (fun client _ => remote (rs_PauseSession client session)).

Definition Client_ResumeSession (session : Z) : ST RecorderClient Z :=
  on_session session (fun client _ => remote (rs_ResumeSession client session)).

(** ** Tracks *)

Definition UpdateSessionTopology (session track : Z) (add : bool) : ST RecorderClient unit :=
  modify (fun s => let tracks := at_key [] session (sessions_ s) in
    s <| sessions_ := kv_add session (if add then emplace track tt tracks else kv_remove track tracks) (sessions_ s) |>).

(** A new track is registered with its callback. *)
Definition create_track (session track : Z) (create : Z -> ST S Z) : ST RecorderClient Z :=
  in_service NO_INIT (
    do* require (negb (track =? 0)) in
    let* s := gets id in
    match kv_lookup session (sessions_ s) with
    | None => ret BAD_VALUE
    | Some tracks =>
        if kv_mem track tracks then ret BAD_VALUE
        else with_id (fun client =>
          let* r := remote (create client) in
          if negb (r =? NO_ERROR) then ret r
          else
            do* UpdateSessionTopology session track true in
            do* modify (fun s => let m := touch [] session (track_cb_list_ s) in
                  s <| track_cb_list_ := kv_add session (emplace track tt (at_key [] session m)) m |>) in
            ret r)
    end).

Definition Client_CreateAudioTrack (session track : Z) (param : AudioTrackParam) : ST RecorderClient Z :=
  create_track session track (fun client => rs_CreateAudioTrack client session track param).

Definition Client_CreateVideoTrack (session track : Z) (param : VideoTrackCreateParam) : ST RecorderClient Z :=
  create_track session track (fun client => rs_CreateVideoTrack client session track param).

Definition Client_CreateVideoTrackExtra (session track : Z) (param : VideoTrackCreateParam) (extra : ExtraParam) : ST RecorderClient Z :=
  create_track session track (fun client => rs_CreateVideoTrackExtra client session track param extra).

(** The checks of a method on a track that the client knows. *)
Definition on_track (session track : Z) (m : ST RecorderClient Z) : ST RecorderClient Z :=
  in_service NO_INIT (
    let* s := gets id in
    match kv_lookup session (sessions_ s) with
    | None => ret BAD_VALUE
    | Some tracks => if kv_mem track tracks then m else ret BAD_VALUE
    end).

Definition forget_track (session track : Z) : ST RecorderClient unit :=
  do* UpdateSessionTopology session track false in
  modify (fun s => s <| track_cb_list_ := kv_add session (kv_remove track (at_key [] session (track_cb_list_ s))) (track_cb_list_ s) |>).

(** What the client returns of a buffer: its id, also for the descriptor. *)
Definition returned_buffer (b : BufferDescriptor) : BnBuffer :=
  mkBnBuffer (i32 (bd_buf_id b)) (-1) (bd_size b) (bd_timestamp b) 0 0 (bd_buf_id b) (bd_flag b) (bd_capacity b).

Definition Client_ReturnTrackBuffer (session track : Z) (buffers : list BufferDescriptor) : ST RecorderClient Z :=
  in_service NO_INIT (with_id (fun client =>
    remote (rs_ReturnTrackBuffer client session track (map returned_buffer buffers)))).

Definition Client_SetAudioTrackParam (session track type : Z) (param : Object) : ST RecorderClient Z :=
  on_track session track (with_id (fun client => remote (rs_SetAudioTrackParam client session track type param))).

Definition Client_SetVideoTrackParam (session track type : Z) (param : Object) : ST RecorderClient Z :=
  on_track session track (with_id (fun client => remote (rs_SetVideoTrackParam client session track type param))).

Definition Client_DeleteAudioTrack (session track : Z) : ST RecorderClient Z :=
  on_track session track (
    do* (let* r := Release track in ret tt) in
    with_id (fun client =>
      let* r := remote (rs_DeleteAudioTrack client session track) in
      if negb (r =? NO_ERROR) then ret r else do* forget_track session track in ret r)).

Definition unmap_track (track : Z) : ST RecorderClient Z :=
  let* s := gets id in
  match kv_lookup track (track_buffers_map_ s) with
  | None => ret NO_ERROR
  | Some m =>
      let* x := unmap_all m in
      if negb (fst x =? NO_ERROR) then
        do* modify (fun s => s <| track_buffers_map_ := kv_add track (snd x) (track_buffers_map_ s) |>) in ret (fst x)
      else do* modify (fun s => s <| track_buffers_map_ := kv_remove track (track_buffers_map_ s) |>) in ret NO_ERROR
  end.

(** The mapped buffers go first, whatever the service answers then. *)
Definition Client_DeleteVideoTrack (session track : Z) : ST RecorderClient Z :=
  on_track session track (
    let* r := unmap_track track in
    if negb (r =? NO_ERROR) then ret r
    else with_id (fun client =>
      let* r := remote (rs_DeleteVideoTrack client session track) in
      if negb (r =? NO_ERROR) then ret r else do* forget_track session track in ret r)).

(** ** Images and camera parameters *)

(** The callback is set after the call: images of an earlier call may come
    first. *)
Definition Client_CaptureImage (camera_id num_images : Z) (meta : list M) (cb : bool) : ST RecorderClient Z :=
  in_service NO_INIT (with_id (fun client =>
    let* r := remote (rs_CaptureImage client camera_id num_images meta) in
    do* modify (fun s => s <| image_capture_cb_ := cb |>) in ret r)).

Definition Client_ConfigImageCapture (camera_id : Z) (param : ImageParam) (config : ExtraParam) : ST RecorderClient Z :=
  in_service NO_INIT (with_id (fun client => remote (rs_ConfigImageCapture client camera_id param config))).

Definition Client_CancelCaptureImage (camera_id : Z) : ST RecorderClient Z :=
  in_service NO_INIT (with_id (fun client => remote (rs_CancelCaptureImage client camera_id))).

Definition Client_ReturnImageCaptureBuffer (camera_id : Z) (b : BufferDescriptor) : ST RecorderClient Z :=
  in_service NO_INIT (
    let* s := gets id in
    match kv_lookup (bd_fd b) (snapshot_buffers_ s) with
    | None => ret BAD_VALUE
    | Some info =>
        let* x := UnmapBuffer info in
        if negb (fst x =? NO_ERROR) then ret (fst x)
        else
          do* modify (fun s => s <| snapshot_buffers_ := kv_remove (bd_fd b) (snapshot_buffers_ s) |>) in
          with_id (fun client => remote (rs_ReturnImageCaptureBuffer client camera_id (i32 (bd_buf_id b))))
    end).

Definition Client_SetCameraParam (camera_id : Z) (meta : M) : ST RecorderClient Z :=
  in_service NO_INIT (with_id (fun client => remote (rs_SetCameraParam client camera_id meta))).

Definition Client_GetCameraParam (camera_id : Z) (meta : M) : ST RecorderClient (Z * M) :=
  in_service (NO_INIT, meta) (with_id (fun client => remote (rs_GetCameraParam client camera_id meta))).

Definition Client_GetDefaultCaptureParam (camera_id : Z) (meta : M) : ST RecorderClient (Z * M) :=
  in_service (NO_INIT, meta) (with_id (fun client => remote (rs_GetDefaultCaptureParam client camera_id meta))).

Definition Client_GetCameraCharacteristics (camera_id : Z) (meta : M) : ST RecorderClient (Z * M) :=
  in_service (NO_INIT, meta) (with_id (fun client => remote (rs_GetCameraCharacteristics client camera_id meta))).

(** ** What the service tells *)

(** The loop erases entries of the map that it goes over. *)
Definition Client_NotifyRecorderEvent (event_type : Z) (event_data : option Object) : ST RecorderClient unit :=
  match remap_all event_type event_data with
  | None => undefined
  | Some all =>
      let* s := gets id in
      do* (if all then match track_buffers_map_ s with [] => ret tt | _ => undefined end else ret tt) in
      if event_cb_ s then app (RecorderEvent event_type event_data) else ret tt
  end.

Definition Client_NotifySnapshotData (camera_id count : Z) (b : BnBuffer) (m : MetaData) : ST RecorderClient unit :=
  let* s := gets id in
  do* require (image_capture_cb_ s && (0 <? ion_fd b) && (0 <? buffer_id b)) in
  let* x := MapBuffer (mkBufferInfo (ion_fd b) (ion_meta_fd b) (capacity b) 0) in
  if negb (fst x =? NO_ERROR) then ret tt
  else
    do* modify (fun s => s <| snapshot_buffers_ := emplace (ion_fd b) (snd x) (snapshot_buffers_ s) |>) in
    app (ImageCaptured camera_id count (describe (vaddr (snd x)) (ion_fd b) b) m).

(** A buffer that the client has mapped, or maps now; none if that fails. *)
Definition map_track_buffer (track : Z) (b : BnBuffer) : ST RecorderClient (option BufferDescriptor) :=
  let* s := gets id in
  match kv_lookup (buffer_id b) (at_key [] track (track_buffers_map_ s)) with
  | Some info => ret (Some (describe (vaddr info) (bi_ion_fd info) b))
  | None =>
      let* x := MapBuffer (mkBufferInfo (ion_fd b) (ion_meta_fd b) (capacity b) 0) in
      if negb (fst x =? NO_ERROR) then ret None
      else
        do* modify (fun s => s <| track_buffers_map_ :=
              kv_add track (emplace (buffer_id b) (snd x) (at_key [] track (track_buffers_map_ s))) (track_buffers_map_ s) |>) in
        ret (Some (describe (vaddr (snd x)) (bi_ion_fd (snd x)) b))
  end.

Fixpoint map_track_buffers (track : Z) (bs : list BnBuffer) : ST RecorderClient (option (list BufferDescriptor)) :=
  match bs with
  | [] => ret (Some [])
  | b :: bs =>
      let* d := map_track_buffer track b in
      match d with
      | None => ret None
      | Some d => let* ds := map_track_buffers track bs in ret (match ds with Some ds => Some (d :: ds) | None => None end)
      end
  end.

Definition has_track_cb (session track : Z) (s : RecorderClient) : bool :=
  match kv_lookup session (track_cb_list_ s) with Some m => kv_mem track m | None => false end.

(** Data of a track without callback go nowhere. *)
Definition to_track (session track : Z) (c : AppCall M) : ST RecorderClient unit :=
  let* s := gets id in if has_track_cb session track s then app c else ret tt.

Definition Client_NotifyVideoTrackData (session track : Z) (bs : list BnBuffer) (ms : list MetaData) : ST RecorderClient unit :=
  let* ds := map_track_buffers track bs in
  match ds with None => ret tt | Some ds => to_track session track (TrackData session track ds ms) end.

Fixpoint associate_all (track : Z) (bs : list BnBuffer) : ST RecorderClient (option (list BufferDescriptor)) :=
  match bs with
  | [] => ret (Some [])
  | b :: bs =>
      let* d := Associate track b in
      match d with
      | inl _ => ret None
      | inr d => let* ds := associate_all track bs in ret (match ds with Some ds => Some (d :: ds) | None => None end)
      end
  end.

Definition Client_NotifyAudioTrackData (session track : Z) (bs : list BnBuffer) (ms : list MetaData) : ST RecorderClient unit :=
  let* ds := associate_all track bs in
  match ds with None => ret tt | Some ds => to_track session track (TrackData session track ds ms) end.

Definition Client_NotifyAudioTrackEvent (session track event_type : Z) : ST RecorderClient unit :=
  to_track session track (TrackEvent session track event_type).

Definition Client_NotifyCameraResult (camera_id : Z) (result : M) : ST RecorderClient unit :=
  let* s := gets id in if metadata_cb_ s then app (CameraResultCb camera_id result) else ret tt.

#[export] Instance ServiceCallbackHandler : IRecorderServiceCallback M RecorderClient := {|
  cb_NotifyRecorderEvent := Client_NotifyRecorderEvent;
  cb_NotifySnapshotData := Client_NotifySnapshotData;
  cb_NotifyVideoTrackData := Client_NotifyVideoTrackData;
  cb_NotifyAudioTrackData := Client_NotifyAudioTrackData;
  cb_NotifyAudioTrackEvent := Client_NotifyAudioTrackEvent;
  cb_NotifyCameraResult := Client_NotifyCameraResult
|}.
End RecorderClient.
