(* ===== verification/Transfer.v ===== *)
(** * Video buffers from the service to the application

    The proxy of a client's callback in the service, the messages on the way,
    and the client.  A descriptor is sent with the first frame in a buffer
    only; [data_on_the_way_arrive] says that the application nevertheless gets
    the memory of every buffer, while no two sessions have a track of the same
    number: both sides keep the buffers by the number of the track alone, and
    [sessions_share_memory] shows what comes of two.

    A link has the data on the way, the session that each track is of and what
    memory each buffer id of a session's track stands for, besides the states
    of the two sides, to speak about them. *)

From S2P Require Import Prelude KeyedVector Floats ExtraParam Track RecorderTypes Recorder Parcel Binder BinderFacts Callbacks RecorderClient RecorderServiceFacts.

(** The keys of a map. *)
Definition key_set {V} (m : kv V) : gset Z := list_to_set (kv_keys m).

Lemma elem_key_set {V} k (m : kv V) : k ∈ key_set m <-> kv_mem k m = true.
Proof. unfold key_set. by rewrite elem_of_list_to_set, kv_mem_keys. Qed.

Lemma key_set_emplace {V} k (v : V) m : key_set (emplace k v m) = {[k]} ∪ key_set m.
Proof.
  apply set_eq. intros x. rewrite elem_of_union, elem_of_singleton, !elem_key_set, mem_emplace, orb_true_iff, Z.eqb_eq. done.
Qed.

Lemma at_key_add {V} (d v : V) k k' m : at_key d k (kv_add k' v m) = if k =? k' then v else at_key d k m.
Proof. unfold at_key. rewrite kv_lookup_add. by destruct (k =? k'). Qed.

Lemma at_key_remove {V} (d : V) k k' m : kv_ordered m -> at_key d k (kv_remove k' m) = if k =? k' then d else at_key d k m.
Proof. intros Hm. unfold at_key. rewrite kv_lookup_remove by done. by destruct (k =? k'). Qed.

Lemma kv_remove_absent {V} k (m : kv V) : kv_lookup k m = None -> kv_remove k m = m.
Proof. induction m as [|[k' v] m IH]; [done|]. simpl. destruct (k =? k'); [done|]. intros Hm. by rewrite IH. Qed.

Lemma NoDup_by {A} (g : Z * A -> Z) (m : list (Z * A)) : NoDup (map fst m) ->
  (forall x y, x ∈ m -> y ∈ m -> g x = g y -> fst x = fst y) -> NoDup (map g m).
Proof.
  induction m as [|x m IH]; simpl; [constructor|]. intros [Hx Hm]%NoDup_cons Hg. apply NoDup_cons. split.
  - intros (y & Ey & Hy)%list_elem_of_fmap. apply Hx. rewrite (Hg x y) by (try done; set_solver). by apply list_elem_of_fmap_2.
  - apply IH; [done|]. intros. apply Hg; set_solver.
Qed.

(** Data of a video track: session, track, buffers and meta data. *)
Definition VideoData : Type := Z * Z * list BnBuffer * list MetaData.

Definition data_track (d : VideoData) : Z := snd (fst (fst d)).

(** What is known of the buffers of each track. *)
Definition Known : Type := Z -> gset Z.

Definition known_at (t : Z) (K : gset Z) (known : Known) : Known := fun t' => if t' =? t then K else known t'.

Section Transfer.
Context {M B T P S : Type} `{ParcelOps M B T P} `{IRecorderService M B T S} `{ClientPlatform}.

Context (file_of : Z -> Z).

Abbreviation Client := (RecorderClient (M := M) (T := T) (S := S)).
Abbreviation Proxy := (CallbackProxy (P := P)).

Record Link := mkLink {
  lk_proxy : Proxy; lk_client : Client; lk_flying : list VideoData;
  lk_files : Z -> Z -> Z -> Z; (* session, track and buffer id: the memory *)
  lk_session : Z -> Z (* the session that a track id is of *)
}.

(** The memory that the buffers of a track id stand for. *)
Definition files_of (l : Link) (track : Z) : Z -> Z := lk_files l (lk_session l track) track.

(** The service sends; the client takes the next message; the client deletes a
    track, whose id may be of session [next] when it is given again, with
    buffer ids that stand for the memory [f]. *)
Inductive LinkEvent :=
| Send (session track : Z) (bs : list BnBuffer) (ms : list MetaData)
| Deliver
| DeleteTrack (session track next : Z) (f : Z -> Z).

Definition link_event (e : LinkEvent) (l : Link) : option Link :=
  match e with
  | Send session track bs ms =>
      match Bp_NotifyVideoTrackData file_of session track bs ms (lk_proxy l) with
      | Some (_, p) => Some (mkLink p (lk_client l) (lk_flying l ++ [(session, track, bs, ms)]) (lk_files l) (lk_session l))
      | None => None
      end
  | Deliver =>
      match outbox (lk_proxy l) with
      | [] => Some l
      | (code, data) :: rest =>
          match callback_onTransact code data (lk_client l) with
          | Some (_, c) => Some (mkLink ((lk_proxy l) <| outbox := rest |>) c (tail (lk_flying l)) (lk_files l) (lk_session l))
          | None => None
          end
      end
  | DeleteTrack session track next f =>
      match Client_DeleteVideoTrack session track (lk_client l) with
      | Some (r, c) =>
          if r =? NO_ERROR then
            match Bp_NotifyDeleteVideoTrack track (lk_proxy l) with
            | Some (_, p) => Some (mkLink p c (lk_flying l)
                (fun s t => if (s =? next) && (t =? track) then f else lk_files l s t)
                (fun t => if t =? track then next else lk_session l t))
            | None => None
            end
          else Some (mkLink (lk_proxy l) c (lk_flying l) (lk_files l) (lk_session l))
      | None => None
      end
  end.

(** A buffer that is sent as what it stands for. *)
Definition sent_right (files : Z -> Z -> Z) (track : Z) (b : BnBuffer) : Prop :=
  file_of (ion_fd b) = files track (buffer_id b) /\ file_of (ion_fd b) <> -1.

(** What is asked of an event: data are sent for the session that the track id
    is of, since neither side keeps buffers by session, and buffers are sent as
    they are; a track is deleted when none of its data are on the way; what the
    service refuses is not known to the client as a track either. *)
Definition event_ok (l : Link) (e : LinkEvent) : Prop :=
  match e with
  | Send session track bs ms =>
      is_u32 session /\ is_u32 track /\ Z.of_nat (length bs) < INT32_HALF /\ Z.of_nat (length ms) < INT32_HALF /\
      lk_session l track = session /\ Forall (sent_right (lk_files l session) track) bs
  | Deliver => True
  | DeleteTrack session track _ _ => Forall (fun d => data_track d <> track) (lk_flying l) /\
      forall r c, Client_DeleteVideoTrack session track (lk_client l) = Some (r, c) -> r = NO_ERROR \/ c = lk_client l
  end.

(** ** What is on the way *)

(** The items of a message, for a receiver that knows the buffers [K] of the
    track: the buffers that come without a descriptor are known, and those that
    come with one are not. *)
Fixpoint items_ok (K : gset Z) (items : list VideoItem) (K' : gset Z) : Prop :=
  match items with
  | [] => K' = K
  | i :: items =>
      match item_files i with
      | None => buffer_id (item_buffer i) ∈ K /\ items_ok K items K'
      | Some (f, _) => (buffer_id (item_buffer i) ∉ K) /\ f = file_of (ion_fd (item_buffer i)) /\
          items_ok ({[buffer_id (item_buffer i)]} ∪ K) items K'
      end
  end.

(** The message [m] carries the data [d], as [items]. *)
Definition carries (m : Z * P) (d : VideoData) (items : list VideoItem) : Prop :=
  fst m = callback_code RECORDER_NOTIFY_VIDEO_TRACK_DATA /\ map item_buffer items = snd (fst d) /\
  exists p1 p2, enforceInterface IRecorderServiceCallback_descriptor (snd m) = Some (true, p1) /\
    read_video p1 = Some ((fst (fst (fst d)), data_track d, items, snd d), p2).

(** The messages bring a receiver that knows [known] to know [sent]. *)
Fixpoint messages_ok (files : Z -> Z -> Z) (known : Known) (box : list (Z * P)) (flying : list VideoData) (sent : Known) : Prop :=
  match box, flying with
  | [], [] => forall t, known t = sent t
  | m :: box, d :: flying => exists items K', carries m d items /\
      Forall (sent_right files (data_track d)) (snd (fst d)) /\
      items_ok (known (data_track d)) items K' /\
      messages_ok files (known_at (data_track d) K' known) box flying sent
  | _, _ => False
  end.

Definition sent_set (p : Proxy) : Known := fun t => key_set (at_key [] t (sent_buffers p)).
Definition mapped_set (c : Client) : Known := fun t => key_set (at_key [] t (track_buffers_map_ c)).

(** ** The memory of the client *)

Definition entry (c : Client) (t id : Z) : option BufferInfo := kv_lookup id (at_key [] t (track_buffers_map_ c)).

(** Every mapped buffer has its own descriptor and its own address, both of
    the memory that it stands for. *)
Record memory_ok (files : Z -> Z -> Z) (c : Client) : Prop := {
  mo_device : 0 < ion_device_ c;
  mo_ordered : kv_ordered (track_buffers_map_ c);
  mo_ordered_in : forall t, kv_ordered (at_key [] t (track_buffers_map_ c));
  mo_fd : forall t id i, entry c t id = Some i -> 0 < bi_ion_fd i /\ fd_table c !! bi_ion_fd i = Some (files t id);
  mo_address : forall t id i, entry c t id = Some i -> 0 < vaddr i /\ mappings c !! vaddr i = Some (files t id);
  mo_own : forall t id i t' id' i', entry c t id = Some i -> entry c t' id' = Some i' ->
    bi_ion_fd i = bi_ion_fd i' \/ vaddr i = vaddr i' -> t = t' /\ id = id'
}.

(** The state of a link in which all is well. *)
Record link_ok (l : Link) : Prop := {
  lo_messages : messages_ok (files_of l) (mapped_set (lk_client l)) (outbox (lk_proxy l)) (lk_flying l) (sent_set (lk_proxy l));
  lo_memory : memory_ok (files_of l) (lk_client l);
  lo_sent : kv_ordered (sent_buffers (lk_proxy l))
}.

Lemma messages_same files known known' box : forall flying sent sent', (forall t, known t = known' t) -> (forall t, sent t = sent' t) ->
  messages_ok files known box flying sent -> messages_ok files known' box flying sent'.
Proof.
  revert known known'. induction box as [|m box IH]; intros known known' [|d flying] sent sent' Hk Hs; simpl; try done.
  - intros Hm t. by rewrite <- Hk, <- Hs.
  - intros (items & K' & Hc & Hf & Hi & Hm). exists items, K'. rewrite <- Hk. split_and!; try done.
    eapply IH; [|exact Hs|exact Hm]. intros t. unfold known_at. destruct (t =? data_track d); [done|apply Hk].
Qed.

Lemma messages_snoc files box m d items K' sent sent' : forall known flying,
  messages_ok files known box flying sent -> carries m d items -> Forall (sent_right files (data_track d)) (snd (fst d)) ->
  items_ok (sent (data_track d)) items K' -> (forall t, sent' t = known_at (data_track d) K' sent t) ->
  messages_ok files known (box ++ [m]) (flying ++ [d]) sent'.
Proof.
  induction box as [|m0 box IH]; intros known [|d0 flying]; simpl; try done.
  - intros Hk Hc Hf Hi Hs. exists items, K'. rewrite Hk. split_and!; try done. intros t. rewrite Hs. unfold known_at.
    by rewrite Hk.
  - intros (items0 & K0 & Hc0 & Hf0 & Hi0 & Hm) Hc Hf Hi Hs. exists items0, K0. split_and!; try done. by apply IH.
Qed.

(** ** Sending *)

Definition touched (track : Z) (p : Proxy) : Proxy := p <| sent_buffers := touch [] track (sent_buffers p) |>.

Definition entered (track id : Z) (p : Proxy) : Proxy :=
  p <| sent_buffers := kv_add track (emplace id tt (at_key [] track (sent_buffers p))) (sent_buffers p) |>.

Lemma pack_buffer_eq track b (p : Proxy) : pack_buffer file_of track b p =
  if kv_mem (buffer_id b) (at_key [] track (sent_buffers (touched track p))) then Some (mkVideoItem None b, touched track p)
  else Some (mkVideoItem (Some (file_of (ion_fd b), if 0 <? ion_meta_fd b then Some (file_of (ion_meta_fd b)) else None)) b,
    entered track (buffer_id b) (touched track p)).
Proof. unfold pack_buffer, bind, modify, gets, id. fold (touched track p). by case_match. Qed.

Lemma packed files track bs : forall (p : Proxy), Forall (sent_right files track) bs -> kv_ordered (sent_buffers p) ->
  exists items p', pack_buffers file_of track bs p = Some (items, p') /\ outbox p' = outbox p /\
    kv_ordered (sent_buffers p') /\ map item_buffer items = bs /\
    items_ok (sent_set p track) items (sent_set p' track) /\
    forall t, t <> track -> sent_set p' t = sent_set p t.
Proof.
  induction bs as [|b bs IH]; intros p Hbs Hp; [by exists [], p|]. inversion Hbs as [|? ? _ Hrest]. subst.
  simpl. set (p1 := touched track p).
  assert (forall t, sent_set p1 t = sent_set p t) as H1s by (intros t; unfold sent_set, p1, touched; simpl; by rewrite at_key_touch).
  assert (kv_ordered (sent_buffers p1)) as H1o by (by apply touch_ordered).
  pose proof (pack_buffer_eq track b p) as Epack. fold p1 in Epack.
  destruct (kv_mem (buffer_id b) (at_key [] track (sent_buffers p1))) eqn:Em.
  - destruct (IH p1 Hrest H1o) as (items & p' & Eq & Ho & Hp' & Hb & Hi & Ht).
    exists (mkVideoItem None b :: items), p'. split_and!; try done.
    + unfold bind. by rewrite Epack, Eq.
    + simpl. by rewrite Hb.
    + split; [|by rewrite <- H1s]. apply elem_key_set in Em. by rewrite <- H1s.
    + intros t Hne. rewrite Ht by done. apply H1s.
  - set (p2 := entered track (buffer_id b) p1) in *.
    assert (sent_set p2 track = {[buffer_id b]} ∪ sent_set p track) as H2s.
    { unfold sent_set at 1, p2, entered. simpl. rewrite at_key_add, Z.eqb_refl, key_set_emplace.
      by rewrite at_key_touch. }
    destruct (IH p2 Hrest) as (items & p' & Eq & Ho & Hp' & Hb & Hi & Ht); [by apply kv_add_ordered|].
    eexists (mkVideoItem (Some (_, _)) b :: items), p'. split_and!; try done.
    + unfold bind. by rewrite Epack, Eq.
    + simpl. by rewrite Hb.
    + cbn [items_ok item_files item_buffer]. rewrite <- H2s. split_and!; [|done|exact Hi].
      intros Hin. rewrite <- H1s in Hin. apply elem_key_set in Hin. congruence.
    + intros t Hne. rewrite Ht by done. rewrite <- H1s. unfold sent_set, p2, entered. simpl. rewrite at_key_add.
      by destruct (Z.eqb_spec t track).
Qed.

Lemma transfers_files f : transfers (M := M) (B := B) (T := T) (P := P) (write_files f) read_files f.
Proof.
  unfold read_files. destruct f as [[f [g|]]|]; cbn [write_files].
  - do 3 (eapply transfers_bind; [solve [eauto with parcel]|cbv beta; simpl]). eapply transfers_end; [apply transfers_File|done].
  - do 3 (eapply transfers_bind; [solve [eauto with parcel]|cbv beta; simpl]). apply transfers_nothing.
  - eapply transfers_end; [apply transfers_Int32|done].
Qed.

Lemma transfers_struct {A} o size (get : Object -> option A) a : get o = Some a -> size_of o = size -> 0 < size < UINT32_MOD ->
  transfers (M := M) (B := B) (T := T) (P := P) (writeSized o) (copied size get) a.
Proof. intros Hg Hs Hr. apply transfers_object; [|done|done]. unfold sized_ok, is_u32. lia. Qed.

Lemma transfers_item i : transfers (M := M) (B := B) (T := T) (P := P) (write_item i) read_item i.
Proof.
  pose proof sizes_positive. unfold write_item, read_item. eapply transfers_bind; [apply transfers_files|].
  eapply transfers_end; [apply transfers_struct; [done|done|apply sizes_positive]|]. by destruct i.
Qed.

(** The message of a call of the proxy carries its data. *)
Lemma message_carries (session track : Z) bs ms items : is_u32 session -> is_u32 track ->
  Z.of_nat (length bs) < INT32_HALF -> Z.of_nat (length ms) < INT32_HALF -> map item_buffer items = bs ->
  exists data, written (P := P) (do* writeInterfaceToken IRecorderServiceCallback_descriptor in
     do* writeUint32 session in
     do* writeUint32 track in
     do* writeUint32 (Z.of_nat (length bs)) in
     do* for_each items write_item in
     do* writeUint32 (Z.of_nat (length ms)) in
     for_each ms (fun m => writeSized (OfMetaData m))) = Some data /\
    carries (callback_code RECORDER_NOTIFY_VIDEO_TRACK_DATA, data) (session, track, bs, ms) items.
Proof.
  unfold INT32_HALF. intros Hs Ht Hb Hm Hi. assert (length items = length bs) as Hl by (by rewrite <- Hi, length_map).
  pose proof sizes_positive as Hsz.
  assert (transfers (M := M) (B := B) (T := T) (P := P) (do* writeInterfaceToken IRecorderServiceCallback_descriptor in
     do* writeUint32 session in
     do* writeUint32 track in
     do* writeUint32 (Z.of_nat (length bs)) in
     do* for_each items write_item in
     do* writeUint32 (Z.of_nat (length ms)) in
     for_each ms (fun m => writeSized (OfMetaData m)))
    (let* ok := enforceInterface IRecorderServiceCallback_descriptor in let* a := read_video in ret (ok, a))
    (true, (session, track, items, ms))) as Htr.
  { eapply transfers_bind; [apply transfers_Token|]. eapply transfers_end; [|done]. unfold read_video.
    do 3 (eapply transfers_bind; [apply transfers_Uint32|cbv beta]).
    rewrite !u32_small by (unfold is_u32, UINT32_MOD in *; lia). rewrite Nat2Z.id, <- Hl.
    eapply transfers_bind; [apply (transfers_for_each _ _ _ id); intros; apply transfers_item|cbv beta].
    eapply transfers_bind; [apply transfers_Uint32|cbv beta].
    rewrite !u32_small by (unfold is_u32, UINT32_MOD in *; lia). rewrite Nat2Z.id.
    eapply transfers_end; [apply (transfers_for_each _ _ _ id); intros; apply transfers_struct; [done|done|apply sizes_positive]|]. by rewrite !map_id. }
  destruct (transferred _ _ _ Htr) as (data & d' & E & Er). exists data. split; [exact E|].
  apply bind_some in Er as (ok & p1 & Etok & Er). apply bind_some in Er as (a & p2 & Ev & Er). injection Er as -> -> _.
  split_and!; [done|done|]. by exists p1, p2.
Qed.

Lemma Send_keeps l session track bs ms : link_ok l -> event_ok l (Send session track bs ms) ->
  exists l', link_event (Send session track bs ms) l = Some l' /\ link_ok l'.
Proof.
  intros [Lm Lc Ls] (Hs & Ht & Hb & Hm & <- & Hbs). cbn [link_event].
  change (Forall (sent_right (files_of l) track) bs) in Hbs.
  set (session := lk_session l track) in *.
  destruct (packed (files_of l) track bs (lk_proxy l) Hbs Ls) as (items & p' & Ep & Ho & Hp' & Hi & Hk & Hother).
  destruct (message_carries session track bs ms items Hs Ht Hb Hm Hi) as (data & Ed & Hc).
  unfold Bp_NotifyVideoTrackData, bind at 1. rewrite Ep. unfold send. rewrite Ed. unfold modify.
  eexists. split; [reflexivity|]. split; cbn [lk_files lk_session lk_client lk_proxy lk_flying]; [|done|done].
  rewrite Ho. simpl. apply (messages_snoc _ _ _ _ items (sent_set p' track) (sent_set (lk_proxy l))); try done.
  intros t. unfold known_at, data_track. simpl. destruct (Z.eqb_spec t track) as [->|Hne]; [done|]. by apply Hother.
Qed.

(** ** Opening the descriptors that arrive *)

(** What stands in a buffer that arrived: the fields that were sent, and a
    descriptor of the file if there was one. *)
Definition opened (t : gmap Z Z) (i : VideoItem) (b : BnBuffer) : Prop :=
  (exists fd meta_fd, b = with_fds fd meta_fd (item_buffer i)) /\
  match item_files i with None => True | Some (f, _) => 0 < ion_fd b /\ t !! ion_fd b = Some f end.

(** The descriptors that came with the buffers. *)
Fixpoint new_fds (items : list VideoItem) (bs : list BnBuffer) : list Z :=
  match items, bs with
  | i :: items, b :: bs => match item_files i with Some _ => ion_fd b :: new_fds items bs | None => new_fds items bs end
  | _, _ => []
  end.

Definition has_file (i : VideoItem) : Prop := match item_files i with Some (f, _) => f <> -1 | None => True end.

Definition with_table (t : gmap Z Z) (c : Client) : Client := c <| fd_table := t |>.

Lemma dup_table f (c : Client) : exists fd t, client_dup f c = Some (fd, with_table t c) /\ fd_table c ⊆ t /\
  (f <> -1 -> 0 < fd /\ fd_table c !! fd = None /\ t !! fd = Some f).
Proof.
  unfold client_dup. destruct (Z.eqb_spec f (-1)) as [->|Hf].
  - exists (-1), (fd_table c). split_and!; [by destruct c|done|done].
  - destruct (new_fd_fresh (fd_table c)) as [Hn Hp]. eexists (new_fd (fd_table c)), _. split_and!; [reflexivity| |].
    + by apply insert_subseteq.
    + intros _. split_and!; [done|done|]. by rewrite lookup_insert_eq.
Qed.

Lemma open_item_table i (c : Client) : has_file i -> exists b t, open_item i c = Some (b, with_table t c) /\ fd_table c ⊆ t /\
  opened t i b /\ match item_files i with Some _ => fd_table c !! ion_fd b = None | None => True end.
Proof.
  unfold has_file, open_item, opened. destruct i as [[[f g]|] b0]; cbn [item_files item_buffer]; intros Hf.
  - destruct (dup_table f c) as (fd & t & Ed & Ht & Hfd). destruct (Hfd Hf) as (Hp & Hn & Hl).
    change (@dup Client client_descriptors) with (client_dup (M := M) (T := T) (S := S)). unfold bind at 1. rewrite Ed.
    assert (exists m t', dup_opt g (with_table t c) = Some (m, with_table t' c) /\ t ⊆ t') as (m & t' & Em & Ht').
    { destruct g as [g|]; [|by exists (-1), t]. destruct (dup_table g (with_table t c)) as (m & t' & Em & Ht' & _).
      exists m, t'. split; [|done]. etransitivity; [exact Em|]. by destruct c. }
    unfold bind. rewrite Em. eexists _, t'. split_and!; [done|by etransitivity|by eexists _, _|done| |done].
    by eapply lookup_weaken.
  - eexists _, (fd_table c). split_and!; [|done|by eexists _, _|done|done]. by destruct c.
Qed.

Lemma opened_mono t t' i b : t ⊆ t' -> opened t i b -> opened t' i b.
Proof.
  intros Ht [Hb Hi]. split; [done|]. destruct (item_files i) as [[f g]|]; [|done]. destruct Hi as [Hp Hl].
  split; [done|]. by eapply lookup_weaken.
Qed.

Lemma new_fds_opened t items : forall bs, Forall2 (opened t) items bs -> forall fd, fd ∈ new_fds items bs -> is_Some (t !! fd).
Proof.
  induction items as [|i items IH]; intros bs Hf fd; inversion Hf as [|? b ? bs' [_ Hi] Hf']; subst; simpl; [by intros ?%elem_of_nil|].
  destruct (item_files i) as [[f g]|]; [|by apply IH]. rewrite elem_of_cons. intros [->|Hin]; [|by eapply IH].
  destruct Hi as [_ Hl]. by rewrite Hl.
Qed.

Lemma collected items : forall c : Client, Forall has_file items -> exists bs t, collect items open_item c = Some (bs, with_table t c) /\
  fd_table c ⊆ t /\ Forall2 (opened t) items bs /\ NoDup (new_fds items bs) /\
  forall fd, fd ∈ new_fds items bs -> fd_table c !! fd = None.
Proof.
  induction items as [|i items IH]; intros c Hf.
  - exists [], (fd_table c). split_and!; [by destruct c|done|done|constructor|by intros ? ?%elem_of_nil].
  - inversion Hf as [|? ? Hi Hrest]. subst. destruct (open_item_table i c Hi) as (b & t & Eb & Ht & Hb & Hn).
    destruct (IH (with_table t c) Hrest) as (bs & t' & Ebs & Ht' & Hbs & Hnd & Hnew).
    change (fd_table (with_table t c)) with t in *. exists (b :: bs), t'. simpl. unfold bind at 1. rewrite Eb. unfold bind. rewrite Ebs.
    split_and!.
    + by destruct c.
    + by etransitivity.
    + constructor; [|done]. by eapply opened_mono.
    + destruct (item_files i) as [[f g]|] eqn:Ei; [|done]. constructor; [|done]. intros Hin. apply Hnew in Hin.
      destruct Hb as [_ Hb]. rewrite Ei in Hb. destruct Hb as [_ Hl]. congruence.
    + intros fd Hin. assert (fd ∈ new_fds items bs -> fd_table c !! fd = None) as Hrec.
      { intros Hin'. apply Hnew in Hin'. by eapply lookup_weaken_None. }
      destruct (item_files i); [|by apply Hrec]. apply elem_of_cons in Hin as [->|Hin]; [done|by apply Hrec].
Qed.

(** ** Mapping *)

Lemma entry_known (c : Client) t id : id ∈ mapped_set c t <-> is_Some (entry c t id).
Proof. unfold mapped_set, entry. rewrite elem_key_set. unfold kv_mem. destruct (kv_lookup id _); split; try done; by intros [? ?]. Qed.

(** The client with one more mapped buffer. *)
Definition with_entry (t id fd meta_fd size a file : Z) (c : Client) : Client :=
  c <| mappings := <[a := file]> (mappings c) |>
    <| track_buffers_map_ := kv_add t (emplace id (mkBufferInfo fd meta_fd size a) (at_key [] t (track_buffers_map_ c)))
         (track_buffers_map_ c) |>.

Lemma entry_added t id fd meta_fd size a file (c : Client) t' id' : entry c t id = None ->
  entry (with_entry t id fd meta_fd size a file c) t' id' =
  if (t' =? t) && (id' =? id) then Some (mkBufferInfo fd meta_fd size a) else entry c t' id'.
Proof.
  unfold entry, with_entry. simpl. intros Hn. rewrite at_key_add. destruct (Z.eqb_spec t' t) as [->|]; [|done]. simpl.
  rewrite lookup_emplace. destruct (Z.eqb_spec id' id) as [->|]; [by rewrite Hn|]. by destruct (kv_lookup id' _).
Qed.

Lemma memory_added files t id fd meta_fd size (c : Client) : memory_ok files c -> entry c t id = None -> 0 < fd ->
  fd_table c !! fd = Some (files t id) -> (forall t' id' i, entry c t' id' = Some i -> bi_ion_fd i <> fd) ->
  memory_ok files (with_entry t id fd meta_fd size (new_address (mappings c)) (files t id) c).
Proof.
  intros [K1 K2 K3 K4 K5 K6] Hn Hp Hfd Huse. destruct (new_address_fresh (mappings c)) as [Ha Hap].
  set (a := new_address (mappings c)) in *.
  assert (forall t' id' i, entry c t' id' = Some i -> vaddr i <> a) as Hau.
  { intros t' id' i Hi. destruct (K5 _ _ _ Hi) as [_ Hm]. congruence. }
  split; try done.
  - by apply kv_add_ordered.
  - intros t'. unfold with_entry. simpl. rewrite at_key_add. destruct (t' =? t); [|done]. by apply emplace_ordered.
  - intros t' id' i. rewrite entry_added by done. destruct (Z.eqb_spec t' t) as [->|]; simpl; [|apply K4].
    destruct (Z.eqb_spec id' id) as [->|]; [|apply K4]. by intros [= <-].
  - intros t' id' i. rewrite entry_added by done. unfold with_entry. simpl.
    destruct ((t' =? t) && (id' =? id)) eqn:Eq.
    + intros [= <-]. simpl. apply andb_true_iff in Eq as [->%Z.eqb_eq ->%Z.eqb_eq]. by rewrite lookup_insert_eq.
    + intros Hi. rewrite lookup_insert_ne; [by apply K5|]. intros He. by apply (Hau _ _ _ Hi).
  - intros t1 id1 i1 t2 id2 i2. rewrite !entry_added by done.
    destruct ((t1 =? t) && (id1 =? id)) eqn:E1; destruct ((t2 =? t) && (id2 =? id)) eqn:E2; bool_hyps; subst; try done.
    + intros [= <-] Hi [He|He]; simpl in He; [by destruct (Huse _ _ _ Hi)|by destruct (Hau _ _ _ Hi)].
    + intros Hi [= <-] [He|He]; simpl in He; [by destruct (Huse _ _ _ Hi)|by destruct (Hau _ _ _ Hi)].
    + apply K6.
Qed.

(** A descriptor of the application for the buffer [b] of a track: its memory
    is what the buffer stands for. *)
Definition describes (files : Z -> Z -> Z) (t : Z) (m : gmap Z Z) (d : BufferDescriptor) (b : BnBuffer) : Prop :=
  m !! bd_data d = Some (files t (buffer_id b)) /\ bd_buf_id d = buffer_id b /\ bd_size d = bn_size b /\
  bd_timestamp d = bn_timestamp b.

(** The client has mapped more, and nothing else happened to it. *)
Definition maps_more (c c' : Client) : Prop :=
  fd_table c' = fd_table c /\ app_calls c' = app_calls c /\ track_cb_list_ c' = track_cb_list_ c /\ mappings c ⊆ mappings c'.

Lemma maps_more_refl c : maps_more c c.
Proof. done. Qed.

Lemma maps_more_trans c1 c2 c3 : maps_more c1 c2 -> maps_more c2 c3 -> maps_more c1 c3.
Proof. intros (A1 & A2 & A3 & A4) (B1 & B2 & B3 & B4). split_and!; try congruence. by etransitivity. Qed.

Lemma describes_more files t m m' d b : m ⊆ m' -> describes files t m d b -> describes files t m' d b.
Proof. intros Hm (Hd & Hr). split; [by eapply lookup_weaken|done]. Qed.

Lemma maps_entry t id fd meta_fd size (c : Client) : ion_device_ c > 0 -> (forall m, can_map m = true) -> 
  forall b, id = buffer_id b -> fd = ion_fd b -> meta_fd = ion_meta_fd b -> size = capacity b -> entry c t id = None ->
  forall file, fd_table c !! fd = Some file ->
  map_track_buffer t b c = Some (Some (describe (new_address (mappings c)) fd b),
    with_entry t id fd meta_fd size (new_address (mappings c)) file c).
Proof.
  intros Hd Hm b -> -> -> -> Hn file Hfd. destruct (new_address_fresh (mappings c)) as [_ Hp].
  unfold map_track_buffer, bind, gets, id. fold (entry c t (buffer_id b)). rewrite Hn.
  unfold MapBuffer, mmap, bind, gets, id, require. replace (0 <? ion_device_ c) with true by lia. cbn [bi_ion_fd ret].
  rewrite Hfd, Hm. unfold modify, ret. replace (new_address (mappings c) =? 0) with false by lia. done.
Qed.

Lemma known_entry (c : Client) t b info : entry c t (buffer_id b) = Some info ->
  map_track_buffer t b c = Some (Some (describe (vaddr info) (bi_ion_fd info) b), c).
Proof. intros He. unfold map_track_buffer, bind, gets, id. fold (entry c t (buffer_id b)). by rewrite He. Qed.

Context (can_map_always : forall m, can_map m = true).

(** The descriptors of the items are not those of mapped buffers. *)
Definition unused (c : Client) (fds : list Z) : Prop := forall t id i, entry c t id = Some i -> bi_ion_fd i ∉ fds.

Lemma mapped_one files t (c : Client) i b fds items K' : memory_ok files c -> sent_right files t (item_buffer i) ->
  opened (fd_table c) i b -> NoDup (new_fds [i] [b] ++ fds) -> unused c (new_fds [i] [b] ++ fds) ->
  items_ok (mapped_set c t) (i :: items) K' ->
  exists d c', map_track_buffer t b c = Some (Some d, c') /\ memory_ok files c' /\ maps_more c c' /\ unused c' fds /\
    items_ok (mapped_set c' t) items K' /\ (forall t', t' <> t -> mapped_set c' t' = mapped_set c t') /\
    describes files t (mappings c') d (item_buffer i).
Proof.
  intros Hc (Hfile & _) [(fd & meta_fd & Hb) Ho] Hnd Hun Hi.
  assert (buffer_id b = buffer_id (item_buffer i)) as Hid by (by rewrite Hb).
  cbn [items_ok new_fds] in *. destruct (item_files i) as [[f g]|].
  - destruct Hi as (Hnew & -> & Hi). destruct Ho as [Hp Hfd]. rewrite Hfile, <- Hid in Hfd.
    assert (entry c t (buffer_id b) = None) as Hn.
    { destruct (entry c t (buffer_id b)) eqn:Ee; [|done]. destruct Hnew. rewrite <- Hid. apply entry_known. by rewrite Ee. }
    assert (forall t' id' i', entry c t' id' = Some i' -> bi_ion_fd i' <> ion_fd b) as Huse.
    { intros t' id' i' He Hx. apply (Hun _ _ _ He). rewrite Hx. by left. }
    eexists _, _. split; [eapply (maps_entry t (buffer_id b)); try done; destruct Hc; lia|].
    set (c' := with_entry _ _ _ _ _ _ _ _).
    assert (forall t', mapped_set c' t' = if t' =? t then {[buffer_id b]} ∪ mapped_set c t else mapped_set c t') as Hset.
    { intros t'. unfold mapped_set, c', with_entry. simpl. rewrite at_key_add. destruct (t' =? t); [|done]. apply key_set_emplace. }
    split_and!.
    + by apply memory_added.
    + split_and!; try done. by apply insert_subseteq, new_address_fresh.
    + intros t' id' i'. unfold c'. rewrite entry_added by done. destruct ((t' =? t) && _).
      * intros [= <-] Hin. simpl in Hin. by inversion Hnd.
      * intros He Hin. apply (Hun _ _ _ He). by right.
    + rewrite Hset, Z.eqb_refl, Hid. done.
    + intros t' Ht'. rewrite Hset. by apply Z.eqb_neq in Ht' as ->.
    + unfold describes, describe. rewrite Hb. simpl. split_and!; try done. by rewrite lookup_insert_eq, Hb.
  - destruct Hi as [Hin Hi]. rewrite <- Hid in Hin. apply entry_known in Hin as [info He].
    eexists _, c. split; [by apply known_entry|]. split_and!; try done.
    unfold describes, describe. rewrite Hb. simpl. split_and!; try done. rewrite <- Hid. by apply Hc.
Qed.

Lemma mapped_all files t K' : forall items bs (c : Client), memory_ok files c ->
  Forall (sent_right files t) (map item_buffer items) -> Forall2 (opened (fd_table c)) items bs ->
  NoDup (new_fds items bs) -> unused c (new_fds items bs) -> items_ok (mapped_set c t) items K' ->
  exists ds c', map_track_buffers t bs c = Some (Some ds, c') /\ memory_ok files c' /\ maps_more c c' /\
    K' = mapped_set c' t /\ (forall t', t' <> t -> mapped_set c' t' = mapped_set c t') /\
    Forall2 (describes files t (mappings c')) ds (map item_buffer items).
Proof.
  induction items as [|i items IH]; intros bs c Hc Hr Ho Hnd Hun Hi.
  - inversion Ho. subst. simpl in *. exists [], c. by split_and!.
  - inversion Ho as [|? b ? bs' Hob Hobs]. subst. inversion Hr as [|? ? Hri Hrs]. subst.
    assert (new_fds (i :: items) (b :: bs') = new_fds [i] [b] ++ new_fds items bs') as Enew.
    { simpl. by destruct (item_files i). }
    rewrite Enew in Hnd, Hun.
    destruct (mapped_one files t c i b (new_fds items bs') items K') as (d & c1 & E1 & Hc1 & M1 & U1 & I1 & O1 & D1); try done.
    destruct (IH bs' c1) as (ds & c2 & E2 & Hc2 & M2 & HK & O2 & D2); try done.
    { destruct M1 as [-> _]. done. }
    { by apply NoDup_app in Hnd as (_ & _ & ?). }
    exists (d :: ds), c2. split_and!; try done.
    + simpl. unfold bind at 1. rewrite E1. unfold bind. by rewrite E2.
    + by eapply maps_more_trans.
    + intros t' Ht'. by rewrite O2, O1.
    + constructor; [|done]. eapply describes_more; [|exact D1]. apply M2.
Qed.

(** ** Delivery *)

Lemma memory_grows files (c c' : Client) : memory_ok files c -> ion_device_ c' = ion_device_ c ->
  track_buffers_map_ c' = track_buffers_map_ c -> fd_table c ⊆ fd_table c' -> mappings c ⊆ mappings c' -> memory_ok files c'.
Proof.
  intros [K1 K2 K3 K4 K5 K6] E1 E2 E3 E4. unfold entry in *.
  split; unfold entry; rewrite ?E1, ?E2; try done.
  - intros t id i Hi. destruct (K4 t id i Hi). split; [done|]. by eapply lookup_weaken.
  - intros t id i Hi. destruct (K5 t id i Hi). split; [done|]. by eapply lookup_weaken.
Qed.

Lemma items_files files t K' : forall items K, items_ok K items K' -> Forall (sent_right files t) (map item_buffer items) ->
  Forall has_file items.
Proof.
  induction items as [|i items IH]; intros K Hi Hr; [constructor|]. inversion Hr as [|? ? Hri Hrs]. subst.
  cbn [items_ok] in Hi. unfold has_file at 1. destruct Hri as (_ & Hne). constructor.
  - unfold has_file. destruct (item_files i) as [[f g]|]; [|done]. by destruct Hi as (_ & -> & _).
  - destruct (item_files i) as [[f g]|]; [destruct Hi as (_ & _ & Hi)|destruct Hi as (_ & Hi)]; by eapply IH.
Qed.

Lemma to_track_eq session track a (c : Client) :
  to_track session track a c = Some (tt, c <| app_calls := app_calls c ++ if has_track_cb session track c then [a] else [] |>).
Proof.
  unfold to_track, bind, gets, id, app, modify, ret. destruct (has_track_cb session track c); [done|].
  rewrite app_nil_r. by destruct c.
Qed.

(** A descriptor of the application for a buffer that was sent: it shows the
    memory of the service's buffer. *)
Definition shows (m : gmap Z Z) (d : BufferDescriptor) (b : BnBuffer) : Prop :=
  m !! bd_data d = Some (file_of (ion_fd b)) /\ bd_buf_id d = buffer_id b /\ bd_size d = bn_size b /\
  bd_timestamp d = bn_timestamp b.

Lemma describes_shows files t m ds bs : Forall (sent_right files t) bs -> Forall2 (describes files t m) ds bs -> Forall2 (shows m) ds bs.
Proof.
  intros Hr Hd. induction Hd as [|d b ds bs [Hm Hd] _ IH]; [constructor|]. inversion Hr as [|? ? (Hf & _) Hr']. subst.
  constructor; [|by apply IH]. split; [by rewrite Hm, Hf|done].
Qed.

(** The client's part of a delivery. *)
Lemma received files known box flying sent (c : Client) session track bs ms m : memory_ok files c ->
  (forall t, known t = mapped_set c t) ->
  messages_ok files known (m :: box) ((session, track, bs, ms) :: flying) sent ->
  exists ds c', callback_onTransact (fst m) (snd m) c =
      Some (tt, c' <| app_calls := app_calls c ++ if has_track_cb session track c then [TrackData session track ds ms] else [] |>) /\
    memory_ok files c' /\ messages_ok files (mapped_set c') box flying sent /\
    Forall2 (shows (mappings c')) ds bs /\ track_cb_list_ c' = track_cb_list_ c /\ mappings c ⊆ mappings c'.
Proof.
  intros Hc Hk (items & K' & (Hcode & Hbs & p1 & p2 & Etok & Er) & Hr & Hi & Hm). cbn in Hbs, Er, Hr, Hi, Hm. subst bs.
  rewrite Hk in Hi. pose proof (items_files _ _ _ _ _ Hi Hr) as Hf.
  destruct (collected items c Hf) as (bs & t & Ec & Ht & Ho & Hnd & Hnew).
  assert (memory_ok files (with_table t c)) as Hc1 by (by eapply memory_grows).
  destruct (mapped_all files track K' items bs (with_table t c)) as (ds & c' & Em & Hc' & Hmore & HK & Hother & Hd); try done.
  { intros t' id i He Hin. apply Hnew in Hin. destruct (mo_fd _ _ Hc t' id i He) as [_ Hfd]. congruence. }
  apply (describes_shows _ _ _ _ _ Hr) in Hd.
  destruct Hmore as (_ & Happ & Hcb & Hmap). change (app_calls (with_table t c)) with (app_calls c) in Happ.
  change (track_cb_list_ (with_table t c)) with (track_cb_list_ c) in Hcb.
  exists ds, c'. split_and!; try done.
  - unfold callback_onTransact. rewrite Etok, Hcode, callback_of_callback_code. cbn [callback_dispatch].
    unfold on_notify_video_track_data, handle. rewrite Er. unfold bind at 1.
    rewrite Ec. cbn [cb_NotifyVideoTrackData ServiceCallbackHandler].
    unfold Client_NotifyVideoTrackData, bind. rewrite Em, to_track_eq, Happ. unfold has_track_cb. by rewrite Hcb.
  - eapply messages_same; [|done|exact Hm]. intros t'. unfold known_at, data_track. simpl.
    destruct (Z.eqb_spec t' track) as [->|Hne]; [done|]. by rewrite Hk, Hother.
Qed.

(** A link with data on the way delivers them. *)
Lemma Deliver_keeps l session track bs ms rest : link_ok l -> lk_flying l = (session, track, bs, ms) :: rest ->
  exists ds l', link_event Deliver l = Some l' /\ link_ok l' /\ lk_flying l' = rest /\
    Forall2 (shows (mappings (lk_client l'))) ds bs /\
    app_calls (lk_client l') = app_calls (lk_client l) ++
      (if has_track_cb session track (lk_client l) then [TrackData session track ds ms] else []) /\
    track_cb_list_ (lk_client l') = track_cb_list_ (lk_client l) /\ mappings (lk_client l) ⊆ mappings (lk_client l').
Proof.
  intros [Lm Lc Ls] Ef. rewrite Ef in Lm. destruct (outbox (lk_proxy l)) as [|m box] eqn:Eo; [by destruct Lm|].
  destruct (received (files_of l) _ box rest _ (lk_client l) session track bs ms m Lc (fun t => eq_refl) Lm)
    as (ds & c' & Ec & Hc' & Hm & Hd & Hcb & Hmap).
  cbn [link_event]. rewrite Eo. destruct m as [code data]. cbn [fst snd] in Ec. rewrite Ec, Ef. exists ds.
  eexists. split; [reflexivity|]. split; [|by split_and!].
  split; cbn [lk_files lk_session lk_client lk_proxy lk_flying tail]; [done| |done].
  by eapply memory_grows.
Qed.

Lemma Deliver_nothing l : link_ok l -> lk_flying l = [] -> link_event Deliver l = Some l.
Proof.
  intros [Lm _ _] Ef. rewrite Ef in Lm. cbn [link_event]. by destruct (outbox (lk_proxy l)).
Qed.

(** ** Deletion of a track *)

Definition entry_fds (m : kv BufferInfo) : list Z := map (fun p => bi_ion_fd (snd p)) m.
Definition entry_addresses (m : kv BufferInfo) : list Z := map (fun p => vaddr (snd p)) m.

(** The client without some descriptors and mappings. *)
Definition with_tables (t m : gmap Z Z) (c : Client) : Client := c <| fd_table := t |> <| mappings := m |>.

Definition mapped_entry (c : Client) (p : Z * BufferInfo) : Prop :=
  0 < bi_ion_fd (snd p) /\ is_Some (fd_table c !! bi_ion_fd (snd p)) /\ 0 < vaddr (snd p) /\ is_Some (mappings c !! vaddr (snd p)).

Lemma UnmapBuffer_mapped k i (c : Client) : 0 < ion_device_ c -> mapped_entry c (k, i) -> exists i',
  UnmapBuffer i c = Some ((NO_ERROR, i'), with_tables (delete (bi_ion_fd i) (fd_table c)) (delete (vaddr i) (mappings c)) c).
Proof.
  intros Hd (Hf & [f Ef] & Ha & [a Ea]). simpl in *. exists (mkBufferInfo (-1) (bi_ion_meta_fd i) (bi_size i) 0).
  unfold UnmapBuffer, munmap, close, require, bind, gets, id, modify, ret. replace (0 <? ion_device_ c) with true by lia.
  replace (vaddr i =? 0) with false by lia. rewrite Ea. simpl. replace (bi_ion_fd i =? -1) with false by lia.
  simpl. rewrite Ef. simpl. by destruct c.
Qed.

Lemma unmapped_all m : forall c : Client, 0 < ion_device_ c -> Forall (mapped_entry c) m -> NoDup (entry_fds m) ->
  NoDup (entry_addresses m) -> exists m' t ms, unmap_all m c = Some ((NO_ERROR, m'), with_tables t ms c) /\
    (forall fd, fd ∉ entry_fds m -> t !! fd = fd_table c !! fd) /\
    (forall a, a ∉ entry_addresses m -> ms !! a = mappings c !! a).
Proof.
  induction m as [|[k i] m IH]; intros c Hd Hm Hf Ha.
  - exists [], (fd_table c), (mappings c). split_and!; [by destruct c|done|done].
  - inversion Hm as [|? ? Hi Hr]. subst. apply NoDup_cons in Hf as [Hf1 Hf2]. apply NoDup_cons in Ha as [Ha1 Ha2]. simpl in *.
    destruct (UnmapBuffer_mapped k i c Hd Hi) as [i' Ei].
    destruct (IH (with_tables (delete (bi_ion_fd i) (fd_table c)) (delete (vaddr i) (mappings c)) c)) as (m' & t & ms & Em & Ht & Hms); try done.
    { apply Forall_forall. intros [k' i1] Hin. rewrite Forall_forall in Hr. destruct (Hr _ Hin) as (G1 & G2 & G3 & G4).
      unfold mapped_entry in *. simpl in *. rewrite !lookup_delete_ne; [done| |].
      - intros He. apply Ha1. unfold entry_addresses. rewrite He. change (vaddr i1) with ((fun p : Z * BufferInfo => vaddr (snd p)) (k', i1)). by apply list_elem_of_fmap_2.
      - intros He. apply Hf1. unfold entry_fds. rewrite He. change (bi_ion_fd i1) with ((fun p : Z * BufferInfo => bi_ion_fd (snd p)) (k', i1)). by apply list_elem_of_fmap_2. }
    exists ((k, i') :: m'), t, ms. split_and!.
    + unfold bind at 1. rewrite Ei. simpl. unfold bind. rewrite Em. by destruct c.
    + intros fd Hfd. rewrite not_elem_of_cons in Hfd. destruct Hfd as [Hn Hfd]. rewrite Ht by done. simpl. by rewrite lookup_delete_ne.
    + intros a Haa. rewrite not_elem_of_cons in Haa. destruct Haa as [Hn Haa]. rewrite Hms by done. simpl. by rewrite lookup_delete_ne.
Qed.

(** The client with the buffers of a track let go. *)
Lemma unmapped_track files track (c : Client) m : memory_ok files c -> kv_lookup track (track_buffers_map_ c) = Some m ->
  exists m' t ms, unmap_all m c = Some ((NO_ERROR, m'), with_tables t ms c) /\
    memory_ok files ((with_tables t ms c) <| track_buffers_map_ := kv_remove track (track_buffers_map_ c) |>).
Proof.
  intros Hc El. assert (at_key [] track (track_buffers_map_ c) = m) as Em by (unfold at_key; by rewrite El).
  pose proof (mo_ordered_in _ _ Hc track) as Hord. rewrite Em in Hord.
  assert (forall k i, (k, i) ∈ m -> entry c track k = Some i) as Hin.
  { intros k i Hi. unfold entry. rewrite Em. by apply kv_in_lookup. }
  destruct (unmapped_all m c) as (m' & t & ms & Eu & Ht & Hms).
  - apply Hc.
  - apply Forall_forall. intros [k i] Hi%Hin. destruct (mo_fd _ _ Hc _ _ _ Hi) as [? E1]. destruct (mo_address _ _ Hc _ _ _ Hi) as [? E2].
    split_and!; simpl; rewrite ?E1, ?E2; done.
  - apply NoDup_by; [by apply kv_ordered_NoDup|]. intros [k i] [k' i'] Hi%Hin Hi'%Hin He. by apply (mo_own _ _ Hc _ _ _ _ _ _ Hi Hi'); left.
  - apply NoDup_by; [by apply kv_ordered_NoDup|]. intros [k i] [k' i'] Hi%Hin Hi'%Hin He. by apply (mo_own _ _ Hc _ _ _ _ _ _ Hi Hi'); right.
  - exists m', t, ms. split; [done|].
    set (c' := (with_tables t ms c) <| track_buffers_map_ := kv_remove track (track_buffers_map_ c) |>).
    assert (forall t' id i, entry c' t' id = Some i -> t' <> track /\ entry c t' id = Some i) as Hent.
    { intros t' id i. unfold entry, c'. simpl. rewrite at_key_remove by apply Hc. by destruct (Z.eqb_spec t' track). }
    assert (forall t' id i, entry c' t' id = Some i -> (bi_ion_fd i ∉ entry_fds m) /\ (vaddr i ∉ entry_addresses m)) as Hno.
    { intros t' id i (Hne & He)%Hent. split; intros ([k i'] & Ei & Hi%Hin)%list_elem_of_fmap; simpl in Ei.
      - destruct (mo_own _ _ Hc _ _ _ _ _ _ He Hi) as [? _]; [by left|done].
      - destruct (mo_own _ _ Hc _ _ _ _ _ _ He Hi) as [? _]; [by right|done]. }
    split.
    + apply Hc.
    + by apply kv_remove_ordered, Hc.
    + intros t'. unfold c'. simpl. rewrite at_key_remove by apply Hc. destruct (t' =? track); [done|apply Hc].
    + intros t' id i Hi. destruct (Hno _ _ _ Hi) as [Hn _]. apply Hent in Hi as [_ Hi]. unfold c'. simpl. rewrite Ht by done. by apply Hc.
    + intros t' id i Hi. destruct (Hno _ _ _ Hi) as [_ Hn]. apply Hent in Hi as [_ Hi]. unfold c'. simpl. rewrite Hms by done. by apply Hc.
    + intros t1 id1 i1 t2 id2 i2 [_ H1i]%Hent [_ H2i]%Hent. by apply (mo_own _ _ Hc).
Qed.

Lemma messages_forget files files' track box : forall known known' flying sent sent',
  (forall t, t <> track -> files' t = files t) -> (forall t, t <> track -> known' t = known t) ->
  (forall t, t <> track -> sent' t = sent t) -> known' track = sent' track ->
  Forall (fun d => data_track d <> track) flying ->
  messages_ok files known box flying sent -> messages_ok files' known' box flying sent'.
Proof.
  induction box as [|m box IH]; intros known known' [|d flying] sent sent' Hf Hk Hs Ht Hd; simpl; try done.
  - intros Hm t. destruct (Z.eq_dec t track) as [->|Hne]; [done|]. by rewrite Hk, Hs.
  - inversion Hd as [|? ? Hd1 Hd2]. subst. intros (items & K' & Hc & Hr & Hi & Hm). exists items, K'.
    rewrite Hk by done. split_and!; try done.
    + eapply Forall_impl; [exact Hr|]. intros b. unfold sent_right. by rewrite Hf.
    + eapply IH; [exact Hf| |exact Hs| |exact Hd2|exact Hm].
      * intros t Hne. unfold known_at. destruct (t =? data_track d); [done|]. by apply Hk.
      * unfold known_at. replace (track =? data_track d) with false by (symmetry; apply Z.eqb_neq; congruence). done.
Qed.

Lemma let_go files track (c : Client) : memory_ok files c ->
  exists c1, unmap_track track c = Some (NO_ERROR, c1) /\ memory_ok files c1 /\
    track_buffers_map_ c1 = kv_remove track (track_buffers_map_ c).
Proof.
  intros Hc. unfold unmap_track, bind at 1, gets, id. destruct (kv_lookup track (track_buffers_map_ c)) as [m|] eqn:El.
  - destruct (unmapped_track files track c m Hc El) as (m' & t & ms & Eu & Hc'). unfold bind at 1. rewrite Eu. simpl.
    unfold bind, modify, ret. by eexists.
  - exists c. split_and!; try done. symmetry. by apply kv_remove_absent.
Qed.

(** The client is connected and has the track. *)
Definition knows_track (session track : Z) (c : Client) : bool :=
  recorder_service_ c && match kv_lookup session (sessions_ c) with Some tracks => kv_mem track tracks | None => false end.

(** What a deletion of a track does to the memory: nothing, or the buffers of
    the track are let go, whatever the result is. *)
Lemma deletion files session track r (c c' : Client) : memory_ok files c -> Client_DeleteVideoTrack session track c = Some (r, c') ->
  (c' = c /\ r <> NO_ERROR /\ knows_track session track c = false) \/ (memory_ok files c' /\ track_buffers_map_ c' = kv_remove track (track_buffers_map_ c)).
Proof.
  intros Hc. unfold Client_DeleteVideoTrack, on_track, in_service, CheckServiceStatus, knows_track, bind at 1, gets at 1.
  destruct (recorder_service_ c); [|intros [= <- <-]; by left]. unfold bind at 1, gets at 1, id at 1.
  destruct (kv_lookup session (sessions_ c)) as [l|]; [|intros [= <- <-]; by left].
  destruct (kv_mem track l); [|intros [= <- <-]; by left].
  destruct (let_go files track c Hc) as (c1 & E1 & Hc1 & Hm1). unfold bind at 1. rewrite E1. simpl.
  unfold with_id, bind at 1, gets, id. destruct (0 <? client_id_ c1); [|done].
  unfold bind at 1, remote. destruct (rs_DeleteVideoTrack _ _ _ _) as [[r1 sv]|]; [|done].
  destruct (r1 =? NO_ERROR); cbn [negb]; intros Heq; injection Heq as <- <-; right; split; try done; by eapply memory_grows.
Qed.

Lemma mapped_set_removed track (c c' : Client) : kv_ordered (track_buffers_map_ c) ->
  track_buffers_map_ c' = kv_remove track (track_buffers_map_ c) ->
  forall t, mapped_set c' t = if t =? track then ∅ else mapped_set c t.
Proof. intros Ho Hm t. unfold mapped_set. rewrite Hm, at_key_remove by done. by destruct (t =? track). Qed.

Lemma memory_renamed files files' track (c : Client) : memory_ok files c -> mapped_set c track = ∅ ->
  (forall t, t <> track -> files' t = files t) -> memory_ok files' c.
Proof.
  intros [K1 K2 K3 K4 K5 K6] He Hf. assert (forall t id i, entry c t id = Some i -> files' t = files t) as Hno.
  { intros t id i Hi. apply Hf. intros ->. assert (id ∈ mapped_set c track) as Hin by (apply entry_known; by rewrite Hi).
    rewrite He in Hin. by apply elem_of_empty in Hin. }
  split; try done; intros t id i Hi; rewrite (Hno _ _ _ Hi); [by apply K4|by apply K5].
Qed.

Lemma Delete_keeps l session track next f l' : link_ok l -> event_ok l (DeleteTrack session track next f) ->
  link_event (DeleteTrack session track next f) l = Some l' -> link_ok l'.
Proof.
  intros [Lm Lc Ls] [Hd Hgrant]. cbn [link_event].
  destruct (Client_DeleteVideoTrack session track (lk_client l)) as [[r c]|] eqn:Ed; [|done].
  destruct (Z.eqb_spec r NO_ERROR) as [->|Hr].
  - unfold Bp_NotifyDeleteVideoTrack, modify. intros Heq. injection Heq as <-.
    destruct (deletion (files_of l) session track _ _ _ Lc Ed) as [(_ & Hn & _)|[Hc Hm]]; [done|].
    assert (forall t, mapped_set c t = if t =? track then ∅ else mapped_set (lk_client l) t) as Hset by (apply mapped_set_removed; [apply Lc|done]).
    assert (mapped_set c track = ∅) as Hnone by (by rewrite Hset, Z.eqb_refl).
    match goal with |- link_ok ?l' => assert (forall t, t <> track -> files_of l' t = files_of l t) as Hfiles end.
    { intros t Ht. unfold files_of. cbn. apply Z.eqb_neq in Ht as ->. by rewrite andb_false_r. }
    split; cbn [lk_client lk_proxy lk_flying]; [| |by apply kv_remove_ordered].
    + eapply messages_forget; [| | | |exact Hd|exact Lm].
      * exact Hfiles.
      * intros t Ht. rewrite Hset. by apply Z.eqb_neq in Ht as ->.
      * intros t Ht. unfold sent_set. simpl. rewrite at_key_remove by done. by apply Z.eqb_neq in Ht as ->.
      * rewrite Hnone. unfold sent_set. simpl. by rewrite at_key_remove, Z.eqb_refl.
    + eapply memory_renamed; [exact Hc|exact Hnone|exact Hfiles].
  - intros Heq. injection Heq as <-. destruct (Hgrant _ _ eq_refl) as [?|Hc]; [done|]. subst c. by split.
Qed.

(** ** A run of a link *)

(** The states that a link gets to from [l0]. *)
Inductive link_reaches (l0 : Link) : Link -> Prop :=
| reaches_start : link_reaches l0 l0
| reaches_step l e l' : link_reaches l0 l -> event_ok l e -> link_event e l = Some l' -> link_reaches l0 l'.

(** A link before anything was sent: the client has opened the ION device. *)
Record link_start (l : Link) : Prop := {
  ls_sent : sent_buffers (lk_proxy l) = [];
  ls_outbox : outbox (lk_proxy l) = [];
  ls_flying : lk_flying l = [];
  ls_mapped : track_buffers_map_ (lk_client l) = [];
  ls_device : 0 < ion_device_ (lk_client l)
}.

Lemma start_ok l : link_start l -> link_ok l.
Proof.
  intros [E1 E2 E3 E4 E5]. split.
  - rewrite E2, E3. intros t. unfold mapped_set, sent_set. by rewrite E1, E4.
  - split; unfold entry; rewrite ?E4; done.
  - by rewrite E1.
Qed.

Lemma reaches_ok l0 l : link_start l0 -> link_reaches l0 l -> link_ok l.
Proof.
  intros Hs Hr. induction Hr as [|l e l' _ IH He El]; [by apply start_ok|]. destruct e as [session track bs ms| |session track next f].
  - destruct (Send_keeps l session track bs ms IH He) as (l1 & E1 & H1l). congruence.
  - destruct (lk_flying l) as [|[[[session track] bs] ms] rest] eqn:Ef.
    + rewrite (Deliver_nothing l IH Ef) in El. congruence.
    + destruct (Deliver_keeps l session track bs ms rest IH Ef) as (ds & l1 & E1 & H1l & _). congruence.
  - by eapply Delete_keeps.
Qed.

Fixpoint delivers (n : nat) (l : Link) : option Link :=
  match n with O => Some l | Datatypes.S n => match link_event Deliver l with Some l => delivers n l | None => None end end.

(** The data [d] as the application gets them. *)
Definition arrives_as (m : gmap Z Z) (a : AppCall M) (d : VideoData) : Prop :=
  exists ds, a = TrackData (fst (fst (fst d))) (data_track d) ds (snd d) /\ Forall2 (shows m) ds (snd (fst d)).

(** The data that the application asked for. *)
Definition wanted (c : Client) (d : VideoData) : bool := has_track_cb (fst (fst (fst d))) (data_track d) c.

Lemma arrives_more m m' a d : m ⊆ m' -> arrives_as m a d -> arrives_as m' a d.
Proof.
  intros Hm (ds & Ea & Hd). exists ds. split; [done|]. eapply Forall2_impl; [exact Hd|]. intros x b (Hx & Hr).
  split; [by eapply lookup_weaken|done].
Qed.

Lemma delivered_all : forall flying l, link_ok l -> lk_flying l = flying ->
  exists l' calls, delivers (length flying) l = Some l' /\ lk_flying l' = [] /\
    app_calls (lk_client l') = app_calls (lk_client l) ++ calls /\
    mappings (lk_client l) ⊆ mappings (lk_client l') /\
    Forall2 (arrives_as (mappings (lk_client l'))) calls (List.filter (wanted (lk_client l)) flying).
Proof.
  induction flying as [|[[[session track] bs] ms] rest IH]; intros l Hl Ef.
  - exists l, []. split_and!; try done. by rewrite app_nil_r.
  - destruct (Deliver_keeps l session track bs ms rest Hl Ef) as (ds & l1 & E1 & Hl1 & Ef1 & Hd & Ha & Hcb & Hm).
    destruct (IH l1 Hl1 Ef1) as (l' & calls & E2 & Ef2 & Ha2 & Hm2 & Hc).
    assert (forall d, wanted (lk_client l1) d = wanted (lk_client l) d) as Hw by (intros d; unfold wanted, has_track_cb; by rewrite Hcb).
    rewrite (filter_ext _ _ Hw) in Hc. exists l'. eexists. split_and!.
    + cbn [delivers length]. by rewrite E1.
    + done.
    + rewrite Ha2, Ha, <- app_assoc. reflexivity.
    + by etransitivity.
    + cbn [List.filter]. unfold wanted at 1. unfold data_track. cbn [fst snd]. destruct (has_track_cb session track (lk_client l)); [|done].
      simpl. constructor; [|done]. apply (arrives_more (mappings (lk_client l1))); [done|]. by exists ds.
Qed.

(** C10. Video data that are on the way reach the application, in order and
    with the right memory.  From every state that sends, deliveries and
    deletions of tracks lead to, in which no track id is of two sessions at a
    time, deletions are granted and come when none of the track's data are on
    the way, and descriptors can be mapped: taking the messages one after the
    other is possible, it empties the queue, and the application is called
    once for each message of a track with a callback, and not for the others.
    The buffers of the call have the ids, sizes and time stamps that were
    sent, and they show the file of the service's descriptor, though the
    descriptor comes with the first frame in a buffer only.  Without these
    conditions: [sessions_share_memory], [refused_deletion_breaks_buffers]. *)
Theorem data_on_the_way_arrive l0 l : link_start l0 -> link_reaches l0 l ->
  exists l' calls, delivers (length (lk_flying l)) l = Some l' /\ lk_flying l' = [] /\
    app_calls (lk_client l') = app_calls (lk_client l) ++ calls /\
    Forall2 (arrives_as (mappings (lk_client l'))) calls (List.filter (wanted (lk_client l)) (lk_flying l)).
Proof.
  intros Hs Hr. destruct (delivered_all _ l (reaches_ok l0 l Hs Hr) eq_refl) as (l' & calls & E & Ef & Ha & _ & Hc).
  by exists l', calls.
Qed.

(** ** A deletion that the service refuses *)

Lemma mapped_nowhere t b (c : Client) : 0 < ion_device_ c -> entry c t (buffer_id b) = None -> ion_fd b = -1 ->
  fd_table c !! (-1) = None -> exists c', map_track_buffer t b c = Some (Some (describe MAP_FAILED (-1) b), c') /\
    app_calls c' = app_calls c /\ track_cb_list_ c' = track_cb_list_ c.
Proof.
  intros Hd Hn Hb Hfd. unfold map_track_buffer, bind, gets, id. fold (entry c t (buffer_id b)). rewrite Hn.
  unfold MapBuffer, mmap, bind, gets, id, require. replace (0 <? ion_device_ c) with true by lia. cbn [bi_ion_fd ret].
  rewrite Hb, Hfd. unfold modify, ret. by eexists.
Qed.

(** C25. A deletion of a video track that the service refuses breaks the track:
    the client has let go of the mapped buffers before it asks, and the service
    still takes them for known.  The next frame in such a buffer comes without
    a descriptor, the client maps the descriptor -1, takes the error of [mmap]
    for an address, and hands it to the application as the data of the frame. *)
Theorem refused_deletion_breaks_buffers l session track next f r c b : link_ok l -> lk_flying l = [] ->
  knows_track session track (lk_client l) = true ->
  Client_DeleteVideoTrack session track (lk_client l) = Some (r, c) -> r <> NO_ERROR ->
  has_track_cb session track c = true -> fd_table c !! (-1) = None ->
  is_u32 session -> is_u32 track -> buffer_id b ∈ sent_set (lk_proxy l) track -> sent_right (files_of l) track b ->
  exists l1 l2 l3, link_event (DeleteTrack session track next f) l = Some l1 /\ link_event (Send session track [b] []) l1 = Some l2 /\
    link_event Deliver l2 = Some l3 /\
    app_calls (lk_client l3) = app_calls c ++ [TrackData session track [describe MAP_FAILED (-1) b] []].
Proof.
  intros [Lm Lc Ls] Ef Hknow Ed Hr Hcb Hfd Hs Ht Hsent Hb. rewrite Ef in Lm.
  destruct (outbox (lk_proxy l)) as [|m box] eqn:Eo; [clear Lm|by destruct Lm].
  destruct (deletion (files_of l) session track r _ _ Lc Ed) as [(_ & _ & Hno)|[Hc Hm]]; [congruence|].
  destruct (packed (files_of l) track [b] (lk_proxy l)) as (items & p' & Ep & Ho & _ & Hi & Hk & _); [by apply Forall_singleton|done|].
  destruct (message_carries session track [b] [] items Hs Ht) as (data & Edata & _ & _ & p1 & p2 & Etok & Er);
    [unfold INT32_HALF; simpl; lia|unfold INT32_HALF; simpl; lia|done|].
  destruct items as [|i [|]]; [done| |done]. injection Hi as Hi. cbn [items_ok] in Hk. rewrite Hi in Hk.
  assert (item_files i = None) as Hif by (destruct (item_files i) as [[f0 g]|]; [by destruct Hk|done]).
  assert (entry c track (buffer_id b) = None) as Hn.
  { unfold entry. rewrite Hm, at_key_remove by apply Lc. by rewrite Z.eqb_refl. }
  destruct (mapped_nowhere track (with_fds (-1) (-1) b) c) as (c' & Emap & Happ & Hcb'); [apply Hc|done|done|done|].
  cbn [link_event]. rewrite Ed. replace (r =? NO_ERROR) with false by (symmetry; by apply Z.eqb_neq).
  do 3 eexists. split; [reflexivity|]. cbn [lk_proxy lk_client lk_flying lk_files].
  unfold Bp_NotifyVideoTrackData, bind at 1. rewrite Ep. unfold send. rewrite Edata. unfold modify. split; [reflexivity|].
  cbn [lk_proxy lk_client lk_flying lk_files]. rewrite Ho, Eo.
  match goal with |- context [outbox ?p] => change (outbox p) with [(callback_code RECORDER_NOTIFY_VIDEO_TRACK_DATA, data)] end.
  unfold callback_onTransact. cbn [snd] in Etok. rewrite Etok, callback_of_callback_code. cbn [callback_dispatch].
  unfold on_notify_video_track_data, handle. rewrite Er. cbn [fst snd data_track collect]. unfold open_item. rewrite Hif, Hi.
  unfold bind, ret. cbn [cb_NotifyVideoTrackData ServiceCallbackHandler]. unfold Client_NotifyVideoTrackData. cbn [map_track_buffers].
  unfold bind, ret. rewrite Emap. rewrite to_track_eq. split; [reflexivity|]. cbn [lk_client app_calls]. unfold has_track_cb in *.
  by rewrite Hcb', Hcb, Happ.
Qed.
End Transfer.

Module TransferDemo.
Import ServiceDemo.

Definition above (t : gmap Z Z) : Z := 1 + foldr Z.max 0 (map fst (map_to_list t)).

Lemma above_all l k : k ∈ l -> k <= foldr Z.max 0 l.
Proof. induction l as [|x l IH]; [by intros ?%elem_of_nil|]. simpl. intros [->|Hk]%elem_of_cons; [lia|]. apply IH in Hk. lia. Qed.

Lemma above_pos l : 0 <= foldr Z.max 0 l.
Proof. induction l; simpl; lia. Qed.

Lemma above_fresh t : t !! above t = None /\ 0 < above t.
Proof.
  unfold above. split; [|pose proof (above_pos (map fst (map_to_list t))); lia]. apply eq_None_not_Some. intros [f Hf].
  apply elem_of_map_to_list in Hf. apply (list_elem_of_fmap_2 fst), above_all in Hf. change (fst <$> map_to_list t) with (map fst (map_to_list t)) in Hf.
  cbn [fst] in Hf. lia.
Qed.

#[export] Instance demo_platform : ClientPlatform := {|
  new_fd := above; new_fd_fresh := above_fresh; new_address := above; new_address_fresh := above_fresh;
  can_map := fun _ => true; ion_open := 3
|}.

Lemma demo_maps m : can_map m = true.
Proof. done. Qed.

(** The service's descriptors 10 and 11, of session 1, are of the files 110
    and 111; 20, of session 2, is of file 120. *)
Definition demo_file (fd : Z) : Z := 100 + fd.
Definition demo_files (s t id : Z) : Z := 99 + 10 * s + id.

Definition demo_buffer (id : Z) : BnBuffer := mkBnBuffer (9 + id) (-1) 4096 5000 640 480 id 0 8192.

Abbreviation DemoLink := (Link (M := Z) (T := Z) (P := ListParcel) (S := DemoService)).

(** A client with track 7 in session 1. *)
Definition demo_client : RecorderClient (M := Z) (T := Z) (S := DemoService) :=
  (RecorderClient_new connected) <| ion_device_ := 3 |> <| track_cb_list_ := [(1, [(7, tt)])] |>.

Definition demo_link : DemoLink := mkLink CallbackProxy_new demo_client [] demo_files (fun _ => 1).

(** The second message has one buffer that is sent again, and a new one. *)
Definition first_data : LinkEvent := Send 1 7 [demo_buffer 1] [].
Definition second_data : LinkEvent := Send 1 7 [demo_buffer 1; demo_buffer 2] [].

Definition after (e : LinkEvent) (l : DemoLink) : DemoLink := default demo_link (link_event demo_file e l).

Definition link1 : DemoLink := after first_data demo_link.
Definition link2 : DemoLink := after second_data link1.

Lemma sends1 : link_event demo_file first_data demo_link = Some link1.
Proof. vm_compute. reflexivity. Qed.

Lemma sends2 : link_event demo_file second_data link1 = Some link2.
Proof. vm_compute. reflexivity. Qed.

Lemma demo_buffer_right id : 1 <= id <= 2 -> sent_right demo_file (demo_files 1) 7 (demo_buffer id).
Proof. intros Hid. unfold sent_right, demo_file, demo_files, demo_buffer. simpl. lia. Qed.

Lemma link1_files : lk_files link1 = demo_files /\ lk_session link1 7 = 1.
Proof. vm_compute. by split. Qed.

Lemma first_ok : event_ok demo_file demo_link first_data.
Proof.
  unfold event_ok, first_data, is_u32, UINT32_MOD, INT32_HALF. split_and!; try (simpl; lia).
  apply Forall_singleton, demo_buffer_right. lia.
Qed.

Lemma second_ok : event_ok demo_file link1 second_data.
Proof.
  unfold event_ok, second_data, is_u32, UINT32_MOD, INT32_HALF. destruct link1_files as [-> ->]. split_and!; try (simpl; lia).
  apply Forall_cons. split; [|apply Forall_singleton]; apply demo_buffer_right; lia.
Qed.

Lemma link2_reached : link_reaches demo_file demo_link link2.
Proof.
  apply (reaches_step _ _ link1 second_data); [|exact second_ok|exact sends2].
  apply (reaches_step _ _ demo_link first_data); [|exact first_ok|exact sends1]. apply reaches_start.
Qed.

Lemma demo_starts : link_start demo_link.
Proof. by split. Qed.

Lemma data_on_the_way_arrive_witness : exists l' calls, delivers demo_file 2 link2 = Some l' /\ lk_flying l' = [] /\
  app_calls (lk_client l') = app_calls (lk_client link2) ++ calls /\
  Forall2 (arrives_as demo_file (mappings (lk_client l'))) calls (List.filter (wanted (lk_client link2)) (lk_flying link2)).
Proof. exact (data_on_the_way_arrive demo_file (fun _ => eq_refl) demo_link link2 demo_starts link2_reached). Defined.

(** Two sessions with a track 7: the first buffer of session 2 comes without a
    descriptor, since a buffer of that track and id has been sent, and the
    application gets the memory of session 1 for it. *)
Definition two_sessions : DemoLink :=
  mkLink CallbackProxy_new (demo_client <| track_cb_list_ := [(1, [(7, tt)]); (2, [(7, tt)])] |>) [] demo_files (fun _ => 1).

Definition other_buffer : BnBuffer := mkBnBuffer 20 (-1) 4096 6000 640 480 1 0 8192.

Example sessions_share_memory : exists l ds1 ds2,
  delivers demo_file 2 (after (Send 2 7 [other_buffer] []) (after first_data two_sessions)) = Some l /\
  app_calls (lk_client l) = [TrackData 1 7 ds1 []; TrackData 2 7 ds2 []] /\
  map bd_data ds1 = map bd_data ds2 /\
  (forall d, d ∈ ds2 -> mappings (lk_client l) !! bd_data d = Some 110) /\ demo_files 2 7 (buffer_id other_buffer) = 120.
Proof.
  do 3 eexists. split; [vm_compute; reflexivity|]. split; [vm_compute; reflexivity|]. split; [vm_compute; reflexivity|].
  split; [|by vm_compute]. intros d ->%list_elem_of_singleton. by vm_compute.
Qed.

(** A client that thinks it has track 7; the service has no such session. *)
Definition stale_client : RecorderClient (M := Z) (T := Z) (S := DemoService) :=
  demo_client <| recorder_service_ := true |> <| client_id_ := 1 |> <| sessions_ := [(1, [(7, tt)])] |>.

Definition stale_link : DemoLink := mkLink CallbackProxy_new stale_client [] demo_files (fun _ => 1).

Definition stale1 : DemoLink := default stale_link (link_event demo_file first_data stale_link).
Definition stale2 : DemoLink := default stale_link (link_event demo_file Deliver stale1).

Definition refused : Z * RecorderClient (M := Z) (T := Z) (S := DemoService) :=
  default (0, stale_client) (Client_DeleteVideoTrack 1 7 (lk_client stale2)).

Lemma stale_sends : link_event demo_file first_data stale_link = Some stale1.
Proof. vm_compute. reflexivity. Qed.

Lemma stale_gets : link_event demo_file Deliver stale1 = Some stale2.
Proof. vm_compute. reflexivity. Qed.

Lemma stale_event_ok : event_ok demo_file stale_link first_data.
Proof.
  unfold event_ok, first_data, is_u32, UINT32_MOD, INT32_HALF. split_and!; try (simpl; lia).
  apply Forall_singleton, demo_buffer_right. lia.
Qed.

Lemma stale_ok : link_ok demo_file stale2.
Proof.
  apply (reaches_ok demo_file demo_maps stale_link stale2); [by split|].
  apply (reaches_step _ _ stale1 Deliver); [|done|exact stale_gets].
  apply (reaches_step _ _ stale_link first_data); [apply reaches_start|exact stale_event_ok|exact stale_sends].
Qed.

Lemma stale_files : lk_files stale2 = demo_files.
Proof. vm_compute. reflexivity. Qed.

Lemma stale_session : lk_session stale2 = fun _ => 1.
Proof. vm_compute. reflexivity. Qed.

Lemma stale_right : sent_right demo_file (files_of stale2) 7 (demo_buffer 1).
Proof. unfold sent_right, files_of. rewrite stale_files, stale_session. apply (demo_buffer_right 1). lia. Qed.

Lemma stale_refused : Client_DeleteVideoTrack 1 7 (lk_client stale2) = Some (BAD_VALUE, snd refused).
Proof. vm_compute. reflexivity. Qed.

Lemma stale_facts : lk_flying stale2 = [] /\ knows_track 1 7 (lk_client stale2) = true /\ has_track_cb 1 7 (snd refused) = true /\
  fd_table (snd refused) !! (-1) = None /\ kv_mem 1 (at_key [] 7 (sent_buffers (lk_proxy stale2))) = true.
Proof. vm_compute. repeat split; reflexivity. Qed.

Lemma stale_sent : 1 ∈ sent_set (lk_proxy stale2) 7.
Proof. apply elem_key_set, stale_facts. Qed.

Lemma refused_deletion_breaks_buffers_witness : exists l1 l2 l3, link_event demo_file (DeleteTrack 1 7 1 id) stale2 = Some l1 /\
  link_event demo_file (Send 1 7 [demo_buffer 1] []) l1 = Some l2 /\ link_event demo_file Deliver l2 = Some l3 /\
  app_calls (lk_client l3) = (app_calls (snd refused) ++ [TrackData 1 7 [describe MAP_FAILED (-1) (demo_buffer 1)] []])%list.
Proof.
  destruct stale_facts as (E1 & E2 & E3 & E4 & _).
  apply (refused_deletion_breaks_buffers demo_file stale2 1 7 1 id BAD_VALUE (snd refused) (demo_buffer 1) stale_ok E1 E2 stale_refused);
    [done|exact E3|exact E4|unfold is_u32, UINT32_MOD; lia|unfold is_u32, UINT32_MOD; lia|exact stale_sent|exact stale_right].
Defined.
End TransferDemo.
