(* ===== verification/Service.v ===== *)
(** * The service as a whole

    [RecorderImpl] over the [CameraSource] and the [EncoderCore] of the
    service instead of over their interfaces: the cameras that the camera
    source has open are those that clients own. *)

From S2P Require Import Prelude KeyedVector Floats Monitor Memory Stream ExtraParam BufferProducer FrameRate Rescaler Track RecorderTypes EncoderCore EncoderFacts Thumbnail CameraInterface CameraSource SimpleDevice CameraSourceLaws Wiring Recorder RecorderCameras.

Section Service.
Context {M K D V I : Type} `{CameraInterface M K} `{AllocDevice D} `{AllocUsage} `{HalPlatform} `{RgbPlatform}
  `{RescalerPlatform D} `{JpegPlatform} `{IAVCodec V} `{IonDevice I}.

Abbreviation Source := (CameraSource (K := K) (D := D)).
Abbreviation Encoders := (EncoderCore (V := V) (I := I)).

(** What others do while a track or an encoder stops, and the ION device at
    the start. *)
Context (waits : StopWaits (K := K) (D := D)) (device : I) (during : TrackEncoder (V := V) -> TrackEncoder (V := V)).

Context (waits_keep : forall g m s, (g ∈ frc_waits waits \/ g ∈ fsc_waits waits \/ g ∈ idle_waits waits) ->
  same_map m s -> same_map m (snd (g s))).
Context (rescaler_keeps : forall m s, same_map m s -> same_map m (rescaler_during waits s)).

Definition service_source : CameraSourceOps M Source := camera_source_ops waits.
Definition service_laws : @CameraSourceLaws M Source service_source := camera_source_laws waits waits_keep rescaler_keeps.
Definition service_encoders : EncoderCoreOps Encoders := encoder_core_ops device during.

#[local] Existing Instances service_source service_laws service_encoders.

Abbreviation Service := (RecorderImpl (M := M) (C := Source) (E := Encoders)).

(** C37. In the service with its camera source and its encoders: after any
    calls that remove no dead client, in which what happens during waits
    leaves the cameras of the camera source as they are, a camera is open in
    the camera source just when a client owns it, and then one client does. *)
Theorem open_cameras_are_owned (calls : list (ServiceCall (M := M))) (s : Service) (source : Source) :
  recorder_run calls recorder_started = Some s -> no_deaths calls -> camera_source_ s = Some source ->
  (forall cam, is_Some (camera_map_ source !! cam) <-> exists client, owns client cam s) /\
  (forall c1 c2 cam, owns c1 cam s -> owns c2 cam s -> c1 = c2).
Proof.
  intros Hr Hd Hs. destruct (run_inv true calls (fun _ => Hd) _ _ started_inv Hr) as [[[K1 K2 K3 K4] Ho] _].
  split; [|exact K4]. intros cam. rewrite <- elem_of_dom.
  assert (open_set s = dom (camera_map_ source)) as He by (unfold open_set; by rewrite Hs).
  rewrite <- He. split; [by apply Ho|]. intros [client Hc]. by apply (K3 client cam true).
Qed.
End Service.

(** ** Witness *)

Import Demo.

Abbreviation DemoSource := (CameraSource (K := SimpleDevice) (D := ListDevice)).
Abbreviation DemoEncoders := (EncoderCore (V := bool) (I := Device)).

Lemma no_waits_keep_cameras g m (s : DemoSource) :
  (g ∈ frc_waits no_waits \/ g ∈ fsc_waits no_waits \/ g ∈ idle_waits no_waits) -> same_map m s -> same_map m (snd (g s)).
Proof. intros [Hg|[Hg|Hg]]; by apply elem_of_nil in Hg. Qed.

Lemma no_rescaler_keeps m (s : DemoSource) : same_map m s -> same_map m (rescaler_during no_waits s).
Proof. done. Qed.

(** The run below, of two clients of one camera. *)
Abbreviation service_after calls :=
  (@recorder_run Z DemoSource DemoEncoders (service_source no_waits) (service_encoders demo_device id) calls
    (@recorder_started Z DemoSource DemoEncoders (service_source no_waits) (service_encoders demo_device id))).

Definition service_state : RecorderImpl (M := Z) (C := DemoSource) (E := DemoEncoders) :=
  default RecorderImpl_new (service_after two_clients).

Definition service_camera_source : DemoSource := default CameraSource_new (camera_source_ service_state).

Lemma service_runs : service_after two_clients = Some service_state.
Proof. vm_compute. reflexivity. Qed.

Lemma service_has_source : camera_source_ service_state = Some service_camera_source.
Proof. vm_compute. reflexivity. Qed.

Lemma service_camera_open : is_Some (camera_map_ service_camera_source !! 0).
Proof. vm_compute. by eexists. Qed.

Lemma two_clients_live : no_deaths two_clients.
Proof.
  intros op Hin. apply list_elem_of_In in Hin. simpl in Hin.
  destruct Hin as [Hin|[Hin|[Hin|[Hin|[]]]]]; injection Hin as <-; reflexivity.
Qed.

Lemma open_cameras_are_owned_witness : exists client, owns client 0 service_state.
Proof.
  exact (proj1 (proj1 (open_cameras_are_owned no_waits demo_device id no_waits_keep_cameras no_rescaler_keeps two_clients service_state
    service_camera_source service_runs two_clients_live service_has_source) 0) service_camera_open).
Defined.
